(* ===== verification/_CoqProject ===== *)
-Q . S2P
Prelude.v
Safe.v
Float32.v
Buffer.v
Crc.v
DigitalFilter.v
Packet.v
Flash.v
Eeprom.v
EepromSpec.v
EepromSafety.v
EepromTheorems.v
McTypes.v
ConfCodec.v
Motor.v
World.v
Utils.v
McpwmState.v
FocState.v
Foc.v
FocIsr.v
Mcpwm.v
McpwmIsr.v
McpwmBridge.v
McpwmSafe.v
ConfDefault.v
McpwmTheorems.v
McpwmStopped.v
McpwmCounts.v
Transmit.v
McInterface.v
McInterfaceSpec.v
BoardSim.v
McInterfaceSafe.v
McInterfaceTheorems.v
FlashHelper.v
Timeout.v
ConfGeneral.v
Commands.v
CommCan.v
Keeps.v
ConfTheorems.v
FlashTheorems.v
TimeoutTheorems.v
CanTheorems.v
CommandTheorems.v
CanProgress.v
FloatExact.v
FloatRound.v
FloatVector.v
FastSin.v
FocMeasure.v
FocSvm.v
FocControl.v
FocLimits.v
FocBridge.v
FocMeasureTheorems.v
AppCommon.v
AppPpm.v
AppPpmTheorems.v
AppAdc.v
AppAdcTheorems.v
AppNunchuk.v
AppNunchukTheorems.v
AppUart.v
AppUartTheorems.v
AppSten.v
Radio.v
NrfDriver.v
NrfTheorems.v
RfTheorems.v
Encoder.v
App.v
CommUsb.v
Servo.v
ServoTheorems.v
Leds.v
LedsTheorems.v
Main.v
MainTheorems.v
