(* ===== verification/Prelude.v ===== *)
(** * The VESC motor controller firmware, verified

    This library models the core of the firmware under src/ (the VESC motor
    controller, C on an STM32F4 with ChibiOS) and proves what its parts
    promise.  The program is a translation of the C code into Rocq functions,
    definition by definition; a definition keeps the name of the C function.

    ** The program and the files that model it

    A command reaches the controller over a serial line, the CAN bus or a radio.
    packet.c takes frames out of the byte stream and checks their CRC (crc.c);
    comm_can.c reassembles packets from CAN frames and nrf_driver.c from radio
    payloads; commands.c executes a packet: it reads its fields with buffer.c and calls the motor control
    interface, stores a configuration (conf_general.c, on top of the EEPROM
    emulation eeprom.c), or writes a new program into the flash
    (flash_helper.c).  mc_interface.c guards the motor: it refuses commands
    while it is locked or after a fault, derives the current limits in force
    from temperature and battery voltage, and supervises the motor in the
    interrupt handler.  timeout.c brakes the motor when commands stop coming.
    The applications (PPM, ADC, nunchuk, UART) are further sources of commands;
    app.c configures and starts them.  encoder.c reads the position of the rotor.
    servo.c and led_external.c, with ws2811.c and ledpwm.c, drive servos and
    LEDs.  main.c reads the configurations from the EEPROM and starts everything.

    - Prelude: machine integers, the state-and-failure monad [ST], record
      update; Float32: binary32 arithmetic.
    - Buffer (buffer.c), Crc (crc.c), Packet (packet.c): definitions and
      theorems in one file each.
    - Flash: the interface of the flash driver, the sector table of
      flash_helper.c, and two concrete flashes.  Eeprom (eeprom.c);
      EepromSpec, EepromSafety: its lemmas, from half-words up to
      whole operations; EepromTheorems: its properties.
    - McTypes (datatypes.h), ConfCodec (the wire format of the configurations
      in commands.c), ConfDefault (the default configurations).
    - Motor: the interface to the motor drivers and the board, with the ADC
      channels and measurement formulas of hardware 4.10; World: the
      static variables of all files, one record per C file, and the [world]
      that holds them; BoardSim: a concrete board for the witnesses.
    - Utils (utils.c); Transmit (the sending halves of
      comm_can.c and commands.c); McInterface (mc_interface.c), with its lemmas
      in McInterfaceSpec and McInterfaceSafe and its properties in
      McInterfaceTheorems.
    - FlashHelper (flash_helper.c), Timeout (timeout.c), ConfGeneral
      (conf_general.c), Commands and CommCan (the receiving halves of
      commands.c and comm_can.c).
    - Keeps: which operations leave which variables alone;
      ConfTheorems, FlashTheorems, TimeoutTheorems, CanTheorems,
      CommandTheorems, CanProgress: the properties of these components.
    - DigitalFilter (digital_filter.c) with its properties; the
      design of the low-pass filters never leaves its arrays.
    - McpwmState, Mcpwm, McpwmIsr (mcpwm.c, the driver for brushless and DC motors: its
      static variables and registers, its functions, its interrupt handlers
      and threads); McpwmBridge: the transistors and the commutation table;
      McpwmSafe: the invariant, function by function; McpwmTheorems,
      McpwmStopped, McpwmCounts: its properties.  Safe: the small
      Hoare logic these proofs use.
    - FocState, Foc, FocIsr (mcpwm_foc.c, the driver for field-oriented
      control: its variables and registers, its functions, its interrupt
      handler and thread), FocMeasure (its four measurements); FocSvm,
      FocControl, FocLimits, FocBridge, FocMeasureTheorems: its properties.
      Encoder (encoder.c) with its properties.
    - FloatExact: integers below 2^24 are computed exactly in binary32.
      FloatRound: the operations of [Float32] are correctly rounded operations
      on real numbers, with infinities and NaN, and error bounds;
      FloatVector, FastSin: the saturation of vectors and the fast sine of
      utils.c stay within their bounds for every input.
    - AppCommon: the specification of the safe start, the output stage the
      input applications share, and how an
      application's static variables stand beside the core; AppPpm (app_ppm.c
      and the pulse decoder servo_dec.c), AppAdc (app_adc.c), AppNunchuk
      (app_nunchuk.c), AppUart (app_uartcomm.c), each with its properties in
      ...Theorems.  AppSten (app_sten.c).  App (app.c): all of them
      side by side.
    - Radio (spi_sw.c, rf.c, rfhelp.c), NrfDriver (nrf_driver.c): the
      radio, from its pins over its registers up to packets; RfTheorems,
      NrfTheorems: its properties.
    - CommUsb (comm_usb.c).  Servo (servo.c, servo_simple.c), ServoTheorems.
      Leds (ws2811.c, led_external.c, ledpwm.c), LedsTheorems.  Main (main.c):
      the start and the threads of main.c over all of the above; MainTheorems.

    ** How the code is represented

    Integers are [Z], with the conversions of C written out ([u8], [i32], ...);
    a byte array is a list of [Z].  Operations on static variables are
    computations in [ST S A := S -> option (A * S)]; [None] is an access
    outside an array (or, for a function with fuel, a loop that has not ended).
    Reading and writing single global variables is explicit, in the order of
    the source.  Interrupt handlers and the bodies of the endless thread loops
    are steps ([..._step]); theorems about sequences of events run them in any
    order.  Frames and packets that leave the program are appended to the
    output [w_out] of the world.

    Floating point is exact: the Makefile compiles with
    -fsingle-precision-constant and the target has a single-precision FPU, so
    every operation is rounded once to binary32 ([f32], the standard library's
    [spec_float]).  The model assumes that the compiler does not contract
    a*b+c into one operation.  Conversions to integers saturate, as the VCVT
    instruction does.  Enumerations are bytes (-fshort-enums is the default of
    the ABI).  The board is hardware 4.10.

    ** What the program is parameterised with

    - [Flash] with [FlashLaws] and [FlashReliable]: the STM32 flash driver.
      Programming clears bits of the addressed cells, erasing sets a sector to
      ones, an operation that reports an error has either taken effect or not.
      [flash_sim] (with scripted errors) and [flash_mem] are instances.
    - [Board]: sensors, encoder, libm's logf, and the two motor drivers, which
      mc_interface.c uses through the same set of operations ([driver]).
      Laws used by single theorems are classes of their own
      ([StopEndsDetection], [CommandsDoNotDetect], [DetectArrays]).
    - [Libm] (cosf, sinf, asinf), [LibmTrig] (sincosf, atan2f, roundf) and
      [LibmPow] (powf); only the theorem on the strip of LEDs assumes something
      about them, that powf and roundf keep 0.  [qsort]: it permutes and sorts.
    - [Layout] with [LayoutOk]: the memory image the compiler gives the two
      configuration structures.  [Sleep]: what happens to the world while a
      measurement sleeps.  [FocIn]: where the variables of the FOC driver are.
      [Apps]: the decoded inputs of the applications.  [Positions]: what
      main.c reads of the two drivers.
    - [NrfPins] and [EncPins]: what the pins of the radio and of the encoder
      do.  [ByteMachine]: a device that answers bytes with bytes; [NrfChip]:
      the registers of the radio as its data sheet describes them.
      [FocInLaws], [SleepEnds]: reading back the variables of the FOC driver
      after writing them, and that a sleep ends.

    Every theorem with such a hypothesis has a witness at a concrete instance
    ([BoardSim], [flash_mem], [slave chip], ...).

    ** What the theorems show

    - Packet, Crc: a stream of frames arrives complete and in order after any
      history of the receiver; what is delivered stood in the stream as a
      frame; the receiver stays inside its buffers; short error bursts are
      detected; the one length (256) that gets lost.
    - EepromTheorems: the emulation refines a finite map, page transfers
      included; a write interrupted at any flash operation is recovered, also
      when the recovery is interrupted in turn; the state that is not.
    - McInterface*: lock, override and fault blocking over command sequences;
      safety of the interrupt handler; the limits in force; a change of
      configuration; the errors found on the way.
    - ConfTheorems, FlashTheorems, TimeoutTheorems, CanTheorems,
      CommandTheorems, CanProgress: round trips of configurations over the
      wire and through the EEPROM, of packets over the CAN bus and of programs
      into the flash; the timeout; what the command packets do; that the CAN
      thread's loop ends.
    - Mcpwm*: the driver as a transition system of commands, interrupts,
      threads and readings: it never leaves its arrays, its bridge is always in
      a legal pattern and off when the driver is; a stopped motor stays stopped
      until a command, whatever the sensors read; commutation follows the table in the comments; the
      tachometer counts the net rotation; what the hall detection finds; the
      two errors found on the way.
    - Foc*: the current controller keeps the switching times within the PWM
      period whatever its inputs are, and they realise the modulation vector;
      the current targets respect the limits of motor and battery; the bridge
      is on only while the motor runs or is measured; a released motor stays
      released; measurements end and restore what they changed.
    - FocControl: the angle loops end for every angle up to 990 rad and never
      for one beyond 2^27 rad.  Encoder: the angle is that of the
      sensor and lies within one turn.
    - DigitalFilter: the FIR filter over the ring buffer is the
      weighted sum of the latest samples.
    - App*Theorems: over any history of pulses, timer ticks, rounds, faults and
      configurations the PPM and ADC applications do not drive before the
      input was at zero long enough (the ADC application counts the sleep before
      its first look, whatever period that was begun with), and the PPM application drives after 51
      rounds; what a round commands; cruise control; a lost nunchuk is
      silent; framed commands on the serial line reach the motor in order,
      through the ring, the packet handler and the command protocol; the
      errors found on the way.
    - ServoTheorems: every servo gets a pulse of the length of its position and
      a tick for each position up to it, whatever the positions and ports are.  LedsTheorems: every LED of the
      strip is sent the bits of its colour, after any history.
    - MainTheorems: an application configuration that was stored is in force
      after a restart, in every part of the firmware.
    - RfTheorems, NrfTheorems: the pin sequences exchange the bytes of the
      commands; a restart configures the radio whatever its registers held;
      a packet survives reordered, repeated and damaged payloads.

    ** Fuel

    The loops over flash slots take [page_fuel]/[scan_fuel], the number of
    slots of a page; packet and CAN loops take the length of their data, the
    angle loops of utils.c a number of rounds, the thread of the serial line
    1024 (of the USB line: 2048), one more than characters can wait, the grouping
    of the servos their number plus one.  The theorems state success
    outright: that a loop ends within its fuel is part of each of them.

    ** Not modelled

    Of mcpwm.c and mcpwm_foc.c, the register set-up in the initialisation
    appears as its effect on the timers; mc_interface.c sees both drivers
    through the interface [driver]; the preload bits of the duty registers and
    the text output of mcpwm_foc.c are left out; handlers, commands and thread rounds run one
    after the other, each as a whole; the balanced calls that lock the system
    and the watchdog are left out; timers 2 and 12 are inputs; an integer
    division by zero gives 0, as on the target.  The rounds of the application
    threads are atomic too; that commands.c reads their decoded inputs is the
    interface [Apps].  The start in
    [main_init] runs as a whole, although interrupts and threads begin before
    its end; [Main] keeps its own LED state, which [Board]'s [ledpwm_update_pwm]
    stands for in mc_interface.c.  What conf_general.h compiles out (the outputs
    for servos and LED strips, app_sten.c) is modelled as it is when compiled in,
    and not started by [main_init].  Text for people (terminal.c), pin
    set-up (hwconf/), DMA and timer set-up, USB descriptors, and the third party
    code (ChibiOS, the STM32 library) are left out: they print, write constants to
    registers or are not of this program; what the core relies on of the
    latter is in the classes above. *)
From Stdlib Require Export ZArith Lia.
From stdpp Require Export base numbers list gmap option.
#[global] Open Scope Z_scope.

(** ** Machine integers

    A C integer of width [w] is a [Z]; the conversions below are the C
    conversions to the fixed-width types (unsigned: reduction modulo [2^w];
    signed: two's complement wrap-around, which is what GCC documents). *)

Definition wrapu (w z : Z) : Z := z mod 2 ^ w.
Definition wraps (w z : Z) : Z := (z + 2 ^ (w - 1)) mod 2 ^ w - 2 ^ (w - 1).

Definition u8 (z : Z) : Z := z mod 256.
Definition u16 (z : Z) : Z := z mod 65536.
Definition u32 (z : Z) : Z := z mod 4294967296.
Definition i8 (z : Z) : Z := (z + 128) mod 256 - 128.
Definition i16 (z : Z) : Z := (z + 32768) mod 65536 - 32768.
Definition i32 (z : Z) : Z := (z + 2147483648) mod 4294967296 - 2147483648.

Definition is_u8 (z : Z) : Prop := 0 <= z < 256.
Definition is_u16 (z : Z) : Prop := 0 <= z < 65536.
Definition is_u32 (z : Z) : Prop := 0 <= z < 4294967296.
Definition is_i16 (z : Z) : Prop := -32768 <= z < 32768.
Definition is_i32 (z : Z) : Prop := -2147483648 <= z < 2147483648.

(** Goals that mix the conversions above with linear arithmetic. *)
Ltac int_solve :=
  unfold u8, u16, u32, i8, i16, i32, is_u8, is_u16, is_u32, is_i16, is_i32 in *;
  Z.to_euclidean_division_equations; lia.

Lemma u8_range z : is_u8 (u8 z).
Proof. unfold is_u8, u8. apply Z.mod_pos_bound. lia. Qed.
Lemma u16_range z : is_u16 (u16 z).
Proof. unfold is_u16, u16. apply Z.mod_pos_bound. lia. Qed.
Lemma u32_range z : is_u32 (u32 z).
Proof. unfold is_u32, u32. apply Z.mod_pos_bound. lia. Qed.
Lemma i16_range z : is_i16 (i16 z).
Proof. int_solve. Qed.
Lemma i32_range z : is_i32 (i32 z).
Proof. int_solve. Qed.

Lemma u8_id z : is_u8 z -> u8 z = z.
Proof. apply Z.mod_small. Qed.
Lemma u16_id z : is_u16 z -> u16 z = z.
Proof. apply Z.mod_small. Qed.
Lemma u32_id z : is_u32 z -> u32 z = z.
Proof. apply Z.mod_small. Qed.
Lemma i16_id z : is_i16 z -> i16 z = z.
Proof. int_solve. Qed.
Lemma i32_id z : is_i32 z -> i32 z = z.
Proof. int_solve. Qed.

(** Reading a signed number back from its unsigned representation. *)
Lemma i16_u16 z : i16 (u16 z) = i16 z.
Proof. unfold i16, u16. now rewrite Zplus_mod_idemp_l. Qed.
Lemma i32_u32 z : i32 (u32 z) = i32 z.
Proof. unfold i32, u32. now rewrite Zplus_mod_idemp_l. Qed.
Lemma u8_u16 z : u8 (u16 z) = u8 z.
Proof. int_solve. Qed.

Create HintDb cint.
Create Rewrite HintDb cint_rw.
#[export] Hint Resolve u8_range u16_range u32_range i16_range i32_range : cint.
#[export] Hint Rewrite i16_u16 i32_u32 u8_u16 : cint_rw.

(** ** Bytes of a big-endian number *)

Lemma testbit_small b k n : 0 <= k <= n -> 0 <= b < 2 ^ k -> Z.testbit b n = false.
Proof.
  intros Hk Hb. rewrite <- (Z.mod_small b (2 ^ k)) by done.
  apply Z.mod_pow2_bits_high. lia.
Qed.

(** Joining bytes with [<<] and [|], as the code does, is addition. *)
Lemma lor_shiftl_add a b k :
  0 <= k -> 0 <= b < 2 ^ k -> Z.lor (Z.shiftl a k) b = a * 2 ^ k + b.
Proof.
  intros Hk Hb. rewrite <- Z.shiftl_mul_pow2 by done.
  assert (Hland : Z.land (Z.shiftl a k) b = 0).
  { apply Z.bits_inj'; intros n Hn. rewrite Z.land_spec, Z.bits_0.
    destruct (decide (n < k)).
    - now rewrite Z.shiftl_spec_low by done.
    - rewrite (testbit_small b k n), andb_false_r by lia. done. }
  rewrite Z.add_nocarry_lxor by done. symmetry. now apply Z.lxor_lor.
Qed.

(** ** A state monad with failure

    [ST S A] is a computation over a state [S] that either fails or returns
    a value and the next state.  Failure stands for what C leaves undefined:
    an access outside an array.  A theorem that concludes [= Some _] therefore
    also states memory safety. *)

Definition ST (S A : Type) : Type := S -> option (A * S).

#[global] Instance ST_ret {S} : MRet (ST S) := fun A a s => Some (a, s).
#[global] Instance ST_bind {S} : MBind (ST S) :=
  fun A B k m s => match m s with Some (a, s') => k a s' | None => None end.

Definition st_get {S} : ST S S := fun s => Some (s, s).
Definition st_put {S} (s : S) : ST S unit := fun _ => Some (tt, s).
Definition st_modify {S} (f : S -> S) : ST S unit := fun s => Some (tt, f s).
Definition st_fail {S A} : ST S A := fun _ => None.

Lemma ST_bind_Some {S A B} (m : ST S A) (k : A -> ST S B) s a s' :
  m s = Some (a, s') -> mbind (M := ST S) k m s = k a s'.
Proof. intros H. unfold mbind, ST_bind. now rewrite H. Qed.

(** ** Arrays and counted loops in [option]

    [l !!? i] and [put_ix i x l] are [l[i]] and [l[i] = x]; they fail outside
    the array.  [for_loop n i step body a] runs [body] at [i], [i + step], ...
    [n] times. *)

Definition at_ix {A} (i : Z) (l : list A) : option A :=
  if decide (0 <= i) then l !! Z.to_nat i else None.
Notation "l !!? i" := (at_ix i l) (at level 20).

Definition put_ix {A} (i : Z) (x : A) (l : list A) : option (list A) :=
  if decide (0 <= i < Z.of_nat (length l)) then Some (<[Z.to_nat i := x]> l) else None.

Fixpoint for_loop {A} (n : nat) (i step : Z) (body : Z -> A -> option A) (a : A) : option A :=
  match n with
  | O => Some a
  | S n => a ← body i a; for_loop n (i + step) step body a
  end.

Lemma for_loop_S {A} n i step body (a : A) :
  for_loop (S n) i step body a = (a ← body i a; for_loop n (i + step) step body a).
Proof. done. Qed.

(** A loop does what a simpler loop does, for states related by [Rel]: with
    a loop that only checks indices this shows that no access fails. *)
Lemma for_loop_sim {A C} (Rel : C -> A -> Prop) n i step chk body (c c' : C) (a : A) :
  for_loop n i step chk c = Some c' -> Rel c a ->
  (forall i c a c', chk i c = Some c' -> Rel c a -> exists a', body i a = Some a' /\ Rel c' a') ->
  exists a', for_loop n i step body a = Some a' /\ Rel c' a'.
Proof.
  intros Hc Ha H. revert i c a Hc Ha. induction n as [|n IH]; intros i c a Hc Ha.
  { injection Hc as <-. by exists a. }
  rewrite for_loop_S in Hc. destruct (chk i c) as [c1|] eqn:E; [|discriminate].
  destruct (H _ _ _ _ E Ha) as (a1 & Ha1 & Hr). cbn [mbind option_bind] in Hc.
  rewrite for_loop_S, Ha1. by apply (IH _ c1).
Qed.

(** A loop that counts up keeps an invariant that its body keeps. *)
Lemma for_loop_inv {A} (I : Z -> A -> Prop) n i body (a : A) :
  I i a -> (forall j a, i <= j < i + Z.of_nat n -> I j a -> exists a', body j a = Some a' /\ I (j + 1) a') ->
  exists a', for_loop n i 1 body a = Some a' /\ I (i + Z.of_nat n) a'.
Proof.
  revert i a. induction n as [|n IH]; intros i a Ha H.
  { exists a. rewrite Z.add_0_r. done. }
  destruct (H i a) as (a1 & Hb & Ha1); [lia|done|]. rewrite for_loop_S, Hb.
  destruct (IH (i + 1) a1 Ha1) as (a' & Hr & Hi); [intros; apply H; [lia|done]|].
  exists a'. split; [exact Hr|]. by replace (i + Z.of_nat (S n)) with (i + 1 + Z.of_nat n) by lia.
Qed.

Lemma at_ix_Some {A} (l : list A) i : 0 <= i < Z.of_nat (length l) -> exists x, l !!? i = Some x.
Proof.
  intros Hi. unfold at_ix. rewrite decide_True by lia.
  destruct (lookup_lt_is_Some_2 l (Z.to_nat i)) as [x Hx]; [lia|]. by exists x.
Qed.

Lemma put_ix_Some {A} (l : list A) i x :
  0 <= i < Z.of_nat (length l) -> put_ix i x l = Some (<[Z.to_nat i := x]> l).
Proof. intros Hi. unfold put_ix. by rewrite decide_True. Qed.

Lemma at_ix_lookup {A} (l : list A) (n : nat) : l !!? Z.of_nat n = l !! n.
Proof. unfold at_ix. rewrite decide_True by lia. by rewrite Nat2Z.id. Qed.

(** ** Sums *)

Definition zsum (l : list Z) : Z := foldr Z.add 0 l.

Lemma zsum_insert l i x y : l !! i = Some x -> zsum (<[i := y]> l) = zsum l - x + y.
Proof.
  revert i. induction l as [|a l IH]; intros [|i] Hi; try discriminate.
  - injection Hi as ->. change (y + zsum l = x + zsum l - x + y). lia.
  - change (a + zsum (<[i := y]> l) = a + zsum l - x + y). rewrite (IH i Hi). lia.
Qed.

(** ** Record update

    [r <| f := v |>] replaces one field. The setter is computed from the
    record's eta expansion, which each record declares as an [Eta] instance. *)

Class Eta (R : Type) : Type := eta : R -> R.
Class Setter {R T : Type} (proj : R -> T) : Type := setter : (T -> T) -> R -> R.

Ltac solve_setter :=
  match goal with
  | |- @Setter ?R ?T ?proj =>
      let inst := constr:(_ : Eta R) in
      let body := eval red in inst in
      let abs := eval pattern proj in body in
      match abs with
      | ?g _ => exact (fun (h : T -> T) => g (fun r => h (proj r)))
      end
  end.

#[export] Hint Extern 1 (Setter _) => solve_setter : typeclass_instances.

Notation "r <| f := v |>" := (setter (proj := f) (fun _ => v) r)
  (at level 1, left associativity, f at level 1, v at level 200,
   format "r <| f  :=  v |>").
