(* ===== verification/Safe.v ===== *)
(** * Safe: a small Hoare logic for [ST]

    [triple P m Q]: from every state in [P] the computation [m] succeeds, and
    result and final state are in [Q].  [safe P m] says that [m] succeeds and
    keeps the invariant [P].  Both are total: a failure, which is an access
    outside an array, is excluded.  [post P m Q] is the partial version: if [m]
    succeeds from a state in [P], result and final state are in [Q]. *)
From S2P Require Import Prelude.

Section Logic.
Context {S : Type}.

Definition triple {A} (P : S -> Prop) (m : ST S A) (Q : A -> S -> Prop) : Prop :=
  forall s, P s -> exists a s', m s = Some (a, s') /\ Q a s'.

Definition safe (P : S -> Prop) {A} (m : ST S A) : Prop := triple P m (fun _ => P).

Lemma triple_bind {A B} P Q R (m : ST S A) (k : A -> ST S B) :
  triple P m Q -> (forall a, triple (Q a) (k a) R) -> triple P (mbind k m) R.
Proof.
  intros Hm Hk s Hs. destruct (Hm s Hs) as (a & s1 & Hr & Hs1).
  rewrite (ST_bind_Some _ _ _ _ _ Hr). by apply Hk.
Qed.

Lemma triple_ret {A} (P : S -> Prop) (a : A) (Q : A -> S -> Prop) :
  (forall s, P s -> Q a s) -> triple P (mret a) Q.
Proof. intros H s Hs. exists a, s. split; [done|]. by apply H. Qed.

Lemma triple_modify (P : S -> Prop) f (Q : unit -> S -> Prop) :
  (forall s, P s -> Q tt (f s)) -> triple P (st_modify f) Q.
Proof. intros H s Hs. exists tt, (f s). split; [done|]. by apply H. Qed.

Lemma triple_weaken {A} (P P' : S -> Prop) (Q Q' : A -> S -> Prop) (m : ST S A) :
  (forall s, P' s -> P s) -> (forall a s, Q a s -> Q' a s) -> triple P m Q -> triple P' m Q'.
Proof.
  intros HP HQ Hm s Hs. destruct (Hm s (HP s Hs)) as (a & s' & Hr & Hq). exists a, s'. eauto.
Qed.

Lemma triple_if {A} (b : bool) P (m1 m2 : ST S A) Q :
  (b = true -> triple P m1 Q) -> (b = false -> triple P m2 Q) -> triple P (if b then m1 else m2) Q.
Proof. destruct b; auto. Qed.

Context (P : S -> Prop).

Lemma safe_ret {A} (a : A) : safe P (mret a).
Proof. by apply triple_ret. Qed.

Lemma safe_bind {A B} (m : ST S A) (k : A -> ST S B) :
  safe P m -> (forall a, safe P (k a)) -> safe P (mbind k m).
Proof. intros Hm Hk. eapply triple_bind; [exact Hm|]. intros a. apply Hk. Qed.

Lemma safe_if {A} (b : bool) (m1 m2 : ST S A) :
  safe P m1 -> safe P m2 -> safe P (if b then m1 else m2).
Proof. by destruct b. Qed.

Lemma safe_modify f : (forall w, P w -> P (f w)) -> safe P (st_modify f).
Proof. intros Hf. by apply triple_modify. Qed.
End Logic.

(** ** Partial correctness *)

Section Partial.
Context {S : Type}.

Definition post {A} (P : S -> Prop) (m : ST S A) (Q : A -> S -> Prop) : Prop :=
  forall s a s', P s -> m s = Some (a, s') -> Q a s'.

Definition stays (P : S -> Prop) {A} (m : ST S A) : Prop := post P m (fun _ => P).

Lemma post_bind {A B} P Q R (m : ST S A) (k : A -> ST S B) :
  post P m Q -> (forall a, post (Q a) (k a) R) -> post P (mbind k m) R.
Proof.
  intros Hm Hk s b s' Hs. unfold mbind, ST_bind. destruct (m s) as [[a s1]|] eqn:E; [|done].
  apply Hk. by apply (Hm s).
Qed.

Lemma post_weaken {A} (P P' : S -> Prop) (Q Q' : A -> S -> Prop) (m : ST S A) :
  (forall s, P' s -> P s) -> (forall a s, Q a s -> Q' a s) -> post P m Q -> post P' m Q'.
Proof. intros HP HQ Hm s a s' Hs Hr. eauto. Qed.

Lemma post_ret {A} (P : S -> Prop) (a : A) (Q : A -> S -> Prop) :
  (forall s, P s -> Q a s) -> post P (mret a) Q.
Proof. intros H s b s' Hs [= <- <-]. by apply H. Qed.

Lemma post_modify (P : S -> Prop) f (Q : unit -> S -> Prop) :
  (forall s, P s -> Q tt (f s)) -> post P (st_modify f) Q.
Proof. intros H s [] s' Hs [= <-]. by apply H. Qed.

Lemma post_if {A} (b : bool) P (m1 m2 : ST S A) Q :
  (b = true -> post P m1 Q) -> (b = false -> post P m2 Q) -> post P (if b then m1 else m2) Q.
Proof. destruct b; auto. Qed.

Context (P : S -> Prop).

Lemma stays_ret {A} (a : A) : stays P (mret a).
Proof. by apply post_ret. Qed.

Lemma stays_bind {A B} (m : ST S A) (k : A -> ST S B) :
  stays P m -> (forall a, stays P (k a)) -> stays P (mbind k m).
Proof. intros Hm Hk. eapply post_bind; [exact Hm|]. intros a. apply Hk. Qed.

Lemma stays_if {A} (b : bool) (m1 m2 : ST S A) :
  stays P m1 -> stays P m2 -> stays P (if b then m1 else m2).
Proof. by destruct b. Qed.
End Partial.
