(* ===== verification/Float32.v ===== *)
(** * Float32: the single-precision arithmetic of the firmware

    The Makefile compiles everything with [-fsingle-precision-constant], so
    every literal and every intermediate value of the floating-point code is
    an IEEE 754 binary32.  [f32] is the standard library's [spec_float] with
    24 bits of precision and exponent limit 128; the operations round to
    nearest, ties to even, once per C operation. *)
From Stdlib Require Export SpecFloat.
From S2P Require Import Prelude.

Abbreviation f32 := spec_float.

Declare Scope f32_scope.
Delimit Scope f32_scope with f32.

Definition fadd : f32 -> f32 -> f32 := SFadd 24 128.
Definition fsub : f32 -> f32 -> f32 := SFsub 24 128.
Definition fmul : f32 -> f32 -> f32 := SFmul 24 128.
Definition fdiv : f32 -> f32 -> f32 := SFdiv 24 128.
Definition fsqrt : f32 -> f32 := SFsqrt 24 128.
Definition fopp : f32 -> f32 := SFopp.
Definition fabs : f32 -> f32 := SFabs.
Definition fltb : f32 -> f32 -> bool := SFltb.
Definition fleb : f32 -> f32 -> bool := SFleb.
Definition feqb : f32 -> f32 -> bool := SFeqb.

Infix "+" := fadd : f32_scope.
Infix "-" := fsub : f32_scope.
Infix "*" := fmul : f32_scope.
Infix "/" := fdiv : f32_scope.
Notation "- x" := (fopp x) : f32_scope.
Notation "x <? y" := (fltb x y) : f32_scope.
Notation "x <=? y" := (fleb x y) : f32_scope.
Notation "x >? y" := (fltb y x) (only parsing) : f32_scope.
Notation "x >=? y" := (fleb y x) (only parsing) : f32_scope.
Notation "x =? y" := (feqb x y) : f32_scope.

(** ** Literals and conversions *)

(** The decimal literal [n/d], correctly rounded. *)
Definition flit (n : Z) (d : positive) : f32 :=
  match n with
  | Z0 => S754_zero false
  | Zpos p => let '(m, e, l) := SFdiv_core_binary 24 128 (Zpos p) 0 (Zpos d) 0 in
              binary_round_aux 24 128 false m e l
  | Zneg p => let '(m, e, l) := SFdiv_core_binary 24 128 (Zpos p) 0 (Zpos d) 0 in
              binary_round_aux 24 128 true m e l
  end.

(** [(float) n] for an integer [n]. *)
Definition f_of_int (n : Z) : f32 := binary_normalize 24 128 n 0 false.

Definition f0 : f32 := S754_zero false.
Definition f1 : f32 := f_of_int 1.
Definition fnan : f32 := S754_nan.

(** [M_PI], [2.0 * M_PI] as the compiler folds them in single precision. *)
Definition M_PI : f32 := flit 314159265358979323846 100000000000000000000.
Definition M_2PI : f32 := fmul (f_of_int 2) M_PI.

(** The integer part of a finite number. *)
Definition ftrunc (x : f32) : Z :=
  match x with
  | S754_finite s m e =>
      let a := match e with
               | Zneg p => Z.pos m / 2 ^ Z.pos p
               | _ => Z.pos m * 2 ^ e
               end in
      if s then - a else a
  | _ => 0
  end.

(** [(int32_t) x] and [(uint32_t) x].  In range this is truncation.  Out of
    range C leaves the result undefined; the target's VCVT instruction
    saturates and sends NaN to 0, and that is what is modelled. *)
Definition f2i32 (x : f32) : Z :=
  match x with
  | S754_infinity true => -2147483648
  | S754_infinity false => 2147483647
  | _ => Z.max (-2147483648) (Z.min 2147483647 (ftrunc x))
  end.

(** [(int16_t) x]: converted to a 32-bit register, then truncated. *)
Definition f2i16 (x : f32) : Z := i16 (f2i32 x).

Definition f2u32 (x : f32) : Z :=
  match x with
  | S754_infinity true => 0
  | S754_infinity false => 4294967295
  | _ => Z.max 0 (Z.min 4294967295 (ftrunc x))
  end.

Lemma f2i32_range x : is_i32 (f2i32 x).
Proof. unfold f2i32, is_i32. destruct x as [|[]| |]; lia. Qed.

Lemma f2i16_range x : is_i16 (f2i16 x).
Proof. apply i16_range. Qed.

#[export] Hint Resolve f2i32_range f2i16_range : cint.

(** ** Order

    Comparisons are decided by a lexicographic key, so that facts about
    [<?] and [<=?] reduce to linear integer arithmetic. *)

Definition is_nan (x : f32) : bool :=
  match x with S754_nan => true | _ => false end.

Definition fkey (x : f32) : Z * Z * Z :=
  match x with
  | S754_infinity true => (-2, 0, 0)
  | S754_finite true m e => (-1, - e, - Z.pos m)
  | S754_finite false m e => (1, e, Z.pos m)
  | S754_infinity false => (2, 0, 0)
  | _ => (0, 0, 0)
  end.

Definition key_lt (a b : Z * Z * Z) : Prop :=
  let '(a1, a2, a3) := a in let '(b1, b2, b3) := b in
  a1 < b1 \/ a1 = b1 /\ (a2 < b2 \/ a2 = b2 /\ a3 < b3).

Definition key_eq (a b : Z * Z * Z) : Prop :=
  let '(a1, a2, a3) := a in let '(b1, b2, b3) := b in
  a1 = b1 /\ a2 = b2 /\ a3 = b3.

Lemma SFcompare_spec x y :
  is_nan x = false -> is_nan y = false ->
  match SFcompare x y with
  | Some Lt => key_lt (fkey x) (fkey y)
  | Some Eq => key_eq (fkey x) (fkey y)
  | Some Gt => key_lt (fkey y) (fkey x)
  | None => False
  end.
Proof.
  intros Hx Hy.
  destruct x as [sx|[]| |[] mx ex], y as [sy|[]| |[] my ey]; try discriminate;
    simpl; try lia.
  - destruct (Z.compare_spec ex ey); simpl; try lia.
    change (Pos.compare_cont Eq mx my) with (Pos.compare mx my).
    destruct (Pos.compare_spec mx my); simpl; lia.
  - destruct (Z.compare_spec ex ey); simpl; try lia.
    change (Pos.compare_cont Eq mx my) with (Pos.compare mx my).
    destruct (Pos.compare_spec mx my); simpl; lia.
Qed.

Lemma SFcompare_nan x y :
  is_nan x = true \/ is_nan y = true -> SFcompare x y = None.
Proof. destruct x, y; simpl; intros [?|?]; easy. Qed.

Lemma fltb_spec x y :
  fltb x y = true <->
  is_nan x = false /\ is_nan y = false /\ key_lt (fkey x) (fkey y).
Proof.
  unfold fltb, SFltb.
  destruct (is_nan x) eqn:Hx; [rewrite SFcompare_nan by auto; easy|].
  destruct (is_nan y) eqn:Hy; [rewrite SFcompare_nan by auto; easy|].
  pose proof (SFcompare_spec x y Hx Hy) as H.
  destruct (fkey x) as [[a1 a2] a3], (fkey y) as [[b1 b2] b3].
  destruct (SFcompare x y) as [[]|]; simpl in *; try easy;
    (split; [intros|intros (_ & _ & ?)]; try done; try split_and!; try done; lia).
Qed.

Lemma fleb_spec x y :
  fleb x y = true <->
  is_nan x = false /\ is_nan y = false /\ ~ key_lt (fkey y) (fkey x).
Proof.
  unfold fleb, SFleb.
  destruct (is_nan x) eqn:Hx; [rewrite SFcompare_nan by auto; easy|].
  destruct (is_nan y) eqn:Hy; [rewrite SFcompare_nan by auto; easy|].
  pose proof (SFcompare_spec x y Hx Hy) as H.
  destruct (fkey x) as [[a1 a2] a3], (fkey y) as [[b1 b2] b3].
  destruct (SFcompare x y) as [[]|]; simpl in *; try easy;
    (split; [intros|intros (_ & _ & ?)]; try done; try split_and!; try done; lia).
Qed.

Lemma fltb_false x y :
  fltb x y = false <->
  is_nan x = true \/ is_nan y = true \/ ~ key_lt (fkey x) (fkey y).
Proof.
  pose proof (fltb_spec x y) as H. destruct (fltb x y).
  - destruct H as [H _]. specialize (H eq_refl) as (?&?&?).
    split; [easy|]. intros [?|[?|?]]; congruence || easy.
  - destruct H as [_ H]. split; [intros _|done].
    destruct (is_nan x); [by left|]. destruct (is_nan y); [by right; left|].
    right; right. intros ?. discriminate H; auto.
Qed.

Lemma fleb_false x y :
  fleb x y = false <->
  is_nan x = true \/ is_nan y = true \/ key_lt (fkey y) (fkey x).
Proof.
  pose proof (fleb_spec x y) as H. destruct (fleb x y).
  - destruct H as [H _]. specialize (H eq_refl) as (?&?&?).
    split; [easy|]. intros [?|[?|?]]; congruence || easy.
  - destruct H as [_ H]. split; [intros _|done].
    destruct (is_nan x); [by left|]. destruct (is_nan y); [by right; left|].
    right; right. destruct (fkey x) as [[a1 a2] a3], (fkey y) as [[b1 b2] b3].
    simpl in *. destruct (decide (b1 < a1 \/ b1 = a1 /\ (b2 < a2 \/ b2 = a2 /\ b3 < a3)));
      [done|]. discriminate H. auto.
Qed.

(** Decide a goal about float comparisons from the comparisons in context. *)
Ltac float_order :=
  repeat match goal with
  | H : fltb _ _ = true |- _ => apply fltb_spec in H; destruct H as (?&?&H)
  | H : fleb _ _ = true |- _ => apply fleb_spec in H; destruct H as (?&?&H)
  | H : fltb _ _ = false |- _ => apply fltb_false in H; destruct H as [H|[H|H]]; [congruence..|]
  | H : fleb _ _ = false |- _ => apply fleb_false in H; destruct H as [H|[H|H]]; [congruence..|]
  | |- fltb _ _ = true => apply fltb_spec; split_and!; [congruence || assumption..|]
  | |- fleb _ _ = true => apply fleb_spec; split_and!; [congruence || assumption..|]
  | |- fltb _ _ = false => apply fltb_false
  | |- fleb _ _ = false => apply fleb_false
  end;
  repeat match goal with
  | H : context [fkey ?x] |- _ => destruct (fkey x) as [[? ?] ?]; simpl in H
  | |- context [fkey ?x] => destruct (fkey x) as [[? ?] ?]
  end; simpl in *; try lia.

Lemma fltb_irrefl x : fltb x x = false.
Proof. apply fltb_false. right; right. destruct (fkey x) as [[a b] c]; simpl; lia. Qed.

Lemma fltb_asym x y : fltb x y = true -> fltb y x = false.
Proof.
  intros H. destruct (fltb y x) eqn:E; [|done]. float_order.
Qed.

Lemma fltb_trans x y z : fltb x y = true -> fltb y z = true -> fltb x z = true.
Proof. intros. float_order. Qed.

Lemma fleb_trans x y z : fleb x y = true -> fleb y z = true -> fleb x z = true.
Proof. intros. float_order. Qed.

Lemma fltb_fleb x y : fltb x y = true -> fleb x y = true.
Proof. intros. float_order. Qed.

Lemma fleb_refl x : is_nan x = false -> fleb x x = true.
Proof. intros. float_order. Qed.

Lemma fltb_nlt_le x y :
  is_nan x = false -> is_nan y = false -> fltb x y = false -> fleb y x = true.
Proof. intros. float_order. Qed.

Create HintDb f32.
#[export] Hint Resolve fltb_irrefl fltb_fleb fleb_refl : f32.

(** ** Negation and absolute value *)

Lemma fabs_nonneg x : is_nan x = false -> fleb f0 (fabs x) = true.
Proof.
  intros. apply fleb_spec. split_and!; [done|by destruct x|].
  destruct x; simpl; lia.
Qed.

Lemma fopp_involutive x : fopp (fopp x) = x.
Proof. destruct x; simpl; now rewrite ?negb_involutive. Qed.
