(* ===== verification/Buffer.v ===== *)
(** * Buffer: big-endian serialisation (src/buffer.c, buffer.h)

    Every function of buffer.c takes a pointer to a byte array and a pointer
    to an index that it advances.  Writers are computations over the pair
    (array, index); readers take the array and are computations over the
    index.  An access outside the array fails. *)
From S2P Require Import Prelude Float32.

(** ** Array accesses *)

Definition wstate : Type := list Z * Z.

(** [buffer[( *index)++] = v], where [buffer] is an [uint8_t] array. *)
Definition put8 (v : Z) : ST wstate unit := fun '(buf, i) =>
  if decide (0 <= i < Z.of_nat (length buf))
  then Some (tt, (<[Z.to_nat i := u8 v]> buf, i + 1)) else None.

(** [buffer[( *index)++]]. *)
Definition get8 (data : list Z) : ST Z Z := fun i =>
  if decide (0 <= i) then v ← data !! Z.to_nat i; Some (v, i + 1) else None.

(** [memcpy(buffer + *index, bs, len); *index += len]. *)
Fixpoint put_bytes (bs : list Z) : ST wstate unit :=
  match bs with
  | [] => mret tt
  | b :: bs => put8 b;; put_bytes bs
  end.

(** [memcpy(dst, data + *index, n); *index += n]. *)
Fixpoint get_bytes (data : list Z) (n : nat) : ST Z (list Z) :=
  match n with
  | O => mret []
  | S n => b ← get8 data; bs ← get_bytes data n; mret (b :: bs)
  end.

(** ** buffer.c *)

Definition buffer_append_int16 (number : Z) : ST wstate unit :=
  put8 (Z.shiftr number 8);; put8 number.

Definition buffer_append_uint16 (number : Z) : ST wstate unit :=
  put8 (Z.shiftr number 8);; put8 number.

Definition buffer_append_int32 (number : Z) : ST wstate unit :=
  put8 (Z.shiftr number 24);; put8 (Z.shiftr number 16);;
  put8 (Z.shiftr number 8);; put8 number.

Definition buffer_append_uint32 (number : Z) : ST wstate unit :=
  put8 (Z.shiftr number 24);; put8 (Z.shiftr number 16);;
  put8 (Z.shiftr number 8);; put8 number.

Definition buffer_append_float16 (number scale : f32) : ST wstate unit :=
  buffer_append_int16 (f2i16 (number * scale)%f32).

Definition buffer_append_float32 (number scale : f32) : ST wstate unit :=
  buffer_append_int32 (f2i32 (number * scale)%f32).

Definition buffer_get_uint16 (data : list Z) : ST Z Z :=
  b0 ← get8 data; b1 ← get8 data;
  mret (u16 (Z.lor (Z.shiftl (u16 b0) 8) (u16 b1))).

Definition buffer_get_int16 (data : list Z) : ST Z Z :=
  b0 ← get8 data; b1 ← get8 data;
  mret (i16 (Z.lor (Z.shiftl (u16 b0) 8) (u16 b1))).

Definition buffer_get_uint32 (data : list Z) : ST Z Z :=
  b0 ← get8 data; b1 ← get8 data; b2 ← get8 data; b3 ← get8 data;
  mret (Z.lor (Z.lor (Z.lor (u32 (Z.shiftl b0 24)) (u32 (Z.shiftl b1 16)))
                     (u32 (Z.shiftl b2 8))) (u32 b3)).

Definition buffer_get_int32 (data : list Z) : ST Z Z :=
  b0 ← get8 data; b1 ← get8 data; b2 ← get8 data; b3 ← get8 data;
  mret (i32 (Z.lor (Z.lor (Z.lor (u32 (Z.shiftl b0 24)) (u32 (Z.shiftl b1 16)))
                          (u32 (Z.shiftl b2 8))) (u32 b3))).

Definition buffer_get_float16 (data : list Z) (scale : f32) : ST Z f32 :=
  v ← buffer_get_int16 data; mret (f_of_int v / scale)%f32.

Definition buffer_get_float32 (data : list Z) (scale : f32) : ST Z f32 :=
  v ← buffer_get_int32 data; mret (f_of_int v / scale)%f32.

(** ** Specifications

    [writes m bs]: wherever there is room, [m] writes exactly the bytes [bs]
    at the index, advances it and touches nothing else.
    [reads g bs v]: wherever the bytes [bs] stand at the index, [g] returns
    [v] and advances past them. *)

Definition is_bytes (bs : list Z) : Prop := Forall is_u8 bs.

Definition writes (m : ST wstate unit) (bs : list Z) : Prop :=
  forall buf i, 0 <= i -> i + Z.of_nat (length bs) <= Z.of_nat (length buf) ->
  m (buf, i) = Some (tt, (list_inserts (Z.to_nat i) bs buf,
                          i + Z.of_nat (length bs))).

Definition bytes_at (data : list Z) (i : Z) (bs : list Z) : Prop :=
  0 <= i /\ forall k : nat, (k < length bs)%nat -> data !! (Z.to_nat i + k)%nat = bs !! k.

Definition reads {A} (g : list Z -> ST Z A) (bs : list Z) (v : A) : Prop :=
  forall data i, bytes_at data i bs ->
  g data i = Some (v, i + Z.of_nat (length bs)).

Definition be16 (n : Z) : list Z := [u8 (Z.shiftr n 8); u8 n].
Definition be32 (n : Z) : list Z :=
  [u8 (Z.shiftr n 24); u8 (Z.shiftr n 16); u8 (Z.shiftr n 8); u8 n].

Lemma be16_bytes n : is_bytes (be16 n).
Proof. repeat constructor; apply u8_range. Qed.
Lemma be32_bytes n : is_bytes (be32 n).
Proof. repeat constructor; apply u8_range. Qed.
#[export] Hint Resolve be16_bytes be32_bytes : cint.

(** *** Writers *)

Lemma writes_nil : writes (mret tt) [].
Proof. intros buf i Hi Hlen. simpl. now rewrite Z.add_0_r. Qed.

Lemma writes_put8 v : writes (put8 v) [u8 v].
Proof.
  intros buf i Hi Hlen. simpl in *. unfold put8.
  rewrite decide_True by lia. reflexivity.
Qed.

Lemma writes_bind m1 m2 bs1 bs2 :
  writes m1 bs1 -> writes m2 bs2 -> writes (m1;; m2) (bs1 ++ bs2).
Proof.
  intros H1 H2 buf i Hi Hlen. rewrite length_app in Hlen.
  rewrite (ST_bind_Some _ _ _ _ _ (H1 buf i Hi ltac:(lia))).
  rewrite H2 by (rewrite ?length_inserts; lia).
  rewrite list_inserts_app_l, length_app.
  do 3 f_equal; [|lia]. f_equal. lia.
Qed.

Lemma writes_bytes bs : is_bytes bs -> writes (put_bytes bs) bs.
Proof.
  induction 1 as [|b bs Hb _ IH]; simpl; [apply writes_nil|].
  change (b :: bs) with ([b] ++ bs). apply writes_bind; [|done].
  rewrite <- (u8_id b) at 2 by done. apply writes_put8.
Qed.

Lemma writes_int16 n : writes (buffer_append_int16 n) (be16 n).
Proof. apply (writes_bind _ _ [_] [_]); apply writes_put8. Qed.

Lemma writes_uint16 n : writes (buffer_append_uint16 n) (be16 n).
Proof. apply writes_int16. Qed.

Lemma writes_int32 n : writes (buffer_append_int32 n) (be32 n).
Proof.
  apply (writes_bind _ _ [_] [_; _; _]); [apply writes_put8|].
  apply (writes_bind _ _ [_] [_; _]); [apply writes_put8|].
  apply (writes_bind _ _ [_] [_]); apply writes_put8.
Qed.

Lemma writes_uint32 n : writes (buffer_append_uint32 n) (be32 n).
Proof. apply writes_int32. Qed.

Lemma writes_float16 x scale :
  writes (buffer_append_float16 x scale) (be16 (f2i16 (fmul x scale))).
Proof. apply writes_int16. Qed.

Lemma writes_float32 x scale :
  writes (buffer_append_float32 x scale) (be32 (f2i32 (fmul x scale))).
Proof. apply writes_int32. Qed.

(** *** Readers *)

Lemma bytes_at_app data i bs1 bs2 :
  bytes_at data i (bs1 ++ bs2) <->
  bytes_at data i bs1 /\ bytes_at data (i + Z.of_nat (length bs1)) bs2.
Proof.
  unfold bytes_at. rewrite length_app. split.
  - intros [Hi H]. split; (split; [lia|]); intros k Hk.
    + rewrite H by lia. now rewrite lookup_app_l by lia.
    + replace (Z.to_nat _ + k)%nat with (Z.to_nat i + (length bs1 + k))%nat by lia.
      rewrite H by lia. rewrite lookup_app_r by lia. f_equal. lia.
  - intros [[Hi H1] [_ H2]]. split; [done|]. intros k Hk.
    destruct (decide (k < length bs1)%nat).
    + rewrite lookup_app_l by lia. auto.
    + rewrite lookup_app_r by lia. rewrite <- H2 by lia. f_equal. lia.
Qed.

Lemma reads_ret {A} (v : A) : reads (fun _ => mret v) [] v.
Proof. intros data i _. simpl. now rewrite Z.add_0_r. Qed.

Lemma reads_get8 b : reads get8 [b] b.
Proof.
  intros data i [Hi H]. unfold get8. rewrite decide_True by done.
  specialize (H O ltac:(simpl; lia)). rewrite Nat.add_0_r in H. now rewrite H.
Qed.

Lemma reads_bind {A B} (g : list Z -> ST Z A) (k : A -> list Z -> ST Z B) bs1 bs2 a b :
  reads g bs1 a -> reads (k a) bs2 b ->
  reads (fun data => x ← g data; k x data) (bs1 ++ bs2) b.
Proof.
  intros H1 H2 data i [Hat1 Hat2]%bytes_at_app.
  rewrite (ST_bind_Some _ _ _ _ _ (H1 data i Hat1)), H2 by done.
  rewrite length_app. do 2 f_equal. lia.
Qed.

Lemma reads_map {A B} (g : list Z -> ST Z A) (f : A -> B) bs a :
  reads g bs a -> reads (fun data => x ← g data; mret (f x)) bs (f a).
Proof.
  intros H. rewrite <- (app_nil_r bs). apply (reads_bind g _ bs [] a); [done|apply reads_ret].
Qed.

Lemma reads_bytes bs : reads (fun data => get_bytes data (length bs)) bs bs.
Proof.
  induction bs as [|b bs IH]; simpl; [apply reads_ret|].
  apply (reads_bind get8 _ [b] bs b); [apply reads_get8|].
  by apply (reads_map (fun data => get_bytes data (length bs)) (cons b)).
Qed.

(** The bytes of a number, joined again. *)
Lemma join16 n :
  Z.lor (Z.shiftl (u16 (u8 (Z.shiftr n 8))) 8) (u16 (u8 n)) = u16 n.
Proof.
  rewrite lor_shiftl_add, Z.shiftr_div_pow2 by int_solve. int_solve.
Qed.

Lemma join32 n :
  Z.lor (Z.lor (Z.lor (u32 (Z.shiftl (u8 (Z.shiftr n 24)) 24))
                      (u32 (Z.shiftl (u8 (Z.shiftr n 16)) 16)))
               (u32 (Z.shiftl (u8 (Z.shiftr n 8)) 8))) (u32 (u8 n)) = u32 n.
Proof.
  pose proof (u8_range (Z.shiftr n 24)) as H3. pose proof (u8_range (Z.shiftr n 16)) as H2.
  pose proof (u8_range (Z.shiftr n 8)) as H1. pose proof (u8_range n) as H0.
  assert (Hn : u8 (Z.shiftr n 24) * 2 ^ 24 + u8 (Z.shiftr n 16) * 2 ^ 16
               + u8 (Z.shiftr n 8) * 2 ^ 8 + u8 n = u32 n).
  { rewrite !Z.shiftr_div_pow2 by lia. clear. int_solve. }
  rewrite <- Hn. revert H0 H1 H2 H3. clear Hn.
  generalize (u8 (Z.shiftr n 24)) (u8 (Z.shiftr n 16)) (u8 (Z.shiftr n 8)) (u8 n).
  unfold is_u8. intros b3 b2 b1 b0 ????.
  assert (Hid : forall b k, 0 <= k <= 24 -> 0 <= b < 256 ->
                  u32 (Z.shiftl b k) = Z.shiftl b k).
  { intros b k ??. apply u32_id. rewrite Z.shiftl_mul_pow2 by lia.
    assert (0 < 2 ^ k <= 2 ^ 24); [|unfold is_u32; nia].
    split; [apply Z.pow_pos_nonneg; lia|apply Z.pow_le_mono_r; lia]. }
  rewrite !Hid, (u32_id b0) by (unfold is_u32; lia).
  replace (Z.shiftl b3 24) with (Z.shiftl (Z.shiftl (Z.shiftl b3 8) 8) 8)
    by (rewrite !Z.shiftl_shiftl by lia; done).
  replace (Z.shiftl b2 16) with (Z.shiftl (Z.shiftl b2 8) 8)
    by (rewrite !Z.shiftl_shiftl by lia; done).
  rewrite <- !Z.shiftl_lor.
  rewrite !lor_shiftl_add by lia. lia.
Qed.

(** A reader that ends in [mret (f ...)] of bytes already joined. *)
Lemma reads_get16 (conv : Z -> Z) n :
  reads (fun data => b0 ← get8 data; b1 ← get8 data;
                     mret (conv (Z.lor (Z.shiftl (u16 b0) 8) (u16 b1))))
        (be16 n) (conv (u16 n)).
Proof.
  rewrite <- (join16 n).
  eapply (reads_bind get8 _ [_] [_]); [apply reads_get8|].
  exact (reads_map get8 _ _ _ (reads_get8 _)).
Qed.

Lemma reads_get32 (conv : Z -> Z) n :
  reads (fun data => b0 ← get8 data; b1 ← get8 data; b2 ← get8 data; b3 ← get8 data;
           mret (conv (Z.lor (Z.lor (Z.lor (u32 (Z.shiftl b0 24)) (u32 (Z.shiftl b1 16)))
                                    (u32 (Z.shiftl b2 8))) (u32 b3))))
        (be32 n) (conv (u32 n)).
Proof.
  rewrite <- (join32 n).
  eapply (reads_bind get8 _ [_] [_; _; _]); [apply reads_get8|].
  eapply (reads_bind get8 _ [_] [_; _]); [apply reads_get8|].
  eapply (reads_bind get8 _ [_] [_]); [apply reads_get8|].
  exact (reads_map get8 _ _ _ (reads_get8 _)).
Qed.

Lemma reads_int16 n : is_i16 n -> reads buffer_get_int16 (be16 n) n.
Proof.
  intros Hn. rewrite <- (i16_id n) at 2 by done. rewrite <- i16_u16. apply (reads_get16 i16).
Qed.

Lemma reads_uint16 n : is_u16 n -> reads buffer_get_uint16 (be16 n) n.
Proof.
  intros Hn. rewrite <- (u16_id n) at 2 by done.
  rewrite <- (u16_id (u16 n)) by apply u16_range. apply (reads_get16 u16).
Qed.

Lemma reads_int32 n : is_i32 n -> reads buffer_get_int32 (be32 n) n.
Proof.
  intros Hn. rewrite <- (i32_id n) at 2 by done. rewrite <- i32_u32. apply (reads_get32 i32).
Qed.

Lemma reads_uint32 n : is_u32 n -> reads buffer_get_uint32 (be32 n) n.
Proof. intros Hn. rewrite <- (u32_id n) at 2 by done. apply (reads_get32 (fun z => z)). Qed.

(** What a [float] becomes after a trip over the wire with a given scale. *)
Definition quant16 (scale x : f32) : f32 := (f_of_int (f2i16 (x * scale)) / scale)%f32.
Definition quant32 (scale x : f32) : f32 := (f_of_int (f2i32 (x * scale)) / scale)%f32.

Lemma reads_float16 scale n :
  is_i16 n -> reads (fun data => buffer_get_float16 data scale) (be16 n) (f_of_int n / scale)%f32.
Proof.
  intros Hn. apply (reads_map buffer_get_int16 (fun v => f_of_int v / scale)%f32).
  by apply reads_int16.
Qed.

Lemma reads_float32 scale n :
  is_i32 n -> reads (fun data => buffer_get_float32 data scale) (be32 n) (f_of_int n / scale)%f32.
Proof.
  intros Hn. apply (reads_map buffer_get_int32 (fun v => f_of_int v / scale)%f32).
  by apply reads_int32.
Qed.

(** *** Round trips through an array *)

Lemma bytes_at_inserts buf i bs :
  0 <= i -> i + Z.of_nat (length bs) <= Z.of_nat (length buf) ->
  bytes_at (list_inserts (Z.to_nat i) bs buf) i bs.
Proof.
  intros Hi Hlen. split; [done|]. intros k Hk.
  rewrite list_lookup_inserts by lia. f_equal. lia.
Qed.

(** Whatever a writer puts into an array, the matching reader gets back. *)
Lemma writes_reads {A} m (g : list Z -> ST Z A) bs v buf i :
  writes m bs -> reads g bs v ->
  0 <= i -> i + Z.of_nat (length bs) <= Z.of_nat (length buf) ->
  exists buf', m (buf, i) = Some (tt, (buf', i + Z.of_nat (length bs))) /\
    g buf' i = Some (v, i + Z.of_nat (length bs)).
Proof.
  intros Hw Hr Hi Hlen. eexists. split; [by apply Hw|].
  apply Hr. by apply bytes_at_inserts.
Qed.
