(* ===== verification/Crc.v ===== *)
(** * Crc: the table-driven CRC-16 (src/crc.c)

    [crc16] is modelled as written, with its table.  The reference is the
    bit-by-bit division by x^16 + x^12 + x^5 + 1 that the table stands for;
    error detection is proved on the reference and holds for the code. *)
From S2P Require Import Prelude.

Definition crc16_tab : list Z :=
  [
   0x0000; 0x1021; 0x2042; 0x3063; 0x4084; 0x50a5; 0x60c6; 0x70e7;
   0x8108; 0x9129; 0xa14a; 0xb16b; 0xc18c; 0xd1ad; 0xe1ce; 0xf1ef;
   0x1231; 0x0210; 0x3273; 0x2252; 0x52b5; 0x4294; 0x72f7; 0x62d6;
   0x9339; 0x8318; 0xb37b; 0xa35a; 0xd3bd; 0xc39c; 0xf3ff; 0xe3de;
   0x2462; 0x3443; 0x0420; 0x1401; 0x64e6; 0x74c7; 0x44a4; 0x5485;
   0xa56a; 0xb54b; 0x8528; 0x9509; 0xe5ee; 0xf5cf; 0xc5ac; 0xd58d;
   0x3653; 0x2672; 0x1611; 0x0630; 0x76d7; 0x66f6; 0x5695; 0x46b4;
   0xb75b; 0xa77a; 0x9719; 0x8738; 0xf7df; 0xe7fe; 0xd79d; 0xc7bc;
   0x48c4; 0x58e5; 0x6886; 0x78a7; 0x0840; 0x1861; 0x2802; 0x3823;
   0xc9cc; 0xd9ed; 0xe98e; 0xf9af; 0x8948; 0x9969; 0xa90a; 0xb92b;
   0x5af5; 0x4ad4; 0x7ab7; 0x6a96; 0x1a71; 0x0a50; 0x3a33; 0x2a12;
   0xdbfd; 0xcbdc; 0xfbbf; 0xeb9e; 0x9b79; 0x8b58; 0xbb3b; 0xab1a;
   0x6ca6; 0x7c87; 0x4ce4; 0x5cc5; 0x2c22; 0x3c03; 0x0c60; 0x1c41;
   0xedae; 0xfd8f; 0xcdec; 0xddcd; 0xad2a; 0xbd0b; 0x8d68; 0x9d49;
   0x7e97; 0x6eb6; 0x5ed5; 0x4ef4; 0x3e13; 0x2e32; 0x1e51; 0x0e70;
   0xff9f; 0xefbe; 0xdfdd; 0xcffc; 0xbf1b; 0xaf3a; 0x9f59; 0x8f78;
   0x9188; 0x81a9; 0xb1ca; 0xa1eb; 0xd10c; 0xc12d; 0xf14e; 0xe16f;
   0x1080; 0x00a1; 0x30c2; 0x20e3; 0x5004; 0x4025; 0x7046; 0x6067;
   0x83b9; 0x9398; 0xa3fb; 0xb3da; 0xc33d; 0xd31c; 0xe37f; 0xf35e;
   0x02b1; 0x1290; 0x22f3; 0x32d2; 0x4235; 0x5214; 0x6277; 0x7256;
   0xb5ea; 0xa5cb; 0x95a8; 0x8589; 0xf56e; 0xe54f; 0xd52c; 0xc50d;
   0x34e2; 0x24c3; 0x14a0; 0x0481; 0x7466; 0x6447; 0x5424; 0x4405;
   0xa7db; 0xb7fa; 0x8799; 0x97b8; 0xe75f; 0xf77e; 0xc71d; 0xd73c;
   0x26d3; 0x36f2; 0x0691; 0x16b0; 0x6657; 0x7676; 0x4615; 0x5634;
   0xd94c; 0xc96d; 0xf90e; 0xe92f; 0x99c8; 0x89e9; 0xb98a; 0xa9ab;
   0x5844; 0x4865; 0x7806; 0x6827; 0x18c0; 0x08e1; 0x3882; 0x28a3;
   0xcb7d; 0xdb5c; 0xeb3f; 0xfb1e; 0x8bf9; 0x9bd8; 0xabbb; 0xbb9a;
   0x4a75; 0x5a54; 0x6a37; 0x7a16; 0x0af1; 0x1ad0; 0x2ab3; 0x3a92;
   0xfd2e; 0xed0f; 0xdd6c; 0xcd4d; 0xbdaa; 0xad8b; 0x9de8; 0x8dc9;
   0x7c26; 0x6c07; 0x5c64; 0x4c45; 0x3ca2; 0x2c83; 0x1ce0; 0x0cc1;
   0xef1f; 0xff3e; 0xcf5d; 0xdf7c; 0xaf9b; 0xbfba; 0x8fd9; 0x9ff8;
   0x6e17; 0x7e36; 0x4e55; 0x5e74; 0x2e93; 0x3eb2; 0x0ed1; 0x1ef0].

(** [crc16_tab[(((cksum >> 8) ^ *buf++) & 0xFF)] ^ (cksum << 8)], stored in an
    [unsigned short]. *)
Definition crc16_step (cksum b : Z) : Z :=
  u16 (Z.lxor (nth (Z.to_nat (Z.land (Z.lxor (Z.shiftr cksum 8) b) 255)) crc16_tab 0)
              (Z.shiftl cksum 8)).

Fixpoint crc16_loop (buf : list Z) (len : nat) (cksum : Z) {struct len} : option Z :=
  match len with
  | O => Some cksum
  | S len => match buf with
             | [] => None
             | b :: buf => crc16_loop buf len (crc16_step cksum b)
             end
  end.

(** [crc16(buf, len)]; [None] is a read past the end of the array. *)
Definition crc16 (buf : list Z) (len : Z) : option Z :=
  crc16_loop buf (Z.to_nat len) 0.

(** The checksum of a whole byte string. *)
Definition crc16_of (bs : list Z) : Z := foldl crc16_step 0 bs.

Lemma crc16_loop_foldl buf rest c :
  crc16_loop (buf ++ rest) (length buf) c = Some (foldl crc16_step c buf).
Proof. revert c. induction buf as [|b buf IH]; intros c; simpl; auto. Qed.

Lemma crc16_prefix bs rest :
  crc16 (bs ++ rest) (Z.of_nat (length bs)) = Some (crc16_of bs).
Proof. unfold crc16. rewrite Nat2Z.id. apply crc16_loop_foldl. Qed.

Lemma crc16_step_range c b : is_u16 (crc16_step c b).
Proof. apply u16_range. Qed.

Lemma crc16_of_range bs : is_u16 (crc16_of bs).
Proof.
  unfold crc16_of. assert (H : is_u16 0) by (unfold is_u16; lia). revert H.
  generalize 0. induction bs as [|b bs IH]; intros c Hc; simpl; [done|].
  apply IH, crc16_step_range.
Qed.
#[export] Hint Resolve crc16_step_range crc16_of_range : cint.

(** ** The reference: polynomial division, one bit at a time *)

Definition crc_bit (x : Z) : Z :=
  Z.lxor (u16 (Z.shiftl x 1)) (if Z.testbit x 15 then 0x1021 else 0).

Definition crc_bits (n : nat) (x : Z) : Z := Nat.iter n crc_bit x.

(** Feed one byte, most significant bit first. *)
Definition crc_ref_step (c b : Z) : Z := crc_bits 8 (Z.lxor c (Z.shiftl b 8)).

Definition crc_ref (bs : list Z) : Z := foldl crc_ref_step 0 bs.

Lemma u16_land z : u16 z = Z.land z 65535.
Proof. change 65535 with (Z.ones 16). now rewrite Z.land_ones. Qed.

Lemma u16_lxor x y : u16 (Z.lxor x y) = Z.lxor (u16 x) (u16 y).
Proof.
  rewrite !u16_land. apply Z.bits_inj'. intros n Hn.
  rewrite ?Z.land_spec, ?Z.lxor_spec, ?Z.land_spec. now destruct (Z.testbit x n), (Z.testbit y n), (Z.testbit 65535 n).
Qed.

Lemma crc_bits_add n m x : crc_bits (n + m) x = crc_bits n (crc_bits m x).
Proof. apply Nat.iter_add. Qed.

(** Each bit step is linear, hence so is any number of them. *)
Lemma crc_bit_lxor x y : crc_bit (Z.lxor x y) = Z.lxor (crc_bit x) (crc_bit y).
Proof.
  unfold crc_bit. rewrite Z.shiftl_lxor, u16_lxor, Z.lxor_spec.
  set (a := u16 (Z.shiftl x 1)). set (b := u16 (Z.shiftl y 1)).
  assert (H : forall p q r s, Z.lxor (Z.lxor p q) (Z.lxor r s)
                              = Z.lxor (Z.lxor p r) (Z.lxor q s)).
  { intros. rewrite !Z.lxor_assoc. f_equal.
    rewrite <- !Z.lxor_assoc. f_equal. apply Z.lxor_comm. }
  rewrite H. f_equal. now destruct (Z.testbit x 15), (Z.testbit y 15).
Qed.

Lemma crc_bits_lxor n x y : crc_bits n (Z.lxor x y) = Z.lxor (crc_bits n x) (crc_bits n y).
Proof.
  unfold crc_bits. induction n as [|n IH]; simpl; [done|]. now rewrite IH, crc_bit_lxor.
Qed.

(** A bit step loses nothing: the low bit of the polynomial records the
    bit that was shifted out. *)
Lemma crc_bit_0 x : Z.testbit (crc_bit x) 0 = Z.testbit x 15.
Proof.
  unfold crc_bit. rewrite Z.lxor_spec, u16_land, Z.land_spec, Z.shiftl_spec_low by lia.
  now destruct (Z.testbit x 15).
Qed.

Lemma crc_bit_succ x n :
  0 <= n < 15 ->
  Z.testbit (crc_bit x) (n + 1) = xorb (Z.testbit x n) (Z.testbit (if Z.testbit x 15 then 0x1021 else 0) (n + 1)).
Proof.
  intros Hn. unfold crc_bit. rewrite Z.lxor_spec, u16_land, Z.land_spec.
  rewrite Z.shiftl_spec by lia. replace (n + 1 - 1) with n by lia.
  change 65535 with (Z.ones 16). rewrite Z.ones_spec_low by lia. now rewrite andb_true_r.
Qed.

Lemma crc_bit_inj x y : is_u16 x -> is_u16 y -> crc_bit x = crc_bit y -> x = y.
Proof.
  intros Hx Hy H. assert (H15 : Z.testbit x 15 = Z.testbit y 15).
  { now rewrite <- (crc_bit_0 x), <- (crc_bit_0 y), H. }
  apply Z.bits_inj'. intros n Hn.
  destruct (decide (n < 15)).
  - assert (Hb := f_equal (fun z => Z.testbit z (n + 1)) H). simpl in Hb.
    rewrite !crc_bit_succ, H15 in Hb by lia.
    destruct (Z.testbit x n), (Z.testbit y n);
      destruct (Z.testbit (if Z.testbit y 15 then 0x1021 else 0) (n + 1)); easy.
  - destruct (decide (n = 15)) as [->|]; [done|].
    now rewrite !(testbit_small _ 16 n) by (unfold is_u16 in *; lia).
Qed.

Lemma lxor_u16 x y : is_u16 x -> is_u16 y -> is_u16 (Z.lxor x y).
Proof.
  intros Hx Hy. rewrite <- (u16_id x), <- (u16_id y), <- u16_lxor by done. apply u16_range.
Qed.

Lemma crc_bit_range x : is_u16 (crc_bit x).
Proof.
  unfold crc_bit. apply lxor_u16; [apply u16_range|].
  destruct (Z.testbit x 15); unfold is_u16; lia.
Qed.

Lemma crc_bits_range n x : is_u16 x -> is_u16 (crc_bits n x).
Proof. intros Hx. destruct n; simpl; [done|apply crc_bit_range]. Qed.

Lemma crc_bits_inj n x y : is_u16 x -> is_u16 y -> crc_bits n x = crc_bits n y -> x = y.
Proof.
  intros Hx Hy. unfold crc_bits. induction n as [|n IH]; simpl; [done|].
  intros H%crc_bit_inj; auto using crc_bits_range.
  all: by apply crc_bits_range.
Qed.

(** Eight steps on a value below 256 only shift it. *)
Lemma crc_bits_low n x : (n <= 8)%nat -> is_u8 x -> crc_bits n x = Z.shiftl x (Z.of_nat n).
Proof.
  intros Hn Hx. induction n as [|n IH]; simpl; [done|].
  change (Nat.iter n crc_bit x) with (crc_bits n x). rewrite IH by lia.
  unfold crc_bit. rewrite Z.shiftl_spec by lia.
  rewrite (testbit_small x 8) by (unfold is_u8 in *; lia). rewrite Z.lxor_0_r.
  rewrite Z.shiftl_shiftl by lia.
  replace (Z.of_nat n + 1) with (Z.of_nat (S n)) by lia.
  apply u16_id. rewrite Z.shiftl_mul_pow2 by lia. unfold is_u8, is_u16 in *.
  assert (0 < 2 ^ Z.of_nat (S n) <= 2 ^ 8); [|nia].
  split; [apply Z.pow_pos_nonneg; lia|apply Z.pow_le_mono_r; lia].
Qed.

(** ** The table *)

Lemma crc16_tab_correct i :
  is_u8 i -> nth (Z.to_nat i) crc16_tab 0 = crc_bits 8 (Z.shiftl i 8).
Proof.
  intros Hi. unfold is_u8 in Hi.
  assert (H : forallb (fun k => nth k crc16_tab 0 =? crc_bits 8 (Z.shiftl (Z.of_nat k) 8))
                      (seq 0 256) = true) by (vm_compute; reflexivity).
  rewrite forallb_forall in H. specialize (H (Z.to_nat i)).
  rewrite Z2Nat.id in H by lia. apply Z.eqb_eq, H, in_seq. lia.
Qed.

Lemma land_255 z : Z.land z 255 = u8 z.
Proof. change 255 with (Z.ones 8). now rewrite Z.land_ones. Qed.

#[local] Opaque crc_bits.

(** One table step is eight bit steps. *)
Lemma crc16_step_ref c b :
  is_u16 c -> is_u8 b -> crc16_step c b = crc_ref_step c b.
Proof.
  intros Hc Hb. unfold crc16_step, crc_ref_step.
  rewrite land_255. set (h := u8 (Z.lxor (Z.shiftr c 8) b)).
  rewrite crc16_tab_correct by apply u8_range.
  set (l := u8 c).
  assert (Hsplit : Z.lxor c (Z.shiftl b 8) = Z.lxor (Z.shiftl h 8) l).
  { subst h l. apply Z.bits_inj'. intros n Hn. rewrite !Z.lxor_spec.
    rewrite <- !land_255, Z.land_spec. change 255 with (Z.ones 8).
    destruct (decide (n < 8)).
    - rewrite !Z.shiftl_spec_low, Z.ones_spec_low by lia. now rewrite andb_true_r, xorb_false_r.
    - rewrite (Z.ones_spec_high 8 n), andb_false_r, xorb_false_r by lia.
      rewrite !Z.shiftl_spec, Z.land_spec, Z.lxor_spec, Z.shiftr_spec by lia.
      replace (n - 8 + 8) with n by lia.
      destruct (decide (n - 8 < 8)).
      + rewrite Z.ones_spec_low by lia. now rewrite andb_true_r.
      + rewrite Z.ones_spec_high, andb_false_r by lia.
        rewrite (testbit_small c 16), (testbit_small b 8) by (unfold is_u8, is_u16 in *; lia).
        done. }
  rewrite Hsplit, crc_bits_lxor, (crc_bits_low 8 l) by (apply u8_range || lia).
  rewrite u16_lxor. f_equal.
  - apply u16_id, crc_bits_range. subst h.
    pose proof (u8_range (Z.lxor (Z.shiftr c 8) b)). rewrite Z.shiftl_mul_pow2 by lia.
    unfold is_u8, is_u16 in *. lia.
  - subst l. rewrite !Z.shiftl_mul_pow2 by lia. clear. int_solve.
Qed.

Lemma crc16_of_ref bs : Forall is_u8 bs -> crc16_of bs = crc_ref bs.
Proof.
  intros Hbs. unfold crc16_of, crc_ref.
  assert (H : is_u16 0) by (unfold is_u16; lia). revert H. generalize 0.
  induction Hbs as [|b bs Hb _ IH]; intros c Hc; simpl; [done|].
  rewrite <- crc16_step_ref by done. apply IH, crc16_step_range.
Qed.

(** ** Injectivity of a step, the source of error detection *)

Lemma shiftl8_u16 b : is_u8 b -> is_u16 (Z.shiftl b 8).
Proof. intros Hb. rewrite Z.shiftl_mul_pow2 by lia. unfold is_u8, is_u16 in *. lia. Qed.

Lemma lxor_cancel_l a b c : Z.lxor a b = Z.lxor a c -> b = c.
Proof.
  intros H. apply (f_equal (Z.lxor a)) in H.
  now rewrite <- !Z.lxor_assoc, Z.lxor_nilpotent, !Z.lxor_0_l in H.
Qed.

Lemma lxor_cancel_r a b c : Z.lxor b a = Z.lxor c a -> b = c.
Proof. rewrite !(Z.lxor_comm _ a). apply lxor_cancel_l. Qed.

Lemma crc16_step_inj_state c c' b :
  is_u16 c -> is_u16 c' -> is_u8 b -> crc16_step c b = crc16_step c' b -> c = c'.
Proof.
  intros Hc Hc' Hb. rewrite !crc16_step_ref by done. unfold crc_ref_step.
  intros H%crc_bits_inj; [|apply lxor_u16; auto using shiftl8_u16..].
  by apply lxor_cancel_r in H.
Qed.

Lemma foldl_step_inj bs c c' :
  Forall is_u8 bs -> is_u16 c -> is_u16 c' ->
  foldl crc16_step c bs = foldl crc16_step c' bs -> c = c'.
Proof.
  intros Hbs. revert c c'. induction Hbs as [|b bs Hb _ IH]; intros c c' Hc Hc' H; [done|].
  simpl in H. apply IH in H; [|apply crc16_step_range..].
  by apply crc16_step_inj_state in H.
Qed.

(** Two steps at once: sixteen bits enter, sixteen bits come out. *)
Lemma crc16_two_steps c a b :
  is_u16 c -> is_u8 a -> is_u8 b ->
  crc16_step (crc16_step c a) b
  = crc_bits 16 (Z.lxor c (Z.lxor (Z.shiftl a 8) b)).
Proof.
  intros Hc Ha Hb. rewrite !crc16_step_ref by auto with cint. unfold crc_ref_step.
  rewrite (crc_bits_add 8 8), <- Z.lxor_assoc, (crc_bits_lxor 8 _ b).
  now rewrite (crc_bits_low 8 b) by (done || lia).
Qed.

Lemma lxor_bytes_inj a b a' b' :
  is_u8 a -> is_u8 b -> is_u8 a' -> is_u8 b' ->
  Z.lxor (Z.shiftl a 8) b = Z.lxor (Z.shiftl a' 8) b' -> a = a' /\ b = b'.
Proof.
  intros Ha Hb Ha' Hb' H.
  assert (Hadd : forall x y, is_u8 y -> Z.lxor (Z.shiftl x 8) y = x * 256 + y).
  { intros x y Hy. rewrite <- Z.add_nocarry_lxor, Z.shiftl_mul_pow2; [done|lia|].
    apply Z.bits_inj'. intros n Hn. rewrite Z.land_spec, Z.bits_0.
    destruct (decide (n < 8)); [now rewrite Z.shiftl_spec_low by done|].
    rewrite (testbit_small y 8), andb_false_r by (unfold is_u8 in *; lia). done. }
  rewrite !Hadd in H by done. unfold is_u8 in *. lia.
Qed.

(** ** Properties of the code *)

(** Checksums of messages with a common tail differ as soon as the
    checksums before the tail do. *)
Lemma crc16_of_tail p q t :
  Forall is_u8 t -> crc16_of (p ++ t) = crc16_of (q ++ t) -> crc16_of p = crc16_of q.
Proof.
  intros Ht. unfold crc16_of. rewrite !foldl_app. fold (crc16_of p) (crc16_of q).
  apply foldl_step_inj; auto with cint.
Qed.

Lemma crc16_of_burst p a b a' b' t :
  is_u8 a -> is_u8 b -> is_u8 a' -> is_u8 b' -> Forall is_u8 t ->
  crc16_of (p ++ [a; b] ++ t) = crc16_of (p ++ [a'; b'] ++ t) -> a = a' /\ b = b'.
Proof.
  intros Ha Hb Ha' Hb' Ht H. rewrite !app_assoc in H. apply crc16_of_tail in H; [|done].
  unfold crc16_of in H. rewrite !foldl_app in H. simpl in H. fold (crc16_of p) in H.
  rewrite !crc16_two_steps in H by auto with cint.
  apply crc_bits_inj, lxor_cancel_l, lxor_bytes_inj in H; auto;
    (apply lxor_u16; [auto with cint|]; apply lxor_u16;
     [by apply shiftl8_u16|unfold is_u8, is_u16 in *; lia]).
Qed.

(** The checksum, appended high byte first, divides the message out. *)
Lemma crc16_of_residue bs :
  crc16_of (bs ++ [Z.shiftr (crc16_of bs) 8; u8 (crc16_of bs)]) = 0.
Proof.
  pose proof (crc16_of_range bs) as Hc. unfold crc16_of at 1. rewrite foldl_app. simpl.
  fold (crc16_of bs). set (c := crc16_of bs) in *.
  assert (Hh : is_u8 (Z.shiftr c 8)).
  { rewrite Z.shiftr_div_pow2 by lia. unfold is_u8, is_u16 in *. int_solve. }
  rewrite crc16_two_steps by auto with cint.
  replace (Z.lxor (Z.shiftl (Z.shiftr c 8) 8) (u8 c)) with c.
  - now rewrite Z.lxor_nilpotent.
  - apply Z.bits_inj'. intros n Hn. rewrite Z.lxor_spec, <- land_255, Z.land_spec.
    change 255 with (Z.ones 8). destruct (decide (n < 8)).
    + rewrite Z.shiftl_spec_low, Z.ones_spec_low by lia. now rewrite andb_true_r, xorb_false_l.
    + rewrite Z.shiftl_spec, Z.shiftr_spec, Z.ones_spec_high, andb_false_r, xorb_false_r by lia.
      f_equal. lia.
Qed.

(** C5. The table-driven crc16 computes the remainder of the bit-by-bit
    division by x^16+x^12+x^5+1. *)
Theorem crc16_is_division (bs rest : list Z) :
  Forall is_u8 bs ->
  crc16 (bs ++ rest) (Z.of_nat (length bs)) = Some (crc_ref bs).
Proof. intros Hbs. now rewrite crc16_prefix, crc16_of_ref. Qed.

Lemma crc16_is_division_witness :
  crc16 ([0x31; 0x32; 0x33; 0x34; 0x35; 0x36; 0x37; 0x38; 0x39] ++ [7]) 9 = Some 0x31C3.
Proof.
  change 9 with (Z.of_nat (length [0x31; 0x32; 0x33; 0x34; 0x35; 0x36; 0x37; 0x38; 0x39])).
  rewrite crc16_is_division; [vm_compute; reflexivity|].
  repeat constructor; unfold is_u8; lia.
Defined.

(** Two messages of the same length that differ only within two
    adjacent bytes never have the same crc16. *)
Theorem crc16_detects_burst (p t : list Z) (a b a' b' : Z) :
  is_u8 a -> is_u8 b -> is_u8 a' -> is_u8 b' -> Forall is_u8 t ->
  (a, b) <> (a', b') ->
  crc16 (p ++ [a; b] ++ t) (Z.of_nat (length (p ++ [a; b] ++ t)))
  <> crc16 (p ++ [a'; b'] ++ t) (Z.of_nat (length (p ++ [a; b] ++ t))).
Proof.
  intros Ha Hb Ha' Hb' Ht Hne H.
  rewrite <- (app_nil_r (p ++ [a; b] ++ t)) in H at 1.
  replace (length (p ++ [a; b] ++ t)) with (length (p ++ [a'; b'] ++ t)) in H at 2
    by now rewrite !length_app.
  rewrite <- (app_nil_r (p ++ [a'; b'] ++ t)) in H at 1.
  rewrite !crc16_prefix in H. simplify_eq H. intros H'.
  apply crc16_of_burst in H' as [-> ->]; auto.
Qed.

Lemma crc16_detects_burst_witness :
  crc16 ([1; 2] ++ [3; 4] ++ [5]) 5 <> crc16 ([1; 2] ++ [7; 0] ++ [5]) 5.
Proof.
  apply (crc16_detects_burst [1; 2] [5] 3 4 7 0);
    repeat constructor; unfold is_u8; try lia. discriminate.
Defined.
