(* ===== verification/DigitalFilter.v ===== *)
(** * DigitalFilter: filters and Fourier transforms (src/digital_filter.c)

    Arrays are lists; an access outside fails.  [cosf] and [sinf] are the C
    library's, the members of [Libm].  [sqrt] computes in double precision and
    is rounded back to a float, which for a float argument is the correctly
    rounded [fsqrt].  The theorems about the FIR
    filter and about the design of filters are at the end. *)
From S2P Require Import Prelude Float32.

(** libm *)
Class Libm : Type := { cosf : f32 -> f32; sinf : f32 -> f32; asinf : f32 -> f32 }.

(** [bits] is at least 1 wherever these functions are called. *)
Definition taps (bits : Z) : Z := Z.shiftl 1 bits.

Section DigitalFilter.
Context `{Libm}.

(** ** FFT *)

(** [while (k <= j) { j -= k; k >>= 1; }]: the new [j] and [k]. *)
Fixpoint reverse_carry (fuel : nat) (k j : Z) : option (Z * Z) :=
  match fuel with
  | O => None
  | S fuel => if k <=? j then reverse_carry fuel (Z.shiftr k 1) (j - k) else Some (k, j)
  end.

Definition swap (i j : Z) (l : list f32) : option (list f32) :=
  a ← l !!? i; b ← l !!? j; l ← put_ix i b l; put_ix j a l.

(** The bit reversal; the loop state is [j] and the two arrays. *)
Definition fft_reverse (m : Z) (real imag : list f32) : option (list f32 * list f32) :=
  let n := taps m in
  '(_, real, imag) ← for_loop (Z.to_nat (n - 1)) 0 1 (fun i '(j, real, imag) =>
    real' ← (if i <? j then swap i j real else Some real);
    imag' ← (if i <? j then swap i j imag else Some imag);
    '(k, j) ← reverse_carry (S (Z.to_nat m)) (Z.shiftr n 1) j;
    Some (j + k, real', imag')) (0, real, imag);
  Some (real, imag).

(** One butterfly of elements [i] and [i1]. *)
Definition butterfly (u1 u2 : f32) (i i1 : Z) (real imag : list f32)
    : option (list f32 * list f32) :=
  r1 ← real !!? i1; m1 ← imag !!? i1;
  let t1 := (u1 * r1 - u2 * m1)%f32 in
  let t2 := (u1 * m1 + u2 * r1)%f32 in
  r ← real !!? i; m ← imag !!? i;
  real ← put_ix i1 (r - t1)%f32 real;
  imag ← put_ix i1 (m - t2)%f32 imag;
  real ← put_ix i (r + t1)%f32 real;
  imag ← put_ix i (m + t2)%f32 imag;
  Some (real, imag).

(** [for (i = j; i < n; i += l2)] has [(n - j + l2 - 1) / l2] rounds. *)
Definition fft_stage (n l1 l2 : Z) (c1 c2 : f32) (real imag : list f32)
    : option (list f32 * list f32) :=
  '(_, _, real, imag) ← for_loop (Z.to_nat l1) 0 1 (fun j '(u1, u2, real, imag) =>
    '(real, imag) ← for_loop (Z.to_nat ((n - j + l2 - 1) / l2)) j l2 (fun i '(real, imag) =>
      butterfly u1 u2 i (i + l1) real imag) (real, imag);
    let z := (u1 * c1 - u2 * c2)%f32 in
    Some (z, (u1 * c2 + u2 * c1)%f32, real, imag)) (f1, f0, real, imag);
  Some (real, imag).

Definition filter_fft (dir : bool) (m : Z) (real imag : list f32) : option (list f32 * list f32) :=
  let n := taps m in
  '(real, imag) ← fft_reverse m real imag;
  '(_, _, _, real, imag) ← for_loop (Z.to_nat m) 0 1 (fun _ '(c1, c2, l1, real, imag) =>
    let l2 := Z.shiftl l1 1 in
    '(real, imag) ← fft_stage n l1 l2 c1 c2 real imag;
    let c2 := fsqrt ((f1 - c1) / f_of_int 2)%f32 in
    let c2 := if dir then (- c2)%f32 else c2 in
    Some (fsqrt ((f1 + c1) / f_of_int 2)%f32, c2, l2, real, imag))
    (f_of_int (-1), f0, 1, real, imag);
  if dir then
    let scale := fmap (M := list) (fun x => (x / f_of_int n)%f32) in
    Some (scale (take (Z.to_nat n) real) ++ drop (Z.to_nat n) real,
          scale (take (Z.to_nat n) imag) ++ drop (Z.to_nat n) imag)
  else Some (real, imag).

(** ** DFT *)

(** The sums for one frequency. *)
Definition dft_sums (arg : f32) (len : Z) (real imag : list f32) : option (f32 * f32) :=
  for_loop (Z.to_nat len) 0 1 (fun k '(x, y) =>
    let cosarg := cosf (f_of_int k * arg)%f32 in
    let sinarg := sinf (f_of_int k * arg)%f32 in
    r ← real !!? k; m ← imag !!? k;
    Some ((x + (r * cosarg - m * sinarg))%f32, (y + (r * sinarg + m * cosarg))%f32)) (f0, f0).

Definition filter_dft (dir : bool) (len : Z) (real imag : list f32) : option (list f32 * list f32) :=
  let d := if dir then f_of_int 1 else f_of_int (-1) in
  '(x2, y2) ← for_loop (Z.to_nat len) 0 1 (fun i '(x2, y2) =>
    let arg := (- d * f_of_int 2 * M_PI * f_of_int i / f_of_int len)%f32 in
    '(x, y) ← dft_sums arg len real imag;
    Some (x2 ++ [x], y2 ++ [y])) ([], []);
  let n := Z.to_nat len in
  let back := if dir then fmap (M := list) (fun x => (x / f_of_int len)%f32) else fun l => l in
  Some (back x2 ++ drop n real, back y2 ++ drop n imag).

(** ** Windows *)

Definition filter_fftshift (len : Z) (data : list f32) : option (list f32) :=
  for_loop (Z.to_nat (len / 2)) 0 1 (fun i data => swap i (len / 2 + i) data) data.

Definition hamming (i len : Z) : f32 :=
  (flit 54 100 - flit 46 100 * cosf (M_2PI * f_of_int i / f_of_int (len - 1)))%f32.

Definition scale_at (i : Z) (k : f32) (data : list f32) : option (list f32) :=
  x ← data !!? i; put_ix i (x * k)%f32 data.

Definition filter_hamming (len : Z) (data : list f32) : option (list f32) :=
  if Z.rem len 2 =? 0 then
    for_loop (Z.to_nat (len / 2)) 0 1 (fun i data =>
      data ← scale_at i (hamming i len) data; scale_at (len - i - 1) (hamming i len) data) data
  else
    for_loop (Z.to_nat len) 0 1 (fun i data => scale_at i (hamming i len) data) data.

Definition filter_zeroPad (dataLen resultLen : Z) (data result : list f32) : option (list f32) :=
  for_loop (Z.to_nat resultLen) 0 1 (fun i result =>
    if i <? dataLen then x ← data !!? i; put_ix i x result else put_ix i f0 result) result.

(** ** FIR filters *)

Definition filter_create_fir_lowpass (f_break : f32) (bits : Z) (use_hamming : bool)
    (filter_vector : list f32) : option (list f32) :=
  let taps := taps bits in
  v ← for_loop (Z.to_nat taps) 0 1 (fun i v =>
    put_ix i (if i <? f2i32 (f_of_int taps * f_break)%f32 then f1 else f0) v) filter_vector;
  v ← for_loop (Z.to_nat (taps / 2)) 0 1 (fun i v =>
    x ← v !!? i; put_ix (taps - i - 1) x v) v;
  '(v, _) ← filter_fft true bits v (replicate (Z.to_nat taps) f0);
  v ← filter_fftshift taps v;
  if use_hamming then filter_hamming taps v else Some v.

Definition cnt_mask (bits : Z) : Z := Z.shiftr 0xFFFFFFFF (32 - bits).

Definition filter_run_fir_iteration (vector filter : list f32) (bits offset : Z) : option f32 :=
  '(result, _) ← for_loop (Z.to_nat (taps bits)) 0 1 (fun i '(result, offset) =>
    c ← filter !!? i; x ← vector !!? offset;
    Some ((result + c * x)%f32, Z.land (u32 (offset + 1)) (cnt_mask bits))) (f0, offset);
  Some result.

(** The buffer and the new offset. *)
Definition filter_add_sample (buffer : list f32) (sample : f32) (bits offset : Z)
    : option (list f32 * Z) :=
  buffer ← put_ix offset sample buffer;
  Some (buffer, Z.land (u32 (offset + 1)) (cnt_mask bits)).
End DigitalFilter.

(** ** The FIR filter is a weighted sum of the latest samples *)

(** The ring seen from its oldest sample. *)
Definition ring (off : Z) (v : list f32) : list f32 := drop (Z.to_nat off) v ++ take (Z.to_nat off) v.

(** The weighted sum, in the order of the code. *)
Definition fir (filter samples : list f32) : f32 :=
  foldl (fun acc '(c, x) => (acc + c * x)%f32) f0 (zip filter samples).

(** Samples added one after the other. *)
Fixpoint add_samples (bits : Z) (xs : list f32) (v : list f32) (off : Z) : option (list f32 * Z) :=
  match xs with
  | [] => Some (v, off)
  | x :: xs => '(v, off) ← filter_add_sample v x bits off; add_samples bits xs v off
  end.

(** The latest [n] elements. *)
Definition latest {A} (n : nat) (l : list A) : list A := drop (length l - n) l.

Record ring_ok (bits off : Z) (v : list f32) : Prop := {
  ro_bits : 1 <= bits <= 31;
  ro_len : length v = Z.to_nat (taps bits);
  ro_off : 0 <= off < taps bits
}.

Lemma taps_pow bits : 0 <= bits -> taps bits = 2 ^ bits.
Proof. intros. unfold taps. rewrite Z.shiftl_mul_pow2 by done. lia. Qed.

Lemma taps_range bits : 1 <= bits <= 31 -> 2 <= taps bits <= 2147483648.
Proof.
  intros. rewrite taps_pow by lia. split.
  - apply (Z.pow_le_mono_r 2 1 bits); lia.
  - apply (Z.pow_le_mono_r 2 bits 31); lia.
Qed.

(** Masking wraps the index around. *)
Lemma mask_wraps bits n : 1 <= bits <= 31 -> 0 <= n < 4294967296 ->
  Z.land n (cnt_mask bits) = n mod taps bits.
Proof.
  intros Hb Hn. rewrite taps_pow, <- Z.land_ones by lia. f_equal.
  unfold cnt_mask. change 0xFFFFFFFF with (Z.ones 32).
  rewrite Z.shiftr_div_pow2, Z.ones_div_pow2 by lia. f_equal. lia.
Qed.

Lemma next_offset bits off : 1 <= bits <= 31 -> 0 <= off < taps bits ->
  Z.land (u32 (off + 1)) (cnt_mask bits) = if off + 1 =? taps bits then 0 else off + 1.
Proof.
  intros Hb Ho. pose proof (taps_range bits Hb).
  rewrite mask_wraps by (try apply u32_range; lia). rewrite u32_id by (split; lia).
  destruct (Z.eqb_spec (off + 1) (taps bits)) as [->|]; [by apply Z.mod_same; lia|].
  apply Z.mod_small. lia.
Qed.

Definition next_off (bits off : Z) : Z := if off + 1 =? taps bits then 0 else off + 1.

Lemma ring_insert bits off v x : ring_ok bits off v ->
  ring (next_off bits off) (<[Z.to_nat off := x]> v) = drop 1 (ring off v) ++ [x].
Proof.
  intros [Hb Hl Ho]. unfold ring.
  destruct (lookup_lt_is_Some_2 v (Z.to_nat off)) as [y Hy]; [lia|].
  rewrite insert_take_drop by lia. rewrite (drop_S v y (Z.to_nat off)) by done. cbn [app drop].
  set (o := Z.to_nat off) in *.
  assert (Ht : length (take o v) = o) by (rewrite length_take; lia).
  unfold next_off. destruct (Z.eqb_spec (off + 1) (taps bits)) as [E|E].
  - change (Z.to_nat 0) with 0%nat. rewrite drop_0, take_0, app_nil_r.
    rewrite (drop_ge v (S o)) by lia. done.
  - replace (Z.to_nat (off + 1)) with (S o) by lia.
    rewrite drop_app_ge, take_app_ge, Ht by (rewrite Ht; lia).
    replace (S o - o)%nat with 1%nat by lia. cbn [drop take]. rewrite drop_0, take_0. by rewrite ?app_assoc.
Qed.

Lemma ring_length bits off v : ring_ok bits off v -> length (ring off v) = Z.to_nat (taps bits).
Proof. intros [Hb Hl Ho]. unfold ring. rewrite length_app, length_drop, length_take. lia. Qed.

Lemma next_ok bits off v v' : ring_ok bits off v -> length v' = length v ->
  ring_ok bits (next_off bits off) v'.
Proof.
  intros [Hb Hl Ho] Hl'. split; [done|by rewrite Hl'|].
  unfold next_off. destruct (Z.eqb_spec (off + 1) (taps bits)); lia.
Qed.

Lemma add_sample_run bits off v x : ring_ok bits off v ->
  filter_add_sample v x bits off = Some (<[Z.to_nat off := x]> v, next_off bits off).
Proof.
  intros [Hb Hl Ho]. unfold filter_add_sample. rewrite put_ix_Some by lia. cbn [mbind option_bind].
  by rewrite next_offset.
Qed.

(** The samples still to be read are a prefix of the ring. *)
Lemma fir_loop bits filter v n i off acc :
  ring_ok bits off v -> length filter = Z.to_nat (taps bits) -> 0 <= i ->
  i + Z.of_nat n = taps bits ->
  exists off', for_loop n i 1 (fun i '(result, offset) =>
    c ← filter !!? i; x ← v !!? offset;
    Some ((result + c * x)%f32, Z.land (u32 (offset + 1)) (cnt_mask bits))) (acc, off) =
  Some (foldl (fun acc '(c, x) => (acc + c * x)%f32) acc
    (zip (drop (Z.to_nat i) filter) (take n (ring off v))), off').
Proof.
  intros Hok Hf. revert i off acc Hok. induction n as [|n IH]; intros i off acc Hok Hi Hn.
  { exists off. rewrite take_0. by destruct (drop _ _). }
  pose proof Hok as [Hb Hl Ho].
  destruct (at_ix_Some filter i) as [c Hc]; [lia|]. destruct (at_ix_Some v off) as [x Hx]; [lia|].
  destruct (IH (i + 1) (next_off bits off) (acc + c * x)%f32) as [off' Hrun]; [by eapply next_ok|lia|lia|].
  exists off'. cbn [for_loop]. rewrite Hc, Hx. cbn [mbind option_bind]. rewrite next_offset by done.
  fold (next_off bits off). rewrite Hrun. f_equal. f_equal.
  unfold at_ix in Hc, Hx. rewrite decide_True in Hc by lia. rewrite decide_True in Hx by lia.
  rewrite (drop_S filter c (Z.to_nat i)) by done. replace (Z.to_nat (i + 1)) with (S (Z.to_nat i)) by lia.
  pose proof (ring_insert bits off v x Hok) as Hr. rewrite list_insert_id in Hr by done. rewrite Hr.
  assert (Hring : ring off v = x :: drop 1 (ring off v)).
  { unfold ring. by rewrite (drop_S v x (Z.to_nat off)). }
  rewrite Hring at 2. cbn [take zip zip_with foldl]. rewrite take_app_le; [done|].
  rewrite length_drop, (ring_length bits) by done. lia.
Qed.

Lemma run_fir_run bits off filter v :
  ring_ok bits off v -> length filter = Z.to_nat (taps bits) ->
  filter_run_fir_iteration v filter bits off = Some (fir filter (ring off v)).
Proof.
  intros Hok Hf. unfold filter_run_fir_iteration. pose proof (taps_range bits (ro_bits _ _ _ Hok)).
  destruct (fir_loop bits filter v (Z.to_nat (taps bits)) 0 off f0) as [off' ->]; try done; [lia|].
  cbn [mbind option_bind]. rewrite <- (ring_length bits off v Hok) at 1. by rewrite take_ge.
Qed.

Lemma add_samples_run bits xs v off : ring_ok bits off v ->
  exists v' off', add_samples bits xs v off = Some (v', off') /\ ring_ok bits off' v' /\
    ring off' v' = drop (length xs) (ring off v ++ xs).
Proof.
  revert v off. induction xs as [|x xs IH]; intros v off Hok.
  { exists v, off. by rewrite app_nil_r. }
  cbn [add_samples]. rewrite add_sample_run by done. cbn [mbind option_bind].
  destruct (IH (<[Z.to_nat off := x]> v) (next_off bits off)) as (v' & off' & Hrun & Hok' & Hr).
  { eapply next_ok; [done|]. by rewrite length_insert. }
  exists v', off'. split; [done|]. split; [done|].
  rewrite Hr, ring_insert by done. rewrite <- app_assoc. cbn [app length].
  pose proof (ring_length bits off v Hok). pose proof (taps_range bits (ro_bits _ _ _ Hok)).
  destruct (ring off v) as [|y l]; [simpl in *; lia|]. by cbn [drop app].
Qed.

(** Once as many samples as the filter has taps were added to the
    ring, wherever it started, the FIR filter computes the weighted sum of
    the latest samples in the order they came. *)
Theorem fir_filter_of_latest bits filter xs v off :
  ring_ok bits off v -> length filter = Z.to_nat (taps bits) -> taps bits <= Z.of_nat (length xs) ->
  exists v' off', add_samples bits xs v off = Some (v', off') /\
    filter_run_fir_iteration v' filter bits off' = Some (fir filter (latest (Z.to_nat (taps bits)) xs)).
Proof.
  intros Hok Hf Hxs. destruct (add_samples_run bits xs v off Hok) as (v' & off' & Hrun & Hok' & Hr).
  exists v', off'. split; [done|]. rewrite run_fir_run by done. rewrite Hr.
  pose proof (ring_length bits off v Hok). unfold latest.
  rewrite drop_app_ge by lia. do 3 f_equal. lia.
Qed.

(** Two taps of 1 and -1: the difference of the latest two samples. *)
Lemma fir_filter_of_latest_witness :
  exists v' off', add_samples 1 [f0; f_of_int 5; f_of_int 7] [f0; f0] 1 = Some (v', off') /\
    filter_run_fir_iteration v' [f1; f_of_int (-1)] 1 off' = Some (f_of_int (-2)).
Proof.
  apply (fir_filter_of_latest 1 [f1; f_of_int (-1)] [f0; f_of_int 5; f_of_int 7] [f0; f0] 1).
  - split; [lia|reflexivity|vm_compute; split; congruence].
  - reflexivity.
  - vm_compute. congruence.
Defined.

(** ** The filter design of digital_filter.c stays inside its arrays

    The indices of the Fourier transform do not depend on the data.  [fir_check]
    runs the same loops on indices alone; where it succeeds, so does
    [filter_create_fir_lowpass], whatever sine and cosine return. *)
From S2P Require Import Prelude Float32.

Definition guard_ix (b : bool) : option unit := if b then Some tt else None.

Lemma guard_ix_true b u : guard_ix b = Some u -> b = true.
Proof. by destruct b. Qed.

(** ** The loops, on indices *)

Definition reverse_check (m : Z) : option Z :=
  let n := taps m in
  for_loop (Z.to_nat (n - 1)) 0 1 (fun i j =>
    guard_ix ((0 <=? i) && (i <? n) && (0 <=? j) && (j <? n));;
    '(k, j) ← reverse_carry (S (Z.to_nat m)) (Z.shiftr n 1) j; Some (j + k)) 0.

Definition stage_check (n l1 l2 : Z) : option unit :=
  for_loop (Z.to_nat l1) 0 1 (fun j _ =>
    for_loop (Z.to_nat ((n - j + l2 - 1) / l2)) j l2 (fun i _ =>
      guard_ix ((0 <=? i) && (0 <=? l1) && (i + l1 <? n))) tt) tt.

Definition stages_check (m : Z) : option Z :=
  for_loop (Z.to_nat m) 0 1 (fun _ l1 =>
    let l2 := Z.shiftl l1 1 in stage_check (taps m) l1 l2;; Some l2) 1.

Definition range_check (n : Z) (len : Z) (ix : Z -> Z) : option unit :=
  for_loop (Z.to_nat n) 0 1 (fun i _ =>
    guard_ix ((0 <=? i) && (i <? len) && (0 <=? ix i) && (ix i <? len))) tt.

Definition fir_check (bits : Z) : bool :=
  let n := taps bits in
  (Z.rem n 2 =? 0) &&
  match reverse_check bits, stages_check bits, range_check n n id, range_check (n / 2) n (fun i => n - i - 1),
        range_check (n / 2) n (fun i => n / 2 + i) with
  | Some _, Some _, Some _, Some _, Some _ => true
  | _, _, _, _, _ => false
  end.

Section Design.
Context `{Libm} (bits : Z).
Abbreviation n := (taps bits).

(** Arrays of the filter's length. *)
Definition sized (l : list f32) : Prop := Z.of_nat (length l) = n.

Lemma sized_at l i : sized l -> 0 <= i < n -> exists x, l !!? i = Some x.
Proof. intros Hl Hi. apply at_ix_Some. by rewrite Hl. Qed.

Lemma sized_put l i x : sized l -> 0 <= i < n -> exists l', put_ix i x l = Some l' /\ sized l'.
Proof.
  intros Hl Hi. rewrite put_ix_Some by (rewrite Hl; lia). eexists. split; [done|].
  unfold sized. by rewrite length_insert.
Qed.

Ltac ranges := repeat match goal with
  | H : guard_ix _ = Some _ |- _ => apply guard_ix_true in H
  | H : _ && _ = true |- _ => apply andb_true_iff in H as [? H]
  | H : (_ <=? _) = true |- _ => apply Z.leb_le in H
  | H : (_ <? _) = true |- _ => apply Z.ltb_lt in H
  end.

Lemma sized_swap l i j : sized l -> 0 <= i < n -> 0 <= j < n -> exists l', swap i j l = Some l' /\ sized l'.
Proof.
  intros Hl Hi Hj. unfold swap.
  destruct (sized_at l i) as [a ->]; [done..|]. destruct (sized_at l j) as [b ->]; [done..|].
  cbn [mbind option_bind]. destruct (sized_put l i b) as (l1 & -> & H1); [done..|].
  cbn [mbind option_bind]. by apply sized_put.
Qed.

Lemma fft_reverse_total real imag :
  is_Some (reverse_check bits) -> sized real -> sized imag ->
  exists r m, fft_reverse bits real imag = Some (r, m) /\ sized r /\ sized m.
Proof.
  intros [c Hc] Hr Hm. unfold fft_reverse, reverse_check in *.
  destruct (for_loop_sim (fun j '(j', r, m) => j' = j /\ sized r /\ sized m) _ _ _ _
    (fun i '(j, real, imag) =>
      real' ← (if i <? j then swap i j real else Some real);
      imag' ← (if i <? j then swap i j imag else Some imag);
      '(k, j) ← reverse_carry (S (Z.to_nat bits)) (Z.shiftr n 1) j;
      Some (j + k, real', imag')) _ _ (0, real, imag) Hc) as ([[j r] m] & -> & _ & H1 & H2).
  - done.
  - intros i j [[j' r] m] c' Hchk (-> & H1 & H2).
    destruct (guard_ix _) as [[]|] eqn:G; [|discriminate]. ranges. cbn [mbind option_bind] in Hchk.
    assert (Hswap : forall l, sized l -> exists l', (if i <? j then swap i j l else Some l) = Some l' /\ sized l').
    { intros l Hl. destruct (i <? j); [|by exists l]. by apply sized_swap. }
    destruct (Hswap r H1) as (r' & -> & Hr'), (Hswap m H2) as (m' & -> & Hm').
    cbn [mbind option_bind]. destruct (reverse_carry _ _ _) as [[k j2]|]; [|discriminate].
    cbn [mbind option_bind] in *. injection Hchk as <-. by eexists.
  - cbn [mbind option_bind]. by exists r, m.
Qed.

Lemma butterfly_total u1 u2 i i1 real imag :
  sized real -> sized imag -> 0 <= i < n -> 0 <= i1 < n ->
  exists r m, butterfly u1 u2 i i1 real imag = Some (r, m) /\ sized r /\ sized m.
Proof.
  intros Hr Hm Hi Hi1. unfold butterfly.
  destruct (sized_at real i1) as [r1 ->]; [done..|]. destruct (sized_at imag i1) as [m1 ->]; [done..|].
  cbn [mbind option_bind]. cbv zeta.
  destruct (sized_at real i) as [r ->]; [done..|]. destruct (sized_at imag i) as [m ->]; [done..|].
  cbn [mbind option_bind].
  repeat match goal with |- context [put_ix ?k ?x ?l] =>
    destruct (sized_put l k x) as (? & -> & ?); [done..|]; cbn [mbind option_bind] end.
  by eexists _, _.
Qed.

Lemma fft_stage_total l1 l2 c1 c2 real imag :
  is_Some (stage_check n l1 l2) -> sized real -> sized imag ->
  exists r m, fft_stage n l1 l2 c1 c2 real imag = Some (r, m) /\ sized r /\ sized m.
Proof.
  intros [[] Hc] Hr Hm. unfold fft_stage, stage_check in *.
  match goal with |- context [for_loop (Z.to_nat l1) 0 1 ?body ?a] =>
    destruct (for_loop_sim (fun (_ : unit) '(_, _, r, m) => sized r /\ sized m) _ _ _ _ body _ _ a Hc)
      as ([[[u1 u2] r] m] & -> & H1 & H2) end.
  - done.
  - intros j [] [[[u1 u2] r] m] [] Hin [H1 H2].
    match goal with |- context [for_loop _ j l2 ?body ?a] =>
      destruct (for_loop_sim (fun (_ : unit) '(r, m) => sized r /\ sized m) _ _ _ _ body _ _ a Hin)
        as ([r' m'] & -> & H1' & H2') end.
    + done.
    + intros i [] [r0 m0] [] G [H3 H4]. ranges.
      destruct (butterfly_total u1 u2 i (i + l1) r0 m0) as (r' & m' & -> & ? & ?); [done|done|lia|lia|].
      by eexists.
    + cbn [mbind option_bind]. by eexists.
  - cbn [mbind option_bind]. by exists r, m.
Qed.

Lemma filter_fft_total dir real imag :
  is_Some (reverse_check bits) -> is_Some (stages_check bits) -> sized real -> sized imag ->
  exists r m, filter_fft dir bits real imag = Some (r, m) /\ sized r /\ sized m.
Proof.
  intros Hrev [c Hc] Hr Hm. unfold filter_fft.
  destruct (fft_reverse_total real imag) as (r & m & -> & H1 & H2); [done..|]. cbn [mbind option_bind].
  unfold stages_check in Hc. cbv zeta.
  match goal with |- context [for_loop (Z.to_nat bits) 0 1 ?body ?a] =>
    destruct (for_loop_sim (fun l1 '(_, _, l1', r, m) => l1' = l1 /\ sized r /\ sized m) _ _ _ _ body _ _ a Hc)
      as ([[[[c1 c2] l1] r1] m1] & -> & _ & H3 & H4) end.
  - done.
  - intros _ l1 [[[[c1 c2] l1'] r0] m0] c' Hchk (-> & H3 & H4). cbv zeta in Hchk.
    destruct (stage_check n l1 (Z.shiftl l1 1)) as [u|] eqn:E; [|discriminate].
    injection Hchk as <-.
    destruct (fft_stage_total l1 (Z.shiftl l1 1) c1 c2 r0 m0) as (r' & m' & -> & ? & ?); [by exists u|done..|].
    cbn [mbind option_bind]. by eexists.
  - cbn [mbind option_bind]. destruct dir; [|by exists r1, m1].
    eexists _, _. split; [reflexivity|]. unfold sized in *.
    rewrite !length_app, !length_fmap, !length_take, !length_drop. split; lia.
Qed.

(** A loop whose body keeps arrays sized, for indices in range. *)
Lemma range_loop (ix : Z -> Z) (body : Z -> list f32 -> option (list f32)) k l :
  is_Some (range_check k n ix) -> sized l ->
  (forall i l, 0 <= i < n -> 0 <= ix i < n -> sized l -> exists l', body i l = Some l' /\ sized l') ->
  exists l', for_loop (Z.to_nat k) 0 1 body l = Some l' /\ sized l'.
Proof.
  intros [u Hc] Hl Hb. unfold range_check in Hc.
  destruct (for_loop_sim (fun (_ : unit) l => sized l) _ _ _ _ body _ _ l Hc Hl) as (l' & Hr & Hl').
  - intros i [] l1 [] G Hl1. ranges. by apply Hb.
  - by exists l'.
Qed.

Lemma scale_at_total i k l : sized l -> 0 <= i < n -> exists l', scale_at i k l = Some l' /\ sized l'.
Proof.
  intros Hl Hi. unfold scale_at. destruct (sized_at l i) as [x ->]; [done..|].
  cbn [mbind option_bind]. by apply sized_put.
Qed.

Lemma fir_lowpass_total f_break use_hamming v :
  fir_check bits = true -> sized v ->
  exists v', filter_create_fir_lowpass f_break bits use_hamming v = Some v' /\ sized v'.
Proof.
  unfold fir_check. intros Hc Hv. apply andb_true_iff in Hc as [Heven Hc].
  destruct (reverse_check bits) eqn:E1; [|discriminate]. destruct (stages_check bits) eqn:E2; [|discriminate].
  destruct (range_check n n id) eqn:E3; [|discriminate].
  destruct (range_check (n / 2) n (fun i => n - i - 1)) eqn:E4; [|discriminate].
  destruct (range_check (n / 2) n (fun i => n / 2 + i)) eqn:E5; [|discriminate].
  unfold filter_create_fir_lowpass. cbv zeta.
  match goal with |- context [for_loop (Z.to_nat n) 0 1 ?body v] =>
    destruct (range_loop id body n v) as (v1 & -> & H1); [by eexists|done| |] end.
  { intros i l Hi _ Hl. by apply sized_put. }
  cbn [mbind option_bind].
  match goal with |- context [for_loop _ 0 1 ?body v1] =>
    destruct (range_loop (fun i => n - i - 1) body (n / 2) v1) as (v2 & -> & H2); [by eexists|done| |] end.
  { intros i l Hi Hi' Hl. destruct (sized_at l i) as [x ->]; [done..|]. by apply sized_put. }
  cbn [mbind option_bind].
  destruct (filter_fft_total true v2 (replicate (Z.to_nat n) f0)) as (v3 & m & -> & H3 & _);
    [by eexists|by eexists|done| |].
  { unfold sized in *. rewrite length_replicate. lia. }
  cbn [mbind option_bind]. unfold filter_fftshift.
  match goal with |- context [for_loop _ 0 1 ?body v3] =>
    destruct (range_loop (fun i => n / 2 + i) body (n / 2) v3) as (v4 & -> & H4); [by eexists|done| |] end.
  { intros i l Hi Hi' Hl. by apply sized_swap. }
  cbn [mbind option_bind]. destruct use_hamming; [|by exists v4]. unfold filter_hamming. rewrite Heven.
  apply (range_loop (fun i => n - i - 1)); [by eexists|done|].
  intros i l Hi Hi' Hl. destruct (scale_at_total i (hamming i n) l) as (l1 & -> & ?); [done..|].
  cbn [mbind option_bind]. by apply scale_at_total.
Qed.
End Design.

(** The filters of mcpwm.c have 4 and 7 bits. *)
Lemma fir_check_4 : fir_check 4 = true.
Proof. by vm_compute. Qed.
Lemma fir_check_7 : fir_check 7 = true.
Proof. by vm_compute. Qed.
