(* ===== verification/Packet.v ===== *)
(** * Packet: the framing protocol of the serial links (src/packet.c, packet.h)

    One [PACKET_STATE_t] per link, in the array [handler_states].  A frame is
    a start byte (2 for a one-byte length, 3 for a two-byte length), the
    length, the payload, its CRC-16 high byte first, and the stop byte 3.
    The callbacks [send_func] and [process_func] are function pointers; the
    model names them by a number and returns the calls made through them. *)
From S2P Require Import Prelude Buffer Crc.

Definition PACKET_RX_TIMEOUT : Z := 2.
Definition PACKET_HANDLERS : Z := 2.
Definition PACKET_MAX_PL_LEN : Z := 1024.

Record PACKET_STATE_t := mkPACKET_STATE {
  rx_state : Z;
  rx_timeout : Z;
  send_func : option Z;
  process_func : option Z;
  payload_length : Z;
  rx_buffer : list Z;
  tx_buffer : list Z;
  rx_data_ptr : Z;
  crc_low : Z;
  crc_high : Z
}.

#[export] Instance eta_PACKET_STATE : Eta PACKET_STATE_t := fun s =>
  mkPACKET_STATE (rx_state s) (rx_timeout s) (send_func s) (process_func s)
    (payload_length s) (rx_buffer s) (tx_buffer s) (rx_data_ptr s) (crc_low s) (crc_high s).

(** A call through a callback: the buffer it is given and the length. *)
Inductive callback :=
| SendCall (func : Z) (data : list Z) (len : Z)
| ProcessCall (func : Z) (data : list Z) (len : Z).

Definition call_send (f : option Z) (data : list Z) (len : Z) : list callback :=
  match f with Some f => [SendCall f data len] | None => [] end.
Definition call_process (f : option Z) (data : list Z) (len : Z) : list callback :=
  match f with Some f => [ProcessCall f data len] | None => [] end.

(** ** One handler *)

Definition packet_init_h (s_func p_func : option Z) (s : PACKET_STATE_t) : PACKET_STATE_t :=
  s <| send_func := s_func |> <| process_func := p_func |>.

(** The header, the payload, the checksum and the stop byte, in [tx_buffer]. *)
Definition write_frame (data : list Z) (len crc : Z) : ST wstate unit :=
  (if len <=? 256
   then put8 2;; put8 len
   else put8 3;; put8 (Z.shiftr len 8);; put8 (Z.land len 255));;
  put_bytes (take (Z.to_nat len) data);;
  put8 (Z.shiftr crc 8);; put8 (Z.land crc 255);; put8 3.

Definition packet_send_packet_h (data : list Z) (len : Z)
    : ST PACKET_STATE_t (list callback) := fun s =>
  if PACKET_MAX_PL_LEN <? len then Some ([], s) else
  crc ← crc16 data len;
  '(_, (tx, b_ind)) ← write_frame data len crc (tx_buffer s, 0);
  Some (call_send (send_func s) tx b_ind, s <| tx_buffer := tx |>).

Definition packet_timer_h (s : PACKET_STATE_t) : PACKET_STATE_t :=
  if negb (rx_timeout s =? 0)
  then s <| rx_timeout := u8 (rx_timeout s - 1) |>
  else s <| rx_state := 0 |>.

Definition packet_process_byte_h (rx_data : Z) : ST PACKET_STATE_t (list callback) := fun s =>
  match rx_state s with
  | 0 =>
      if rx_data =? 2 then
        Some ([], s <| rx_state := u8 (rx_state s + 2) |>
                    <| rx_timeout := PACKET_RX_TIMEOUT |>
                    <| rx_data_ptr := 0 |> <| payload_length := 0 |>)
      else if rx_data =? 3 then
        Some ([], s <| rx_state := u8 (rx_state s + 1) |>
                    <| rx_timeout := PACKET_RX_TIMEOUT |>
                    <| rx_data_ptr := 0 |> <| payload_length := 0 |>)
      else Some ([], s <| rx_state := 0 |>)
  | 1 =>
      Some ([], s <| payload_length := Z.shiftl rx_data 8 |>
                  <| rx_state := u8 (rx_state s + 1) |>
                  <| rx_timeout := PACKET_RX_TIMEOUT |>)
  | 2 =>
      let s := s <| payload_length := Z.lor (payload_length s) rx_data |> in
      if (0 <? payload_length s) && (payload_length s <=? PACKET_MAX_PL_LEN) then
        Some ([], s <| rx_state := u8 (rx_state s + 1) |>
                    <| rx_timeout := PACKET_RX_TIMEOUT |>)
      else Some ([], s <| rx_state := 0 |>)
  | 3 =>
      '(_, (buf, ptr)) ← put8 rx_data (rx_buffer s, rx_data_ptr s);
      let s := s <| rx_buffer := buf |> <| rx_data_ptr := ptr |> in
      let s := if rx_data_ptr s =? payload_length s
               then s <| rx_state := u8 (rx_state s + 1) |> else s in
      Some ([], s <| rx_timeout := PACKET_RX_TIMEOUT |>)
  | 4 =>
      Some ([], s <| crc_high := rx_data |> <| rx_state := u8 (rx_state s + 1) |>
                  <| rx_timeout := PACKET_RX_TIMEOUT |>)
  | 5 =>
      Some ([], s <| crc_low := rx_data |> <| rx_state := u8 (rx_state s + 1) |>
                  <| rx_timeout := PACKET_RX_TIMEOUT |>)
  | 6 =>
      calls ← (if rx_data =? 3 then
                 crc ← crc16 (rx_buffer s) (payload_length s);
                 Some (if crc =? Z.lor (Z.shiftl (crc_high s) 8) (crc_low s)
                       then call_process (process_func s) (rx_buffer s) (payload_length s)
                       else [])
               else Some []);
      Some (calls, s <| rx_state := 0 |>)
  | _ => Some ([], s <| rx_state := 0 |>)
  end.

(** ** The array of handlers *)

Definition with_handler {A} (handler_num : Z) (m : ST PACKET_STATE_t A)
    : ST (list PACKET_STATE_t) A := fun hs =>
  if decide (0 <= handler_num) then
    s ← hs !! Z.to_nat handler_num;
    '(a, s') ← m s;
    Some (a, <[Z.to_nat handler_num := s']> hs)
  else None.

Definition packet_init (s_func p_func : option Z) (handler_num : Z) : ST (list PACKET_STATE_t) unit :=
  with_handler handler_num (st_modify (packet_init_h s_func p_func)).

Definition packet_send_packet (data : list Z) (len handler_num : Z)
    : ST (list PACKET_STATE_t) (list callback) :=
  with_handler handler_num (packet_send_packet_h data len).

Definition packet_timerfunc (hs : list PACKET_STATE_t) : list PACKET_STATE_t :=
  packet_timer_h <$> hs.

Definition packet_process_byte (rx_data handler_num : Z)
    : ST (list PACKET_STATE_t) (list callback) :=
  with_handler handler_num (packet_process_byte_h rx_data).

(** The statically zeroed [handler_states] of the program. *)
Definition packet_state0 : PACKET_STATE_t :=
  mkPACKET_STATE 0 0 None None 0 (replicate 1024 0) (replicate 1030 0) 0 0 0.
Definition handler_states0 : list PACKET_STATE_t := replicate 2 packet_state0.

(** ** Runs of the receiver: bytes and timer ticks, in any order *)

Inductive event := Byte (b : Z) | Tick.

Definition packet_event (e : event) : ST PACKET_STATE_t (list callback) := fun s =>
  match e with
  | Byte b => packet_process_byte_h b s
  | Tick => Some ([], packet_timer_h s)
  end.

Fixpoint packet_run (es : list event) : ST PACKET_STATE_t (list callback) :=
  match es with
  | [] => mret []
  | e :: es => c ← packet_event e; cs ← packet_run es; mret (c ++ cs)
  end.

(** ** Well-formed receiver states *)

Record packet_wf (s : PACKET_STATE_t) : Prop := {
  wf_state : 0 <= rx_state s <= 6;
  wf_timeout : 0 <= rx_timeout s <= PACKET_RX_TIMEOUT;
  wf_rx_len : length (rx_buffer s) = 1024%nat;
  wf_rx_bytes : is_bytes (rx_buffer s);
  wf_hi : rx_state s = 2 -> 0 <= payload_length s < 65536 /\ payload_length s mod 256 = 0;
  wf_ptr0 : 1 <= rx_state s <= 2 -> rx_data_ptr s = 0;
  wf_ptr : rx_state s = 3 -> 0 <= rx_data_ptr s < payload_length s;
  wf_pl : 3 <= rx_state s -> 0 < payload_length s <= 1024
}.

Definition event_ok (e : event) : Prop :=
  match e with Byte b => is_u8 b | Tick => True end.

Lemma packet_run_cons e es s c s1 :
  packet_event e s = Some (c, s1) ->
  packet_run (e :: es) s =
    match packet_run es s1 with Some (cs, s') => Some (c ++ cs, s') | None => None end.
Proof.
  intros H. simpl. rewrite (ST_bind_Some _ _ _ _ _ H). unfold mbind, ST_bind.
  by destruct (packet_run es s1) as [[cs s']|].
Qed.

Lemma packet_run_app es1 es2 s c s1 :
  packet_run es1 s = Some (c, s1) ->
  packet_run (es1 ++ es2) s =
    match packet_run es2 s1 with Some (cs, s') => Some (c ++ cs, s') | None => None end.
Proof.
  revert s c. induction es1 as [|e es1 IH]; intros s c H.
  - injection H as <- <-. simpl. by destruct (packet_run es2 s) as [[? ?]|].
  - simpl app. destruct (packet_event e s) as [[c1 s']|] eqn:He.
    + rewrite (packet_run_cons _ _ _ _ _ He) in H. rewrite (packet_run_cons _ _ _ _ _ He).
      destruct (packet_run es1 s') as [[c2 s2]|] eqn:Hr; [|done]. injection H as <- <-.
      rewrite (IH _ _ Hr). destruct (packet_run es2 s2) as [[? ?]|]; [|done].
      by rewrite app_assoc.
    + simpl in H. unfold mbind, ST_bind in H. by rewrite He in H.
Qed.

(** The one array access of the receiver. *)
Lemma put8_rx s b :
  packet_wf s -> rx_state s = 3 -> is_u8 b ->
  put8 b (rx_buffer s, rx_data_ptr s)
  = Some (tt, (<[Z.to_nat (rx_data_ptr s) := b]> (rx_buffer s), rx_data_ptr s + 1)).
Proof.
  intros Hwf Hst Hb. pose proof (wf_ptr s Hwf Hst). pose proof (wf_pl s Hwf ltac:(lia)).
  unfold put8. rewrite (wf_rx_len s Hwf), decide_True by lia. by rewrite u8_id.
Qed.

(** A length byte joined to the high byte. *)
Lemma lor_length hi b :
  0 <= hi < 65536 -> hi mod 256 = 0 -> is_u8 b -> Z.lor hi b = hi + b.
Proof.
  intros Hhi Hm Hb. assert (Hq : hi = Z.shiftl (hi / 256) 8).
  { rewrite Z.shiftl_mul_pow2 by lia. int_solve. }
  rewrite Hq at 1. rewrite lor_shiftl_add by (unfold is_u8 in *; lia). int_solve.
Qed.

(** The checksum read in state 6 is inside the buffer. *)
Lemma crc16_rx s :
  packet_wf s -> rx_state s = 6 ->
  crc16 (rx_buffer s) (payload_length s)
  = Some (crc16_of (take (Z.to_nat (payload_length s)) (rx_buffer s))).
Proof.
  intros Hwf Hst. pose proof (wf_pl s Hwf ltac:(lia)). pose proof (wf_rx_len s Hwf).
  rewrite <- (take_drop (Z.to_nat (payload_length s)) (rx_buffer s)) at 1.
  replace (payload_length s)
    with (Z.of_nat (length (take (Z.to_nat (payload_length s)) (rx_buffer s)))) at 3
    by (rewrite length_take; lia).
  apply crc16_prefix.
Qed.

(** Evaluate the receiver state, a constant once [rx_state s] is known. *)
Ltac eval_state :=
  repeat match goal with
  | H : rx_state ?s = _ |- context [rx_state ?s] => rewrite H
  | |- context [u8 (?a + ?b)] =>
      match isZcst a with true =>
        let v := eval vm_compute in (u8 (a + b)) in change (u8 (a + b)) with v
      end
  end.

Ltac wf_split :=
  constructor; simpl; eval_state; try done; try lia;
  try (unfold is_u8, PACKET_RX_TIMEOUT, PACKET_MAX_PL_LEN in *; lia).

Lemma packet_event_wf e s :
  packet_wf s -> event_ok e ->
  exists cs s', packet_event e s = Some (cs, s') /\ packet_wf s'.
Proof.
  intros Hwf He. pose proof Hwf as [Hst Ht Hl Hb Hhi Hptr0 Hptr Hpl].
  destruct e as [b|]; simpl in He; simpl packet_event.
  2:{ do 2 eexists. split; [done|]. unfold packet_timer_h.
      destruct (Z.eqb_spec (rx_timeout s) 0); simpl; wf_split.
      unfold u8, PACKET_RX_TIMEOUT in *. int_solve. }
  assert (Hc : rx_state s = 0 \/ rx_state s = 1 \/ rx_state s = 2 \/ rx_state s = 3
               \/ rx_state s = 4 \/ rx_state s = 5 \/ rx_state s = 6) by lia.
  unfold packet_process_byte_h. destruct_or! Hc; rewrite Hc in *; cbv iota.
  - destruct (b =? 2), (b =? 3); do 2 eexists; (split; [done|]); wf_split.
  - do 2 eexists; (split; [done|]); wf_split. intros _.
    rewrite Z.shiftl_mul_pow2 by lia. unfold is_u8 in He. split; [lia|]. apply Z_mod_mult.
  - simpl. destruct (Hhi eq_refl) as [??]. rewrite lor_length by done.
    destruct ((0 <? _) && _) eqn:Hpl'; do 2 eexists; (split; [done|]); wf_split.
  - destruct (Hptr eq_refl) as [??]. rewrite (put8_rx s b Hwf Hc He). simpl.
    destruct (_ =? _) eqn:Hfull; do 2 eexists; (split; [done|]); wf_split;
      rewrite ?length_insert; try lia; by apply Forall_insert.
  - do 2 eexists; (split; [done|]); wf_split.
  - do 2 eexists; (split; [done|]); wf_split.
  - rewrite (crc16_rx s Hwf Hc). simpl.
    destruct (b =? 3); simpl; do 2 eexists; (split; [done|]); wf_split.
Qed.

Lemma packet_run_wf es s :
  packet_wf s -> Forall event_ok es ->
  exists cs s', packet_run es s = Some (cs, s') /\ packet_wf s'.
Proof.
  intros Hwf Hes. revert s Hwf. induction Hes as [|e es He _ IH]; intros s Hwf.
  - by exists [], s.
  - destruct (packet_event_wf e s Hwf He) as (c & s1 & Hs1 & Hwf1).
    destruct (IH s1 Hwf1) as (cs & s' & Hs' & Hwf').
    exists (c ++ cs), s'. by rewrite (packet_run_cons _ _ _ _ _ Hs1), Hs'.
Qed.

(** ** Frames *)

(** A frame header that announces [len]. *)
Inductive header (len : Z) : list Z -> Prop :=
| header_short b : len = b -> is_u8 b -> header len [2; b]
| header_long hi lo : len = hi * 256 + lo -> is_u8 hi -> is_u8 lo -> header len [3; hi; lo].

(** [valid_frame payload bs]: the bytes [bs] are a frame around [payload]. *)
Definition valid_frame (payload bs : list Z) : Prop :=
  exists hd, header (Z.of_nat (length payload)) hd /\ (0 < length payload <= 1024)%nat /\
    bs = hd ++ payload ++ [Z.shiftr (crc16_of payload) 8; u8 (crc16_of payload); 3].

(** What the receiver knows about the bytes [h] received so far: they end in
    the part of a frame that its state stands for. *)
Definition tracks (s : PACKET_STATE_t) (h : list Z) : Prop :=
  let payload n := take (Z.to_nat n) (rx_buffer s) in
  let hd_then n tl := exists pre hd, header (payload_length s) hd /\ h = pre ++ hd ++ payload n ++ tl in
  match rx_state s with
  | 1 => payload_length s = 0 /\ exists pre, h = pre ++ [3]
  | 2 => (payload_length s = 0 /\ exists pre, h = pre ++ [2]) \/
         (exists pre hi, is_u8 hi /\ payload_length s = hi * 256 /\ h = pre ++ [3; hi])
  | 3 => hd_then (rx_data_ptr s) []
  | 4 => hd_then (payload_length s) []
  | 5 => is_u8 (crc_high s) /\ hd_then (payload_length s) [crc_high s]
  | 6 => is_u8 (crc_high s) /\ is_u8 (crc_low s) /\
         hd_then (payload_length s) [crc_high s; crc_low s]
  | _ => True
  end.

Definition event_bytes (e : event) : list Z :=
  match e with Byte b => [b] | Tick => [] end.
Definition run_bytes (es : list event) : list Z := es ≫= event_bytes.

(** The payloads handed to the process callback. *)
Definition delivered (cs : list callback) (payload : list Z) : Prop :=
  exists f buf len, ProcessCall f buf len ∈ cs /\ payload = take (Z.to_nat len) buf.

Lemma tracks_byte_3 s b h :
  packet_wf s -> rx_state s = 3 -> is_u8 b ->
  tracks s h ->
  forall s', packet_process_byte_h b s = Some ([], s') -> tracks s' (h ++ [b]).
Proof.
  intros Hwf Hst Hb Htr s' Hs'. unfold tracks in Htr. rewrite Hst in Htr.
  destruct Htr as (pre & hd & Hhd & ->). destruct (wf_ptr s Hwf Hst) as [Hp1 Hp2].
  pose proof (wf_rx_len s Hwf) as Hlen. pose proof (wf_pl s Hwf ltac:(lia)) as Hpl.
  unfold packet_process_byte_h in Hs'. rewrite Hst, (put8_rx s b Hwf Hst Hb) in Hs'.
  simpl in Hs'.
  assert (Htake : take (Z.to_nat (rx_data_ptr s + 1))
                    (<[Z.to_nat (rx_data_ptr s) := b]> (rx_buffer s))
                  = take (Z.to_nat (rx_data_ptr s)) (rx_buffer s) ++ [b]).
  { rewrite Z2Nat.inj_add by lia. change (Z.to_nat 1) with 1%nat.
    rewrite Nat.add_1_r. erewrite take_S_r by (apply list_lookup_insert_eq; lia).
    by rewrite take_insert_ge by lia. }
  destruct (_ =? _) eqn:Hfull; injection Hs' as <-; unfold tracks; simpl;
    rewrite ?Hst; simpl; exists pre, hd; (split; [done|]).
  - apply Z.eqb_eq in Hfull. rewrite <- Hfull, Htake. by rewrite !app_nil_r, <- !app_assoc.
  - rewrite Htake. by rewrite !app_nil_r, <- !app_assoc.
Qed.

(** A checksum split into the two bytes it is sent as. *)
Lemma crc_split c hi lo :
  is_u16 c -> is_u8 hi -> is_u8 lo -> c = Z.lor (Z.shiftl hi 8) lo ->
  hi = Z.shiftr c 8 /\ lo = u8 c.
Proof.
  intros Hc Hh Hl ->. unfold is_u8 in *. rewrite lor_shiftl_add by lia.
  rewrite Z.shiftr_div_pow2 by lia. split; [int_solve|]. unfold u8. int_solve.
Qed.

Lemma tracks_byte_6 s b h c s' :
  packet_wf s -> is_u8 b -> tracks s h -> rx_state s = 6 ->
  packet_process_byte_h b s = Some (c, s') ->
  tracks s' (h ++ [b]) /\
  forall payload, delivered c payload -> exists pre bs, h ++ [b] = pre ++ bs /\ valid_frame payload bs.
Proof.
  intros Hwf Hb Htr Hst Hs'. unfold tracks in Htr. rewrite Hst in Htr.
  destruct Htr as (Hh & Hl & pre & hd & Hhd & ->).
  pose proof (wf_pl s Hwf ltac:(lia)) as Hpl. pose proof (wf_rx_len s Hwf) as Hlen.
  unfold packet_process_byte_h in Hs'. rewrite Hst, (crc16_rx s Hwf Hst) in Hs'. simpl in Hs'.
  destruct (b =? 3) eqn:H3; simpl in Hs'; simplify_eq Hs'; intros <- <-.
  2:{ split; [done|]. by intros ? (?&?&?&?%elem_of_nil&_). }
  split; [done|]. intros payload (f & buf & len & Hin & ->).
  apply Z.eqb_eq in H3 as ->.
  destruct (_ =? _) eqn:Hcrc in Hin; [|by apply elem_of_nil in Hin].
  unfold call_process in Hin. destruct (process_func s); [|by apply elem_of_nil in Hin].
  apply list_elem_of_singleton in Hin. simplify_eq.
  apply Z.eqb_eq, crc_split in Hcrc as [Heh Hel]; auto with cint.
  eexists pre, (hd ++ _). split; [by rewrite <- !app_assoc|]. exists hd.
  rewrite length_take. split_and!; [|lia|lia|].
  - replace (Z.of_nat _) with (payload_length s) by lia. done.
  - simpl. by rewrite <- Heh, <- Hel.
Qed.

Lemma tracks_byte s b h c s' :
  packet_wf s -> is_u8 b -> tracks s h ->
  packet_process_byte_h b s = Some (c, s') ->
  tracks s' (h ++ [b]) /\
  forall payload, delivered c payload -> exists pre bs, h ++ [b] = pre ++ bs /\ valid_frame payload bs.
Proof.
  intros Hwf Hb Htr Hs'.
  assert (Hnil : forall p, ~ delivered [] p) by (intros ? (?&?&?&?%elem_of_nil&_); done).
  pose proof Hwf as [Hst _ Hl _ Hhi Hptr0 Hptr Hpl].
  assert (Hc : rx_state s = 3 \/ rx_state s = 0 \/ rx_state s = 1 \/ rx_state s = 2
               \/ rx_state s = 4 \/ rx_state s = 5 \/ rx_state s = 6) by lia.
  destruct Hc as [Hc|Hc].
  { assert (c = []) as ->.
    { unfold packet_process_byte_h in Hs'. rewrite Hc, (put8_rx s b Hwf Hc Hb) in Hs'.
      simpl in Hs'. by simplify_eq. }
    split; [by eapply tracks_byte_3|]. intros ? []%Hnil. }
  destruct (decide (rx_state s = 6)) as [H6|H6].
  { by eapply tracks_byte_6. }
  assert (c = [] /\ tracks s' (h ++ [b])) as [-> Htr'];
    [|by split; [|intros ? []%Hnil]].
  unfold packet_process_byte_h in Hs'. unfold tracks in *.
  destruct_or! Hc; try done; rewrite Hc in *; cbv iota in *.
  - destruct (b =? 2) eqn:H2, (b =? 3) eqn:H3; simplify_eq Hs'; intros <- <-;
      split; try done; simpl; eval_state; rewrite ?Hc; try done; try lia.
    all: apply Z.eqb_eq in H2 || apply Z.eqb_eq in H3; subst.
    + left. by split; [|exists h].
    + by split; [|exists h].
  - simplify_eq Hs'; intros <- <-. destruct Htr as (Hz & pre & ->). split; [done|].
    simpl. eval_state. right. exists pre, b. split_and!; [done| |by rewrite <- app_assoc].
    by rewrite Z.shiftl_mul_pow2 by lia.
  - simpl in Hs'. destruct (Hhi eq_refl) as [Hr Hm]. rewrite lor_length in Hs' by done.
    specialize (Hptr0 ltac:(lia)).
    destruct (_ && _) eqn:Hpl'; simplify_eq Hs'; intros <- <-; (split; [done|]);
      simpl; eval_state; [|done].
    rewrite Hptr0. simpl.
    destruct Htr as [(Hz & pre & ->)|(pre & hi & Hh & Hz & ->)].
    + exists pre, [2; b]. split; [|by rewrite <- app_assoc].
      apply header_short; [lia|done].
    + exists pre, [3; hi; b]. split; [|by rewrite <- app_assoc].
      apply header_long; [lia|done..].
  - simplify_eq Hs'; intros <- <-. destruct Htr as (pre & hd & Hhd & ->). split; [done|].
    simpl; eval_state. split; [done|]. exists pre, hd. split; [done|].
    by rewrite app_nil_r, <- !app_assoc.
  - simplify_eq Hs'; intros <- <-. destruct Htr as (Hh & pre & hd & Hhd & ->). split; [done|].
    simpl; eval_state. split_and!; [done..|]. exists pre, hd. split; [done|].
    by rewrite <- !app_assoc.
Qed.

Lemma tracks_tick s h : tracks s h -> tracks (packet_timer_h s) h.
Proof. unfold packet_timer_h. by destruct (rx_timeout s =? 0). Qed.

Lemma packet_run_tracks es s h cs s' :
  packet_wf s -> Forall event_ok es -> tracks s h ->
  packet_run es s = Some (cs, s') ->
  forall payload, delivered cs payload ->
  exists pre frame post, h ++ run_bytes es = pre ++ frame ++ post /\ valid_frame payload frame.
Proof.
  intros Hwf Hes. revert s h cs Hwf. induction Hes as [|e es He _ IH]; intros s h cs Hwf Htr Hrun payload Hdel.
  { injection Hrun as <- <-. destruct Hdel as (?&?&?&?%elem_of_nil&_). done. }
  destruct (packet_event_wf e s Hwf He) as (c & s1 & Hs1 & Hwf1).
  rewrite (packet_run_cons _ _ _ _ _ Hs1) in Hrun.
  destruct (packet_run es s1) as [[cs2 s2]|] eqn:Hrun1; [|done]. simplify_eq.
  assert (Hstep : tracks s1 (h ++ event_bytes e) /\
    (forall p, delivered c p -> exists pre bs, h ++ event_bytes e = pre ++ bs /\ valid_frame p bs)).
  { destruct e as [b|]; [by eapply (tracks_byte s b)|].
    simpl in *. simplify_eq. rewrite app_nil_r. split; [by apply tracks_tick|].
    intros ? (?&?&?&?%elem_of_nil&_). done. }
  destruct Hstep as [Htr1 Hdel1].
  assert (Hb : run_bytes (e :: es) = event_bytes e ++ run_bytes es) by done. rewrite Hb, app_assoc.
  destruct Hdel as (f & buf & len & [Hin|Hin]%elem_of_app & Hp).
  - destruct (Hdel1 payload) as (pre & bs & Heq & Hv); [by exists f, buf, len|].
    exists pre, bs, (run_bytes es). split; [by rewrite Heq, <- app_assoc|done].
  - eapply (IH s1); eauto. by exists f, buf, len.
Qed.

(** ** The receiver accepts every valid frame *)

Lemma receive_header len hd s :
  packet_wf s -> rx_state s = 0 -> header len hd -> 0 < len <= 1024 ->
  exists s', packet_run (Byte <$> hd) s = Some ([], s') /\ rx_state s' = 3 /\
    rx_data_ptr s' = 0 /\ payload_length s' = len /\ rx_buffer s' = rx_buffer s /\
    process_func s' = process_func s.
Proof.
  intros Hwf Hst Hhd Hlen. destruct Hhd as [b -> Hb|hi lo -> Hh Hl]; simpl.
  - unfold mbind, ST_bind, packet_event, packet_process_byte_h. rewrite Hst. simpl.
    change (Z.lor 0 b) with b. replace ((0 <? b) && (b <=? PACKET_MAX_PL_LEN)) with true
      by (unfold PACKET_MAX_PL_LEN; lia).
    by eexists.
  - unfold mbind, ST_bind, packet_event, packet_process_byte_h. rewrite Hst. simpl.
    rewrite Z.shiftl_mul_pow2 by lia. change (2 ^ 8) with 256.
    unfold is_u8 in *. rewrite lor_length by (try apply Z_mod_mult; unfold is_u8; lia).
    replace ((0 <? hi * 256 + lo) && (hi * 256 + lo <=? PACKET_MAX_PL_LEN)) with true
      by (unfold PACKET_MAX_PL_LEN; lia).
    by eexists.
Qed.

Lemma receive_payload bs s got rest :
  rx_state s = 3 -> is_bytes bs -> bs <> [] ->
  rx_buffer s = got ++ rest -> (length bs <= length rest)%nat ->
  rx_data_ptr s = Z.of_nat (length got) ->
  payload_length s = Z.of_nat (length got + length bs) ->
  exists s', packet_run (Byte <$> bs) s = Some ([], s') /\ rx_state s' = 4 /\
    payload_length s' = payload_length s /\ process_func s' = process_func s /\
    rx_buffer s' = got ++ bs ++ drop (length bs) rest.
Proof.
  intros Hst Hbs. revert s got rest Hst.
  induction Hbs as [|b bs Hb Hbs IH]; intros s got rest Hst Hne Hbuf Hroom Hptr Hpl; [done|].
  destruct rest as [|r rest]; simpl in Hroom; [lia|].
  assert (Hput : put8 b (rx_buffer s, rx_data_ptr s)
                 = Some (tt, ((got ++ [b]) ++ rest, Z.of_nat (length (got ++ [b]))))).
  { unfold put8. rewrite Hbuf, Hptr, decide_True by (rewrite length_app; simpl; lia).
    rewrite Nat2Z.id, u8_id, insert_app_r_alt by (done || lia).
    rewrite Nat.sub_diag, length_app, <- app_assoc. simpl. do 3 f_equal. lia. }
  change (Byte <$> b :: bs) with (Byte b :: (Byte <$> bs)).
  assert (Hstep : exists s1, packet_event (Byte b) s = Some ([], s1) /\
    rx_state s1 = (if decide (bs = []) then 4 else 3) /\ rx_buffer s1 = (got ++ [b]) ++ rest /\
    rx_data_ptr s1 = Z.of_nat (length (got ++ [b])) /\
    payload_length s1 = payload_length s /\ process_func s1 = process_func s).
  { simpl packet_event. unfold packet_process_byte_h. rewrite Hst, Hput. simpl.
    rewrite Hpl. eexists. split; [done|].
    destruct (Z.eqb_spec (Z.of_nat (length (got ++ [b]))) (Z.of_nat (length got + length (b :: bs))))
      as [He|He]; simpl; rewrite length_app in He; simpl in He.
    - destruct bs; simpl in He; [|lia]. simpl. rewrite Hst. by rewrite Hpl.
    - destruct bs; simpl in He; [lia|]. simpl. rewrite Hst. by rewrite Hpl. }
  destruct Hstep as (s1 & Hs1 & Hst1 & Hbuf1 & Hptr1 & Hpl1 & Hpf1).
  rewrite (packet_run_cons _ _ _ _ _ Hs1). destruct (decide (bs = [])) as [->|Hbs0].
  - exists s1. simpl. rewrite Hbuf1, <- app_assoc. by rewrite drop_0.
  - destruct (IH s1 (got ++ [b]) rest) as (s' & Hrun & ? & ? & ? & Hbuf');
      try done; [lia| |].
    { rewrite Hpl1, Hpl, length_app. simpl. lia. }
    exists s'. rewrite Hrun, Hbuf', <- app_assoc. simpl. split_and!; congruence.
Qed.

Lemma receive_trailer payload s :
  rx_state s = 4 -> payload_length s = Z.of_nat (length payload) ->
  (exists tl, rx_buffer s = payload ++ tl) ->
  exists s', packet_run (Byte <$> [Z.shiftr (crc16_of payload) 8; u8 (crc16_of payload); 3]) s
    = Some (call_process (process_func s) (rx_buffer s) (Z.of_nat (length payload)), s') /\
    rx_state s' = 0 /\ process_func s' = process_func s.
Proof.
  intros Hst Hpl [tl Hbuf]. pose proof (crc16_of_range payload) as Hc. unfold is_u16 in Hc.
  simpl. unfold mbind, ST_bind, packet_event, packet_process_byte_h. rewrite Hst. simpl.
  rewrite Hpl, Hbuf, crc16_prefix. simpl.
  replace (Z.lor _ _) with (crc16_of payload).
  - rewrite Z.eqb_refl. eexists. rewrite app_nil_r. done.
  - pose proof (u8_range (crc16_of payload)). unfold is_u8 in *.
    rewrite lor_shiftl_add, Z.shiftr_div_pow2 by lia. unfold u8. int_solve.
Qed.

Lemma receive_frame payload frame s :
  packet_wf s -> rx_state s = 0 -> is_bytes payload -> valid_frame payload frame ->
  exists s' buf, packet_run (Byte <$> frame) s
    = Some (call_process (process_func s) buf (Z.of_nat (length payload)), s') /\
    take (length payload) buf = payload /\ rx_state s' = 0 /\ process_func s' = process_func s.
Proof.
  intros Hwf Hst Hbs (hd & Hhd & [Hp1 Hp2] & ->). rewrite !fmap_app.
  destruct (receive_header _ hd s Hwf Hst Hhd ltac:(lia)) as (s1 & Hr1 & Hst1 & Hptr1 & Hpl1 & Hb1 & Hf1).
  pose proof (wf_rx_len s Hwf).
  destruct (receive_payload payload s1 [] (rx_buffer s)) as (s2 & Hr2 & Hst2 & Hpl2 & Hf2 & Hb2);
    try done; [by destruct payload; simpl in *; [lia|]|lia|].
  destruct (receive_trailer payload s2) as (s3 & Hr3 & Hst3 & Hf3); [done|congruence|by eexists|].
  rewrite (packet_run_app _ _ _ _ _ Hr1), (packet_run_app _ _ _ _ _ Hr2), Hr3.
  exists s3, (rx_buffer s2). rewrite Hb2. simpl. rewrite take_app_length. split_and!; try congruence.
Qed.

(** ** What the sender emits *)

Definition frame_of (data : list Z) : list Z :=
  let len := Z.of_nat (length data) in
  (if len <=? 256 then [2; u8 len] else [3; u8 (Z.shiftr len 8); u8 (Z.land len 255)])
  ++ data ++ [u8 (Z.shiftr (crc16_of data) 8); u8 (Z.land (crc16_of data) 255); 3].

Lemma write_frame_spec data rest :
  is_bytes data ->
  writes (write_frame (data ++ rest) (Z.of_nat (length data)) (crc16_of data)) (frame_of data).
Proof.
  intros Hd. unfold write_frame, frame_of. rewrite Nat2Z.id, take_app_length.
  apply writes_bind.
  - destruct (_ <=? _).
    + apply (writes_bind _ _ [_] [_]); apply writes_put8.
    + apply (writes_bind _ _ [_] [_; _]); [apply writes_put8|].
      apply (writes_bind _ _ [_] [_]); apply writes_put8.
  - apply writes_bind; [by apply writes_bytes|].
    apply (writes_bind _ _ [_] [_; _]); [apply writes_put8|].
    apply (writes_bind _ _ [_] [_]); apply writes_put8.
Qed.

Lemma frame_of_length data : (length (frame_of data) <= length data + 6)%nat.
Proof. unfold frame_of. destruct (_ <=? _); rewrite !length_app; simpl; lia. Qed.

Lemma frame_of_valid data :
  (0 < length data <= 1024)%nat -> length data <> 256%nat -> valid_frame data (frame_of data).
Proof.
  intros Hlen Hne. unfold frame_of. exists (if Z.of_nat (length data) <=? 256
    then [2; u8 (Z.of_nat (length data))]
    else [3; u8 (Z.shiftr (Z.of_nat (length data)) 8); u8 (Z.land (Z.of_nat (length data)) 255)]).
  pose proof (crc16_of_range data) as Hc.
  split_and!; try lia.
  - destruct (Z.leb_spec (Z.of_nat (length data)) 256).
    + apply header_short; [|apply u8_range]. rewrite u8_id; unfold is_u8; lia.
    + apply header_long; [|apply u8_range..].
      rewrite land_255, Z.shiftr_div_pow2 by lia. unfold u8. int_solve.
  - do 2 f_equal. rewrite land_255, (u8_id (u8 _)) by apply u8_range.
    f_equal. apply u8_id. rewrite Z.shiftr_div_pow2 by lia. unfold is_u8, is_u16 in *. int_solve.
Qed.

Lemma packet_send_spec data rest s :
  is_bytes data -> (length data <= 1024)%nat -> length (tx_buffer s) = 1030%nat ->
  exists tx, packet_send_packet_h (data ++ rest) (Z.of_nat (length data)) s
    = Some (call_send (send_func s) tx (Z.of_nat (length (frame_of data))), s <| tx_buffer := tx |>) /\
    length tx = 1030%nat /\ take (length (frame_of data)) tx = frame_of data.
Proof.
  intros Hd Hlen Htx. pose proof (frame_of_length data).
  unfold packet_send_packet_h, PACKET_MAX_PL_LEN.
  replace (1024 <? Z.of_nat (length data)) with false by lia.
  rewrite crc16_prefix. simpl. rewrite (write_frame_spec data rest Hd) by lia. simpl.
  eexists. split; [done|]. rewrite length_inserts. split; [done|].
  rewrite <- (take_drop (length (frame_of data)) (tx_buffer s)).
  rewrite list_inserts_0_r by (rewrite length_take; lia). apply take_app_length.
Qed.

(** ** Streams of frames *)

(** The payloads delivered by a run, in order. *)
Definition payloads (cs : list callback) : list (list Z) :=
  omap (fun c => match c with
                 | ProcessCall _ buf len => Some (take (Z.to_nat len) buf)
                 | SendCall _ _ _ => None
                 end) cs.

(** The bytes a run put on the wire. *)
Definition wire (cs : list callback) : list Z :=
  cs ≫= (fun c => match c with
                  | SendCall _ buf len => take (Z.to_nat len) buf
                  | ProcessCall _ _ _ => []
                  end).

Lemma payloads_app cs1 cs2 : payloads (cs1 ++ cs2) = payloads cs1 ++ payloads cs2.
Proof. apply omap_app. Qed.

Lemma wire_app cs1 cs2 : wire (cs1 ++ cs2) = wire cs1 ++ wire cs2.
Proof. apply bind_app. Qed.

(** Send several packets, one after the other. *)
Fixpoint send_all (ps : list (list Z)) : ST PACKET_STATE_t (list callback) :=
  match ps with
  | [] => mret []
  | p :: ps => c ← packet_send_packet_h p (Z.of_nat (length p));
               cs ← send_all ps; mret (c ++ cs)
  end.

Definition sendable (p : list Z) : Prop :=
  is_bytes p /\ (0 < length p <= 1024)%nat /\ length p <> 256%nat.

Lemma send_all_wire ps s f :
  Forall sendable ps -> length (tx_buffer s) = 1030%nat -> send_func s = Some f ->
  exists cs s', send_all ps s = Some (cs, s') /\ wire cs = concat (frame_of <$> ps).
Proof.
  intros Hps. revert s. induction Hps as [|p ps (Hb & Hlen & _) _ IH]; intros s Htx Hf.
  - by exists [], s.
  - destruct (packet_send_spec p [] s Hb ltac:(lia) Htx) as (tx & Hsend & Htx' & Hframe).
    rewrite app_nil_r in Hsend. simpl. unfold mbind, ST_bind. rewrite Hsend.
    destruct (IH (s <| tx_buffer := tx |>)) as (cs & s' & Hrun & Hwire); [done..|].
    rewrite Hrun. do 2 eexists. split; [done|].
    rewrite Hf, wire_app, Hwire. f_equal.
    unfold wire. simpl. by rewrite Nat2Z.id, app_nil_r.
Qed.

Lemma receive_stream ps s f :
  Forall sendable ps -> packet_wf s -> rx_state s = 0 -> process_func s = Some f ->
  exists cs s', packet_run (Byte <$> concat (frame_of <$> ps)) s = Some (cs, s') /\
    payloads cs = ps /\ rx_state s' = 0.
Proof.
  intros Hps. revert s. induction Hps as [|p ps (Hb & Hlen & Hne) _ IH]; intros s Hwf Hst Hf.
  - by exists [], s.
  - destruct (receive_frame p (frame_of p) s) as (s1 & buf & Hr1 & Hbuf & Hst1 & Hf1);
      auto using frame_of_valid.
    assert (Hev : Forall event_ok (Byte <$> frame_of p)).
    { apply Forall_fmap. unfold frame_of, compose. apply Forall_app. split.
      - destruct (_ <=? _); repeat constructor; simpl; try apply u8_range; unfold is_u8; lia.
      - apply Forall_app. split; [done|].
        repeat constructor; simpl; try apply u8_range; unfold is_u8; lia. }
    destruct (packet_run_wf _ s Hwf Hev) as (c' & s1' & Hr1' & Hwf1).
    rewrite Hr1 in Hr1'. simplify_eq.
    destruct (IH s1' Hwf1 Hst1) as (cs & s' & Hr & Hpay & Hst'); [congruence|].
    rewrite fmap_cons, concat_cons, fmap_app, (packet_run_app _ _ _ _ _ Hr1), Hr.
    do 2 eexists. split; [done|]. split; [|done].
    rewrite Hf, payloads_app, Hpay. unfold payloads. simpl. by rewrite Nat2Z.id, Hbuf.
Qed.

(** The receiver never changes its callback. *)
Lemma packet_event_process e s c s' :
  packet_event e s = Some (c, s') -> process_func s' = process_func s.
Proof.
  destruct e as [b|]; simpl.
  2:{ intros ?. simplify_eq. unfold packet_timer_h. by case_match. }
  unfold packet_process_byte_h.
  destruct (put8 b (rx_buffer s, rx_data_ptr s)) as [[[] [buf ptr]]|];
    destruct (crc16 (rx_buffer s) (payload_length s)) as [crc|]; simpl; intros H;
    repeat case_match; simpl in H; simplify_eq; done.
Qed.

Lemma packet_run_process es s cs s' :
  packet_run es s = Some (cs, s') -> process_func s' = process_func s.
Proof.
  revert s cs. induction es as [|e es IH]; intros s cs H; [by injection H as _ <-|].
  destruct (packet_event e s) as [[c s1]|] eqn:He.
  - rewrite (packet_run_cons _ _ _ _ _ He) in H.
    destruct (packet_run es s1) as [[? ?]|] eqn:Hr; [|done]. simplify_eq.
    rewrite (IH _ _ Hr). by eapply packet_event_process.
  - simpl in H. unfold mbind, ST_bind in H. by rewrite He in H.
Qed.

Lemma three_ticks s : packet_wf s -> rx_state (Nat.iter 3 packet_timer_h s) = 0.
Proof.
  intros Hwf. pose proof (wf_timeout s Hwf) as Ht. unfold PACKET_RX_TIMEOUT in Ht.
  assert (H : rx_timeout s = 0 \/ rx_timeout s = 1 \/ rx_timeout s = 2) by lia.
  simpl. unfold packet_timer_h.
  destruct_or! H; rewrite H; simpl; rewrite ?H; simpl; rewrite ?H; simpl; done.
Qed.

Lemma packet_state0_wf : packet_wf packet_state0.
Proof.
  assert (Hz : is_bytes (rx_buffer packet_state0)).
  { change (rx_buffer packet_state0) with (replicate 1024 0).
    apply Forall_replicate. unfold is_u8. lia. }
  constructor; try exact Hz; try (vm_compute; easy);
    intros H; change (rx_state packet_state0) with 0 in H; lia.
Qed.

Lemma packet_wf_process s f : packet_wf s -> packet_wf (s <| process_func := f |>).
Proof. intros []. constructor; simpl; assumption. Qed.

(** ** The properties *)

(** C3. Whatever bytes and timer ticks arrive in whatever order, the
    receiver never writes or reads outside its buffers, and its state
    stays well formed. *)
Theorem packet_receiver_safe (es : list event) :
  Forall event_ok es ->
  exists cs s', packet_run es packet_state0 = Some (cs, s') /\ packet_wf s'.
Proof. intros Hes. apply packet_run_wf; [apply packet_state0_wf|done]. Qed.

Lemma packet_receiver_safe_witness :
  exists cs s', packet_run [Byte 2; Byte 1; Tick; Byte 65; Tick; Tick; Tick; Byte 255] packet_state0
    = Some (cs, s') /\ packet_wf s'.
Proof.
  apply packet_receiver_safe. repeat constructor; simpl; unfold is_u8; lia.
Defined.

(** C2. Every payload handed to the process callback stood in the received
    byte stream as a complete frame: announced length, payload, matching
    CRC, stop byte. *)
Theorem packet_receiver_sound (es : list event) (cs : list callback) (s' : PACKET_STATE_t)
    (f : Z) (buf : list Z) (len : Z) :
  Forall event_ok es ->
  packet_run es (packet_state0 <| process_func := Some f |>) = Some (cs, s') ->
  ProcessCall f buf len ∈ cs ->
  exists pre frame post, run_bytes es = pre ++ frame ++ post /\
    valid_frame (take (Z.to_nat len) buf) frame.
Proof.
  intros Hes Hrun Hin.
  apply (packet_run_tracks es (packet_state0 <| process_func := Some f |>) [] cs s');
    try done; [apply packet_wf_process, packet_state0_wf|exists f, buf, len; split; [exact Hin|reflexivity]].
Qed.

(** C1. Any list of payloads of 1 to 1024 bytes (256 excepted), sent one
    after the other, arrives complete and in order at the other end,
    whatever bytes and timer ticks the receiver saw before, once three
    ticks have passed. *)
Theorem packet_stream_roundtrip (ps : list (list Z)) (tx rx : PACKET_STATE_t) (f g : Z) (es : list event) :
  Forall sendable ps ->
  length (tx_buffer tx) = 1030%nat -> send_func tx = Some f ->
  Forall event_ok es -> process_func rx = Some g -> packet_wf rx ->
  exists sent tx' cs0 rx0 cs rx',
    send_all ps tx = Some (sent, tx') /\
    packet_run (es ++ [Tick; Tick; Tick]) rx = Some (cs0, rx0) /\
    packet_run (Byte <$> wire sent) rx0 = Some (cs, rx') /\
    payloads cs = ps /\ rx_state rx' = 0.
Proof.
  intros Hps Htx Hf Hes Hg Hwf.
  destruct (send_all_wire ps tx f Hps Htx Hf) as (sent & tx' & Hsend & Hwire).
  destruct (packet_run_wf es rx Hwf Hes) as (c1 & r1 & Hr1 & Hwf1).
  destruct (packet_run_wf [Tick; Tick; Tick] r1 Hwf1) as (c2 & r2 & Hr2 & Hwf2);
    [by repeat constructor|].
  assert (Hst : rx_state r2 = 0).
  { rewrite <- (three_ticks r1 Hwf1). by injection Hr2 as _ <-. }
  assert (Hg2 : process_func r2 = Some g).
  { rewrite <- Hg. apply (packet_run_process (es ++ [Tick; Tick; Tick]) rx (c1 ++ c2) r2).
    by rewrite (packet_run_app _ _ _ _ _ Hr1), Hr2. }
  destruct (receive_stream ps r2 g Hps Hwf2 Hst Hg2) as (cs & s' & Hr & Hpay & Hst').
  exists sent, tx', (c1 ++ c2), r2, cs, s'. rewrite Hwire.
  split_and!; try done. by rewrite (packet_run_app _ _ _ _ _ Hr1), Hr2.
Qed.

(** Three payloads, one of them longer than 256 bytes, after line noise. *)
Lemma packet_stream_roundtrip_witness :
  exists sent tx' cs0 rx0 cs rx',
    send_all [[1; 2; 3]; replicate 300 7; [3]] (packet_state0 <| send_func := Some 1 |>)
      = Some (sent, tx') /\
    packet_run ([Byte 3; Byte 9; Byte 2] ++ [Tick; Tick; Tick])
      (packet_state0 <| process_func := Some 2 |>) = Some (cs0, rx0) /\
    packet_run (Byte <$> wire sent) rx0 = Some (cs, rx') /\
    payloads cs = [[1; 2; 3]; replicate 300 7; [3]] /\ rx_state rx' = 0.
Proof.
  apply (packet_stream_roundtrip _ _ _ 1 2 [Byte 3; Byte 9; Byte 2]); try reflexivity.
  - repeat constructor; simpl; unfold is_u8; lia.
  - repeat constructor; simpl; unfold is_u8; lia.
  - apply packet_wf_process, packet_state0_wf.
Defined.

Lemma packet_receiver_sound_witness :
  exists pre frame post,
    run_bytes (Byte <$> [9; 2; 1; 65; 88; 229; 3; 9]) = pre ++ frame ++ post /\
    valid_frame (take 1 (65 :: replicate 1023 0)) frame.
Proof.
  eapply (packet_receiver_sound (Byte <$> [9; 2; 1; 65; 88; 229; 3; 9]) _ _ 5
            (65 :: replicate 1023 0) 1).
  - repeat constructor; simpl; unfold is_u8; lia.
  - vm_compute. reflexivity.
  - vm_compute. constructor.
Defined.

(** A frame whose payload was hit by an error burst within two adjacent
    bytes is received to the end and then dropped. *)
Lemma receive_bad_trailer payload crc s :
  rx_state s = 4 -> payload_length s = Z.of_nat (length payload) ->
  (exists tl, rx_buffer s = payload ++ tl) ->
  is_u16 crc -> crc <> crc16_of payload ->
  exists s', packet_run (Byte <$> [Z.shiftr crc 8; u8 crc; 3]) s = Some ([], s') /\ rx_state s' = 0.
Proof.
  intros Hst Hpl [tl Hbuf] Hc Hne. unfold is_u16 in Hc.
  simpl. unfold mbind, ST_bind, packet_event, packet_process_byte_h. rewrite Hst. simpl.
  rewrite Hpl, Hbuf, crc16_prefix. simpl.
  replace (Z.lor _ _) with crc.
  - replace (crc16_of payload =? crc) with false by lia. by eexists.
  - pose proof (u8_range crc). unfold is_u8 in *.
    rewrite lor_shiftl_add, Z.shiftr_div_pow2 by lia. unfold u8. int_solve.
Qed.

(** C4. A frame whose payload was changed within two adjacent bytes is
    never delivered. *)
Theorem packet_burst_rejected (p t : list Z) (a b a' b' : Z) (hd : list Z) (s : PACKET_STATE_t) :
  let good := p ++ [a; b] ++ t in
  let bad := p ++ [a'; b'] ++ t in
  is_bytes good -> is_bytes bad -> (a, b) <> (a', b') -> (length good <= 1024)%nat ->
  header (Z.of_nat (length good)) hd ->
  packet_wf s -> rx_state s = 0 ->
  exists s', packet_run (Byte <$> hd ++ bad ++ [Z.shiftr (crc16_of good) 8; u8 (crc16_of good); 3]) s
    = Some ([], s') /\ rx_state s' = 0.
Proof.
  intros good bad Hgood Hbad Hne Hlen Hhd Hwf Hst.
  assert (Hlen' : length bad = length good) by (subst good bad; by rewrite !length_app).
  assert (Hpos : (0 < length bad)%nat) by (subst bad; rewrite !length_app; simpl; lia).
  assert (Hcrc : crc16_of good <> crc16_of bad).
  { intros H. apply Forall_app in Hgood as [_ [Hab Ht]%Forall_app].
    apply Forall_app in Hbad as [_ [Hab' _]%Forall_app].
    apply Forall_cons_1 in Hab as [? [? _]%Forall_cons_1].
    apply Forall_cons_1 in Hab' as [? [? _]%Forall_cons_1].
    apply crc16_of_burst in H as [-> ->]; auto. }
  rewrite <- Hlen' in Hhd, Hlen. rewrite !fmap_app.
  destruct (receive_header _ hd s Hwf Hst Hhd ltac:(lia)) as (s1 & Hr1 & Hst1 & Hptr1 & Hpl1 & Hb1 & Hf1).
  pose proof (wf_rx_len s Hwf).
  destruct (receive_payload bad s1 [] (rx_buffer s)) as (s2 & Hr2 & Hst2 & Hpl2 & Hf2 & Hb2);
    try done; [intros Hb0; rewrite Hb0 in Hpos; simpl in Hpos; lia|lia|].
  destruct (receive_bad_trailer bad (crc16_of good) s2) as (s3 & Hr3 & Hst3);
    [done|congruence|by eexists|apply crc16_of_range|done|].
  rewrite (packet_run_app _ _ _ _ _ Hr1), (packet_run_app _ _ _ _ _ Hr2).
  exists s3. by rewrite Hr3.
Qed.

Lemma packet_burst_rejected_witness :
  exists s', packet_run (Byte <$> [2; 3] ++ ([1] ++ [9; 9] ++ []) ++
      [Z.shiftr (crc16_of [1; 2; 3]) 8; u8 (crc16_of [1; 2; 3]); 3]) packet_state0
    = Some ([], s') /\ rx_state s' = 0.
Proof.
  apply (packet_burst_rejected [1] [] 2 3 9 9 [2; 3] packet_state0);
    try reflexivity; try discriminate; try apply packet_state0_wf.
  - repeat constructor; unfold is_u8; lia.
  - repeat constructor; unfold is_u8; lia.
  - simpl. lia.
  - apply header_short; unfold is_u8; simpl; lia.
Defined.

(** A payload of exactly 256 bytes is sent with a one-byte length of
    0, and the receiver drops the frame at its second byte. *)
Theorem packet_256_lost (data : list Z) (tx rx : PACKET_STATE_t) (f : Z) :
  is_bytes data -> length data = 256%nat ->
  length (tx_buffer tx) = 1030%nat -> send_func tx = Some f -> rx_state rx = 0 ->
  exists buf tx' rx',
    packet_send_packet_h data 256 tx = Some ([SendCall f buf 261], tx') /\
    take 2 buf = [2; 0] /\
    packet_run (Byte <$> take 2 buf) rx = Some ([], rx') /\ rx_state rx' = 0.
Proof.
  intros Hd Hlen Htx Hf Hst.
  destruct (packet_send_spec data [] tx Hd ltac:(lia) Htx) as (buf & Hsend & Hbl & Hframe).
  assert (Hfr : frame_of data = [2; 0] ++ data ++
      [u8 (Z.shiftr (crc16_of data) 8); u8 (Z.land (crc16_of data) 255); 3]).
  { unfold frame_of. by rewrite Hlen. }
  rewrite app_nil_r, Hf, Hlen, Hfr in Hsend. simpl in Hsend.
  rewrite length_app, Hlen in Hsend. simpl in Hsend.
  assert (H2 : take 2 buf = [2; 0]).
  { apply (f_equal (take 2)) in Hframe. rewrite take_take, Hfr, Nat.min_l in Hframe; [done|].
    simpl. lia. }
  exists buf. eexists _, _. split; [exact Hsend|]. rewrite H2. split; [done|].
  simpl. unfold mbind, ST_bind, packet_event, packet_process_byte_h. rewrite Hst. by simpl.
Qed.

Lemma packet_256_lost_witness :
  exists buf tx' rx',
    packet_send_packet_h (replicate 256 0) 256 (packet_state0 <| send_func := Some 1 |>)
      = Some ([SendCall 1 buf 261], tx') /\
    take 2 buf = [2; 0] /\
    packet_run (Byte <$> take 2 buf) packet_state0 = Some ([], rx') /\ rx_state rx' = 0.
Proof.
  apply packet_256_lost; try reflexivity.
  apply Forall_replicate. unfold is_u8. lia.
Defined.
