(* ===== verification/Flash.v ===== *)
(** * Flash: the flash memory of the microcontroller and the sector table
    (src/flash_helper.c; the STM32 flash driver is a parameter)

    The flash is memory-mapped: it is read byte by byte, and written through
    the driver functions FLASH_ProgramByte, FLASH_ProgramHalfWord and
    FLASH_EraseSector, which return a status.  [Flash] is the interface of the
    driver, [FlashLaws] its documented behaviour: programming only clears
    bits and only in the addressed cells, erasing sets a whole sector to ones,
    and an operation that reports an error has either taken effect or not. *)
From S2P Require Import Prelude.

Definition FLASH_COMPLETE : Z := 9.
Definition VoltageRange_3 : Z := 2.

Class Flash (F : Type) : Type := {
  flash_byte : F -> Z -> Z;
  FLASH_ProgramByte : Z -> Z -> F -> Z * F;
  FLASH_ProgramHalfWord : Z -> Z -> F -> Z * F;
  FLASH_EraseSector : Z -> Z -> F -> Z * F
}.

(** ** The sector table of flash_helper.c *)

Definition FLASH_SECTORS : Z := 12.
Definition NEW_APP_BASE : nat := 8.
Definition NEW_APP_SECTORS : nat := 3.

Definition flash_addr : list Z :=
  [0x08000000; 0x08004000; 0x08008000; 0x0800C000; 0x08010000; 0x08020000;
   0x08040000; 0x08060000; 0x08080000; 0x080A0000; 0x080C0000; 0x080E0000].

Definition flash_sector : list Z :=
  [0x0000; 0x0008; 0x0010; 0x0018; 0x0020; 0x0028; 0x0030; 0x0038; 0x0040;
   0x0048; 0x0050; 0x0058].

(** The sector sizes documented next to the addresses. *)
Definition sector_size (k : nat) : Z :=
  if decide (k < 4)%nat then 0x4000 else if decide (k = 4)%nat then 0x10000 else 0x20000.

(** [flash_helper_get_sector_address]: a linear search, 0 when absent. *)
Fixpoint sector_search (sectors addrs : list Z) (fsector : Z) : Z :=
  match sectors, addrs with
  | s :: sectors, a :: addrs => if s =? fsector then a else sector_search sectors addrs fsector
  | _, _ => 0
  end.

Definition flash_helper_get_sector_address (fsector : Z) : Z :=
  sector_search flash_sector flash_addr fsector.

(** ** Documented behaviour *)

Section Laws.
Context {F : Type} `{Flash F}.

Definition same_flash (f f' : F) : Prop := forall x, flash_byte f' x = flash_byte f x.

Definition programmed (a d : Z) (n : nat) (f f' : F) : Prop :=
  forall x, flash_byte f' x =
    if decide (a <= x < a + Z.of_nat n)
    then Z.land (flash_byte f x) (u8 (Z.shiftr d (8 * (x - a)))) else flash_byte f x.

Definition erased (a size : Z) (f f' : F) : Prop :=
  forall x, flash_byte f' x = if decide (a <= x < a + size) then 255 else flash_byte f x.

(** The effect took place, or the operation failed and changed nothing. *)
Definition outcome (effect : F -> F -> Prop) (f : F) (r : Z * F) : Prop :=
  1 <= r.1 <= 9 /\ (effect f r.2 \/ r.1 <> FLASH_COMPLETE /\ same_flash f r.2).

Class FlashLaws : Prop := {
  flash_byte_range f x : is_u8 (flash_byte f x);
  program_byte_spec a d f : outcome (programmed a d 1) f (FLASH_ProgramByte a d f);
  program_halfword_spec a d f :
    a mod 2 = 0 -> outcome (programmed a d 2) f (FLASH_ProgramHalfWord a d f);
  erase_sector_spec k sector a f :
    flash_sector !! k = Some sector -> flash_addr !! k = Some a ->
    outcome (erased a (sector_size k)) f (FLASH_EraseSector sector VoltageRange_3 f)
}.

(** A flash whose operations never report an error. *)
Class FlashReliable : Prop := {
  program_byte_ok a d f : (FLASH_ProgramByte a d f).1 = FLASH_COMPLETE;
  program_halfword_ok a d f : (FLASH_ProgramHalfWord a d f).1 = FLASH_COMPLETE;
  erase_sector_ok s v f : (FLASH_EraseSector s v f).1 = FLASH_COMPLETE
}.
End Laws.

Arguments FlashLaws F {_}.
Arguments FlashReliable F {_}.

(** ** A concrete flash, for witnesses

    The contents and a script of faults: each operation takes the next fault
    of the script; with the script exhausted every operation succeeds. *)
Inductive fault := NoFault | FailBefore | FailAfter.

Record flash_sim := FlashSim { sim_mem : Z -> Z; sim_script : list fault }.

Definition sim_op (effect : (Z -> Z) -> Z -> Z) (f : flash_sim) : Z * flash_sim :=
  match sim_script f with
  | [] => (FLASH_COMPLETE, FlashSim (effect (sim_mem f)) [])
  | NoFault :: l => (FLASH_COMPLETE, FlashSim (effect (sim_mem f)) l)
  | FailBefore :: l => (8, FlashSim (sim_mem f) l)
  | FailAfter :: l => (8, FlashSim (effect (sim_mem f)) l)
  end.

Definition sim_program (n : nat) (a d : Z) (mem : Z -> Z) : Z -> Z := fun x =>
  if decide (a <= x < a + Z.of_nat n)
  then Z.land (mem x) (u8 (Z.shiftr d (8 * (x - a)))) else mem x.

Fixpoint sim_region (k : nat) (sectors addrs : list Z) (s : Z) : Z * Z :=
  match sectors, addrs with
  | s' :: sectors, a :: addrs =>
      if s' =? s then (a, sector_size k) else sim_region (S k) sectors addrs s
  | _, _ => (0, 0)
  end.

Definition sim_erase (s : Z) (mem : Z -> Z) : Z -> Z := fun x =>
  let '(a, size) := sim_region 0 flash_sector flash_addr s in
  if decide (a <= x < a + size) then 255 else mem x.

#[export] Instance flash_sim_ops : Flash flash_sim := {
  flash_byte f x := u8 (sim_mem f x);
  FLASH_ProgramByte a d := sim_op (sim_program 1 a d);
  FLASH_ProgramHalfWord a d := sim_op (sim_program 2 a d);
  FLASH_EraseSector s _ := sim_op (sim_erase s)
}.

Lemma land_u8 a b : u8 (Z.land a (u8 b)) = Z.land (u8 a) (u8 b).
Proof.
  unfold u8. change 256 with (2 ^ 8). rewrite <- !Z.land_ones by lia.
  apply Z.bits_inj'. intros n Hn. rewrite !Z.land_spec.
  by destruct (Z.testbit a n), (Z.testbit b n), (Z.testbit (Z.ones 8) n).
Qed.

Lemma sim_op_outcome effect (P : flash_sim -> flash_sim -> Prop) f :
  (forall l, P f (FlashSim (effect (sim_mem f)) l)) -> outcome P f (sim_op effect f).
Proof.
  intros HP. unfold outcome, sim_op, FLASH_COMPLETE.
  destruct (sim_script f) as [|[] l]; simpl; (split; [lia|]); auto.
  right. split; [lia|]. by intros x.
Qed.

#[export] Instance flash_sim_laws : FlashLaws flash_sim.
Proof.
  constructor.
  - intros. apply u8_range.
  - intros a d f. apply sim_op_outcome. intros l x. simpl. unfold sim_program.
    case_decide; [apply land_u8|done].
  - intros a d f _. apply sim_op_outcome. intros l x. simpl. unfold sim_program.
    case_decide; [apply land_u8|done].
  - intros k s a f Hs Ha. apply sim_op_outcome. intros l x. simpl. unfold sim_erase.
    assert (sim_region 0 flash_sector flash_addr s = (a, sector_size k)) as ->.
    { do 12 (destruct k as [|k]; [by injection Hs as <-; injection Ha as <-|]). done. }
    by case_decide.
Qed.

(** The same flash without faults. *)
Record flash_mem := FlashMem { mem_bytes : Z -> Z }.

#[export] Instance flash_mem_ops : Flash flash_mem := {
  flash_byte f x := u8 (mem_bytes f x);
  FLASH_ProgramByte a d f := (FLASH_COMPLETE, FlashMem (sim_program 1 a d (mem_bytes f)));
  FLASH_ProgramHalfWord a d f := (FLASH_COMPLETE, FlashMem (sim_program 2 a d (mem_bytes f)));
  FLASH_EraseSector s _ f := (FLASH_COMPLETE, FlashMem (sim_erase s (mem_bytes f)))
}.

#[export] Instance flash_mem_laws : FlashLaws flash_mem.
Proof.
  constructor.
  - intros. apply u8_range.
  - intros a d f. exact (program_byte_spec a d (FlashSim (mem_bytes f) [])).
  - intros a d f Ha. exact (program_halfword_spec a d (FlashSim (mem_bytes f) []) Ha).
  - intros k s a f Hs Ha. exact (erase_sector_spec k s a (FlashSim (mem_bytes f) []) Hs Ha).
Qed.

#[export] Instance flash_mem_reliable : FlashReliable flash_mem.
Proof. by constructor. Qed.
