(* ===== verification/Eeprom.v ===== *)
(** * Eeprom: EEPROM emulation in two flash sectors (src/eeprom.c, eeprom.h)

    Two 16 kB pages.  The first half-word of a page is its status; every
    further word is a slot holding a value (low half-word) and the virtual
    address of the variable (high half-word).  A variable's value is its last
    slot on the valid page; when the page is full the variables are copied to
    the other page.  This file has the code; EepromSpec.v has its theorems. *)
From S2P Require Import Prelude Flash.

(** ** eeprom.h *)

Definition PAGE_SIZE : Z := 0x4000.
Definition VOLTAGE_RANGE : Z := VoltageRange_3.
Definition EEPROM_START_ADDRESS : Z := 0x08004000.
Definition PAGE0_BASE_ADDRESS : Z := EEPROM_START_ADDRESS + 0x0000.
Definition PAGE1_BASE_ADDRESS : Z := EEPROM_START_ADDRESS + 0x4000.
Definition PAGE0_ID : Z := 0x0008.
Definition PAGE1_ID : Z := 0x0010.
Definition PAGE0 : Z := 0.
Definition PAGE1 : Z := 1.
Definition NO_VALID_PAGE : Z := 0x00AB.
Definition ERASED : Z := 0xFFFF.
Definition RECEIVE_DATA : Z := 0xEEEE.
Definition VALID_PAGE : Z := 0x0000.
Definition READ_FROM_VALID_PAGE : Z := 0.
Definition WRITE_IN_VALID_PAGE : Z := 1.
Definition PAGE_FULL : Z := 0x80.
Definition NB_OF_VAR : Z := 160.

(** ** eeprom.c *)

Section Eeprom.
Context {F : Type} `{Flash F}.

(** The flash and the global variable [DataVar]. *)
Record ee_state := mkEE { ee_flash : F; DataVar : Z }.

(** A flash or EEPROM operation: a status and the next state. *)
Definition op : Type := ee_state -> Z * ee_state.

Definition flash_op (m : F -> Z * F) : op := fun s =>
  let '(st, f) := m (ee_flash s) in (st, mkEE f (DataVar s)).

(** [status = m; if (status != FLASH_COMPLETE) return status; k] *)
Definition ok_then (m k : op) : op := fun s =>
  let '(st, s') := m s in if st =? FLASH_COMPLETE then k s' else (st, s').

Definition done_ok : op := fun s => (FLASH_COMPLETE, s).

(** Memory-mapped reads. *)
Definition rd16 (f : F) (a : Z) : Z := flash_byte f a + 256 * flash_byte f (a + 1).
Definition rd32 (f : F) (a : Z) : Z := rd16 f a + 65536 * rd16 f (a + 2).

(** [for (i = 0; i < PAGE_SIZE; i++) if (addr[i] != 0xFF) ...] *)
Fixpoint any_programmed (n : nat) (f : F) (addr : Z) : bool :=
  match n with
  | O => false
  | S n => if flash_byte f addr =? 0xFF then any_programmed n f (addr + 1) else true
  end.

Definition EE_EraseSectorIfNotEmpty (FLASH_Sector VoltageRange : Z) : op := fun s =>
  let addr := flash_helper_get_sector_address FLASH_Sector in
  if any_programmed (Z.to_nat PAGE_SIZE) (ee_flash s) addr
  then flash_op (FLASH_EraseSector FLASH_Sector VoltageRange) s
  else done_ok s.

Definition EE_FindValidPage (Operation : Z) (f : F) : Z :=
  let PageStatus0 := rd16 f PAGE0_BASE_ADDRESS in
  let PageStatus1 := rd16 f PAGE1_BASE_ADDRESS in
  if Operation =? WRITE_IN_VALID_PAGE then
    if PageStatus1 =? VALID_PAGE then
      if PageStatus0 =? RECEIVE_DATA then PAGE0 else PAGE1
    else if PageStatus0 =? VALID_PAGE then
      if PageStatus1 =? RECEIVE_DATA then PAGE1 else PAGE0
    else NO_VALID_PAGE
  else if Operation =? READ_FROM_VALID_PAGE then
    if PageStatus0 =? VALID_PAGE then PAGE0
    else if PageStatus1 =? VALID_PAGE then PAGE1
    else NO_VALID_PAGE
  else PAGE0.

(** The backward scan of [EE_ReadVariable]; [None]: not found. *)
Fixpoint read_scan (fuel : nat) (f : F) (VirtAddress PageStartAddress Address : Z) : option Z :=
  match fuel with
  | O => None
  | S fuel =>
      if PageStartAddress + 2 <? Address then
        if rd16 f Address =? VirtAddress then Some (rd16 f (Address - 2))
        else read_scan fuel f VirtAddress PageStartAddress (Address - 4)
      else None
  end.

Definition scan_fuel : nat := Z.to_nat (PAGE_SIZE / 4).

(** Returns the status and the new value of the variable behind [Data]. *)
Definition EE_ReadVariable (VirtAddress Data : Z) (f : F) : Z * Z :=
  let ValidPage := EE_FindValidPage READ_FROM_VALID_PAGE f in
  if ValidPage =? NO_VALID_PAGE then (NO_VALID_PAGE, Data) else
  let PageStartAddress := EEPROM_START_ADDRESS + ValidPage * PAGE_SIZE in
  let Address := (EEPROM_START_ADDRESS - 2) + (1 + ValidPage) * PAGE_SIZE in
  match read_scan scan_fuel f VirtAddress PageStartAddress Address with
  | Some v => (0, v)
  | None => (1, Data)
  end.

(** The forward scan of [EE_VerifyPageFullWriteVariable]: the first blank
    word below [PageEndAddress]. *)
Fixpoint blank_scan (fuel : nat) (f : F) (PageEndAddress Address : Z) : option Z :=
  match fuel with
  | O => None
  | S fuel =>
      if Address <? PageEndAddress then
        if rd32 f Address =? 0xFFFFFFFF then Some Address
        else blank_scan fuel f PageEndAddress (Address + 4)
      else None
  end.

Definition EE_VerifyPageFullWriteVariable (VirtAddress Data : Z) : op := fun s =>
  let ValidPage := EE_FindValidPage WRITE_IN_VALID_PAGE (ee_flash s) in
  if ValidPage =? NO_VALID_PAGE then (NO_VALID_PAGE, s) else
  let Address := EEPROM_START_ADDRESS + ValidPage * PAGE_SIZE in
  let PageEndAddress := (EEPROM_START_ADDRESS - 2) + (1 + ValidPage) * PAGE_SIZE in
  match blank_scan scan_fuel (ee_flash s) PageEndAddress Address with
  | Some Address =>
      ok_then (flash_op (FLASH_ProgramHalfWord Address Data))
              (flash_op (FLASH_ProgramHalfWord (Address + 2) VirtAddress)) s
  | None => (PAGE_FULL, s)
  end.

Definition EE_Format : op :=
  ok_then (EE_EraseSectorIfNotEmpty PAGE0_ID VOLTAGE_RANGE)
  (ok_then (flash_op (FLASH_ProgramHalfWord PAGE0_BASE_ADDRESS VALID_PAGE))
           (EE_EraseSectorIfNotEmpty PAGE1_ID VOLTAGE_RANGE)).

(** Read one variable into [DataVar] and, when it was found, write it to
    the page that receives data. *)
Definition transfer_var (VirtAddress : Z) : op := fun s =>
  let '(ReadStatus, v) := EE_ReadVariable VirtAddress (DataVar s) (ee_flash s) in
  let s := mkEE (ee_flash s) v in
  if negb (ReadStatus =? 1) then EE_VerifyPageFullWriteVariable VirtAddress (DataVar s) s
  else done_ok s.

(** The loop of [EE_PageTransfer] over [VirtAddVarTab]. *)
Fixpoint transfer_others (VirtAddVarTab : list Z) (VirtAddress : Z) : op :=
  match VirtAddVarTab with
  | [] => done_ok
  | va :: tab =>
      if negb (va =? VirtAddress)
      then ok_then (transfer_var va) (transfer_others tab VirtAddress)
      else transfer_others tab VirtAddress
  end.

Definition EE_PageTransfer (VirtAddVarTab : list Z) (VirtAddress Data : Z) : op := fun s =>
  let ValidPage := EE_FindValidPage READ_FROM_VALID_PAGE (ee_flash s) in
  let move (NewPageAddress OldPageId : Z) : op :=
    ok_then (flash_op (FLASH_ProgramHalfWord NewPageAddress RECEIVE_DATA))
    (ok_then (EE_VerifyPageFullWriteVariable VirtAddress Data)
    (ok_then (transfer_others VirtAddVarTab VirtAddress)
    (ok_then (EE_EraseSectorIfNotEmpty OldPageId VOLTAGE_RANGE)
             (flash_op (FLASH_ProgramHalfWord NewPageAddress VALID_PAGE))))) in
  if ValidPage =? PAGE1 then move PAGE0_BASE_ADDRESS PAGE1_ID s
  else if ValidPage =? PAGE0 then move PAGE1_BASE_ADDRESS PAGE0_ID s
  else (NO_VALID_PAGE, s).

Definition EE_WriteVariable (VirtAddVarTab : list Z) (VirtAddress Data : Z) : op := fun s =>
  let '(Status, s) := EE_VerifyPageFullWriteVariable VirtAddress Data s in
  if Status =? PAGE_FULL then EE_PageTransfer VirtAddVarTab VirtAddress Data s
  else (Status, s).

(** The recovery loop of [EE_Init]: [base] is the page that receives data,
    [x] the index found to hold the interrupted write, or -1. *)
Fixpoint recover_vars (VirtAddVarTab : list Z) (base VarIdx x : Z) : op := fun s =>
  match VirtAddVarTab with
  | [] => done_ok s
  | va :: tab =>
      let x := if rd16 (ee_flash s) (base + 6) =? va then VarIdx else x in
      if negb (VarIdx =? x)
      then ok_then (transfer_var va) (recover_vars tab base (VarIdx + 1) x) s
      else recover_vars tab base (VarIdx + 1) x s
  end.

Definition EE_Init (VirtAddVarTab : list Z) : op := fun s =>
  let PageStatus0 := rd16 (ee_flash s) PAGE0_BASE_ADDRESS in
  let PageStatus1 := rd16 (ee_flash s) PAGE1_BASE_ADDRESS in
  let erase0 := EE_EraseSectorIfNotEmpty PAGE0_ID VOLTAGE_RANGE in
  let erase1 := EE_EraseSectorIfNotEmpty PAGE1_ID VOLTAGE_RANGE in
  let mark0 := flash_op (FLASH_ProgramHalfWord PAGE0_BASE_ADDRESS VALID_PAGE) in
  let mark1 := flash_op (FLASH_ProgramHalfWord PAGE1_BASE_ADDRESS VALID_PAGE) in
  if PageStatus0 =? ERASED then
    if PageStatus1 =? VALID_PAGE then ok_then erase0 done_ok s
    else if PageStatus1 =? RECEIVE_DATA then
      ok_then erase0 (ok_then mark1 done_ok) s
    else ok_then EE_Format done_ok s
  else if PageStatus0 =? RECEIVE_DATA then
    if PageStatus1 =? VALID_PAGE then
      ok_then (recover_vars VirtAddVarTab PAGE0_BASE_ADDRESS 0 (-1))
      (ok_then mark0 (ok_then erase1 done_ok)) s
    else if PageStatus1 =? ERASED then
      ok_then erase1 (ok_then mark0 done_ok) s
    else ok_then EE_Format done_ok s
  else if PageStatus0 =? VALID_PAGE then
    if PageStatus1 =? VALID_PAGE then ok_then EE_Format done_ok s
    else if PageStatus1 =? ERASED then ok_then erase1 done_ok s
    else
      ok_then (recover_vars VirtAddVarTab PAGE1_BASE_ADDRESS 0 (-1))
      (ok_then mark1 (ok_then erase0 done_ok)) s
  else ok_then EE_Format done_ok s.
End Eeprom.

Arguments ee_state F : clear implicits.
Arguments op F : clear implicits.
Arguments mkEE {F} ee_flash DataVar.
