(* ===== verification/EepromSpec.v ===== *)
(** * EepromSpec: the EEPROM seen as slots, and what its operations do

    The view of the flash on which the EEPROM theorems are stated: half-word
    [k] of page [p], slot [i] of page [p] (value and virtual address), the
    filled prefix of a page, and what each flash operation does to them. *)
From S2P Require Import Prelude Flash Eeprom.

Section Pages.
Context {F : Type} `{Flash F} `{!FlashLaws F}.

Lemma page_fuel_Z : Z.of_nat (Z.to_nat PAGE_SIZE) = PAGE_SIZE.
Proof. apply Z2Nat.id. unfold PAGE_SIZE. lia. Qed.

Lemma scan_fuel_Z : Z.of_nat scan_fuel = 4096.
Proof. apply Z2Nat.id. unfold PAGE_SIZE. lia. Qed.

Definition is_page (p : Z) : Prop := p = 0 \/ p = 1.
Definition other (p : Z) : Z := 1 - p.
Definition page_base (p : Z) : Z := EEPROM_START_ADDRESS + p * PAGE_SIZE.
Definition page_id (p : Z) : Z := if p =? 0 then PAGE0_ID else PAGE1_ID.

Definition hw (f : F) (p k : Z) : Z := rd16 f (page_base p + 2 * k).
Definition status (f : F) (p : Z) : Z := hw f p 0.
Definition sdata (f : F) (p i : Z) : Z := hw f p (2 * i).
Definition saddr (f : F) (p i : Z) : Z := hw f p (2 * i + 1).
Definition blank (f : F) (p i : Z) : Prop := sdata f p i = 0xFFFF /\ saddr f p i = 0xFFFF.

Lemma is_page_other p : is_page p -> is_page (other p) /\ other p <> p /\ other (other p) = p.
Proof. unfold is_page, other. lia. Qed.

Lemma rd16_range f a : is_u16 (rd16 f a).
Proof.
  pose proof (flash_byte_range f a). pose proof (flash_byte_range f (a + 1)).
  unfold rd16, is_u8, is_u16 in *. lia.
Qed.

Lemma hw_range f p k : is_u16 (hw f p k).
Proof. apply rd16_range. Qed.

(** Pages and half-words do not overlap. *)
Lemma hw_addr_inj p q j k :
  is_page p -> is_page q -> 0 <= j < 8192 -> 0 <= k < 8192 ->
  page_base p + 2 * j = page_base q + 2 * k <-> p = q /\ j = k.
Proof. unfold is_page, page_base, EEPROM_START_ADDRESS, PAGE_SIZE. lia. Qed.

Lemma blank_rd32 f p i : rd32 f (page_base p + 4 * i) = 0xFFFFFFFF <-> blank f p i.
Proof.
  unfold blank, sdata, saddr, hw, rd32.
  replace (page_base p + 2 * (2 * i)) with (page_base p + 4 * i) by lia.
  replace (page_base p + 2 * (2 * i + 1)) with (page_base p + 4 * i + 2) by lia.
  pose proof (rd16_range f (page_base p + 4 * i)).
  pose proof (rd16_range f (page_base p + 4 * i + 2)). unfold is_u16 in *. lia.
Qed.

(** A flash status; never an error when the flash reports none. *)
Definition st_ok (st : Z) : Prop := 1 <= st <= 9 /\ (FlashReliable F -> st = FLASH_COMPLETE).

Lemma st_ok_complete : st_ok FLASH_COMPLETE.
Proof. by split; [unfold FLASH_COMPLETE; lia|]. Qed.

(** ** Effects of the flash operations on half-words *)

Definition hw_upd (f f' : F) (p k v : Z) : Prop :=
  forall q j, is_page q -> 0 <= j < 8192 ->
  hw f' q j = if decide (q = p /\ j = k) then v else hw f q j.

Definition hw_erased (f f' : F) (p : Z) : Prop :=
  forall q j, is_page q -> 0 <= j < 8192 ->
  hw f' q j = if decide (q = p) then 0xFFFF else hw f q j.

Definition hw_same (f f' : F) : Prop := forall q j, hw f' q j = hw f q j.

Lemma hw_upd_eq f f' p k v : hw_upd f f' p k v -> is_page p -> 0 <= k < 8192 -> hw f' p k = v.
Proof. intros Hu Hp Hk. rewrite Hu by done. by rewrite decide_True. Qed.

Lemma hw_upd_ne f f' p k v q j :
  hw_upd f f' p k v -> is_page q -> 0 <= j < 8192 -> q <> p \/ j <> k -> hw f' q j = hw f q j.
Proof. intros Hu Hq Hj Hne. rewrite Hu by done. rewrite decide_False; [done|lia]. Qed.

Lemma same_flash_hw f f' : same_flash f f' -> hw_same f f'.
Proof. intros Hs q j. unfold hw, rd16. now rewrite !Hs. Qed.

Lemma land_byte_ff b : is_u8 b -> Z.land 255 b = b.
Proof. intros Hb. rewrite Z.land_comm. change 255 with (Z.ones 8). rewrite Z.land_ones by lia. now apply Z.mod_small. Qed.

Lemma prog_spec p k d f :
  is_page p -> 0 <= k < 8192 -> is_u16 d -> hw f p k = 0xFFFF \/ d = 0 ->
  let r := FLASH_ProgramHalfWord (page_base p + 2 * k) d f in
  st_ok r.1 /\ (hw_upd f r.2 p k d \/ r.1 <> FLASH_COMPLETE /\ hw_same f r.2).
Proof.
  intros Hp Hk Hd Hold r.
  destruct (program_halfword_spec (page_base p + 2 * k) d f) as [Hst [Hprog|[Hne Hs]]].
  { destruct Hp as [-> | ->]; unfold page_base, EEPROM_START_ADDRESS, PAGE_SIZE; int_solve. }
  all: assert (st_ok r.1) as Hsto by (split; [exact Hst|intros; apply program_halfword_ok]).
  2:{ split; [done|]. right. split; [done|]. by apply same_flash_hw. }
  split; [done|]. left. intros q j Hq Hj. unfold hw, rd16. rewrite !Hprog.
  pose proof (hw_addr_inj q p j k Hq Hp Hj Hk) as Hinj.
  set (a := page_base p + 2 * k) in *.
  destruct (decide (q = p /\ j = k)) as [[-> ->]|Hneq].
  - fold a. rewrite !decide_True by lia.
    replace (8 * (a - a)) with 0 by lia. replace (8 * (a + 1 - a)) with 8 by lia.
    rewrite Z.shiftr_0_r, Z.shiftr_div_pow2 by lia. change (2 ^ 8) with 256.
    assert (Hdec : u8 d + 256 * u8 (d / 256) = d) by int_solve.
    destruct Hold as [Hff| ->]; [|by rewrite !Z.land_0_r].
    unfold hw, rd16 in Hff. fold a in Hff.
    pose proof (flash_byte_range f a) as Hb0. pose proof (flash_byte_range f (a + 1)) as Hb1.
    assert (flash_byte f a = 255 /\ flash_byte f (a + 1) = 255) as [-> ->]
      by (unfold is_u8 in *; lia).
    rewrite !land_byte_ff by apply u8_range. done.
  - assert (page_base q + 2 * j <> a) by tauto.
    subst a. unfold page_base, EEPROM_START_ADDRESS, PAGE_SIZE in *.
    rewrite !decide_False; [done|lia..].
Qed.

(** The emptiness test of a page. *)
Lemma any_programmed_false n f a :
  any_programmed n f a = false <-> forall x, a <= x < a + Z.of_nat n -> flash_byte f x = 255.
Proof.
  revert a. induction n as [|n IH]; intros a; simpl; [split; [lia|done]|].
  destruct (Z.eqb_spec (flash_byte f a) 255) as [He|He].
  - rewrite IH. split.
    + intros Hx x ?. destruct (decide (x = a)) as [->|]; [done|apply Hx; lia].
    + intros Hx x ?. apply Hx. lia.
  - split; [done|]. intros Hx. specialize (Hx a). lia.
Qed.

Lemma sector_of_page p :
  is_page p -> exists k, flash_sector !! k = Some (page_id p) /\
    flash_addr !! k = Some (page_base p) /\ sector_size k = PAGE_SIZE /\
    flash_helper_get_sector_address (page_id p) = page_base p.
Proof. intros [-> | ->]; [exists 1%nat|exists 2%nat]; done. Qed.

Lemma page_bytes_hw f p :
  is_page p -> (forall x, page_base p <= x < page_base p + PAGE_SIZE -> flash_byte f x = 255) ->
  forall j, 0 <= j < 8192 -> hw f p j = 0xFFFF.
Proof.
  intros Hp Hx j Hj. unfold hw, rd16. unfold PAGE_SIZE in Hx. by rewrite !Hx by lia.
Qed.

Lemma erase_spec p s :
  is_page p ->
  let r := EE_EraseSectorIfNotEmpty (page_id p) VOLTAGE_RANGE s in
  st_ok r.1 /\ DataVar r.2 = DataVar s /\
  (hw_erased (ee_flash s) (ee_flash r.2) p \/
   r.1 <> FLASH_COMPLETE /\ hw_same (ee_flash s) (ee_flash r.2)).
Proof.
  intros Hp r. destruct (sector_of_page p Hp) as (k & Hsec & Haddr & Hsize & Hget).
  unfold r, EE_EraseSectorIfNotEmpty. rewrite Hget.
  destruct (any_programmed _ _ _) eqn:Hany.
  - unfold flash_op, VOLTAGE_RANGE.
    pose proof (erase_sector_spec k (page_id p) (page_base p) (ee_flash s) Hsec Haddr) as Ho.
    pose proof (fun R : FlashReliable F => @erase_sector_ok F _ R (page_id p) 2 (ee_flash s)) as Hrel.
    rewrite Hsize in Ho. unfold VoltageRange_3 in *. destruct (FLASH_EraseSector _ _ _) as [st f'].
    destruct Ho as [Hst [He|[Hne Hs]]]; cbn [fst snd ee_flash DataVar] in *; (split; [by split|]; split; [done|]).
    2:{ right. split; [done|]. by apply same_flash_hw. }
    left. intros q j Hq Hj. destruct (decide (q = p)) as [->|Hqp].
    + apply page_bytes_hw; [done| |done]. intros x Hx. rewrite He. by rewrite decide_True.
    + unfold hw, rd16. rewrite !He.
      rewrite !decide_False; [done|..];
        (unfold is_page, page_base, PAGE_SIZE in *; lia).
  - unfold done_ok; cbn [fst snd ee_flash DataVar]. split; [apply st_ok_complete|]. split; [done|]. left.
    intros q j Hq Hj. case_decide as Hqp; [|done]. subst q.
    rewrite any_programmed_false in Hany. apply page_bytes_hw; [done| |done].
    intros x Hx. apply Hany. pose proof page_fuel_Z. lia.
Qed.

(** Erasing an empty page does nothing at all. *)
Lemma erase_empty p s :
  is_page p -> (forall j, 0 <= j < 8192 -> hw (ee_flash s) p j = 0xFFFF) ->
  EE_EraseSectorIfNotEmpty (page_id p) VOLTAGE_RANGE s = (FLASH_COMPLETE, s).
Proof.
  intros Hp He. destruct (sector_of_page p Hp) as (k & _ & _ & _ & Hget).
  unfold EE_EraseSectorIfNotEmpty. rewrite Hget.
  destruct (any_programmed _ _ _) eqn:Hany; [|done].
  exfalso. apply not_false_iff_true in Hany. apply Hany, any_programmed_false.
  intros x Hx. rewrite page_fuel_Z in Hx. unfold PAGE_SIZE in Hx.
  pose proof (Z.div_mod (x - page_base p) 2 ltac:(lia)) as Hdm.
  pose proof (Z.mod_pos_bound (x - page_base p) 2 ltac:(lia)) as Hmod.
  set (j := (x - page_base p) / 2) in *. clearbody j.
  specialize (He j ltac:(lia)). unfold hw, rd16 in He.
  pose proof (flash_byte_range (ee_flash s) (page_base p + 2 * j)).
  pose proof (flash_byte_range (ee_flash s) (page_base p + 2 * j + 1)).
  assert (Hxa : x = page_base p + 2 * j \/ x = page_base p + 2 * j + 1) by lia.
  unfold is_u8 in *. destruct Hxa as [Hxa|Hxa]; rewrite Hxa; lia.
Qed.

(** ** The filled prefix of a page and its contents *)

(** Slots 1 to [n - 1] are used, the rest is blank. *)
Record page_wf (f : F) (p n : Z) : Prop := {
  pw_n : 1 <= n <= 4096;
  pw_used : forall i, 1 <= i < n -> ~ blank f p i;
  pw_blank : forall i, n <= i < 4096 -> blank f p i
}.

(** The last slot below [n] that holds [va]. *)
Fixpoint last_slot (f : F) (p va : Z) (n : nat) : option Z :=
  match n with
  | O => None
  | S m => if decide (m = 0%nat) then None
           else if saddr f p (Z.of_nat m) =? va then Some (sdata f p (Z.of_nat m))
           else last_slot f p va m
  end.

(** The value of variable [va] on page [p]. *)
Definition page_read (f : F) (p va : Z) : option Z := last_slot f p va scan_fuel.

Lemma read_scan_last fuel f p va m :
  (m <= fuel)%nat ->
  read_scan fuel f va (page_base p) (page_base p + 4 * Z.of_nat m - 2) = last_slot f p va m.
Proof.
  revert m. induction fuel as [|fuel IH]; intros m Hm.
  - assert (m = 0%nat) as -> by lia. done.
  - destruct m as [|m]; cbn [read_scan last_slot].
    + destruct (Z.ltb_spec (page_base p + 2) (page_base p + 4 * Z.of_nat 0 - 2)); [lia|done].
    + destruct (decide (m = 0%nat)) as [->|Hm0].
      { destruct (Z.ltb_spec (page_base p + 2) (page_base p + 4 * Z.of_nat 1 - 2)); [lia|done]. }
      destruct (Z.ltb_spec (page_base p + 2) (page_base p + 4 * Z.of_nat (S m) - 2)); [|lia].
      unfold saddr, sdata, hw.
      replace (page_base p + 4 * Z.of_nat (S m) - 2)
        with (page_base p + 2 * (2 * Z.of_nat m + 1)) by lia.
      destruct (_ =? va).
      * do 2 f_equal. lia.
      * replace (page_base p + 2 * (2 * Z.of_nat m + 1) - 4)
          with (page_base p + 4 * Z.of_nat m - 2) by lia.
        apply IH. lia.
Qed.

Lemma last_slot_ext f f' p va n :
  (forall i, 1 <= i < Z.of_nat n -> saddr f' p i = saddr f p i) ->
  (forall i, 1 <= i < Z.of_nat n -> saddr f p i = va -> sdata f' p i = sdata f p i) ->
  last_slot f' p va n = last_slot f p va n.
Proof.
  induction n as [|n IH]; intros Ha Hd; cbn [last_slot]; [done|].
  destruct (decide (n = 0%nat)); [done|]. rewrite Ha by lia.
  destruct (Z.eqb_spec (saddr f p (Z.of_nat n)) va); [by rewrite Hd by lia|].
  apply IH; intros; [apply Ha|apply Hd]; lia.
Qed.

(** Slots that do not hold [va] do not matter. *)
Lemma last_slot_skip f p va n m :
  (n <= m)%nat -> (1 <= n)%nat ->
  (forall i, Z.of_nat n <= i < Z.of_nat m -> saddr f p i <> va) ->
  last_slot f p va m = last_slot f p va n.
Proof.
  intros Hnm Hn Hne. induction m as [|m IH]; [by assert (n = 0%nat) as -> by lia|].
  destruct (decide (n = S m)) as [->|]; [done|]. cbn [last_slot].
  rewrite decide_False by lia.
  destruct (Z.eqb_spec (saddr f p (Z.of_nat m)) va) as [He|_]; [by apply Hne in He; [|lia]|].
  apply IH; [lia|]. intros; apply Hne; lia.
Qed.

Lemma last_slot_Some f p va n i :
  (1 <= i < Z.of_nat n) -> saddr f p i = va -> is_Some (last_slot f p va n).
Proof.
  induction n as [|n IH]; intros Hi Ha; [lia|]. cbn [last_slot].
  rewrite decide_False by lia. destruct (Z.eqb_spec (saddr f p (Z.of_nat n)) va); [done|].
  apply IH; [|done]. assert (i <> Z.of_nat n) by congruence. lia.
Qed.

Lemma page_read_wf f p va n :
  page_wf f p n -> va <> 0xFFFF -> page_read f p va = last_slot f p va (Z.to_nat n).
Proof.
  intros [Hn _ Hb] Hva. unfold page_read. pose proof scan_fuel_Z. apply last_slot_skip; [lia..|].
  intros i Hi. destruct (Hb i) as [_ ->]; [lia|done].
Qed.

Lemma page_read_empty f p va :
  (forall j, 0 <= j < 8192 -> hw f p j = 0xFFFF) -> va <> 0xFFFF -> page_read f p va = None.
Proof.
  intros He Hva. rewrite (page_read_wf f p va 1); [done| |done].
  split; [lia|intros; lia|]. intros i Hi.
  unfold blank, sdata, saddr. rewrite !He by lia. done.
Qed.

(** The forward scan finds the end of the filled prefix. *)
Lemma blank_scan_spec fuel f p n i :
  page_wf f p n -> status f p <> 0xFFFF ->
  0 <= i <= n -> (Z.to_nat (4096 - i) <= fuel)%nat ->
  blank_scan fuel f (page_base p + PAGE_SIZE - 2) (page_base p + 4 * i)
  = if decide (n = 4096) then None else Some (page_base p + 4 * n).
Proof.
  intros [Hn Hu Hb] Hst Hi Hfuel. revert i Hi Hfuel.
  induction fuel as [|fuel IH]; intros i Hi Hfuel; cbn [blank_scan].
  { assert (n = 4096) as -> by lia. done. }
  unfold PAGE_SIZE. destruct (decide (i = 4096)) as [->|Hi4].
  { replace (_ <? _) with false by lia. by rewrite decide_True by lia. }
  replace (_ <? _) with true by lia.
  destruct (Z.eqb_spec (rd32 f (page_base p + 4 * i)) 0xFFFFFFFF) as [Hbl|Hnb].
  - apply blank_rd32 in Hbl. destruct (decide (i = n)) as [->|Hin].
    + by rewrite decide_False by lia.
    + exfalso. destruct (decide (i = 0)) as [->|]; [|by apply (Hu i); [lia|]].
      destruct Hbl as [Hbl _]. by apply Hst.
  - destruct (decide (i = n)) as [->|Hin].
    + exfalso. by apply Hnb, blank_rd32, Hb; lia.
    + replace (page_base p + 4 * i + 4) with (page_base p + 4 * (i + 1)) by lia.
      apply IH; lia.
Qed.
End Pages.

(** ** The EEPROM emulation keeps its variables

    Reads return the last value written; a write changes one variable and no
    other, page transfers included; and a write cut short at any flash
    operation leaves a state from which [EE_Init] recovers every variable. *)
From S2P Require Import Prelude Flash Eeprom.

#[local] Opaque scan_fuel.

Section Spec.
Context {F : Type} `{Flash F} `{!FlashLaws F}.

Definition is_addr (va : Z) : Prop := is_u16 va /\ va <> 0xFFFF.

(** What an interrupted or completed append of the slot [(d, va)] at the
    end of the filled prefix of page [q] leaves behind. *)
Record appended (f f' : F) (q n va d : Z) : Prop := {
  ap_other p j : is_page p -> p <> q -> 0 <= j < 8192 -> hw f' p j = hw f p j;
  ap_rest j : 0 <= j < 8192 -> j <> 2 * n -> j <> 2 * n + 1 -> hw f' q j = hw f q j;
  ap_slot : saddr f' q n = va /\ sdata f' q n = d \/ saddr f' q n = 0xFFFF
}.

Lemma appended_refl f f' q n va d :
  hw_same f f' -> blank f q n -> appended f f' q n va d.
Proof.
  intros Hs [_ Hb]. split; intros; rewrite ?Hs; auto. right. unfold saddr. rewrite Hs. exact Hb.
Qed.

Lemma appended_slot f f' q n va d i :
  appended f f' q n va d -> 0 <= i < 4096 -> i <> n ->
  saddr f' q i = saddr f q i /\ sdata f' q i = sdata f q i.
Proof. intros [_ Hr _] Hi Hne. unfold saddr, sdata. split; apply Hr; lia. Qed.

(** The filled prefix after an append. *)
Lemma appended_wf f f' q n va d :
  appended f f' q n va d -> page_wf f q n -> n < 4096 ->
  exists n', n <= n' <= n + 1 /\ page_wf f' q n' /\ (saddr f' q n <> 0xFFFF -> n' = n + 1).
Proof.
  intros Hap [Hn Hu Hb] Hlt.
  assert (Hblank : forall i, 0 <= i < 4096 -> i <> n -> blank f' q i <-> blank f q i).
  { intros i Hi Hne. unfold blank. by destruct (appended_slot _ _ _ _ _ _ i Hap Hi Hne) as [-> ->]. }
  destruct (decide (sdata f' q n = 0xFFFF /\ saddr f' q n = 0xFFFF)) as [Hbl|Hnb].
  - exists n. split; [lia|]. split; [|by intros []; apply Hbl]. split; [lia| |].
    + intros i Hi. rewrite Hblank by lia. auto.
    + intros i Hi. destruct (decide (i = n)) as [->|]; [done|]. rewrite Hblank by lia. auto.
  - exists (n + 1). split; [lia|]. split; [|done]. split; [lia| |].
    + intros i Hi. destruct (decide (i = n)) as [->|]; [done|]. rewrite Hblank by lia. apply Hu. lia.
    + intros i Hi. rewrite Hblank by lia. apply Hb. lia.
Qed.

(** The contents after an append. *)
Lemma appended_read f f' q n va d w :
  appended f f' q n va d -> page_wf f q n -> n < 4096 -> w <> 0xFFFF ->
  page_read f' q w = if decide (saddr f' q n = w) then Some d else page_read f q w.
Proof.
  intros Hap Hwf Hlt Hw. pose proof Hwf as [Hn _ _].
  destruct (appended_wf _ _ _ _ _ _ Hap Hwf Hlt) as (n' & Hn' & Hwf' & Hsucc).
  assert (Hext : last_slot f' q w (Z.to_nat n) = last_slot f q w (Z.to_nat n)).
  { apply last_slot_ext; intros i Hi; intros;
      destruct (appended_slot _ _ _ _ _ _ i Hap ltac:(lia) ltac:(lia)) as [Ha Hd];
      by rewrite ?Ha, ?Hd. }
  rewrite (page_read_wf f' q w n'), (page_read_wf f q w n) by done.
  case_decide as Hs.
  - rewrite (Hsucc ltac:(congruence)). replace (Z.to_nat (n + 1)) with (S (Z.to_nat n)) by lia.
    cbn [last_slot]. rewrite decide_False by lia. rewrite Z2Nat.id by lia.
    rewrite (proj2 (Z.eqb_eq _ _) Hs). f_equal.
    destruct (ap_slot _ _ _ _ _ _ Hap) as [[_ ->]|]; [done|congruence].
  - rewrite <- Hext. assert (Hc : n' = n \/ n' = n + 1) by lia.
    destruct Hc as [-> | ->]; [done|].
    replace (Z.to_nat (n + 1)) with (S (Z.to_nat n)) by lia. cbn [last_slot].
    rewrite decide_False by lia. rewrite Z2Nat.id by lia.
    by destruct (Z.eqb_spec (saddr f' q n) w).
Qed.

(** Reading depends on the slots of one page only. *)
Lemma page_read_ext f f' p w :
  (forall j, 2 <= j < 8192 -> hw f' p j = hw f p j) -> page_read f' p w = page_read f p w.
Proof.
  intros Hh. unfold page_read. pose proof scan_fuel_Z.
  apply last_slot_ext; intros i Hi; unfold saddr, sdata; intros; rewrite ?Hh by lia; done.
Qed.

Lemma page_wf_ext f f' p n :
  (forall j, 2 <= j < 8192 -> hw f' p j = hw f p j) -> page_wf f p n -> page_wf f' p n.
Proof.
  intros Hh [Hn Hu Hb]. split; [done| |]; intros i Hi;
    unfold blank, saddr, sdata in *; rewrite !Hh by lia; auto.
Qed.

Lemma page_read_range f p w v : page_read f p w = Some v -> is_u16 v.
Proof.
  unfold page_read. generalize scan_fuel as n. induction n as [|n IH]; cbn [last_slot]; [done|].
  case_decide; [done|]. case_match; [intros [= <-]; apply hw_range|done].
Qed.

(** ** [EE_VerifyPageFullWriteVariable] on the page it selects *)

Lemma page_addr q : EEPROM_START_ADDRESS + q * PAGE_SIZE = page_base q.
Proof. done. Qed.

Lemma page_end q : EEPROM_START_ADDRESS - 2 + (1 + q) * PAGE_SIZE = page_base q + PAGE_SIZE - 2.
Proof. unfold page_base. lia. Qed.

Lemma verify_write_full s q va d :
  is_page q -> EE_FindValidPage WRITE_IN_VALID_PAGE (ee_flash s) = q ->
  status (ee_flash s) q <> 0xFFFF -> page_wf (ee_flash s) q 4096 ->
  EE_VerifyPageFullWriteVariable va d s = (PAGE_FULL, s).
Proof.
  intros Hq Hfind Hst Hwf. unfold EE_VerifyPageFullWriteVariable. rewrite Hfind.
  replace (q =? NO_VALID_PAGE) with false by (destruct Hq as [-> | ->]; done).
  rewrite page_addr, page_end. pose proof scan_fuel_Z.
  pose proof (blank_scan_spec scan_fuel _ q 4096 0 Hwf Hst) as Hscan.
  rewrite Z.mul_0_r, Z.add_0_r in Hscan. rewrite Hscan by lia. done.
Qed.

Lemma verify_write_spec s q n va d :
  is_page q -> EE_FindValidPage WRITE_IN_VALID_PAGE (ee_flash s) = q ->
  status (ee_flash s) q <> 0xFFFF -> page_wf (ee_flash s) q n -> n < 4096 ->
  is_u16 va -> is_u16 d ->
  let r := EE_VerifyPageFullWriteVariable va d s in
  st_ok r.1 /\ DataVar r.2 = DataVar s /\
  appended (ee_flash s) (ee_flash r.2) q n va d /\
  (r.1 = FLASH_COMPLETE -> saddr (ee_flash r.2) q n = va).
Proof.
  intros Hq Hfind Hst Hwf Hlt Hva Hd. pose proof Hwf as [Hn _ Hb].
  destruct (Hb n ltac:(lia)) as [Hdn Han].
  unfold EE_VerifyPageFullWriteVariable. rewrite Hfind.
  replace (q =? NO_VALID_PAGE) with false by (destruct Hq as [-> | ->]; done).
  rewrite page_addr, page_end. pose proof scan_fuel_Z.
  pose proof (blank_scan_spec scan_fuel _ q n 0 Hwf Hst) as Hscan.
  rewrite Z.mul_0_r, Z.add_0_r in Hscan. rewrite Hscan, decide_False by lia. clear Hscan.
  replace (page_base q + 4 * n) with (page_base q + 2 * (2 * n)) by lia.
  replace (page_base q + 2 * (2 * n) + 2) with (page_base q + 2 * (2 * n + 1)) by lia.
  set (f := ee_flash s) in *. unfold ok_then, flash_op. fold f.
  destruct (prog_spec q (2 * n) d f Hq ltac:(lia) Hd (or_introl Hdn)) as [Hr1 Hcase1].
  destruct (FLASH_ProgramHalfWord (page_base q + 2 * (2 * n)) d f) as [st1 f1].
  cbn [fst snd] in *.
  destruct (Z.eqb_spec st1 FLASH_COMPLETE) as [Hok|Hno]; cbn [fst snd ee_flash DataVar].
  - destruct Hcase1 as [Hup1|[? _]]; [|done].
    assert (Ha1 : hw f1 q (2 * n + 1) = 0xFFFF).
    { rewrite Hup1 by (assumption || lia). rewrite decide_False by lia. exact Han. }
    destruct (prog_spec q (2 * n + 1) va f1 Hq ltac:(lia) Hva (or_introl Ha1)) as [Hr2 Hcase2].
    destruct (FLASH_ProgramHalfWord (page_base q + 2 * (2 * n + 1)) va f1) as [st2 f2].
    cbn [fst snd ee_flash DataVar] in *. split; [done|]. split; [done|].
    destruct Hcase2 as [Hup2|[Hne2 Hs2]].
    + split.
      * split; [intros p j Hp Hpq Hj|intros j Hj ??|left; unfold saddr, sdata; split].
        -- by rewrite (hw_upd_ne _ _ _ _ _ _ _ Hup2), (hw_upd_ne _ _ _ _ _ _ _ Hup1) by (assumption || lia).
        -- by rewrite (hw_upd_ne _ _ _ _ _ _ _ Hup2), (hw_upd_ne _ _ _ _ _ _ _ Hup1) by (assumption || lia).
        -- by rewrite (hw_upd_eq _ _ _ _ _ Hup2) by (assumption || lia).
        -- by rewrite (hw_upd_ne _ _ _ _ _ _ _ Hup2), (hw_upd_eq _ _ _ _ _ Hup1) by (assumption || lia).
      * intros _. unfold saddr. by rewrite (hw_upd_eq _ _ _ _ _ Hup2) by (assumption || lia).
    + split; [|done].
      split; [intros p j Hp Hpq Hj|intros j Hj ??|right; unfold saddr; by rewrite Hs2];
        by rewrite Hs2, (hw_upd_ne _ _ _ _ _ _ _ Hup1) by (assumption || lia).
  - split; [done|]. split; [done|]. split; [|done].
    destruct Hcase1 as [Hup1|[_ Hs1]]; [|by apply appended_refl].
    split; [intros p j Hp Hpq Hj|intros j Hj ??|right; unfold saddr];
      by rewrite (hw_upd_ne _ _ _ _ _ _ _ Hup1) by (assumption || lia).
Qed.

(** ** The selected page and the variable read *)

Lemma find_read f p :
  is_page p -> status f p = VALID_PAGE -> status f (other p) <> VALID_PAGE ->
  EE_FindValidPage READ_FROM_VALID_PAGE f = p.
Proof.
  intros [-> | ->]; unfold EE_FindValidPage; cbn [READ_FROM_VALID_PAGE Z.eqb]; intros Hv Hn;
    change (rd16 f PAGE0_BASE_ADDRESS) with (status f 0);
    change (rd16 f PAGE1_BASE_ADDRESS) with (status f 1).
  - by rewrite Hv.
  - change (other 1) with 0 in Hn. rewrite Hv. by rewrite (proj2 (Z.eqb_neq _ _) Hn).
Qed.

Lemma find_write f p :
  is_page p -> status f p = VALID_PAGE -> status f (other p) <> VALID_PAGE ->
  EE_FindValidPage WRITE_IN_VALID_PAGE f
  = if decide (status f (other p) = RECEIVE_DATA) then other p else p.
Proof.
  intros [-> | ->]; unfold EE_FindValidPage; cbn [WRITE_IN_VALID_PAGE Z.eqb Pos.eqb]; intros Hv Hn;
    change (rd16 f PAGE0_BASE_ADDRESS) with (status f 0);
    change (rd16 f PAGE1_BASE_ADDRESS) with (status f 1).
  - change (other 0) with 1 in *. rewrite Hv, (proj2 (Z.eqb_neq _ _) Hn).
    by case_decide as Hr; [rewrite Hr|rewrite (proj2 (Z.eqb_neq _ _) Hr)].
  - change (other 1) with 0 in *. rewrite Hv.
    by case_decide as Hr; [rewrite Hr|rewrite (proj2 (Z.eqb_neq _ _) Hr)].
Qed.

Lemma read_variable_page f p va D :
  is_page p -> status f p = VALID_PAGE -> status f (other p) <> VALID_PAGE ->
  EE_ReadVariable va D f =
    match page_read f p va with Some v => (0, v) | None => (1, D) end.
Proof.
  intros Hp Hv Hn. unfold EE_ReadVariable. rewrite (find_read f p Hp Hv Hn).
  replace (p =? NO_VALID_PAGE) with false by (destruct Hp as [-> | ->]; done).
  rewrite page_addr, page_end. pose proof scan_fuel_Z.
  replace (page_base p + PAGE_SIZE - 2) with (page_base p + 4 * Z.of_nat scan_fuel - 2)
    by (unfold PAGE_SIZE; lia).
  by rewrite read_scan_last.
Qed.

(** ** Copying variables to the page that receives data *)

Definition page_empty (f : F) (p : Z) : Prop := forall j, 0 <= j < 8192 -> hw f p j = 0xFFFF.

(** Page [p] is valid with contents [old]; the other page receives data: its
    first [m - 1] slots are used and hold [allowed] values only. *)
Record moving (old : Z -> option Z) (allowed : Z -> Z -> Prop) (p m : Z) (f : F) : Prop := {
  mv_page : is_page p;
  mv_valid : status f p = VALID_PAGE;
  mv_recv : status f (other p) = RECEIVE_DATA;
  mv_old w : w <> 0xFFFF -> page_read f p w = old w;
  mv_wf : page_wf f (other p) m;
  mv_new w v : w <> 0xFFFF -> page_read f (other p) w = Some v -> allowed w v
}.

(** An operation that appends at most [k] allowed slots and, when it
    succeeds, has copied the variables of [G]. *)
Definition copies old allowed p (k : Z) (G : Z -> Prop) (o : op F) : Prop :=
  forall m s, moving old allowed p m (ee_flash s) -> m + k <= 4096 ->
  st_ok (o s).1 /\ exists m', m <= m' <= m + k /\
  moving old allowed p m' (ee_flash (o s).2) /\
  (forall w, w <> 0xFFFF -> is_Some (page_read (ee_flash s) (other p) w) ->
     is_Some (page_read (ee_flash (o s).2) (other p) w)) /\
  ((o s).1 = FLASH_COMPLETE -> forall w, G w -> w <> 0xFFFF -> 
     is_Some (page_read (ee_flash (o s).2) (other p) w)).

Lemma copies_done old allowed p k (G : Z -> Prop) :
  0 <= k -> (forall w, ~ G w) -> copies old allowed p k G done_ok.
Proof.
  intros Hk HG m s Hm _. unfold done_ok; cbn [fst snd]. split; [apply st_ok_complete|].
  exists m. split; [lia|]. split; [done|]. split; [done|]. intros _ w Hw. by apply HG in Hw.
Qed.

Lemma copies_then old allowed p k1 k2 (G1 G2 : Z -> Prop) o1 o2 :
  0 <= k2 -> copies old allowed p k1 G1 o1 -> copies old allowed p k2 G2 o2 ->
  copies old allowed p (k1 + k2) (fun w => G1 w \/ G2 w) (ok_then o1 o2).
Proof.
  intros Hk2 H1 H2 m s Hm Hle. unfold ok_then.
  destruct (H1 m s Hm ltac:(lia)) as (Hr1 & m1 & Hm1 & Hmv1 & Hkeep1 & Hok1).
  destruct (o1 s) as [st1 s1]; cbn [fst snd] in *.
  destruct (Z.eqb_spec st1 FLASH_COMPLETE) as [->|Hne]; cbn [fst snd].
  - destruct (H2 m1 s1 Hmv1 ltac:(lia)) as (Hr2 & m2 & Hm2 & Hmv2 & Hkeep2 & Hok2).
    split; [done|]. exists m2. split; [lia|]. split; [done|]. split.
    { intros w Hw Hs. exact (Hkeep2 w Hw (Hkeep1 w Hw Hs)). }
    intros Hst w [HG|HG] Hw; [exact (Hkeep2 w Hw (Hok1 eq_refl w HG Hw))|exact (Hok2 Hst w HG Hw)].
  - split; [done|]. exists m1. split; [lia|]. split; [exact Hmv1|]. split; [exact Hkeep1|]. intros ?; contradiction.
Qed.

Lemma copies_weaken old allowed p k k' (G G' : Z -> Prop) o :
  k <= k' -> (forall w, G' w -> G w) ->
  copies old allowed p k G o -> copies old allowed p k' G' o.
Proof.
  intros Hk HG Ho m s Hm Hle.
  destruct (Ho m s Hm ltac:(lia)) as (Hr & m' & Hm' & Hmv & Hkeep & Hok).
  split; [done|]. exists m'. split; [lia|]. split; [exact Hmv|]. split; [exact Hkeep|].
  intros Hst w Hw. exact (Hok Hst w (HG w Hw)).
Qed.

(** Appending one allowed slot. *)
Lemma copies_append old allowed p va d :
  is_addr va -> is_u16 d -> allowed va d ->
  copies old allowed p 1 (eq va) (EE_VerifyPageFullWriteVariable va d).
Proof.
  intros [Hva Hvf] Hd Hal m s Hm Hle. pose proof Hm as [Hp Hv Hr Ho Hwf Hn].
  destruct (is_page_other p Hp) as (Hq & Hqp & _).
  assert (Hfind : EE_FindValidPage WRITE_IN_VALID_PAGE (ee_flash s) = other p)
    by (rewrite (find_write _ p), decide_True; rewrite ?Hr; done).
  destruct (verify_write_spec s (other p) m va d Hq Hfind ltac:(by rewrite Hr) Hwf ltac:(lia) Hva Hd)
    as (Hst & _ & Hap & Hok).
  destruct (EE_VerifyPageFullWriteVariable va d s) as [st s1]; cbn [fst snd] in *.
  set (f := ee_flash s) in *. set (f1 := ee_flash s1) in *.
  destruct (appended_wf _ _ _ _ _ _ Hap Hwf ltac:(lia)) as (m' & Hm' & Hwf' & _).
  pose proof (fun w => appended_read _ _ _ _ _ _ w Hap Hwf ltac:(lia)) as Hread.
  pose proof (pw_n _ _ _ Hwf) as Hm1.
  split; [done|]. exists m'. split; [lia|]. split; [split|split].
  - done.
  - rewrite <- Hv. apply (ap_other _ _ _ _ _ _ Hap); [done|congruence|lia].
  - rewrite <- Hr. apply (ap_rest _ _ _ _ _ _ Hap); lia.
  - intros w Hw. rewrite <- Ho by done. apply page_read_ext.
    intros j Hj. apply (ap_other _ _ _ _ _ _ Hap); [done|congruence|lia].
  - done.
  - intros w v Hw. rewrite Hread by done. case_decide as Hs; [|by apply Hn].
    intros [= <-]. destruct (ap_slot _ _ _ _ _ _ Hap) as [[Ha _]|]; [|congruence].
    by rewrite Ha in Hs; subst w.
  - intros w Hw Hsome. rewrite Hread by done. by case_decide.
  - intros Hcomp w <- Hw. rewrite Hread by done. rewrite decide_True by auto. done.
Qed.

Lemma copies_var old allowed p va :
  is_addr va -> (forall v, old va = Some v -> allowed va v) ->
  copies old allowed p 1 (fun w => w = va /\ is_Some (old va)) (transfer_var va).
Proof.
  intros Hva Hal m s Hm Hle. pose proof Hm as [Hp Hv Hr Ho Hwf Hn].
  unfold transfer_var. rewrite (read_variable_page _ p); [|done|done|by rewrite Hr].
  pose proof (page_read_range (ee_flash s) p va) as Hrange.
  rewrite Ho in * by apply Hva. destruct (old va) as [v|] eqn:Hold; cbn [Z.eqb negb].
  - refine (copies_weaken _ _ _ 1 1 (eq va) _ _ _ _ _ m (mkEE (ee_flash s) v) Hm Hle);
      [done|by intros w [-> _]|by apply copies_append; auto].
  - refine (copies_done _ _ _ 1 (fun w => w = va /\ is_Some None) _ _ m
      (mkEE (ee_flash s) (DataVar s)) Hm Hle); [lia|by intros w [_ []]].
Qed.

(** The loop of [EE_PageTransfer] copies all variables but the new one. *)
Lemma copies_others old allowed p tab W :
  Forall is_addr tab -> (forall va v, va ∈ tab -> va <> W -> old va = Some v -> allowed va v) ->
  copies old allowed p (Z.of_nat (length tab))
    (fun w => w ∈ tab /\ w <> W /\ is_Some (old w)) (transfer_others tab W).
Proof.
  induction tab as [|va tab IH]; cbn [transfer_others length]; intros Hall Hal.
  { apply copies_done; [lia|]. intros w [Hw _]. by apply elem_of_nil in Hw. }
  inversion_clear Hall as [|? ? Hva Htab].
  assert (Hal' : forall x v, x ∈ tab -> x <> W -> old x = Some v -> allowed x v)
    by (intros x v Hx; apply Hal; by constructor).
  destruct (Z.eqb_spec va W) as [->|Hne]; cbn [negb].
  - eapply copies_weaken; [| |by apply IH]; [lia|].
    intros w (Hw & HwW & Hs). apply elem_of_cons in Hw as [->|Hw]; done.
  - eapply copies_weaken; [| |apply (copies_then _ _ _ 1 (Z.of_nat (length tab)));
      [lia|apply copies_var; [done|]|by apply IH]]; [lia| |].
    + intros w (Hw & HwW & Hs). apply elem_of_cons in Hw as [->|Hw]; auto.
    + intros v. apply Hal; [by constructor|done].
Qed.

(** The recovery loop of [EE_Init] copies all variables: one it skips is
    in the first slot of the new page already. *)
Lemma copies_recover old allowed p tab i x :
  Forall is_addr tab -> (forall va v, va ∈ tab -> old va = Some v -> allowed va v) -> x < i ->
  copies old allowed p (Z.of_nat (length tab))
    (fun w => w ∈ tab /\ is_Some (old w)) (recover_vars tab (page_base (other p)) i x).
Proof.
  revert i x. induction tab as [|va tab IH]; cbn [length]; intros i x Hall Hal Hx.
  { apply copies_done; [lia|]. intros w [Hw _]. by apply elem_of_nil in Hw. }
  inversion_clear Hall as [|? ? Hva Htab].
  assert (Hal' : forall x v, x ∈ tab -> old x = Some v -> allowed x v)
    by (intros y v Hy; apply Hal; by constructor).
  intros m s Hm Hle. cbn [recover_vars].
  change (rd16 (ee_flash s) (page_base (other p) + 6)) with (saddr (ee_flash s) (other p) 1).
  destruct (Z.eqb_spec (saddr (ee_flash s) (other p) 1) va) as [Hsl|Hsl].
  - rewrite Z.eqb_refl; cbn [negb].
    destruct (IH (i + 1) i Htab Hal' ltac:(lia) m s Hm ltac:(lia))
      as (Hr & m' & Hm' & Hmv & Hkeep & Hok).
    split; [done|]. exists m'. split; [lia|]. split; [done|]. split; [done|].
    intros Hst w [Hw Hs] Hwf. apply elem_of_cons in Hw as [->|Hw]; [|by apply Hok].
    apply Hkeep; [done|]. unfold page_read. pose proof scan_fuel_Z.
    apply (last_slot_Some _ _ _ _ 1); [lia|done].
  - rewrite (proj2 (Z.eqb_neq i x)) by lia; cbn [negb].
    refine (copies_weaken _ _ _ _ _ _ _ _ _ _ (copies_then _ _ _ 1 (Z.of_nat (length tab))
      _ _ _ _ _ (copies_var _ _ _ va Hva _) (IH (i + 1) x Htab Hal' _)) m s Hm Hle);
      [lia| |lia| |lia].
    + intros w [Hw Hs]. apply elem_of_cons in Hw as [->|Hw]; auto.
    + intros v. apply Hal. by constructor.
Qed.
End Spec.
