(* ===== verification/EepromSafety.v ===== *)
(** * EepromSafety: functional correctness and crash safety of the EEPROM

    [EE_WriteVariable] and [EE_Init] on whole states: what a write that
    succeeds does, what a write cut short at any flash operation leaves
    behind, and that [EE_Init] recovers from it. *)
From S2P Require Import Prelude Flash Eeprom EepromSpec.

#[local] Opaque scan_fuel.

Section Safety.
Context {F : Type} `{Flash F} `{!FlashLaws F}.

(** One page is valid and the other is empty. *)
Record stable (p : Z) (f : F) : Prop := {
  sb_page : is_page p;
  sb_valid : status f p = VALID_PAGE;
  sb_other : page_empty f (other p);
  sb_wf : exists n, page_wf f p n
}.

(** The values on page [p] are allowed, and every variable of [G] that had
    a value has one. *)
Definition complete (old : Z -> option Z) (allowed : Z -> Z -> Prop) (G : Z -> Prop)
    (p : Z) (f : F) : Prop :=
  forall w, w <> 0xFFFF ->
  (forall v, page_read f p w = Some v -> allowed w v) /\
  (G w -> is_Some (old w) -> is_Some (page_read f p w)).

(** The new page is complete and the old one erased. *)
Record switched old allowed G (p : Z) (f : F) : Prop := {
  sw_page : is_page p;
  sw_recv : status f p = RECEIVE_DATA;
  sw_other : page_empty f (other p);
  sw_wf : exists n, page_wf f p n;
  sw_new : complete old allowed G p f
}.

(** The states in which a page transfer can be interrupted. *)
Inductive interrupted old allowed (G : Z -> Prop) (k : Z) (f : F) : Prop :=
| Int_before p : stable p f -> (forall w, w <> 0xFFFF -> page_read f p w = old w) ->
    interrupted old allowed G k f
| Int_moving p m : moving old allowed p m f -> m <= k -> interrupted old allowed G k f
| Int_switched p : switched old allowed G p f -> interrupted old allowed G k f
| Int_after p : stable p f -> complete old allowed G p f -> interrupted old allowed G k f.

Lemma complete_weaken old (al al' : Z -> Z -> Prop) (G G' : Z -> Prop) p f :
  (forall w v, al w v -> al' w v) -> (forall w, G' w -> G w) ->
  complete old al G p f -> complete old al' G' p f.
Proof.
  intros Hal HG Hc w Hf. destruct (Hc w Hf) as [Hv Hs].
  split; [intros v Hr; by apply Hal, Hv|intros Hw; apply Hs; by apply HG].
Qed.

Lemma interrupted_weaken old (al al' : Z -> Z -> Prop) (G G' : Z -> Prop) k f :
  (forall w v, al w v -> al' w v) -> (forall w, G' w -> G w) ->
  interrupted old al G k f -> interrupted old al' G' k f.
Proof.
  intros Hal HG [p Hs Ho|p m [? ? ? ? ? Hn] Hm|p [? ? ? ? Hc]|p Hs Hc].
  - by apply (Int_before _ _ _ _ _ p).
  - apply (Int_moving _ _ _ _ _ p m); [|done]. split; try assumption.
    intros w v Hw Hr. by apply Hal, Hn.
  - apply (Int_switched _ _ _ _ _ p). split; try assumption.
    apply (complete_weaken _ al _ G); auto.
  - apply (Int_after _ _ _ _ _ p); [done|]. apply (complete_weaken _ al _ G); auto.
Qed.

(** ** Small steps *)

Lemma status_empty f p : page_empty f p -> status f p = ERASED.
Proof. intros He. apply He. lia. Qed.

Lemma page_base_hw p : page_base p = page_base p + 2 * 0.
Proof. lia. Qed.

(** Programming the status half-word. *)
Lemma mark_spec p v s :
  is_page p -> is_u16 v -> status (ee_flash s) p = ERASED \/ v = 0 ->
  let r := flash_op (FLASH_ProgramHalfWord (page_base p) v) s in
  st_ok r.1 /\
  (hw_upd (ee_flash s) (ee_flash r.2) p 0 v \/
   r.1 <> FLASH_COMPLETE /\ hw_same (ee_flash s) (ee_flash r.2)).
Proof.
  intros Hp Hv Hst. rewrite page_base_hw. unfold flash_op.
  pose proof (prog_spec p 0 v (ee_flash s) Hp ltac:(lia) Hv Hst) as Hspec.
  destruct (FLASH_ProgramHalfWord _ _ _) as [st f']. exact Hspec.
Qed.

Lemma stable_same p f f' : hw_same f f' -> stable p f -> stable p f'.
Proof.
  intros Hs [Hp Hv Ho [n Hn]]. split; [done| | |].
  - rewrite <- Hv. apply Hs.
  - intros j Hj. rewrite Hs. by apply Ho.
  - exists n. apply (page_wf_ext f); [|done]. intros; apply Hs.
Qed.

Lemma read_same p f f' w : hw_same f f' -> page_read f' p w = page_read f p w.
Proof. intros Hs. apply page_read_ext. intros; apply Hs. Qed.

Lemma complete_ext old al G p f f' :
  (forall j, 2 <= j < 8192 -> hw f' p j = hw f p j) ->
  complete old al G p f -> complete old al G p f'.
Proof.
  intros Hh Hc w Hf. rewrite (page_read_ext f f' p w Hh). by apply Hc.
Qed.

Lemma switched_same old al G p f f' : hw_same f f' -> switched old al G p f -> switched old al G p f'.
Proof.
  intros Hs [Hp Hr Ho [n Hn] Hc]. split; [done| | | |].
  - rewrite <- Hr. apply Hs.
  - intros j Hj. rewrite Hs. by apply Ho.
  - exists n. apply (page_wf_ext f); [|done]. intros; apply Hs.
  - apply (complete_ext _ _ _ _ f); [|done]. intros; apply Hs.
Qed.

Lemma moving_same old al p m f f' : hw_same f f' -> moving old al p m f -> moving old al p m f'.
Proof.
  intros Hs [Hp Hv Hr Ho Hwf Hn]. split; [done| | | | |].
  - rewrite <- Hv. apply Hs.
  - rewrite <- Hr. apply Hs.
  - intros w Hw. rewrite (read_same _ _ _ _ Hs). by apply Ho.
  - apply (page_wf_ext f); [|done]. intros; apply Hs.
  - intros w v Hw. rewrite (read_same _ _ _ _ Hs). by apply Hn.
Qed.

(** Opening the new page. *)
Lemma open_moving old al p f f' :
  stable p f -> (forall w, w <> 0xFFFF -> page_read f p w = old w) ->
  hw_upd f f' (other p) 0 RECEIVE_DATA -> moving old al p 1 f'.
Proof.
  intros [Hp Hv Ho Hn] Hold Hup. destruct (is_page_other p Hp) as (Hq & Hqp & _).
  assert (He : forall j, 1 <= j < 8192 -> hw f' (other p) j = 0xFFFF).
  { intros j Hj. rewrite (hw_upd_ne _ _ _ _ _ _ _ Hup) by (assumption || lia). apply Ho. lia. }
  assert (Hwf : page_wf f' (other p) 1).
  { split; [lia|intros; lia|]. intros i Hi. split; apply He; lia. }
  split; [done| | | | |].
  - rewrite <- Hv. unfold status. apply (hw_upd_ne _ _ _ _ _ _ _ Hup); (assumption || lia).
  - apply (hw_upd_eq _ _ _ _ _ Hup); [done|lia].
  - intros w Hw. rewrite <- Hold by done. apply page_read_ext.
    intros j Hj. apply (hw_upd_ne _ _ _ _ _ _ _ Hup); (assumption || lia).
  - done.
  - intros w v Hw. rewrite (page_read_wf _ _ _ _ Hwf) by done. done.
Qed.

(** Erasing the old page. *)
Lemma erase_switched old al G p m f f' :
  moving old al p m f -> (forall w, G w -> w <> 0xFFFF -> is_Some (old w) -> is_Some (page_read f (other p) w)) ->
  hw_erased f f' p -> switched old al G (other p) f'.
Proof.
  intros [Hp Hv Hr Ho Hwf Hn] Hall Her. destruct (is_page_other p Hp) as (Hq & Hqp & Hinv).
  assert (Hsame : forall j, 0 <= j < 8192 -> hw f' (other p) j = hw f (other p) j).
  { intros j Hj. rewrite Her by done. by rewrite decide_False. }
  split; [done| | | |].
  - rewrite <- Hr. apply Hsame. lia.
  - rewrite Hinv. intros j Hj. rewrite Her by done. by rewrite decide_True.
  - exists m. apply (page_wf_ext f); [|done]. intros; apply Hsame; lia.
  - apply (complete_ext _ _ _ _ f); [intros; apply Hsame; lia|].
    intros w Hf. split; [intros v Hv'; by apply Hn|intros Hw; by apply Hall].
Qed.

(** Marking the new page valid. *)
Lemma mark_stable old al G p f f' :
  switched old al G p f -> hw_upd f f' p 0 VALID_PAGE -> stable p f' /\ complete old al G p f'.
Proof.
  intros [Hp Hr Ho [n Hn] Hc] Hup. destruct (is_page_other p Hp) as (Hq & Hqp & _).
  assert (Hh : forall j, 2 <= j < 8192 -> hw f' p j = hw f p j).
  { intros j Hj. apply (hw_upd_ne _ _ _ _ _ _ _ Hup); (assumption || lia). }
  split; [split; [done| | |]|].
  - apply (hw_upd_eq _ _ _ _ _ Hup); [done|lia].
  - intros j Hj. rewrite (hw_upd_ne _ _ _ _ _ _ _ Hup) by (assumption || lia). by apply Ho.
  - exists n. by apply (page_wf_ext f).
  - by apply (complete_ext _ _ _ _ f).
Qed.

Lemma ok_then_assoc (a b c : op F) s : ok_then (ok_then a b) c s = ok_then a (ok_then b c) s.
Proof.
  unfold ok_then. destruct (a s) as [st s']. destruct (Z.eqb_spec st FLASH_COMPLETE) as [->|Hne].
  - reflexivity.
  - cbn [fst snd]. by rewrite (proj2 (Z.eqb_neq _ _) Hne).
Qed.

Lemma ok_then_step (o k : op F) s st s1 :
  o s = (st, s1) -> ok_then o k s = if st =? FLASH_COMPLETE then k s1 else (st, s1).
Proof. unfold ok_then. by intros ->. Qed.

(** Copy, erase the old page, mark the new one. *)
Lemma move_tail old al (G G' : Z -> Prop) p m k K o s :
  moving old al p m (ee_flash s) -> m + k <= K -> K <= 4096 -> copies old al p k G' o ->
  (forall w, G w -> w <> 0xFFFF -> is_Some (old w) -> G' w) ->
  let r := ok_then o (ok_then (EE_EraseSectorIfNotEmpty (page_id p) VOLTAGE_RANGE)
             (flash_op (FLASH_ProgramHalfWord (page_base (other p)) VALID_PAGE))) s in
  st_ok r.1 /\ interrupted old al G K (ee_flash r.2) /\
  (r.1 = FLASH_COMPLETE -> stable (other p) (ee_flash r.2) /\
     complete old al G (other p) (ee_flash r.2) /\
     forall w, G' w -> w <> 0xFFFF -> is_Some (page_read (ee_flash r.2) (other p) w)).
Proof.
  intros Hm HK HK4 Ho HG. pose proof Hm as [Hp _ _ _ _ _].
  destruct (is_page_other p Hp) as (Hq & Hqp & Hinv).
  destruct (Ho m s Hm ltac:(lia)) as (Hr1 & m' & Hm' & Hmv & _ & Hok).
  unfold ok_then at 1. destruct (o s) as [st1 s1]; cbn [fst snd] in *.
  destruct (Z.eqb_spec st1 FLASH_COMPLETE) as [->|Hne].
  2:{ split; [done|]. split; [|done]. apply (Int_moving _ _ _ _ _ p m'); [done|lia]. }
  specialize (Hok eq_refl).
  assert (Hall : forall w, G w -> w <> 0xFFFF -> is_Some (old w) ->
            is_Some (page_read (ee_flash s1) (other p) w)).
  { intros w Hw Hf Hs. apply Hok; [by apply HG|done]. }
  destruct (erase_spec p s1 Hp) as (Hr2 & _ & Her).
  unfold ok_then. destruct (EE_EraseSectorIfNotEmpty (page_id p) VOLTAGE_RANGE s1) as [st2 s2].
  cbn [fst snd] in *.
  assert (Hint2 : hw_same (ee_flash s1) (ee_flash s2) ->
            interrupted old al G K (ee_flash s2)).
  { intros Hs. apply (Int_moving _ _ _ _ _ p m'); [|lia]. by apply (moving_same _ _ _ _ (ee_flash s1)). }
  destruct (Z.eqb_spec st2 FLASH_COMPLETE) as [->|Hne2]; cbn [fst snd].
  2:{ split; [done|]. split; [|done]. destruct Her as [Her|[_ Hs]]; [|by apply Hint2].
      apply (Int_switched _ _ _ _ _ (other p)). by apply (erase_switched _ _ _ _ m' (ee_flash s1)). }
  destruct Her as [Her|[? _]]; [|done].
  pose proof (erase_switched _ _ _ _ _ _ _ Hmv Hall Her) as Hsw.
  destruct (mark_spec (other p) VALID_PAGE s2 Hq ltac:(done) ltac:(by right)) as (Hr3 & Hmk).
  destruct (flash_op _ s2) as [st3 s3]; cbn [fst snd] in *. split; [done|].
  destruct Hmk as [Hup|[Hne3 Hs]].
  - destruct (mark_stable _ _ _ _ _ _ Hsw Hup) as [Hst Hc].
    split; [by apply (Int_after _ _ _ _ _ (other p))|]. intros _. split; [done|]. split; [done|].
    intros w Hw Hf. destruct (Hok w Hw Hf) as [v Hv]. exists v. rewrite <- Hv.
    transitivity (page_read (ee_flash s2) (other p) w); apply page_read_ext; intros j Hj.
    + by apply (hw_upd_ne _ _ _ _ _ _ _ Hup); [|lia|right; lia].
    + rewrite Her by (assumption || lia). by rewrite decide_False.
  - split; [|done]. apply (Int_switched _ _ _ _ _ (other p)). by apply (switched_same _ _ _ _ (ee_flash s2)).
Qed.

(** ** [EE_PageTransfer] *)

Definition vars (tab : list Z) (W w : Z) : Prop := w = W \/ w ∈ tab.

Lemma page_transfer_spec tab W D p old al s :
  stable p (ee_flash s) -> (forall w, w <> 0xFFFF -> page_read (ee_flash s) p w = old w) ->
  Forall is_addr tab -> 2 + Z.of_nat (length tab) <= 4096 -> is_addr W -> is_u16 D ->
  al W D -> (forall va v, va ∈ tab -> va <> W -> old va = Some v -> al va v) ->
  let r := EE_PageTransfer tab W D s in
  st_ok r.1 /\ interrupted old al (vars tab W) (2 + Z.of_nat (length tab)) (ee_flash r.2) /\
  (r.1 = FLASH_COMPLETE -> stable (other p) (ee_flash r.2) /\
     complete old al (vars tab W) (other p) (ee_flash r.2) /\
     is_Some (page_read (ee_flash r.2) (other p) W)).
Proof.
  intros Hst Hold Htab Hlen HW HD HalW Hal. pose proof Hst as [Hp Hv He _].
  destruct (is_page_other p Hp) as (Hq & Hqp & Hinv).
  assert (Hfind : EE_FindValidPage READ_FROM_VALID_PAGE (ee_flash s) = p).
  { apply find_read; [done|done|]. by rewrite (status_empty _ _ He). }
  assert (Hmove : EE_PageTransfer tab W D s =
    ok_then (flash_op (FLASH_ProgramHalfWord (page_base (other p)) RECEIVE_DATA))
    (ok_then (EE_VerifyPageFullWriteVariable W D)
    (ok_then (transfer_others tab W)
    (ok_then (EE_EraseSectorIfNotEmpty (page_id p) VOLTAGE_RANGE)
             (flash_op (FLASH_ProgramHalfWord (page_base (other p)) VALID_PAGE))))) s).
  { unfold EE_PageTransfer. rewrite Hfind. by destruct Hp as [-> | ->]. }
  rewrite Hmove. clear Hmove.
  destruct (mark_spec (other p) RECEIVE_DATA s Hq ltac:(done) (or_introl (status_empty _ _ He)))
    as (Hr1 & Hopen).
  unfold ok_then at 1. destruct (flash_op _ s) as [st1 s1]; cbn [fst snd] in *.
  destruct (Z.eqb_spec st1 FLASH_COMPLETE) as [->|Hne].
  - destruct Hopen as [Hup|[? _]]; [|done].
    pose proof (open_moving old al p _ _ Hst Hold Hup) as Hmv.
    rewrite <- ok_then_assoc.
    pose proof (move_tail old al (vars tab W) _ p 1 (1 + Z.of_nat (length tab))
      (2 + Z.of_nat (length tab)) _ s1 Hmv ltac:(lia) Hlen
      (copies_then _ _ _ 1 (Z.of_nat (length tab)) _ _ _ _ ltac:(lia)
         (copies_append old al p W D HW HD HalW) (copies_others old al p tab W Htab Hal))) as Htail.
    destruct Htail as (Hr & Hi & Hok).
    { intros w [-> | Hw] Hf Hs; [by left|]. destruct (decide (w = W)) as [->|]; [by left|by right]. }
    split; [done|]. split; [done|]. intros Hc. destruct (Hok Hc) as (? & ? & Hg).
    split; [done|]. split; [done|]. apply Hg; [by left|apply HW].
  - split; [done|]. split; [|done]. destruct Hopen as [Hup|[_ Hs]].
    + apply (Int_moving _ _ _ _ _ p 1); [|lia]. by apply (open_moving old al p (ee_flash s)).
    + apply (Int_before _ _ _ _ _ p); [by apply (stable_same _ (ee_flash s))|].
      intros w Hw. rewrite (read_same _ _ _ _ Hs). by apply Hold.
Qed.

(** ** [EE_WriteVariable] *)

Definition written (W D : Z) (old : Z -> option Z) (w : Z) : option Z :=
  if decide (w = W) then Some D else old w.

(** Old values everywhere, except that the variable being written may
    have its old value or its new one. *)
Definition old_or_new (W D : Z) (old : Z -> option Z) (w v : Z) : Prop :=
  old w = Some v \/ w = W /\ v = D.

Lemma write_variable_spec tab W D p s :
  stable p (ee_flash s) -> Forall is_addr tab -> 2 + Z.of_nat (length tab) <= 4096 ->
  is_addr W -> is_u16 D ->
  let old := page_read (ee_flash s) p in
  let r := EE_WriteVariable tab W D s in
  st_ok r.1 /\
  interrupted old (old_or_new W D old) (vars tab W) (2 + Z.of_nat (length tab)) (ee_flash r.2) /\
  (r.1 = FLASH_COMPLETE -> exists p', stable p' (ee_flash r.2) /\
     forall w, vars tab W w -> w <> 0xFFFF -> page_read (ee_flash r.2) p' w = written W D old w).
Proof.
  intros Hst Htab Hlen HW HD old. pose proof Hst as [Hp Hv He [n Hwf]].
  assert (Hfind : EE_FindValidPage WRITE_IN_VALID_PAGE (ee_flash s) = p).
  { rewrite (find_write _ p), decide_False; rewrite ?(status_empty _ _ He); done. }
  assert (Hnf : status (ee_flash s) p <> 0xFFFF) by by rewrite Hv.
  unfold EE_WriteVariable. destruct (decide (n = 4096)) as [->|Hn].
  - rewrite (verify_write_full s p W D) by done. cbn [Z.eqb PAGE_FULL Pos.eqb].
    set (al := fun w v => if decide (w = W) then v = D else old w = Some v).
    destruct (page_transfer_spec tab W D p old al s) as (Hr & Hi & Hok);
      [done|done|done|done|done|done| | |].
    { unfold al. by rewrite decide_True. }
    { intros va v _ Hne Hs. unfold al. by rewrite decide_False. }
    split; [done|]. split.
    + refine (interrupted_weaken _ _ _ _ _ _ _ _ _ Hi); [|done].
      intros w v. unfold al, old_or_new. case_decide; [by right|by left].
    + intros Hc. destruct (Hok Hc) as (Hst' & Hcomp & HWs). exists (other p). split; [done|].
      intros w Hw Hf. destruct (Hcomp w Hf) as [Hal Hs]. specialize (Hs Hw). unfold written. unfold al in Hal.
      case_decide as Hdec.
      * subst w. destruct HWs as [v Hv']. rewrite Hv'. f_equal. by apply Hal.
      * destruct (page_read (ee_flash (EE_PageTransfer tab W D s).2) (other p) w) as [v|] eqn:Hr'.
        { symmetry. by apply Hal. }
        destruct (old w); [|done]. by destruct Hs as [? ?]; [eexists|].
  - pose proof (pw_n _ _ _ Hwf) as Hn1.
    destruct (verify_write_spec s p n W D Hp Hfind Hnf Hwf ltac:(lia) (proj1 HW) HD)
      as (Hr & _ & Hap & Hok).
    destruct (EE_VerifyPageFullWriteVariable W D s) as [st s1]; cbn [fst snd] in *.
    replace (st =? PAGE_FULL) with false by (destruct Hr as [Hr _]; unfold PAGE_FULL; lia). cbn [fst snd].
    destruct (appended_wf _ _ _ _ _ _ Hap Hwf ltac:(lia)) as (n' & _ & Hwf' & _).
    destruct (is_page_other p Hp) as (Hq & Hqp & _).
    pose proof (fun w => appended_read _ _ _ _ _ _ w Hap Hwf ltac:(lia)) as Hread.
    assert (Hst1 : stable p (ee_flash s1)).
    { split; [done| | |by exists n'].
      - rewrite <- Hv. apply (ap_rest _ _ _ _ _ _ Hap); lia.
      - intros j Hj. rewrite (ap_other _ _ _ _ _ _ Hap) by assumption. by apply He. }
    split; [done|]. split.
    + apply (Int_after _ _ _ _ _ p); [done|]. intros w Hf. rewrite Hread by done.
      case_decide as Hs; [|split; [by left|done]]. split; [|done]. intros v [= <-]. right.
      destruct (ap_slot _ _ _ _ _ _ Hap) as [[? _]|?]; [split; congruence|congruence].
    + intros Hc. exists p. split; [done|]. intros w _ Hf. rewrite Hread, (Hok Hc) by done.
      unfold written. by repeat case_decide.
Qed.

(** ** [EE_Init] *)

Lemma init_stable tab p s : stable p (ee_flash s) -> EE_Init tab s = (FLASH_COMPLETE, s).
Proof.
  intros [Hp Hv He _]. pose proof (status_empty _ _ He) as Hst.
  unfold EE_Init. change (rd16 (ee_flash s) PAGE0_BASE_ADDRESS) with (status (ee_flash s) 0).
  change (rd16 (ee_flash s) PAGE1_BASE_ADDRESS) with (status (ee_flash s) 1).
  unfold ok_then.
  destruct Hp as [-> | ->]; [change (other 0) with 1 in *|change (other 1) with 0 in *];
    rewrite Hv, Hst; cbn [Z.eqb ERASED VALID_PAGE RECEIVE_DATA Pos.eqb].
  - change PAGE1_ID with (page_id 1). by rewrite (erase_empty 1 s (or_intror eq_refl) He).
  - change PAGE0_ID with (page_id 0). by rewrite (erase_empty 0 s (or_introl eq_refl) He).
Qed.

Definition both_valid (f : F) : Prop := status f 0 = VALID_PAGE /\ status f 1 = VALID_PAGE.

Lemma init_moving tab p s old al m :
  moving old al p m (ee_flash s) ->
  EE_Init tab s = ok_then (recover_vars tab (page_base (other p)) 0 (-1))
    (ok_then (flash_op (FLASH_ProgramHalfWord (page_base (other p)) VALID_PAGE))
    (ok_then (EE_EraseSectorIfNotEmpty (page_id p) VOLTAGE_RANGE) done_ok)) s.
Proof.
  intros [Hp Hv Hr _ _ _]. unfold EE_Init.
  change (rd16 (ee_flash s) PAGE0_BASE_ADDRESS) with (status (ee_flash s) 0).
  change (rd16 (ee_flash s) PAGE1_BASE_ADDRESS) with (status (ee_flash s) 1).
  by destruct Hp as [-> | ->]; [change (other 0) with 1 in *|change (other 1) with 0 in *];
    rewrite Hv, Hr.
Qed.

Lemma init_switched tab p s old al G :
  switched old al G p (ee_flash s) ->
  EE_Init tab s = ok_then (flash_op (FLASH_ProgramHalfWord (page_base p) VALID_PAGE)) done_ok s.
Proof.
  intros [Hp Hr He _ _]. pose proof (status_empty _ _ He) as Hst. unfold EE_Init.
  change (rd16 (ee_flash s) PAGE0_BASE_ADDRESS) with (status (ee_flash s) 0).
  change (rd16 (ee_flash s) PAGE1_BASE_ADDRESS) with (status (ee_flash s) 1).
  destruct Hp as [-> | ->]; [change (other 0) with 1 in *|change (other 1) with 0 in *];
    rewrite Hr, Hst; cbn [Z.eqb ERASED VALID_PAGE RECEIVE_DATA Pos.eqb]; unfold ok_then at 1.
  - change PAGE1_ID with (page_id 1). by rewrite (erase_empty 1 s (or_intror eq_refl) He).
  - change PAGE0_ID with (page_id 0). by rewrite (erase_empty 0 s (or_introl eq_refl) He).
Qed.

Lemma ok_then_done (o : op F) s : ok_then o done_ok s = o s.
Proof.
  unfold ok_then, done_ok. destruct (o s) as [st s1].
  by destruct (Z.eqb_spec st FLASH_COMPLETE) as [->|].
Qed.

(** The recovery: copy, mark the new page, erase the old one. *)
Lemma recover_spec old al G p k G' m K o s :
  moving old al p m (ee_flash s) -> m + k <= K -> K <= 4096 -> copies old al p k G' o ->
  (forall w, G w -> w <> 0xFFFF -> is_Some (old w) -> G' w) ->
  let r := ok_then o
    (ok_then (flash_op (FLASH_ProgramHalfWord (page_base (other p)) VALID_PAGE))
    (ok_then (EE_EraseSectorIfNotEmpty (page_id p) VOLTAGE_RANGE) done_ok)) s in
  st_ok r.1 /\ (interrupted old al G K (ee_flash r.2) \/ both_valid (ee_flash r.2)) /\
  (r.1 = FLASH_COMPLETE ->
     stable (other p) (ee_flash r.2) /\ complete old al G (other p) (ee_flash r.2)).
Proof.
  intros Hm HK HK4 Ho HG. pose proof Hm as [Hp _ _ _ _ _].
  destruct (is_page_other p Hp) as (Hq & Hqp & Hinv).
  destruct (Ho m s Hm ltac:(lia)) as (Hr1 & m' & Hm' & Hmv & _ & Hok).
  unfold ok_then at 1. destruct (o s) as [st1 s1]; cbn [fst snd] in *.
  destruct (Z.eqb_spec st1 FLASH_COMPLETE) as [->|Hne].
  2:{ split; [done|]. split; [|done]. left. apply (Int_moving _ _ _ _ _ p m'); [done|lia]. }
  specialize (Hok eq_refl). pose proof Hmv as [_ Hv Hr _ [Hn1 Hn2 Hn3] Hnew].
  destruct (mark_spec (other p) VALID_PAGE s1 Hq ltac:(done) ltac:(by right)) as (Hr2 & Hmk).
  destruct (flash_op _ s1) as [st2 s2] eqn:E2; cbn [fst snd] in *.
  rewrite (ok_then_step _ _ _ _ _ E2).
  assert (Hbv : hw_upd (ee_flash s1) (ee_flash s2) (other p) 0 VALID_PAGE -> both_valid (ee_flash s2)).
  { intros Hup. pose proof (hw_upd_eq _ _ _ _ _ Hup Hq ltac:(lia)) as H1.
    pose proof (hw_upd_ne _ _ _ _ _ p 0 Hup Hp ltac:(lia) ltac:(by left)) as H2.
    unfold both_valid, status in *. rewrite Hv in H2.
    by destruct Hp as [-> | ->]; [change (other 0) with 1 in *|change (other 1) with 0 in *]. }
  destruct (Z.eqb_spec st2 FLASH_COMPLETE) as [->|Hne2]; cbn [fst snd].
  2:{ split; [done|]. split; [|done]. destruct Hmk as [Hup|[_ Hs]]; [right; by apply Hbv|].
      left. apply (Int_moving _ _ _ _ _ p m'); [|lia]. by apply (moving_same _ _ _ _ (ee_flash s1)). }
  destruct Hmk as [Hup|[? _]]; [|done].
  rewrite ok_then_done. destruct (erase_spec p s2 Hp) as (Hr3 & _ & Her).
  destruct (EE_EraseSectorIfNotEmpty _ _ s2) as [st3 s3]; cbn [fst snd] in *. split; [done|].
  destruct Her as [Her|[Hne3 Hs]].
  - assert (Hh : forall j, 2 <= j < 8192 -> hw (ee_flash s3) (other p) j = hw (ee_flash s1) (other p) j).
    { intros j Hj. rewrite Her by (assumption || lia). rewrite decide_False by done.
      apply (hw_upd_ne _ _ _ _ _ _ _ Hup); [done|lia|right; lia]. }
    assert (stable (other p) (ee_flash s3) /\ complete old al G (other p) (ee_flash s3)) as [Hst Hc].
    { split; [split; [done| | |]|].
      - unfold status. rewrite Her by (assumption || lia). rewrite decide_False by done.
        by apply (hw_upd_eq _ _ _ _ _ Hup).
      - rewrite Hinv. intros j Hj. rewrite Her by assumption. by rewrite decide_True.
      - exists m'. apply (page_wf_ext (ee_flash s1)); [done|]. by split.
      - apply (complete_ext _ _ _ _ (ee_flash s1)); [done|]. intros w Hf.
        split; [intros v; by apply Hnew|]. intros Hw Hs. apply Hok; [by apply HG|done]. }
    split; [|done]. left. by apply (Int_after _ _ _ _ _ (other p)).
  - split; [|done]. right. destruct (Hbv Hup) as [H0 H1]. split; unfold status; by rewrite Hs.
Qed.

Lemma init_spec tab old al (G : Z -> Prop) K s :
  interrupted old al G K (ee_flash s) -> Forall is_addr tab ->
  (forall w, w ∈ tab -> G w) -> (forall va v, old va = Some v -> al va v) ->
  K + Z.of_nat (length tab) <= 4096 ->
  let r := EE_Init tab s in
  st_ok r.1 /\
  (interrupted old al (fun w => w ∈ tab) (K + Z.of_nat (length tab)) (ee_flash r.2)
   \/ both_valid (ee_flash r.2)) /\
  (r.1 = FLASH_COMPLETE -> exists p', stable p' (ee_flash r.2) /\
     complete old al (fun w => w ∈ tab) p' (ee_flash r.2)).
Proof.
  intros Hint Htab HG Hal HK. destruct Hint as [p Hs Ho|p m Hm HmK|p Hsw|p Hs Hc].
  - rewrite (init_stable tab p s Hs); cbn [fst snd].
    assert (complete old al (fun w => w ∈ tab) p (ee_flash s)).
    { intros w Hf. rewrite Ho by done. split; [|done]. intros v. by apply Hal. }
    split; [apply st_ok_complete|]. split; [left; by apply (Int_after _ _ _ _ _ p)|]. by exists p.
  - rewrite (init_moving tab p s old al m Hm).
    pose proof (recover_spec old al (fun w => w ∈ tab) p (Z.of_nat (length tab)) _ m
      (K + Z.of_nat (length tab)) _ s Hm
      ltac:(lia) HK (copies_recover old al p tab 0 (-1) Htab (fun va v _ => Hal va v) ltac:(lia))) as (Hr & Hi & Hok).
    { by intros w Hw. }
    split; [done|]. split; [done|]. intros Hc. by exists (other p); apply Hok.
  - rewrite (init_switched tab p s old al G Hsw), ok_then_done. pose proof Hsw as [Hp _ _ _ _].
    assert (Hsw' : switched old al (fun w => w ∈ tab) p (ee_flash s)).
    { destruct Hsw as [? ? ? ? Hc]. split; try assumption.
      apply (complete_weaken _ al _ G); auto. }
    destruct (mark_spec p VALID_PAGE s Hp ltac:(done) ltac:(by right)) as (Hr & Hmk).
    destruct (flash_op _ s) as [st s1]; cbn [fst snd] in *. split; [done|].
    destruct Hmk as [Hup|[Hne Hsame]].
    + destruct (mark_stable _ _ _ _ _ _ Hsw' Hup) as [Hst Hc].
      split; [left; by apply (Int_after _ _ _ _ _ p)|]. intros _. by exists p.
    + split; [|done]. left. apply (Int_switched _ _ _ _ _ p).
      by apply (switched_same _ _ _ _ (ee_flash s)).
  - rewrite (init_stable tab p s Hs); cbn [fst snd].
    assert (complete old al (fun w => w ∈ tab) p (ee_flash s))
      by (apply (complete_weaken _ al _ G); auto).
    split; [apply st_ok_complete|]. split; [left; by apply (Int_after _ _ _ _ _ p)|]. by exists p.
Qed.

(** [EE_Format] leaves an empty valid page 0. *)
Lemma format_spec s :
  (EE_Format s).1 = FLASH_COMPLETE ->
  stable 0 (ee_flash (EE_Format s).2) /\
  forall w, w <> 0xFFFF -> page_read (ee_flash (EE_Format s).2) 0 w = None.
Proof.
  assert (Hp0 : is_page 0) by by left. assert (Hp1 : is_page 1) by by right.
  unfold EE_Format. change PAGE0_ID with (page_id 0).
  destruct (erase_spec 0 s Hp0) as (_ & _ & He0).
  destruct (EE_EraseSectorIfNotEmpty (page_id 0) _ s) as [st1 s1] eqn:E1; cbn [fst snd] in *.
  rewrite (ok_then_step _ _ _ _ _ E1).
  destruct (Z.eqb_spec st1 FLASH_COMPLETE) as [->|]; [|done].
  destruct He0 as [He0|[? _]]; [|done].
  unfold ok_then. change PAGE0_BASE_ADDRESS with (page_base 0).
  destruct (mark_spec 0 VALID_PAGE s1 Hp0 ltac:(done) ltac:(by right)) as (_ & Hmk).
  destruct (flash_op _ s1) as [st2 s2]; cbn [fst snd] in *.
  destruct (Z.eqb_spec st2 FLASH_COMPLETE) as [->|]; [|done].
  destruct Hmk as [Hup|[? _]]; [|done]. change PAGE1_ID with (page_id 1).
  destruct (erase_spec 1 s2 Hp1) as (_ & _ & He1).
  destruct (EE_EraseSectorIfNotEmpty (page_id 1) _ s2) as [st3 s3]; cbn [fst snd] in *.
  intros ->. destruct He1 as [He1|[? _]]; [|done].
  assert (Hh : forall j, 1 <= j < 8192 -> hw (ee_flash s3) 0 j = 0xFFFF).
  { intros j Hj. rewrite He1 by (assumption || lia). rewrite decide_False by lia.
    rewrite (hw_upd_ne _ _ _ _ _ _ _ Hup) by (assumption || lia).
    rewrite He0 by (assumption || lia). by rewrite decide_True. }
  assert (Hwf : page_wf (ee_flash s3) 0 1).
  { split; [lia|intros; lia|]. intros i Hi. split; apply Hh; lia. }
  split; [split; [done| | |by exists 1]|].
  - unfold status. rewrite He1 by (assumption || lia). rewrite decide_False by lia.
    apply (hw_upd_eq _ _ _ _ _ Hup); [done|lia].
  - intros j Hj. change (other 0) with 1. rewrite He1 by (assumption || lia). by rewrite decide_True.
  - intros w Hw. by rewrite (page_read_wf _ _ _ _ Hwf).
Qed.
End Safety.
