(* ===== verification/EepromTheorems.v ===== *)
(** * EepromTheorems: what eeprom.c promises

    Writes refine updates of a finite map, every interruption is recovered by
    [EE_Init], and the two ways variables get lost. *)
From S2P Require Import Prelude Flash Eeprom EepromSpec EepromSafety.

(** ** A sequence of writes, and the map it implements *)

Section Refinement.
Context {F : Type} `{Flash F}.

Fixpoint ee_writes (tab : list Z) (ws : list (Z * Z)) : op F :=
  match ws with
  | [] => done_ok
  | (va, d) :: ws => ok_then (EE_WriteVariable tab va d) (ee_writes tab ws)
  end.

(** The flash represents the map [m] on the variables of [tab]. *)
Definition represents (tab : list Z) (m : gmap Z Z) (f : F) : Prop :=
  exists p, stable p f /\ forall w, w ∈ tab -> page_read f p w = m !! w.

Definition map_writes (ws : list (Z * Z)) (m : gmap Z Z) : gmap Z Z :=
  foldl (fun m '(va, d) => <[va := d]> m) m ws.

(** [EE_ReadVariable] as a partial function. *)
Definition ee_lookup (f : F) (va : Z) : option Z :=
  let '(st, v) := EE_ReadVariable va 0 f in if st =? 0 then Some v else None.

Lemma ee_lookup_page (f : F) p va : stable p f -> ee_lookup f va = page_read f p va.
Proof.
  intros [Hp Hv He _]. unfold ee_lookup. rewrite (read_variable_page f p) by
    (try assumption; rewrite (status_empty _ _ He); discriminate).
  by destruct (page_read f p va).
Qed.
End Refinement.

Section Theorems.
Context {F : Type} `{Flash F} `{!FlashLaws F}.

Lemma write_represents tab W D m s :
  represents tab m (ee_flash s) -> Forall is_addr tab -> 2 + Z.of_nat (length tab) <= 4096 ->
  W ∈ tab -> is_u16 D ->
  (EE_WriteVariable tab W D s).1 = FLASH_COMPLETE ->
  represents tab (<[W := D]> m) (ee_flash (EE_WriteVariable tab W D s).2).
Proof.
  intros (p & Hst & Hrep) Htab Hlen HW HD Hc.
  pose proof (proj1 (list.Forall_forall _ _) Htab) as Hin.
  destruct (write_variable_spec tab W D p s Hst Htab Hlen (Hin W HW) HD) as (_ & _ & Hok).
  destruct (Hok Hc) as (p' & Hst' & Hr). exists p'. split; [done|].
  intros w Hw. rewrite Hr by (by first [right|apply Hin]). unfold written.
  case_decide as Heq; [by subst; rewrite lookup_insert_eq|].
  by rewrite lookup_insert_ne, Hrep.
Qed.

(** C6. On a flash that reports no errors every sequence of writes to
    variables of the table succeeds, page transfers included, and what
    EE_ReadVariable then returns is the finite map updated with those
    writes. *)
Theorem ee_writes_refine_map tab ws m s (R : FlashReliable F) :
  represents tab m (ee_flash s) -> Forall is_addr tab -> 2 + Z.of_nat (length tab) <= 4096 ->
  Forall (fun '(va, d) => va ∈ tab /\ is_u16 d) ws ->
  (ee_writes tab ws s).1 = FLASH_COMPLETE /\
  forall w, w ∈ tab -> ee_lookup (ee_flash (ee_writes tab ws s).2) w = map_writes ws m !! w.
Proof.
  intros Hrep Htab Hlen Hws. revert m s Hrep.
  induction Hws as [|[W D] ws [HW HD] _ IH]; intros m s Hrep; cbn [ee_writes].
  - split; [done|]. destruct Hrep as (p & Hst & Hr). intros w Hw.
    cbn [done_ok fst snd]. by rewrite (ee_lookup_page _ p), Hr.
  - assert (Hc : (EE_WriteVariable tab W D s).1 = FLASH_COMPLETE).
    { destruct Hrep as (p & Hst & _).
      pose proof (proj1 (list.Forall_forall _ _) Htab) as Hin.
      destruct (write_variable_spec tab W D p s Hst Htab Hlen (Hin W HW) HD) as ((_ & Hrel) & _).
      by apply Hrel. }
    pose proof (write_represents tab W D m s Hrep Htab Hlen HW HD Hc) as Hrep'.
    destruct (EE_WriteVariable tab W D s) as [st s1] eqn:E; cbn [fst snd] in *.
    rewrite (ok_then_step _ _ _ _ _ E), Hc. exact (IH _ _ Hrep').
Qed.

(** What a successful start after an interruption leaves: every variable of the
    table as it was, the written one as it was or as it was to be. *)
Definition recovered (tab : list Z) (W D : Z) (before after : F) : Prop :=
  (exists p', stable p' after) /\
  forall w, w ∈ tab ->
    ee_lookup after w = ee_lookup before w \/ w = W /\ ee_lookup after w = Some D.

Lemma init_recovers tab W D p (f : F) (G : Z -> Prop) K s :
  let old := page_read f p in
  stable p f -> Forall is_addr tab -> interrupted old (old_or_new W D old) G K (ee_flash s) ->
  (forall w, w ∈ tab -> G w) -> K + Z.of_nat (length tab) <= 4096 ->
  st_ok (F := F) (EE_Init tab s).1 /\
  (~ both_valid (ee_flash (EE_Init tab s).2) ->
   interrupted old (old_or_new W D old) (fun w => w ∈ tab) (K + Z.of_nat (length tab))
     (ee_flash (EE_Init tab s).2)) /\
  ((EE_Init tab s).1 = FLASH_COMPLETE -> recovered tab W D f (ee_flash (EE_Init tab s).2)).
Proof.
  intros old Hst Htab Hint HG HK. pose proof (proj1 (list.Forall_forall _ _) Htab) as Hin.
  destruct (init_spec tab _ _ _ _ _ Hint Htab HG ltac:(by left) HK) as (Hr & Hi & Hok).
  split; [done|]. split; [by destruct Hi|]. intros Hc.
  destruct (Hok Hc) as (p' & Hst' & Hcomp). split; [by exists p'|]. intros w Hw.
  rewrite (ee_lookup_page _ p' _ Hst'), (ee_lookup_page _ p _ Hst).
  destruct (Hcomp w (proj2 (Hin w Hw))) as [Hal Hs].
  destruct (page_read _ p' w) as [v|].
  - destruct (Hal v eq_refl) as [?|[-> ->]]; [by left|by right].
  - left. unfold old in Hs. destruct (page_read f p w); [|done]. by destruct (Hs Hw) as [? ?]; [eexists|].
Qed.

(** C7. A write cut short at any flash operation, whatever the status it
    returns, followed by a successful EE_Init: every variable of the table
    reads as before, and the written one as before or with the new value. *)
Theorem ee_write_crash_safe tab W D p s s' :
  stable p (ee_flash s) -> Forall is_addr tab -> 2 + 2 * Z.of_nat (length tab) <= 4096 ->
  W ∈ tab -> is_u16 D ->
  s' = (EE_WriteVariable tab W D s).2 ->
  (EE_Init tab s').1 = FLASH_COMPLETE ->
  (exists p', stable p' (ee_flash (EE_Init tab s').2)) /\
  forall w, w ∈ tab ->
    ee_lookup (ee_flash (EE_Init tab s').2) w = ee_lookup (ee_flash s) w \/
    w = W /\ ee_lookup (ee_flash (EE_Init tab s').2) w = Some D.
Proof.
  intros Hst Htab Hlen HW HD -> Hc. pose proof (proj1 (list.Forall_forall _ _) Htab) as Hin.
  destruct (write_variable_spec tab W D p s Hst Htab ltac:(lia) (Hin W HW) HD) as (_ & Hint & _).
  eapply init_recovers in Hint as (_ & _ & Hok); [by apply Hok|done..|by right|lia].
Qed.

(** [n] starts, each of which may be cut short. *)
Fixpoint ee_starts (tab : list Z) (n : nat) (s : ee_state F) : ee_state F :=
  match n with O => s | S n => (EE_Init tab (ee_starts tab n s)).2 end.

Lemma starts_interrupted tab W D p (f : F) K s n :
  let old := page_read f p in
  stable p f -> Forall is_addr tab -> interrupted old (old_or_new W D old) (vars tab W) K (ee_flash s) ->
  K + Z.of_nat n * Z.of_nat (length tab) <= 4096 ->
  (forall k, (1 <= k <= n)%nat -> ~ both_valid (ee_flash (ee_starts tab k s))) ->
  interrupted old (old_or_new W D old) (fun w => w ∈ tab) (K + Z.of_nat n * Z.of_nat (length tab))
    (ee_flash (ee_starts tab n s)).
Proof.
  intros old Hst Htab Hint HK Hboth. induction n as [|n IH]; cbn [ee_starts].
  { rewrite Z.add_0_r. apply (interrupted_weaken _ (old_or_new W D old) _ (vars tab W)); [done|by right|done]. }
  assert (Hi := IH ltac:(lia) ltac:(intros k Hk; apply Hboth; lia)).
  eapply init_recovers in Hi as (_ & Hi & _); [|done..|lia].
  specialize (Hi (Hboth (S n) ltac:(lia))).
  by replace (K + Z.of_nat (S n) * Z.of_nat (length tab))
    with (K + Z.of_nat n * Z.of_nat (length tab) + Z.of_nat (length tab)) by lia.
Qed.

(** C8. However many starts (n) after an interrupted write are themselves
    cut short at any flash operation, as long as none of them left both
    pages marked valid and a page has room for n + 2 values of every
    variable of the table: the next EE_Init returns a status of the flash,
    never a missing or a full page, and if that is success, one page is
    valid and the other empty, every variable of the table reads as before
    the write, and the written one as before or with the new value. *)
Theorem ee_init_recovery tab W D p s n s' :
  stable p (ee_flash s) -> Forall is_addr tab ->
  2 + (Z.of_nat n + 2) * Z.of_nat (length tab) <= 4096 ->
  W ∈ tab -> is_u16 D ->
  (forall k, (1 <= k <= n)%nat ->
     ~ both_valid (ee_flash (ee_starts tab k (EE_WriteVariable tab W D s).2))) ->
  s' = ee_starts tab n (EE_WriteVariable tab W D s).2 ->
  1 <= (EE_Init tab s').1 <= 9 /\
  ((EE_Init tab s').1 = FLASH_COMPLETE -> recovered tab W D (ee_flash s) (ee_flash (EE_Init tab s').2)).
Proof.
  intros Hst Htab Hlen HW HD Hboth ->. pose proof (proj1 (list.Forall_forall _ _) Htab) as Hin.
  destruct (write_variable_spec tab W D p s Hst Htab ltac:(lia) (Hin W HW) HD) as (_ & Hint & _).
  pose proof (starts_interrupted tab W D p _ _ _ n Hst Htab Hint ltac:(lia) Hboth) as Hi.
  eapply init_recovers in Hi as ([Hr _] & _ & Hok); [by split|done..|lia].
Qed.

(** With both pages marked valid, which a recovery interrupted between
    marking the new page and erasing the old one leaves, a successful
    EE_Init formats the EEPROM: no variable keeps a value. *)
Theorem ee_init_both_valid_formats tab s :
  both_valid (ee_flash s) -> (EE_Init tab s).1 = FLASH_COMPLETE ->
  forall w, w <> 0xFFFF -> ee_lookup (ee_flash (EE_Init tab s).2) w = None.
Proof.
  intros [H0 H1]. assert (HI : EE_Init tab s = EE_Format s).
  { rewrite <- (ok_then_done EE_Format). unfold EE_Init.
    change (rd16 (ee_flash s) PAGE0_BASE_ADDRESS) with (status (ee_flash s) 0).
    change (rd16 (ee_flash s) PAGE1_BASE_ADDRESS) with (status (ee_flash s) 1). by rewrite H0, H1. }
  rewrite HI. intros Hc w Hw. destruct (format_spec s Hc) as [Hst Hn].
  rewrite (ee_lookup_page _ 0 _ Hst). by apply Hn.
Qed.

(** When the page is full, a successful write drops every variable that is
    not in the table. *)
Lemma full_write_drops tab W D p s w :
  stable p (ee_flash s) -> page_wf (ee_flash s) p 4096 ->
  Forall is_addr tab -> 2 + Z.of_nat (length tab) <= 4096 -> is_addr W -> is_u16 D ->
  (EE_WriteVariable tab W D s).1 = FLASH_COMPLETE ->
  w <> 0xFFFF -> w <> W -> w ∉ tab ->
  ee_lookup (ee_flash (EE_WriteVariable tab W D s).2) w = None.
Proof.
  intros Hst Hwf Htab Hlen HW HD. pose proof Hst as [Hp Hv He _].
  assert (Hfind : EE_FindValidPage WRITE_IN_VALID_PAGE (ee_flash s) = p).
  { rewrite (find_write _ p), decide_False; rewrite ?(status_empty _ _ He); done. }
  unfold EE_WriteVariable. rewrite (verify_write_full s p W D) by (try done; by rewrite Hv).
  cbn [Z.eqb PAGE_FULL Pos.eqb]. intros Hc Hf HwW Hwt.
  destruct (page_transfer_spec tab W D p (page_read (ee_flash s) p) (fun w _ => vars tab W w) s)
    as (_ & _ & Hok); [done|done|done|done|done|done|by left|by right|].
  destruct (Hok Hc) as (Hst' & Hcomp & _). rewrite (ee_lookup_page _ _ _ Hst').
  destruct (Hcomp w Hf) as [Hal _].
  destruct (page_read _ _ w) as [v|]; [|done]. by destruct (Hal v eq_refl).
Qed.
End Theorems.

(** ** Witnesses: a freshly formatted flash, and a full page *)

Definition blank_sim (l : list fault) : ee_state flash_sim := mkEE (FlashSim (fun _ => 255) l) 0.
Definition blank_mem : ee_state flash_mem := mkEE (FlashMem (fun _ => 255)) 0.

(** Page 0 valid, every slot holding 0x0707 for variable 0x0707; page 1 empty. *)
Definition full_bytes (x : Z) : Z :=
  if decide (0x08004000 <= x < 0x08008000) then if x <? 0x08004004 then 0 else 7 else 255.
Definition full_sim (l : list fault) : ee_state flash_sim := mkEE (FlashSim full_bytes l) 0.

Definition full_mem : ee_state flash_mem := mkEE (FlashMem full_bytes) 0.

(** Any flash with these contents. *)
Section Full.
Context {F : Type} `{Flash F} (f : F) (Hf : forall x, flash_byte f x = u8 (full_bytes x)).

Lemma full_hw p j :
  is_page p -> 0 <= j < 8192 ->
  hw f p j = if decide (p = 0) then if decide (j < 2) then 0 else 0x0707 else 0xFFFF.
Proof using Hf.
  intros Hp Hj. unfold hw, rd16, page_base, EEPROM_START_ADDRESS, PAGE_SIZE.
  rewrite !Hf. unfold full_bytes.
  destruct Hp as [-> | ->].
  - rewrite !decide_True by lia.
    case_decide.
    + by rewrite !(proj2 (Z.ltb_lt _ _)) by lia.
    + by rewrite !(proj2 (Z.ltb_ge _ _)) by lia.
  - by rewrite !decide_False by lia.
Qed.

Lemma full_page_wf : page_wf f 0 4096.
Proof using Hf.
  split; [lia| |lia]. intros i Hi [Hb _]. revert Hb. unfold sdata.
  rewrite full_hw by (lia || by left). rewrite decide_True, decide_False by lia. done.
Qed.

Lemma full_page_stable : stable 0 f.
Proof using Hf.
  split; [by left| | |exists 4096; exact full_page_wf].
  - unfold status. by rewrite full_hw by (lia || by left).
  - intros j Hj. by rewrite full_hw by (lia || by right).
Qed.
End Full.

Lemma full_stable l : stable 0 (ee_flash (full_sim l)).
Proof. by apply full_page_stable. Qed.

Lemma full_mem_stable : stable 0 (ee_flash full_mem) /\ page_wf (ee_flash full_mem) 0 4096.
Proof. by split; [apply full_page_stable|apply full_page_wf]. Qed.

Lemma blank_mem_formats : (EE_Format blank_mem).1 = FLASH_COMPLETE.
Proof. vm_compute. reflexivity. Qed.

Lemma blank_mem_stable : stable 0 (ee_flash (EE_Format blank_mem).2).
Proof. exact (proj1 (format_spec blank_mem blank_mem_formats)). Qed.

Lemma blank_mem_represents : represents [1000; 1001; 2000] ∅ (ee_flash (EE_Format blank_mem).2).
Proof.
  exists 0. split; [apply blank_mem_stable|]. intros w Hw. rewrite lookup_empty.
  assert (Hf : w <> 0xFFFF) by (set_unfold; lia).
  exact (proj2 (format_spec blank_mem blank_mem_formats) w Hf).
Qed.

Lemma table_ok : Forall is_addr [1000; 1001; 2000].
Proof. repeat constructor; lia. Qed.

Lemma ee_writes_refine_map_witness :
  let s := (EE_Format blank_mem).2 in
  let ws := [(1000, 7); (2000, 8); (1000, 9)] in
  (ee_writes [1000; 1001; 2000] ws s).1 = FLASH_COMPLETE /\
  ee_lookup (ee_flash (ee_writes [1000; 1001; 2000] ws s).2) 1000 = Some 9.
Proof.
  assert (Hin : 1000 ∈ [1000; 1001; 2000]) by (by left).
  assert (Hws : Forall (fun '(va, d) => va ∈ [1000; 1001; 2000] /\ is_u16 d)
                  [(1000, 7); (2000, 8); (1000, 9)]).
  { repeat constructor; try lia; repeat (try (by left); right). }
  destruct (ee_writes_refine_map [1000; 1001; 2000] [(1000, 7); (2000, 8); (1000, 9)] ∅
    (EE_Format blank_mem).2 flash_mem_reliable blank_mem_represents table_ok ltac:(simpl; lia) Hws)
    as [Hc Hr].
  assert (Hm : map_writes [(1000, 7); (2000, 8); (1000, 9)] ∅ !! 1000 = Some 9) by reflexivity.
  exact (conj Hc (eq_trans (Hr 1000 Hin) Hm)).
Defined.

(** The page is full; programming the mark of the new page, the new value and
    the value of 1001 succeed, and the next operation fails. *)
Definition crash_script : list fault := [NoFault; NoFault; NoFault; FailAfter].

Definition table2 : list Z := [0x0707; 2000].

Lemma table2_ok : Forall is_addr table2.
Proof. repeat constructor; lia. Qed.

Lemma table2_in : 2000 ∈ table2 /\ 0x0707 ∈ table2.
Proof. split; [right; left|left]. Qed.

Lemma table2_len : 2 + 2 * Z.of_nat (length table2) <= 4096.
Proof. simpl. lia. Qed.

Lemma five_u16 : is_u16 5.
Proof. done. Qed.

Lemma crash_init_complete :
  (EE_Init table2 (EE_WriteVariable table2 2000 5 (full_sim crash_script)).2).1 = FLASH_COMPLETE.
Proof. vm_compute. reflexivity. Qed.

Lemma ee_write_crash_safe_witness :
  (EE_WriteVariable table2 2000 5 (full_sim crash_script)).1 = 8 /\
  forall w, w ∈ table2 ->
    ee_lookup (ee_flash (EE_Init table2 (EE_WriteVariable table2 2000 5 (full_sim crash_script)).2).2) w
    = ee_lookup (ee_flash (full_sim crash_script)) w \/
    w = 2000 /\
    ee_lookup (ee_flash (EE_Init table2 (EE_WriteVariable table2 2000 5 (full_sim crash_script)).2).2) w
    = Some 5.
Proof.
  exact (conj (eq_refl : (EE_WriteVariable table2 2000 5 (full_sim crash_script)).1 = 8)
    (proj2 (ee_write_crash_safe table2 2000 5 0 (full_sim crash_script) _
      (full_stable _) table2_ok table2_len (proj1 table2_in) five_u16 eq_refl crash_init_complete))).
Defined.

(** The write and the first start are cut short, the second start succeeds. *)
Lemma ee_init_recovery_witness :
  let s0 := (EE_WriteVariable table2 2000 5 (full_sim (crash_script ++ [FailAfter]))).2 in
  (EE_Init table2 s0).1 = 8 /\
  recovered table2 2000 5 (ee_flash (full_sim (crash_script ++ [FailAfter])))
    (ee_flash (EE_Init table2 (EE_Init table2 s0).2).2).
Proof.
  split; [by vm_compute|].
  apply (ee_init_recovery table2 2000 5 0 (full_sim (crash_script ++ [FailAfter])) 1 _
    (full_stable _) table2_ok ltac:(simpl; lia) (proj1 table2_in) five_u16); [|reflexivity|by vm_compute].
  intros [|[|k]] Hk; [lia|intros [H0 H1]; by vm_compute in H0, H1|lia].
Defined.

(** The recovery of the interrupted write above is interrupted in turn, right
    after the new page was marked valid: the next [EE_Init] formats. *)
Definition twice_script : list fault :=
  [NoFault; NoFault; NoFault; FailAfter; NoFault; NoFault; NoFault; FailBefore].

Definition interrupted_twice : ee_state flash_sim :=
  (EE_Init table2 (EE_WriteVariable table2 2000 5 (full_sim twice_script)).2).2.

Lemma interrupted_twice_both : both_valid (ee_flash interrupted_twice).
Proof. split; vm_compute; reflexivity. Qed.

Lemma interrupted_twice_init : (EE_Init table2 interrupted_twice).1 = FLASH_COMPLETE.
Proof. vm_compute. reflexivity. Qed.

Lemma ee_init_both_valid_formats_witness :
  ee_lookup (ee_flash (EE_Init table2 interrupted_twice).2) 0x0707 = None.
Proof.
  exact (ee_init_both_valid_formats table2 interrupted_twice interrupted_twice_both
    interrupted_twice_init 0x0707 ltac:(discriminate)).
Defined.
