(* ===== verification/McTypes.v ===== *)
(** * McTypes: the data types shared by all components (src/datatypes.h)

    Enumerations are integers: their values arrive unchecked from the wire and
    from the EEPROM.  C structures are records, with the fields in the order of
    the source. *)
From S2P Require Import Prelude Float32.

(** [mc_state] *)
Definition MC_STATE_OFF : Z := 0.
Definition MC_STATE_DETECTING : Z := 1.
Definition MC_STATE_RUNNING : Z := 2.
Definition MC_STATE_FULL_BRAKE : Z := 3.

(** [mc_pwm_mode] *)
Definition PWM_MODE_NONSYNCHRONOUS_HISW : Z := 0.
Definition PWM_MODE_SYNCHRONOUS : Z := 1.
Definition PWM_MODE_BIPOLAR : Z := 2.

(** [mc_comm_mode] *)
Definition COMM_MODE_INTEGRATE : Z := 0.
Definition COMM_MODE_DELAY : Z := 1.

(** [mc_sensor_mode] *)
Definition SENSOR_MODE_SENSORLESS : Z := 0.
Definition SENSOR_MODE_SENSORED : Z := 1.
Definition SENSOR_MODE_HYBRID : Z := 2.

(** [mc_motor_type] *)
Definition MOTOR_TYPE_BLDC : Z := 0.
Definition MOTOR_TYPE_DC : Z := 1.
Definition MOTOR_TYPE_FOC : Z := 2.

(** [mc_fault_code] *)
Definition FAULT_CODE_NONE : Z := 0.
Definition FAULT_CODE_OVER_VOLTAGE : Z := 1.
Definition FAULT_CODE_UNDER_VOLTAGE : Z := 2.
Definition FAULT_CODE_DRV8302 : Z := 3.
Definition FAULT_CODE_ABS_OVER_CURRENT : Z := 4.
Definition FAULT_CODE_OVER_TEMP_FET : Z := 5.
Definition FAULT_CODE_OVER_TEMP_MOTOR : Z := 6.

(** [mc_control_mode] *)
Definition CONTROL_MODE_DUTY : Z := 0.
Definition CONTROL_MODE_SPEED : Z := 1.
Definition CONTROL_MODE_CURRENT : Z := 2.
Definition CONTROL_MODE_CURRENT_BRAKE : Z := 3.
Definition CONTROL_MODE_POS : Z := 4.
Definition CONTROL_MODE_NONE : Z := 5.

(** [disp_pos_mode] *)
Definition DISP_POS_MODE_NONE : Z := 0.
Definition DISP_POS_MODE_INDUCTANCE : Z := 1.
Definition DISP_POS_MODE_OBSERVER : Z := 2.
Definition DISP_POS_MODE_ENCODER : Z := 3.
Definition DISP_POS_MODE_PID_POS : Z := 4.
Definition DISP_POS_MODE_PID_POS_ERROR : Z := 5.
Definition DISP_POS_MODE_ENCODER_OBSERVER_ERROR : Z := 6.

(** [sensor_port_mode] *)
Definition SENSOR_PORT_MODE_HALL : Z := 0.
Definition SENSOR_PORT_MODE_ABI : Z := 1.
Definition SENSOR_PORT_MODE_AS5047_SPI : Z := 2.

(** [app_use] *)
Definition APP_NONE : Z := 0.
Definition APP_PPM : Z := 1.
Definition APP_ADC : Z := 2.
Definition APP_UART : Z := 3.
Definition APP_PPM_UART : Z := 4.
Definition APP_ADC_UART : Z := 5.
Definition APP_NUNCHUK : Z := 6.
Definition APP_NRF : Z := 7.
Definition APP_CUSTOM : Z := 8.

(** [COMM_PACKET_ID] *)
Definition COMM_FW_VERSION : Z := 0.
Definition COMM_JUMP_TO_BOOTLOADER : Z := 1.
Definition COMM_ERASE_NEW_APP : Z := 2.
Definition COMM_WRITE_NEW_APP_DATA : Z := 3.
Definition COMM_GET_VALUES : Z := 4.
Definition COMM_SET_DUTY : Z := 5.
Definition COMM_SET_CURRENT : Z := 6.
Definition COMM_SET_CURRENT_BRAKE : Z := 7.
Definition COMM_SET_RPM : Z := 8.
Definition COMM_SET_POS : Z := 9.
Definition COMM_SET_DETECT : Z := 10.
Definition COMM_SET_SERVO_POS : Z := 11.
Definition COMM_SET_MCCONF : Z := 12.
Definition COMM_GET_MCCONF : Z := 13.
Definition COMM_GET_MCCONF_DEFAULT : Z := 14.
Definition COMM_SET_APPCONF : Z := 15.
Definition COMM_GET_APPCONF : Z := 16.
Definition COMM_GET_APPCONF_DEFAULT : Z := 17.
Definition COMM_SAMPLE_PRINT : Z := 18.
Definition COMM_TERMINAL_CMD : Z := 19.
Definition COMM_PRINT : Z := 20.
Definition COMM_ROTOR_POSITION : Z := 21.
Definition COMM_EXPERIMENT_SAMPLE : Z := 22.
Definition COMM_DETECT_MOTOR_PARAM : Z := 23.
Definition COMM_DETECT_MOTOR_R_L : Z := 24.
Definition COMM_DETECT_MOTOR_FLUX_LINKAGE : Z := 25.
Definition COMM_DETECT_ENCODER : Z := 26.
Definition COMM_DETECT_HALL_FOC : Z := 27.
Definition COMM_REBOOT : Z := 28.
Definition COMM_ALIVE : Z := 29.
Definition COMM_GET_DECODED_PPM : Z := 30.
Definition COMM_GET_DECODED_ADC : Z := 31.
Definition COMM_GET_DECODED_CHUK : Z := 32.
Definition COMM_FORWARD_CAN : Z := 33.
Definition COMM_SET_CHUCK_DATA : Z := 34.
Definition COMM_CUSTOM_APP_DATA : Z := 35.

(** [CAN_PACKET_ID] *)
Definition CAN_PACKET_SET_DUTY : Z := 0.
Definition CAN_PACKET_SET_CURRENT : Z := 1.
Definition CAN_PACKET_SET_CURRENT_BRAKE : Z := 2.
Definition CAN_PACKET_SET_RPM : Z := 3.
Definition CAN_PACKET_SET_POS : Z := 4.
Definition CAN_PACKET_FILL_RX_BUFFER : Z := 5.
Definition CAN_PACKET_FILL_RX_BUFFER_LONG : Z := 6.
Definition CAN_PACKET_PROCESS_RX_BUFFER : Z := 7.
Definition CAN_PACKET_PROCESS_SHORT_BUFFER : Z := 8.
Definition CAN_PACKET_STATUS : Z := 9.

Record mc_configuration := mk_mc_configuration {
  pwm_mode : Z;
  comm_mode : Z;
  motor_type : Z;
  sensor_mode : Z;
  l_current_max : f32;
  l_current_min : f32;
  l_in_current_max : f32;
  l_in_current_min : f32;
  l_abs_current_max : f32;
  l_min_erpm : f32;
  l_max_erpm : f32;
  l_max_erpm_fbrake : f32;
  l_max_erpm_fbrake_cc : f32;
  l_min_vin : f32;
  l_max_vin : f32;
  l_battery_cut_start : f32;
  l_battery_cut_end : f32;
  l_slow_abs_current : bool;
  l_rpm_lim_neg_torque : bool;
  l_temp_fet_start : f32;
  l_temp_fet_end : f32;
  l_temp_motor_start : f32;
  l_temp_motor_end : f32;
  l_min_duty : f32;
  l_max_duty : f32;
  lo_current_max : f32;
  lo_current_min : f32;
  lo_in_current_max : f32;
  lo_in_current_min : f32;
  sl_min_erpm : f32;
  sl_min_erpm_cycle_int_limit : f32;
  sl_max_fullbreak_current_dir_change : f32;
  sl_cycle_int_limit : f32;
  sl_phase_advance_at_br : f32;
  sl_cycle_int_rpm_br : f32;
  sl_bemf_coupling_k : f32;
  hall_table : list Z;
  hall_sl_erpm : f32;
  foc_current_kp : f32;
  foc_current_ki : f32;
  foc_f_sw : f32;
  foc_dt_us : f32;
  foc_encoder_offset : f32;
  foc_encoder_inverted : bool;
  foc_encoder_ratio : f32;
  foc_motor_l : f32;
  foc_motor_r : f32;
  foc_motor_flux_linkage : f32;
  foc_observer_gain : f32;
  foc_pll_kp : f32;
  foc_pll_ki : f32;
  foc_duty_dowmramp_kp : f32;
  foc_duty_dowmramp_ki : f32;
  foc_openloop_rpm : f32;
  foc_sl_openloop_hyst : f32;
  foc_sl_openloop_time : f32;
  foc_sl_d_current_duty : f32;
  foc_sl_d_current_factor : f32;
  foc_sensor_mode : Z;
  foc_hall_table : list Z;
  foc_sl_erpm : f32;
  s_pid_kp : f32;
  s_pid_ki : f32;
  s_pid_kd : f32;
  s_pid_min_erpm : f32;
  p_pid_kp : f32;
  p_pid_ki : f32;
  p_pid_kd : f32;
  p_pid_ang_div : f32;
  cc_startup_boost_duty : f32;
  cc_min_current : f32;
  cc_gain : f32;
  cc_ramp_step_max : f32;
  m_fault_stop_time_ms : Z;
  m_duty_ramp_step : f32;
  m_duty_ramp_step_rpm_lim : f32;
  m_current_backoff_gain : f32;
  m_encoder_counts : Z;
  m_sensor_port_mode : Z
}.
#[export] Instance mc_configuration_eta : Eta mc_configuration := fun c => mk_mc_configuration
  (pwm_mode c) (comm_mode c) (motor_type c) (sensor_mode c) (l_current_max c)
  (l_current_min c) (l_in_current_max c) (l_in_current_min c)
  (l_abs_current_max c) (l_min_erpm c) (l_max_erpm c) (l_max_erpm_fbrake c)
  (l_max_erpm_fbrake_cc c) (l_min_vin c) (l_max_vin c) (l_battery_cut_start c)
  (l_battery_cut_end c) (l_slow_abs_current c) (l_rpm_lim_neg_torque c)
  (l_temp_fet_start c) (l_temp_fet_end c) (l_temp_motor_start c)
  (l_temp_motor_end c) (l_min_duty c) (l_max_duty c) (lo_current_max c)
  (lo_current_min c) (lo_in_current_max c) (lo_in_current_min c)
  (sl_min_erpm c) (sl_min_erpm_cycle_int_limit c)
  (sl_max_fullbreak_current_dir_change c) (sl_cycle_int_limit c)
  (sl_phase_advance_at_br c) (sl_cycle_int_rpm_br c) (sl_bemf_coupling_k c)
  (hall_table c) (hall_sl_erpm c) (foc_current_kp c) (foc_current_ki c)
  (foc_f_sw c) (foc_dt_us c) (foc_encoder_offset c) (foc_encoder_inverted c)
  (foc_encoder_ratio c) (foc_motor_l c) (foc_motor_r c)
  (foc_motor_flux_linkage c) (foc_observer_gain c) (foc_pll_kp c)
  (foc_pll_ki c) (foc_duty_dowmramp_kp c) (foc_duty_dowmramp_ki c)
  (foc_openloop_rpm c) (foc_sl_openloop_hyst c) (foc_sl_openloop_time c)
  (foc_sl_d_current_duty c) (foc_sl_d_current_factor c) (foc_sensor_mode c)
  (foc_hall_table c) (foc_sl_erpm c) (s_pid_kp c) (s_pid_ki c) (s_pid_kd c)
  (s_pid_min_erpm c) (p_pid_kp c) (p_pid_ki c) (p_pid_kd c) (p_pid_ang_div c)
  (cc_startup_boost_duty c) (cc_min_current c) (cc_gain c)
  (cc_ramp_step_max c) (m_fault_stop_time_ms c) (m_duty_ramp_step c)
  (m_duty_ramp_step_rpm_lim c) (m_current_backoff_gain c) (m_encoder_counts c)
  (m_sensor_port_mode c).

Record ppm_config := mk_ppm_config {
  ppm_ctrl_type : Z;
  ppm_pid_max_erpm : f32;
  ppm_hyst : f32;
  ppm_pulse_start : f32;
  ppm_pulse_end : f32;
  ppm_median_filter : bool;
  ppm_safe_start : bool;
  ppm_rpm_lim_start : f32;
  ppm_rpm_lim_end : f32;
  ppm_multi_esc : bool;
  ppm_tc : bool;
  ppm_tc_max_diff : f32
}.
#[export] Instance ppm_config_eta : Eta ppm_config := fun c => mk_ppm_config
  (ppm_ctrl_type c) (ppm_pid_max_erpm c) (ppm_hyst c) (ppm_pulse_start c)
  (ppm_pulse_end c) (ppm_median_filter c) (ppm_safe_start c)
  (ppm_rpm_lim_start c) (ppm_rpm_lim_end c) (ppm_multi_esc c) (ppm_tc c)
  (ppm_tc_max_diff c).

Record adc_config := mk_adc_config {
  adc_ctrl_type : Z;
  adc_hyst : f32;
  adc_voltage_start : f32;
  adc_voltage_end : f32;
  adc_use_filter : bool;
  adc_safe_start : bool;
  adc_cc_button_inverted : bool;
  adc_rev_button_inverted : bool;
  adc_voltage_inverted : bool;
  adc_rpm_lim_start : f32;
  adc_rpm_lim_end : f32;
  adc_multi_esc : bool;
  adc_tc : bool;
  adc_tc_max_diff : f32;
  adc_update_rate_hz : Z
}.
#[export] Instance adc_config_eta : Eta adc_config := fun c => mk_adc_config
  (adc_ctrl_type c) (adc_hyst c) (adc_voltage_start c) (adc_voltage_end c)
  (adc_use_filter c) (adc_safe_start c) (adc_cc_button_inverted c)
  (adc_rev_button_inverted c) (adc_voltage_inverted c) (adc_rpm_lim_start c)
  (adc_rpm_lim_end c) (adc_multi_esc c) (adc_tc c) (adc_tc_max_diff c)
  (adc_update_rate_hz c).

Record chuk_config := mk_chuk_config {
  chuk_ctrl_type : Z;
  chuk_hyst : f32;
  chuk_rpm_lim_start : f32;
  chuk_rpm_lim_end : f32;
  chuk_ramp_time_pos : f32;
  chuk_ramp_time_neg : f32;
  chuk_stick_erpm_per_s_in_cc : f32;
  chuk_multi_esc : bool;
  chuk_tc : bool;
  chuk_tc_max_diff : f32
}.
#[export] Instance chuk_config_eta : Eta chuk_config := fun c => mk_chuk_config
  (chuk_ctrl_type c) (chuk_hyst c) (chuk_rpm_lim_start c) (chuk_rpm_lim_end c)
  (chuk_ramp_time_pos c) (chuk_ramp_time_neg c)
  (chuk_stick_erpm_per_s_in_cc c) (chuk_multi_esc c) (chuk_tc c)
  (chuk_tc_max_diff c).

Record nrf_config := mk_nrf_config {
  nrf_speed : Z;
  nrf_power : Z;
  nrf_crc_type : Z;
  nrf_retry_delay : Z;
  nrf_retries : Z;
  nrf_channel : Z;
  nrf_address : list Z;
  nrf_send_crc_ack : bool
}.
#[export] Instance nrf_config_eta : Eta nrf_config := fun c => mk_nrf_config
  (nrf_speed c) (nrf_power c) (nrf_crc_type c) (nrf_retry_delay c)
  (nrf_retries c) (nrf_channel c) (nrf_address c) (nrf_send_crc_ack c).

Record app_configuration := mk_app_configuration {
  controller_id : Z;
  timeout_msec : Z;
  timeout_brake_current : f32;
  send_can_status : bool;
  send_can_status_rate_hz : Z;
  app_to_use : Z;
  app_ppm_conf : ppm_config;
  app_adc_conf : adc_config;
  app_uart_baudrate : Z;
  app_chuk_conf : chuk_config;
  app_nrf_conf : nrf_config
}.
#[export] Instance app_configuration_eta : Eta app_configuration := fun c => mk_app_configuration
  (controller_id c) (timeout_msec c) (timeout_brake_current c)
  (send_can_status c) (send_can_status_rate_hz c) (app_to_use c)
  (app_ppm_conf c) (app_adc_conf c) (app_uart_baudrate c) (app_chuk_conf c)
  (app_nrf_conf c).

Record fault_data := mk_fault_data {
  fd_fault : Z;
  fd_current : f32;
  fd_current_filtered : f32;
  fd_voltage : f32;
  fd_duty : f32;
  fd_rpm : f32;
  fd_tacho : Z;
  fd_cycles_running : Z;
  fd_tim_val_samp : Z;
  fd_tim_current_samp : Z;
  fd_tim_top : Z;
  fd_comm_step : Z;
  fd_temperature : f32
}.
#[export] Instance fault_data_eta : Eta fault_data := fun c => mk_fault_data
  (fd_fault c) (fd_current c) (fd_current_filtered c) (fd_voltage c)
  (fd_duty c) (fd_rpm c) (fd_tacho c) (fd_cycles_running c)
  (fd_tim_val_samp c) (fd_tim_current_samp c) (fd_tim_top c) (fd_comm_step c)
  (fd_temperature c).

Record chuck_data := mk_chuck_data {
  cd_js_x : Z;
  cd_js_y : Z;
  cd_acc_x : Z;
  cd_acc_y : Z;
  cd_acc_z : Z;
  cd_bt_c : bool;
  cd_bt_z : bool
}.
#[export] Instance chuck_data_eta : Eta chuck_data := fun c => mk_chuck_data
  (cd_js_x c) (cd_js_y c) (cd_acc_x c) (cd_acc_y c) (cd_acc_z c) (cd_bt_c c)
  (cd_bt_z c).

Record can_status_msg := mk_can_status_msg {
  csm_id : Z;
  csm_rx_time : Z;
  csm_rpm : f32;
  csm_current : f32;
  csm_duty : f32
}.
#[export] Instance can_status_msg_eta : Eta can_status_msg := fun c => mk_can_status_msg
  (csm_id c) (csm_rx_time c) (csm_rpm c) (csm_current c) (csm_duty c).

(** The values the C types of the integer fields allow. *)
Definition typed_bytes (n : nat) (l : list Z) : Prop := length l = n /\ Forall is_u8 l.
Definition is_i8 (z : Z) : Prop := -128 <= z < 128.

Definition mc_configuration_typed (c : mc_configuration) : Prop :=
  is_u8 (pwm_mode c) /\
  is_u8 (comm_mode c) /\
  is_u8 (motor_type c) /\
  is_u8 (sensor_mode c) /\
  length (hall_table c) = 8%nat /\ Forall is_i8 (hall_table c) /\
  is_u8 (foc_sensor_mode c) /\
  length (foc_hall_table c) = 8%nat /\ Forall is_u8 (foc_hall_table c) /\
  is_i32 (m_fault_stop_time_ms c) /\
  is_u32 (m_encoder_counts c) /\
  is_u8 (m_sensor_port_mode c).

Definition ppm_config_typed (c : ppm_config) : Prop :=
  is_u8 (ppm_ctrl_type c).

Definition adc_config_typed (c : adc_config) : Prop :=
  is_u8 (adc_ctrl_type c) /\
  is_u32 (adc_update_rate_hz c).

Definition chuk_config_typed (c : chuk_config) : Prop :=
  is_u8 (chuk_ctrl_type c).

Definition nrf_config_typed (c : nrf_config) : Prop :=
  is_u8 (nrf_speed c) /\
  is_u8 (nrf_power c) /\
  is_u8 (nrf_crc_type c) /\
  is_u8 (nrf_retry_delay c) /\
  is_u8 (nrf_retries c) /\
  is_u8 (nrf_channel c) /\
  length (nrf_address c) = 3%nat /\ Forall is_u8 (nrf_address c).

Definition app_configuration_typed (c : app_configuration) : Prop :=
  is_u8 (controller_id c) /\
  is_u32 (timeout_msec c) /\
  is_u32 (send_can_status_rate_hz c) /\
  is_u8 (app_to_use c) /\
  ppm_config_typed (app_ppm_conf c) /\
  adc_config_typed (app_adc_conf c) /\
  is_u32 (app_uart_baudrate c) /\
  chuk_config_typed (app_chuk_conf c) /\
  nrf_config_typed (app_nrf_conf c).
