(* ===== verification/ConfCodec.v ===== *)
(** * ConfCodec: the wire format of the configurations
    (src/commands.c: COMM_SET_MCCONF, COMM_GET_MCCONF, COMM_SET_APPCONF,
    COMM_GET_APPCONF)

    [mcconf_append] and [appconf_append] are the serialisers of the GET
    commands, [mcconf_get] and [appconf_get] the parsers of the SET commands,
    field by field in the order of the source.  The two are inverse up to the
    rounding of scaled numbers. *)
From S2P Require Import Prelude Float32 Buffer McTypes.

(** [(int32_t)(x * scale)] appended, and [(float)buffer_get_int32(...) / scale]. *)
Definition append_scaled (x scale : f32) : ST wstate unit :=
  buffer_append_int32 (f2i32 (x * scale)%f32).

Definition get_scaled (data : list Z) (scale : f32) : ST Z f32 :=
  v ← buffer_get_int32 data; mret (f_of_int v / scale)%f32.

(** A [bool] field: stored as 0 or 1, read as "not zero". *)
Definition put_bool (b : bool) : ST wstate unit := put8 (Z.b2z b).
Definition get_bool (data : list Z) : ST Z bool := v ← get8 data; mret (negb (v =? 0)).

(** [memcpy] from and to an array of [int8_t]. *)
Definition put_i8s (l : list Z) : ST wstate unit := put_bytes (map u8 l).
Definition get_i8s (data : list Z) (n : nat) : ST Z (list Z) :=
  l ← get_bytes data n; mret (map i8 l).

(** ** [mc_configuration] *)

Definition mcconf_append (c : mc_configuration) : ST wstate unit :=
  put8 (pwm_mode c);;
  put8 (comm_mode c);;
  put8 (motor_type c);;
  put8 (sensor_mode c);;
  append_scaled (l_current_max c) (f_of_int 1000);;
  append_scaled (l_current_min c) (f_of_int 1000);;
  append_scaled (l_in_current_max c) (f_of_int 1000);;
  append_scaled (l_in_current_min c) (f_of_int 1000);;
  append_scaled (l_abs_current_max c) (f_of_int 1000);;
  append_scaled (l_min_erpm c) (f_of_int 1000);;
  append_scaled (l_max_erpm c) (f_of_int 1000);;
  append_scaled (l_max_erpm_fbrake c) (f_of_int 1000);;
  append_scaled (l_max_erpm_fbrake_cc c) (f_of_int 1000);;
  append_scaled (l_min_vin c) (f_of_int 1000);;
  append_scaled (l_max_vin c) (f_of_int 1000);;
  buffer_append_float32 (l_battery_cut_start c) (f_of_int 1000);;
  buffer_append_float32 (l_battery_cut_end c) (f_of_int 1000);;
  put_bool (l_slow_abs_current c);;
  put_bool (l_rpm_lim_neg_torque c);;
  append_scaled (l_temp_fet_start c) (f_of_int 1000);;
  append_scaled (l_temp_fet_end c) (f_of_int 1000);;
  append_scaled (l_temp_motor_start c) (f_of_int 1000);;
  append_scaled (l_temp_motor_end c) (f_of_int 1000);;
  append_scaled (l_min_duty c) (f_of_int 1000000);;
  append_scaled (l_max_duty c) (f_of_int 1000000);;
  append_scaled (sl_min_erpm c) (f_of_int 1000);;
  append_scaled (sl_min_erpm_cycle_int_limit c) (f_of_int 1000);;
  append_scaled (sl_max_fullbreak_current_dir_change c) (f_of_int 1000);;
  append_scaled (sl_cycle_int_limit c) (f_of_int 1000);;
  append_scaled (sl_phase_advance_at_br c) (f_of_int 1000);;
  append_scaled (sl_cycle_int_rpm_br c) (f_of_int 1000);;
  append_scaled (sl_bemf_coupling_k c) (f_of_int 1000);;
  put_i8s (hall_table c);;
  append_scaled (hall_sl_erpm c) (f_of_int 1000);;
  buffer_append_float32 (foc_current_kp c) (f_of_int 100000);;
  buffer_append_float32 (foc_current_ki c) (f_of_int 100000);;
  buffer_append_float32 (foc_f_sw c) (f_of_int 1000);;
  buffer_append_float32 (foc_dt_us c) (f_of_int 1000000);;
  put_bool (foc_encoder_inverted c);;
  buffer_append_float32 (foc_encoder_offset c) (f_of_int 1000);;
  buffer_append_float32 (foc_encoder_ratio c) (f_of_int 1000);;
  put8 (foc_sensor_mode c);;
  buffer_append_float32 (foc_pll_kp c) (f_of_int 1000);;
  buffer_append_float32 (foc_pll_ki c) (f_of_int 1000);;
  buffer_append_float32 (foc_motor_l c) (f_of_int 100000000);;
  buffer_append_float32 (foc_motor_r c) (f_of_int 100000);;
  buffer_append_float32 (foc_motor_flux_linkage c) (f_of_int 100000);;
  buffer_append_float32 (foc_observer_gain c) (f_of_int 1);;
  buffer_append_float32 (foc_duty_dowmramp_kp c) (f_of_int 1000);;
  buffer_append_float32 (foc_duty_dowmramp_ki c) (f_of_int 1000);;
  buffer_append_float32 (foc_openloop_rpm c) (f_of_int 1000);;
  buffer_append_float32 (foc_sl_openloop_hyst c) (f_of_int 1000);;
  buffer_append_float32 (foc_sl_openloop_time c) (f_of_int 1000);;
  buffer_append_float32 (foc_sl_d_current_duty c) (f_of_int 1000);;
  buffer_append_float32 (foc_sl_d_current_factor c) (f_of_int 1000);;
  put_bytes (foc_hall_table c);;
  append_scaled (foc_sl_erpm c) (f_of_int 1000);;
  append_scaled (s_pid_kp c) (f_of_int 1000000);;
  append_scaled (s_pid_ki c) (f_of_int 1000000);;
  append_scaled (s_pid_kd c) (f_of_int 1000000);;
  append_scaled (s_pid_min_erpm c) (f_of_int 1000);;
  append_scaled (p_pid_kp c) (f_of_int 1000000);;
  append_scaled (p_pid_ki c) (f_of_int 1000000);;
  append_scaled (p_pid_kd c) (f_of_int 1000000);;
  buffer_append_float32 (p_pid_ang_div c) (f_of_int 100000);;
  append_scaled (cc_startup_boost_duty c) (f_of_int 1000000);;
  append_scaled (cc_min_current c) (f_of_int 1000);;
  append_scaled (cc_gain c) (f_of_int 1000000);;
  append_scaled (cc_ramp_step_max c) (f_of_int 1000000);;
  buffer_append_int32 (m_fault_stop_time_ms c);;
  buffer_append_float32 (m_duty_ramp_step c) (f_of_int 1000000);;
  buffer_append_float32 (m_duty_ramp_step_rpm_lim c) (f_of_int 1000000);;
  buffer_append_float32 (m_current_backoff_gain c) (f_of_int 1000000);;
  buffer_append_uint32 (m_encoder_counts c);;
  put8 (m_sensor_port_mode c).

Definition mcconf_get (data : list Z) : ST Z mc_configuration :=
  v_pwm_mode ← get8 data;
  v_comm_mode ← get8 data;
  v_motor_type ← get8 data;
  v_sensor_mode ← get8 data;
  v_l_current_max ← buffer_get_float32 data (f_of_int 1000);
  v_l_current_min ← buffer_get_float32 data (f_of_int 1000);
  v_l_in_current_max ← buffer_get_float32 data (f_of_int 1000);
  v_l_in_current_min ← buffer_get_float32 data (f_of_int 1000);
  v_l_abs_current_max ← buffer_get_float32 data (f_of_int 1000);
  v_l_min_erpm ← buffer_get_float32 data (f_of_int 1000);
  v_l_max_erpm ← buffer_get_float32 data (f_of_int 1000);
  v_l_max_erpm_fbrake ← buffer_get_float32 data (f_of_int 1000);
  v_l_max_erpm_fbrake_cc ← buffer_get_float32 data (f_of_int 1000);
  v_l_min_vin ← buffer_get_float32 data (f_of_int 1000);
  v_l_max_vin ← buffer_get_float32 data (f_of_int 1000);
  v_l_battery_cut_start ← buffer_get_float32 data (f_of_int 1000);
  v_l_battery_cut_end ← buffer_get_float32 data (f_of_int 1000);
  v_l_slow_abs_current ← get_bool data;
  v_l_rpm_lim_neg_torque ← get_bool data;
  v_l_temp_fet_start ← buffer_get_float32 data (f_of_int 1000);
  v_l_temp_fet_end ← buffer_get_float32 data (f_of_int 1000);
  v_l_temp_motor_start ← buffer_get_float32 data (f_of_int 1000);
  v_l_temp_motor_end ← buffer_get_float32 data (f_of_int 1000);
  v_l_min_duty ← buffer_get_float32 data (f_of_int 1000000);
  v_l_max_duty ← buffer_get_float32 data (f_of_int 1000000);
  v_sl_min_erpm ← get_scaled data (f_of_int 1000);
  v_sl_min_erpm_cycle_int_limit ← get_scaled data (f_of_int 1000);
  v_sl_max_fullbreak_current_dir_change ← get_scaled data (f_of_int 1000);
  v_sl_cycle_int_limit ← get_scaled data (f_of_int 1000);
  v_sl_phase_advance_at_br ← get_scaled data (f_of_int 1000);
  v_sl_cycle_int_rpm_br ← get_scaled data (f_of_int 1000);
  v_sl_bemf_coupling_k ← get_scaled data (f_of_int 1000);
  v_hall_table ← get_i8s data 8;
  v_hall_sl_erpm ← get_scaled data (f_of_int 1000);
  v_foc_current_kp ← buffer_get_float32 data (f_of_int 100000);
  v_foc_current_ki ← buffer_get_float32 data (f_of_int 100000);
  v_foc_f_sw ← buffer_get_float32 data (f_of_int 1000);
  v_foc_dt_us ← buffer_get_float32 data (f_of_int 1000000);
  v_foc_encoder_inverted ← get_bool data;
  v_foc_encoder_offset ← buffer_get_float32 data (f_of_int 1000);
  v_foc_encoder_ratio ← buffer_get_float32 data (f_of_int 1000);
  v_foc_sensor_mode ← get8 data;
  v_foc_pll_kp ← buffer_get_float32 data (f_of_int 1000);
  v_foc_pll_ki ← buffer_get_float32 data (f_of_int 1000);
  v_foc_motor_l ← buffer_get_float32 data (f_of_int 100000000);
  v_foc_motor_r ← buffer_get_float32 data (f_of_int 100000);
  v_foc_motor_flux_linkage ← buffer_get_float32 data (f_of_int 100000);
  v_foc_observer_gain ← buffer_get_float32 data (f_of_int 1);
  v_foc_duty_dowmramp_kp ← buffer_get_float32 data (f_of_int 1000);
  v_foc_duty_dowmramp_ki ← buffer_get_float32 data (f_of_int 1000);
  v_foc_openloop_rpm ← buffer_get_float32 data (f_of_int 1000);
  v_foc_sl_openloop_hyst ← buffer_get_float32 data (f_of_int 1000);
  v_foc_sl_openloop_time ← buffer_get_float32 data (f_of_int 1000);
  v_foc_sl_d_current_duty ← buffer_get_float32 data (f_of_int 1000);
  v_foc_sl_d_current_factor ← buffer_get_float32 data (f_of_int 1000);
  v_foc_hall_table ← get_bytes data 8;
  v_foc_sl_erpm ← get_scaled data (f_of_int 1000);
  v_s_pid_kp ← get_scaled data (f_of_int 1000000);
  v_s_pid_ki ← get_scaled data (f_of_int 1000000);
  v_s_pid_kd ← get_scaled data (f_of_int 1000000);
  v_s_pid_min_erpm ← get_scaled data (f_of_int 1000);
  v_p_pid_kp ← get_scaled data (f_of_int 1000000);
  v_p_pid_ki ← get_scaled data (f_of_int 1000000);
  v_p_pid_kd ← get_scaled data (f_of_int 1000000);
  v_p_pid_ang_div ← get_scaled data (f_of_int 100000);
  v_cc_startup_boost_duty ← get_scaled data (f_of_int 1000000);
  v_cc_min_current ← get_scaled data (f_of_int 1000);
  v_cc_gain ← get_scaled data (f_of_int 1000000);
  v_cc_ramp_step_max ← buffer_get_float32 data (f_of_int 1000000);
  v_m_fault_stop_time_ms ← buffer_get_int32 data;
  v_m_duty_ramp_step ← buffer_get_float32 data (f_of_int 1000000);
  v_m_duty_ramp_step_rpm_lim ← buffer_get_float32 data (f_of_int 1000000);
  v_m_current_backoff_gain ← buffer_get_float32 data (f_of_int 1000000);
  v_m_encoder_counts ← buffer_get_uint32 data;
  v_m_sensor_port_mode ← get8 data;
  mret {|
    pwm_mode := v_pwm_mode;
    comm_mode := v_comm_mode;
    motor_type := v_motor_type;
    sensor_mode := v_sensor_mode;
    l_current_max := v_l_current_max;
    l_current_min := v_l_current_min;
    l_in_current_max := v_l_in_current_max;
    l_in_current_min := v_l_in_current_min;
    l_abs_current_max := v_l_abs_current_max;
    l_min_erpm := v_l_min_erpm;
    l_max_erpm := v_l_max_erpm;
    l_max_erpm_fbrake := v_l_max_erpm_fbrake;
    l_max_erpm_fbrake_cc := v_l_max_erpm_fbrake_cc;
    l_min_vin := v_l_min_vin;
    l_max_vin := v_l_max_vin;
    l_battery_cut_start := v_l_battery_cut_start;
    l_battery_cut_end := v_l_battery_cut_end;
    l_slow_abs_current := v_l_slow_abs_current;
    l_rpm_lim_neg_torque := v_l_rpm_lim_neg_torque;
    l_temp_fet_start := v_l_temp_fet_start;
    l_temp_fet_end := v_l_temp_fet_end;
    l_temp_motor_start := v_l_temp_motor_start;
    l_temp_motor_end := v_l_temp_motor_end;
    l_min_duty := v_l_min_duty;
    l_max_duty := v_l_max_duty;
    lo_current_max := v_l_current_max;
    lo_current_min := v_l_current_min;
    lo_in_current_max := v_l_in_current_max;
    lo_in_current_min := v_l_in_current_min;
    sl_min_erpm := v_sl_min_erpm;
    sl_min_erpm_cycle_int_limit := v_sl_min_erpm_cycle_int_limit;
    sl_max_fullbreak_current_dir_change := v_sl_max_fullbreak_current_dir_change;
    sl_cycle_int_limit := v_sl_cycle_int_limit;
    sl_phase_advance_at_br := v_sl_phase_advance_at_br;
    sl_cycle_int_rpm_br := v_sl_cycle_int_rpm_br;
    sl_bemf_coupling_k := v_sl_bemf_coupling_k;
    hall_table := v_hall_table;
    hall_sl_erpm := v_hall_sl_erpm;
    foc_current_kp := v_foc_current_kp;
    foc_current_ki := v_foc_current_ki;
    foc_f_sw := v_foc_f_sw;
    foc_dt_us := v_foc_dt_us;
    foc_encoder_offset := v_foc_encoder_offset;
    foc_encoder_inverted := v_foc_encoder_inverted;
    foc_encoder_ratio := v_foc_encoder_ratio;
    foc_motor_l := v_foc_motor_l;
    foc_motor_r := v_foc_motor_r;
    foc_motor_flux_linkage := v_foc_motor_flux_linkage;
    foc_observer_gain := v_foc_observer_gain;
    foc_pll_kp := v_foc_pll_kp;
    foc_pll_ki := v_foc_pll_ki;
    foc_duty_dowmramp_kp := v_foc_duty_dowmramp_kp;
    foc_duty_dowmramp_ki := v_foc_duty_dowmramp_ki;
    foc_openloop_rpm := v_foc_openloop_rpm;
    foc_sl_openloop_hyst := v_foc_sl_openloop_hyst;
    foc_sl_openloop_time := v_foc_sl_openloop_time;
    foc_sl_d_current_duty := v_foc_sl_d_current_duty;
    foc_sl_d_current_factor := v_foc_sl_d_current_factor;
    foc_sensor_mode := v_foc_sensor_mode;
    foc_hall_table := v_foc_hall_table;
    foc_sl_erpm := v_foc_sl_erpm;
    s_pid_kp := v_s_pid_kp;
    s_pid_ki := v_s_pid_ki;
    s_pid_kd := v_s_pid_kd;
    s_pid_min_erpm := v_s_pid_min_erpm;
    p_pid_kp := v_p_pid_kp;
    p_pid_ki := v_p_pid_ki;
    p_pid_kd := v_p_pid_kd;
    p_pid_ang_div := v_p_pid_ang_div;
    cc_startup_boost_duty := v_cc_startup_boost_duty;
    cc_min_current := v_cc_min_current;
    cc_gain := v_cc_gain;
    cc_ramp_step_max := v_cc_ramp_step_max;
    m_fault_stop_time_ms := v_m_fault_stop_time_ms;
    m_duty_ramp_step := v_m_duty_ramp_step;
    m_duty_ramp_step_rpm_lim := v_m_duty_ramp_step_rpm_lim;
    m_current_backoff_gain := v_m_current_backoff_gain;
    m_encoder_counts := v_m_encoder_counts;
    m_sensor_port_mode := v_m_sensor_port_mode |}.

(** What the serialiser writes, and what a configuration becomes on the way. *)
Definition mcconf_wire (c : mc_configuration) : list Z :=
  [u8 (pwm_mode c)] ++
  [u8 (comm_mode c)] ++
  [u8 (motor_type c)] ++
  [u8 (sensor_mode c)] ++
  be32 (f2i32 (l_current_max c * (f_of_int 1000))%f32) ++
  be32 (f2i32 (l_current_min c * (f_of_int 1000))%f32) ++
  be32 (f2i32 (l_in_current_max c * (f_of_int 1000))%f32) ++
  be32 (f2i32 (l_in_current_min c * (f_of_int 1000))%f32) ++
  be32 (f2i32 (l_abs_current_max c * (f_of_int 1000))%f32) ++
  be32 (f2i32 (l_min_erpm c * (f_of_int 1000))%f32) ++
  be32 (f2i32 (l_max_erpm c * (f_of_int 1000))%f32) ++
  be32 (f2i32 (l_max_erpm_fbrake c * (f_of_int 1000))%f32) ++
  be32 (f2i32 (l_max_erpm_fbrake_cc c * (f_of_int 1000))%f32) ++
  be32 (f2i32 (l_min_vin c * (f_of_int 1000))%f32) ++
  be32 (f2i32 (l_max_vin c * (f_of_int 1000))%f32) ++
  be32 (f2i32 (l_battery_cut_start c * (f_of_int 1000))%f32) ++
  be32 (f2i32 (l_battery_cut_end c * (f_of_int 1000))%f32) ++
  [Z.b2z (l_slow_abs_current c)] ++
  [Z.b2z (l_rpm_lim_neg_torque c)] ++
  be32 (f2i32 (l_temp_fet_start c * (f_of_int 1000))%f32) ++
  be32 (f2i32 (l_temp_fet_end c * (f_of_int 1000))%f32) ++
  be32 (f2i32 (l_temp_motor_start c * (f_of_int 1000))%f32) ++
  be32 (f2i32 (l_temp_motor_end c * (f_of_int 1000))%f32) ++
  be32 (f2i32 (l_min_duty c * (f_of_int 1000000))%f32) ++
  be32 (f2i32 (l_max_duty c * (f_of_int 1000000))%f32) ++
  be32 (f2i32 (sl_min_erpm c * (f_of_int 1000))%f32) ++
  be32 (f2i32 (sl_min_erpm_cycle_int_limit c * (f_of_int 1000))%f32) ++
  be32 (f2i32 (sl_max_fullbreak_current_dir_change c * (f_of_int 1000))%f32) ++
  be32 (f2i32 (sl_cycle_int_limit c * (f_of_int 1000))%f32) ++
  be32 (f2i32 (sl_phase_advance_at_br c * (f_of_int 1000))%f32) ++
  be32 (f2i32 (sl_cycle_int_rpm_br c * (f_of_int 1000))%f32) ++
  be32 (f2i32 (sl_bemf_coupling_k c * (f_of_int 1000))%f32) ++
  map u8 (hall_table c) ++
  be32 (f2i32 (hall_sl_erpm c * (f_of_int 1000))%f32) ++
  be32 (f2i32 (foc_current_kp c * (f_of_int 100000))%f32) ++
  be32 (f2i32 (foc_current_ki c * (f_of_int 100000))%f32) ++
  be32 (f2i32 (foc_f_sw c * (f_of_int 1000))%f32) ++
  be32 (f2i32 (foc_dt_us c * (f_of_int 1000000))%f32) ++
  [Z.b2z (foc_encoder_inverted c)] ++
  be32 (f2i32 (foc_encoder_offset c * (f_of_int 1000))%f32) ++
  be32 (f2i32 (foc_encoder_ratio c * (f_of_int 1000))%f32) ++
  [u8 (foc_sensor_mode c)] ++
  be32 (f2i32 (foc_pll_kp c * (f_of_int 1000))%f32) ++
  be32 (f2i32 (foc_pll_ki c * (f_of_int 1000))%f32) ++
  be32 (f2i32 (foc_motor_l c * (f_of_int 100000000))%f32) ++
  be32 (f2i32 (foc_motor_r c * (f_of_int 100000))%f32) ++
  be32 (f2i32 (foc_motor_flux_linkage c * (f_of_int 100000))%f32) ++
  be32 (f2i32 (foc_observer_gain c * (f_of_int 1))%f32) ++
  be32 (f2i32 (foc_duty_dowmramp_kp c * (f_of_int 1000))%f32) ++
  be32 (f2i32 (foc_duty_dowmramp_ki c * (f_of_int 1000))%f32) ++
  be32 (f2i32 (foc_openloop_rpm c * (f_of_int 1000))%f32) ++
  be32 (f2i32 (foc_sl_openloop_hyst c * (f_of_int 1000))%f32) ++
  be32 (f2i32 (foc_sl_openloop_time c * (f_of_int 1000))%f32) ++
  be32 (f2i32 (foc_sl_d_current_duty c * (f_of_int 1000))%f32) ++
  be32 (f2i32 (foc_sl_d_current_factor c * (f_of_int 1000))%f32) ++
  (foc_hall_table c) ++
  be32 (f2i32 (foc_sl_erpm c * (f_of_int 1000))%f32) ++
  be32 (f2i32 (s_pid_kp c * (f_of_int 1000000))%f32) ++
  be32 (f2i32 (s_pid_ki c * (f_of_int 1000000))%f32) ++
  be32 (f2i32 (s_pid_kd c * (f_of_int 1000000))%f32) ++
  be32 (f2i32 (s_pid_min_erpm c * (f_of_int 1000))%f32) ++
  be32 (f2i32 (p_pid_kp c * (f_of_int 1000000))%f32) ++
  be32 (f2i32 (p_pid_ki c * (f_of_int 1000000))%f32) ++
  be32 (f2i32 (p_pid_kd c * (f_of_int 1000000))%f32) ++
  be32 (f2i32 (p_pid_ang_div c * (f_of_int 100000))%f32) ++
  be32 (f2i32 (cc_startup_boost_duty c * (f_of_int 1000000))%f32) ++
  be32 (f2i32 (cc_min_current c * (f_of_int 1000))%f32) ++
  be32 (f2i32 (cc_gain c * (f_of_int 1000000))%f32) ++
  be32 (f2i32 (cc_ramp_step_max c * (f_of_int 1000000))%f32) ++
  be32 (m_fault_stop_time_ms c) ++
  be32 (f2i32 (m_duty_ramp_step c * (f_of_int 1000000))%f32) ++
  be32 (f2i32 (m_duty_ramp_step_rpm_lim c * (f_of_int 1000000))%f32) ++
  be32 (f2i32 (m_current_backoff_gain c * (f_of_int 1000000))%f32) ++
  be32 (m_encoder_counts c) ++
  [u8 (m_sensor_port_mode c)].

Definition mcconf_quant (c : mc_configuration) : mc_configuration := {|
  pwm_mode := pwm_mode c;
  comm_mode := comm_mode c;
  motor_type := motor_type c;
  sensor_mode := sensor_mode c;
  l_current_max := quant32 (f_of_int 1000) (l_current_max c);
  l_current_min := quant32 (f_of_int 1000) (l_current_min c);
  l_in_current_max := quant32 (f_of_int 1000) (l_in_current_max c);
  l_in_current_min := quant32 (f_of_int 1000) (l_in_current_min c);
  l_abs_current_max := quant32 (f_of_int 1000) (l_abs_current_max c);
  l_min_erpm := quant32 (f_of_int 1000) (l_min_erpm c);
  l_max_erpm := quant32 (f_of_int 1000) (l_max_erpm c);
  l_max_erpm_fbrake := quant32 (f_of_int 1000) (l_max_erpm_fbrake c);
  l_max_erpm_fbrake_cc := quant32 (f_of_int 1000) (l_max_erpm_fbrake_cc c);
  l_min_vin := quant32 (f_of_int 1000) (l_min_vin c);
  l_max_vin := quant32 (f_of_int 1000) (l_max_vin c);
  l_battery_cut_start := quant32 (f_of_int 1000) (l_battery_cut_start c);
  l_battery_cut_end := quant32 (f_of_int 1000) (l_battery_cut_end c);
  l_slow_abs_current := l_slow_abs_current c;
  l_rpm_lim_neg_torque := l_rpm_lim_neg_torque c;
  l_temp_fet_start := quant32 (f_of_int 1000) (l_temp_fet_start c);
  l_temp_fet_end := quant32 (f_of_int 1000) (l_temp_fet_end c);
  l_temp_motor_start := quant32 (f_of_int 1000) (l_temp_motor_start c);
  l_temp_motor_end := quant32 (f_of_int 1000) (l_temp_motor_end c);
  l_min_duty := quant32 (f_of_int 1000000) (l_min_duty c);
  l_max_duty := quant32 (f_of_int 1000000) (l_max_duty c);
  lo_current_max := quant32 (f_of_int 1000) (l_current_max c);
  lo_current_min := quant32 (f_of_int 1000) (l_current_min c);
  lo_in_current_max := quant32 (f_of_int 1000) (l_in_current_max c);
  lo_in_current_min := quant32 (f_of_int 1000) (l_in_current_min c);
  sl_min_erpm := quant32 (f_of_int 1000) (sl_min_erpm c);
  sl_min_erpm_cycle_int_limit := quant32 (f_of_int 1000) (sl_min_erpm_cycle_int_limit c);
  sl_max_fullbreak_current_dir_change := quant32 (f_of_int 1000) (sl_max_fullbreak_current_dir_change c);
  sl_cycle_int_limit := quant32 (f_of_int 1000) (sl_cycle_int_limit c);
  sl_phase_advance_at_br := quant32 (f_of_int 1000) (sl_phase_advance_at_br c);
  sl_cycle_int_rpm_br := quant32 (f_of_int 1000) (sl_cycle_int_rpm_br c);
  sl_bemf_coupling_k := quant32 (f_of_int 1000) (sl_bemf_coupling_k c);
  hall_table := hall_table c;
  hall_sl_erpm := quant32 (f_of_int 1000) (hall_sl_erpm c);
  foc_current_kp := quant32 (f_of_int 100000) (foc_current_kp c);
  foc_current_ki := quant32 (f_of_int 100000) (foc_current_ki c);
  foc_f_sw := quant32 (f_of_int 1000) (foc_f_sw c);
  foc_dt_us := quant32 (f_of_int 1000000) (foc_dt_us c);
  foc_encoder_offset := quant32 (f_of_int 1000) (foc_encoder_offset c);
  foc_encoder_inverted := foc_encoder_inverted c;
  foc_encoder_ratio := quant32 (f_of_int 1000) (foc_encoder_ratio c);
  foc_motor_l := quant32 (f_of_int 100000000) (foc_motor_l c);
  foc_motor_r := quant32 (f_of_int 100000) (foc_motor_r c);
  foc_motor_flux_linkage := quant32 (f_of_int 100000) (foc_motor_flux_linkage c);
  foc_observer_gain := quant32 (f_of_int 1) (foc_observer_gain c);
  foc_pll_kp := quant32 (f_of_int 1000) (foc_pll_kp c);
  foc_pll_ki := quant32 (f_of_int 1000) (foc_pll_ki c);
  foc_duty_dowmramp_kp := quant32 (f_of_int 1000) (foc_duty_dowmramp_kp c);
  foc_duty_dowmramp_ki := quant32 (f_of_int 1000) (foc_duty_dowmramp_ki c);
  foc_openloop_rpm := quant32 (f_of_int 1000) (foc_openloop_rpm c);
  foc_sl_openloop_hyst := quant32 (f_of_int 1000) (foc_sl_openloop_hyst c);
  foc_sl_openloop_time := quant32 (f_of_int 1000) (foc_sl_openloop_time c);
  foc_sl_d_current_duty := quant32 (f_of_int 1000) (foc_sl_d_current_duty c);
  foc_sl_d_current_factor := quant32 (f_of_int 1000) (foc_sl_d_current_factor c);
  foc_sensor_mode := foc_sensor_mode c;
  foc_hall_table := foc_hall_table c;
  foc_sl_erpm := quant32 (f_of_int 1000) (foc_sl_erpm c);
  s_pid_kp := quant32 (f_of_int 1000000) (s_pid_kp c);
  s_pid_ki := quant32 (f_of_int 1000000) (s_pid_ki c);
  s_pid_kd := quant32 (f_of_int 1000000) (s_pid_kd c);
  s_pid_min_erpm := quant32 (f_of_int 1000) (s_pid_min_erpm c);
  p_pid_kp := quant32 (f_of_int 1000000) (p_pid_kp c);
  p_pid_ki := quant32 (f_of_int 1000000) (p_pid_ki c);
  p_pid_kd := quant32 (f_of_int 1000000) (p_pid_kd c);
  p_pid_ang_div := quant32 (f_of_int 100000) (p_pid_ang_div c);
  cc_startup_boost_duty := quant32 (f_of_int 1000000) (cc_startup_boost_duty c);
  cc_min_current := quant32 (f_of_int 1000) (cc_min_current c);
  cc_gain := quant32 (f_of_int 1000000) (cc_gain c);
  cc_ramp_step_max := quant32 (f_of_int 1000000) (cc_ramp_step_max c);
  m_fault_stop_time_ms := m_fault_stop_time_ms c;
  m_duty_ramp_step := quant32 (f_of_int 1000000) (m_duty_ramp_step c);
  m_duty_ramp_step_rpm_lim := quant32 (f_of_int 1000000) (m_duty_ramp_step_rpm_lim c);
  m_current_backoff_gain := quant32 (f_of_int 1000000) (m_current_backoff_gain c);
  m_encoder_counts := m_encoder_counts c;
  m_sensor_port_mode := m_sensor_port_mode c |}.

(** ** [app_configuration] *)

Definition appconf_append (c : app_configuration) : ST wstate unit :=
  put8 (controller_id c);;
  buffer_append_uint32 (timeout_msec c);;
  append_scaled (timeout_brake_current c) (f_of_int 1000);;
  put_bool (send_can_status c);;
  buffer_append_uint16 (send_can_status_rate_hz c);;
  put8 (app_to_use c);;
  put8 (ppm_ctrl_type (app_ppm_conf c));;
  append_scaled (ppm_pid_max_erpm (app_ppm_conf c)) (f_of_int 1000);;
  append_scaled (ppm_hyst (app_ppm_conf c)) (f_of_int 1000);;
  append_scaled (ppm_pulse_start (app_ppm_conf c)) (f_of_int 1000);;
  append_scaled (ppm_pulse_end (app_ppm_conf c)) (f_of_int 1000);;
  put_bool (ppm_median_filter (app_ppm_conf c));;
  put_bool (ppm_safe_start (app_ppm_conf c));;
  append_scaled (ppm_rpm_lim_start (app_ppm_conf c)) (f_of_int 1000);;
  append_scaled (ppm_rpm_lim_end (app_ppm_conf c)) (f_of_int 1000);;
  put_bool (ppm_multi_esc (app_ppm_conf c));;
  put_bool (ppm_tc (app_ppm_conf c));;
  append_scaled (ppm_tc_max_diff (app_ppm_conf c)) (f_of_int 1000);;
  put8 (adc_ctrl_type (app_adc_conf c));;
  append_scaled (adc_hyst (app_adc_conf c)) (f_of_int 1000);;
  append_scaled (adc_voltage_start (app_adc_conf c)) (f_of_int 1000);;
  append_scaled (adc_voltage_end (app_adc_conf c)) (f_of_int 1000);;
  put_bool (adc_use_filter (app_adc_conf c));;
  put_bool (adc_safe_start (app_adc_conf c));;
  put_bool (adc_cc_button_inverted (app_adc_conf c));;
  put_bool (adc_rev_button_inverted (app_adc_conf c));;
  put_bool (adc_voltage_inverted (app_adc_conf c));;
  append_scaled (adc_rpm_lim_start (app_adc_conf c)) (f_of_int 1000);;
  append_scaled (adc_rpm_lim_end (app_adc_conf c)) (f_of_int 1000);;
  put_bool (adc_multi_esc (app_adc_conf c));;
  put_bool (adc_tc (app_adc_conf c));;
  append_scaled (adc_tc_max_diff (app_adc_conf c)) (f_of_int 1000);;
  buffer_append_uint16 (adc_update_rate_hz (app_adc_conf c));;
  buffer_append_uint32 (app_uart_baudrate c);;
  put8 (chuk_ctrl_type (app_chuk_conf c));;
  buffer_append_float32 (chuk_hyst (app_chuk_conf c)) (f_of_int 1000);;
  buffer_append_float32 (chuk_rpm_lim_start (app_chuk_conf c)) (f_of_int 1000);;
  buffer_append_float32 (chuk_rpm_lim_end (app_chuk_conf c)) (f_of_int 1000);;
  buffer_append_float32 (chuk_ramp_time_pos (app_chuk_conf c)) (f_of_int 1000);;
  buffer_append_float32 (chuk_ramp_time_neg (app_chuk_conf c)) (f_of_int 1000);;
  buffer_append_float32 (chuk_stick_erpm_per_s_in_cc (app_chuk_conf c)) (f_of_int 1000);;
  put_bool (chuk_multi_esc (app_chuk_conf c));;
  put_bool (chuk_tc (app_chuk_conf c));;
  append_scaled (chuk_tc_max_diff (app_chuk_conf c)) (f_of_int 1000);;
  put8 (nrf_speed (app_nrf_conf c));;
  put8 (nrf_power (app_nrf_conf c));;
  put8 (nrf_crc_type (app_nrf_conf c));;
  put8 (nrf_retry_delay (app_nrf_conf c));;
  put8 (nrf_retries (app_nrf_conf c));;
  put8 (nrf_channel (app_nrf_conf c));;
  put_bytes (nrf_address (app_nrf_conf c));;
  put_bool (nrf_send_crc_ack (app_nrf_conf c)).

Definition appconf_get (data : list Z) : ST Z app_configuration :=
  v_controller_id ← get8 data;
  v_timeout_msec ← buffer_get_uint32 data;
  v_timeout_brake_current ← get_scaled data (f_of_int 1000);
  v_send_can_status ← get_bool data;
  v_send_can_status_rate_hz ← buffer_get_uint16 data;
  v_app_to_use ← get8 data;
  v_ppm_ctrl_type ← get8 data;
  v_ppm_pid_max_erpm ← get_scaled data (f_of_int 1000);
  v_ppm_hyst ← get_scaled data (f_of_int 1000);
  v_ppm_pulse_start ← get_scaled data (f_of_int 1000);
  v_ppm_pulse_end ← get_scaled data (f_of_int 1000);
  v_ppm_median_filter ← get_bool data;
  v_ppm_safe_start ← get_bool data;
  v_ppm_rpm_lim_start ← get_scaled data (f_of_int 1000);
  v_ppm_rpm_lim_end ← get_scaled data (f_of_int 1000);
  v_ppm_multi_esc ← get_bool data;
  v_ppm_tc ← get_bool data;
  v_ppm_tc_max_diff ← get_scaled data (f_of_int 1000);
  v_adc_ctrl_type ← get8 data;
  v_adc_hyst ← get_scaled data (f_of_int 1000);
  v_adc_voltage_start ← get_scaled data (f_of_int 1000);
  v_adc_voltage_end ← get_scaled data (f_of_int 1000);
  v_adc_use_filter ← get_bool data;
  v_adc_safe_start ← get_bool data;
  v_adc_cc_button_inverted ← get_bool data;
  v_adc_rev_button_inverted ← get_bool data;
  v_adc_voltage_inverted ← get_bool data;
  v_adc_rpm_lim_start ← get_scaled data (f_of_int 1000);
  v_adc_rpm_lim_end ← get_scaled data (f_of_int 1000);
  v_adc_multi_esc ← get_bool data;
  v_adc_tc ← get_bool data;
  v_adc_tc_max_diff ← get_scaled data (f_of_int 1000);
  v_adc_update_rate_hz ← buffer_get_uint16 data;
  v_app_uart_baudrate ← buffer_get_uint32 data;
  v_chuk_ctrl_type ← get8 data;
  v_chuk_hyst ← buffer_get_float32 data (f_of_int 1000);
  v_chuk_rpm_lim_start ← buffer_get_float32 data (f_of_int 1000);
  v_chuk_rpm_lim_end ← buffer_get_float32 data (f_of_int 1000);
  v_chuk_ramp_time_pos ← buffer_get_float32 data (f_of_int 1000);
  v_chuk_ramp_time_neg ← buffer_get_float32 data (f_of_int 1000);
  v_chuk_stick_erpm_per_s_in_cc ← buffer_get_float32 data (f_of_int 1000);
  v_chuk_multi_esc ← get_bool data;
  v_chuk_tc ← get_bool data;
  v_chuk_tc_max_diff ← buffer_get_float32 data (f_of_int 1000);
  v_nrf_speed ← get8 data;
  v_nrf_power ← get8 data;
  v_nrf_crc_type ← get8 data;
  v_nrf_retry_delay ← get8 data;
  v_nrf_retries ← get8 data;
  v_nrf_channel ← get8 data;
  v_nrf_address ← get_bytes data 3;
  v_nrf_send_crc_ack ← get_bool data;
  mret {|
    controller_id := v_controller_id;
    timeout_msec := v_timeout_msec;
    timeout_brake_current := v_timeout_brake_current;
    send_can_status := v_send_can_status;
    send_can_status_rate_hz := v_send_can_status_rate_hz;
    app_to_use := v_app_to_use;
    app_ppm_conf := {|
      ppm_ctrl_type := v_ppm_ctrl_type;
      ppm_pid_max_erpm := v_ppm_pid_max_erpm;
      ppm_hyst := v_ppm_hyst;
      ppm_pulse_start := v_ppm_pulse_start;
      ppm_pulse_end := v_ppm_pulse_end;
      ppm_median_filter := v_ppm_median_filter;
      ppm_safe_start := v_ppm_safe_start;
      ppm_rpm_lim_start := v_ppm_rpm_lim_start;
      ppm_rpm_lim_end := v_ppm_rpm_lim_end;
      ppm_multi_esc := v_ppm_multi_esc;
      ppm_tc := v_ppm_tc;
      ppm_tc_max_diff := v_ppm_tc_max_diff |};
    app_adc_conf := {|
      adc_ctrl_type := v_adc_ctrl_type;
      adc_hyst := v_adc_hyst;
      adc_voltage_start := v_adc_voltage_start;
      adc_voltage_end := v_adc_voltage_end;
      adc_use_filter := v_adc_use_filter;
      adc_safe_start := v_adc_safe_start;
      adc_cc_button_inverted := v_adc_cc_button_inverted;
      adc_rev_button_inverted := v_adc_rev_button_inverted;
      adc_voltage_inverted := v_adc_voltage_inverted;
      adc_rpm_lim_start := v_adc_rpm_lim_start;
      adc_rpm_lim_end := v_adc_rpm_lim_end;
      adc_multi_esc := v_adc_multi_esc;
      adc_tc := v_adc_tc;
      adc_tc_max_diff := v_adc_tc_max_diff;
      adc_update_rate_hz := v_adc_update_rate_hz |};
    app_uart_baudrate := v_app_uart_baudrate;
    app_chuk_conf := {|
      chuk_ctrl_type := v_chuk_ctrl_type;
      chuk_hyst := v_chuk_hyst;
      chuk_rpm_lim_start := v_chuk_rpm_lim_start;
      chuk_rpm_lim_end := v_chuk_rpm_lim_end;
      chuk_ramp_time_pos := v_chuk_ramp_time_pos;
      chuk_ramp_time_neg := v_chuk_ramp_time_neg;
      chuk_stick_erpm_per_s_in_cc := v_chuk_stick_erpm_per_s_in_cc;
      chuk_multi_esc := v_chuk_multi_esc;
      chuk_tc := v_chuk_tc;
      chuk_tc_max_diff := v_chuk_tc_max_diff |};
    app_nrf_conf := {|
      nrf_speed := v_nrf_speed;
      nrf_power := v_nrf_power;
      nrf_crc_type := v_nrf_crc_type;
      nrf_retry_delay := v_nrf_retry_delay;
      nrf_retries := v_nrf_retries;
      nrf_channel := v_nrf_channel;
      nrf_address := v_nrf_address;
      nrf_send_crc_ack := v_nrf_send_crc_ack |} |}.

(** What the serialiser writes, and what a configuration becomes on the way. *)
Definition appconf_wire (c : app_configuration) : list Z :=
  [u8 (controller_id c)] ++
  be32 (timeout_msec c) ++
  be32 (f2i32 (timeout_brake_current c * (f_of_int 1000))%f32) ++
  [Z.b2z (send_can_status c)] ++
  be16 (send_can_status_rate_hz c) ++
  [u8 (app_to_use c)] ++
  [u8 (ppm_ctrl_type (app_ppm_conf c))] ++
  be32 (f2i32 (ppm_pid_max_erpm (app_ppm_conf c) * (f_of_int 1000))%f32) ++
  be32 (f2i32 (ppm_hyst (app_ppm_conf c) * (f_of_int 1000))%f32) ++
  be32 (f2i32 (ppm_pulse_start (app_ppm_conf c) * (f_of_int 1000))%f32) ++
  be32 (f2i32 (ppm_pulse_end (app_ppm_conf c) * (f_of_int 1000))%f32) ++
  [Z.b2z (ppm_median_filter (app_ppm_conf c))] ++
  [Z.b2z (ppm_safe_start (app_ppm_conf c))] ++
  be32 (f2i32 (ppm_rpm_lim_start (app_ppm_conf c) * (f_of_int 1000))%f32) ++
  be32 (f2i32 (ppm_rpm_lim_end (app_ppm_conf c) * (f_of_int 1000))%f32) ++
  [Z.b2z (ppm_multi_esc (app_ppm_conf c))] ++
  [Z.b2z (ppm_tc (app_ppm_conf c))] ++
  be32 (f2i32 (ppm_tc_max_diff (app_ppm_conf c) * (f_of_int 1000))%f32) ++
  [u8 (adc_ctrl_type (app_adc_conf c))] ++
  be32 (f2i32 (adc_hyst (app_adc_conf c) * (f_of_int 1000))%f32) ++
  be32 (f2i32 (adc_voltage_start (app_adc_conf c) * (f_of_int 1000))%f32) ++
  be32 (f2i32 (adc_voltage_end (app_adc_conf c) * (f_of_int 1000))%f32) ++
  [Z.b2z (adc_use_filter (app_adc_conf c))] ++
  [Z.b2z (adc_safe_start (app_adc_conf c))] ++
  [Z.b2z (adc_cc_button_inverted (app_adc_conf c))] ++
  [Z.b2z (adc_rev_button_inverted (app_adc_conf c))] ++
  [Z.b2z (adc_voltage_inverted (app_adc_conf c))] ++
  be32 (f2i32 (adc_rpm_lim_start (app_adc_conf c) * (f_of_int 1000))%f32) ++
  be32 (f2i32 (adc_rpm_lim_end (app_adc_conf c) * (f_of_int 1000))%f32) ++
  [Z.b2z (adc_multi_esc (app_adc_conf c))] ++
  [Z.b2z (adc_tc (app_adc_conf c))] ++
  be32 (f2i32 (adc_tc_max_diff (app_adc_conf c) * (f_of_int 1000))%f32) ++
  be16 (adc_update_rate_hz (app_adc_conf c)) ++
  be32 (app_uart_baudrate c) ++
  [u8 (chuk_ctrl_type (app_chuk_conf c))] ++
  be32 (f2i32 (chuk_hyst (app_chuk_conf c) * (f_of_int 1000))%f32) ++
  be32 (f2i32 (chuk_rpm_lim_start (app_chuk_conf c) * (f_of_int 1000))%f32) ++
  be32 (f2i32 (chuk_rpm_lim_end (app_chuk_conf c) * (f_of_int 1000))%f32) ++
  be32 (f2i32 (chuk_ramp_time_pos (app_chuk_conf c) * (f_of_int 1000))%f32) ++
  be32 (f2i32 (chuk_ramp_time_neg (app_chuk_conf c) * (f_of_int 1000))%f32) ++
  be32 (f2i32 (chuk_stick_erpm_per_s_in_cc (app_chuk_conf c) * (f_of_int 1000))%f32) ++
  [Z.b2z (chuk_multi_esc (app_chuk_conf c))] ++
  [Z.b2z (chuk_tc (app_chuk_conf c))] ++
  be32 (f2i32 (chuk_tc_max_diff (app_chuk_conf c) * (f_of_int 1000))%f32) ++
  [u8 (nrf_speed (app_nrf_conf c))] ++
  [u8 (nrf_power (app_nrf_conf c))] ++
  [u8 (nrf_crc_type (app_nrf_conf c))] ++
  [u8 (nrf_retry_delay (app_nrf_conf c))] ++
  [u8 (nrf_retries (app_nrf_conf c))] ++
  [u8 (nrf_channel (app_nrf_conf c))] ++
  (nrf_address (app_nrf_conf c)) ++
  [Z.b2z (nrf_send_crc_ack (app_nrf_conf c))].

Definition appconf_quant (c : app_configuration) : app_configuration := {|
  controller_id := controller_id c;
  timeout_msec := timeout_msec c;
  timeout_brake_current := quant32 (f_of_int 1000) (timeout_brake_current c);
  send_can_status := send_can_status c;
  send_can_status_rate_hz := u16 (send_can_status_rate_hz c);
  app_to_use := app_to_use c;
  app_ppm_conf := {|
    ppm_ctrl_type := ppm_ctrl_type (app_ppm_conf c);
    ppm_pid_max_erpm := quant32 (f_of_int 1000) (ppm_pid_max_erpm (app_ppm_conf c));
    ppm_hyst := quant32 (f_of_int 1000) (ppm_hyst (app_ppm_conf c));
    ppm_pulse_start := quant32 (f_of_int 1000) (ppm_pulse_start (app_ppm_conf c));
    ppm_pulse_end := quant32 (f_of_int 1000) (ppm_pulse_end (app_ppm_conf c));
    ppm_median_filter := ppm_median_filter (app_ppm_conf c);
    ppm_safe_start := ppm_safe_start (app_ppm_conf c);
    ppm_rpm_lim_start := quant32 (f_of_int 1000) (ppm_rpm_lim_start (app_ppm_conf c));
    ppm_rpm_lim_end := quant32 (f_of_int 1000) (ppm_rpm_lim_end (app_ppm_conf c));
    ppm_multi_esc := ppm_multi_esc (app_ppm_conf c);
    ppm_tc := ppm_tc (app_ppm_conf c);
    ppm_tc_max_diff := quant32 (f_of_int 1000) (ppm_tc_max_diff (app_ppm_conf c)) |};
  app_adc_conf := {|
    adc_ctrl_type := adc_ctrl_type (app_adc_conf c);
    adc_hyst := quant32 (f_of_int 1000) (adc_hyst (app_adc_conf c));
    adc_voltage_start := quant32 (f_of_int 1000) (adc_voltage_start (app_adc_conf c));
    adc_voltage_end := quant32 (f_of_int 1000) (adc_voltage_end (app_adc_conf c));
    adc_use_filter := adc_use_filter (app_adc_conf c);
    adc_safe_start := adc_safe_start (app_adc_conf c);
    adc_cc_button_inverted := adc_cc_button_inverted (app_adc_conf c);
    adc_rev_button_inverted := adc_rev_button_inverted (app_adc_conf c);
    adc_voltage_inverted := adc_voltage_inverted (app_adc_conf c);
    adc_rpm_lim_start := quant32 (f_of_int 1000) (adc_rpm_lim_start (app_adc_conf c));
    adc_rpm_lim_end := quant32 (f_of_int 1000) (adc_rpm_lim_end (app_adc_conf c));
    adc_multi_esc := adc_multi_esc (app_adc_conf c);
    adc_tc := adc_tc (app_adc_conf c);
    adc_tc_max_diff := quant32 (f_of_int 1000) (adc_tc_max_diff (app_adc_conf c));
    adc_update_rate_hz := u16 (adc_update_rate_hz (app_adc_conf c)) |};
  app_uart_baudrate := app_uart_baudrate c;
  app_chuk_conf := {|
    chuk_ctrl_type := chuk_ctrl_type (app_chuk_conf c);
    chuk_hyst := quant32 (f_of_int 1000) (chuk_hyst (app_chuk_conf c));
    chuk_rpm_lim_start := quant32 (f_of_int 1000) (chuk_rpm_lim_start (app_chuk_conf c));
    chuk_rpm_lim_end := quant32 (f_of_int 1000) (chuk_rpm_lim_end (app_chuk_conf c));
    chuk_ramp_time_pos := quant32 (f_of_int 1000) (chuk_ramp_time_pos (app_chuk_conf c));
    chuk_ramp_time_neg := quant32 (f_of_int 1000) (chuk_ramp_time_neg (app_chuk_conf c));
    chuk_stick_erpm_per_s_in_cc := quant32 (f_of_int 1000) (chuk_stick_erpm_per_s_in_cc (app_chuk_conf c));
    chuk_multi_esc := chuk_multi_esc (app_chuk_conf c);
    chuk_tc := chuk_tc (app_chuk_conf c);
    chuk_tc_max_diff := quant32 (f_of_int 1000) (chuk_tc_max_diff (app_chuk_conf c)) |};
  app_nrf_conf := {|
    nrf_speed := nrf_speed (app_nrf_conf c);
    nrf_power := nrf_power (app_nrf_conf c);
    nrf_crc_type := nrf_crc_type (app_nrf_conf c);
    nrf_retry_delay := nrf_retry_delay (app_nrf_conf c);
    nrf_retries := nrf_retries (app_nrf_conf c);
    nrf_channel := nrf_channel (app_nrf_conf c);
    nrf_address := nrf_address (app_nrf_conf c);
    nrf_send_crc_ack := nrf_send_crc_ack (app_nrf_conf c) |} |}.
(** ** Field lemmas *)

Lemma writes_bool b : writes (put_bool b) [Z.b2z b].
Proof. unfold put_bool. destruct b; [exact (writes_put8 1)|exact (writes_put8 0)]. Qed.

Lemma writes_i8s l : writes (put_i8s l) (map u8 l).
Proof. apply writes_bytes. induction l; constructor; auto with cint. Qed.

Lemma writes_scaled x scale : writes (append_scaled x scale) (be32 (f2i32 (x * scale)%f32)).
Proof. apply writes_int32. Qed.

Lemma reads_u8 v : is_u8 v -> reads get8 [u8 v] v.
Proof. intros Hv. rewrite u8_id by done. apply reads_get8. Qed.

Lemma reads_bool b : reads get_bool [Z.b2z b] b.
Proof.
  pose proof (reads_map get8 (fun v => negb (v =? 0)) _ _ (reads_get8 (Z.b2z b))) as Hr.
  by destruct b.
Qed.

Lemma i8_u8 z : is_i8 z -> i8 (u8 z) = z.
Proof. unfold is_i8. int_solve. Qed.

Lemma reads_bytes_n n l : length l = n -> reads (fun data => get_bytes data n) l l.
Proof. intros <-. apply reads_bytes. Qed.

Lemma reads_i8s n l :
  length l = n /\ Forall is_i8 l -> reads (fun data => get_i8s data n) (map u8 l) l.
Proof.
  intros [Hn Hl].
  assert (Hmap : map i8 (map u8 l) = l).
  { clear Hn. induction Hl; [done|]. cbn [map]. by rewrite i8_u8, IHHl. }
  rewrite <- Hmap at 2. apply (reads_map (fun data => get_bytes data n) (map i8)).
  apply reads_bytes_n. by rewrite length_map.
Qed.

Lemma reads_u8s n l :
  length l = n /\ Forall is_u8 l -> reads (fun data => get_bytes data n) l l.
Proof. intros [Hn _]. by apply reads_bytes_n. Qed.

Lemma reads_quant32 x scale :
  reads (fun data => buffer_get_float32 data scale) (be32 (f2i32 (x * scale)%f32)) (quant32 scale x).
Proof. apply reads_float32, f2i32_range. Qed.

Lemma reads_scaled x scale :
  reads (fun data => get_scaled data scale) (be32 (f2i32 (x * scale)%f32)) (quant32 scale x).
Proof. apply (reads_quant32 x scale). Qed.

Lemma reads_uint16_trunc n : reads buffer_get_uint16 (be16 n) (u16 n).
Proof. 
  pose proof (reads_get16 u16 n) as Hr. by rewrite (u16_id (u16 n)) in Hr by apply u16_range.
Qed.

Lemma reads_last {A B} (g : list Z -> ST Z A) (k : A -> list Z -> ST Z B) bs a v :
  reads g bs a -> (forall data i, k a data i = Some (v, i)) ->
  reads (fun data => x ← g data; k x data) bs v.
Proof.
  intros Hg Hk. rewrite <- (app_nil_r bs). apply (reads_bind g k bs [] a v Hg).
  intros data i _. rewrite Hk. cbn [length]. by rewrite Z.add_0_r.
Qed.

Create HintDb codec.
#[export] Hint Resolve writes_put8 writes_bool writes_bytes writes_i8s writes_int32 writes_uint32
  writes_uint16 writes_float32 writes_scaled reads_u8 reads_bool reads_i8s reads_u8s reads_quant32
  reads_scaled reads_int32 reads_uint32 reads_uint16_trunc : codec.

(** Walk down a chain of fields. *)
Ltac reads_fields :=
  first [ apply reads_ret
        | eapply reads_last; [solve [eauto with codec]|intros; reflexivity]
        | eapply reads_bind; [solve [eauto with codec]|]; reads_fields ].

Ltac writes_fields :=
  first [ solve [eauto with codec] | apply writes_bind; [solve [eauto with codec]|]; writes_fields ].

(** ** The serialisers and parsers *)

Lemma mcconf_append_writes c : mc_configuration_typed c -> writes (mcconf_append c) (mcconf_wire c).
Proof.
  intros Ht. unfold mc_configuration_typed in Ht. destruct_and! Ht.
  unfold mcconf_append, mcconf_wire. writes_fields.
Qed.

Lemma mcconf_get_reads c :
  mc_configuration_typed c -> reads mcconf_get (mcconf_wire c) (mcconf_quant c).
Proof.
  intros Ht. unfold mc_configuration_typed in Ht. destruct_and! Ht.
  unfold mcconf_get, mcconf_wire, mcconf_quant. reads_fields.
Qed.

Lemma app_typed_all c : app_configuration_typed c ->
  (is_u8 (controller_id c) /\ is_u32 (timeout_msec c) /\ is_u32 (send_can_status_rate_hz c) /\
   is_u8 (app_to_use c) /\ is_u32 (app_uart_baudrate c)) /\
  ppm_config_typed (app_ppm_conf c) /\ adc_config_typed (app_adc_conf c) /\
  chuk_config_typed (app_chuk_conf c) /\ nrf_config_typed (app_nrf_conf c).
Proof. unfold app_configuration_typed. tauto. Qed.

Lemma appconf_append_writes c : app_configuration_typed c -> writes (appconf_append c) (appconf_wire c).
Proof.
  intros Ht%app_typed_all. unfold nrf_config_typed in Ht. destruct_and! Ht.
  unfold appconf_append, appconf_wire. writes_fields.
Qed.

Lemma appconf_get_reads c :
  app_configuration_typed c -> reads appconf_get (appconf_wire c) (appconf_quant c).
Proof.
  intros Ht%app_typed_all.
  unfold ppm_config_typed, adc_config_typed, chuk_config_typed, nrf_config_typed in Ht. destruct_and! Ht.
  unfold appconf_get, appconf_wire, appconf_quant. reads_fields.
Qed.

(** The sizes of the two messages, without the packet id. *)
Definition MCCONF_WIRE_LEN : nat := 281.
Definition APPCONF_WIRE_LEN : nat := 125.

Lemma mcconf_wire_length c : mc_configuration_typed c -> length (mcconf_wire c) = MCCONF_WIRE_LEN.
Proof.
  intros Ht. unfold mc_configuration_typed in Ht. destruct_and! Ht.
  unfold mcconf_wire. rewrite !length_app, length_map. cbn [length be32 be16].
  repeat match goal with H : length _ = _ |- _ => rewrite H; clear H end. reflexivity.
Qed.

Lemma appconf_wire_length c : app_configuration_typed c -> length (appconf_wire c) = APPCONF_WIRE_LEN.
Proof.
  intros Ht%app_typed_all. unfold nrf_config_typed in Ht. destruct_and! Ht.
  unfold appconf_wire. rewrite !length_app. cbn [length be32 be16].
  repeat match goal with H : length _ = _ |- _ => rewrite H; clear H end. reflexivity.
Qed.
