(* ===== verification/Motor.v ===== *)
(** * Motor: the interface to the motor drivers and the board
    (src/mcpwm.h, src/mcpwm_foc.h, src/encoder.h, src/hwconf/hw_410.h)

    First the channels of [ADC_Value] on hardware 4.10 and the formulas that turn
    readings into volts, amperes and degrees, then the interface. *)
From S2P Require Import Prelude Float32 McTypes.

Definition ADC_IND_SENS1 : Z := 2.
Definition ADC_IND_SENS2 : Z := 1.
Definition ADC_IND_SENS3 : Z := 0.
Definition ADC_IND_CURR1 : Z := 4.
Definition ADC_IND_CURR2 : Z := 3.
Definition ADC_IND_VIN_SENS : Z := 8.
Definition ADC_IND_EXT : Z := 10.
Definition ADC_IND_EXT2 : Z := 7.
Definition ADC_IND_TEMP_MOS1 : Z := 5.
Definition ADC_IND_TEMP_MOS2 : Z := 5.

Definition V_REG : f32 := flit 33 10.
Definition VIN_R1 : f32 := f_of_int 39000.
Definition VIN_R2 : f32 := f_of_int 2200.
Definition CURRENT_AMP_GAIN : f32 := f_of_int 10.
Definition CURRENT_SHUNT_RES : f32 := flit 1 1000.

(** [GET_INPUT_VOLTAGE()] for a reading of the supply channel. *)
Definition input_voltage (adc_val : Z) : f32 :=
  ((V_REG / f_of_int 4095) * f_of_int adc_val * ((VIN_R1 + VIN_R2) / VIN_R2))%f32.

Definition NTC_RES (adc_val : Z) : f32 :=
  ((f_of_int 4095 * f_of_int 10000) / f_of_int adc_val - f_of_int 10000)%f32.

(** conf_general.h: the factor for constants made for another divider. *)
Definition VDIV_CORR : f32 :=
  ((VIN_R2 / (VIN_R2 + VIN_R1)) / (flit 22 10 / (flit 22 10 + f_of_int 33)))%f32.

(** conf_general.h *)
Definition SYSTEM_CORE_CLOCK : Z := 168000000.

(** ** The interface to the motor drivers and the board
    (src/mcpwm.h, src/mcpwm_foc.h, src/encoder.h, src/hwconf/hw_410.h)

    mc_interface.c is written against two implementations of the same set of
    operations, mcpwm.c and mcpwm_foc.c.  [driver] is that set, [Board] holds
    the two drivers and the rest of the hardware the core reads.  Both drivers
    keep a pointer to the interface's configuration, so every operation takes
    the current configuration as an argument. *)

(** The operations that exist in mcpwm.c and mcpwm_foc.c alike. *)
Record driver (D : Type) := mkDriver {
  drv_init : mc_configuration -> D -> D;
  drv_deinit : mc_configuration -> D -> D;
  drv_set_configuration : mc_configuration -> D -> D;
  drv_is_dccal_done : D -> bool;
  drv_get_state : D -> Z;
  drv_set_duty : mc_configuration -> f32 -> D -> D;
  drv_set_duty_noramp : mc_configuration -> f32 -> D -> D;
  drv_set_pid_speed : mc_configuration -> f32 -> D -> D;
  drv_set_pid_pos : mc_configuration -> f32 -> D -> D;
  drv_set_current : mc_configuration -> f32 -> D -> D;
  drv_set_brake_current : mc_configuration -> f32 -> D -> D;
  drv_stop_pwm : mc_configuration -> D -> D;
  drv_get_duty_cycle_set : mc_configuration -> D -> f32;
  drv_get_duty_cycle_now : mc_configuration -> D -> f32;
  drv_get_switching_frequency_now : mc_configuration -> D -> f32;
  drv_get_rpm : mc_configuration -> D -> f32;
  drv_get_tot_current : mc_configuration -> D -> f32;
  drv_get_tot_current_filtered : mc_configuration -> D -> f32;
  drv_get_tot_current_directional : mc_configuration -> D -> f32;
  drv_get_tot_current_directional_filtered : mc_configuration -> D -> f32;
  drv_get_tot_current_in : mc_configuration -> D -> f32;
  drv_get_tot_current_in_filtered : mc_configuration -> D -> f32;
  drv_get_tachometer_value : bool -> D -> Z * D;
  drv_get_tachometer_abs_value : bool -> D -> Z * D;
  drv_get_last_inj_adc_isr_duration : D -> f32;
  drv_adc_inj_int_handler : mc_configuration -> D -> D
}.

Arguments drv_init {D}.
Arguments drv_deinit {D}.
Arguments drv_set_configuration {D}.
Arguments drv_is_dccal_done {D}.
Arguments drv_get_state {D}.
Arguments drv_set_duty {D}.
Arguments drv_set_duty_noramp {D}.
Arguments drv_set_pid_speed {D}.
Arguments drv_set_pid_pos {D}.
Arguments drv_set_current {D}.
Arguments drv_set_brake_current {D}.
Arguments drv_stop_pwm {D}.
Arguments drv_get_duty_cycle_set {D}.
Arguments drv_get_duty_cycle_now {D}.
Arguments drv_get_switching_frequency_now {D}.
Arguments drv_get_rpm {D}.
Arguments drv_get_tot_current {D}.
Arguments drv_get_tot_current_filtered {D}.
Arguments drv_get_tot_current_directional {D}.
Arguments drv_get_tot_current_directional_filtered {D}.
Arguments drv_get_tot_current_in {D}.
Arguments drv_get_tot_current_in_filtered {D}.
Arguments drv_get_tachometer_value {D}.
Arguments drv_get_tachometer_abs_value {D}.
Arguments drv_get_last_inj_adc_isr_duration {D}.
Arguments drv_adc_inj_int_handler {D}.

(** The board: the drivers, what only one of them has, sensors and libm. *)
Class Board (D : Type) : Type := {
  mcpwm : driver D;
  mcpwm_foc : driver D;
  (** mcpwm.h *)
  mcpwm_get_comm_step : D -> Z;
  mcpwm_read_hall_phase : D -> Z;
  mcpwm_get_last_adc_isr_duration : D -> f32;
  mcpwm_detect_currents : D -> list f32;
  mcpwm_detect_currents_diff : D -> list f32;
  mcpwm_detect_voltages : D -> list f32;
  mcpwm_vzero : D -> Z;
  mcpwm_set_detect : mc_configuration -> D -> D;
  mcpwm_reset_hall_detect_table : D -> D;
  mcpwm_get_hall_detect_result : D -> (Z * list Z) * D;
  mcpwm_read_reset_avg_cycle_integrator : D -> f32 * D;
  (** mcpwm_foc.h; the measurements change the configuration for a while *)
  mcpwm_foc_get_abs_motor_current : mc_configuration -> D -> f32;
  mcpwm_foc_get_abs_motor_current_filtered : mc_configuration -> D -> f32;
  mcpwm_foc_get_pid_pos_now : D -> f32;
  mcpwm_foc_measure_res_ind : mc_configuration -> D -> (bool * f32 * f32) * mc_configuration * D;
  mcpwm_foc_encoder_detect : mc_configuration -> f32 -> bool -> D ->
    (f32 * f32 * bool) * mc_configuration * D;
  mcpwm_foc_hall_detect : mc_configuration -> f32 -> D -> (bool * list Z) * mc_configuration * D;
  (** encoder.h *)
  encoder_deinit : D -> D;
  encoder_init_abi : Z -> D -> D;
  encoder_init_as5047p_spi : D -> D;
  encoder_set_counts : Z -> D -> D;
  encoder_is_configured : D -> bool;
  encoder_read_deg : D -> f32;
  (** hardware *)
  ADC_Value : D -> Z -> Z;
  ADC_curr_norm_value : D -> Z -> Z;
  IS_DRV_FAULT : D -> bool;
  TIM8_CCR1 : D -> Z;
  TIM1_CCR4 : D -> Z;
  TIM1_ARR : D -> Z;
  ledpwm_update_pwm : D -> D;
  pwm_callback : Z -> D -> D;
  chVTGetSystemTime : D -> Z;
  logf : f32 -> f32
}.

(** ** hw_410.h *)

Section Hw410.
Context {D : Type} `{Board D}.

Definition GET_INPUT_VOLTAGE (d : D) : f32 := input_voltage (ADC_Value d ADC_IND_VIN_SENS).

Definition NTC_TEMP (d : D) (adc_ind : Z) : f32 :=
  (f1 / ((logf (NTC_RES (ADC_Value d adc_ind) / f_of_int 10000) / f_of_int 3434)
         + (f1 / flit 29815 100)) - flit 27315 100)%f32.

Definition ADC_V_L1 (d : D) : Z := ADC_Value d ADC_IND_SENS1.
Definition ADC_V_L2 (d : D) : Z := ADC_Value d ADC_IND_SENS2.
Definition ADC_V_L3 (d : D) : Z := ADC_Value d ADC_IND_SENS3.
End Hw410.
