(* ===== verification/World.v ===== *)
(** * World: the state of the firmware core

    One record per source file that keeps static variables, and [world] that
    holds them all together with the flash and the hardware.  Operations are
    computations [ST world A]; failure is an access outside an array. *)
From S2P Require Import Prelude Float32 McTypes Flash Eeprom Motor.

(** ** mc_interface.c *)

Definition ADC_SAMPLE_MAX_LEN : Z := 2000.

Record mci_state := mkMci {
  m_conf : mc_configuration;
  m_fault_now : Z;
  m_ignore_iterations : Z;
  m_cycles_running : Z;
  m_lock_enabled : bool;
  m_lock_override_once : bool;
  m_motor_current_sum : f32;
  m_input_current_sum : f32;
  m_motor_current_iterations : f32;
  m_input_current_iterations : f32;
  m_amp_seconds : f32;
  m_amp_seconds_charged : f32;
  m_watt_seconds : f32;
  m_watt_seconds_charged : f32;
  m_position_set : f32;
  m_curr0_samples : list Z;
  m_curr1_samples : list Z;
  m_ph1_samples : list Z;
  m_ph2_samples : list Z;
  m_ph3_samples : list Z;
  m_vzero_samples : list Z;
  m_status_samples : list Z;
  m_curr_fir_samples : list Z;
  m_f_sw_samples : list Z;
  m_sample_len : Z;
  m_sample_int : Z;
  m_sample_ready : bool;
  m_sample_now : Z;
  m_sample_at_start : bool;
  m_start_comm : Z;
  m_last_adc_duration_sample : f32;
  pwn_done_func : option Z;
  (** the [static] variables of [mc_interface_mc_timer_isr] *)
  wrong_voltage_iterations : Z;
  curr_diff_sum : f32;
  curr_diff_samples : f32;
  isr_a : Z;
  (** set by [chEvtSignalI] on [sample_send_tp] *)
  sample_event : bool
}.
#[export] Instance mci_state_eta : Eta mci_state := fun s => mkMci
  (m_conf s) (m_fault_now s) (m_ignore_iterations s) (m_cycles_running s) (m_lock_enabled s)
  (m_lock_override_once s) (m_motor_current_sum s) (m_input_current_sum s)
  (m_motor_current_iterations s) (m_input_current_iterations s) (m_amp_seconds s)
  (m_amp_seconds_charged s) (m_watt_seconds s) (m_watt_seconds_charged s) (m_position_set s)
  (m_curr0_samples s) (m_curr1_samples s) (m_ph1_samples s) (m_ph2_samples s) (m_ph3_samples s)
  (m_vzero_samples s) (m_status_samples s) (m_curr_fir_samples s) (m_f_sw_samples s)
  (m_sample_len s) (m_sample_int s) (m_sample_ready s) (m_sample_now s) (m_sample_at_start s)
  (m_start_comm s) (m_last_adc_duration_sample s) (pwn_done_func s) (wrong_voltage_iterations s)
  (curr_diff_sum s) (curr_diff_samples s) (isr_a s) (sample_event s).

(** ** timeout.c *)

Record timeout_state := mkTimeout {
  timeout_msec_v : Z;
  last_update_time : Z;
  timeout_brake_current_v : f32;
  has_timeout : bool
}.
#[export] Instance timeout_state_eta : Eta timeout_state := fun s =>
  mkTimeout (timeout_msec_v s) (last_update_time s) (timeout_brake_current_v s) (has_timeout s).

(** ** commands.c *)

(** The functions passed to [commands_set_send_func] in the repository. *)
Inductive send_handler := SendUsb | SendUart | SendNrf | SendCan.

Record commands_state := mkCommands {
  send_buffer : list Z;
  detect_cycle_int_limit : f32;
  detect_coupling_k : f32;
  detect_current : f32;
  detect_min_rpm : f32;
  detect_low_duty : f32;
  detect_hall_table : list Z;
  detect_hall_res : Z;
  send_func : option send_handler;
  appdata_func : option Z;
  display_position_mode : Z;
  (** set by [chEvtSignal] on [detect_tp] *)
  detect_event : bool
}.
#[export] Instance commands_state_eta : Eta commands_state := fun s =>
  mkCommands (send_buffer s) (detect_cycle_int_limit s) (detect_coupling_k s) (detect_current s)
    (detect_min_rpm s) (detect_low_duty s) (detect_hall_table s) (detect_hall_res s) (send_func s)
    (appdata_func s) (display_position_mode s) (detect_event s).

(** ** comm_can.c *)

(** A received or sent CAN frame (ChibiOS [CANRxFrame], [CANTxFrame]). *)
Record can_frame := mkFrame { IDE : bool; EID : Z; DLC : Z; data8 : list Z }.

Record can_state := mkCan {
  stat_msgs : list can_status_msg;
  rx_buffer : list Z;
  rx_buffer_last_id : Z;
  rx_frames : list can_frame;
  rx_frame_read : Z;
  rx_frame_write : Z
}.
#[export] Instance can_state_eta : Eta can_state := fun s =>
  mkCan (stat_msgs s) (rx_buffer s) (rx_buffer_last_id s) (rx_frames s) (rx_frame_read s)
    (rx_frame_write s).

(** ** The system: utils.c, the window watchdog, interrupts *)

Record sys_state := mkSys {
  sys_lock_cnt : Z;
  sys_locked : bool;
  wwdg_enabled : bool
}.
#[export] Instance sys_state_eta : Eta sys_state := fun s =>
  mkSys (sys_lock_cnt s) (sys_locked s) (wwdg_enabled s).

(** ** Everything *)

(** What leaves the core: packets to a transport, frames to the CAN
    controller, strings to the terminal, data to the custom application,
    and the two ways to leave the program. *)
Inductive event :=
| EvSend (h : send_handler) (payload : list Z)
| EvCan (f : can_frame)
| EvTerminal (s : list Z)
| EvAppData (h : Z) (payload : list Z)
| EvChuck (c : chuck_data)
| EvAppConfigured (c : app_configuration)
| EvBootloader
| EvReboot.

Record world {D F : Type} := mkWorld {
  w_mci : mci_state;
  w_tmo : timeout_state;
  w_cmd : commands_state;
  w_can : can_state;
  w_sys : sys_state;
  appconf : app_configuration;
  w_ee : ee_state F;
  VirtAddVarTab : list Z;
  fault_vec : list fault_data;
  fault_vec_write : Z;
  w_out : list event;
  w_hw : D
}.
Arguments world : clear implicits.
Arguments mkWorld {D F}.

#[export] Instance world_eta {D F} : Eta (world D F) := fun w =>
  mkWorld (w_mci w) (w_tmo w) (w_cmd w) (w_can w) (w_sys w) (appconf w) (w_ee w) (VirtAddVarTab w)
    (fault_vec w) (fault_vec_write w) (w_out w) (w_hw w).

Section Access.
Context {D F : Type}.
Abbreviation M := (ST (world D F)).

Definition mci {A} (f : mci_state -> A) : M A := fun w => Some (f (w_mci w), w).
Definition mci_set (f : mci_state -> mci_state) : M unit :=
  st_modify (fun w => w <| w_mci := f (w_mci w) |>).
Definition hw {A} (f : D -> A) : M A := fun w => Some (f (w_hw w), w).
Definition hw_do (f : D -> D) : M unit := st_modify (fun w => w <| w_hw := f (w_hw w) |>).
Definition hw_run {A} (f : D -> A * D) : M A := fun w =>
  let '(a, d) := f (w_hw w) in Some (a, w <| w_hw := d |>).
Definition tmo {A} (f : timeout_state -> A) : M A := fun w => Some (f (w_tmo w), w).
Definition tmo_set (f : timeout_state -> timeout_state) : M unit :=
  st_modify (fun w => w <| w_tmo := f (w_tmo w) |>).
Definition cmd {A} (f : commands_state -> A) : M A := fun w => Some (f (w_cmd w), w).
Definition cmd_set (f : commands_state -> commands_state) : M unit :=
  st_modify (fun w => w <| w_cmd := f (w_cmd w) |>).
Definition can {A} (f : can_state -> A) : M A := fun w => Some (f (w_can w), w).
Definition can_set (f : can_state -> can_state) : M unit :=
  st_modify (fun w => w <| w_can := f (w_can w) |>).
Definition sys {A} (f : sys_state -> A) : M A := fun w => Some (f (w_sys w), w).
Definition sys_set (f : sys_state -> sys_state) : M unit :=
  st_modify (fun w => w <| w_sys := f (w_sys w) |>).
Definition emit (e : event) : M unit := st_modify (fun w => w <| w_out := w_out w ++ [e] |>).

(** A flash operation on the EEPROM's flash. *)
Definition ee_run (o : op F) : M Z := fun w =>
  let '(st, e) := o (w_ee w) in Some (st, w <| w_ee := e |>).

(** [array[i] = v] on an array held in the state. *)
Definition arr_set (i v : Z) (l : list Z) : option (list Z) :=
  if decide (0 <= i < Z.of_nat (length l)) then Some (<[Z.to_nat i := v]> l) else None.

Definition when (b : bool) (m : M unit) : M unit := if b then m else mret tt.
End Access.
