(* ===== verification/Utils.v ===== *)
(** * Utils: the helpers of src/utils.c

    A function that writes through a [float *] returns the new value.  The
    angle loops take fuel; [None] means that the loop had not ended. *)
From S2P Require Import Prelude Float32.

(** [SIGN(x)] of utils.h as a [float]. *)
Definition SIGN (x : f32) : f32 := if (x <? f0)%f32 then f_of_int (-1) else f_of_int 1.

Definition utils_step_towards (value goal step : f32) : f32 :=
  (if value <? goal then if value + step <? goal then value + step else goal
   else if value >? goal then if value - step >? goal then value - step else goal
   else value)%f32.

Definition utils_calc_ratio (low high val : f32) : f32 := ((val - low) / (high - low))%f32.

(** [fmodf] of the C library: exact, the sign of the dividend. *)
Definition f_exp (x : f32) : Z := match x with S754_finite _ _ e => e | _ => 0 end.
Definition f_mant (x : f32) (e0 : Z) : Z :=
  match x with S754_finite s m e => (if s then -1 else 1) * (Z.pos m * 2 ^ (e - e0)) | _ => 0 end.

Definition fmodf (x y : f32) : f32 :=
  match x, y with
  | S754_nan, _ | _, S754_nan => fnan
  | S754_infinity _, _ => fnan
  | _, S754_zero _ => fnan
  | _, S754_infinity _ => x
  | S754_zero _, _ => x
  | S754_finite s _ _, _ =>
      let e := Z.min (f_exp x) (f_exp y) in
      binary_normalize 24 128 (Z.rem (f_mant x e) (f_mant y e)) e s
  end.

Definition utils_norm_angle (angle : f32) : f32 :=
  let angle := fmodf angle (f_of_int 360) in
  (if angle <? f0 then angle + f_of_int 360 else angle)%f32.

(** [while (x < low) x += turn; while (x > high) x -= turn;] *)
Fixpoint wrap_up (fuel : nat) (low turn x : f32) : option f32 :=
  match fuel with
  | O => None
  | S fuel => if (x <? low)%f32 then wrap_up fuel low turn (x + turn)%f32 else Some x
  end.

Fixpoint wrap_down (fuel : nat) (high turn x : f32) : option f32 :=
  match fuel with
  | O => None
  | S fuel => if (x >? high)%f32 then wrap_down fuel high turn (x - turn)%f32 else Some x
  end.

Definition wrap (fuel : nat) (half turn x : f32) : option f32 :=
  x ← wrap_up fuel (- half)%f32 turn x; wrap_down fuel half turn x.

Definition utils_norm_angle_rad (fuel : nat) (angle : f32) : option f32 := wrap fuel M_PI M_2PI angle.

(** The new value, and whether it was truncated. *)
Definition utils_truncate_number (number min max : f32) : f32 * bool :=
  if (number >? max)%f32 then (max, true)
  else if (number <? min)%f32 then (min, true) else (number, false).

Definition utils_map (x in_min in_max out_min out_max : f32) : f32 :=
  ((x - in_min) * (out_max - out_min) / (in_max - in_min) + out_min)%f32.

(** [int] arithmetic; the division by [in_max - in_min] fails for 0. *)
Definition utils_map_int (x in_min in_max out_min out_max : Z) : option Z :=
  let d := i32 (in_max - in_min) in
  if d =? 0 then None
  else Some (i32 (i32 (Z.quot (i32 (i32 (x - in_min) * i32 (out_max - out_min))) d) + out_min)).

Definition utils_deadband (value tres max : f32) : f32 :=
  (if fabs value <? tres then f0
   else let k := max / (max - tres) in
        if value >? f0 then k * value + max * (f1 - k)
        else - (k * - value + max * (f1 - k)))%f32.

Definition utils_angle_difference (fuel : nat) (angle1 angle2 : f32) : option f32 :=
  wrap fuel (f_of_int 180) (f_of_int 2 * f_of_int 180)%f32 (angle1 - angle2)%f32.

Definition utils_angle_difference_rad (fuel : nat) (angle1 angle2 : f32) : option f32 :=
  wrap fuel M_PI M_2PI (angle1 - angle2)%f32.

Definition utils_middle_of_3 (a b c : f32) : f32 :=
  (if (a <=? b) && (a <=? c) then if b <=? c then b else c
   else if (b <=? a) && (b <=? c) then if a <=? c then a else c
   else if a <=? b then a else b)%f32.

Definition utils_middle_of_3_int (a b c : Z) : Z :=
  if (a <=? b) && (a <=? c) then if b <=? c then b else c
  else if (b <=? a) && (b <=? c) then if a <=? c then a else c
  else if a <=? b then a else b.

(** The bits of a [float], and the [float] with given bits; a NaN is the
    default one of the target. *)
Definition f_bits (x : f32) : Z :=
  match x with
  | S754_zero s => if s then 2147483648 else 0
  | S754_infinity s => (if s then 2147483648 else 0) + Z.shiftl 255 23
  | S754_nan => Z.shiftl 511 22
  | S754_finite s m e => (if s then 2147483648 else 0) + Z.shiftl (e + 149) 23 + Zpos m
  end.
Definition f_of_bits (n : Z) : f32 :=
  let s := Z.testbit n 31 in
  let ex := Z.land (Z.shiftr n 23) 255 in
  let fr := Z.land n 8388607 in
  if ex =? 255 then if fr =? 0 then S754_infinity s else S754_nan
  else
    let '(m, e) := if ex =? 0 then (fr, -149) else (fr + 8388608, ex - 150) in
    match m with Zpos m => S754_finite s m e | _ => S754_zero s end.

(** [long] has 32 bits. *)
Definition utils_fast_inv_sqrt (x : f32) : f32 :=
  let xhalf := (flit 5 10 * x)%f32 in
  let y := f_of_bits (u32 (1597463007 - Z.shiftr (i32 (f_bits x)) 1)) in
  (y * (flit 15 10 - xhalf * y * y))%f32.

Definition utils_fast_atan2 (y x : f32) : f32 :=
  let abs_y := (fabs y + flit 1 10000000000)%f32 in
  let angle :=
    (if f0 <=? x then
       let r := (x - abs_y) / (x + abs_y) in
       let rsq := r * r in
       ((flit 1963 10000 * rsq) - flit 9817 10000) * r + (M_PI / f_of_int 4)
     else
       let r := (x + abs_y) / (abs_y - x) in
       let rsq := r * r in
       ((flit 1963 10000 * rsq) - flit 9817 10000) * r + (f_of_int 3 * M_PI / f_of_int 4))%f32 in
  if (y <? f0)%f32 then (- angle)%f32 else angle.

(** The new components, and whether the vector was saturated. *)
Definition utils_saturate_vector_2d (x y max : f32) : f32 * f32 * bool :=
  let mag := fsqrt (x * x + y * y)%f32 in
  let max := fabs max in
  let mag := if (mag <? flit 1 10000000000)%f32 then flit 1 10000000000 else mag in
  if (mag >? max)%f32 then
    let f := (max / mag)%f32 in ((x * f)%f32, (y * f)%f32, true)
  else (x, y, false).

(** One parabola of the sine approximation. *)
Definition sin_parabola (angle : f32) : f32 :=
  (if angle <? f0 then flit 127323954 100000000 * angle + flit 405284735 1000000000 * angle * angle
   else flit 127323954 100000000 * angle - flit 405284735 1000000000 * angle * angle)%f32.

(** The angle of the cosine: [angle += 0.5 * M_PI] and one turn back. *)
Definition cos_angle (angle : f32) : f32 :=
  let angle := (angle + flit 5 10 * M_PI)%f32 in
  (if angle >? M_PI then angle - M_2PI else angle)%f32.

(** Sine and cosine. *)
Definition utils_fast_sincos (fuel : nat) (angle : f32) : option (f32 * f32) :=
  angle ← wrap fuel M_PI M_2PI angle;
  Some (sin_parabola angle, sin_parabola (cos_angle angle)).

Definition sin_refine (s : f32) : f32 :=
  (if s <? f0 then flit 225 1000 * (s * - s - s) + s
   else flit 225 1000 * (s * s - s) + s)%f32.

Definition utils_fast_sincos_better (fuel : nat) (angle : f32) : option (f32 * f32) :=
  angle ← wrap fuel M_PI M_2PI angle;
  Some (sin_refine (sin_parabola angle), sin_refine (sin_parabola (cos_angle angle))).

(** The loop over the angles, with the two sums; [angles_num] is not checked
    against the lengths of the arrays. *)
Fixpoint avg_angles_loop (fuel : nat) (angles weights : list f32) (n : nat) (s_sum c_sum : f32)
    : option (f32 * f32) :=
  match n with
  | O => Some (s_sum, c_sum)
  | S n => match angles, weights with
           | a :: angles, wt :: weights =>
               '(s, c) ← utils_fast_sincos_better fuel a;
               avg_angles_loop fuel angles weights n (s_sum + s * wt)%f32 (c_sum + c * wt)%f32
           | _, _ => None
           end
  end.

Definition utils_avg_angles_rad_fast (fuel : nat) (angles weights : list f32) (angles_num : Z)
    : option f32 :=
  '(s_sum, c_sum) ← avg_angles_loop fuel angles weights (Z.to_nat angles_num) f0 f0;
  Some (utils_fast_atan2 s_sum c_sum).

(** ** The system lock counter (src/utils.c) and the window watchdog *)
From S2P Require Import Prelude McTypes World.

Section Sys.
Context {D F : Type}.
Abbreviation M := (ST (world D F)).

(** [if (!sys_lock_cnt) chSysLock(); sys_lock_cnt++;] *)
Definition utils_sys_lock_cnt : M unit :=
  n ← sys sys_lock_cnt;
  when (n =? 0) (sys_set (fun s => s <| sys_locked := true |>));;
  sys_set (fun s => s <| sys_lock_cnt := sys_lock_cnt s + 1 |>).

(** [if (sys_lock_cnt) { sys_lock_cnt--; if (!sys_lock_cnt) chSysUnlock(); }] *)
Definition utils_sys_unlock_cnt : M unit :=
  n ← sys sys_lock_cnt;
  when (negb (n =? 0))
    (sys_set (fun s => s <| sys_lock_cnt := sys_lock_cnt s - 1 |>);;
     n ← sys sys_lock_cnt;
     when (n =? 0) (sys_set (fun s => s <| sys_locked := false |>))).

(** [RCC_APB1PeriphClockCmd(RCC_APB1Periph_WWDG, ...)] *)
Definition wwdg (on : bool) : M unit := sys_set (fun s => s <| wwdg_enabled := on |>).
End Sys.

(** ** Some facts *)
(** The middle of three is their median. *)
Lemma middle_of_3_int_median a b c :
  utils_middle_of_3_int a b c = Z.max (Z.min a b) (Z.min (Z.max a b) c).
Proof.
  unfold utils_middle_of_3_int.
  destruct (Z.leb_spec a b), (Z.leb_spec a c), (Z.leb_spec b c), (Z.leb_spec b a); cbn [andb]; lia.
Qed.

(** A tiny negative angle is normalised to a full turn: the sum rounds up. *)
Lemma norm_angle_full_turn : utils_norm_angle (flit (-1) 10000000000) = f_of_int 360.
Proof. vm_compute. reflexivity. Qed.

(** Bits and back, for every number. *)
Lemma f_of_bits_f_bits s m e : Z.pos m < 16777216 -> -149 <= e <= 104 -> 8388608 <= Z.pos m \/ e = -149 ->
  f_of_bits (f_bits (S754_finite s m e)) = S754_finite s m e.
Proof.
  intros Hm He Hn. set (n := (e + 149) * 2 ^ 23 + Z.pos m).
  assert (Hb : f_bits (S754_finite s m e) = (if s then 1 else 0) * 2 ^ 31 + n).
  { unfold f_bits, n. rewrite Z.shiftl_mul_pow2 by lia. destruct s; lia. }
  assert (Hr : 0 <= n < 255 * 2 ^ 23) by (unfold n; lia).
  unfold f_of_bits. rewrite Hb.
  assert (Hs : Z.testbit ((if s then 1 else 0) * 2 ^ 31 + n) 31 = s).
  { rewrite Z.testbit_eqb, Z.div_add_l, (Z.div_small n) by lia. by destruct s. }
  assert (Hx : Z.land (Z.shiftr ((if s then 1 else 0) * 2 ^ 31 + n) 23) 255 = n / 2 ^ 23).
  { change 255 with (Z.ones 8). rewrite Z.land_ones, Z.shiftr_div_pow2 by lia.
    replace ((if s then 1 else 0) * 2 ^ 31 + n) with ((if s then 1 else 0) * 2 ^ 8 * 2 ^ 23 + n) by lia.
    rewrite Z.div_add_l by lia. rewrite Z.add_comm, Z.mod_add by lia. apply Z.mod_small.
    assert (0 <= n / 2 ^ 23) by (apply Z.div_pos; lia). assert (n / 2 ^ 23 < 255) by (apply Z.div_lt_upper_bound; lia).
    change (2 ^ 8) with 256. lia. }
  assert (Hf : Z.land ((if s then 1 else 0) * 2 ^ 31 + n) 8388607 = n mod 2 ^ 23).
  { change 8388607 with (Z.ones 23). rewrite Z.land_ones by lia.
    replace ((if s then 1 else 0) * 2 ^ 31 + n) with (n + (if s then 1 else 0) * 2 ^ 8 * 2 ^ 23) by lia.
    by rewrite Z.mod_add. }
  rewrite Hs, Hx, Hf. cbv zeta. destruct (Z.lt_ge_cases (Z.pos m) 8388608) as [Hlt|Hge].
  - destruct Hn as [Hn| ->]; [lia|]. unfold n. change (-149 + 149) with 0. rewrite Z.mul_0_l, Z.add_0_l.
    rewrite Z.div_small, Z.mod_small by lia. done.
  - assert (Hn' : n = (e + 150) * 2 ^ 23 + (Z.pos m - 8388608)) by (unfold n; lia).
    rewrite <- (Z.div_unique n (2 ^ 23) (e + 150) (Z.pos m - 8388608)) by lia.
    rewrite <- (Z.mod_unique n (2 ^ 23) (e + 150) (Z.pos m - 8388608)) by lia.
    rewrite (proj2 (Z.eqb_neq (e + 150) 255)), (proj2 (Z.eqb_neq (e + 150) 0)) by lia.
    replace (Z.pos m - 8388608 + 8388608) with (Z.pos m) by lia. f_equal. lia.
Qed.

(** 1 / sqrt 4 up to 0.2 per cent. *)
Lemma fast_inv_sqrt_4 : utils_fast_inv_sqrt (f_of_int 4) = S754_finite false 16748815 (-25).
Proof. vm_compute. reflexivity. Qed.
