(* ===== verification/McpwmState.v ===== *)
(** * McpwmState: the static variables of the BLDC driver (src/mcpwm.c)

    One record per group of variables: control, back-emf, current measurement,
    timers, and the inputs the hardware provides.  Static variables inside
    functions carry the name of their function.  Timer 1 drives the bridge:
    mode and enable bits of its three channels are preloaded and take effect
    together on a commutation event. *)
From S2P Require Import Prelude Float32 McTypes.

(** ** The bridge *)

(** Output compare modes of a timer channel (stm32f4xx_tim.h). *)
Inductive oc_mode := TIM_OCMode_Timing | TIM_OCMode_Inactive | TIM_ForcedAction_InActive
  | TIM_OCMode_PWM1 | TIM_OCMode_PWM2.
#[export] Instance oc_mode_eq_dec : EqDecision oc_mode.
Proof. solve_decision. Defined.

(** A channel drives the high side ([CCxE]) and the low side ([CCxNE]) of one phase. *)
Record tim_channel := mkChannel { OCxM : oc_mode; CCxE : bool; CCxNE : bool }.
#[export] Instance tim_channel_eq_dec : EqDecision tim_channel.
Proof. solve_decision. Defined.

Record bridge := mkBridge { phase1 : tim_channel; phase2 : tim_channel; phase3 : tim_channel }.
#[export] Instance bridge_eq_dec : EqDecision bridge.
Proof. solve_decision. Defined.

Inductive channel := TIM_Channel_1 | TIM_Channel_2 | TIM_Channel_3.

Definition upd_channel (ch : channel) (f : tim_channel -> tim_channel) (b : bridge) : bridge :=
  match ch with
  | TIM_Channel_1 => mkBridge (f (phase1 b)) (phase2 b) (phase3 b)
  | TIM_Channel_2 => mkBridge (phase1 b) (f (phase2 b)) (phase3 b)
  | TIM_Channel_3 => mkBridge (phase1 b) (phase2 b) (f (phase3 b))
  end.

(** ** Variables *)

(** [mc_timer_struct] *)
Record mc_timer_struct := mkTimerStruct {
  updated : bool;
  top : Z;
  duty : Z;
  val_sample : Z;
  curr1_sample : Z;
  curr2_sample : Z
}.
#[export] Instance mc_timer_struct_eta : Eta mc_timer_struct := fun s => mkTimerStruct
  (updated s) (top s) (duty s) (val_sample s) (curr1_sample s) (curr2_sample s).

(** [mc_rpm_dep_struct] of datatypes.h *)
Record mc_rpm_dep_struct := mkRpmDep {
  cycle_int_limit : f32;
  cycle_int_limit_running : f32;
  cycle_int_limit_max : f32;
  comm_time_sum : f32;
  comm_time_sum_min_rpm : f32;
  comms : Z;
  time_at_comm : Z
}.
#[export] Instance mc_rpm_dep_struct_eta : Eta mc_rpm_dep_struct := fun s => mkRpmDep
  (cycle_int_limit s) (cycle_int_limit_running s) (cycle_int_limit_max s) (comm_time_sum s)
  (comm_time_sum_min_rpm s) (comms s) (time_at_comm s).

(** Control. *)
Record pwm_vars := mkVars {
  comm_step : Z;
  detect_step : Z;
  direction : bool;
  dutycycle_set : f32;
  dutycycle_now : f32;
  rpm_now : f32;
  speed_pid_set_rpm : f32;
  pos_pid_set_pos : f32;
  current_set : f32;
  tachometer : Z;
  tachometer_abs : Z;
  tachometer_for_direction : Z;
  state : Z;
  control_mode : Z;
  switching_frequency_now : f32;
  ignore_iterations : Z;
  cycles_running : Z;
  slow_ramping_cycles : Z;
  has_commutated : bool;
  sensorless_now : bool;
  hall_to_phase_table : list Z;
  timer_thd_stop : bool;
  rpm_thd_stop : bool;
  speed_i_term : f32;
  speed_prev_error : f32;
  pos_i_term : f32;
  pos_prev_error : f32;
  rpm_p1 : f32;
  limit_delay : Z;
  direction_before : bool;
  last_step : Z
}.
#[export] Instance pwm_vars_eta : Eta pwm_vars := fun s => mkVars
  (comm_step s) (detect_step s) (direction s) (dutycycle_set s) (dutycycle_now s) (rpm_now s)
  (speed_pid_set_rpm s) (pos_pid_set_pos s) (current_set s) (tachometer s) (tachometer_abs s)
  (tachometer_for_direction s) (state s) (control_mode s) (switching_frequency_now s)
  (ignore_iterations s) (cycles_running s) (slow_ramping_cycles s) (has_commutated s)
  (sensorless_now s) (hall_to_phase_table s) (timer_thd_stop s) (rpm_thd_stop s)
  (speed_i_term s) (speed_prev_error s) (pos_i_term s) (pos_prev_error s) (rpm_p1 s)
  (limit_delay s) (direction_before s) (last_step s).

(** Back-emf integration, speed and the FIR filters. *)
Record pwm_signal := mkSignal {
  rpm_dep : mc_rpm_dep_struct;
  cycle_integrator_sum : f32;
  cycle_integrator_iterations : f32;
  pwm_cycles_sum : f32;
  pwm_cycles : Z;
  last_pwm_cycles_sum : f32;
  last_pwm_cycles_sums : list f32;
  cycle_integrator : f32;
  cycle_sum : f32;
  kv_fir_coeffs : list f32;
  kv_fir_samples : list f32;
  kv_fir_index : Z;
  amp_fir_coeffs : list f32;
  amp_fir_samples : list f32;
  amp_fir_index : Z;
  current_fir_coeffs : list f32;
  current_fir_samples : list f32;
  current_fir_index : Z;
  cnt_tmp : Z
}.
#[export] Instance pwm_signal_eta : Eta pwm_signal := fun s => mkSignal
  (rpm_dep s) (cycle_integrator_sum s) (cycle_integrator_iterations s) (pwm_cycles_sum s)
  (pwm_cycles s) (last_pwm_cycles_sum s) (last_pwm_cycles_sums s) (cycle_integrator s)
  (cycle_sum s) (kv_fir_coeffs s) (kv_fir_samples s) (kv_fir_index s) (amp_fir_coeffs s)
  (amp_fir_samples s) (amp_fir_index s) (current_fir_coeffs s) (current_fir_samples s)
  (current_fir_index s) (cnt_tmp s).

(** Current measurement and detection. *)
Record pwm_current := mkCurrent {
  curr0_sum : Z;
  curr1_sum : Z;
  curr_start_samples : Z;
  curr0_offset : Z;
  curr1_offset : Z;
  dccal_done : bool;
  last_current_sample : f32;
  last_current_sample_filtered : f32;
  curr_samp_volt : Z;
  ADC_curr_norm_value : list Z;
  detect_now : Z;
  comm_step_prev : Z;
  prev_tot_sample : f32;
  mcpwm_detect_currents : list f32;
  mcpwm_detect_voltages : list f32;
  mcpwm_detect_currents_diff : list f32;
  mcpwm_detect_currents_avg : list f32;
  mcpwm_detect_avg_samples : list f32;
  hall_detect_table : list (list Z);
  mcpwm_vzero : Z;
  last_adc_isr_duration : f32;
  last_inj_adc_isr_duration : f32
}.
#[export] Instance pwm_current_eta : Eta pwm_current := fun s => mkCurrent
  (curr0_sum s) (curr1_sum s) (curr_start_samples s) (curr0_offset s) (curr1_offset s)
  (dccal_done s) (last_current_sample s) (last_current_sample_filtered s) (curr_samp_volt s)
  (ADC_curr_norm_value s) (detect_now s) (comm_step_prev s) (prev_tot_sample s)
  (mcpwm_detect_currents s) (mcpwm_detect_voltages s) (mcpwm_detect_currents_diff s)
  (mcpwm_detect_currents_avg s) (mcpwm_detect_avg_samples s) (hall_detect_table s)
  (mcpwm_vzero s) (last_adc_isr_duration s) (last_inj_adc_isr_duration s).

(** Registers the driver writes: timers 1 and 8, the gate driver's
    calibration pin, and the preloaded and the effective state of the bridge. *)
Record pwm_timers := mkTimers {
  timer_struct : mc_timer_struct;
  TIM1_ARR : Z;
  TIM1_CCR : Z;
  TIM1_CCR4 : Z;
  TIM8_CCR1 : Z;
  TIM8_CCR2 : Z;
  preload : bridge;
  outputs : bridge;
  DCCAL : bool
}.
#[export] Instance pwm_timers_eta : Eta pwm_timers := fun s => mkTimers
  (timer_struct s) (TIM1_ARR s) (TIM1_CCR s) (TIM1_CCR4 s) (TIM8_CCR1 s) (TIM8_CCR2 s)
  (preload s) (outputs s) (DCCAL s).

(** What the hardware provides: ADC readings, injected conversions, hall
    sensors, the counters of the timers ([TIM1->CNT] at each read; timers 2 and
    12 at the moment they are read), gate driver fault, encoder. *)
Record pwm_inputs := mkInputs {
  ADC_Value : Z -> Z;
  inj_ADC1_1 : Z;
  inj_ADC2_1 : Z;
  inj_ADC2_2 : Z;
  inj_ADC1_2 : Z;
  HALL1 : bool;
  HALL2 : bool;
  HALL3 : bool;
  TIM1_CNT : nat -> Z;
  TIM1_CNT_reads : nat;
  TIM2_CNT : Z;
  TIM12_CNT : Z;
  IS_DRV_FAULT : bool;
  encoder_is_configured : bool;
  encoder_read_deg : f32
}.
#[export] Instance pwm_inputs_eta : Eta pwm_inputs := fun s => mkInputs
  (ADC_Value s) (inj_ADC1_1 s) (inj_ADC2_1 s) (inj_ADC2_2 s) (inj_ADC1_2 s) (HALL1 s) (HALL2 s)
  (HALL3 s) (TIM1_CNT s) (TIM1_CNT_reads s) (TIM2_CNT s) (TIM12_CNT s) (IS_DRV_FAULT s)
  (encoder_is_configured s) (encoder_read_deg s).

(** All of it. *)
Record pwm := mkPwm {
  vars : pwm_vars;
  signal : pwm_signal;
  curr : pwm_current;
  timers : pwm_timers;
  inputs : pwm_inputs
}.
#[export] Instance pwm_eta : Eta pwm := fun s => mkPwm
  (vars s) (signal s) (curr s) (timers s) (inputs s).

(** ** Access *)

Abbreviation P := (ST pwm).

Definition var {A} (f : pwm_vars -> A) : P A := fun s => Some (f (vars s), s).
Definition var_set (f : pwm_vars -> pwm_vars) : P unit := st_modify (fun s => s <| vars := f (vars s) |>).
Definition sig {A} (f : pwm_signal -> A) : P A := fun s => Some (f (signal s), s).
Definition sig_set (f : pwm_signal -> pwm_signal) : P unit :=
  st_modify (fun s => s <| signal := f (signal s) |>).
Definition cur {A} (f : pwm_current -> A) : P A := fun s => Some (f (curr s), s).
Definition cur_set (f : pwm_current -> pwm_current) : P unit :=
  st_modify (fun s => s <| curr := f (curr s) |>).
Definition tim {A} (f : pwm_timers -> A) : P A := fun s => Some (f (timers s), s).
Definition tim_set (f : pwm_timers -> pwm_timers) : P unit :=
  st_modify (fun s => s <| timers := f (timers s) |>).
Definition inp {A} (f : pwm_inputs -> A) : P A := fun s => Some (f (inputs s), s).
Definition inp_set (f : pwm_inputs -> pwm_inputs) : P unit :=
  st_modify (fun s => s <| inputs := f (inputs s) |>).
Definition lift {A} (o : option A) : P A := fun s => a ← o; Some (a, s).
Definition when_p (b : bool) (m : P unit) : P unit := if b then m else mret tt.

(** ** The zeroed state of the program *)

Definition zero6 : list f32 := replicate 6 f0.
Definition channel0 : tim_channel := mkChannel TIM_OCMode_Timing false false.
Definition bridge0 : bridge := mkBridge channel0 channel0 channel0.
Definition rpm_dep0 : mc_rpm_dep_struct := mkRpmDep f0 f0 f0 f0 f0 0 0.

Definition pwm0 (i : pwm_inputs) : pwm := {|
  vars := mkVars 0 0 false f0 f0 f0 f0 f0 f0 0 0 0 0 0 f0 0 0 0 false false (replicate 16 0) false
    false f0 f0 f0 f0 f0 0 true 0;
  signal := mkSignal rpm_dep0 f0 f0 f0 0 f0 zero6 f0 f0 (replicate 128 f0) (replicate 128 f0) 0
    (replicate 128 f0) (replicate 128 f0) 0 (replicate 16 f0) (replicate 16 f0) 0 0;
  curr := mkCurrent 0 0 0 0 0 false f0 f0 0 (replicate 3 0) 0 1 f0 zero6 zero6 zero6 zero6 zero6
    (replicate 8 (replicate 7 0)) 0 f0 f0;
  timers := mkTimers (mkTimerStruct false 0 0 0 0 0) 0 0 0 0 0 bridge0 bridge0 false;
  inputs := i
|}.
