(* ===== verification/FocState.v ===== *)
(** * FocState: the static variables of the FOC driver (src/mcpwm_foc.c)

    One record per group of variables: [motor_state_t] and [mc_sample_t] of the
    source, control, angles, the static variables inside functions (which carry
    the name of their function), timers, and the inputs the hardware provides.
    The bridge is the one of McpwmState. *)
From S2P Require Import Prelude Float32 McTypes McpwmState.

(** [motor_state_t] *)
Record motor_state_t := mkMotorState {
  id_target : f32;
  iq_target : f32;
  max_duty : f32;
  duty_now : f32;
  phase : f32;
  i_alpha : f32;
  i_beta : f32;
  i_abs : f32;
  i_abs_filter : f32;
  i_bus : f32;
  v_bus : f32;
  v_alpha : f32;
  v_beta : f32;
  mod_d : f32;
  mod_q : f32;
  i_d : f32;
  i_q : f32;
  id_filter : f32;
  iq_filter : f32;
  vd : f32;
  vq : f32
}.
#[export] Instance motor_state_eta : Eta motor_state_t := fun s => mkMotorState
  (id_target s) (iq_target s) (max_duty s) (duty_now s) (phase s) (i_alpha s) (i_beta s) (i_abs s)
  (i_abs_filter s) (i_bus s) (v_bus s) (v_alpha s) (v_beta s) (mod_d s) (mod_q s) (i_d s) (i_q s)
  (id_filter s) (iq_filter s) (vd s) (vq s).

(** [mc_sample_t] *)
Record mc_sample_t := mkSample {
  sample_num : Z;
  avg_current_tot : f32;
  avg_voltage_tot : f32;
  measure_inductance_now : bool;
  measure_inductance_duty : f32
}.
#[export] Instance mc_sample_eta : Eta mc_sample_t := fun s => mkSample
  (sample_num s) (avg_current_tot s) (avg_voltage_tot s) (measure_inductance_now s)
  (measure_inductance_duty s).

(** Control. *)
Record foc_vars := mkFocVars {
  m_state : Z;
  m_control_mode : Z;
  m_phase_override : bool;
  m_phase_now_override : f32;
  m_duty_cycle_set : f32;
  m_id_set : f32;
  m_iq_set : f32;
  m_output_on : bool;
  m_pos_pid_set : f32;
  m_speed_pid_set_rpm : f32;
  m_pos_pid_now : f32;
  m_tachometer : Z;
  m_tachometer_abs : Z;
  foc_last_inj_adc_isr_duration : f32;
  foc_timer_thd_stop : bool
}.
#[export] Instance foc_vars_eta : Eta foc_vars := fun s => mkFocVars
  (m_state s) (m_control_mode s) (m_phase_override s) (m_phase_now_override s)
  (m_duty_cycle_set s) (m_id_set s) (m_iq_set s) (m_output_on s) (m_pos_pid_set s)
  (m_speed_pid_set_rpm s) (m_pos_pid_now s) (m_tachometer s) (m_tachometer_abs s)
  (foc_last_inj_adc_isr_duration s) (foc_timer_thd_stop s).

(** Calibration and sampling of the phase currents. *)
Record foc_current := mkFocCurrent {
  m_curr0_sum : Z;
  m_curr1_sum : Z;
  m_curr_samples : Z;
  m_curr0_offset : Z;
  m_curr1_offset : Z;
  m_dccal_done : bool;
  foc_curr_norm_value : list Z
}.
#[export] Instance foc_current_eta : Eta foc_current := fun s => mkFocCurrent
  (m_curr0_sum s) (m_curr1_sum s) (m_curr_samples s) (m_curr0_offset s) (m_curr1_offset s)
  (m_dccal_done s) (foc_curr_norm_value s).

(** Observer, encoder and PLL. *)
Record foc_angles := mkAngles {
  m_phase_now_observer : f32;
  m_phase_now_observer_override : f32;
  m_phase_observer_override : bool;
  m_phase_now_encoder : f32;
  m_phase_now_encoder_no_index : f32;
  m_observer_x1 : f32;
  m_observer_x2 : f32;
  m_pll_phase : f32;
  m_pll_speed : f32
}.
#[export] Instance foc_angles_eta : Eta foc_angles := fun s => mkAngles
  (m_phase_now_observer s) (m_phase_now_observer_override s) (m_phase_observer_override s)
  (m_phase_now_encoder s) (m_phase_now_encoder_no_index s) (m_observer_x1 s) (m_observer_x2 s)
  (m_pll_phase s) (m_pll_speed s).

(** The static variables of the functions: the interrupt handler, the timer
    thread, the two PID controllers, [correct_encoder] and [correct_hall]. *)
Record foc_static := mkStatic {
  inductance_state : Z;
  phase_before : f32;
  duty_filtered : f32;
  duty_i_term : f32;
  phase_last : f32;
  angle_last : f32;
  min_rpm_hyst_timer : f32;
  min_rpm_timer : f32;
  foc_pos_i_term : f32;
  foc_pos_prev_error : f32;
  foc_pos_dt_int : f32;
  foc_speed_i_term : f32;
  foc_speed_prev_error : f32;
  using_encoder : bool;
  ang_hall_int_prev : Z;
  using_hall : bool;
  ang_hall : f32
}.
#[export] Instance foc_static_eta : Eta foc_static := fun s => mkStatic
  (inductance_state s) (phase_before s) (duty_filtered s) (duty_i_term s) (phase_last s)
  (angle_last s) (min_rpm_hyst_timer s) (min_rpm_timer s) (foc_pos_i_term s)
  (foc_pos_prev_error s) (foc_pos_dt_int s) (foc_speed_i_term s) (foc_speed_prev_error s)
  (using_encoder s) (ang_hall_int_prev s) (using_hall s) (ang_hall s).

(** Registers of timers 1 and 8 ([CCR1] .. [CCR3] of timer 1 are the three
    duty registers), and the preloaded and the effective state of the bridge. *)
Record foc_timers := mkFocTimers {
  foc_TIM1_ARR : Z;
  TIM1_CCR1 : Z;
  TIM1_CCR2 : Z;
  TIM1_CCR3 : Z;
  foc_TIM1_CCR4 : Z;
  TIM8_ARR : Z;
  foc_TIM8_CCR1 : Z;
  foc_TIM8_CCR2 : Z;
  foc_preload : bridge;
  foc_outputs : bridge;
  foc_DCCAL : bool
}.
#[export] Instance foc_timers_eta : Eta foc_timers := fun s => mkFocTimers
  (foc_TIM1_ARR s) (TIM1_CCR1 s) (TIM1_CCR2 s) (TIM1_CCR3 s) (foc_TIM1_CCR4 s) (TIM8_ARR s)
  (foc_TIM8_CCR1 s) (foc_TIM8_CCR2 s) (foc_preload s) (foc_outputs s) (foc_DCCAL s).

(** What the hardware provides. *)
Record foc_inputs := mkFocInputs {
  foc_ADC_Value : Z -> Z;
  foc_inj_ADC1_1 : Z;
  foc_inj_ADC2_1 : Z;
  foc_HALL1 : bool;
  foc_HALL2 : bool;
  foc_HALL3 : bool;
  foc_TIM12_CNT : Z;
  foc_IS_DRV_FAULT : bool;
  foc_encoder_is_configured : bool;
  foc_encoder_index_found : bool;
  foc_encoder_read_deg : f32
}.
#[export] Instance foc_inputs_eta : Eta foc_inputs := fun s => mkFocInputs
  (foc_ADC_Value s) (foc_inj_ADC1_1 s) (foc_inj_ADC2_1 s) (foc_HALL1 s) (foc_HALL2 s)
  (foc_HALL3 s) (foc_TIM12_CNT s) (foc_IS_DRV_FAULT s) (foc_encoder_is_configured s)
  (foc_encoder_index_found s) (foc_encoder_read_deg s).

(** All of it. *)
Record foc := mkFoc {
  f_vars : foc_vars;
  m_motor_state : motor_state_t;
  m_samples : mc_sample_t;
  f_curr : foc_current;
  f_ang : foc_angles;
  f_static : foc_static;
  f_timers : foc_timers;
  f_inputs : foc_inputs
}.
#[export] Instance foc_eta : Eta foc := fun s => mkFoc
  (f_vars s) (m_motor_state s) (m_samples s) (f_curr s) (f_ang s) (f_static s) (f_timers s)
  (f_inputs s).

(** ** Access *)

Abbreviation PF := (ST foc).

Definition fvar {A} (f : foc_vars -> A) : PF A := fun s => Some (f (f_vars s), s).
Definition fvar_set (f : foc_vars -> foc_vars) : PF unit :=
  st_modify (fun s => s <| f_vars := f (f_vars s) |>).
Definition mot {A} (f : motor_state_t -> A) : PF A := fun s => Some (f (m_motor_state s), s).
Definition mot_set (f : motor_state_t -> motor_state_t) : PF unit :=
  st_modify (fun s => s <| m_motor_state := f (m_motor_state s) |>).
Definition smp {A} (f : mc_sample_t -> A) : PF A := fun s => Some (f (m_samples s), s).
Definition smp_set (f : mc_sample_t -> mc_sample_t) : PF unit :=
  st_modify (fun s => s <| m_samples := f (m_samples s) |>).
Definition fcur {A} (f : foc_current -> A) : PF A := fun s => Some (f (f_curr s), s).
Definition fcur_set (f : foc_current -> foc_current) : PF unit :=
  st_modify (fun s => s <| f_curr := f (f_curr s) |>).
Definition ang {A} (f : foc_angles -> A) : PF A := fun s => Some (f (f_ang s), s).
Definition ang_set (f : foc_angles -> foc_angles) : PF unit :=
  st_modify (fun s => s <| f_ang := f (f_ang s) |>).
Definition sta {A} (f : foc_static -> A) : PF A := fun s => Some (f (f_static s), s).
Definition sta_set (f : foc_static -> foc_static) : PF unit :=
  st_modify (fun s => s <| f_static := f (f_static s) |>).
Definition ftim {A} (f : foc_timers -> A) : PF A := fun s => Some (f (f_timers s), s).
Definition ftim_set (f : foc_timers -> foc_timers) : PF unit :=
  st_modify (fun s => s <| f_timers := f (f_timers s) |>).
Definition finp {A} (f : foc_inputs -> A) : PF A := fun s => Some (f (f_inputs s), s).
Definition flift {A} (o : option A) : PF A := fun s => a ← o; Some (a, s).
Definition when_f (b : bool) (m : PF unit) : PF unit := if b then m else mret tt.

(** ** The zeroed state of the program *)

Definition motor_state0 : motor_state_t :=
  mkMotorState f0 f0 f0 f0 f0 f0 f0 f0 f0 f0 f0 f0 f0 f0 f0 f0 f0 f0 f0 f0 f0.
Definition sample0 : mc_sample_t := mkSample 0 f0 f0 false f0.
Definition foc_vars0 : foc_vars := mkFocVars 0 0 false f0 f0 f0 f0 false f0 f0 f0 0 0 f0 false.
Definition foc_angles0 : foc_angles := mkAngles f0 f0 false f0 f0 f0 f0 f0 f0.

(** Static variables with the initial values of their declarations. *)
Definition foc0 (i : foc_inputs) : foc := {|
  f_vars := foc_vars0;
  m_motor_state := motor_state0;
  m_samples := sample0;
  f_curr := mkFocCurrent 0 0 0 0 0 false (replicate 3 0);
  f_ang := foc_angles0;
  f_static := mkStatic 0 f0 f0 f0 f0 f0 f0 f0 f0 f0 f0 f0 f0 true (-1) true f0;
  f_timers := mkFocTimers 0 0 0 0 0 0 0 0 bridge0 bridge0 false;
  f_inputs := i
|}.
