(* ===== verification/Foc.v ===== *)
(** * Foc: the driver for field-oriented control (src/mcpwm_foc.c)

    The functions of mcpwm_foc.c below the interrupt handler: the bridge, the
    commands and getters, observer and PLL, the current controller with its
    space vector modulation, the PID controllers, and the corrections of the
    observer by encoder and hall sensors.  Every function takes the
    configuration [m_conf] refers to; FocIsr.v has the interrupt handler and
    the thread, FocMeasure.v the measurements.  The angle loops take
    [angle_fuel] rounds.  The preload bits of the duty registers, which decide
    when a written value takes effect within a PWM period, are left out. *)
From S2P Require Import Prelude Float32 McTypes Motor Utils McpwmState FocState.

Definition angle_fuel : nat := 1000.

Definition FOC_SENSOR_MODE_SENSORLESS : Z := 0.
Definition FOC_SENSOR_MODE_ENCODER : Z := 1.
Definition FOC_SENSOR_MODE_HALL : Z := 2.

Definition ONE_BY_SQRT3 : f32 := flit 57735026919 100000000000.
Definition TWO_BY_SQRT3 : f32 := (f_of_int 2 * ONE_BY_SQRT3)%f32.
Definition SQRT3_BY_2 : f32 := flit 86602540378 100000000000.
Definition MCPWM_FOC_I_FILTER_CONST : f32 := flit 1 10.
Definition MCPWM_FOC_INDUCTANCE_SAMPLE_CNT_OFFSET : Z := 10.
Definition MCPWM_FOC_INDUCTANCE_SAMPLE_RISE_COMP : Z := 50.
Definition TWO_THIRDS : f32 := (f_of_int 2 / f_of_int 3)%f32.
Definition ONE_THIRD : f32 := (f1 / f_of_int 3)%f32.
Definition RAD2DEG : f32 := (f_of_int 180 / M_PI)%f32.

(** Integer division on the target. *)
Definition udiv (a b : Z) : Z := if b =? 0 then 0 else Z.quot a b.

(** [UTILS_LP_FAST(value, sample, k)] *)
Definition LP_FAST (value sample k : f32) : f32 := (value - k * (value - sample))%f32.

Definition truncate (x lo hi : f32) : f32 := (utils_truncate_number x lo hi).1.

(** ** Timers and bridge *)

Definition TIMER_UPDATE_DUTY (duty1 duty2 duty3 : Z) : PF unit :=
  ftim_set (fun t => t <| TIM1_CCR1 := u16 duty1 |> <| TIM1_CCR2 := u16 duty3 |>
                       <| TIM1_CCR3 := u16 duty2 |>).

Definition TIMER_UPDATE_SAMP (current_samp voltage_samp : Z) : PF unit :=
  ftim_set (fun t => t <| foc_TIM8_CCR1 := u16 voltage_samp |>
                       <| foc_TIM1_CCR4 := u16 current_samp |>
                       <| foc_TIM8_CCR2 := u16 current_samp |>).

Definition TIMER_UPDATE_SAMP_TOP (current_samp voltage_samp top : Z) : PF unit :=
  ftim_set (fun t => t <| foc_TIM1_ARR := u16 top |> <| TIM8_ARR := u16 top |>);;
  TIMER_UPDATE_SAMP current_samp voltage_samp.

Definition TIMER_UPDATE_DUTY_CURRENTSAMP (duty1 duty2 duty3 current_samp : Z) : PF unit :=
  TIMER_UPDATE_DUTY duty1 duty2 duty3;;
  ftim_set (fun t => t <| foc_TIM1_CCR4 := u16 current_samp |>
                       <| foc_TIM8_CCR2 := u16 current_samp |>).

(** [TIM_SelectOCxM], [TIM_CCxCmd] and [TIM_CCxNCmd] on one channel. *)
Definition set_phase (ch : channel) (mode : oc_mode) (highside lowside : bool) : PF unit :=
  ftim_set (fun t =>
    t <| foc_preload := upd_channel ch (fun _ => mkChannel mode highside lowside) (foc_preload t) |>).

(** [TIM_GenerateEvent(TIM1, TIM_EventSource_COM)] *)
Definition com_event : PF unit := ftim_set (fun t => t <| foc_outputs := foc_preload t |>).

Definition set_phases (mode : oc_mode) (highside lowside : bool) : PF unit :=
  set_phase TIM_Channel_1 mode highside lowside;;
  set_phase TIM_Channel_2 mode highside lowside;;
  set_phase TIM_Channel_3 mode highside lowside.

Definition stop_pwm_hw : PF unit :=
  set_phases TIM_ForcedAction_InActive true false;;
  com_event;;
  fvar_set (fun v => v <| m_output_on := false |>).

Definition start_pwm_hw : PF unit :=
  set_phases TIM_OCMode_PWM1 true true;;
  com_event;;
  fvar_set (fun v => v <| m_output_on := true |>).

Definition read_hall : PF Z :=
  h1 ← finp foc_HALL1; h2 ← finp foc_HALL2; h3 ← finp foc_HALL3;
  mret (Z.lor (Z.lor (Z.b2z h1) (Z.shiftl (Z.b2z h2) 1)) (Z.shiftl (Z.b2z h3) 2)).

Definition foc_input_voltage : PF f32 :=
  adc ← finp foc_ADC_Value; mret (input_voltage (adc ADC_IND_VIN_SENS)).

(** ** Space vector modulation *)

Definition svm_sector (alpha beta : f32) : Z :=
  (if beta >=? f0 then
     if alpha >=? f0 then (if ONE_BY_SQRT3 * beta >? alpha then 2 else 1)
     else (if - ONE_BY_SQRT3 * beta >? alpha then 3 else 2)
   else
     if alpha >=? f0 then (if - ONE_BY_SQRT3 * beta >? alpha then 5 else 6)
     else (if ONE_BY_SQRT3 * beta >? alpha then 4 else 5))%f32.

(** The on-times of the two vectors next to the requested one, in timer ticks. *)
Definition svm_times (sector : Z) (alpha beta : f32) (half : Z) : Z * Z :=
  let ticks x := f2u32 (x * f_of_int half)%f32 in
  if sector =? 1 then
    (ticks (alpha - ONE_BY_SQRT3 * beta)%f32, ticks (TWO_BY_SQRT3 * beta)%f32)
  else if sector =? 2 then
    (ticks (alpha + ONE_BY_SQRT3 * beta)%f32, ticks (- alpha + ONE_BY_SQRT3 * beta)%f32)
  else if sector =? 3 then
    (ticks (TWO_BY_SQRT3 * beta)%f32, ticks (- alpha - ONE_BY_SQRT3 * beta)%f32)
  else if sector =? 4 then
    (ticks (- alpha + ONE_BY_SQRT3 * beta)%f32, ticks (- TWO_BY_SQRT3 * beta)%f32)
  else if sector =? 5 then
    (ticks (- alpha - ONE_BY_SQRT3 * beta)%f32, ticks (alpha - ONE_BY_SQRT3 * beta)%f32)
  else
    (ticks (- TWO_BY_SQRT3 * beta)%f32, ticks (alpha + ONE_BY_SQRT3 * beta)%f32).

(** [tA], [tB] and [tC], in the arithmetic of [uint32_t]. *)
Definition svm (alpha beta : f32) (half : Z) : Z * Z * Z :=
  let sector := svm_sector alpha beta in
  let '(t1, t2) := svm_times sector alpha beta half in
  let first := u32 (half - t1 - t2) / 2 in
  if sector =? 1 then let tB := u32 (first + t1) in (first, tB, u32 (tB + t2))
  else if sector =? 2 then let tA := u32 (first + t2) in (tA, first, u32 (tA + t1))
  else if sector =? 3 then let tC := u32 (first + t1) in (u32 (tC + t2), first, tC)
  else if sector =? 4 then let tB := u32 (first + t2) in (u32 (tB + t1), tB, first)
  else if sector =? 5 then let tA := u32 (first + t1) in (tA, u32 (tA + t2), first)
  else let tC := u32 (first + t2) in (first, u32 (tC + t1), tC).

Section Foc.
Context (conf : mc_configuration).

(** ** Observer and PLL *)

Definition not_huge (x : f32) : f32 :=
  if (fabs x >? flit 100000000000000000000 1)%f32 || is_nan x then f0 else x.

(** The new [x1], [x2] and [phase]. *)
Definition observer_update (va vb ia ib dt x1 x2 : f32) : f32 * f32 * f32 :=
  (let L := (f_of_int 3 / f_of_int 2) * foc_motor_l conf in
   let R := (f_of_int 3 / f_of_int 2) * foc_motor_r conf in
   let gamma := foc_observer_gain conf in
   let linkage := foc_motor_flux_linkage conf in
   let Lia := L * ia in
   let Lib := L * ib in
   let k1 := linkage * linkage - ((x1 - Lia) * (x1 - Lia) + (x2 - Lib) * (x2 - Lib)) in
   let x1_dot := - R * ia + va + ((gamma / f_of_int 2) * (x1 - Lia)) * k1 in
   let x2_dot := - R * ib + vb + ((gamma / f_of_int 2) * (x2 - Lib)) * k1 in
   let x1 := not_huge (x1 + x1_dot * dt) in
   let x2 := not_huge (x2 + x2_dot * dt) in
   (x1, x2, utils_fast_atan2 (x2 - L * ib) (x1 - L * ia)))%f32.

(** The new phase and speed. *)
Definition pll_run (ph dt phase_var speed_var : f32) : option (f32 * f32) :=
  delta_theta ← utils_norm_angle_rad angle_fuel (ph - phase_var)%f32;
  phase_var ← utils_norm_angle_rad angle_fuel
                (phase_var + (speed_var + foc_pll_kp conf * delta_theta) * dt)%f32;
  Some (phase_var, (speed_var + foc_pll_ki conf * delta_theta * dt)%f32).

(** ** Current control *)

(** The PI controllers, with saturation of the modulation and of the
    integral terms; [s] and [c] belong to [phase]. *)
Definition current_pi (s c dt : f32) (m : motor_state_t) : motor_state_t :=
  (let d := c * i_alpha m + s * i_beta m in
   let q := c * i_beta m - s * i_alpha m in
   let Ierr_d := id_target m - d in
   let Ierr_q := iq_target m - q in
   let Vd := vd m + Ierr_d * foc_current_kp conf in
   let Vq := vq m + Ierr_q * foc_current_kp conf in
   let md := truncate (fabs (max_duty m)) f0 (l_max_duty conf) in
   let '(mod_d', mod_q', _) :=
     utils_saturate_vector_2d (Vd / (TWO_THIRDS * v_bus m)) (Vq / (TWO_THIRDS * v_bus m))
       (SQRT3_BY_2 * md) in
   let '(vd', vq', _) :=
     utils_saturate_vector_2d (vd m + Ierr_d * (foc_current_ki conf * dt))
       (vq m + Ierr_q * (foc_current_ki conf * dt)) (TWO_THIRDS * md * SQRT3_BY_2 * v_bus m) in
   let idf := LP_FAST (id_filter m) d MCPWM_FOC_I_FILTER_CONST in
   let iqf := LP_FAST (iq_filter m) q MCPWM_FOC_I_FILTER_CONST in
   m <| i_d := d |> <| i_q := q |> <| id_filter := idf |> <| iq_filter := iqf |>
     <| vd := vd' |> <| vq := vq' |> <| mod_d := mod_d' |> <| mod_q := mod_q' |>
     <| i_bus := mod_d' * d + mod_q' * q |>
     <| i_abs := fsqrt (d * d + q * q) |>
     <| i_abs_filter := fsqrt (idf * idf + iqf * iqf) |>)%f32.

(** The compensation of the dead time, in units of the modulation. *)
Definition deadtime_comp (s c : f32) (m : motor_state_t) : f32 * f32 :=
  (let i_alpha_set := c * id_target m - s * iq_target m in
   let i_beta_set := c * iq_target m + s * id_target m in
   let ia_set := i_alpha_set in
   let ib_set := - flit 5 10 * i_alpha_set + SQRT3_BY_2 * i_beta_set in
   let ic_set := - flit 5 10 * i_alpha_set - SQRT3_BY_2 * i_beta_set in
   let alpha_sgn := TWO_THIRDS * SIGN ia_set - ONE_THIRD * SIGN ib_set - ONE_THIRD * SIGN ic_set in
   let beta_sgn := ONE_BY_SQRT3 * SIGN ib_set - ONE_BY_SQRT3 * SIGN ic_set in
   let fact := foc_dt_us conf * flit 1 1000000 * foc_f_sw conf in
   (alpha_sgn * fact, beta_sgn * fact))%f32.

(** The modulation in the stator frame. *)
Definition stator_modulation (s c : f32) (m : motor_state_t) : f32 * f32 :=
  (c * mod_d m - s * mod_q m, c * mod_q m + s * mod_d m)%f32.

Definition control_current (dt : f32) : PF unit :=
  ph ← mot phase;
  '(s, c) ← flift (utils_fast_sincos_better angle_fuel ph);
  mot_set (current_pi s c dt);;
  m ← mot id;
  let '(mod_alpha, mod_beta) := stator_modulation s c m in
  let '(alpha_comp, beta_comp) := deadtime_comp s c m in
  mot_set (fun m => m
    <| v_alpha := ((mod_alpha - alpha_comp) * TWO_THIRDS * v_bus m)%f32 |>
    <| v_beta := ((mod_beta - beta_comp) * TWO_THIRDS * v_bus m)%f32 |>);;
  top ← ftim foc_TIM1_ARR;
  let '(duty1, duty2, duty3) := svm (- mod_alpha)%f32 (- mod_beta)%f32 top in
  TIMER_UPDATE_DUTY duty1 duty2 duty3;;
  on ← fvar m_output_on;
  when_f (negb on) start_pwm_hw.

(** ** Getters *)

Definition mcpwm_foc_get_state : PF Z := fvar m_state.
Definition mcpwm_foc_is_dccal_done : PF bool := fcur m_dccal_done.
Definition mcpwm_foc_get_duty_cycle_set : PF f32 := fvar m_duty_cycle_set.
Definition mcpwm_foc_get_duty_cycle_now : PF f32 := mot duty_now.
Definition mcpwm_foc_get_pid_pos_set : PF f32 := fvar m_pos_pid_set.
Definition mcpwm_foc_get_pid_pos_now : PF f32 := fvar m_pos_pid_now.
Definition mcpwm_foc_get_switching_frequency_now : f32 := foc_f_sw conf.

(** [speed / ((2.0 * M_PI) / 60.0)] *)
Definition to_rpm (speed : f32) : f32 := (speed / (M_2PI / f_of_int 60))%f32.
Definition mcpwm_foc_get_rpm : PF f32 := s ← ang m_pll_speed; mret (to_rpm s).

Definition mcpwm_foc_get_tot_current : PF f32 := m ← mot id; mret (SIGN (vq m) * i_q m)%f32.
Definition mcpwm_foc_get_tot_current_filtered : PF f32 :=
  m ← mot id; mret (SIGN (vq m) * iq_filter m)%f32.
Definition mcpwm_foc_get_abs_motor_current : PF f32 := mot i_abs.
Definition mcpwm_foc_get_abs_motor_current_filtered : PF f32 := mot i_abs_filter.
Definition mcpwm_foc_get_tot_current_directional : PF f32 := mot i_q.
Definition mcpwm_foc_get_tot_current_directional_filtered : PF f32 := mot iq_filter.
Definition mcpwm_foc_get_tot_current_in : PF f32 := mot i_bus.
Definition mcpwm_foc_get_tot_current_in_filtered : PF f32 := mot i_bus.
Definition mcpwm_foc_get_tachometer_value (reset : bool) : PF Z :=
  val ← fvar m_tachometer; when_f reset (fvar_set (fun v => v <| m_tachometer := 0 |>));; mret val.
Definition mcpwm_foc_get_tachometer_abs_value (reset : bool) : PF Z :=
  val ← fvar m_tachometer_abs;
  when_f reset (fvar_set (fun v => v <| m_tachometer_abs := 0 |>));; mret val.

Definition degrees (x : f32) : f32 := utils_norm_angle (x * RAD2DEG)%f32.
Definition mcpwm_foc_get_phase : PF f32 := x ← mot phase; mret (degrees x).
Definition mcpwm_foc_get_phase_observer : PF f32 := x ← ang m_phase_now_observer; mret (degrees x).
Definition mcpwm_foc_get_phase_encoder : PF f32 := x ← ang m_phase_now_encoder; mret (degrees x).
Definition mcpwm_foc_get_vd : PF f32 := mot vd.
Definition mcpwm_foc_get_vq : PF f32 := mot vq.
Definition mcpwm_foc_get_last_inj_adc_isr_duration : PF f32 := fvar foc_last_inj_adc_isr_duration.

(** ** Commands *)

Definition set_running : PF unit :=
  st ← fvar m_state;
  when_f (negb (st =? MC_STATE_RUNNING)) (fvar_set (fun v => v <| m_state := MC_STATE_RUNNING |>)).

(** Mode [NONE], state off, bridge off. *)
Definition release : PF unit :=
  fvar_set (fun v => v <| m_control_mode := CONTROL_MODE_NONE |> <| m_state := MC_STATE_OFF |>);;
  stop_pwm_hw.

Definition mcpwm_foc_set_duty (dutyCycle : f32) : PF unit :=
  fvar_set (fun v => v <| m_control_mode := CONTROL_MODE_DUTY |> <| m_duty_cycle_set := dutyCycle |>);;
  set_running.

Definition mcpwm_foc_set_duty_noramp (dutyCycle : f32) : PF unit := mcpwm_foc_set_duty dutyCycle.

Definition mcpwm_foc_set_pid_speed (rpm : f32) : PF unit :=
  fvar_set (fun v => v <| m_control_mode := CONTROL_MODE_SPEED |> <| m_speed_pid_set_rpm := rpm |>);;
  set_running.

Definition mcpwm_foc_set_pid_pos (pos : f32) : PF unit :=
  fvar_set (fun v => v <| m_control_mode := CONTROL_MODE_POS |> <| m_pos_pid_set := pos |>);;
  set_running.

(** The two current commands differ in the mode only. *)
Definition set_current_mode (mode : Z) (current : f32) : PF unit :=
  if (fabs current <? cc_min_current conf)%f32 then release
  else
    let current := truncate current (lo_current_min conf) (lo_current_max conf) in
    fvar_set (fun v => v <| m_control_mode := mode |> <| m_iq_set := current |>);;
    set_running.

Definition mcpwm_foc_set_current (current : f32) : PF unit :=
  set_current_mode CONTROL_MODE_CURRENT current.
Definition mcpwm_foc_set_brake_current (current : f32) : PF unit :=
  set_current_mode CONTROL_MODE_CURRENT_BRAKE current.

Definition mcpwm_foc_stop_pwm : PF unit := mcpwm_foc_set_current f0.

(** [SYSTEM_CORE_CLOCK / (int)m_conf->foc_f_sw] *)
Definition foc_top : Z := u32 (udiv SYSTEM_CORE_CLOCK (f2i32 (foc_f_sw conf))).

Definition mcpwm_foc_set_configuration : PF unit :=
  release;;
  TIMER_UPDATE_SAMP_TOP (u32 (foc_top - 2)) 5 foc_top.

(** ** PID controllers *)

Definition run_pid_control_pos (angle_now angle_set dt : f32) : PF unit :=
  mode ← fvar m_control_mode;
  if negb (mode =? CONTROL_MODE_POS) then
    sta_set (fun s => s <| foc_pos_i_term := f0 |> <| foc_pos_prev_error := f0 |>)
  else
    error ← flift (utils_angle_difference angle_fuel angle_set angle_now);
    enc ← finp foc_encoder_is_configured;
    let error := if enc : bool then if foc_encoder_inverted conf then (- error)%f32 else error
                 else error in
    s ← sta id;
    let p_term := (error * p_pid_kp conf)%f32 in
    let i_term := (foc_pos_i_term s + error * (p_pid_ki conf * dt))%f32 in
    let dt_int := (foc_pos_dt_int s + dt)%f32 in
    let '(d_term, dt_int) :=
      if (error =? foc_pos_prev_error s)%f32 then (f0, dt_int)
      else (((error - foc_pos_prev_error s) * (p_pid_kd conf / dt_int))%f32, f0) in
    let i_term := truncate i_term (f_of_int (-1)) f1 in
    sta_set (fun s => s <| foc_pos_i_term := i_term |> <| foc_pos_prev_error := error |>
                        <| foc_pos_dt_int := dt_int |>);;
    let output := truncate (p_term + i_term + d_term)%f32 (f_of_int (-1)) f1 in
    found ← finp foc_encoder_index_found;
    let full := lo_current_max conf in
    let current := if enc : bool then
                     if found : bool then (output * full)%f32 else (flit 4 10 * full)%f32
                   else (output * full)%f32 in
    fvar_set (fun v => v <| m_iq_set := current |>).

Definition run_pid_control_speed (dt : f32) : PF unit :=
  v ← fvar id;
  let reset := sta_set (fun s => s <| foc_speed_i_term := f0 |> <| foc_speed_prev_error := f0 |>) in
  if negb (m_control_mode v =? CONTROL_MODE_SPEED) then reset
  else if (fabs (m_speed_pid_set_rpm v) <? s_pid_min_erpm conf)%f32 then reset
  else
    vin ← foc_input_voltage; rpm ← mcpwm_foc_get_rpm; s ← sta id;
    let scale := (f1 / vin)%f32 in
    let error := (m_speed_pid_set_rpm v - rpm)%f32 in
    let p_term := (error * s_pid_kp conf * scale)%f32 in
    let i_term := (foc_speed_i_term s + error * (s_pid_ki conf * dt) * scale)%f32 in
    let d_term := ((error - foc_speed_prev_error s) * (s_pid_kd conf / dt) * scale)%f32 in
    let i_term := truncate i_term (f_of_int (-1)) f1 in
    sta_set (fun s => s <| foc_speed_i_term := i_term |> <| foc_speed_prev_error := error |>);;
    let output := truncate (p_term + i_term + d_term)%f32 (f_of_int (-1)) f1 in
    fvar_set (fun v => v <| m_iq_set := (output * lo_current_max conf)%f32 |>).

(** ** Corrections of the observer *)

(** Sensors are used below [foc_sl_erpm], with a hysteresis of 5 %. *)
Definition use_sensor (now : bool) (speed : f32) : bool :=
  let rpm_abs := fabs (to_rpm speed) in
  let hyst := (foc_sl_erpm conf * flit 5 100)%f32 in
  if now then negb (rpm_abs >? foc_sl_erpm conf + hyst)%f32
  else (rpm_abs <? foc_sl_erpm conf - hyst)%f32.

Definition correct_encoder (obs_angle enc_angle speed : f32) : PF f32 :=
  now ← sta using_encoder;
  let sensor := use_sensor now speed in
  sta_set (fun s => s <| using_encoder := sensor |>);;
  mret (if sensor then enc_angle else obs_angle).

(** The angle of an entry of the hall table: 200 units are one turn. *)
Definition hall_angle (ang_hall_int : Z) : f32 :=
  (((f_of_int ang_hall_int / f_of_int 200) * f_of_int 360) * M_PI / f_of_int 180)%f32.

(** The angle in the middle of a transition, in hall units. *)
Definition hall_middle (ang_hall_int prev : Z) : Z :=
  let ang_avg := Z.abs (ang_hall_int - prev) in
  let ang_avg :=
    if ang_avg <? 100 then Z.quot (ang_hall_int + prev) 2
    else if negb (ang_avg =? 100) then Z.quot (ang_hall_int + prev) 2 + 100 else ang_avg in
  Z.rem ang_avg 200.

(** The angle before interpolation.  As in the source, [ang_hall_int_prev] is
    overwritten before it is compared with -2. *)
Definition hall_transition (ang_hall_int prev : Z) (ang_hall angle : f32) : f32 :=
  if prev <? 0 then
    let prev := ang_hall_int in
    if prev =? -2 then angle else hall_angle ang_hall_int
  else if negb (ang_hall_int =? prev) then hall_angle (hall_middle ang_hall_int prev)
  else ang_hall.

(** Interpolation between two transitions. *)
Definition hall_interpolate (ang_hall ang_hall_now speed dt : f32) : option f32 :=
  ang ← (if (fabs (to_rpm speed) <? f_of_int 100)%f32 then Some ang_hall_now
         else
           diff ← utils_angle_difference_rad angle_fuel ang_hall ang_hall_now;
           Some (if fabs diff <? M_2PI / f_of_int 12 then ang_hall + speed * dt
                 else ang_hall - diff / f_of_int 100)%f32);
  utils_norm_angle_rad angle_fuel ang.

Definition correct_hall (angle speed dt : f32) : PF f32 :=
  now ← sta using_hall;
  let sensor := use_sensor now speed in
  sta_set (fun s => s <| using_hall := sensor |>);;
  if sensor then
    h ← read_hall;
    ang_hall_int ← flift (foc_hall_table conf !!? h);
    if ang_hall_int <? 201 then
      s ← sta id;
      let a := hall_transition ang_hall_int (ang_hall_int_prev s) (ang_hall s) angle in
      sta_set (fun s => s <| ang_hall_int_prev := ang_hall_int |>);;
      a ← flift (hall_interpolate a (hall_angle ang_hall_int) speed dt);
      sta_set (fun s => s <| ang_hall := a |>);;
      mret a
    else
      sta_set (fun s => s <| ang_hall_int_prev := -1 |>);;
      a ← ang id; st ← fvar m_state;
      mret (if m_phase_observer_override a && (st =? MC_STATE_RUNNING)
            then m_phase_now_observer_override a else angle)
  else
    sta_set (fun s => s <| ang_hall_int_prev := -2 |>);;
    mret angle.

(** ** Start-up *)

Definition foc_init_current (c : foc_current) : foc_current :=
  c <| m_curr0_sum := 0 |> <| m_curr1_sum := 0 |> <| m_curr_samples := 0 |> <| m_dccal_done := false |>.

(** Variables are set to 0 and the timers are configured; half the period and
    both sides on, as [TIM_OCxInit] leaves the channels. *)
Definition foc_init_timers (period : Z) (t : foc_timers) : foc_timers :=
  let c := mkChannel TIM_OCMode_PWM1 true true in
  let half := u16 period / 2 in
  t <| foc_TIM1_ARR := u16 period |> <| TIM1_CCR1 := half |> <| TIM1_CCR2 := half |>
    <| TIM1_CCR3 := half |> <| foc_TIM1_CCR4 := half |> <| TIM8_ARR := u16 period |>
    <| foc_TIM8_CCR1 := 500 |> <| foc_TIM8_CCR2 := 500 |>
    <| foc_preload := mkBridge c c c |> <| foc_outputs := mkBridge c c c |>.

(** [mcpwm_foc_init] up to the wait in [do_dc_cal]. *)
Definition mcpwm_foc_init : PF unit :=
  fvar_set (fun v => foc_vars0 <| m_control_mode := CONTROL_MODE_NONE |>
                               <| foc_timer_thd_stop := foc_timer_thd_stop v |>);;
  fcur_set foc_init_current;;
  ang_set (fun _ => foc_angles0);;
  mot_set (fun _ => motor_state0);;
  smp_set (fun _ => sample0);;
  ftim_set (foc_init_timers foc_top);;
  stop_pwm_hw;;
  arr ← ftim foc_TIM1_ARR;
  TIMER_UPDATE_SAMP (u32 (arr - 2)) 5;;
  ftim_set (fun t => t <| foc_DCCAL := true |>).

(** [do_dc_cal] after the driver reports no fault and 1000 ms have passed. *)
Definition do_dc_cal_start : PF bool :=
  fault ← finp foc_IS_DRV_FAULT;
  if fault : bool then mret false else
  fcur_set (fun c => c <| m_curr0_sum := 0 |> <| m_curr1_sum := 0 |> <| m_curr_samples := 0 |>);;
  mret true.

(** The rest, once 4000 samples are there. *)
Definition mcpwm_foc_init_finish : PF bool :=
  c ← fcur id;
  if m_curr_samples c <? 4000 then mret false else
  fcur_set (fun c => c <| m_curr0_offset := udiv (m_curr0_sum c) (m_curr_samples c) |>
                       <| m_curr1_offset := udiv (m_curr1_sum c) (m_curr_samples c) |>
                       <| m_dccal_done := true |>);;
  ftim_set (fun t => t <| foc_DCCAL := false |>);;
  fvar_set (fun v => v <| foc_timer_thd_stop := false |>);;
  mret true.

(** [mcpwm_foc_deinit]: the thread is told to stop; when it has
    ([mcpwm_foc_deinit_finish]), the timers are reset. *)
Definition mcpwm_foc_deinit : PF unit := fvar_set (fun v => v <| foc_timer_thd_stop := true |>).

Definition mcpwm_foc_deinit_finish : PF bool :=
  stop ← fvar foc_timer_thd_stop;
  if stop : bool then mret false else
  ftim_set (fun t => mkFocTimers 65535 0 0 0 0 65535 0 0 bridge0 bridge0 (foc_DCCAL t));;
  mret true.
End Foc.
