(* ===== verification/FocIsr.v ===== *)
(** * FocIsr: interrupt handler and thread of the FOC driver (src/mcpwm_foc.c)

    [mcpwm_foc_adc_inj_int_handler] runs every other PWM period: it measures
    the currents, runs observer, current controller, PLL and position
    controller, and calls [mc_interface_mc_timer_isr]; what that function does
    to the driver is [interface], an argument.  [timer_thread_step] is one
    round of the thread [timer_thread], every millisecond. *)
From S2P Require Import Prelude Float32 McTypes Motor Utils McpwmState FocState Foc.

Section FocIsr.
Context (conf : mc_configuration).

(** ** The interrupt handler, part by part *)

(** [const float dt = 1.0 / (m_conf->foc_f_sw / 2.0)] *)
Definition isr_dt : f32 := (f1 / (foc_f_sw conf / f_of_int 2))%f32.

Definition current_of (adc : Z) : f32 :=
  (f_of_int adc * (V_REG / f_of_int 4095) / (CURRENT_SHUNT_RES * CURRENT_AMP_GAIN))%f32.

(** Sums for the calibration, and the two phase currents. *)
Definition sample_currents : PF (f32 * f32) :=
  curr0 ← finp foc_inj_ADC1_1; curr1 ← finp foc_inj_ADC2_1;
  fcur_set (fun c => c <| m_curr0_sum := i32 (m_curr0_sum c + curr0) |>
                       <| m_curr1_sum := i32 (m_curr1_sum c + curr1) |>
                       <| m_curr_samples := i32 (m_curr_samples c + 1) |>);;
  c ← fcur id;
  let curr0 := i32 (curr0 - m_curr0_offset c) in
  let curr1 := i32 (curr1 - m_curr1_offset c) in
  fcur_set (fun c => c <| foc_curr_norm_value := [curr0; curr1; i32 (- (curr0 + curr1))] |>);;
  mret (current_of curr0, current_of curr1).

(** One sample of the inductance measurement. *)
Definition take_sample (current : f32) : PF unit :=
  vin ← foc_input_voltage;
  smp_set (fun m => m <| avg_current_tot := (avg_current_tot m + current)%f32 |>
                      <| avg_voltage_tot := (avg_voltage_tot m + vin)%f32 |>
                      <| sample_num := i32 (sample_num m + 1) |>).

Definition inductance_step (ia ib : f32) : PF unit :=
  arr ← ftim foc_TIM1_ARR; m ← smp id; st ← sta inductance_state;
  let duty_cnt := f2u32 (f_of_int arr * measure_inductance_duty m)%f32 in
  let samp_time := u32 (duty_cnt - MCPWM_FOC_INDUCTANCE_SAMPLE_CNT_OFFSET) in
  if st =? 9 then
    take_sample (- (ia + ib))%f32;;
    stop_pwm_hw;;
    TIMER_UPDATE_SAMP (u32 (arr - 2)) 5;;
    sta_set (fun s => s <| inductance_state := 0 |>);;
    smp_set (fun m => m <| measure_inductance_now := false |>)
  else
    (if st =? 0 then TIMER_UPDATE_DUTY_CURRENTSAMP 0 0 0 samp_time;; start_pwm_hw
     else if st =? 2 then TIMER_UPDATE_DUTY duty_cnt 0 duty_cnt
     else if st =? 3 then take_sample (- ib)%f32;; TIMER_UPDATE_DUTY 0 0 0
     else if st =? 5 then TIMER_UPDATE_DUTY 0 duty_cnt duty_cnt
     else if st =? 6 then take_sample (- ia)%f32;; TIMER_UPDATE_DUTY 0 0 0
     else if st =? 8 then TIMER_UPDATE_DUTY 0 0 duty_cnt
     else mret tt);;
    sta_set (fun s => s <| inductance_state := i32 (st + 1) |>).

(** The electrical angle of the encoder; returns the reading. *)
Definition track_encoder : PF f32 :=
  enc ← finp foc_encoder_is_configured;
  if enc : bool then
    enc_ang ← finp foc_encoder_read_deg;
    let phase_tmp := if foc_encoder_inverted conf then (f_of_int 360 - enc_ang)%f32 else enc_ang in
    let phase_tmp := (phase_tmp * foc_encoder_ratio conf - foc_encoder_offset conf)%f32 in
    ang_set (fun a => a <| m_phase_now_encoder :=
      (utils_norm_angle phase_tmp * (M_PI / f_of_int 180))%f32 |>);;
    mret enc_ang
  else mret f0.

(** Control of the duty cycle: the current that leads to it. *)
Definition control_duty (duty_set dt : f32) : PF f32 :=
  m ← mot id; s ← sta id;
  let duty_abs := fabs (duty_now m) in
  if ((fabs duty_set <? duty_abs - flit 5 100)
      || (SIGN (vq m) * i_q m <? lo_current_min conf))%f32 then
    vin ← foc_input_voltage;
    let scale := (f1 / vin)%f32 in
    let error := (duty_set - duty_now m)%f32 in
    let p_term := (error * foc_duty_dowmramp_kp conf * scale)%f32 in
    let i_term := (duty_i_term s + error * (foc_duty_dowmramp_ki conf * dt) * scale)%f32 in
    let i_term := truncate i_term (f_of_int (-1)) f1 in
    sta_set (fun s => s <| duty_i_term := i_term |>);;
    let output := truncate (p_term + i_term)%f32 (f_of_int (-1)) f1 in
    mret (output * lo_current_max conf)%f32
  else
    sta_set (fun s => s <| duty_i_term := f0 |>);;
    mot_set (fun m => m <| max_duty := duty_set |>);;
    mret (if (duty_set >? f0)%f32 then lo_current_max conf else - lo_current_max conf)%f32.

(** The duty cycle to control, if the mode controls it. *)
Definition duty_goal (v : foc_vars) (duty_filtered : f32) : option f32 :=
  let mode := m_control_mode v in
  if (mode =? CONTROL_MODE_SPEED) && (fabs (m_speed_pid_set_rpm v) <? s_pid_min_erpm conf)%f32
  then Some f0
  else if (mode =? CONTROL_MODE_CURRENT_BRAKE) && (fabs duty_filtered <? flit 3 100)%f32
  then Some f0
  else if mode =? CONTROL_MODE_DUTY then Some (m_duty_cycle_set v) else None.

(** The q-axis current the mode asks for. *)
Definition requested_current (phase_diff dt : f32) : PF f32 :=
  m ← mot id;
  mot_set (fun m => m <| max_duty := l_max_duty conf |>);;
  sta_set (fun s => s <| duty_filtered :=
    truncate (LP_FAST (duty_filtered s) (duty_now m) (flit 1 10)) (f_of_int (-1)) f1 |>);;
  v ← fvar id; df ← sta duty_filtered;
  match duty_goal v df with
  | Some duty_set => control_duty duty_set dt
  | None =>
      if m_control_mode v =? CONTROL_MODE_CURRENT_BRAKE then
        let iq := fabs (m_iq_set v) in
        mret (if phase_diff >? f0 then - iq else if phase_diff =? f0 then f0 else iq)%f32
      else mret (m_iq_set v)
  end.

Definition run_observer (dt : f32) : PF unit :=
  m ← mot id;
  ang_set (fun a =>
    let '(x1, x2, phase) := observer_update conf (v_alpha m) (v_beta m) (i_alpha m) (i_beta m) dt
                              (m_observer_x1 a) (m_observer_x2 a) in
    a <| m_observer_x1 := x1 |> <| m_observer_x2 := x2 |> <| m_phase_now_observer := phase |>).

Definition set_phase_now (x : f32) : PF unit := mot_set (fun m => m <| phase := x |>).

Definition hall_phase (dt : f32) : PF unit :=
  a ← ang id;
  p ← correct_hall conf (m_phase_now_observer a) (m_pll_speed a) dt;
  ang_set (fun a => a <| m_phase_now_observer := p |>);;
  set_phase_now p.

Definition encoder_phase : PF unit :=
  a ← ang id;
  p ← correct_encoder conf (m_phase_now_observer a) (m_phase_now_encoder a) (m_pll_speed a);
  set_phase_now p.

(** The d-axis current injected at low duty in sensorless operation. *)
Definition injected_current (m : motor_state_t) : f32 :=
  let duty_abs := fabs (duty_now m) in
  if (duty_abs <? foc_sl_d_current_duty conf)%f32
  then utils_map duty_abs f0 (foc_sl_d_current_duty conf)
         (fabs (iq_target m) * foc_sl_d_current_factor conf)%f32 f0
  else f0.

(** The angle of the motor while it is driven, and the d-axis current. *)
Definition running_phase (dt id_set : f32) : PF f32 :=
  v ← fvar id;
  let mode := foc_sensor_mode conf in
  id_set ← (if mode =? FOC_SENSOR_MODE_ENCODER then
              found ← finp foc_encoder_index_found;
              (if found : bool then encoder_phase
               else a ← ang id; set_phase_now (m_phase_now_encoder_no_index a));;
              mret (if m_phase_override v then id_set else f0)
            else if mode =? FOC_SENSOR_MODE_HALL then
              hall_phase dt;; mret (if m_phase_override v then id_set else f0)
            else if mode =? FOC_SENSOR_MODE_SENSORLESS then
              a ← ang id; m ← mot id;
              set_phase_now (if m_phase_observer_override a then m_phase_now_observer_override a
                             else m_phase_now_observer a);;
              mret (if m_phase_override v then id_set else injected_current m)
            else mret id_set);
  when_f (m_phase_override v) (set_phase_now (m_phase_now_override v));;
  mret id_set.

(** The limits of motor current and input current: the two targets. *)
Definition limit_currents (mod_q id_set iq_set : f32) : f32 * f32 :=
  let iq := truncate iq_set (lo_current_min conf) (lo_current_max conf) in
  let '(id', iq, _) := utils_saturate_vector_2d id_set iq (lo_current_max conf) in
  (id',
   if (mod_q >? flit 1 1000)%f32 then
     truncate iq (lo_in_current_min conf / mod_q)%f32 (lo_in_current_max conf / mod_q)%f32
   else if (mod_q <? - flit 1 1000)%f32 then
     truncate iq (lo_in_current_max conf / mod_q)%f32 (lo_in_current_min conf / mod_q)%f32
   else iq).

(** The motor is driven. *)
Definition running_step (ia ib phase_diff dt : f32) : PF unit :=
  mot_set (fun m => m <| i_alpha := ia |>
                      <| i_beta := (ONE_BY_SQRT3 * ia + TWO_BY_SQRT3 * ib)%f32 |>);;
  v ← fvar id;
  iq_set ← requested_current phase_diff dt;
  when_f (negb (m_phase_override v)) (run_observer dt);;
  id_set ← running_phase dt (m_id_set v);
  m ← mot id;
  let '(id', iq') := limit_currents (mod_q m) id_set iq_set in
  mot_set (fun m => m <| id_target := id' |> <| iq_target := iq' |>);;
  control_current conf dt.

Definition adc_volts (adc : Z) : f32 :=
  (f_of_int adc / f_of_int 4095 * V_REG * ((VIN_R1 + VIN_R2) / VIN_R2))%f32.

(** The back-emf in the frame of the rotor; no current flows. *)
Definition track_bemf (adc : Z -> Z) (s c : f32) (m : motor_state_t) : motor_state_t :=
  (let Va := adc_volts (adc ADC_IND_SENS1) in
   let Vb := adc_volts (adc ADC_IND_SENS3) in
   let Vc := adc_volts (adc ADC_IND_SENS2) in
   let va := TWO_THIRDS * Va - ONE_THIRD * Vb - ONE_THIRD * Vc in
   let vb := ONE_BY_SQRT3 * Vb - ONE_BY_SQRT3 * Vc in
   let d := c * va + s * vb in
   let q := c * vb - s * va in
   m <| v_alpha := va |> <| v_beta := vb |> <| vd := d |> <| vq := q |>
     <| mod_d := d / (TWO_THIRDS * v_bus m) |> <| mod_q := q / (TWO_THIRDS * v_bus m) |>
     <| i_alpha := f0 |> <| i_beta := f0 |> <| i_d := f0 |> <| i_q := f0 |> <| id_filter := f0 |>
     <| iq_filter := f0 |> <| i_bus := f0 |> <| i_abs := f0 |> <| i_abs_filter := f0 |>)%f32.

(** The motor is not driven. *)
Definition undriven_step (dt : f32) : PF unit :=
  adc ← finp foc_ADC_Value; m ← mot id;
  '(s, c) ← flift (utils_fast_sincos_better angle_fuel (phase m));
  mot_set (track_bemf adc s c);;
  run_observer dt;;
  let mode := foc_sensor_mode conf in
  if mode =? FOC_SENSOR_MODE_ENCODER then encoder_phase
  else if mode =? FOC_SENSOR_MODE_HALL then hall_phase dt
  else if mode =? FOC_SENSOR_MODE_SENSORLESS then
    a ← ang id; set_phase_now (m_phase_now_observer a)
  else mret tt.

Definition duty_of (m : motor_state_t) : f32 :=
  (SIGN (vq m) * fsqrt (mod_d m * mod_d m + mod_q m * mod_q m) / SQRT3_BY_2)%f32.

Definition update_pll (dt : f32) : PF unit :=
  m ← mot id; a ← ang id;
  '(p, s) ← flift (pll_run conf (phase m) dt (m_pll_phase a) (m_pll_speed a));
  ang_set (fun a => a <| m_pll_phase := p |> <| m_pll_speed := s |>).

(** The number of sixths of a turn between two angles. *)
Definition tacho_steps (diff : f32) : Z := f2i32 ((diff * RAD2DEG) / f_of_int 60)%f32.

Definition update_tachometer : PF unit :=
  m ← mot id; s ← sta id;
  d ← flift (utils_angle_difference_rad angle_fuel (phase m) (phase_last s));
  let diff := tacho_steps d in
  when_f (negb (diff =? 0))
    (fvar_set (fun v => v <| m_tachometer := i32 (m_tachometer v + diff) |>
                          <| m_tachometer_abs := i32 (m_tachometer_abs v + Z.abs diff) |>);;
     sta_set (fun s => s <| phase_last := phase m |>)).

(** The angle for position control, in degrees. *)
Definition track_position (enc_ang : f32) : PF unit :=
  enc ← finp foc_encoder_is_configured; m ← mot id;
  let angle_now := if enc : bool then enc_ang else (phase m * RAD2DEG)%f32 in
  if ((p_pid_ang_div conf >? flit 98 100) && (p_pid_ang_div conf <? flit 102 100))%f32 then
    fvar_set (fun v => v <| m_pos_pid_now := angle_now |>)
  else
    s ← sta id;
    diff_f ← flift (utils_angle_difference angle_fuel angle_now (angle_last s));
    sta_set (fun s => s <| angle_last := angle_now |>);;
    fvar_set (fun v => v <| m_pos_pid_now :=
      utils_norm_angle (m_pos_pid_now v + diff_f / p_pid_ang_div conf)%f32 |>).

(** [phase_diff], and the new [phase_before]. *)
Definition update_phase_before : PF f32 :=
  m ← mot id; s ← sta id;
  d ← flift (utils_angle_difference_rad angle_fuel (phase m) (phase_before s));
  sta_set (fun s => s <| phase_before := phase m |>);;
  mret d.

Definition position_control (dt : f32) : PF unit :=
  v ← fvar id;
  when_f (m_state v =? MC_STATE_RUNNING)
    (run_pid_control_pos conf (m_pos_pid_now v) (m_pos_pid_set v) dt).

Definition mcpwm_foc_adc_inj_int_handler (interface : PF unit) : PF unit :=
  let dt := isr_dt in
  '(ia, ib) ← sample_currents;
  measuring ← smp measure_inductance_now;
  if measuring : bool then inductance_step ia ib else
  vin ← foc_input_voltage;
  mot_set (fun m => m <| v_bus := vin |>);;
  enc_ang ← track_encoder;
  phase_diff ← update_phase_before;
  st ← fvar m_state;
  (if st =? MC_STATE_RUNNING then running_step ia ib phase_diff dt else undriven_step dt);;
  mot_set (fun m => m <| duty_now := duty_of m |>);;
  update_pll dt;;
  update_tachometer;;
  track_position enc_ang;;
  position_control dt;;
  interface;;
  cnt ← finp foc_TIM12_CNT;
  fvar_set (fun v => v <| foc_last_inj_adc_isr_duration := (f_of_int cnt / f_of_int 10000000)%f32 |>).

(** ** The timer thread *)

(** The part that turns the angles of open-loop operation. *)
Definition openloop_step (dt : f32) : PF unit :=
  m ← mot id; a ← ang id; v ← fvar id; s ← sta id;
  let openloop_rpm := utils_map (fabs (iq_target m)) f0 (lo_current_max conf)
                        f0 (foc_openloop_rpm conf) in
  let min_rads := ((openloop_rpm * f_of_int 2 * M_PI) / f_of_int 60)%f32 in
  let add_min_speed := (if duty_now m >? f0 then min_rads * dt else - min_rads * dt)%f32 in
  no_index ← flift (utils_norm_angle_rad angle_fuel
                      (m_phase_now_encoder_no_index a + add_min_speed)%f32);
  let hyst := (if fabs (m_pll_speed a) <? min_rads then min_rpm_hyst_timer s + dt
               else if min_rpm_hyst_timer s >? f0 then min_rpm_hyst_timer s - dt
               else min_rpm_hyst_timer s)%f32 in
  let braking := (m_control_mode v =? CONTROL_MODE_CURRENT_BRAKE)
                 || (fabs (duty_now m) <? flit 1 1000)%f32 in
  let hyst := if braking then f0 else hyst in
  let timer := if ((hyst >? foc_sl_openloop_hyst conf)
                   && (min_rpm_timer s <=? flit 1 10000))%f32
               then foc_sl_openloop_time conf else min_rpm_timer s in
  if (timer >? f0)%f32 then
    p ← flift (utils_norm_angle_rad angle_fuel
                 (m_phase_now_observer_override a + add_min_speed)%f32);
    ang_set (fun a => a <| m_phase_now_encoder_no_index := no_index |>
                        <| m_phase_now_observer_override := p |>
                        <| m_phase_observer_override := true |>);;
    sta_set (fun s => s <| min_rpm_timer := (timer - dt)%f32 |> <| min_rpm_hyst_timer := f0 |>)
  else
    ang_set (fun a => a <| m_phase_now_encoder_no_index := no_index |>
                        <| m_phase_now_observer_override := m_phase_now_observer a |>
                        <| m_phase_observer_override := false |>);;
    sta_set (fun s => s <| min_rpm_timer := timer |> <| min_rpm_hyst_timer := hyst |>).

(** Samples for the resistance measurement. *)
Definition sample_running : PF unit :=
  st ← fvar m_state; m ← mot id;
  when_f (st =? MC_STATE_RUNNING)
    (smp_set (fun p => p
       <| avg_current_tot := (avg_current_tot p + fsqrt (i_d m * i_d m + i_q m * i_q m))%f32 |>
       <| avg_voltage_tot := (avg_voltage_tot p + fsqrt (vd m * vd m + vq m * vq m))%f32 |>
       <| sample_num := i32 (sample_num p + 1) |>)).

(** One round; [false]: the thread has ended. *)
Definition timer_thread_step : PF bool :=
  stop ← fvar foc_timer_thd_stop;
  if stop : bool then fvar_set (fun v => v <| foc_timer_thd_stop := false |>);; mret false
  else
    let dt := flit 1 1000 in
    openloop_step dt;;
    sample_running;;
    run_pid_control_speed conf dt;;
    mret true.
End FocIsr.
