(* ===== verification/Mcpwm.v ===== *)
(** * Mcpwm: the driver for brushless and DC motors (src/mcpwm.c)

    The functions of mcpwm.c below the interrupt handlers: the state machine
    of the driver, the bridge, the duty cycle and the sampling times, the
    commutation, and the commands.  Every function takes the configuration the
    static pointer [conf] refers to; McpwmIsr.v has the interrupt handlers and
    threads.  An integer division by zero gives 0, as SDIV and UDIV do on the
    target.  The register set-up of [mcpwm_init] appears as its effect on the
    timers; waiting for the calibration is the time between its two parts. *)
From S2P Require Import Prelude Float32 McTypes Motor Utils DigitalFilter McpwmState.

Definition MCPWM_SWITCH_FREQUENCY_MIN : Z := 3000.
Definition MCPWM_SWITCH_FREQUENCY_MAX : Z := 40000.
Definition MCPWM_SWITCH_FREQUENCY_DC_MOTOR : Z := 25000.
Definition MCPWM_RPM_TIMER_FREQ : f32 := f_of_int 1000000.
Definition MCPWM_CMD_STOP_TIME : Z := 0.
Definition MCPWM_PID_TIME_K : f32 := flit 1 1000.
Definition KV_FIR_TAPS_BITS : Z := 7.
Definition AMP_FIR_TAPS_BITS : Z := 7.
Definition CURR_FIR_TAPS_BITS : Z := 4.

(** Integer division on the target. *)
Definition sdiv (a b : Z) : Z := if b =? 0 then 0 else Z.quot a b.

(** ** Timer library (stm32f4xx_tim.c) *)

Definition on_channel (ch : channel) (f : tim_channel -> tim_channel) : P unit :=
  tim_set (fun t => t <| preload := upd_channel ch f (preload t) |>).

(** Selecting a mode also disables the channel. *)
Definition TIM_SelectOCxM (ch : channel) (mode : oc_mode) : P unit :=
  on_channel ch (fun c => mkChannel mode false (CCxNE c)).
Definition TIM_CCxCmd (ch : channel) (b : bool) : P unit :=
  on_channel ch (fun c => mkChannel (OCxM c) b (CCxNE c)).
Definition TIM_CCxNCmd (ch : channel) (b : bool) : P unit :=
  on_channel ch (fun c => mkChannel (OCxM c) (CCxE c) b).

(** [TIM_GenerateEvent(TIM1, TIM_EventSource_COM)] *)
Definition commutation_event : P unit := tim_set (fun t => t <| outputs := preload t |>).

(** The three calls that set up one channel. *)
Definition set_channel (ch : channel) (mode : oc_mode) (highside lowside : bool) : P unit :=
  TIM_SelectOCxM ch mode;; TIM_CCxCmd ch highside;; TIM_CCxNCmd ch lowside.

Section Mcpwm.
Context (conf : mc_configuration).

Definition IS_DETECTING : P bool := st ← var state; mret (st =? MC_STATE_DETECTING).

(** ** Getters *)

Definition mcpwm_get_comm_step : P Z := var comm_step.
Definition mcpwm_get_duty_cycle_set : P f32 := var dutycycle_set.
Definition mcpwm_get_duty_cycle_now : P f32 := var dutycycle_now.
Definition mcpwm_get_switching_frequency_now : P f32 := var switching_frequency_now.
Definition mcpwm_get_rpm : P f32 :=
  d ← var direction; r ← var rpm_now; mret (if d : bool then r else (- r)%f32).
Definition mcpwm_get_state : P Z := var state.
Definition mcpwm_get_kv : P f32 :=
  r ← var rpm_now; adc ← inp ADC_Value; d ← var dutycycle_now;
  mret (r / (input_voltage (adc ADC_IND_VIN_SENS) * fabs d))%f32.
Definition mcpwm_get_kv_filtered : P f32 :=
  s ← sig kv_fir_samples; c ← sig kv_fir_coeffs; i ← sig kv_fir_index;
  lift (filter_run_fir_iteration s c KV_FIR_TAPS_BITS i).
Definition mcpwm_get_tot_current : P f32 := cur last_current_sample.
Definition mcpwm_get_tot_current_filtered : P f32 := cur last_current_sample_filtered.
Definition mcpwm_get_tot_current_directional : P f32 :=
  retval ← mcpwm_get_tot_current; d ← var dutycycle_now;
  mret (if d >? f0 then retval else - retval)%f32.
Definition mcpwm_get_tot_current_directional_filtered : P f32 :=
  retval ← mcpwm_get_tot_current_filtered; d ← var dutycycle_now;
  mret (if d >? f0 then retval else - retval)%f32.
Definition mcpwm_get_tot_current_in : P f32 :=
  c ← mcpwm_get_tot_current; d ← var dutycycle_now; mret (c * fabs d)%f32.
Definition mcpwm_get_tot_current_in_filtered : P f32 :=
  c ← mcpwm_get_tot_current_filtered; d ← var dutycycle_now; mret (c * fabs d)%f32.
Definition mcpwm_get_tachometer_value (reset : bool) : P Z :=
  val ← var tachometer; when_p reset (var_set (fun v => v <| tachometer := 0 |>));; mret val.
Definition mcpwm_get_tachometer_abs_value (reset : bool) : P Z :=
  val ← var tachometer_abs; when_p reset (var_set (fun v => v <| tachometer_abs := 0 |>));; mret val.
Definition mcpwm_get_comm_mode : Z := comm_mode conf.
Definition mcpwm_set_comm_mode (mode : Z) : mc_configuration := conf <| comm_mode := mode |>.
Definition mcpwm_get_last_adc_isr_duration : P f32 := cur last_adc_isr_duration.
Definition mcpwm_get_last_inj_adc_isr_duration : P f32 := cur last_inj_adc_isr_duration.
Definition mcpwm_get_rpm_dep : P mc_rpm_dep_struct := sig rpm_dep.
Definition mcpwm_is_dccal_done : P bool := cur dccal_done.

Definition mcpwm_read_reset_avg_cycle_integrator : P f32 :=
  s ← sig cycle_integrator_sum; n ← sig cycle_integrator_iterations;
  sig_set (fun g => g <| cycle_integrator_sum := f0 |> <| cycle_integrator_iterations := f0 |>);;
  mret (s / n)%f32.

(** ** Timer settings *)

(** The registers [ARR] and [CCRx] have 16 bits. *)
Definition write_timers (t : pwm_timers) : pwm_timers :=
  let s := timer_struct t in
  t <| TIM1_ARR := u16 (top s) |> <| TIM1_CCR := u16 (duty s) |>
    <| TIM8_CCR1 := u16 (val_sample s) |> <| TIM1_CCR4 := u16 (curr1_sample s) |>
    <| TIM8_CCR2 := u16 (curr2_sample s) |> <| timer_struct := s <| updated := true |> |>.

Definition read_TIM1_CNT : P Z :=
  c ← inp TIM1_CNT; n ← inp TIM1_CNT_reads;
  inp_set (fun i => i <| TIM1_CNT_reads := S n |>);; mret (c n).

(** [!timer_struct.updated && TIM1->CNT > 10 && TIM1->CNT < (TIM1->ARR - 500)] *)
Definition update_far_away : P bool :=
  t ← tim timer_struct;
  if updated t then mret false else
  c ← read_TIM1_CNT;
  if negb (10 <? c) then mret false else
  c ← read_TIM1_CNT; arr ← tim TIM1_ARR;
  mret (c <? u32 (arr - 500)).

Definition update_timer_attempt : P unit :=
  b ← update_far_away; when_p b (tim_set write_timers).

Definition set_next_timer_settings (settings : mc_timer_struct) : P unit :=
  tim_set (fun t => t <| timer_struct := settings <| updated := false |> |>);;
  update_timer_attempt.

(** The two samples of the currents in bipolar mode and the phase whose
    current is sampled with the voltages. *)
Definition bipolar_samples (step : Z) (dir : bool) (samp_neg samp_pos samp_zero : Z)
    : option (Z * Z * Z) :=
  if step =? 1 then Some (if dir then (samp_zero, samp_neg, 2) else (samp_zero, samp_pos, 0))
  else if step =? 2 then Some (if dir then (samp_pos, samp_neg, 2) else (samp_pos, samp_zero, 0))
  else if step =? 3 then Some (if dir then (samp_pos, samp_zero, 0) else (samp_pos, samp_neg, 2))
  else if step =? 4 then Some (if dir then (samp_zero, samp_pos, 0) else (samp_zero, samp_neg, 2))
  else if step =? 5 then Some (if dir then (samp_neg, samp_pos, 1) else (samp_neg, samp_zero, 1))
  else if step =? 6 then Some (if dir then (samp_neg, samp_zero, 1) else (samp_neg, samp_pos, 1))
  else None.

Definition unipolar_samp_volt (step : Z) (dir : bool) : Z :=
  if dir then
    if step =? 1 then 3 else if step =? 2 then 2 else if step =? 3 then 2
    else if step =? 4 then 1 else if step =? 5 then 1 else if step =? 6 then 3 else 0
  else
    if step =? 1 then 1 else if step =? 2 then 2 else if step =? 3 then 2
    else if step =? 4 then 3 else if step =? 5 then 3 else if step =? 6 then 1 else 0.

(** The new structure and [curr_samp_volt]. *)
Definition adc_sample_pos (detecting : bool) (step : Z) (dir : bool) (t : mc_timer_struct)
    : mc_timer_struct * Z :=
  let top := top t in
  let limit := f2u32 (f_of_int top * l_max_duty conf)%f32 in
  let duty := if limit <? duty t then limit else duty t in
  let samples v c1 c2 := t <| val_sample := v |> <| curr1_sample := c1 |> <| curr2_sample := c2 |> in
  if motor_type conf =? MOTOR_TYPE_DC then
    if 1000 <? duty then (samples (duty / 2) (u32 (top - 10)) (u32 (top - 10)), 0)
    else (samples (u32 (duty + 800)) (u32 (top - 10)) (u32 (top - 10)), 1)
  else if detecting then
    let c := u32 (u32 (top - duty) / 2 + duty) in (samples (duty / 2) c c, 0)
  else if pwm_mode conf =? PWM_MODE_BIPOLAR then
    let samp_neg := u32 (top - 2) in
    let samp_pos := u32 (duty + u32 (top - duty) / 2) in
    let samp_zero := u32 (top - 2) in
    match bipolar_samples step dir samp_neg samp_pos samp_zero with
    | Some (c1, c2, v) => (samples (top / 4) c1 c2, v)
    | None => (t <| val_sample := top / 4 |>, 0)
    end
  else
    let c := u32 (duty + u32 (top - duty) / 2) in
    let c := if u32 (top - 70) <? c then u32 (top - 70) else c in
    (samples (duty / 2) c c, if top / 2 <? duty then unipolar_samp_volt step dir else 0).

Definition update_adc_sample_pos (t : mc_timer_struct) : P mc_timer_struct :=
  detecting ← IS_DETECTING; step ← var comm_step; dir ← var direction;
  let '(t, volt) := adc_sample_pos detecting step dir t in
  cur_set (fun c => c <| curr_samp_volt := volt |>);;
  mret t.

Definition set_switching_frequency (frequency : f32) : P unit :=
  var_set (fun v => v <| switching_frequency_now := frequency |>);;
  timer_tmp ← tim timer_struct;
  let timer_tmp := timer_tmp <| top := u32 (sdiv SYSTEM_CORE_CLOCK (f2i32 frequency)) |> in
  timer_tmp ← update_adc_sample_pos timer_tmp;
  set_next_timer_settings timer_tmp.

(** ** The bridge *)

Definition all_channels (mode : oc_mode) (highside lowside : bool) : P unit :=
  set_channel TIM_Channel_1 mode highside lowside;;
  set_channel TIM_Channel_2 mode highside lowside;;
  set_channel TIM_Channel_3 mode highside lowside.

Definition stop_pwm_hw : P unit :=
  all_channels TIM_ForcedAction_InActive true false;;
  commutation_event;;
  set_switching_frequency (f_of_int MCPWM_SWITCH_FREQUENCY_MAX).

Definition stop_pwm_ll : P unit :=
  var_set (fun v => v <| state := MC_STATE_OFF |> <| ignore_iterations := MCPWM_CMD_STOP_TIME |>);;
  stop_pwm_hw.

Definition full_brake_hw : P unit :=
  all_channels TIM_ForcedAction_InActive true true;;
  commutation_event;;
  set_switching_frequency (f_of_int MCPWM_SWITCH_FREQUENCY_MAX).

Definition full_brake_ll : P unit :=
  var_set (fun v => v <| state := MC_STATE_FULL_BRAKE |>
                      <| ignore_iterations := MCPWM_CMD_STOP_TIME |>);;
  full_brake_hw.

(** The modes of the driven phases. *)
Definition negative_oc_mode (detecting : bool) : oc_mode :=
  if negb detecting && (pwm_mode conf =? PWM_MODE_BIPOLAR) then TIM_OCMode_PWM2
  else TIM_OCMode_Inactive.
Definition positive_lowside (detecting : bool) : bool :=
  negb (negb detecting && (pwm_mode conf =? PWM_MODE_NONSYNCHRONOUS_HISW)).

(** One commutation step: the floating, the positive and the negative phase. *)
Definition drive_phases (zero plus minus : channel) : P unit :=
  detecting ← IS_DETECTING;
  set_channel zero TIM_OCMode_Inactive true false;;
  set_channel plus TIM_OCMode_PWM1 true (positive_lowside detecting);;
  set_channel minus (negative_oc_mode detecting) true true.

Definition set_next_comm_step (next_step : Z) : P unit :=
  dir ← var direction;
  if motor_type conf =? MOTOR_TYPE_DC then
    set_channel TIM_Channel_2 TIM_OCMode_Inactive true false;;
    if dir : bool then
      set_channel TIM_Channel_1 TIM_OCMode_PWM1 true true;;
      set_channel TIM_Channel_3 TIM_OCMode_Inactive true true
    else
      set_channel TIM_Channel_3 TIM_OCMode_PWM1 true true;;
      set_channel TIM_Channel_1 TIM_OCMode_Inactive true true
  else if next_step =? 1 then
    if dir then drive_phases TIM_Channel_1 TIM_Channel_2 TIM_Channel_3
    else drive_phases TIM_Channel_1 TIM_Channel_3 TIM_Channel_2
  else if next_step =? 2 then
    if dir then drive_phases TIM_Channel_2 TIM_Channel_1 TIM_Channel_3
    else drive_phases TIM_Channel_3 TIM_Channel_1 TIM_Channel_2
  else if next_step =? 3 then
    if dir then drive_phases TIM_Channel_3 TIM_Channel_1 TIM_Channel_2
    else drive_phases TIM_Channel_2 TIM_Channel_1 TIM_Channel_3
  else if next_step =? 4 then
    if dir then drive_phases TIM_Channel_1 TIM_Channel_3 TIM_Channel_2
    else drive_phases TIM_Channel_1 TIM_Channel_2 TIM_Channel_3
  else if next_step =? 5 then
    if dir then drive_phases TIM_Channel_2 TIM_Channel_3 TIM_Channel_1
    else drive_phases TIM_Channel_3 TIM_Channel_2 TIM_Channel_1
  else if next_step =? 6 then
    if dir then drive_phases TIM_Channel_3 TIM_Channel_2 TIM_Channel_1
    else drive_phases TIM_Channel_2 TIM_Channel_3 TIM_Channel_1
  else all_channels TIM_ForcedAction_InActive true false.

(** ** Commutation *)

Definition read_hall : P Z :=
  h1 ← inp HALL1; h2 ← inp HALL2; h3 ← inp HALL3;
  mret (Z.lor (Z.lor (Z.b2z h1) (Z.shiftl (Z.b2z h2) 1)) (Z.shiftl (Z.b2z h3) 2)).

Definition mcpwm_read_hall_phase : P Z :=
  h ← read_hall; dir ← var direction; table ← var hall_to_phase_table;
  lift (table !!? (h + (if dir : bool then 8 else 0))).

(** The step difference brought into -2 .. 3. *)
Definition tacho_diff (step last_step : Z) : Z :=
  let d := Z.rem (step - last_step) 6 in
  if 3 <? d then d - 6 else if d <? -2 then d + 6 else d.

Definition update_rpm_tacho : P unit :=
  v ← var id; cnt ← inp TIM2_CNT;
  let step := comm_step v - 1 in
  let tacho_diff := tacho_diff step (last_step v) in
  var_set (fun v => v <| last_step := step |>);;
  when_p (negb (tacho_diff =? 0))
    (sig_set (fun g => g <| rpm_dep := (rpm_dep g)
       <| comms := i32 (comms (rpm_dep g) + tacho_diff) |>
       <| time_at_comm := u32 (time_at_comm (rpm_dep g) + cnt) |> |>);;
     inp_set (fun i => i <| TIM2_CNT := 0 |>));;
  var_set (fun v =>
    v <| tachometer_for_direction := i32 (tachometer_for_direction v + tacho_diff) |>
      <| tachometer_abs := i32 (tachometer_abs v + tacho_diff) |>
      <| tachometer := i32 (if direction v then tachometer v + tacho_diff
                            else tachometer v - tacho_diff) |>).

Definition update_sensor_mode : P unit :=
  rpm ← mcpwm_get_rpm;
  var_set (fun v => v <| sensorless_now :=
    (sensor_mode conf =? SENSOR_MODE_SENSORLESS) ||
    ((sensor_mode conf =? SENSOR_MODE_HYBRID) && (fabs rpm >? hall_sl_erpm conf)%f32) |>).

(** [while (comm_step > 6) comm_step -= 6; while (comm_step < 1) comm_step += 6;]
    in closed form. *)
Definition wrap_step (n : Z) : Z := (n - 1) mod 6 + 1.

(** The second half of [commutate]: the new phases take effect. *)
Definition commutate_now : P unit :=
  commutation_event;;
  var_set (fun v => v <| has_commutated := true |>);;
  timer_tmp ← tim timer_struct;
  timer_tmp ← update_adc_sample_pos timer_tmp;
  set_next_timer_settings timer_tmp;;
  update_sensor_mode.

Definition commutate (steps : Z) : P unit :=
  v ← var id; g ← sig id;
  sums ← lift (put_ix (comm_step v - 1) (pwm_cycles_sum g) (last_pwm_cycles_sums g));
  sig_set (fun g => g <| last_pwm_cycles_sum := pwm_cycles_sum g |> <| last_pwm_cycles_sums := sums |>
                      <| pwm_cycles_sum := f0 |> <| pwm_cycles := 0 |>);;
  if (motor_type conf =? MOTOR_TYPE_BLDC) && sensorless_now v then
    var_set (fun v => v <| comm_step := wrap_step (i32 (comm_step v + steps)) |>);;
    update_rpm_tacho;;
    st ← var state;
    if negb (st =? MC_STATE_RUNNING) then update_sensor_mode else
    step ← var comm_step;
    set_next_comm_step step;;
    commutate_now
  else commutate_now.

(** ** Duty cycle *)

Definition hw_duty (detecting : bool) (top : Z) (dutyCycle : f32) : Z :=
  u16 (f2u32
    (if (motor_type conf =? MOTOR_TYPE_BLDC) && (pwm_mode conf =? PWM_MODE_BIPOLAR)
        && negb detecting
     then ((f_of_int top / f_of_int 2) * dutyCycle + (f_of_int top / f_of_int 2))%f32
     else (f_of_int top * dutyCycle)%f32)).

Definition hw_frequency (detecting : bool) (dutyCycle : f32) : f32 :=
  if motor_type conf =? MOTOR_TYPE_DC then f_of_int MCPWM_SWITCH_FREQUENCY_DC_MOTOR
  else if detecting || (pwm_mode conf =? PWM_MODE_BIPOLAR) then f_of_int MCPWM_SWITCH_FREQUENCY_MAX
  else (f_of_int MCPWM_SWITCH_FREQUENCY_MIN * (f1 - fabs dutyCycle)
        + f_of_int MCPWM_SWITCH_FREQUENCY_MAX * fabs dutyCycle)%f32.

Definition set_duty_cycle_hw (dutyCycle : f32) : P unit :=
  timer_tmp ← tim timer_struct;
  let dutyCycle := (utils_truncate_number dutyCycle (l_min_duty conf) (l_max_duty conf)).1 in
  detecting ← IS_DETECTING;
  let frequency := hw_frequency detecting dutyCycle in
  let timer_tmp := timer_tmp <| duty := hw_duty detecting (top timer_tmp) dutyCycle |>
                             <| top := u32 (sdiv SYSTEM_CORE_CLOCK (f2i32 frequency)) |> in
  var_set (fun v => v <| switching_frequency_now := frequency |>);;
  timer_tmp ← update_adc_sample_pos timer_tmp;
  set_next_timer_settings timer_tmp.

(** The last part of [set_duty_cycle_ll]: start the motor if it is not running. *)
Definition start_running : P unit :=
  v ← var id;
  if motor_type conf =? MOTOR_TYPE_DC then
    var_set (fun v => v <| state := MC_STATE_RUNNING |>);;
    set_next_comm_step (comm_step v);;
    commutate 1
  else if sensorless_now v then
    if negb (state v =? MC_STATE_RUNNING) then
      if state v =? MC_STATE_OFF then
        var_set (fun v => v <| state := MC_STATE_RUNNING |>);;
        when_p (fabs (rpm_now v) <? sl_min_erpm conf)%f32 (commutate 1)
      else if state v =? MC_STATE_FULL_BRAKE then
        current ← mcpwm_get_tot_current_filtered;
        when_p ((fabs (rpm_now v) <? sl_min_erpm conf)
                && (current <? sl_max_fullbreak_current_dir_change conf))%f32
          (var_set (fun v => v <| state := MC_STATE_RUNNING |>);; commutate 1)
      else mret tt
    else mret tt
  else if negb (state v =? MC_STATE_RUNNING) then
    var_set (fun v => v <| state := MC_STATE_RUNNING |>);;
    phase ← mcpwm_read_hall_phase;
    var_set (fun v => v <| comm_step := phase |>);;
    set_next_comm_step phase;;
    commutate 1
  else mret tt.

Definition max_erpm_fbrake (mode : Z) : f32 :=
  if (mode =? CONTROL_MODE_CURRENT) || (mode =? CONTROL_MODE_CURRENT_BRAKE)
  then l_max_erpm_fbrake_cc conf else l_max_erpm_fbrake conf.

Definition run_at_duty (dutyCycle : f32) : P unit := set_duty_cycle_hw dutyCycle;; start_running.

Definition set_duty_cycle_ll (dutyCycle : f32) : P unit :=
  let forward := (dutyCycle >=? l_min_duty conf)%f32 in
  let backward := negb forward && (dutyCycle <=? - l_min_duty conf)%f32 in
  when_p forward (var_set (fun v => v <| direction := true |>));;
  when_p backward (var_set (fun v => v <| direction := false |>));;
  let dutyCycle := if backward then (- dutyCycle)%f32 else dutyCycle in
  if (dutyCycle <? l_min_duty conf)%f32 then
    v ← var id;
    if state v =? MC_STATE_RUNNING then
      if (fabs (rpm_now v) >? max_erpm_fbrake (control_mode v))%f32
      then run_at_duty (l_min_duty conf) else full_brake_ll
    else if state v =? MC_STATE_DETECTING then stop_pwm_ll
    else mret tt
  else run_at_duty (if (dutyCycle >? l_max_duty conf)%f32 then l_max_duty conf else dutyCycle).

(** A motor that still turns is ramped down before the phases are shorted. *)
Definition run_down_or_brake : P unit :=
  v ← var id;
  if (if motor_type conf =? MOTOR_TYPE_DC then (fabs (dutycycle_now v) >? flit 1 10)%f32
      else (fabs (rpm_now v) >? l_max_erpm_fbrake conf)%f32)
  then var_set (fun v => v <| state := MC_STATE_RUNNING |>)
  else full_brake_ll.

Definition set_duty_cycle_hl (dutyCycle : f32) : P unit :=
  let dutyCycle := (utils_truncate_number dutyCycle (- l_max_duty conf)%f32 (l_max_duty conf)).1 in
  st ← var state;
  if st =? MC_STATE_DETECTING then stop_pwm_ll else
  var_set (fun v => v <| dutycycle_set := dutyCycle |>);;
  if negb (st =? MC_STATE_RUNNING) then
    if (fabs dutyCycle >=? l_min_duty conf)%f32 then
      now ← var dutycycle_now;
      when_p (fabs now <? l_min_duty conf)%f32
        (var_set (fun v => v <| dutycycle_now := (SIGN dutyCycle * l_min_duty conf)%f32 |>));;
      now ← var dutycycle_now;
      set_duty_cycle_ll now
    else run_down_or_brake
  else mret tt.

(** ** Commands *)

Definition set_mode (mode : Z) : P unit := var_set (fun v => v <| control_mode := mode |>).

Definition mcpwm_stop_pwm : P unit := set_mode CONTROL_MODE_NONE;; stop_pwm_ll.

Definition mcpwm_set_duty (dutyCycle : f32) : P unit :=
  set_mode CONTROL_MODE_DUTY;; set_duty_cycle_hl dutyCycle.

Definition mcpwm_set_duty_noramp (dutyCycle : f32) : P unit :=
  set_mode CONTROL_MODE_DUTY;;
  st ← var state;
  if negb (st =? MC_STATE_RUNNING) then set_duty_cycle_hl dutyCycle
  else var_set (fun v => v <| dutycycle_set := dutyCycle |> <| dutycycle_now := dutyCycle |>);;
       set_duty_cycle_ll dutyCycle.

Definition mcpwm_set_pid_speed (rpm : f32) : P unit :=
  set_mode CONTROL_MODE_SPEED;; var_set (fun v => v <| speed_pid_set_rpm := rpm |>).

Definition mcpwm_set_pid_pos (pos : f32) : P unit :=
  set_mode CONTROL_MODE_POS;; var_set (fun v => v <| pos_pid_set_pos := pos |>);;
  st ← var state;
  when_p (negb (st =? MC_STATE_RUNNING)) (set_duty_cycle_hl (l_min_duty conf)).

Definition mcpwm_set_current (current : f32) : P unit :=
  if (fabs current <? cc_min_current conf)%f32 then set_mode CONTROL_MODE_NONE;; stop_pwm_ll else
  let current := (utils_truncate_number current (lo_current_min conf) (lo_current_max conf)).1 in
  set_mode CONTROL_MODE_CURRENT;;
  var_set (fun v => v <| current_set := current |>);;
  st ← var state;
  when_p (negb (st =? MC_STATE_RUNNING)) (set_duty_cycle_hl (SIGN current * l_min_duty conf)%f32).

Definition mcpwm_set_brake_current (current : f32) : P unit :=
  if (fabs current <? cc_min_current conf)%f32 then set_mode CONTROL_MODE_NONE;; stop_pwm_ll else
  let max := fabs (lo_current_min conf) in
  let current := (utils_truncate_number current (- max)%f32 max).1 in
  set_mode CONTROL_MODE_CURRENT_BRAKE;;
  var_set (fun v => v <| current_set := current |>);;
  st ← var state;
  when_p (negb (st =? MC_STATE_RUNNING) && negb (st =? MC_STATE_FULL_BRAKE)) run_down_or_brake.

(** ** Start-up and configuration *)

(** [fwd_to_rev] *)
Definition fwd_to_rev : list Z := [-1; 1; 6; 5; 4; 3; 2].

Definition mcpwm_init_hall_table (table : list Z) : P unit :=
  t ← var hall_to_phase_table;
  t ← lift (for_loop 8 0 1 (fun i t =>
    ind_now ← table !!? i;
    t ← put_ix (8 + i) ind_now t;
    if ind_now <? 1 then put_ix i ind_now t
    else r ← fwd_to_rev !!? ind_now; put_ix i r t) t);
  var_set (fun v => v <| hall_to_phase_table := t |>).

Definition mcpwm_set_configuration : P unit :=
  set_mode CONTROL_MODE_NONE;;
  stop_pwm_ll;;
  mcpwm_init_hall_table (hall_table conf);;
  update_sensor_mode.

Context `{Libm}.

(** The FIR filters. *)
Definition create_filters : P unit :=
  g ← sig id;
  kv ← lift (filter_create_fir_lowpass (flit 2 100) KV_FIR_TAPS_BITS true (kv_fir_coeffs g));
  amp ← lift (filter_create_fir_lowpass (flit 2 100) AMP_FIR_TAPS_BITS true (amp_fir_coeffs g));
  crt ← lift (filter_create_fir_lowpass (flit 15 100) CURR_FIR_TAPS_BITS true (current_fir_coeffs g));
  sig_set (fun g => g <| kv_fir_coeffs := kv |> <| amp_fir_coeffs := amp |>
                      <| current_fir_coeffs := crt |>).

Definition init_vars (v : pwm_vars) : pwm_vars :=
  v <| comm_step := 1 |> <| detect_step := 0 |> <| direction := true |> <| rpm_now := f0 |>
    <| dutycycle_set := f0 |> <| dutycycle_now := f0 |> <| speed_pid_set_rpm := f0 |>
    <| pos_pid_set_pos := f0 |> <| current_set := f0 |> <| tachometer := 0 |>
    <| tachometer_abs := 0 |> <| tachometer_for_direction := 0 |> <| state := MC_STATE_OFF |>
    <| control_mode := CONTROL_MODE_NONE |>
    <| switching_frequency_now := f_of_int MCPWM_SWITCH_FREQUENCY_MAX |>
    <| ignore_iterations := 0 |> <| cycles_running := 0 |> <| slow_ramping_cycles := 0 |>
    <| has_commutated := false |>.

Definition init_signal (g : pwm_signal) : pwm_signal :=
  g <| rpm_dep := rpm_dep0 |> <| cycle_integrator_sum := f0 |> <| cycle_integrator_iterations := f0 |>
    <| pwm_cycles_sum := f0 |> <| pwm_cycles := 0 |> <| last_pwm_cycles_sum := f0 |>
    <| last_pwm_cycles_sums := zero6 |>.

Definition init_current (c : pwm_current) : pwm_current :=
  c <| last_current_sample := f0 |> <| last_current_sample_filtered := f0 |> <| curr_samp_volt := 0 |>
    <| dccal_done := false |> <| hall_detect_table := replicate 8 (replicate 7 0) |>.

(** [TIM_OCxInit] on the three channels: half the period, both sides on. *)
Definition init_timers (period : Z) (t : pwm_timers) : pwm_timers :=
  let c := mkChannel TIM_OCMode_PWM1 true true in
  t <| TIM1_ARR := u16 period |> <| TIM1_CCR := u16 period / 2 |> <| TIM1_CCR4 := u16 period / 2 |>
    <| TIM8_CCR1 := 500 |> <| TIM8_CCR2 := 500 |>
    <| preload := mkBridge c c c |> <| outputs := mkBridge c c c |>.

(** [mcpwm_init] up to the calibration of the current offset, which it starts. *)
Definition mcpwm_init : P unit :=
  var_set init_vars;; sig_set init_signal;; cur_set init_current;;
  update_sensor_mode;;
  mcpwm_init_hall_table (hall_table conf);;
  create_filters;;
  f ← var switching_frequency_now;
  tim_set (init_timers (sdiv SYSTEM_CORE_CLOCK (f2i32 f)));;
  stop_pwm_hw;;
  arr ← tim TIM1_ARR;
  timer_tmp ← update_adc_sample_pos (mkTimerStruct false arr (arr / 2) 0 0 0);
  set_next_timer_settings timer_tmp;;
  tim_set (fun t => t <| DCCAL := true |>);;
  cur_set (fun c => c <| curr0_sum := 0 |> <| curr1_sum := 0 |> <| curr_start_samples := 0 |>).

(** The rest of [do_dc_cal] and [mcpwm_init], once 4000 samples are there:
    the result tells whether the wait is over. *)
Definition mcpwm_init_finish : P bool :=
  c ← cur id;
  if curr_start_samples c <? 4000 then mret false else
  cur_set (fun c => c <| curr0_offset := sdiv (curr0_sum c) (curr_start_samples c) |>
                      <| curr1_offset := sdiv (curr1_sum c) (curr_start_samples c) |>
                      <| dccal_done := true |>);;
  tim_set (fun t => t <| DCCAL := false |>);;
  var_set (fun v => v <| timer_thd_stop := false |> <| rpm_thd_stop := false |>
                      <| tachometer := 0 |> <| tachometer_abs := 0 |>);;
  mret true.

(** [mcpwm_deinit]: the threads are told to stop; when both have
    ([mcpwm_deinit_finish]), the timers are reset, which turns the bridge off. *)
Definition mcpwm_deinit : P unit :=
  var_set (fun v => v <| timer_thd_stop := true |> <| rpm_thd_stop := true |>).

Definition mcpwm_deinit_finish : P bool :=
  v ← var id;
  if timer_thd_stop v || rpm_thd_stop v then mret false else
  tim_set (fun t => t <| TIM1_ARR := 65535 |> <| TIM1_CCR := 0 |> <| TIM1_CCR4 := 0 |>
                      <| TIM8_CCR1 := 0 |> <| TIM8_CCR2 := 0 |>
                      <| preload := bridge0 |> <| outputs := bridge0 |>);;
  mret true.

(** ** Detection *)

(** [refused] is the answer of [mc_interface_try_input]. *)
Definition mcpwm_set_detect (refused : bool) : P unit :=
  if refused then mret tt else
  set_mode CONTROL_MODE_NONE;;
  stop_pwm_hw;;
  set_switching_frequency (f_of_int MCPWM_SWITCH_FREQUENCY_MAX);;
  cur_set (fun c => c <| mcpwm_detect_currents := zero6 |> <| mcpwm_detect_currents_avg := zero6 |>
                      <| mcpwm_detect_avg_samples := zero6 |>);;
  var_set (fun v => v <| state := MC_STATE_DETECTING |>).

Definition mcpwm_get_detect_pos : P f32 :=
  c ← cur id;
  let v i := (nth i (mcpwm_detect_currents_avg c) f0 / nth i (mcpwm_detect_avg_samples c) f0)%f32 in
  cur_set (fun c => c <| mcpwm_detect_currents_avg := zero6 |> <| mcpwm_detect_avg_samples := zero6 |>);;
  let v0 := (v 0%nat + v 3%nat)%f32 in
  let v1 := (v 1%nat + v 4%nat)%f32 in
  let v2 := (v 2%nat + v 5%nat)%f32 in
  let offset := ((v0 + v1 + v2) / f_of_int 3)%f32 in
  let v0 := (v0 - offset)%f32 in
  let v1 := (v1 - offset)%f32 in
  let v2 := (v2 - offset)%f32 in
  let amp := fsqrt ((v0 * v0 + v1 * v1 + v2 * v2) / flit 15 10)%f32 in
  let v0 := (v0 / amp)%f32 in
  let v1 := (v1 / amp)%f32 in
  let v2 := (v2 / amp)%f32 in
  let ph := (asinf v0 * f_of_int 180 / M_PI)%f32 in
  mret (utils_norm_angle (if v1 <? v2 then f_of_int 180 - ph else ph)%f32).

Definition mcpwm_reset_hall_detect_table : P unit :=
  cur_set (fun c => c <| hall_detect_table := replicate 8 (replicate 7 0) |>).

(** One row: the step seen most often, if it was seen more than 15 times. *)
Definition hall_row (row : list Z) : option Z :=
  '(_, res) ← for_loop 6 1 1 (fun j '(samples, res) =>
    n ← row !!? j;
    Some (if samples <? n then (n, if 15 <? n then j else res) else (samples, res))) (0, -1);
  Some res.

(** The counts of rows without a step and of different steps, with the flags
    of the steps met. *)
Definition hall_count (table : list Z) : option (Z * Z) :=
  '(invalid, tot, _) ← for_loop 8 0 1 (fun i '(invalid, tot, nums) =>
    t ← table !!? i;
    if t =? -1 then Some (invalid + 1, tot, nums)
    else n ← nums !!? t;
         if n =? 0 then nums ← put_ix t 1 nums; Some (invalid, tot + 1, nums)
         else Some (invalid, tot, nums)) (0, 0, replicate 7 0);
  Some (invalid, tot).

(** The result and the table, which is left alone when there is no hall port.
    WS2811_ENABLE is 0. *)
Definition mcpwm_get_hall_detect_result (table : list Z) : P (Z * list Z) :=
  if negb (m_sensor_port_mode conf =? SENSOR_PORT_MODE_HALL) then mret (-3, table) else
  rows ← cur hall_detect_table;
  table ← lift (for_loop 8 0 1 (fun i table =>
    row ← rows !!? i; res ← hall_row row; put_ix i res table) table);
  '(invalid, tot) ← lift (hall_count table);
  mret (if (invalid =? 2) && (tot =? 6) then 0 else -1, table).
End Mcpwm.
