(* ===== verification/McpwmIsr.v ===== *)
(** * McpwmIsr: interrupt handlers and threads of the BLDC driver (src/mcpwm.c)

    [mcpwm_adc_inj_int_handler] measures the current, [mcpwm_adc_int_handler]
    commutates and controls the duty cycle, [rpm_thread] computes the speed and
    runs the speed controller, [timer_thread] follows a motor that turns by
    itself.  The sampling interrupt calls [mc_interface_mc_timer_isr] between
    its control part and its end; what that function does to the driver is
    [interface], an argument.  The angle loops take [pid_fuel] rounds. *)
From S2P Require Import Prelude Float32 McTypes Motor Utils DigitalFilter McpwmState Mcpwm.

Definition pid_fuel : nat := 1000.

Section McpwmIsr.
Context (conf : mc_configuration).

(** ** Speed and position control *)

Definition min_output (output : f32) : f32 :=
  if (fabs output <? l_min_duty conf)%f32 then (SIGN output * l_min_duty conf)%f32 else output.

(** Output and integral term; no output against the direction of the set speed. *)
Definition same_direction (set output i_term : f32) : f32 * f32 :=
  if ((set >? f0) && (output <? f0))%f32 then (l_min_duty conf, f0)
  else if ((set <? f0) && (output >? f0))%f32 then ((- l_min_duty conf)%f32, f0)
  else (output, i_term).

Definition run_pid_control_speed : P unit :=
  v ← var id;
  let reset := var_set (fun v => v <| speed_i_term := dutycycle_now v |> <| speed_prev_error := f0 |>) in
  if negb (control_mode v =? CONTROL_MODE_SPEED) then reset
  else if (fabs (speed_pid_set_rpm v) <? s_pid_min_erpm conf)%f32 then reset;; mcpwm_set_duty conf f0
  else
    adc ← inp ADC_Value; rpm ← mcpwm_get_rpm;
    let scale := (f1 / input_voltage (adc ADC_IND_VIN_SENS))%f32 in
    let error := (speed_pid_set_rpm v - rpm)%f32 in
    let p_term := (error * s_pid_kp conf * scale)%f32 in
    let i_term := (speed_i_term v + error * (s_pid_ki conf * MCPWM_PID_TIME_K) * scale)%f32 in
    let d_term := ((error - speed_prev_error v) * (s_pid_kd conf / MCPWM_PID_TIME_K) * scale)%f32 in
    let i_term := (utils_truncate_number i_term (f_of_int (-1)) f1).1 in
    let output := min_output (p_term + i_term + d_term)%f32 in
    let '(output, i_term) := same_direction (speed_pid_set_rpm v) output i_term in
    var_set (fun v => v <| speed_i_term := i_term |> <| speed_prev_error := error |>);;
    set_duty_cycle_hl conf output.

Definition run_pid_control_pos (dt : f32) : P unit :=
  v ← var id;
  if negb (control_mode v =? CONTROL_MODE_POS)
  then var_set (fun v => v <| pos_i_term := f0 |> <| pos_prev_error := f0 |>)
  else
    deg ← inp encoder_read_deg;
    error ← lift (utils_angle_difference pid_fuel deg (pos_pid_set_pos v));
    let p_term := (error * p_pid_kp conf)%f32 in
    let i_term := (pos_i_term v + error * (p_pid_ki conf * dt))%f32 in
    let d_term := ((error - pos_prev_error v) * (p_pid_kd conf / dt))%f32 in
    let i_term := (utils_truncate_number i_term (f_of_int (-1)) f1).1 in
    let output := (utils_truncate_number (p_term + i_term + d_term)%f32 (f_of_int (-1)) f1).1 in
    var_set (fun v => v <| pos_i_term := i_term |> <| pos_prev_error := error |>
                        <| current_set := (output * lo_current_max conf)%f32 |>).

(** ** Threads *)

Definition measured_rpm (g : mc_rpm_dep_struct) : f32 :=
  (f_of_int (comms g) * MCPWM_RPM_TIMER_FREQ * f_of_int 60
   / (f_of_int (time_at_comm g) * f_of_int 6))%f32.

(** The speed if the next commutation came now. *)
Definition slowed_rpm (cnt : Z) : f32 :=
  (MCPWM_RPM_TIMER_FREQ * f_of_int 60 / (f_of_int cnt * f_of_int 6))%f32.

Definition update_rpm : P unit :=
  g ← sig rpm_dep; v ← var id; cnt ← inp TIM2_CNT;
  rpm ← (if negb (comms g =? 0) then
           sig_set (fun s => s <| rpm_dep := g <| comms := 0 |> <| time_at_comm := 0 |> |>);;
           mret (measured_rpm g)
         else
           let rpm_tmp := slowed_rpm cnt in
           mret (if (fabs rpm_tmp <? fabs (rpm_now v))%f32 then rpm_tmp else rpm_now v));
  let rpm := ((rpm + rpm_p1 v) / f_of_int 2)%f32 in
  var_set (fun v => v <| rpm_now := rpm |> <| rpm_p1 := rpm |>).

Definition cycle_limits (rpm_abs vin : f32) (g : mc_rpm_dep_struct) : mc_rpm_dep_struct :=
  let limit := sl_cycle_int_limit conf in
  let running := (limit + vin * sl_bemf_coupling_k conf /
    (if rpm_abs >? sl_min_erpm conf then rpm_abs else sl_min_erpm conf))%f32 in
  let running := utils_map rpm_abs f0 (sl_cycle_int_rpm_br conf) running
                   (running * sl_phase_advance_at_br conf)%f32 in
  let limit_max := (limit + vin * sl_bemf_coupling_k conf / sl_min_erpm_cycle_int_limit conf)%f32 in
  let running := if (running <? f1)%f32 then f1 else running in
  let running := if (running >? limit_max)%f32 then limit_max else running in
  let time_sum rpm := (f_of_int MCPWM_SWITCH_FREQUENCY_MAX / (rpm / f_of_int 60 * f_of_int 6))%f32 in
  g <| cycle_int_limit := limit |> <| cycle_int_limit_running := running |>
    <| cycle_int_limit_max := limit_max |> <| comm_time_sum := time_sum rpm_abs |>
    <| comm_time_sum_min_rpm := time_sum (sl_min_erpm conf) |>.

(** One round of [rpm_thread], every millisecond; the result tells whether
    the thread goes on. *)
Definition rpm_thread_step : P bool :=
  v ← var id;
  if rpm_thd_stop v then var_set (fun v => v <| rpm_thd_stop := false |>);; mret false else
  update_rpm;;
  rpm ← var rpm_now; adc ← inp ADC_Value;
  sig_set (fun g => g <| rpm_dep :=
    cycle_limits (fabs rpm) (f_of_int (adc ADC_IND_VIN_SENS)) (rpm_dep g) |>);;
  run_pid_control_speed;;
  mret true.

(** The shortest and the longest of the last six commutations. *)
Definition min_max_sums (sums : list f32) : f32 * f32 :=
  foldl (fun '(min_s, max_s) x =>
    ((if x <? min_s then x else min_s)%f32, (if x >? max_s then x else max_s)%f32))
    (flit 9999999999999 1, f0) sums.

Definition track_direction (sums : list f32) (v : pwm_vars) : pwm_vars :=
  if sensorless_now v then
    let '(min_s, max_s) := min_max_sums sums in
    if ((max_s - min_s) / ((max_s + min_s) / f_of_int 2) >? flit 12 10)%f32 then
      if 12 <? tachometer_for_direction v
      then v <| direction := negb (direction v) |> <| tachometer_for_direction := 0 |> else v
    else v <| tachometer_for_direction := 0 |>
  else if tachometer_for_direction v <? -3
  then v <| direction := negb (direction v) |> <| tachometer_for_direction := 0 |>
  else if 0 <? tachometer_for_direction v then v <| tachometer_for_direction := 0 |> else v.

(** Follow the back-emf while the motor is off. *)
Definition follow_motor : P unit :=
  g ← sig id; adc ← inp ADC_Value;
  amp ← lift (filter_run_fir_iteration (amp_fir_samples g) (amp_fir_coeffs g) AMP_FIR_TAPS_BITS
                (amp_fir_index g));
  let dc := motor_type conf =? MOTOR_TYPE_DC in
  var_set (fun v => if dc then v <| direction := negb (amp >? f0)%f32 |>
                    else track_direction (last_pwm_cycles_sums g) v);;
  let amp := if dc && negb (amp >? f0)%f32 then (- amp)%f32 else amp in
  dir ← var direction;
  let vin := f_of_int (adc ADC_IND_VIN_SENS) in
  let now := if dir : bool then (amp / vin)%f32 else (- amp / vin)%f32 in
  var_set (fun v => v <| dutycycle_now :=
    (utils_truncate_number now (- l_max_duty conf)%f32 (l_max_duty conf)).1 |>).

Definition add_kv_sample : P unit :=
  kv ← mcpwm_get_kv; g ← sig id;
  '(samples, index) ← lift (filter_add_sample (kv_fir_samples g) kv KV_FIR_TAPS_BITS (kv_fir_index g));
  sig_set (fun g => g <| kv_fir_samples := samples |> <| kv_fir_index := index |>).

(** One round of [timer_thread], every millisecond. *)
Definition timer_thread_step : P bool :=
  v ← var id;
  if timer_thd_stop v then var_set (fun v => v <| timer_thd_stop := false |>);; mret false else
  (if state v =? MC_STATE_OFF then follow_motor
   else var_set (fun v => v <| tachometer_for_direction := 0 |>));;
  cnt ← sig cnt_tmp;
  let cnt := i32 (cnt + 1) in
  sig_set (fun g => g <| cnt_tmp := if 10 <=? cnt then 0 else cnt |>);;
  v ← var id;
  when_p ((10 <=? cnt) && ((state v =? MC_STATE_RUNNING)
          || ((state v =? MC_STATE_OFF) && (dutycycle_now v >=? l_min_duty conf)%f32)))
    add_kv_sample;;
  mret true.

(** ** Current measurement *)

(** The two raw currents of the cycle: injected conversions, or the values
    sampled with the voltages. *)
Definition raw_currents (volt : Z) (i : pwm_inputs) : Z * Z :=
  (if (volt =? 1) || (volt =? 3) then ADC_Value i ADC_IND_CURR1 else inj_ADC1_1 i,
   if (volt =? 2) || (volt =? 3) then ADC_Value i ADC_IND_CURR2 else inj_ADC2_1 i).

(** Which of the two measured phases carries the motor current. *)
Definition step_current (dir : bool) (step curr0 curr1 : Z) : f32 :=
  let c0 := f_of_int curr0 in let c1 := f_of_int curr1 in
  (if dir then
     if (step =? 1)%Z then - c1 else if (step =? 2)%Z then - c1 else if (step =? 3)%Z then c0
     else if (step =? 4)%Z then c1 else if (step =? 5)%Z then - c0 else if (step =? 6)%Z then - c0
     else f0
   else
     if (step =? 1)%Z then c1 else if (step =? 2)%Z then c0 else if (step =? 3)%Z then - c1
     else if (step =? 4)%Z then - c1 else if (step =? 5)%Z then - c0 else if (step =? 6)%Z then - c0
     else f0)%f32.

Definition brake_current (curr0 curr1 curr2 : Z) : f32 :=
  let c0 := f_of_int curr0 in let c1 := f_of_int curr1 in let c2 := f_of_int curr2 in
  fsqrt ((c0 * c0 + c1 * c1 + c2 * c2) / flit 15 10)%f32.

(** After a commutation the current of the cycle before counts once more. *)
Definition running_current (curr0 curr1 : Z) : P f32 :=
  v ← var id; c ← cur id;
  let sample := step_current (direction v) (comm_step v) curr0 curr1 in
  cur_set (fun c => c <| comm_step_prev := comm_step v |> <| prev_tot_sample := sample |>);;
  mret (if negb (comm_step v =? comm_step_prev c) then prev_tot_sample c else sample).

(** The measurement of one detection step. *)
Definition detect_measure (curr0 curr1 : Z) : P unit :=
  v ← var id; c ← cur id; adc ← inp ADC_Value;
  let k := detect_step v in
  let a := fabs (f_of_int curr0) in let b := fabs (f_of_int curr1) in
  let now := if (a >? b)%f32 then a else b in
  currents ← lift (put_ix k now (mcpwm_detect_currents c));
  before ← lift (currents !!? (if 0 <? k then k - 1 else 5));
  diff ← lift (put_ix k (before - now)%f32 (mcpwm_detect_currents_diff c));
  let vzero := adc ADC_IND_VIN_SENS / 2 in
  let step := comm_step v in
  voltages ← (if (step =? 1) || (step =? 4) then
                lift (put_ix k (f_of_int (adc ADC_IND_SENS1 - vzero)) (mcpwm_detect_voltages c))
              else if (step =? 2) || (step =? 5) then
                lift (put_ix k (f_of_int (adc ADC_IND_SENS2 - vzero)) (mcpwm_detect_voltages c))
              else if (step =? 3) || (step =? 6) then
                lift (put_ix k (f_of_int (adc ADC_IND_SENS3 - vzero)) (mcpwm_detect_voltages c))
              else mret (mcpwm_detect_voltages c));
  sum ← lift (mcpwm_detect_currents_avg c !!? k);
  avg ← lift (put_ix k (sum + now)%f32 (mcpwm_detect_currents_avg c));
  num ← lift (mcpwm_detect_avg_samples c !!? k);
  samples ← lift (put_ix k (num + f1)%f32 (mcpwm_detect_avg_samples c));
  cur_set (fun c => c <| mcpwm_detect_currents := currents |> <| mcpwm_detect_currents_diff := diff |>
                      <| mcpwm_detect_voltages := voltages |> <| mcpwm_detect_currents_avg := avg |>
                      <| mcpwm_detect_avg_samples := samples |>);;
  stop_pwm_hw conf.

(** The next detection step. *)
Definition detect_advance : P unit :=
  cur_set (fun c => c <| detect_now := 5 |>);;
  set_duty_cycle_hw conf (flit 2 10);;
  var_set (fun v => let k := if 5 <? detect_step v + 1 then 0 else detect_step v + 1 in
                    v <| detect_step := k |> <| comm_step := k + 1 |>);;
  step ← var comm_step;
  set_next_comm_step conf step;;
  commutation_event.

(** The motor current of a brushless motor, and the detection. *)
Definition bldc_current (curr0 curr1 curr2 : Z) : P f32 :=
  v ← var id;
  sample ← (if state v =? MC_STATE_FULL_BRAKE then mret (brake_current curr0 curr1 curr2)
            else running_current curr0 curr1);
  c ← cur id;
  when_p (detect_now c =? 4) (detect_measure curr0 curr1);;
  cur_set (fun c => if negb (detect_now c =? 0) then c <| detect_now := detect_now c - 1 |> else c);;
  detecting ← IS_DETECTING; c ← cur id;
  when_p (detecting && (detect_now c =? 0)) detect_advance;;
  mret sample.

Definition dc_current : P f32 :=
  dir ← var direction; c ← cur id; adc ← inp ADC_Value;
  mret (if dir : bool then (- f_of_int (adc ADC_IND_CURR2 - curr1_offset c)%Z)%f32
        else (- f_of_int (adc ADC_IND_CURR1 - curr0_offset c)%Z)%f32).

(** Scaled to ampere, with outliers cut off. *)
Definition scale_current (sample : f32) : f32 :=
  let i := (sample * (V_REG / f_of_int 4095) / (CURRENT_SHUNT_RES * CURRENT_AMP_GAIN))%f32 in
  if (fabs i >? l_abs_current_max conf * flit 12 10)%f32
  then (SIGN i * l_abs_current_max conf * flit 12 10)%f32 else i.

(** The second samples of the currents are not used on this hardware. *)
Definition mcpwm_adc_inj_int_handler : P unit :=
  i ← inp id; c ← cur id;
  let '(curr0, curr1) := raw_currents (curr_samp_volt c) i in
  cur_set (fun c => c <| curr0_sum := i32 (curr0_sum c + curr0) |>
                      <| curr1_sum := i32 (curr1_sum c + curr1) |>
                      <| curr_start_samples := i32 (curr_start_samples c + 1) |>);;
  let curr0 := curr0 - curr0_offset c in
  let curr1 := curr1 - curr1_offset c in
  let curr2 := - (curr0 + curr1) in
  cur_set (fun c => c <| ADC_curr_norm_value := [curr0; curr1; curr2] |>);;
  sample ← (if motor_type conf =? MOTOR_TYPE_DC then dc_current else bldc_current curr0 curr1 curr2);
  let now := scale_current sample in
  g ← sig id;
  '(samples, index) ← lift (filter_add_sample (current_fir_samples g) now CURR_FIR_TAPS_BITS
                              (current_fir_index g));
  filtered ← lift (filter_run_fir_iteration samples (current_fir_coeffs g) CURR_FIR_TAPS_BITS index);
  sig_set (fun g => g <| current_fir_samples := samples |> <| current_fir_index := index |>);;
  cnt ← inp TIM12_CNT;
  cur_set (fun c => c <| last_current_sample := now |> <| last_current_sample_filtered := filtered |>
                      <| last_inj_adc_isr_duration := (f_of_int cnt / f_of_int 10000000)%f32 |>).

(** ** Commutation *)

Definition count_cycles : P unit :=
  var_set (fun v =>
    let same := Bool.eqb (direction v) (direction_before v) in
    (if (state v =? MC_STATE_RUNNING) && same
     then v <| cycles_running := u32 (cycles_running v + 1) |>
     else v <| cycles_running := 0 |> <| has_commutated := false |>)
    <| direction_before := direction v |>).

(** The readings of the three phases, in the order of the direction. *)
Definition raw_phases (dir : bool) (adc : Z -> Z) : Z * Z * Z :=
  let l1 := adc ADC_IND_SENS1 in let l2 := adc ADC_IND_SENS2 in let l3 := adc ADC_IND_SENS3 in
  if dir then (l1, l2, l3) else (l1, l3, l2).

(** The virtual ground. *)
Definition virtual_ground (v : pwm_vars) (adc : Z -> Z) : Z :=
  if has_commutated v && (fabs (dutycycle_now v) >? flit 2 10)%f32 then adc ADC_IND_VIN_SENS / 2
  else (adc ADC_IND_SENS1 + adc ADC_IND_SENS2 + adc ADC_IND_SENS3) / 3.

Definition add_amplitude (amp : f32) : P unit :=
  g ← sig id;
  '(samples, index) ← lift (filter_add_sample (amp_fir_samples g) amp AMP_FIR_TAPS_BITS (amp_fir_index g));
  sig_set (fun g => g <| amp_fir_samples := samples |> <| amp_fir_index := index |>).

Definition bemf_amplitude (ph1 ph2 ph3 : Z) : f32 :=
  (fsqrt (f_of_int (i32 (ph1 * ph1 + ph2 * ph2 + ph3 * ph3))) * fsqrt (f_of_int 2))%f32.

(** The voltage of the floating phase, signed so that it rises through zero,
    and its raw reading. *)
Definition floating_phase (step vzero : Z) (ph : Z * Z * Z) : Z * Z :=
  let '(ph1, ph2, ph3) := ph in
  if step =? 1 then (ph1 - vzero, ph1) else if step =? 2 then (- (ph2 - vzero), ph2)
  else if step =? 3 then (ph3 - vzero, ph3) else if step =? 4 then (- (ph1 - vzero), ph1)
  else if step =? 5 then (ph2 - vzero, ph2) else if step =? 6 then (- (ph3 - vzero), ph3)
  else (0, 0).

Definition note_hall : P unit :=
  h ← read_hall; step ← var comm_step; c ← cur id;
  row ← lift (hall_detect_table c !!? h);
  n ← lift (row !!? step);
  row ← lift (put_ix step (i32 (n + 1)) row);
  table ← lift (put_ix h row (hall_detect_table c));
  cur_set (fun c => c <| hall_detect_table := table |>).

(** [0.0005 * VDIV_CORR] *)
Definition limit_scale : f32 := (flit 5 10000 * VDIV_CORR)%f32.

(** The band around the supply's ends in which a reading does not count. *)
Definition phase_margin (now : f32) (vin : Z) : Z :=
  let min := f2i32 ((f1 - fabs now) * f_of_int vin * flit 3 10)%f32 in
  if vin / 4 <? min then vin / 4 else min.

Definition integrate (v_diff ph_raw vin : Z) : P unit :=
  v ← var id; g ← sig id;
  let min := phase_margin (dutycycle_now v) vin in
  when_p ((0 <? v_diff)
          && ((pwm_cycles_sum g >? last_pwm_cycles_sum g / f_of_int 2)%f32 || negb (has_commutated v)
              || ((min <? ph_raw) && (ph_raw <? vin - min))))
    (sig_set (fun g => g <| cycle_integrator :=
       (cycle_integrator g + f_of_int v_diff / switching_frequency_now v)%f32 |>)).

(** Commutate when the integral reaches its limit. *)
Definition commutate_integrate : P unit :=
  v ← var id; g ← sig id;
  let r := rpm_dep g in
  let limit := ((if has_commutated v then cycle_int_limit_running r else cycle_int_limit r)
                * limit_scale)%f32 in
  when_p ((cycle_integrator g >=? cycle_int_limit_max r * limit_scale)%f32
          || (cycle_integrator g >=? limit)%f32)
    (commutate conf 1;; sig_set (fun g => g <| cycle_integrator := f0 |>)).

(** Commutate a speed-dependent time after the zero crossing. *)
Definition commutate_delay (v_diff : Z) : P unit :=
  if 0 <? v_diff then
    v ← var id;
    sig_set (fun g => g <| cycle_sum :=
      (cycle_sum g + f_of_int MCPWM_SWITCH_FREQUENCY_MAX / switching_frequency_now v)%f32 |>);;
    g ← sig id;
    let half := (comm_time_sum (rpm_dep g) / f_of_int 2)%f32 in
    when_p (cycle_sum g >=? utils_map (fabs (rpm_now v)) f0 (sl_cycle_int_rpm_br conf) half
                              (half * sl_phase_advance_at_br conf))%f32
      (commutate conf 1;;
       sig_set (fun g => g
         <| cycle_integrator_sum := (cycle_integrator_sum g + cycle_integrator g * (f1 / limit_scale))%f32 |>
         <| cycle_integrator_iterations := (cycle_integrator_iterations g + f1)%f32 |>
         <| cycle_integrator := f0 |> <| cycle_sum := f0 |>))
  else sig_set (fun g => g <| cycle_integrator := f0 |> <| cycle_sum := f0 |>).

(** One sample of the back-emf. *)
Definition watch_bemf (vzero : Z) (ph : Z * Z * Z) (vin : Z) : P unit :=
  step ← var comm_step;
  let '(v_diff, ph_raw) := floating_phase step vzero ph in
  when_p (v_diff <? 50) note_hall;;
  let v_diff := if Z.abs v_diff <? 10 then 0 else v_diff in
  integrate v_diff ph_raw vin;;
  if comm_mode conf =? COMM_MODE_INTEGRATE then commutate_integrate
  else if comm_mode conf =? COMM_MODE_DELAY then commutate_delay v_diff
  else mret tt.

(** A motor that has not commutated for too long is stuck. *)
Definition kick_stuck_motor : P unit :=
  g ← sig id; st ← var state;
  when_p ((pwm_cycles_sum g >=? comm_time_sum_min_rpm (rpm_dep g))%f32 && (st =? MC_STATE_RUNNING))
    ((if comm_mode conf =? COMM_MODE_INTEGRATE then commutate conf 2
      else if comm_mode conf =? COMM_MODE_DELAY then commutate conf 1 else mret tt);;
     sig_set (fun g => g <| cycle_integrator := f0 |>)).

Definition sensorless_step (vzero : Z) (ph : Z * Z * Z) (vin : Z) : P unit :=
  kick_stuck_motor;;
  st ← var state; n ← sig pwm_cycles;
  (if ((st =? MC_STATE_RUNNING) && (2 <=? n)) || (st =? MC_STATE_OFF) then watch_bemf vzero ph vin
   else sig_set (fun g => g <| cycle_integrator := f0 |>));;
  f ← var switching_frequency_now;
  sig_set (fun g => g
    <| pwm_cycles_sum := (pwm_cycles_sum g + f_of_int MCPWM_SWITCH_FREQUENCY_MAX / f)%f32 |>
    <| pwm_cycles := i32 (pwm_cycles g + 1) |>).

Definition hall_step : P unit :=
  hall_phase ← mcpwm_read_hall_phase; v ← var id;
  if negb (comm_step v =? hall_phase) then
    var_set (fun v => v <| comm_step := hall_phase |>);;
    update_rpm_tacho;;
    st ← var state;
    when_p (st =? MC_STATE_RUNNING) (set_next_comm_step conf hall_phase;; commutate conf 0)
  else
    when_p ((state v =? MC_STATE_RUNNING) && negb (has_commutated v))
      (set_next_comm_step conf (comm_step v);; commutate conf 0).

Definition bldc_step (adc : Z -> Z) : P unit :=
  v ← var id;
  let vzero := virtual_ground v adc in
  cur_set (fun c => c <| mcpwm_vzero := vzero |>);;
  let '(ph1, ph2, ph3) := raw_phases (direction v) adc in
  update_timer_attempt;;
  let vin := adc ADC_IND_VIN_SENS in
  add_amplitude (if has_commutated v then (fabs (dutycycle_now v) * f_of_int vin)%f32
                 else bemf_amplitude (ph1 - vzero) (ph2 - vzero) (ph3 - vzero));;
  if sensorless_now v then sensorless_step vzero (ph1, ph2, ph3) vin else hall_step.

Definition dc_step (adc : Z -> Z) : P unit :=
  v ← var id;
  add_amplitude (if has_commutated v then (dutycycle_now v * f_of_int (adc ADC_IND_VIN_SENS))%f32
                 else f_of_int (adc ADC_IND_SENS3 - adc ADC_IND_SENS1));;
  when_p ((state v =? MC_STATE_RUNNING) && negb (has_commutated v))
    (set_next_comm_step conf (comm_step v);; commutate conf 0).

(** ** Duty cycle control *)

(** A ramp step for 1 kHz at the present switching frequency. *)
Definition per_cycle (step freq : f32) : f32 := (step / (freq / f_of_int 1000))%f32.

(** The slow ramp after the speed limit was reached: a tenth of [step]. *)
Definition slow_ramp (step : f32) : P f32 :=
  n ← var slow_ramping_cycles;
  if n =? 0 then mret step
  else var_set (fun v => v <| slow_ramping_cycles := n - 1 |>);; mret (step * flit 1 10)%f32.

Definition error_step (error voltage_scale freq : f32) : f32 :=
  let step := (error * cc_gain conf * voltage_scale)%f32 in
  per_cycle (utils_truncate_number step (- cc_ramp_step_max conf)%f32 (cc_ramp_step_max conf)).1 freq.

Definition clip_duty (d : f32) : f32 :=
  (utils_truncate_number d (- l_max_duty conf)%f32 (l_max_duty conf)).1.

(** Current control: the duty cycle aimed at. *)
Definition current_target (voltage_scale ramp_step : f32) : P f32 :=
  v ← var id; current ← mcpwm_get_tot_current;
  let error := (current_set v - (if direction v then current else - current))%f32 in
  let start_boost := (cc_startup_boost_duty conf * voltage_scale)%f32 in
  step ← slow_ramp (error_step error voltage_scale (switching_frequency_now v));
  let now := dutycycle_now v in
  let tmp := if (fabs now <? start_boost)%f32
             then utils_step_towards now
                    (if current_set v >? f0 then start_boost else - start_boost)%f32 ramp_step
             else (now + step)%f32 in
  let tmp := clip_duty tmp in
  let tmp :=
    if (fabs tmp <? l_min_duty conf)%f32 then
      if ((tmp <? f0) && (current_set v >? f0))%f32 then l_min_duty conf
      else if ((tmp >? f0) && (current_set v <? f0))%f32 then (- l_min_duty conf)%f32 else tmp
    else tmp in
  var_set (fun v => v <| dutycycle_set :=
    (if tmp >=? f0 then l_min_duty conf else - l_min_duty conf)%f32 |>);;
  mret tmp.

Definition brake_target (voltage_scale : f32) : P f32 :=
  v ← var id; current ← mcpwm_get_tot_current;
  let error := (- fabs (current_set v) - current)%f32 in
  step ← slow_ramp (error_step error voltage_scale (switching_frequency_now v));
  let now := dutycycle_now v in
  let tmp := clip_duty (now + SIGN now * step)%f32 in
  if (fabs tmp <? l_min_duty conf)%f32 then
    let tmp := if (fabs (rpm_now v) <? l_max_erpm_fbrake_cc conf)%f32 then f0
               else (SIGN tmp * l_min_duty conf)%f32 in
    var_set (fun v => v <| dutycycle_set := tmp |>);; mret tmp
  else mret tmp.

Definition duty_target (voltage_scale ramp_step : f32) : P f32 :=
  v ← var id;
  let mode := control_mode v in
  if (mode =? CONTROL_MODE_CURRENT) || (mode =? CONTROL_MODE_POS)
  then current_target voltage_scale ramp_step
  else if mode =? CONTROL_MODE_CURRENT_BRAKE then brake_target voltage_scale
  else mret (utils_step_towards (dutycycle_now v) (dutycycle_set v) ramp_step).

(** [dutycycle_now] steps towards [goal] and the target is held back. *)
Definition limit_towards (goal step : f32) (v : pwm_vars) : pwm_vars :=
  v <| dutycycle_now := utils_step_towards (dutycycle_now v) goal step |> <| limit_delay := 1 |>.

Definition back_off (ramp_step excess : f32) : f32 :=
  (ramp_step * fabs excess * m_current_backoff_gain conf)%f32.

(** The limits of motor current, input current and speed, in this order. *)
Definition apply_limits (tmp ramp_step current current_nofilter rpm : f32) (v : pwm_vars) : pwm_vars :=
  let current_in := (current_nofilter * fabs (dutycycle_now v))%f32 in
  let full := (if direction v then l_max_duty conf else - l_max_duty conf)%f32 in
  if (current_nofilter >? lo_current_max conf)%f32 then
    limit_towards f0 (back_off ramp_step (current_nofilter - lo_current_max conf)%f32) v
  else if (current_nofilter <? lo_current_min conf)%f32 then
    limit_towards full (back_off ramp_step (current_nofilter - lo_current_min conf)%f32) v
  else if (current_in >? lo_in_current_max conf)%f32 then
    limit_towards f0 (back_off ramp_step (current_in - lo_in_current_max conf)%f32) v
  else if (current_in <? lo_in_current_min conf)%f32 then
    limit_towards full (back_off ramp_step (current_in - lo_in_current_min conf)%f32) v
  else if (rpm >? l_max_erpm conf)%f32 then
    if (l_rpm_lim_neg_torque conf || (current >? f_of_int (-1))%f32)
       && (dutycycle_now v <=? tmp)%f32
    then limit_towards f0 (m_duty_ramp_step_rpm_lim conf) v <| slow_ramping_cycles := 500 |> else v
  else if (rpm <? l_min_erpm conf)%f32 then
    if (l_rpm_lim_neg_torque conf || (current >? f_of_int (-1))%f32)
       && (dutycycle_now v >=? tmp)%f32
    then limit_towards f0 (m_duty_ramp_step_rpm_lim conf) v <| slow_ramping_cycles := 500 |> else v
  else v.

(** The target is taken over unless a limit was active. *)
Definition take_target (tmp : f32) (v : pwm_vars) : pwm_vars :=
  if 0 <? limit_delay v then v <| limit_delay := limit_delay v - 1 |>
  else v <| dutycycle_now := tmp |>.

(** Starting again after a stop, and no start against a fast motor. *)
Definition restart_duty (set now : f32) : f32 :=
  if (fabs now <? l_min_duty conf)%f32 then
    if (set >=? l_min_duty conf)%f32 then l_min_duty conf
    else if (set <=? - l_min_duty conf)%f32 then (- l_min_duty conf)%f32 else now
  else now.
Definition no_reverse_start (rpm now : f32) : f32 :=
  if ((now >=? l_min_duty conf) && (rpm <? - l_max_erpm_fbrake conf))%f32 then (- l_min_duty conf)%f32
  else if ((now <=? - l_min_duty conf) && (rpm >? l_max_erpm_fbrake conf))%f32 then l_min_duty conf
  else now.

Definition control_duty (input_voltage : f32) : P unit :=
  current ← mcpwm_get_tot_current_filtered;
  current_nofilter ← mcpwm_get_tot_current;
  v ← var id;
  when_p ((state v =? MC_STATE_RUNNING) && has_commutated v)
    (let voltage_scale := (f_of_int 20 / input_voltage)%f32 in
     let ramp_step_no_lim := per_cycle (m_duty_ramp_step conf) (switching_frequency_now v) in
     rpm ← mcpwm_get_rpm;
     ramp_step ← slow_ramp ramp_step_no_lim;
     tmp ← duty_target voltage_scale ramp_step;
     var_set (apply_limits tmp ramp_step_no_lim current current_nofilter rpm);;
     var_set (take_target tmp);;
     var_set (fun v => v <| dutycycle_now :=
       no_reverse_start rpm (restart_duty (dutycycle_set v) (dutycycle_now v)) |>);;
     now ← var dutycycle_now;
     set_duty_cycle_ll conf now).

Definition mcpwm_adc_int_handler (interface : P unit) : P unit :=
  update_timer_attempt;;
  adc ← inp ADC_Value;
  let voltage := input_voltage (adc ADC_IND_VIN_SENS) in
  count_cycles;;
  (if motor_type conf =? MOTOR_TYPE_BLDC then bldc_step adc else dc_step adc);;
  control_duty voltage;;
  interface;;
  enc ← inp encoder_is_configured;
  f ← var switching_frequency_now;
  when_p enc (run_pid_control_pos (f1 / f)%f32);;
  cnt ← inp TIM12_CNT;
  cur_set (fun c => c <| last_adc_isr_duration := (f_of_int cnt / f_of_int 10000000)%f32 |>).
End McpwmIsr.
