(* ===== verification/McpwmBridge.v ===== *)
(** * McpwmBridge: the six transistors

    What a setting of the three channels does to the phases, the commutation
    table of mcpwm.c's comments, and that [set_next_comm_step] realises it. *)
From S2P Require Import Prelude Float32 McTypes McpwmState Mcpwm.

(** ** Phases *)

(** Both transistors off: the channel is off, or forced inactive with the
    complementary output off. *)
Definition floating (c : tim_channel) : bool :=
  negb (CCxNE c) &&
  (negb (CCxE c) || match OCxM c with TIM_OCMode_PWM1 | TIM_OCMode_PWM2 => false | _ => true end).

(** Connected to the supply for the duty cycle. *)
Definition positive (c : tim_channel) : bool := CCxE c && bool_decide (OCxM c = TIM_OCMode_PWM1).

(** Connected to ground, at least for the duty cycle of bipolar mode. *)
Definition negative (c : tim_channel) : bool :=
  CCxNE c && match OCxM c with
             | TIM_OCMode_Inactive | TIM_ForcedAction_InActive | TIM_OCMode_PWM2 => true
             | _ => false end.

Definition fets_off (b : bridge) : bool := floating (phase1 b) && floating (phase2 b) && floating (phase3 b).
Definition shorted (b : bridge) : bool :=
  negative (phase1 b) && negative (phase2 b) && negative (phase3 b)
  && negb (positive (phase1 b) || positive (phase2 b) || positive (phase3 b)).

(** One phase floats, one is driven, one is grounded. *)
Definition six_step (b : bridge) : bool :=
  let one f p m := floating f && positive p && negative m && negb (positive m) in
  let p1 := phase1 b in let p2 := phase2 b in let p3 := phase3 b in
  one p1 p2 p3 || one p1 p3 p2 || one p2 p1 p3 || one p2 p3 p1 || one p3 p1 p2 || one p3 p2 p1.

Definition legal (b : bridge) : bool := fets_off b || shorted b || six_step b.

(** ** The commutation table *)

Inductive sign := Zero | Plus | Minus.

(** "Commutation Steps FORWARDS": the signs of the three bridges. *)
Definition forward_step (step : Z) : option (sign * sign * sign) :=
  match step with
  | 1 => Some (Zero, Plus, Minus)
  | 2 => Some (Plus, Zero, Minus)
  | 3 => Some (Plus, Minus, Zero)
  | 4 => Some (Zero, Minus, Plus)
  | 5 => Some (Minus, Zero, Plus)
  | 6 => Some (Minus, Plus, Zero)
  | _ => None
  end.

(** "Commutation Steps REVERSE (switch phase 2 and 3)" *)
Definition table_step (forward : bool) (step : Z) : option (sign * sign * sign) :=
  '(a, b, c) ← forward_step step; Some (if forward then (a, b, c) else (a, c, b)).

Section Bridge.
Context (conf : mc_configuration).

(** How a sign is realised in each mode of the driver. *)
Definition realise (detecting : bool) (g : sign) : tim_channel :=
  match g with
  | Zero => mkChannel TIM_OCMode_Inactive true false
  | Plus => mkChannel TIM_OCMode_PWM1 true (positive_lowside conf detecting)
  | Minus => mkChannel (negative_oc_mode conf detecting) true true
  end.

Definition off_channel : tim_channel := mkChannel TIM_ForcedAction_InActive true false.
Definition brake_channel : tim_channel := mkChannel TIM_ForcedAction_InActive true true.

(** The reference: the bridge of a step. *)
Definition reference_bridge (detecting forward : bool) (step : Z) : bridge :=
  match table_step forward step with
  | Some (a, b, c) => mkBridge (realise detecting a) (realise detecting b) (realise detecting c)
  | None => mkBridge off_channel off_channel off_channel
  end.

(** A DC motor sits between bridges 1 and 3. *)
Definition dc_bridge (forward : bool) : bridge :=
  let plus := mkChannel TIM_OCMode_PWM1 true true in
  let minus := mkChannel TIM_OCMode_Inactive true true in
  let zero := mkChannel TIM_OCMode_Inactive true false in
  if forward then mkBridge plus zero minus else mkBridge minus zero plus.

Definition next_bridge (detecting forward : bool) (step : Z) : bridge :=
  if motor_type conf =? MOTOR_TYPE_DC then dc_bridge forward
  else reference_bridge detecting forward step.

Definition with_preload (b : bridge) (s : pwm) : pwm := s <| timers := (timers s) <| preload := b |> |>.

Lemma with_preload_twice b b' s : with_preload b' (with_preload b s) = with_preload b' s.
Proof. done. Qed.

Lemma with_preload_id s : with_preload (preload (timers s)) s = s.
Proof. by destruct s as [? ? ? [] ?]. Qed.

Lemma set_channel_run ch mode h l s :
  set_channel ch mode h l s =
  Some (tt, with_preload (upd_channel ch (fun _ => mkChannel mode h l) (preload (timers s))) s).
Proof. destruct ch; reflexivity. Qed.

Lemma drive_phases_run z p m s :
  let d := state (vars s) =? MC_STATE_DETECTING in
  drive_phases conf z p m s =
  Some (tt, with_preload
    (upd_channel m (fun _ => realise d Minus) (upd_channel p (fun _ => realise d Plus)
      (upd_channel z (fun _ => realise d Zero) (preload (timers s))))) s).
Proof. destruct z, p, m; reflexivity. Qed.

Lemma all_channels_run mode h l s :
  let c := mkChannel mode h l in
  all_channels mode h l s = Some (tt, with_preload (mkBridge c c c) s).
Proof. reflexivity. Qed.

Lemma step_cases (step : Z) : 1 <= step <= 6 ->
  step = 1 \/ step = 2 \/ step = 3 \/ step = 4 \/ step = 5 \/ step = 6.
Proof. lia. Qed.

Lemma bad_step step : ~ 1 <= step <= 6 -> forward_step step = None.
Proof. intros H. destruct step as [|[[[]|[]|]|[[]|[]|]|]|]; first [done|lia]. Qed.

Lemma set_next_comm_step_run step s :
  set_next_comm_step conf step s =
  Some (tt, with_preload (next_bridge (state (vars s) =? MC_STATE_DETECTING) (direction (vars s)) step) s).
Proof.
  unfold set_next_comm_step, next_bridge. rewrite (ST_bind_Some _ _ _ _ _ (eq_refl : var _ s = _)).
  destruct (motor_type conf =? MOTOR_TYPE_DC); [by destruct (direction (vars s))|].
  unfold reference_bridge, table_step.
  destruct (decide (1 <= step <= 6)) as [Hs|Hs].
  - destruct (step_cases step Hs) as [->|[->|[->|[->|[->| ->]]]]];
      cbn [Z.eqb Pos.eqb]; destruct (direction (vars s)); rewrite drive_phases_run; reflexivity.
  - rewrite bad_step by done. cbn [mbind option_bind].
    repeat match goal with |- context [step =? ?k] => destruct (Z.eqb_spec step k); [lia|] end.
    apply all_channels_run.
Qed.

(** Every step the driver can prepare leaves at most one phase driven. *)
Lemma next_bridge_legal d f step : legal (next_bridge d f step) = true.
Proof.
  unfold next_bridge. destruct (motor_type conf =? MOTOR_TYPE_DC); [by destruct f|].
  unfold reference_bridge, table_step.
  destruct (decide (1 <= step <= 6)) as [Hs|Hs]; [|by rewrite bad_step].
  destruct (step_cases step Hs) as [->|[->|[->|[->|[->| ->]]]]]; cbn [forward_step mbind option_bind];
    destruct f; unfold realise, negative_oc_mode, positive_lowside; destruct d; cbn [negb andb];
    destruct (pwm_mode conf =? PWM_MODE_BIPOLAR), (pwm_mode conf =? PWM_MODE_NONSYNCHRONOUS_HISW); reflexivity.
Qed.

Lemma valid_step_six_step d f step : 1 <= step <= 6 -> six_step (reference_bridge d f step) = true.
Proof.
  intros Hs. unfold reference_bridge, table_step.
  destruct (step_cases step Hs) as [->|[->|[->|[->|[->| ->]]]]]; cbn [forward_step mbind option_bind];
    destruct f; unfold realise, negative_oc_mode, positive_lowside; destruct d; cbn [negb andb];
    destruct (pwm_mode conf =? PWM_MODE_BIPOLAR), (pwm_mode conf =? PWM_MODE_NONSYNCHRONOUS_HISW); reflexivity.
Qed.

(** C11. Each commutation step puts the three half bridges into the states
    of the commutation table in the comments of mcpwm.c, in either
    direction and in every mode of the modulation: one phase floats, one
    is driven, one is grounded. *)
Theorem commutation_follows_table step (s : pwm) :
  motor_type conf <> MOTOR_TYPE_DC -> 1 <= step <= 6 ->
  exists b, (set_next_comm_step conf step ≫= fun _ => commutation_event) s =
      Some (tt, s <| timers := (timers s) <| preload := b |> <| outputs := b |> |>) /\
    b = reference_bridge (state (vars s) =? MC_STATE_DETECTING) (direction (vars s)) step /\
    six_step b = true.
Proof.
  intros Hm Hs. eexists. split; [|split; [reflexivity|by apply valid_step_six_step]].
  rewrite (ST_bind_Some _ _ _ _ _ (set_next_comm_step_run step s)).
  unfold next_bridge. rewrite (proj2 (Z.eqb_neq _ _) Hm). reflexivity.
Qed.
End Bridge.
