(* ===== verification/McpwmSafe.v ===== *)
(** * McpwmSafe: the BLDC driver keeps its state sound

    The invariant of mcpwm.c and its preservation, function by function, in
    the logic of Safe.v.  [core] says that every index stays inside its array;
    it looks at the state only through the keys below, so that an assignment
    to any other variable keeps it.  The bridge is tracked separately: [ok R]
    is [core] together with [R] of state, prepared and effective bridge. *)
From S2P Require Import Prelude Safe Float32 McTypes Motor Utils DigitalFilter McpwmState Mcpwm.
From S2P Require Import McpwmIsr McpwmBridge.

(** ** The invariant *)

(** The hall table of a configuration and its mirror image. *)
Definition rev_step (h : Z) : Z :=
  if h <? 1 then h else nth (Z.to_nat h) fwd_to_rev 0.
Definition hall_map (table : list Z) : list Z := (rev_step <$> table) ++ table.

Definition hall_table_ok (table : list Z) : Prop := length table = 8%nat /\ Forall (fun h => h <= 6) table.

Definition hall_reading (i : pwm_inputs) : Z :=
  Z.lor (Z.lor (Z.b2z (HALL1 i)) (Z.shiftl (Z.b2z (HALL2 i)) 1)) (Z.shiftl (Z.b2z (HALL3 i)) 2).

(** The reading stands for a step. *)
Definition hall_valid (table : list Z) (i : pwm_inputs) : Prop :=
  exists h, table !! Z.to_nat (hall_reading i) = Some h /\ 1 <= h <= 6.

(** The position controller's error can be brought into half a turn. *)
Definition angle_ok (i : pwm_inputs) (pos : f32) : Prop :=
  is_Some (utils_angle_difference pid_fuel (encoder_read_deg i) pos).

Definition vkey (v : pwm_vars) : Z * Z * list Z * bool * f32 :=
  (comm_step v, detect_step v, hall_to_phase_table v, sensorless_now v, pos_pid_set_pos v).
Definition ikey (i : pwm_inputs) : bool * bool * bool * f32 :=
  (HALL1 i, HALL2 i, HALL3 i, encoder_read_deg i).
Definition skey (g : pwm_signal) :=
  (length (last_pwm_cycles_sums g),
   (length (kv_fir_coeffs g), kv_fir_samples g, kv_fir_index g),
   (length (amp_fir_coeffs g), amp_fir_samples g, amp_fir_index g),
   (length (current_fir_coeffs g), current_fir_samples g, current_fir_index g)).
Definition ckey (c : pwm_current) : list (list f32) * list (list Z) :=
  ([mcpwm_detect_currents c; mcpwm_detect_voltages c; mcpwm_detect_currents_diff c;
    mcpwm_detect_currents_avg c; mcpwm_detect_avg_samples c], hall_detect_table c).

Definition fir_ok (bits : Z) (k : nat * list f32 * Z) : Prop :=
  let '(n, v, off) := k in n = Z.to_nat (taps bits) /\ ring_ok bits off v.

Definition sig_ok (k : nat * (nat * list f32 * Z) * (nat * list f32 * Z) * (nat * list f32 * Z)) : Prop :=
  let '(n, kv, amp, crt) := k in
  n = 6%nat /\ fir_ok KV_FIR_TAPS_BITS kv /\ fir_ok AMP_FIR_TAPS_BITS amp /\ fir_ok CURR_FIR_TAPS_BITS crt.

Definition cur_ok (k : list (list f32) * list (list Z)) : Prop :=
  Forall (fun l => length l = 6%nat) k.1 /\ length k.2 = 8%nat /\ Forall (fun l => length l = 7%nat) k.2.

(** Driver state, sensorless or not, prepared bridge, effective bridge. *)
Record bstate := mkB { b_state : Z; b_sl : bool; b_pre : bridge; b_out : bridge }.

Section Invariant.
(** The hall table in use; [sl]: the motor is always driven sensorless. *)
Context (table : list Z) (sl : bool).

Definition var_ok (v : pwm_vars) (i : pwm_inputs) : Prop :=
  1 <= comm_step v <= 6 /\ 0 <= detect_step v <= 5 /\ hall_to_phase_table v = hall_map table /\
  (if sl then sensorless_now v = true else hall_valid table i) /\ angle_ok i (pos_pid_set_pos v).

Definition core (s : pwm) : Prop :=
  var_ok (vars s) (inputs s) /\ sig_ok (skey (signal s)) /\ cur_ok (ckey (curr s)).

Definition bkey (s : pwm) : bstate :=
  mkB (state (vars s)) (sensorless_now (vars s)) (preload (timers s)) (outputs (timers s)).

Definition ok (R : bstate -> Prop) (s : pwm) : Prop := core s /\ R (bkey s).

(** ** Assignments *)

Section Neutral.
Context (R : bstate -> Prop).
Abbreviation safe := (safe (ok R)).

Lemma safe_var {A} (f : pwm_vars -> A) : safe (var f).
Proof. intros s Hs. by eexists _, _. Qed.
Lemma safe_sig {A} (f : pwm_signal -> A) : safe (sig f).
Proof. intros s Hs. by eexists _, _. Qed.
Lemma safe_cur {A} (f : pwm_current -> A) : safe (cur f).
Proof. intros s Hs. by eexists _, _. Qed.
Lemma safe_tim {A} (f : pwm_timers -> A) : safe (tim f).
Proof. intros s Hs. by eexists _, _. Qed.
Lemma safe_inp {A} (f : pwm_inputs -> A) : safe (inp f).
Proof. intros s Hs. by eexists _, _. Qed.

Lemma var_ok_key v v' i i' : vkey v' = vkey v -> ikey i' = ikey i -> var_ok v i -> var_ok v' i'.
Proof.
  unfold vkey, ikey, var_ok, hall_valid, hall_reading, angle_ok.
  intros [= -> -> -> -> ->] [= -> -> -> ->]. done.
Qed.

Lemma safe_var_set f :
  (forall v, vkey (f v) = vkey v) -> (forall v, state (f v) = state v) -> safe (var_set f).
Proof.
  intros Hk Hst. apply triple_modify. intros s [(Hv & Hs & Hc) Hr].
  split; [split_and!; [|done|done]|].
  - by apply (var_ok_key (vars s) _ (inputs s)); [apply Hk| |].
  - unfold bkey in *. change (vars (s <| vars := f (vars s) |>)) with (f (vars s)). rewrite Hst.
    pose proof (f_equal (fun k => k.1.2) (Hk (vars s))) as Hn. cbn in Hn. by rewrite Hn.
Qed.

Lemma safe_sig_set f : (forall g, skey (f g) = skey g) -> safe (sig_set f).
Proof.
  intros Hk. apply triple_modify. intros s [(Hv & Hs & Hc) Hr].
  split; [split_and!; [done| |done]|done].
  change (signal (s <| signal := f (signal s) |>)) with (f (signal s)). by rewrite Hk.
Qed.

Lemma safe_cur_set f : (forall c, ckey (f c) = ckey c) -> safe (cur_set f).
Proof.
  intros Hk. apply triple_modify. intros s [(Hv & Hs & Hc) Hr].
  split; [split_and!; [done|done|]|done].
  change (curr (s <| curr := f (curr s) |>)) with (f (curr s)). by rewrite Hk.
Qed.

Lemma safe_tim_set f :
  (forall t, preload (f t) = preload t) -> (forall t, outputs (f t) = outputs t) -> safe (tim_set f).
Proof.
  intros Hp Ho. apply triple_modify. intros s [Hc Hr]. split; [done|].
  unfold bkey in *. change (timers (s <| timers := f (timers s) |>)) with (f (timers s)).
  by rewrite Hp, Ho.
Qed.

Lemma safe_inp_set f : (forall i, ikey (f i) = ikey i) -> safe (inp_set f).
Proof.
  intros Hk. apply triple_modify. intros s [(Hv & Hs & Hc) Hr].
  split; [split_and!; [|done|done]|done].
  by apply (var_ok_key (vars s) _ (inputs s)); [|apply Hk|].
Qed.

Lemma safe_when_p b (m : P unit) : safe m -> safe (when_p b m).
Proof. intros Hm. apply safe_if; [done|apply safe_ret]. Qed.
End Neutral.
End Invariant.

Create HintDb pwm discriminated.
#[export] Hint Constants Opaque : pwm.
#[export] Hint Resolve safe_ret safe_var safe_sig safe_cur safe_tim safe_inp : pwm.

(** Assignments whose side conditions hold by computation, by cases if the
    new value is conditional. *)
Ltac same_key :=
  first [ by intros ?
        | intros ?; cbv beta zeta; repeat case_match; reflexivity ].

Ltac pwm_safe :=
  repeat first
    [ solve [eauto 2 with pwm]
    | progress cbv zeta
    | apply safe_bind; [|intros ?]
    | apply safe_when_p
    | apply safe_var_set; [same_key|same_key]
    | apply safe_sig_set; [same_key]
    | apply safe_cur_set; [same_key]
    | apply safe_tim_set; [same_key|same_key]
    | apply safe_inp_set; [same_key]
    | apply safe_if
    | match goal with |- safe _ (let '(_, _) := ?x in _) => destruct x end
    | match goal with |- safe _ (match ?x with (_, _) => _ end) => destruct x end ].

Section Functions.
Context (table : list Z) (sl : bool) (conf : mc_configuration) (R : bstate -> Prop).
Abbreviation safe := (safe (ok table sl R)).

Lemma safe_update_timer_attempt : safe update_timer_attempt.
Proof. unfold update_timer_attempt, update_far_away, read_TIM1_CNT. pwm_safe. Qed.
Hint Resolve safe_update_timer_attempt : pwm.

Lemma safe_set_next_timer_settings t : safe (set_next_timer_settings t).
Proof. unfold set_next_timer_settings. pwm_safe. Qed.
Hint Resolve safe_set_next_timer_settings : pwm.

Lemma safe_IS_DETECTING : safe IS_DETECTING.
Proof. unfold IS_DETECTING. pwm_safe. Qed.
Hint Resolve safe_IS_DETECTING : pwm.

Lemma safe_update_adc_sample_pos t : safe (update_adc_sample_pos conf t).
Proof. unfold update_adc_sample_pos. pwm_safe. Qed.
Hint Resolve safe_update_adc_sample_pos : pwm.

Lemma safe_set_switching_frequency f : safe (set_switching_frequency conf f).
Proof. unfold set_switching_frequency. pwm_safe. Qed.
Hint Resolve safe_set_switching_frequency : pwm.

Lemma safe_set_duty_cycle_hw d : safe (set_duty_cycle_hw conf d).
Proof. unfold set_duty_cycle_hw. pwm_safe. Qed.

Lemma safe_update_rpm_tacho : safe update_rpm_tacho.
Proof. unfold update_rpm_tacho. pwm_safe. Qed.

Lemma safe_set_mode m : safe (set_mode m).
Proof. unfold set_mode. pwm_safe. Qed.

Lemma safe_get_rpm : safe mcpwm_get_rpm.
Proof. unfold mcpwm_get_rpm. pwm_safe. Qed.
Hint Resolve safe_get_rpm : pwm.

Lemma safe_get_kv : safe mcpwm_get_kv.
Proof. unfold mcpwm_get_kv. pwm_safe. Qed.
End Functions.
#[export] Hint Resolve safe_update_timer_attempt safe_set_next_timer_settings safe_IS_DETECTING
  safe_update_adc_sample_pos safe_set_switching_frequency safe_set_duty_cycle_hw
  safe_update_rpm_tacho safe_set_mode safe_get_rpm safe_get_kv : pwm.

(** ** The bridge *)

(** All four prepared or effective patterns are legal, and an off driver has
    its bridge off. *)
Definition Rinv (b : bstate) : Prop :=
  legal (b_pre b) = true /\ legal (b_out b) = true /\
  (b_state b = MC_STATE_OFF -> fets_off (b_out b) = true).

Definition Rlive (b : bstate) : Prop :=
  b_state b <> MC_STATE_OFF /\ legal (b_pre b) = true /\ legal (b_out b) = true.

(** Where a commutation may happen: the driver is not off, or it only counts. *)
Definition Rcomm (conf : mc_configuration) (b : bstate) : Prop :=
  Rinv b /\ (b_state b = MC_STATE_OFF -> b_sl b = true /\ motor_type conf = MOTOR_TYPE_BLDC).

Definition off_bridge : bridge := mkBridge off_channel off_channel off_channel.
Definition brake_bridge : bridge := mkBridge brake_channel brake_channel brake_channel.

Lemma live_inv b : Rlive b -> Rinv b.
Proof. by intros (H & H1 & H2). Qed.
Lemma live_comm conf b : Rlive b -> Rcomm conf b.
Proof. intros H. split; [by apply live_inv|]. by destruct H. Qed.
Lemma inv_live b : Rinv b -> b_state b <> MC_STATE_OFF -> Rlive b.
Proof. by intros (H & H1 & H2). Qed.

Section Bridge.
Context (table : list Z) (sl : bool) (conf : mc_configuration).
Hypothesis Hsl : if sl then sensor_mode conf = SENSOR_MODE_SENSORLESS else True.
Abbreviation ok := (ok table sl).
Abbreviation inv := (ok Rinv).

Lemma ok_weaken (R R' : bstate -> Prop) s : (forall b, R b -> R' b) -> ok R s -> ok R' s.
Proof. intros H [Hc Hr]. split; [done|]. by apply H. Qed.

(** Reading variables: their values are known afterwards. *)
Lemma triple_var {A B} (f : pwm_vars -> A) (Pre : pwm -> Prop) (k : A -> P B) Q :
  (forall x, triple (fun s => Pre s /\ f (vars s) = x) (k x) Q) -> triple Pre (v ← var f; k v) Q.
Proof. intros H s Hs. by apply (H (f (vars s))). Qed.

Lemma triple_pre {A} (Pre Pre' : pwm -> Prop) (m : P A) Q :
  triple Pre m Q -> (forall s, Pre' s -> Pre s) -> triple Pre' m Q.
Proof. intros Hm H s Hs. apply Hm. by apply H. Qed.

Lemma inv_of_ok R s : ok R s -> (forall b, R b -> Rinv b) -> inv s.
Proof. intros H Hi. by apply (ok_weaken R). Qed.

(** Setting a variable that only the bridge's predicate looks at. *)
Lemma triple_set_state x (R R' : bstate -> Prop) :
  (forall b, R b -> R' (mkB x (b_sl b) (b_pre b) (b_out b))) ->
  triple (ok R) (var_set (fun v => v <| state := x |>)) (fun _ => ok R').
Proof.
  intros H. apply triple_modify. intros s [(Hv & Hc) Hr].
  split; [split; [|done]|exact (H _ Hr)].
  by apply (var_ok_key table sl (vars s) _ (inputs s)).
Qed.

Lemma triple_preload b (R R' : bstate -> Prop) s :
  (forall x, R x -> R' (mkB (b_state x) (b_sl x) b (b_out x))) -> ok R s -> ok R' (with_preload b s).
Proof. intros H [Hc Hr]. split; [done|exact (H _ Hr)]. Qed.

Lemma triple_all_channels mode h l (R R' : bstate -> Prop) :
  (forall x, R x -> R' (mkB (b_state x) (b_sl x)
     (mkBridge (mkChannel mode h l) (mkChannel mode h l) (mkChannel mode h l)) (b_out x))) ->
  triple (ok R) (all_channels mode h l) (fun _ => ok R').
Proof.
  intros H s Hs. rewrite all_channels_run. eexists _, _. split; [reflexivity|].
  by apply (triple_preload _ R).
Qed.

Lemma triple_commutation_event (R R' : bstate -> Prop) :
  (forall x, R x -> R' (mkB (b_state x) (b_sl x) (b_pre x) (b_pre x))) ->
  triple (ok R) commutation_event (fun _ => ok R').
Proof.
  intros H. apply triple_modify. intros s [Hc Hr]. split; [exact Hc|exact (H _ Hr)].
Qed.

(** Forcing all channels, whatever the state was. *)
Lemma triple_force low (R R' : bstate -> Prop) :
  let c := mkChannel TIM_ForcedAction_InActive true low in
  (forall x, R x -> R' (mkB (b_state x) (b_sl x) (mkBridge c c c) (mkBridge c c c))) ->
  triple (ok R)
    (all_channels TIM_ForcedAction_InActive true low;; commutation_event;;
     set_switching_frequency conf (f_of_int MCPWM_SWITCH_FREQUENCY_MAX)) (fun _ => ok R').
Proof.
  intros c H.
  set (R1 := fun b => exists x, R x /\ b = mkB (b_state x) (b_sl x) (mkBridge c c c) (b_out x)).
  eapply triple_bind; [apply (triple_all_channels _ _ _ R R1)|intros []; cbv beta].
  { intros x Hx. by exists x. }
  eapply triple_bind; [apply (triple_commutation_event R1 R')|intros []; cbv beta].
  { intros ? (x & Hx & ->). exact (H x Hx). }
  apply safe_set_switching_frequency.
Qed.

Lemma triple_stop_pwm_hw (R R' : bstate -> Prop) :
  (forall x, R x -> R' (mkB (b_state x) (b_sl x) off_bridge off_bridge)) ->
  triple (ok R) (stop_pwm_hw conf) (fun _ => ok R').
Proof. apply (triple_force false). Qed.

Lemma triple_stop_pwm_ll R : triple (ok R) (stop_pwm_ll conf) (fun _ => inv).
Proof.
  unfold stop_pwm_ll. eapply triple_bind.
  - apply (triple_modify _ _ (fun _ => ok (fun b => b_state b = MC_STATE_OFF))).
    intros s [(Hv & Hc) Hr]. split; [split; [|done]|done].
    by apply (var_ok_key table sl (vars s) _ (inputs s)).
  - intros []. apply triple_stop_pwm_hw. intros [] H. cbn in H. subst. by split_and!.
Qed.

Lemma triple_full_brake_ll R : triple (ok R) (full_brake_ll conf) (fun _ => inv).
Proof.
  unfold full_brake_ll. eapply triple_bind.
  - apply (triple_modify _ _ (fun _ => ok (fun b => b_state b = MC_STATE_FULL_BRAKE))).
    intros s [(Hv & Hc) Hr]. split; [split; [|done]|done].
    by apply (var_ok_key table sl (vars s) _ (inputs s)).
  - intros []. apply (triple_force true). intros [] H. cbn in H. subst. by split_and!.
Qed.

Lemma safe_set_next_comm_step step : safe (ok Rlive) (set_next_comm_step conf step).
Proof.
  intros s Hs. rewrite set_next_comm_step_run. eexists _, _. split; [reflexivity|].
  apply (triple_preload _ Rlive); [|done].
  intros x (H & H1 & H2). split_and!; [done|apply next_bridge_legal|done].
Qed.

Lemma safe_commutation_event : safe (ok Rlive) commutation_event.
Proof. apply triple_commutation_event. by intros [] (H & H1 & H2). Qed.

(** ** Commutation *)

Lemma triple_update_sensor_mode (R R' : bstate -> Prop) :
  (forall b x, R b -> R' (mkB (b_state b) x (b_pre b) (b_out b))) ->
  triple (ok R) (update_sensor_mode conf) (fun _ => ok R').
Proof.
  intros H. unfold update_sensor_mode. eapply triple_bind; [apply safe_get_rpm|intros rpm].
  apply triple_modify. intros s [((Hst & Hd & Ht & Hh & Ha) & Hc) Hr].
  split; [split; [|done]|exact (H _ _ Hr)].
  refine (conj Hst (conj Hd (conj Ht (conj _ Ha)))).
  destruct sl; [|exact Hh]. change (sensor_mode conf = SENSOR_MODE_SENSORLESS) in Hsl.
  cbn. by rewrite Hsl.
Qed.

Lemma live_sl b x : Rlive b -> Rlive (mkB (b_state b) x (b_pre b) (b_out b)).
Proof. done. Qed.
Lemma inv_sl b x : Rinv b -> Rinv (mkB (b_state b) x (b_pre b) (b_out b)).
Proof. done. Qed.

Lemma safe_commutate_now : safe (ok Rlive) (commutate_now conf).
Proof.
  unfold commutate_now. eapply safe_bind; [apply safe_commutation_event|intros []].
  eapply safe_bind; [pwm_safe|intros []]. eapply safe_bind; [pwm_safe|intros t].
  eapply safe_bind; [pwm_safe|intros t']. eapply safe_bind; [pwm_safe|intros []].
  apply triple_update_sensor_mode, live_sl.
Qed.

Lemma safe_set_comm_step f R :
  (forall v, 1 <= comm_step (f v) <= 6) ->
  (forall v, detect_step (f v) = detect_step v /\ hall_to_phase_table (f v) = hall_to_phase_table v /\
     sensorless_now (f v) = sensorless_now v /\ pos_pid_set_pos (f v) = pos_pid_set_pos v /\
     state (f v) = state v) ->
  safe (ok R) (var_set f).
Proof.
  intros Hs Hf. apply triple_modify. intros s [((Hst & Hd & Ht & Hh & Ha) & Hc) Hr].
  destruct (Hf (vars s)) as (E1 & E2 & E3 & E4 & E5).
  unfold ok, core, var_ok, bkey in *. cbv [setter eta pwm_eta]. cbn [vars inputs signal curr timers].
  rewrite E1, E2, E3, E4, E5.
  exact (conj (conj (conj (Hs _) (conj Hd (conj Ht (conj Hh Ha)))) Hc) Hr).
Qed.

Lemma wrap_step_range n : 1 <= wrap_step n <= 6.
Proof. unfold wrap_step. pose proof (Z.mod_pos_bound (n - 1) 6). lia. Qed.

Lemma state_of R s x : ok R s -> state (vars s) = x -> b_state (bkey s) = x.
Proof. by intros _ <-. Qed.

(** After reading the state: a running driver is live. *)
Lemma running_live s : inv s /\ state (vars s) = MC_STATE_RUNNING -> ok Rlive s.
Proof. intros [[Hc Hr] Hst]. split; [done|]. apply inv_live; [done|]. cbn. by rewrite Hst. Qed.

(** The sums of [commutate]. *)
Lemma note_commutation R s : ok R s -> exists sums,
  put_ix (comm_step (vars s) - 1) (pwm_cycles_sum (signal s)) (last_pwm_cycles_sums (signal s)) = Some sums /\
  ok R (s <| signal := (signal s) <| last_pwm_cycles_sum := pwm_cycles_sum (signal s) |>
        <| last_pwm_cycles_sums := sums |> <| pwm_cycles_sum := f0 |> <| pwm_cycles := 0 |> |>).
Proof.
  intros [((Hst & Hv) & (Hl & Hs) & Hc) Hr].
  rewrite put_ix_Some by lia. eexists. split; [reflexivity|].
  split; [|exact Hr]. refine (conj (conj Hst Hv) (conj (conj _ Hs) Hc)).
  cbv [setter eta pwm_eta pwm_signal_eta]. cbn. by rewrite length_insert.
Qed.

(** [commutate] for any predicate [R] under which an off driver only counts. *)
Lemma triple_commutate_gen (R R' : bstate -> Prop) n :
  (forall b x, R b -> R' (mkB (b_state b) x (b_pre b) (b_out b))) ->
  (forall b, R b -> b_state b <> MC_STATE_OFF -> Rlive b) ->
  (forall b, Rlive b -> R' b) ->
  (forall b, R b -> b_state b = MC_STATE_OFF -> b_sl b = true /\ motor_type conf = MOTOR_TYPE_BLDC) ->
  triple (ok R) (commutate conf n) (fun _ => ok R').
Proof.
  intros Ha Hb Hc Hd.
  assert (Hlive : forall m, safe (ok Rlive) m -> triple (ok Rlive) m (fun _ : unit => ok R')).
  { intros m. apply triple_weaken; [done|]. intros a s. by apply ok_weaken. }
  intros s Hs. destruct (note_commutation _ s Hs) as (sums & Hput & Hs1).
  unfold commutate. rewrite (ST_bind_Some _ _ _ _ _ (eq_refl : var id s = Some (vars s, s))).
  rewrite (ST_bind_Some _ _ _ _ _ (eq_refl : sig id s = Some (signal s, s))).
  unfold id. rewrite Hput. rewrite (ST_bind_Some _ _ _ _ _ (eq_refl : lift (Some sums) s = Some (sums, s))).
  erewrite ST_bind_Some by reflexivity.
  match goal with |- exists a s', _ ?x = _ /\ _ => set (s1 := x) in * end.
  change (sensorless_now (vars s)) with (b_sl (bkey s1)).
  destruct ((motor_type conf =? MOTOR_TYPE_BLDC) && b_sl (bkey s1)) eqn:E.
  - clearbody s1. clear E. revert s1 Hs1. refine (_ : triple (ok R) _ (fun _ => ok R')).
    eapply triple_bind; [apply safe_set_comm_step; [intros v; apply wrap_step_range|done]|intros []].
    eapply triple_bind; [apply safe_update_rpm_tacho|intros []].
    apply triple_var. intros st. apply triple_if; intros Hst.
    + eapply triple_pre; [by apply triple_update_sensor_mode|by intros s2 []].
    + apply negb_false_iff, Z.eqb_eq in Hst. subst st.
      apply (triple_pre (ok Rlive)).
      2: { intros s2 [[H2 H3] H4]. split; [done|]. apply Hb; [done|]. cbn. by rewrite H4. }
      apply Hlive. eapply safe_bind; [apply safe_var|intros step].
      eapply safe_bind; [apply safe_set_next_comm_step|intros []]. apply safe_commutate_now.
  - apply Hlive; [apply safe_commutate_now|].
    destruct Hs1 as [Hk Hr]. split; [done|]. apply Hb; [done|]. intros Hoff.
    destruct (Hd _ Hr Hoff) as [H1 H2]. rewrite H1, H2 in E. done.
Qed.

Lemma triple_commutate n : triple (ok (Rcomm conf)) (commutate conf n) (fun _ => inv).
Proof.
  apply triple_commutate_gen.
  - by intros b x [].
  - intros b [Hi _]. by apply inv_live.
  - apply live_inv.
  - by intros b [_ H].
Qed.

Lemma safe_commutate_live n : safe (ok Rlive) (commutate conf n).
Proof. apply triple_commutate_gen; [apply live_sl|done|done|]. by intros b [H _]. Qed.

(** ** Reading the hall sensors *)

Lemma hall_reading_range i : 0 <= hall_reading i < 8.
Proof. unfold hall_reading. by destruct (HALL1 i), (HALL2 i), (HALL3 i). Qed.

Lemma rev_step_range h : 1 <= h <= 6 -> 1 <= rev_step h <= 6.
Proof.
  intros H. unfold rev_step. destruct (Z.ltb_spec h 1); [lia|].
  destruct (step_cases h H) as [->|[->|[->|[->|[->| ->]]]]]; vm_compute; split; congruence.
Qed.

Hypothesis Htable : hall_table_ok table.

Lemma hall_map_lookup (dir : bool) r h : 0 <= r < 8 -> table !! Z.to_nat r = Some h ->
  hall_map table !!? (r + (if dir then 8 else 0)) = Some (if dir then h else rev_step h).
Proof.
  intros Hr Hh. destruct Htable as [Hlen _]. unfold at_ix, hall_map.
  rewrite decide_True by (destruct dir; lia). destruct dir.
  - rewrite lookup_app_r by (rewrite length_fmap; lia). rewrite length_fmap, Hlen.
    by replace (Z.to_nat (r + 8) - 8)%nat with (Z.to_nat r) by lia.
  - rewrite Z.add_0_r. rewrite lookup_app_l by (rewrite length_fmap; lia).
    by rewrite list_lookup_fmap, Hh.
Qed.

(** In hall mode the sensors give a step. *)
Lemma triple_read_hall_phase R :
  triple (fun s => ok R s /\ sensorless_now (vars s) = false) mcpwm_read_hall_phase
    (fun phase s => ok R s /\ 1 <= phase <= 6).
Proof.
  intros s [Hs Hn]. pose proof Hs as [((Hst & Hd & Ht & Hh & Ha) & Hc) Hr].
  destruct sl; [congruence|]. destruct Hh as (h & Hlook & Hrange).
  exists (if direction (vars s) then h else rev_step h), s.
  split; [|split; [done|]; destruct (direction (vars s)); [done|by apply rev_step_range]].
  unfold mcpwm_read_hall_phase, read_hall. repeat erewrite ST_bind_Some by reflexivity.
  unfold lift. rewrite Ht. fold (hall_reading (inputs s)).
  by rewrite (hall_map_lookup _ _ h (hall_reading_range _) Hlook).
Qed.

(** ** Duty cycle *)

Definition Rrunning (b : bstate) : Prop :=
  b_state b = MC_STATE_RUNNING /\ legal (b_pre b) = true /\ legal (b_out b) = true.

Lemma rrunning_live b : Rrunning b -> Rlive b.
Proof. intros (H & H1 & H2). split; [by rewrite H|done]. Qed.

Lemma triple_set_running :
  triple inv (var_set (fun v => v <| state := MC_STATE_RUNNING |>)) (fun _ => ok Rlive).
Proof. apply triple_set_state. intros b (H1 & H2 & _). by split. Qed.

Lemma triple_commutate_live n : triple (ok Rlive) (commutate conf n) (fun _ => inv).
Proof.
  eapply triple_weaken; [done| |apply safe_commutate_live]. intros a s. apply ok_weaken, live_inv.
Qed.

Lemma triple_ret_inv {A} (a : A) R : (forall b, R b -> Rinv b) -> triple (ok R) (mret a) (fun _ => inv).
Proof. intros H. apply triple_ret. intros s. by apply ok_weaken. Qed.

Lemma triple_when b (m : P unit) R :
  (forall x, R x -> Rinv x) -> triple (ok R) m (fun _ => inv) -> triple (ok R) (when_p b m) (fun _ => inv).
Proof. intros H Hm. destruct b; [done|by apply triple_ret_inv]. Qed.

Lemma live_next_step step : triple (ok Rlive) (set_next_comm_step conf step) (fun _ => ok Rlive).
Proof. apply safe_set_next_comm_step. Qed.

(** Start at the step the hall sensors give. *)
Lemma triple_hall_start (k : Z -> P unit) (Pre : pwm -> Prop) :
  (forall s, Pre s -> ok Rlive s /\ sensorless_now (vars s) = false) ->
  (forall phase, triple (ok Rlive) (k phase) (fun _ => inv)) ->
  triple Pre (phase ← mcpwm_read_hall_phase;
              var_set (fun v => v <| comm_step := phase |>);; k phase) (fun _ => inv).
Proof.
  intros HP Hk. eapply triple_bind.
  { eapply triple_pre; [apply (triple_read_hall_phase Rlive)|exact HP]. }
  intros phase s [Hs Hph]. cbv beta.
  assert (Ht : triple (ok Rlive) (var_set (fun v => v <| comm_step := phase |>);; k phase) (fun _ => inv)).
  { eapply triple_bind; [apply (safe_set_comm_step (fun v => v <| comm_step := phase |>)); [done|done]|].
    intros []. apply Hk. }
  by apply Ht.
Qed.

Lemma safe_start_running : safe inv (start_running conf).
Proof.
  unfold start_running. apply triple_var. intros v.
  apply triple_if; intros _; [|apply triple_if; intros Hsn].
  - eapply triple_bind; [eapply triple_pre; [apply triple_set_running|by intros s []]|intros []].
    eapply triple_bind; [apply live_next_step|intros []]. apply triple_commutate_live.
  - apply triple_if; intros _; [|apply triple_ret; by intros s []].
    apply triple_if; intros _; [|apply triple_if; intros _; [|apply triple_ret; by intros s []]].
    + eapply triple_bind; [eapply triple_pre; [apply triple_set_running|by intros s []]|intros []].
      apply triple_when; [apply live_inv|apply triple_commutate_live].
    + eapply triple_pre; [|intros s [H _]; exact H].
      eapply safe_bind; [unfold mcpwm_get_tot_current_filtered; pwm_safe|intros c].
      apply triple_when; [done|].
      eapply triple_bind; [apply triple_set_running|intros []]. apply triple_commutate_live.
  - apply triple_if; intros _; [|apply triple_ret; by intros s []].
    eapply (triple_bind _ (fun _ s => ok Rlive s /\ sensorless_now (vars s) = false)).
    { intros s [Hs Hv]. destruct (triple_set_running s Hs) as (a & s' & Hr & Hs').
      exists a, s'. split; [done|]. split; [done|]. injection Hr as <- <-.
      change (sensorless_now (vars s) = false). unfold id in Hv. by rewrite Hv. }
    intros []. apply (triple_hall_start (fun phase => set_next_comm_step conf phase;; commutate conf 1)); [done|].
    intros phase. eapply triple_bind; [apply live_next_step|intros []]. apply triple_commutate_live.
Qed.
Hint Resolve safe_start_running : pwm.

Lemma safe_run_at_duty d : safe inv (run_at_duty conf d).
Proof. unfold run_at_duty. pwm_safe. Qed.

Lemma safe_full_brake_ll : safe inv (full_brake_ll conf).
Proof. apply triple_full_brake_ll. Qed.
Lemma safe_stop_pwm_ll : safe inv (stop_pwm_ll conf).
Proof. apply triple_stop_pwm_ll. Qed.
Hint Resolve safe_run_at_duty safe_full_brake_ll safe_stop_pwm_ll : pwm.

Lemma safe_set_duty_cycle_ll d : safe inv (set_duty_cycle_ll conf d).
Proof. unfold set_duty_cycle_ll. pwm_safe. Qed.

Lemma safe_set_running : safe inv (var_set (fun v => v <| state := MC_STATE_RUNNING |>)).
Proof. eapply triple_weaken; [| |apply triple_set_running]; [done|]. intros a s. apply ok_weaken, live_inv. Qed.
Hint Resolve safe_set_duty_cycle_ll safe_set_running : pwm.

Lemma safe_run_down_or_brake : safe inv (run_down_or_brake conf).
Proof. unfold run_down_or_brake. pwm_safe. Qed.
Hint Resolve safe_run_down_or_brake : pwm.

Lemma safe_set_duty_cycle_hl d : safe inv (set_duty_cycle_hl conf d).
Proof. unfold set_duty_cycle_hl. pwm_safe. Qed.
Hint Resolve safe_set_duty_cycle_hl : pwm.

(** ** Commands *)

Lemma safe_stop_pwm : safe inv (mcpwm_stop_pwm conf).
Proof. unfold mcpwm_stop_pwm. pwm_safe. Qed.
Lemma safe_set_duty d : safe inv (mcpwm_set_duty conf d).
Proof. unfold mcpwm_set_duty. pwm_safe. Qed.
Lemma safe_set_duty_noramp d : safe inv (mcpwm_set_duty_noramp conf d).
Proof. unfold mcpwm_set_duty_noramp. pwm_safe. Qed.
Lemma safe_set_pid_speed r : safe inv (mcpwm_set_pid_speed r).
Proof. unfold mcpwm_set_pid_speed. pwm_safe. Qed.
Lemma safe_set_current c : safe inv (mcpwm_set_current conf c).
Proof. unfold mcpwm_set_current. pwm_safe. Qed.
Lemma safe_set_brake_current c : safe inv (mcpwm_set_brake_current conf c).
Proof. unfold mcpwm_set_brake_current. pwm_safe. Qed.

(** A position for which the controller's angle loop ends. *)
Lemma triple_set_pid_pos pos :
  triple (fun s => inv s /\ angle_ok (inputs s) pos) (mcpwm_set_pid_pos conf pos) (fun _ => inv).
Proof.
  intros s [Hs Ha]. unfold mcpwm_set_pid_pos, set_mode. do 2 erewrite ST_bind_Some by reflexivity.
  match goal with |- exists a s', _ ?x = _ /\ _ => assert (Hx : inv x) end.
  { destruct Hs as [((Hst & Hd & Ht & Hh & _) & Hc) Hr].
    exact (conj (conj (conj Hst (conj Hd (conj Ht (conj Hh Ha)))) Hc) Hr). }
  revert Hx. apply (ltac:(pwm_safe) : safe inv (st ← var state;
    when_p (negb (st =? MC_STATE_RUNNING)) (set_duty_cycle_hl conf (l_min_duty conf)))).
Qed.

(** ** Filters *)

Lemma fir_add bits n v off x : fir_ok bits (n, v, off) ->
  exists v' off', filter_add_sample v x bits off = Some (v', off') /\ fir_ok bits (n, v', off').
Proof.
  intros [Hn Hr]. rewrite (add_sample_run bits) by done. eexists _, _. split; [reflexivity|].
  split; [done|]. eapply next_ok; [done|]. by rewrite length_insert.
Qed.

Lemma fir_run bits coeffs v off : fir_ok bits (length coeffs, v, off) ->
  exists y, filter_run_fir_iteration v coeffs bits off = Some y.
Proof. intros [Hn Hr]. rewrite run_fir_run by done. by eexists. Qed.

Section Signals.
Context (R : bstate -> Prop).

(** An assignment to the signals whose key is known to be sound. *)
Lemma set_signal s g : ok R s -> sig_ok (skey g) -> ok R (s <| signal := g |>).
Proof. intros [(Hv & Hs & Hc) Hr] Hg. split; [split_and!; done|done]. Qed.

Lemma set_current s c : ok R s -> cur_ok (ckey c) -> ok R (s <| curr := c |>).
Proof. intros [(Hv & Hs & Hc) Hr] Hg. split; [split_and!; done|done]. Qed.

Lemma safe_add_amplitude amp : safe (ok R) (add_amplitude amp).
Proof.
  intros s Hs. pose proof Hs as [(Hv & (Hl & Hk & Ha & Hc) & Hu) Hr].
  unfold add_amplitude. erewrite ST_bind_Some by reflexivity.
  destruct (fir_add _ _ _ _ amp Ha) as (v' & off' & Hrun & Hok').
  unfold id. rewrite Hrun. erewrite ST_bind_Some by reflexivity. cbn beta iota.
  eexists _, _. split; [reflexivity|]. apply set_signal; [done|]. by split_and!.
Qed.

Lemma safe_add_kv_sample : safe (ok R) add_kv_sample.
Proof.
  unfold add_kv_sample. apply safe_bind; [apply safe_get_kv|intros kv].
  intros s Hs. pose proof Hs as [(Hv & (Hl & Hk & Ha & Hc) & Hu) Hr].
  erewrite ST_bind_Some by reflexivity.
  destruct (fir_add _ _ _ _ kv Hk) as (v' & off' & Hrun & Hok').
  unfold id. rewrite Hrun. erewrite ST_bind_Some by reflexivity. cbn beta iota.
  eexists _, _. split; [reflexivity|]. apply set_signal; [done|]. by split_and!.
Qed.

(** The filtered amplitude exists. *)
Lemma safe_amplitude {A} (k : pwm_signal -> (Z -> Z) -> f32 -> P A) :
  (forall g adc x, safe (ok R) (k g adc x)) ->
  safe (ok R) (g ← sig id; adc ← inp ADC_Value;
    amp ← lift (filter_run_fir_iteration (amp_fir_samples g) (amp_fir_coeffs g) AMP_FIR_TAPS_BITS
                  (amp_fir_index g)); k g adc amp).
Proof.
  intros Hk s Hs. pose proof Hs as [(Hv & (Hl & Hkv & Ha & Hc) & Hu) Hr].
  do 2 erewrite ST_bind_Some by reflexivity.
  destruct (fir_run _ _ _ _ Ha) as [y Hy]. unfold id. rewrite Hy.
  erewrite ST_bind_Some by reflexivity. by apply Hk.
Qed.

Lemma track_direction_key sums v :
  vkey (track_direction sums v) = vkey v /\ state (track_direction sums v) = state v.
Proof.
  unfold track_direction. destruct (min_max_sums sums) as [mn mx].
  repeat case_match; split; reflexivity.
Qed.

Lemma safe_follow_motor : safe (ok R) (follow_motor conf).
Proof.
  unfold follow_motor. apply safe_amplitude. intros g adc x. cbv zeta.
  apply safe_bind; [|intros []; pwm_safe].
  destruct (motor_type conf =? MOTOR_TYPE_DC); [pwm_safe|].
  apply safe_var_set; intros v; apply track_direction_key.
Qed.

Lemma safe_update_rpm : safe (ok R) update_rpm.
Proof. unfold update_rpm. pwm_safe. Qed.

Lemma safe_slow_ramp x : safe (ok R) (slow_ramp x).
Proof. unfold slow_ramp. pwm_safe. Qed.
Hint Resolve safe_slow_ramp : pwm.

Lemma safe_tot_current : safe (ok R) mcpwm_get_tot_current.
Proof. apply safe_cur. Qed.
Lemma safe_tot_current_filtered : safe (ok R) mcpwm_get_tot_current_filtered.
Proof. apply safe_cur. Qed.
Hint Resolve safe_tot_current safe_tot_current_filtered : pwm.

Lemma safe_duty_target vs rs : safe (ok R) (duty_target conf vs rs).
Proof. unfold duty_target, current_target, brake_target. pwm_safe. Qed.

Lemma apply_limits_key a b c d e v :
  vkey (apply_limits conf a b c d e v) = vkey v /\ state (apply_limits conf a b c d e v) = state v.
Proof. unfold apply_limits, limit_towards. repeat case_match; split; reflexivity. Qed.

Lemma safe_count_cycles : safe (ok R) count_cycles.
Proof. unfold count_cycles. pwm_safe. Qed.

Lemma safe_running_current a b : safe (ok R) (running_current a b).
Proof. unfold running_current. pwm_safe. Qed.

Lemma safe_integrate a b c : safe (ok R) (integrate a b c).
Proof. unfold integrate. pwm_safe. Qed.

Lemma safe_dc_current : safe (ok R) (dc_current).
Proof. unfold dc_current. pwm_safe. Qed.

Lemma safe_note_hall : safe (ok R) note_hall.
Proof.
  intros s Hs. pose proof Hs as [((Hst & Hv) & Hsig & (Hd & Hl & Hrows)) Hr].
  unfold note_hall, read_hall. repeat erewrite ST_bind_Some by reflexivity.
  fold (hall_reading (inputs s)). pose proof (hall_reading_range (inputs s)) as Hh.
  cbn in Hl, Hrows. unfold id.
  destruct (at_ix_Some (hall_detect_table (curr s)) (hall_reading (inputs s))) as [row Hrow]; [lia|].
  rewrite Hrow. erewrite ST_bind_Some by reflexivity.
  assert (Hlen : length row = 7%nat).
  { rewrite Forall_lookup in Hrows. apply (Hrows (Z.to_nat (hall_reading (inputs s)))).
    unfold at_ix in Hrow. by rewrite decide_True in Hrow by lia. }
  destruct (at_ix_Some row (comm_step (vars s))) as [n Hn]; [lia|].
  rewrite Hn. erewrite ST_bind_Some by reflexivity.
  rewrite put_ix_Some by lia. erewrite ST_bind_Some by reflexivity.
  rewrite put_ix_Some by lia. erewrite ST_bind_Some by reflexivity.
  eexists _, _. split; [reflexivity|]. apply set_current; [done|].
  split_and!; [done|cbn; by rewrite length_insert|].
  cbn. apply Forall_insert; [done|]. by rewrite length_insert.
Qed.
End Signals.
Hint Resolve safe_add_amplitude safe_add_kv_sample safe_follow_motor safe_update_rpm safe_slow_ramp
  safe_tot_current safe_tot_current_filtered safe_duty_target safe_count_cycles safe_running_current
  safe_integrate safe_dc_current safe_note_hall : pwm.

(** ** Detection *)

Lemma put6 (l : list f32) k x : length l = 6%nat -> 0 <= k <= 5 ->
  exists l', put_ix k x l = Some l' /\ length l' = 6%nat.
Proof. intros. rewrite put_ix_Some by lia. eexists. split; [done|]. by rewrite length_insert. Qed.

(** A choice between writes to the same array. *)
Lemma lift_if {A B} (b : bool) (o1 o2 : option A) (s : pwm) (k : A -> P B) :
  ((if b then lift o1 else lift o2) ≫= k) s = (lift (if b then o1 else o2) ≫= k) s.
Proof. by destruct b. Qed.

Lemma triple_detect_measure a b R : triple (ok R) (detect_measure conf a b) (fun _ => inv).
Proof.
  intros s Hs. pose proof Hs as [((Hst & Hd & Hv) & Hsig & (H6 & Hrest)) Hr].
  unfold detect_measure. do 3 erewrite ST_bind_Some by reflexivity. cbv zeta. unfold id.
  assert (HL : length (mcpwm_detect_currents (curr s)) = 6%nat /\
    length (mcpwm_detect_voltages (curr s)) = 6%nat /\ length (mcpwm_detect_currents_diff (curr s)) = 6%nat /\
    length (mcpwm_detect_currents_avg (curr s)) = 6%nat /\ length (mcpwm_detect_avg_samples (curr s)) = 6%nat).
  { cbn in H6. decompose_Forall_hyps. by split_and!. }
  destruct HL as (HL1 & HL2 & HL3 & HL4 & HL5).
  set (k := detect_step (vars s)) in *.
  match goal with |- context [put_ix k ?x (mcpwm_detect_currents _)] =>
    destruct (put6 (mcpwm_detect_currents (curr s)) k x) as (l1 & E1 & L1); [done|lia|] end.
  rewrite E1. erewrite ST_bind_Some by reflexivity.
  destruct (at_ix_Some l1 (if 0 <? k then k - 1 else 5)) as [y Ey]; [destruct (Z.ltb_spec 0 k); lia|].
  rewrite Ey. erewrite ST_bind_Some by reflexivity.
  match goal with |- context [put_ix k ?x (mcpwm_detect_currents_diff _)] =>
    destruct (put6 (mcpwm_detect_currents_diff (curr s)) k x) as (l2 & E2 & L2); [done|lia|] end.
  rewrite E2. erewrite ST_bind_Some by reflexivity.
  match goal with |- exists a s', mbind _ ?m _ = _ /\ _ =>
    assert (exists l3, m s = Some (l3, s) /\ length l3 = 6%nat) as (l3 & E3 & L3) end.
  { repeat match goal with |- context [if ?b then _ else _] =>
      lazymatch b with context [comm_step] => destruct b end end;
      try (rewrite put_ix_Some by lia; eexists; split; [reflexivity|by rewrite length_insert]).
    by eexists. }
  rewrite (ST_bind_Some _ _ _ _ _ E3).
  destruct (at_ix_Some (mcpwm_detect_currents_avg (curr s)) k) as [z Ez]; [lia|].
  rewrite Ez. erewrite ST_bind_Some by reflexivity.
  match goal with |- context [put_ix k ?x (mcpwm_detect_currents_avg _)] =>
    destruct (put6 (mcpwm_detect_currents_avg (curr s)) k x) as (l4 & E4 & L4); [done|lia|] end.
  rewrite E4. erewrite ST_bind_Some by reflexivity.
  destruct (at_ix_Some (mcpwm_detect_avg_samples (curr s)) k) as [n En]; [lia|].
  rewrite En. erewrite ST_bind_Some by reflexivity.
  match goal with |- context [put_ix k ?x (mcpwm_detect_avg_samples _)] =>
    destruct (put6 (mcpwm_detect_avg_samples (curr s)) k x) as (l5 & E5 & L5); [done|lia|] end.
  rewrite E5. do 2 erewrite ST_bind_Some by reflexivity.
  apply (triple_stop_pwm_hw R Rinv); [intros [] Hx; by split_and!|].
  apply set_current; [done|]. split; [by repeat constructor|exact Hrest].
Qed.

Lemma triple_detect_advance :
  triple (fun s => inv s /\ state (vars s) = MC_STATE_DETECTING) (detect_advance conf) (fun _ => inv).
Proof.
  apply (triple_pre (ok Rlive)).
  2: { intros s [[Hc Hr] Hst]. split; [done|]. apply inv_live; [done|]. cbn. by rewrite Hst. }
  eapply triple_weaken; [done|intros a s; apply ok_weaken, live_inv|].
  refine (_ : safe (ok Rlive) (detect_advance conf)). unfold detect_advance.
  eapply safe_bind; [pwm_safe|intros []]. eapply safe_bind; [pwm_safe|intros []].
  eapply safe_bind; [|intros []].
  - apply triple_modify. intros s [((Hst & Hd & Hv) & Hc) Hr].
    unfold ok, core, var_ok, bkey in *. cbv zeta.
    assert (H6 : let k := if 5 <? detect_step (vars s) + 1 then 0 else detect_step (vars s) + 1 in
      1 <= k + 1 <= 6 /\ 0 <= k <= 5) by (cbv zeta; destruct (Z.ltb_spec 5 (detect_step (vars s) + 1)); lia).
    exact (conj (conj (conj (proj1 H6) (conj (proj2 H6) Hv)) Hc) Hr).
  - apply safe_bind; [pwm_safe|intros step]. apply safe_bind; [apply safe_set_next_comm_step|intros []].
    apply safe_commutation_event.
Qed.

Lemma safe_detect_measure a b : safe inv (detect_measure conf a b).
Proof. apply triple_detect_measure. Qed.
Hint Resolve safe_detect_measure : pwm.

Lemma safe_detect_if c :
  triple (fun s => inv s /\ True) (detecting ← IS_DETECTING; x ← cur id; when_p (detecting && c x) (detect_advance conf))
    (fun _ => inv).
Proof.
  intros s [Hs _]. unfold IS_DETECTING. repeat erewrite ST_bind_Some by reflexivity.
  destruct (Z.eqb_spec (state (vars s)) MC_STATE_DETECTING) as [Hst|]; [|by eexists _, _].
  cbn [andb]. destruct (c (id (curr s))); [|by eexists _, _].
  by apply triple_detect_advance.
Qed.

Lemma safe_bldc_current a b c : safe inv (bldc_current conf a b c).
Proof.
  unfold bldc_current. apply safe_bind; [pwm_safe|intros v]. apply safe_bind; [pwm_safe|intros sample].
  apply safe_bind; [pwm_safe|intros x]. apply safe_bind; [pwm_safe|intros []].
  apply safe_bind; [pwm_safe|intros []].
  intros s Hs. destruct (safe_detect_if (fun x => detect_now x =? 0) s (conj Hs I)) as (u & s' & Hr & Hs').
  revert Hr. unfold IS_DETECTING. repeat erewrite ST_bind_Some by reflexivity. intros Hr.
  rewrite (ST_bind_Some _ _ _ _ _ Hr). by eexists _, _.
Qed.
Hint Resolve safe_bldc_current : pwm.

Lemma safe_inj_handler : safe inv (mcpwm_adc_inj_int_handler conf).
Proof.
  unfold mcpwm_adc_inj_int_handler. do 2 (apply safe_bind; [pwm_safe|intros ?]).
  destruct (raw_currents _ _) as [c0 c1]. apply safe_bind; [pwm_safe|intros []]. cbv zeta.
  apply safe_bind; [pwm_safe|intros []]. apply safe_bind; [pwm_safe|intros sample].
  intros s Hs. pose proof Hs as [(Hv & (Hl & Hk & Ha & Hc) & Hu) Hr].
  erewrite ST_bind_Some by reflexivity. unfold id.
  destruct (fir_add _ _ _ _ (scale_current conf sample) Hc) as (v' & off' & Hrun & Hok').
  rewrite Hrun. erewrite ST_bind_Some by reflexivity. cbn beta iota.
  destruct (fir_run _ _ _ _ Hok') as [y Hy]. rewrite Hy.
  do 3 erewrite ST_bind_Some by reflexivity. eexists _, _. split; [reflexivity|].
  apply set_current; [|done]. apply set_signal; [done|]. by split_and!.
Qed.

(** ** The sampling interrupt *)

Lemma comm_when b m :
  triple (ok (Rcomm conf)) m (fun _ : unit => inv) -> triple (ok (Rcomm conf)) (when_p b m) (fun _ => inv).
Proof. apply triple_when. by intros x []. Qed.

Lemma comm_inv (m : P unit) : safe inv m -> triple (ok (Rcomm conf)) m (fun _ => inv).
Proof. intros H. eapply triple_pre; [exact H|]. intros s. apply ok_weaken. by intros b []. Qed.

Lemma triple_commutate_integrate : triple (ok (Rcomm conf)) (commutate_integrate conf) (fun _ => inv).
Proof.
  unfold commutate_integrate. eapply triple_bind; [apply safe_var|intros v].
  eapply triple_bind; [apply safe_sig|intros g]. cbv zeta. apply comm_when.
  eapply triple_bind; [apply triple_commutate|intros []]. refine (_ : safe inv _). pwm_safe.
Qed.

Lemma triple_commutate_delay d : triple (ok (Rcomm conf)) (commutate_delay conf d) (fun _ => inv).
Proof.
  unfold commutate_delay. apply triple_if; intros _.
  - eapply triple_bind; [apply safe_var|intros v].
    eapply (triple_bind _ (fun _ => ok (Rcomm conf))); [refine (_ : safe (ok (Rcomm conf)) _); pwm_safe|intros []].
    eapply triple_bind; [apply safe_sig|intros g]. cbv zeta. apply comm_when.
    eapply triple_bind; [apply triple_commutate|intros []]. refine (_ : safe inv _). pwm_safe.
  - apply comm_inv. pwm_safe.
Qed.

Lemma triple_watch_bemf vzero ph vin :
  triple (ok (Rcomm conf)) (watch_bemf conf vzero ph vin) (fun _ => inv).
Proof.
  unfold watch_bemf. eapply triple_bind; [apply safe_var|intros step].
  destruct (floating_phase step vzero ph) as [v_diff ph_raw].
  eapply (triple_bind _ (fun _ => ok (Rcomm conf))); [refine (_ : safe (ok (Rcomm conf)) _); pwm_safe|intros []].
  cbv zeta. eapply triple_bind; [apply safe_integrate|intros []].
  apply triple_if; intros _; [apply triple_commutate_integrate|].
  apply triple_if; intros _; [apply triple_commutate_delay|]. apply triple_ret_inv. by intros b [].
Qed.

Lemma safe_kick_stuck_motor : safe (ok (Rcomm conf)) (kick_stuck_motor conf).
Proof.
  unfold kick_stuck_motor. eapply safe_bind; [apply safe_sig|intros g].
  apply triple_var. intros st. apply triple_if; intros Hb; [|apply triple_ret; by intros s []].
  apply andb_true_iff in Hb as [_ Hst]. apply Z.eqb_eq in Hst. subst st.
  apply (triple_weaken (ok Rlive) _ (fun _ => ok Rlive)).
  - intros s [[Hc [Hi Ho]] Hst]. split; [done|]. apply inv_live; [done|]. cbn. by rewrite Hst.
  - intros a s. apply ok_weaken, live_comm.
  - refine (_ : safe (ok Rlive) _). apply safe_bind; [|intros []; pwm_safe].
    apply safe_if; [apply safe_commutate_live|]. apply safe_if; [apply safe_commutate_live|apply safe_ret].
Qed.

Lemma triple_sensorless_step vzero ph vin :
  triple (ok (Rcomm conf)) (sensorless_step conf vzero ph vin) (fun _ => inv).
Proof.
  unfold sensorless_step. eapply triple_bind; [apply safe_kick_stuck_motor|intros []].
  eapply triple_bind; [apply safe_var|intros st]. eapply triple_bind; [apply safe_sig|intros n].
  eapply (triple_bind _ (fun _ => inv)).
  - apply triple_if; intros _; [apply triple_watch_bemf|].
    apply comm_inv. pwm_safe.
  - intros []. refine (_ : safe inv _). pwm_safe.
Qed.

(** Commutating again at the present step. *)
Lemma triple_recommutate step (Pre : pwm -> Prop) :
  (forall s, Pre s -> inv s /\ state (vars s) = MC_STATE_RUNNING) ->
  triple Pre (set_next_comm_step conf step;; commutate conf 0) (fun _ => inv).
Proof.
  intros HP. apply (triple_pre (ok Rlive)); [|intros s Hs; by apply running_live, HP].
  eapply triple_bind; [apply live_next_step|intros []]. apply triple_commutate_live.
Qed.

Lemma triple_hall_step :
  triple (fun s => inv s /\ sensorless_now (vars s) = false) (hall_step conf) (fun _ => inv).
Proof.
  unfold hall_step. eapply triple_bind; [apply (triple_read_hall_phase Rinv)|intros phase; cbv beta].
  apply triple_var. intros v. apply triple_if; intros _.
  - intros s [[Hs Hph] Hv].
    assert (Ht : triple inv (var_set (fun v => v <| comm_step := phase |>);; update_rpm_tacho;;
      st ← var state; when_p (st =? MC_STATE_RUNNING) (set_next_comm_step conf phase;; commutate conf 0))
      (fun _ => inv)); [|by apply Ht].
    eapply triple_bind; [apply (safe_set_comm_step (fun v => v <| comm_step := phase |>)); [done|done]|intros []].
    eapply triple_bind; [apply safe_update_rpm_tacho|intros []].
    apply triple_var. intros st. apply triple_if; intros Hst; [|apply triple_ret; by intros s' []].
    apply triple_recommutate. intros s' [H1 H2]. split; [done|]. apply Z.eqb_eq in Hst. congruence.
  - apply triple_if; intros Hst; [|apply triple_ret; by intros s' [[] _]].
    apply triple_recommutate. intros s' [[H1 _] H2]. split; [done|].
    apply andb_true_iff in Hst as [Hst _]. apply Z.eqb_eq in Hst. unfold id in H2. congruence.
Qed.

(** Steps that leave the control variables alone. *)
Definition same_vars {A} (m : P A) : Prop := forall s a s', m s = Some (a, s') -> vars s' = vars s.

Lemma triple_same_vars (m : P unit) v : safe inv m -> same_vars m ->
  triple (fun s => inv s /\ vars s = v) m (fun _ s => inv s /\ vars s = v).
Proof.
  intros Hm Hv s [Hs <-]. destruct (Hm s Hs) as (a & s' & Hr & Hs'). exists a, s'. eauto.
Qed.

Lemma same_vars_add_amplitude amp : same_vars (add_amplitude amp).
Proof.
  intros s a s'. unfold add_amplitude. erewrite ST_bind_Some by reflexivity.
  destruct (filter_add_sample _ _ _ _) as [[x y]|]; [|discriminate].
  erewrite ST_bind_Some by reflexivity. by intros [= _ <-].
Qed.

Lemma same_vars_timer : same_vars update_timer_attempt.
Proof.
  intros s a s'. unfold update_timer_attempt, update_far_away, read_TIM1_CNT.
  unfold mbind, ST_bind, tim, inp, inp_set, tim_set, st_modify, when_p, mret, ST_ret.
  repeat case_match; intros; simplify_eq; reflexivity.
Qed.

Lemma safe_dc_step adc : safe inv (dc_step conf adc).
Proof.
  unfold dc_step. apply triple_var. intros v.
  eapply triple_bind; [apply triple_same_vars; [apply safe_add_amplitude|apply same_vars_add_amplitude]|].
  intros []. apply triple_if; intros Hst; [|apply triple_ret; by intros s []].
  apply triple_recommutate. intros s [H1 H2]. split; [done|].
  apply andb_true_iff in Hst as [Hst _]. apply Z.eqb_eq in Hst. congruence.
Qed.

Lemma safe_bldc_step adc : motor_type conf = MOTOR_TYPE_BLDC -> safe inv (bldc_step conf adc).
Proof.
  intros Hm. unfold bldc_step. apply triple_var. intros v. cbv zeta.
  eapply triple_bind; [apply triple_same_vars; [pwm_safe|by intros s a s' [= _ <-]]|intros []].
  destruct (raw_phases _ _) as [[ph1 ph2] ph3].
  eapply triple_bind; [apply triple_same_vars; [pwm_safe|apply same_vars_timer]|intros []].
  eapply triple_bind; [apply triple_same_vars; [apply safe_add_amplitude|apply same_vars_add_amplitude]|].
  intros []. apply triple_if; intros Hsn.
  - apply (triple_pre (ok (Rcomm conf))); [apply triple_sensorless_step|].
    intros s [[Hc Hr] <-]. exact (conj Hc (conj Hr (fun _ => conj Hsn Hm))).
  - eapply triple_pre; [apply triple_hall_step|]. by intros s [Hs <-].
Qed.

(** ** Duty cycle control and the whole handlers *)

Lemma safe_var_limits a b c d e : safe inv (var_set (apply_limits conf a b c d e)).
Proof. apply safe_var_set; intros v; apply apply_limits_key. Qed.
Hint Resolve safe_var_limits : pwm.

Lemma safe_take_target tmp : safe inv (var_set (take_target tmp)).
Proof. apply safe_var_set; intros v; unfold take_target; by destruct (0 <? limit_delay v). Qed.
Hint Resolve safe_take_target : pwm.

Lemma safe_control_duty v : safe inv (control_duty conf v).
Proof. unfold control_duty. pwm_safe. Qed.
Hint Resolve safe_control_duty : pwm.

Lemma safe_run_pid_control_speed : safe inv (run_pid_control_speed conf).
Proof.
  unfold run_pid_control_speed. apply safe_bind; [pwm_safe|intros v]. cbv zeta.
  apply safe_if; [pwm_safe|]. apply safe_if.
  - apply safe_bind; [pwm_safe|intros []; apply safe_set_duty].
  - pwm_safe.
Qed.
Hint Resolve safe_run_pid_control_speed : pwm.

Lemma safe_run_pid_control_pos dt : safe inv (run_pid_control_pos conf dt).
Proof.
  intros s Hs. pose proof Hs as [((Hst & Hd & Ht & Hh & Ha) & Hc) Hr]. destruct Ha as [e He].
  unfold run_pid_control_pos. erewrite ST_bind_Some by reflexivity.
  destruct (negb (control_mode (id (vars s)) =? CONTROL_MODE_POS)).
  - by apply (safe_var_set table sl Rinv).
  - erewrite ST_bind_Some by reflexivity. unfold id. rewrite He. erewrite ST_bind_Some by reflexivity.
    by apply (safe_var_set table sl Rinv).
Qed.
Hint Resolve safe_run_pid_control_pos : pwm.

(** [interface] is what the motor control interface does during the interrupt. *)
Lemma safe_adc_int_handler interface :
  safe inv interface -> safe inv (mcpwm_adc_int_handler conf interface).
Proof.
  intros Hi. unfold mcpwm_adc_int_handler. apply safe_bind; [pwm_safe|intros []].
  apply safe_bind; [pwm_safe|intros adc]. cbv zeta. apply safe_bind; [pwm_safe|intros []].
  apply safe_bind; [|intros []].
  - destruct (Z.eqb_spec (motor_type conf) MOTOR_TYPE_BLDC); [by apply safe_bldc_step|apply safe_dc_step].
  - apply safe_bind; [pwm_safe|intros []]. apply safe_bind; [exact Hi|intros []]. pwm_safe.
Qed.

Lemma safe_rpm_thread_step : safe inv (rpm_thread_step conf).
Proof. unfold rpm_thread_step. pwm_safe. Qed.

Lemma safe_timer_thread_step : safe inv (timer_thread_step conf).
Proof. unfold timer_thread_step. pwm_safe. Qed.

Lemma safe_set_detect refused : safe inv (mcpwm_set_detect conf refused).
Proof.
  unfold mcpwm_set_detect. apply safe_if; [apply safe_ret|].
  eapply (triple_bind _ (fun _ => inv)); [apply safe_set_mode|intros []].
  set (Roff := fun b => b_pre b = off_bridge /\ b_out b = off_bridge).
  eapply (triple_bind _ (fun _ => ok Roff)); [by apply triple_stop_pwm_hw|intros []].
  eapply (triple_bind _ (fun _ => ok Roff)); [apply safe_set_switching_frequency|intros []].
  eapply (triple_bind _ (fun _ => ok Roff)).
  - apply triple_modify. intros s Hs. apply set_current; [done|].
    destruct Hs as [(_ & _ & H6 & Hrest) _]. split; [|exact Hrest].
    cbn in H6 |- *. decompose_Forall_hyps. by repeat constructor.
  - intros []. apply triple_set_state. intros [] [H1 H2]. cbn in H1, H2. subst. by split_and!.
Qed.

Lemma safe_reset_hall_detect_table : safe inv mcpwm_reset_hall_detect_table.
Proof.
  unfold mcpwm_reset_hall_detect_table. apply triple_modify. intros s Hs.
  pose proof Hs as [(_ & _ & H6 & _) _]. apply set_current; [done|]. split; [exact H6|].
  split; [done|by repeat constructor].
Qed.

Lemma safe_init_finish : safe inv mcpwm_init_finish.
Proof. unfold mcpwm_init_finish. pwm_safe. Qed.

Lemma safe_deinit : safe inv mcpwm_deinit.
Proof. unfold mcpwm_deinit. pwm_safe. Qed.

Lemma safe_deinit_finish : safe inv mcpwm_deinit_finish.
Proof.
  unfold mcpwm_deinit_finish. apply safe_bind; [pwm_safe|intros v]. apply safe_if; [pwm_safe|].
  apply safe_bind; [|intros []; pwm_safe].
  apply triple_modify. intros s [Hc Hr]. split; [done|]. by split_and!.
Qed.

(** ** The hall table *)

Lemma hall_entry h : h <= 6 -> h < 1 \/ fwd_to_rev !!? h = Some (rev_step h).
Proof.
  intros Hh. destruct (decide (h < 1)) as [|Hge]; [by left|right].
  destruct (step_cases h) as [->|[->|[->|[->|[->| ->]]]]]; [lia|done..].
Qed.

Lemma hall_loop (t : list Z) : length t = 16%nat ->
  for_loop 8 0 1 (fun i t =>
    ind_now ← table !!? i;
    t ← put_ix (8 + i) ind_now t;
    if ind_now <? 1 then put_ix i ind_now t
    else r ← fwd_to_rev !!? ind_now; put_ix i r t) t = Some (hall_map table).
Proof.
  intros Ht. destruct Htable as [Hlen Hle].
  assert (Hbody : forall i t h, 0 <= i < 8 -> length t = 16%nat -> table !!? i = Some h -> h <= 6 ->
    (ind_now ← table !!? i; t ← put_ix (8 + i) ind_now t;
     if ind_now <? 1 then put_ix i ind_now t else r ← fwd_to_rev !!? ind_now; put_ix i r t) =
    Some (<[Z.to_nat i := rev_step h]> (<[Z.to_nat (8 + i) := h]> t))).
  { intros i t' h Hi Ht' Hlook Hh. rewrite Hlook. cbn [mbind option_bind].
    rewrite put_ix_Some by lia. cbn [mbind option_bind].
    destruct (hall_entry h Hh) as [Hlt|Hrev].
    - rewrite (proj2 (Z.ltb_lt _ _) Hlt). rewrite put_ix_Some by (rewrite length_insert; lia).
      unfold rev_step. by rewrite (proj2 (Z.ltb_lt _ _) Hlt).
    - destruct (Z.ltb_spec h 1) as [Hlt|]; [|rewrite Hrev; cbn [mbind option_bind]];
        rewrite put_ix_Some by (rewrite length_insert; lia); [|done].
      unfold rev_step. by rewrite (proj2 (Z.ltb_lt _ _) Hlt). }
  destruct table as [|h0 [|h1 [|h2 [|h3 [|h4 [|h5 [|h6 [|h7 [|? ?]]]]]]]]]; try discriminate.
  do 8 (apply Forall_cons_1 in Hle as [? Hle]).
  do 16 (destruct t as [|? t]; [discriminate|]). destruct t; [|discriminate].
  assert (Hstep : forall n i t h, 0 <= i < 8 -> length t = 16%nat ->
    [h0; h1; h2; h3; h4; h5; h6; h7] !!? i = Some h -> h <= 6 ->
    for_loop (S n) i 1 (fun i t =>
      ind_now ← [h0; h1; h2; h3; h4; h5; h6; h7] !!? i; t ← put_ix (8 + i) ind_now t;
      if ind_now <? 1 then put_ix i ind_now t else r ← fwd_to_rev !!? ind_now; put_ix i r t) t =
    for_loop n (i + 1) 1 (fun i t =>
      ind_now ← [h0; h1; h2; h3; h4; h5; h6; h7] !!? i; t ← put_ix (8 + i) ind_now t;
      if ind_now <? 1 then put_ix i ind_now t else r ← fwd_to_rev !!? ind_now; put_ix i r t)
      (<[Z.to_nat i := rev_step h]> (<[Z.to_nat (8 + i) := h]> t))).
  { intros n i t h Hi Hl Hh Hr. rewrite for_loop_S, (Hbody i t h) by done. reflexivity. }
  rewrite (Hstep _ _ _ h0), (Hstep _ _ _ h1), (Hstep _ _ _ h2), (Hstep _ _ _ h3), (Hstep _ _ _ h4),
    (Hstep _ _ _ h5), (Hstep _ _ _ h6), (Hstep _ _ _ h7) by (done || lia).
  reflexivity.
Qed.

Lemma safe_init_hall_table : safe inv (mcpwm_init_hall_table table).
Proof.
  intros s Hs. pose proof Hs as [((Hst & Hd & Ht & Hh & Ha) & Hc) Hr].
  unfold mcpwm_init_hall_table. erewrite ST_bind_Some by reflexivity.
  rewrite hall_loop.
  - erewrite ST_bind_Some by reflexivity. eexists _, _. split; [reflexivity|].
    exact (conj (conj (conj Hst (conj Hd (conj eq_refl (conj Hh Ha)))) Hc) Hr).
  - rewrite Ht. unfold hall_map. rewrite length_app, length_fmap. destruct Htable as [-> _]. done.
Qed.

Lemma safe_set_configuration : hall_table conf = table -> safe inv (mcpwm_set_configuration conf).
Proof.
  intros Heq. unfold mcpwm_set_configuration. rewrite Heq.
  apply safe_bind; [pwm_safe|intros []]. apply safe_bind; [pwm_safe|intros []].
  apply safe_bind; [apply safe_init_hall_table|intros []]. apply triple_update_sensor_mode, inv_sl.
Qed.
End Bridge.
