(* ===== verification/ConfDefault.v ===== *)
(** * ConfDefault: the compiled default configurations
    (src/conf_general.c with mcconf/mcconf_default.h and appconf/appconf_default.h)

    The values of the macros [MCCONF_*] and [APPCONF_*] when no user
    configuration file is selected, assigned as the two functions do. *)
From S2P Require Import Prelude Float32 McTypes.

Definition conf_general_get_default_mc_configuration : mc_configuration := {|
  pwm_mode := 1;
  comm_mode := 0;
  motor_type := 0;
  sensor_mode := 0;
  l_current_max := (f_of_int 60);
  l_current_min := (f_of_int (-60));
  l_in_current_max := (f_of_int 60);
  l_in_current_min := (f_of_int (-20));
  l_abs_current_max := (f_of_int 130);
  l_min_erpm := (f_of_int (-100000));
  l_max_erpm := (f_of_int 100000);
  l_max_erpm_fbrake := (f_of_int 300);
  l_max_erpm_fbrake_cc := (f_of_int 1500);
  l_min_vin := (f_of_int 8);
  l_max_vin := (f_of_int 57);
  l_battery_cut_start := (f_of_int 10);
  l_battery_cut_end := (f_of_int 8);
  l_slow_abs_current := true;
  l_rpm_lim_neg_torque := true;
  l_temp_fet_start := (f_of_int 80);
  l_temp_fet_end := (f_of_int 100);
  l_temp_motor_start := (f_of_int 80);
  l_temp_motor_end := (f_of_int 100);
  l_min_duty := (flit 1 200);
  l_max_duty := (flit 19 20);
  lo_current_max := (f_of_int 60);
  lo_current_min := (f_of_int (-60));
  lo_in_current_max := (f_of_int 60);
  lo_in_current_min := (f_of_int (-20));
  sl_min_erpm := (f_of_int 150);
  sl_min_erpm_cycle_int_limit := (f_of_int 1100);
  sl_max_fullbreak_current_dir_change := (f_of_int 10);
  sl_cycle_int_limit := (f_of_int 62);
  sl_phase_advance_at_br := (flit 4 5);
  sl_cycle_int_rpm_br := (f_of_int 80000);
  sl_bemf_coupling_k := (f_of_int 600);
  hall_table := [(-1); 1; 3; 2; 5; 6; 4; (-1)];
  hall_sl_erpm := (f_of_int 2000);
  foc_current_kp := (flit 3 100);
  foc_current_ki := (f_of_int 50);
  foc_f_sw := (f_of_int 20000);
  foc_dt_us := (flit 2 25);
  foc_encoder_offset := (f_of_int 180);
  foc_encoder_inverted := false;
  foc_encoder_ratio := (f_of_int 7);
  foc_motor_l := (flit 7 1000000);
  foc_motor_r := (flit 3 200);
  foc_motor_flux_linkage := (flit 49 20000);
  foc_observer_gain := (f_of_int 90000000);
  foc_pll_kp := (f_of_int 2000);
  foc_pll_ki := (f_of_int 20000);
  foc_duty_dowmramp_kp := (f_of_int 10);
  foc_duty_dowmramp_ki := (f_of_int 200);
  foc_openloop_rpm := (f_of_int 1200);
  foc_sl_openloop_hyst := (flit 1 2);
  foc_sl_openloop_time := (flit 1 2);
  foc_sl_d_current_duty := f0;
  foc_sl_d_current_factor := f0;
  foc_sensor_mode := 0;
  foc_hall_table := [255; 255; 255; 255; 255; 255; 255; 255];
  foc_sl_erpm := (f_of_int 2500);
  s_pid_kp := (flit 1 10000);
  s_pid_ki := (flit 3 200);
  s_pid_kd := f0;
  s_pid_min_erpm := (f_of_int 900);
  p_pid_kp := (flit 3 100);
  p_pid_ki := f0;
  p_pid_kd := (flit 1 2500);
  p_pid_ang_div := (f_of_int 1);
  cc_startup_boost_duty := (flit 1 100);
  cc_min_current := (f_of_int 1);
  cc_gain := (flit 23 5000);
  cc_ramp_step_max := (flit 1 25);
  m_fault_stop_time_ms := 3000;
  m_duty_ramp_step := (flit 1 50);
  m_duty_ramp_step_rpm_lim := (flit 1 2000);
  m_current_backoff_gain := (flit 1 2);
  m_encoder_counts := 8192;
  m_sensor_port_mode := 0 |}.

Definition conf_general_get_default_app_configuration : app_configuration := {|
  controller_id := 0;
  timeout_msec := 1000;
  timeout_brake_current := f0;
  send_can_status := false;
  send_can_status_rate_hz := 500;
  app_to_use := 3;
  app_ppm_conf := {|
    ppm_ctrl_type := 0;
    ppm_pid_max_erpm := (f_of_int 15000);
    ppm_hyst := (flit 3 20);
    ppm_pulse_start := (f_of_int 1);
    ppm_pulse_end := (f_of_int 2);
    ppm_median_filter := true;
    ppm_safe_start := true;
    ppm_rpm_lim_start := (f_of_int 150000);
    ppm_rpm_lim_end := (f_of_int 200000);
    ppm_multi_esc := false;
    ppm_tc := false;
    ppm_tc_max_diff := (f_of_int 3000) |};
  app_adc_conf := {|
    adc_ctrl_type := 0;
    adc_hyst := (flit 3 20);
    adc_voltage_start := (flit 9 10);
    adc_voltage_end := (f_of_int 3);
    adc_use_filter := true;
    adc_safe_start := true;
    adc_cc_button_inverted := false;
    adc_rev_button_inverted := false;
    adc_voltage_inverted := false;
    adc_rpm_lim_start := (f_of_int 150000);
    adc_rpm_lim_end := (f_of_int 200000);
    adc_multi_esc := false;
    adc_tc := false;
    adc_tc_max_diff := (f_of_int 3000);
    adc_update_rate_hz := 500 |};
  app_uart_baudrate := 115200;
  app_chuk_conf := {|
    chuk_ctrl_type := 1;
    chuk_hyst := (flit 3 20);
    chuk_rpm_lim_start := (f_of_int 150000);
    chuk_rpm_lim_end := (f_of_int 200000);
    chuk_ramp_time_pos := (flit 9 10);
    chuk_ramp_time_neg := (flit 3 10);
    chuk_stick_erpm_per_s_in_cc := (f_of_int 3000);
    chuk_multi_esc := false;
    chuk_tc := false;
    chuk_tc_max_diff := (f_of_int 3000) |};
  app_nrf_conf := {|
    nrf_speed := 2;
    nrf_power := 3;
    nrf_crc_type := 1;
    nrf_retry_delay := 0;
    nrf_retries := 3;
    nrf_channel := 76;
    nrf_address := [198; 199; 0];
    nrf_send_crc_ack := true |} |}.

Lemma default_mc_typed : mc_configuration_typed conf_general_get_default_mc_configuration.
Proof. unfold mc_configuration_typed, is_u8, is_i32, is_u32. cbn. split_and!; try lia; repeat constructor; unfold is_i8, is_u8; lia. Qed.

Lemma default_app_typed : app_configuration_typed conf_general_get_default_app_configuration.
Proof.
  unfold app_configuration_typed, ppm_config_typed, adc_config_typed, chuk_config_typed,
    nrf_config_typed, is_u8, is_u32. cbn. split_and!; try lia; repeat constructor; unfold is_u8; lia.
Qed.
