(* ===== verification/McpwmTheorems.v ===== *)
(** * McpwmTheorems: what the BLDC driver promises

    The driver as a transition system: after [mcpwm_init], commands, interrupt
    handlers, thread rounds and new readings of the hardware follow each other
    in any order, under configurations that may change from step to step. *)
From S2P Require Import Prelude Safe Float32 McTypes Motor Utils DigitalFilter McpwmState.
From S2P Require Import Mcpwm McpwmIsr McpwmBridge McpwmSafe ConfDefault.

(** ** The transition system *)

Inductive pwm_command :=
| SetDuty (d : f32) | SetDutyNoramp (d : f32) | SetPidSpeed (rpm : f32) | SetPidPos (pos : f32)
| SetCurrent (c : f32) | SetBrakeCurrent (c : f32) | StopPwm.

Definition run_command (conf : mc_configuration) (c : pwm_command) : P unit :=
  match c with
  | SetDuty d => mcpwm_set_duty conf d
  | SetDutyNoramp d => mcpwm_set_duty_noramp conf d
  | SetPidSpeed rpm => mcpwm_set_pid_speed rpm
  | SetPidPos pos => mcpwm_set_pid_pos conf pos
  | SetCurrent c => mcpwm_set_current conf c
  | SetBrakeCurrent c => mcpwm_set_brake_current conf c
  | StopPwm => mcpwm_stop_pwm conf
  end.

(** [AdcInt n]: the interface's part of the interrupt stops the motor [n]
    times.  [Sense i]: the hardware provides the readings [i]. *)
Inductive pwm_event :=
| Command (c : pwm_command) | SetDetect (refused : bool) | SetConfiguration | ResetHallTable
| AdcInj | AdcInt (stops : nat) | RpmThread | TimerThread
| Init | InitFinish | Deinit | DeinitFinish
| Sense (i : pwm_inputs).

Fixpoint stop_times (conf : mc_configuration) (n : nat) : P unit :=
  match n with O => mret tt | S n => mcpwm_stop_pwm conf;; stop_times conf n end.

Definition discard {A} (m : P A) : P unit := _ ← m; mret tt.

Section System.
Context `{Libm}.

Definition pwm_step (conf : mc_configuration) (e : pwm_event) : P unit :=
  match e with
  | Command c => run_command conf c
  | SetDetect refused => mcpwm_set_detect conf refused
  | SetConfiguration => mcpwm_set_configuration conf
  | ResetHallTable => mcpwm_reset_hall_detect_table
  | AdcInj => mcpwm_adc_inj_int_handler conf
  | AdcInt n => mcpwm_adc_int_handler conf (stop_times conf n)
  | RpmThread => discard (rpm_thread_step conf)
  | TimerThread => discard (timer_thread_step conf)
  | Init => mcpwm_init conf
  | InitFinish => discard mcpwm_init_finish
  | Deinit => mcpwm_deinit
  | DeinitFinish => discard mcpwm_deinit_finish
  | Sense i => st_modify (fun s => s <| inputs := i |>)
  end.

(** The hall table in use, and whether the motor always runs sensorless. *)
Context (table : list Z) (sl : bool).

Definition conf_ok (conf : mc_configuration) : Prop :=
  hall_table conf = table /\ if sl then sensor_mode conf = SENSOR_MODE_SENSORLESS else True.

(** A sensored motor needs hall readings that stand for a step, and the
    position controller an angle it can normalise. *)
Definition inputs_ok (i : pwm_inputs) (pos : f32) : Prop :=
  (if sl then True else hall_valid table i) /\ angle_ok i pos.

Definition event_ok (e : pwm_event) (s : pwm) : Prop :=
  match e with
  | Sense i => inputs_ok i (pos_pid_set_pos (vars s))
  | Command (SetPidPos pos) => angle_ok (inputs s) pos
  | Init => angle_ok (inputs s) f0
  | _ => True
  end.

Inductive reachable : pwm -> Prop :=
| reach_init conf i s :
    conf_ok conf -> inputs_ok i f0 -> mcpwm_init conf (pwm0 i) = Some (tt, s) -> reachable s
| reach_step conf e s s' :
    reachable s -> conf_ok conf -> event_ok e s -> pwm_step conf e s = Some (tt, s') -> reachable s'.

(** ** Start-up *)

Hypothesis Htable : hall_table_ok table.
Abbreviation ok := (ok table sl).
Abbreviation inv := (ok Rinv).

(** What [mcpwm_init] relies on. *)
Definition pre_init (s : pwm) : Prop :=
  length (hall_to_phase_table (vars s)) = 16%nat /\ inputs_ok (inputs s) f0 /\
  sig_ok (skey (signal s)) /\ cur_ok (ckey (curr s)).

Lemma sized_nat bits n : 0 <= bits -> n = Z.to_nat (taps bits) -> Z.of_nat n = taps bits.
Proof. intros Hb ->. rewrite Z2Nat.id; [done|]. rewrite taps_pow by done. apply Z.pow_nonneg. lia. Qed.

Lemma safe_create_filters R : safe (ok R) create_filters.
Proof.
  intros s Hs. pose proof Hs as [(Hv & (Hl & [Hk Hk'] & [Ha Ha'] & [Hc Hc']) & Hu) Hr].
  unfold create_filters. erewrite ST_bind_Some by reflexivity. unfold id.
  destruct (fir_lowpass_total KV_FIR_TAPS_BITS (flit 2 100) true (kv_fir_coeffs (signal s)))
    as (kv & -> & H1); [apply fir_check_7|by apply sized_nat|].
  erewrite ST_bind_Some by reflexivity.
  destruct (fir_lowpass_total AMP_FIR_TAPS_BITS (flit 2 100) true (amp_fir_coeffs (signal s)))
    as (amp & -> & H2); [apply fir_check_7|by apply sized_nat|].
  erewrite ST_bind_Some by reflexivity.
  destruct (fir_lowpass_total CURR_FIR_TAPS_BITS (flit 15 100) true (current_fir_coeffs (signal s)))
    as (crt & -> & H3); [apply fir_check_4|by apply sized_nat|].
  erewrite ST_bind_Some by reflexivity.
  eexists _, _. split; [reflexivity|]. apply set_signal; [done|].
  unfold sized in *. cbn in Hk', Ha', Hc'.
  refine (conj Hl (conj (conj _ Hk') (conj (conj _ Ha') (conj _ Hc')))); cbn in H1, H2, H3 |- *; lia.
Qed.

(** The static variables, sensor mode and hall table: the first half. *)
Definition init_statics (conf : mc_configuration) : P unit :=
  (((var_set init_vars;; sig_set init_signal);; cur_set init_current);;
   update_sensor_mode conf);; mcpwm_init_hall_table (hall_table conf).

Lemma triple_assoc {A B C} (Pre : pwm -> Prop) (m : P A) (k : A -> P B) (h : B -> P C) Q :
  triple Pre ((m ≫= k) ≫= h) Q -> triple Pre (m ≫= (fun x => k x ≫= h)) Q.
Proof.
  intros Hm s Hs. specialize (Hm s Hs). unfold mbind, ST_bind in *. by destruct (m s) as [[]|].
Qed.

(** The state between the two: everything but the hall table is in place. *)
Definition statics_set (s : pwm) : Prop :=
  (comm_step (vars s), detect_step (vars s), pos_pid_set_pos (vars s)) = (1, 0, f0) /\
  length (hall_to_phase_table (vars s)) = 16%nat /\ inputs_ok (inputs s) f0 /\
  sig_ok (skey (signal s)) /\ cur_ok (ckey (curr s)).

Lemma init_vars_key v :
  (comm_step (init_vars v), detect_step (init_vars v), pos_pid_set_pos (init_vars v)) = (1, 0, f0) /\
  hall_to_phase_table (init_vars v) = hall_to_phase_table v.
Proof. by destruct v. Qed.

Lemma init_signal_key g : sig_ok (skey g) -> sig_ok (skey (init_signal g)).
Proof. destruct g. intros (_ & Hs). exact (conj eq_refl Hs). Qed.

Lemma init_current_key c : cur_ok (ckey c) -> cur_ok (ckey (init_current c)).
Proof. destruct c. intros (H6 & _). refine (conj H6 (conj eq_refl _)). by repeat constructor. Qed.

Lemma statics_assigned :
  triple pre_init ((var_set init_vars;; sig_set init_signal);; cur_set init_current)
    (fun _ => statics_set).
Proof.
  eapply (triple_bind _ (fun _ => statics_set)); [eapply (triple_bind _ (fun _ => statics_set))|].
  - apply triple_modify. intros s (Hlen & Hi & Hs & Hc). destruct (init_vars_key (vars s)) as [Hk Ht].
    split; [exact Hk|split; [|exact (conj Hi (conj Hs Hc))]].
    change (length (hall_to_phase_table (init_vars (vars s))) = 16%nat). by rewrite Ht.
  - intros []. apply triple_modify. intros s (Hk & Hlen & Hi & Hs & Hc).
    refine (conj Hk (conj Hlen (conj Hi (conj _ Hc)))). by apply init_signal_key.
  - intros []. apply triple_modify. intros s (Hk & Hlen & Hi & Hs & Hc).
    refine (conj Hk (conj Hlen (conj Hi (conj Hs _)))). by apply init_current_key.
Qed.

Lemma statics_sensor_mode conf : conf_ok conf ->
  triple statics_set (update_sensor_mode conf)
    (fun _ s => statics_set s /\ if sl then sensorless_now (vars s) = true else True).
Proof.
  intros [_ Hsl] s Hs. eexists _, _. split; [reflexivity|]. split; [exact Hs|].
  destruct sl; [|done].
  refine (proj2 (orb_true_iff (sensor_mode conf =? SENSOR_MODE_SENSORLESS) _) (or_introl _)).
  by rewrite Hsl.
Qed.

Lemma init_statics_core conf :
  conf_ok conf -> triple pre_init (init_statics conf) (fun _ => ok (fun _ => True)).
Proof.
  intros Hconf. eapply triple_bind; [eapply triple_bind|].
  { apply statics_assigned. }
  { intros []. by apply statics_sensor_mode. }
  intros [] s [(Hk & Hlen & [Hh Ha] & Hs & Hc) Hsl]. destruct Hconf as [Ht _].
  unfold mcpwm_init_hall_table. erewrite ST_bind_Some by reflexivity.
  rewrite Ht, (hall_loop table Htable) by exact Hlen.
  erewrite ST_bind_Some by reflexivity. eexists _, _. split; [reflexivity|].
  injection Hk as H1 H2 H3.
  split; [|done]. refine (conj (conj _ (conj _ (conj eq_refl (conj _ _)))) (conj Hs Hc)); cbn.
  - lia.
  - lia.
  - by destruct sl.
  - by rewrite H3.
Qed.

Lemma triple_init conf : conf_ok conf -> triple pre_init (mcpwm_init conf) (fun _ => inv).
Proof.
  intros Hconf. pose proof Hconf as [Ht Hsl].
  unfold mcpwm_init. do 4 apply triple_assoc.
  eapply triple_bind; [by apply init_statics_core|intros []].
  eapply triple_bind; [apply safe_create_filters|intros []].
  eapply triple_bind; [apply safe_var|intros f].
  eapply (triple_bind _ (fun _ => ok (fun _ => True))).
  { apply triple_modify. by intros s [Hc _]. }
  intros []. eapply (triple_bind _ (fun _ => inv)).
  { apply triple_stop_pwm_hw. intros [] _. by split_and!. }
  intros []. refine (_ : safe inv _). pwm_safe.
Qed.

Lemma pre_init_pwm0 i : inputs_ok i f0 -> pre_init (pwm0 i).
Proof.
  intros Hi. split; [done|]. split; [done|]. split.
  - by repeat (split; [done || split; done|]).
  - split; [by repeat constructor|]. split; [done|by repeat constructor].
Qed.

Lemma pre_init_inv s : inv s -> angle_ok (inputs s) f0 -> pre_init s.
Proof.
  intros [((Hst & Hd & Ht & Hh & _) & Hs & Hc) _] Ha. split; [|split; [split; [|done]|done]].
  - rewrite Ht. unfold hall_map. rewrite length_app, length_fmap. destruct Htable as [-> _]. done.
  - by destruct sl.
Qed.

(** ** Every step keeps the invariant *)

Lemma safe_stop_times conf n : safe inv (stop_times conf n).
Proof. induction n as [|n IH]; cbn [stop_times]; [apply safe_ret|]. apply safe_bind; [apply safe_stop_pwm|auto]. Qed.

Lemma safe_discard {A} (m : P A) : safe inv m -> safe inv (discard m).
Proof. intros Hm. unfold discard. apply safe_bind; [done|intros a; apply safe_ret]. Qed.

Lemma step_inv conf e s : conf_ok conf -> event_ok e s -> inv s ->
  exists s', pwm_step conf e s = Some (tt, s') /\ inv s'.
Proof.
  intros [Ht Hsl] He Hs.
  assert (Hsafe : forall m, safe inv m -> exists s', m s = Some (tt, s') /\ inv s').
  { intros m Hm. destruct (Hm s Hs) as ([] & s' & Hr & Hs'). by exists s'. }
  destruct e as [c|r| | | |n| | | | | | |i]; cbn [pwm_step event_ok] in *.
  - destruct c as [d|d|rpm|pos|c|c|]; cbn [run_command]; [| | |shelve| | |]; apply Hsafe;
      [by apply safe_set_duty|by apply safe_set_duty_noramp|by apply safe_set_pid_speed
      |by apply safe_set_current|by apply safe_set_brake_current|by apply safe_stop_pwm].
    Unshelve.
    destruct (triple_set_pid_pos table sl conf Hsl Htable pos s) as ([] & s' & Hr & Hs'); [done|].
    by exists s'.
  - by apply Hsafe, safe_set_detect.
  - by apply Hsafe, safe_set_configuration.
  - by apply Hsafe, safe_reset_hall_detect_table.
  - by apply Hsafe, safe_inj_handler.
  - by apply Hsafe, safe_adc_int_handler, safe_stop_times.
  - by apply Hsafe, safe_discard, safe_rpm_thread_step.
  - by apply Hsafe, safe_discard, safe_timer_thread_step.
  - destruct (triple_init conf (conj Ht Hsl) s) as ([] & s' & Hr & Hs'); [by apply pre_init_inv|].
    by exists s'.
  - by apply Hsafe, safe_discard, safe_init_finish.
  - by apply Hsafe, safe_deinit.
  - by apply Hsafe, safe_discard, safe_deinit_finish.
  - eexists. split; [reflexivity|]. destruct Hs as [((Hst & Hd & Htb & Hh & _) & Hc) Hr].
    destruct He as [He Ha]. split; [|done]. refine (conj _ Hc).
    refine (conj Hst (conj Hd (conj Htb (conj _ Ha)))). by destruct sl.
Qed.

Lemma reachable_inv s : reachable s -> inv s.
Proof.
  induction 1 as [conf i s Hc Hi Hr|conf e s s' _ IH Hc He Hr].
  - destruct (triple_init conf Hc (pwm0 i)) as ([] & s' & Hr' & Hs'); [by apply pre_init_pwm0|].
    congruence.
  - destruct (step_inv conf e s Hc He IH) as (s2 & Hr2 & Hs2). congruence.
Qed.

Lemma init_reachable conf i : conf_ok conf -> inputs_ok i f0 ->
  exists s, mcpwm_init conf (pwm0 i) = Some (tt, s) /\ reachable s.
Proof.
  intros Hc Hi. destruct (triple_init conf Hc (pwm0 i)) as ([] & s & Hr & _); [by apply pre_init_pwm0|].
  exists s. split; [done|]. by apply (reach_init conf i).
Qed.
End System.

(** C9. The BLDC driver started by mcpwm_init, under any sequence of
    commands, interrupts, thread rounds and readings of the hardware,
    never leaves its arrays, always leaves the transistors in a legal
    pattern, and has all of them off when its state is off. One hall table
    must be in force throughout, the hall readings of a sensored motor
    must stand for a step in it, and the difference of the angle and the
    wanted position must be one that the loops of utils_angle_difference
    normalise. *)
Theorem mcpwm_bridge_safe `{Libm} table sl : hall_table_ok table ->
  (forall conf i, conf_ok table sl conf -> inputs_ok table sl i f0 ->
     exists s, mcpwm_init conf (pwm0 i) = Some (tt, s) /\ reachable table sl s) /\
  forall s, reachable table sl s ->
    legal (outputs (timers s)) = true /\
    (state (vars s) = MC_STATE_OFF -> fets_off (outputs (timers s)) = true) /\
    forall conf e, conf_ok table sl conf -> event_ok table sl e s ->
      exists s', pwm_step conf e s = Some (tt, s').
Proof.
  intros Htable. split.
  - intros conf i Hc Hi. by apply init_reachable.
  - intros s Hs. apply reachable_inv in Hs; [|done]. pose proof Hs as [_ (_ & Ho & Hoff)].
    split; [done|]. split; [done|]. intros conf e Hc He.
    destruct (step_inv table sl Htable conf e s Hc He Hs) as (s' & Hr & _). by exists s'.
Qed.

(** ** A concrete driver *)

Definition still_inputs : pwm_inputs := mkInputs (fun _ => 1000) 2048 2048 0 0 true false false
  (fun _ => 5000) 0 100 7 false false f0.

Lemma default_table_ok : hall_table_ok (hall_table conf_general_get_default_mc_configuration).
Proof. split; [done|]. by repeat constructor. Qed.

Lemma still_inputs_ok : inputs_ok (hall_table conf_general_get_default_mc_configuration) false still_inputs f0.
Proof. split; [exists 1; split; [done|lia]|]. eexists. vm_compute. reflexivity. Qed.

#[local] Instance zero_libm : Libm := {| cosf := fun _ => f1; sinf := fun _ => f0; asinf := fun _ => f0 |}.

Lemma still_reachable : exists s,
  mcpwm_init conf_general_get_default_mc_configuration (pwm0 still_inputs) = Some (tt, s) /\
  reachable (hall_table conf_general_get_default_mc_configuration) false s.
Proof.
  exact (init_reachable _ false default_table_ok conf_general_get_default_mc_configuration still_inputs
    (conj eq_refl I) still_inputs_ok).
Qed.

(** A sensored driver starts, and stopping it in the initial state succeeds. *)
Lemma mcpwm_bridge_safe_witness :
  let conf := conf_general_get_default_mc_configuration in
  exists s s', mcpwm_init conf (pwm0 still_inputs) = Some (tt, s) /\
    legal (outputs (timers s)) = true /\ pwm_step conf (Command StopPwm) s = Some (tt, s').
Proof.
  intros conf. destruct (mcpwm_bridge_safe (hall_table conf) false default_table_ok) as [Hi Hs].
  assert (Hc : conf_ok (hall_table conf) false conf) by done.
  destruct (Hi conf still_inputs Hc still_inputs_ok) as (s & Hr & Hreach).
  destruct (Hs s Hreach) as (Hl & _ & Hstep).
  destruct (Hstep conf (Command StopPwm) Hc I) as (s' & Hr').
  exists s, s'. exact (conj Hr (conj Hl Hr')).
Defined.

Lemma commutation_follows_table_witness :
  let conf := conf_general_get_default_mc_configuration in
  exists b s', (set_next_comm_step conf 3 ≫= fun _ => commutation_event) (pwm0 still_inputs) = Some (tt, s') /\
    outputs (timers s') = b /\ six_step b = true.
Proof.
  intros conf. destruct (McpwmBridge.commutation_follows_table conf 3 (pwm0 still_inputs)) as (b & Hr & Hb & H6).
  - intros Heq. vm_compute in Heq. discriminate Heq.
  - split; discriminate.
  - exists b. eexists. split; [exact Hr|]. exact (conj eq_refl H6).
Defined.

(** ** A hall sensor that fails *)

Lemma tacho_keeps s : exists s', update_rpm_tacho s = Some (tt, s') /\
  state (vars s') = state (vars s) /\ comm_step (vars s') = comm_step (vars s) /\
  sensorless_now (vars s') = sensorless_now (vars s).
Proof.
  unfold update_rpm_tacho. do 2 erewrite ST_bind_Some by reflexivity. cbv zeta.
  erewrite ST_bind_Some by reflexivity. destruct (negb _); (eexists; split; [reflexivity|done]).
Qed.

(** While a sensored motor runs, a hall reading that the table does
    not map to a step makes the commutation write outside its array. *)
Theorem hall_glitch_overruns conf s h :
  state (vars s) = MC_STATE_RUNNING -> 1 <= comm_step (vars s) -> h < 1 ->
  hall_to_phase_table (vars s) !!? (hall_reading (inputs s) + if direction (vars s) then 8 else 0) = Some h ->
  hall_step conf s = None.
Proof.
  intros Hst Hstep Hh Hlook. unfold hall_step.
  rewrite (ST_bind_Some mcpwm_read_hall_phase _ s h s); [|by unfold mcpwm_read_hall_phase, read_hall, lift;
    repeat erewrite ST_bind_Some by reflexivity; fold (hall_reading (inputs s)); rewrite Hlook].
  erewrite ST_bind_Some by reflexivity. unfold id. destruct (Z.eqb_spec (comm_step (vars s)) h); [lia|].
  cbn [negb]. erewrite ST_bind_Some by reflexivity.
  match goal with |- _ ?s0 = None => set (s1 := s0) end.
  destruct (tacho_keeps s1) as (s2 & Hr & H1 & H2 & _). rewrite (ST_bind_Some _ _ _ _ _ Hr).
  erewrite ST_bind_Some by reflexivity. rewrite H1.
  change (state (vars s1)) with (state (vars s)). rewrite Hst, Z.eqb_refl. cbn [when_p].
  rewrite (ST_bind_Some _ _ _ _ _ (set_next_comm_step_run conf h s2)). unfold commutate.
  do 2 erewrite ST_bind_Some by reflexivity. unfold put_ix, id.
  rewrite decide_False; [done|]. change (comm_step (vars (with_preload _ s2))) with (comm_step (vars s2)).
  rewrite H2. change (comm_step (vars s1)) with h. lia.
Qed.

(** With a broken sensor cable all three inputs are high; the default hall
    table has -1 there. *)
Lemma hall_glitch_overruns_witness :
  let conf := conf_general_get_default_mc_configuration in
  let i := still_inputs <| HALL1 := true |> <| HALL2 := true |> <| HALL3 := true |> in
  hall_step conf ((pwm0 i) <| vars := (vars (pwm0 i)) <| state := MC_STATE_RUNNING |> <| comm_step := 4 |>
    <| hall_to_phase_table := hall_map (hall_table conf) |> |>) = None.
Proof. intros conf i. by apply (hall_glitch_overruns conf _ (-1)). Defined.

(** ** The period of a new duty cycle *)

Lemma adc_sample_pos_keeps conf detecting step dir t :
  duty (adc_sample_pos conf detecting step dir t).1 = duty t /\
  top (adc_sample_pos conf detecting step dir t).1 = top t.
Proof. unfold adc_sample_pos. cbv zeta. repeat case_match; by split. Qed.

Lemma update_adc_sample_pos_run conf t s : exists t' s', update_adc_sample_pos conf t s = Some (t', s') /\
  duty t' = duty t /\ top t' = top t /\ vars s' = vars s.
Proof.
  unfold update_adc_sample_pos, IS_DETECTING. do 3 erewrite ST_bind_Some by reflexivity.
  match goal with |- context [adc_sample_pos ?c ?a ?b ?d ?t] =>
    destruct (adc_sample_pos_keeps c a b d t) as [Hd Ht]; destruct (adc_sample_pos c a b d t) as [t' volt] end.
  eexists _, _. split; [reflexivity|]. exact (conj Hd (conj Ht eq_refl)).
Qed.

Lemma update_far_away_run s : exists b s', update_far_away s = Some (b, s') /\
  timers s' = timers s /\ vars s' = vars s.
Proof.
  unfold update_far_away, read_TIM1_CNT. erewrite ST_bind_Some by reflexivity.
  destruct (updated (timer_struct (timers s))); [by eexists _, _|].
  erewrite ST_bind_Some by reflexivity. destruct (negb _); by eexists _, _.
Qed.

Lemma set_next_timer_settings_run t s : exists s', set_next_timer_settings t s = Some (tt, s') /\
  duty (timer_struct (timers s')) = duty t /\ top (timer_struct (timers s')) = top t /\
  vars s' = vars s.
Proof.
  unfold set_next_timer_settings. erewrite ST_bind_Some by reflexivity. unfold update_timer_attempt.
  match goal with |- context [mbind _ _ ?s0] => destruct (update_far_away_run s0) as (b & s1 & Hr & Ht & Hv) end.
  rewrite (ST_bind_Some _ _ _ _ _ Hr). destruct b; (eexists; split; [reflexivity|]); cbn; by rewrite Ht, Hv.
Qed.

(** A new duty cycle is counted in cycles of the old period and takes
    effect together with the new one, so that the compare value can lie
    far above the period. *)
Theorem new_duty_old_period conf d s :
  let t := timer_struct (timers s) in
  let detecting := state (vars s) =? MC_STATE_DETECTING in
  let clipped := (utils_truncate_number d (l_min_duty conf) (l_max_duty conf)).1 in
  exists s', set_duty_cycle_hw conf d s = Some (tt, s') /\
    duty (timer_struct (timers s')) = hw_duty conf detecting (top t) clipped /\
    top (timer_struct (timers s')) = u32 (sdiv SYSTEM_CORE_CLOCK (f2i32 (hw_frequency conf detecting clipped))) /\
    state (vars s') = state (vars s).
Proof.
  intros t detecting d'. unfold set_duty_cycle_hw. erewrite ST_bind_Some by reflexivity. cbv zeta.
  unfold IS_DETECTING. do 2 erewrite ST_bind_Some by reflexivity.
  fold t detecting d'.
  match goal with |- context [mbind _ (update_adc_sample_pos conf ?t1) ?s1] =>
    destruct (update_adc_sample_pos_run conf t1 s1) as (t2 & s2 & Hr & Hd & Htop & Hv) end.
  rewrite (ST_bind_Some _ _ _ _ _ Hr).
  destruct (set_next_timer_settings_run t2 s2) as (s3 & Hr3 & Hd3 & Htop3 & Hv3).
  exists s3. rewrite Hd3, Htop3, Hd, Htop, Hv3, Hv. by split_and!.
Qed.

(** From 5 % to 95 % without a ramp: in the next period of 4403 cycles the
    high side stays on, 32907 cycles being asked for. *)
Lemma new_duty_old_period_witness :
  let conf := conf_general_get_default_mc_configuration in
  let s0 := pwm0 still_inputs in
  exists s1 s2, set_duty_cycle_hw conf (flit 5 100) s0 = Some (tt, s1) /\
    set_duty_cycle_hw conf (flit 95 100) s1 = Some (tt, s2) /\
    duty (timer_struct (timers s2)) = 32907 /\ top (timer_struct (timers s2)) = 4403.
Proof.
  intros conf s0. destruct (new_duty_old_period conf (flit 5 100) s0) as (s1 & Hr1 & Hd1 & Ht1 & Hst).
  destruct (new_duty_old_period conf (flit 95 100) s1) as (s2 & Hr2 & Hd2 & Ht2 & _).
  exists s1, s2. split; [done|]. split; [done|].
  rewrite Hd2, Ht2, Ht1, Hst. split; vm_compute; reflexivity.
Defined.
