(* ===== verification/McpwmStopped.v ===== *)
(** * McpwmStopped: a stopped motor stays stopped

    After [mcpwm_stop_pwm] the state is off, the control mode is none and all
    transistors are off.  Interrupt handlers and threads keep it that way,
    whatever they measure: only a command starts the motor again. *)
From S2P Require Import Prelude Safe Float32 McTypes Motor Utils DigitalFilter McpwmState.
From S2P Require Import Mcpwm McpwmIsr McpwmBridge McpwmSafe ConfDefault McpwmTheorems.

Definition stopped (s : pwm) : Prop :=
  state (vars s) = MC_STATE_OFF /\ control_mode (vars s) = CONTROL_MODE_NONE /\
  fets_off (outputs (timers s)) = true.

(** [sl]: and the driver follows the back-emf. *)
Definition stopped_in (sl : bool) (s : pwm) : Prop :=
  stopped s /\ if sl then sensorless_now (vars s) = true else True.

Section Stopped.
Context (sl : bool).
Abbreviation I := (stopped_in sl).

Lemma stays_var {A} (f : pwm_vars -> A) : stays I (var f).
Proof. intros s a s' Hs [= _ <-]. done. Qed.
Lemma stays_sig {A} (f : pwm_signal -> A) : stays I (sig f).
Proof. intros s a s' Hs [= _ <-]. done. Qed.
Lemma stays_cur {A} (f : pwm_current -> A) : stays I (cur f).
Proof. intros s a s' Hs [= _ <-]. done. Qed.
Lemma stays_tim {A} (f : pwm_timers -> A) : stays I (tim f).
Proof. intros s a s' Hs [= _ <-]. done. Qed.
Lemma stays_inp {A} (f : pwm_inputs -> A) : stays I (inp f).
Proof. intros s a s' Hs [= _ <-]. done. Qed.
Lemma stays_lift {A} (o : option A) : stays I (lift o).
Proof. intros s a s' Hs. unfold lift. destruct o; [|done]. by intros [= _ <-]. Qed.
Lemma stays_sig_set f : stays I (sig_set f).
Proof. by apply post_modify. Qed.
Lemma stays_cur_set f : stays I (cur_set f).
Proof. by apply post_modify. Qed.
Lemma stays_inp_set f : stays I (inp_set f).
Proof. by apply post_modify. Qed.
Lemma stays_tim_set f : (forall t, outputs (f t) = outputs t) -> stays I (tim_set f).
Proof.
  intros H. apply post_modify. intros s [(H1 & H2 & H3) Hsl]. split; [|done].
  refine (conj H1 (conj H2 _)). cbn. by rewrite H.
Qed.

Definition okey (v : pwm_vars) : Z * Z * bool := (state v, control_mode v, sensorless_now v).

Lemma stays_var_set f : (forall v, okey (f v) = okey v) -> stays I (var_set f).
Proof.
  intros H. apply post_modify. intros s [(H1 & H2 & H3) Hsl]. specialize (H (vars s)).
  unfold stopped_in, stopped. change (vars (s <| vars := f (vars s) |>)) with (f (vars s)).
  unfold okey in H. injection H as -> -> ->. by split.
Qed.

Lemma stays_when_p b (m : P unit) : stays I m -> stays I (when_p b m).
Proof. intros H. by apply stays_if; [|apply stays_ret]. Qed.

(** Where the state or all variables are read, they are those of a stopped motor. *)
Lemma stays_read_state {A} (k : Z -> P A) :
  stays I (k MC_STATE_OFF) -> stays I (st ← var state; k st).
Proof. intros H s a s' Hs. pose proof Hs as [[Hst _] _].
  change (k (state (vars s)) s = Some (a, s') -> I s'). rewrite Hst. by apply H. Qed.

Lemma stays_read_vars {A} (k : pwm_vars -> P A) :
  (forall v, state v = MC_STATE_OFF -> control_mode v = CONTROL_MODE_NONE ->
     (if sl then sensorless_now v = true else True) -> stays I (k v)) ->
  stays I (v ← var id; k v).
Proof. intros H s a s' Hs. pose proof Hs as [(H1 & H2 & _) H3]. by apply (H (vars s) H1 H2 H3 s a s'). Qed.
End Stopped.

Lemma post_keeps {A B} (I : pwm -> Prop) (m : P A) (k : A -> P B) Q :
  stays I m -> (forall a, post I (k a) Q) -> post I (m ≫= k) Q.
Proof. apply post_bind. Qed.

Create HintDb off discriminated.
#[export] Hint Constants Opaque : off.
#[export] Hint Resolve stays_ret stays_var stays_sig stays_cur stays_tim stays_inp stays_lift
  stays_sig_set stays_cur_set stays_inp_set : off.

Ltac off_key := intros ?; cbv beta zeta; repeat case_match; reflexivity.

Ltac off :=
  repeat first
    [ solve [eauto 2 with off]
    | progress cbv zeta
    | apply stays_read_state
    | apply stays_read_vars; intros ? Hst Hcm Hsn; rewrite ?Hst, ?Hcm
    | apply stays_when_p
    | match goal with |- stays _ (if _ then _ else _) => apply stays_if end
    | apply stays_bind; [|intros ?]
    | apply stays_var_set; off_key
    | apply stays_tim_set; off_key
    | match goal with |- stays _ (let '(_, _) := ?x in _) => destruct x end
    | match goal with |- stays _ (match ?x with (_, _) => _ end) => destruct x end ].

Section Functions.
Context (conf : mc_configuration) (sl : bool).
Abbreviation I := (stopped_in sl).
Abbreviation stays := (stays I).

Lemma stays_update_timer_attempt : stays update_timer_attempt.
Proof. unfold update_timer_attempt, update_far_away, read_TIM1_CNT. off. Qed.
Hint Resolve stays_update_timer_attempt : off.

Lemma stays_update_adc_sample_pos t : stays (update_adc_sample_pos conf t).
Proof. unfold update_adc_sample_pos, IS_DETECTING. off. Qed.
Hint Resolve stays_update_adc_sample_pos : off.

Lemma stays_set_next_timer_settings t : stays (set_next_timer_settings t).
Proof. unfold set_next_timer_settings. off. Qed.
Hint Resolve stays_set_next_timer_settings : off.

Lemma stays_set_switching_frequency f : stays (set_switching_frequency conf f).
Proof. unfold set_switching_frequency. off. Qed.

Lemma stays_update_rpm_tacho : stays update_rpm_tacho.
Proof. unfold update_rpm_tacho. off. Qed.

Lemma stays_count_cycles : stays count_cycles.
Proof. unfold count_cycles. off. Qed.

Lemma stays_add_amplitude a : stays (add_amplitude a).
Proof. unfold add_amplitude. off. Qed.

Lemma stays_add_kv_sample : stays add_kv_sample.
Proof. unfold add_kv_sample, mcpwm_get_kv. off. Qed.

Lemma stays_note_hall : stays note_hall.
Proof. unfold note_hall, read_hall. off. Qed.

Lemma stays_integrate a b c : stays (integrate a b c).
Proof. unfold integrate. off. Qed.

Lemma stays_update_rpm : stays update_rpm.
Proof. unfold update_rpm. off. Qed.

Lemma track_direction_okey sums v : okey (track_direction sums v) = okey v.
Proof. unfold track_direction. destruct (min_max_sums sums). repeat case_match; done. Qed.

Lemma stays_follow_motor : stays (follow_motor conf).
Proof.
  unfold follow_motor. do 3 (apply stays_bind; [eauto with off|intros ?]). cbv zeta.
  apply stays_bind; [|intros []; off]. apply stays_var_set. intros v.
  destruct (motor_type conf =? MOTOR_TYPE_DC); [done|apply track_direction_okey].
Qed.

(** The bridge stays off when it is turned off again. *)
Lemma stays_stop_pwm_hw : stays (stop_pwm_hw conf).
Proof.
  unfold stop_pwm_hw.
  apply (post_bind _ (fun _ s => I s /\ fets_off (preload (timers s)) = true)).
  - intros s [] s' [(H1 & H2 & H3) Hsl]. rewrite all_channels_run. intros [= <-]. by split_and!.
  - intros []. apply (post_bind _ (fun _ => I)).
    + apply post_modify. intros s [[(H1 & H2 & H3) Hsl] Hpre]. by split_and!.
    + intros []. apply stays_set_switching_frequency.
Qed.
Hint Resolve stays_stop_pwm_hw : off.

Lemma stays_mode_none : stays (set_mode CONTROL_MODE_NONE).
Proof. apply post_modify. intros s [(H1 & H2 & H3) Hsl]. by split_and!. Qed.

Lemma stays_stop_pwm_ll : stays (stop_pwm_ll conf).
Proof.
  unfold stop_pwm_ll. apply stays_bind; [|intros []; apply stays_stop_pwm_hw].
  apply post_modify. intros s [(H1 & H2 & H3) Hsl]. by split_and!.
Qed.
Hint Resolve stays_mode_none stays_stop_pwm_ll : off.

Lemma stays_stop_pwm : stays (mcpwm_stop_pwm conf).
Proof. unfold mcpwm_stop_pwm. off. Qed.

Lemma stays_stop_times n : stays (stop_times conf n).
Proof. induction n; cbn [stop_times]; [off|]. by apply stays_bind; [apply stays_stop_pwm|]. Qed.
End Functions.
#[export] Hint Resolve stays_update_timer_attempt stays_update_adc_sample_pos
  stays_set_next_timer_settings stays_set_switching_frequency stays_update_rpm_tacho
  stays_count_cycles stays_add_amplitude stays_add_kv_sample stays_note_hall stays_integrate
  stays_update_rpm stays_follow_motor stays_stop_pwm_hw stays_mode_none stays_stop_pwm_ll
  stays_stop_pwm stays_stop_times : off.

(** ** Commutation while the motor is off *)

Section Handlers.
Context (conf : mc_configuration) (sl : bool).
Abbreviation I := (stopped_in sl).
Abbreviation Ifree := (stopped_in false).

Lemma stopped_weaken s : I s -> Ifree s.
Proof. by intros [H _]. Qed.

Lemma stays_free {A} (m : P A) : stays I m -> post I m (fun _ => Ifree).
Proof. apply post_weaken; [done|]. intros a s. apply stopped_weaken. Qed.

Lemma post_update_sensor_mode : post I (update_sensor_mode conf) (fun _ => Ifree).
Proof.
  unfold update_sensor_mode, mcpwm_get_rpm. eapply post_bind; [apply stays_free; off|intros rpm].
  apply post_modify. intros s [(H1 & H2 & H3) _]. by split_and!.
Qed.

End Handlers.

Section Commutate.
Context (conf : mc_configuration).
Abbreviation Ifree := (stopped_in false).

(** It only counts: the step changes, the bridge does not. *)
Lemma post_commutate n : motor_type conf = MOTOR_TYPE_BLDC ->
  post (stopped_in true) (commutate conf n) (fun _ => Ifree).
Proof.
  intros Hm s a s' Hs. pose proof Hs as [(Hst & Hcm & _) Hsl]. revert Hs.
  assert (Hp : post (stopped_in true)
    (sums ← lift (put_ix (comm_step (vars s) - 1) (pwm_cycles_sum (signal s)) (last_pwm_cycles_sums (signal s)));
     sig_set (fun g => g <| last_pwm_cycles_sum := pwm_cycles_sum g |> <| last_pwm_cycles_sums := sums |>
                      <| pwm_cycles_sum := f0 |> <| pwm_cycles := 0 |>);;
     var_set (fun v => v <| comm_step := wrap_step (i32 (comm_step v + n)) |>);;
     update_rpm_tacho;; st ← var state;
     if negb (st =? MC_STATE_RUNNING) then update_sensor_mode conf else
     step ← var comm_step; set_next_comm_step conf step;; commutate_now conf) (fun _ => Ifree)).
  { eapply post_bind; [apply stays_lift|intros sums]. eapply post_bind; [apply stays_sig_set|intros []].
    eapply post_bind; [by apply stays_var_set|intros []].
    eapply post_bind; [apply stays_update_rpm_tacho|intros []].
    intros s1 b s2 Hs1. pose proof Hs1 as [(Hst1 & _) _].
    change (state (vars s1) = MC_STATE_OFF) in Hst1.
    rewrite (ST_bind_Some _ _ _ _ _ (eq_refl : var state s1 = Some (state (vars s1), s1))), Hst1.
    by apply (post_update_sensor_mode conf true). }
  intros Hs. unfold commutate. do 2 erewrite ST_bind_Some by reflexivity. unfold id.
  rewrite Hm, Hsl. intros Hr. exact (Hp s a s' Hs Hr).
Qed.

Hypothesis Hm : motor_type conf = MOTOR_TYPE_BLDC.

(** After a commutation only assignments follow. *)
Lemma post_commutate_then n (k : P unit) : stays Ifree k ->
  post (stopped_in true) (commutate conf n;; k) (fun _ => Ifree).
Proof. intros Hk. eapply post_bind; [by apply post_commutate|intros []; exact Hk]. Qed.

Lemma post_when b (m : P unit) :
  post (stopped_in true) m (fun _ => Ifree) -> post (stopped_in true) (when_p b m) (fun _ => Ifree).
Proof. intros H. destruct b; [done|]. apply stays_free, stays_ret. Qed.

Lemma post_commutate_integrate : post (stopped_in true) (commutate_integrate conf) (fun _ => Ifree).
Proof.
  unfold commutate_integrate. do 2 (apply post_keeps; [off|intros ?]). cbv zeta.
  apply post_when, post_commutate_then. off.
Qed.

Lemma post_commutate_delay d : post (stopped_in true) (commutate_delay conf d) (fun _ => Ifree).
Proof.
  unfold commutate_delay. apply post_if; intros _; [|apply stays_free; off].
  do 3 (apply post_keeps; [off|intros ?]). cbv zeta.
  apply post_when, post_commutate_then. off.
Qed.

Lemma post_watch_bemf vzero ph vin : post (stopped_in true) (watch_bemf conf vzero ph vin) (fun _ => Ifree).
Proof.
  unfold watch_bemf. apply post_keeps; [off|intros step]. destruct (floating_phase step vzero ph).
  apply post_keeps; [off|intros []]. cbv zeta. apply post_keeps; [off|intros []].
  apply post_if; intros _; [apply post_commutate_integrate|].
  apply post_if; intros _; [apply post_commutate_delay|apply stays_free; off].
Qed.

Lemma post_sensorless_step vzero ph vin :
  post (stopped_in true) (sensorless_step conf vzero ph vin) (fun _ => Ifree).
Proof.
  unfold sensorless_step. eapply (post_bind _ (fun _ => stopped_in true)).
  { unfold kick_stuck_motor. apply stays_bind; [off|intros g]. apply stays_read_state.
    change (MC_STATE_OFF =? MC_STATE_RUNNING) with false. rewrite andb_false_r. apply stays_ret. }
  intros []. eapply (post_bind _ (fun st s => stopped_in true s /\ st = MC_STATE_OFF)).
  { intros s a s' Hs [= <- <-]. split; [done|]. apply Hs. }
  intros st. intros s a s' [Hs ->]. revert s a s' Hs.
  apply post_keeps; [off|intros n]. change (MC_STATE_OFF =? MC_STATE_RUNNING) with false.
  cbn [andb orb]. rewrite Z.eqb_refl.
  eapply (post_bind _ (fun _ => Ifree)); [apply post_watch_bemf|intros []]. refine (_ : stays Ifree _). off.
Qed.
End Commutate.

(** ** The handlers *)

Section Events.
Context (conf : mc_configuration).
Abbreviation stays := (stays (stopped_in false)).

Lemma stays_hall_step : stays (hall_step conf).
Proof.
  unfold hall_step, mcpwm_read_hall_phase, read_hall. apply stays_bind; [off|intros ph].
  apply stays_read_vars. intros v Hst _ _. rewrite Hst.
  change (MC_STATE_OFF =? MC_STATE_RUNNING) with false. cbn [andb when_p].
  apply stays_if; [|off]. apply stays_bind; [off|intros []]. apply stays_bind; [off|intros []].
  apply stays_read_state. apply stays_ret.
Qed.

Lemma stays_bldc_step adc : motor_type conf = MOTOR_TYPE_BLDC -> stays (bldc_step conf adc).
Proof.
  intros Hm s a s' Hs. unfold bldc_step. rewrite (ST_bind_Some _ _ _ _ _ (eq_refl : var id s = _)). unfold id.
  destruct (raw_phases (direction (vars s)) adc) as [[p1 p2] p3]. cbv zeta.
  destruct (sensorless_now (vars s)) eqn:Esl.
  - assert (Ht : stopped_in true s) by (by split; [apply Hs|]). revert Ht. clear Hs.
    match goal with |- _ -> ?m s = _ -> _ => refine ((_ : post (stopped_in true) m (fun _ => stopped_in false)) s a s') end.
    do 3 (apply post_keeps; [off|intros []]). by apply post_sensorless_step.
  - revert Hs.
    match goal with |- _ -> ?m s = _ -> _ => refine ((_ : stays m) s a s') end.
    do 3 (apply stays_bind; [off|intros []]). apply stays_hall_step.
Qed.

Lemma stays_dc_step adc : stays (dc_step conf adc).
Proof.
  unfold dc_step. apply stays_read_vars. intros v Hst _ _. rewrite Hst.
  change (MC_STATE_OFF =? MC_STATE_RUNNING) with false. cbn [andb when_p]. off.
Qed.

Lemma stays_control_duty vin : stays (control_duty conf vin).
Proof.
  unfold control_duty, mcpwm_get_tot_current_filtered, mcpwm_get_tot_current.
  do 2 (apply stays_bind; [off|intros ?]). apply stays_read_vars. intros v Hst _ _. rewrite Hst.
  apply stays_ret.
Qed.

Lemma stays_pid_pos dt : stays (run_pid_control_pos conf dt).
Proof. unfold run_pid_control_pos. apply stays_read_vars. intros v _ Hcm _. rewrite Hcm. off. Qed.

Lemma stays_pid_speed : stays (run_pid_control_speed conf).
Proof.
  unfold run_pid_control_speed. apply stays_read_vars. intros v _ Hcm _. rewrite Hcm. cbv zeta.
  change (CONTROL_MODE_NONE =? CONTROL_MODE_SPEED) with false. cbn [negb]. off.
Qed.

Lemma stays_adc_int_handler (m : P unit) : stays m -> stays (mcpwm_adc_int_handler conf m).
Proof.
  intros Hm. unfold mcpwm_adc_int_handler.
  apply stays_bind; [off|intros []]. apply stays_bind; [off|intros adc]. cbv zeta.
  apply stays_bind; [off|intros []]. apply stays_bind.
  { destruct (Z.eqb_spec (motor_type conf) MOTOR_TYPE_BLDC); [by apply stays_bldc_step|apply stays_dc_step]. }
  intros []. apply stays_bind; [apply stays_control_duty|intros []]. apply stays_bind; [done|intros []].
  apply stays_bind; [off|intros enc]. apply stays_bind; [off|intros f].
  apply stays_bind; [|intros []; off]. apply stays_when_p, stays_pid_pos.
Qed.

Lemma stays_not_detecting {A} (k : bool -> P A) : stays (k false) -> stays (d ← IS_DETECTING; k d).
Proof.
  intros H s a s' Hs. pose proof Hs as [[Hst _] _].
  change (k (state (vars s) =? MC_STATE_DETECTING) s = Some (a, s') -> stopped_in false s').
  rewrite Hst. by apply H.
Qed.

Lemma stays_bldc_current a b c : stays (bldc_current conf a b c).
Proof.
  unfold bldc_current. apply stays_read_vars. intros v Hst _ _. rewrite Hst.
  apply stays_bind; [unfold running_current; off|intros x]. apply stays_bind; [off|intros y].
  apply stays_bind; [unfold detect_measure; off|intros []]. apply stays_bind; [off|intros []].
  apply stays_not_detecting. cbn [andb when_p]. off.
Qed.

Lemma stays_inj_handler : stays (mcpwm_adc_inj_int_handler conf).
Proof.
  unfold mcpwm_adc_inj_int_handler. do 2 (apply stays_bind; [off|intros ?]).
  destruct (raw_currents _ _). apply stays_bind; [off|intros []]. cbv zeta.
  apply stays_bind; [off|intros []].
  apply stays_bind; [apply stays_if; [unfold dc_current; off|apply stays_bldc_current]|intros x]. off.
Qed.

Lemma stays_rpm_thread : stays (rpm_thread_step conf).
Proof.
  unfold rpm_thread_step. apply stays_read_vars. intros v _ _ _. apply stays_if; [off|].
  apply stays_bind; [off|intros []]. do 3 (apply stays_bind; [off|intros ?]).
  apply stays_bind; [apply stays_pid_speed|intros []]. off.
Qed.

Lemma stays_timer_thread : stays (timer_thread_step conf).
Proof. unfold timer_thread_step. off. Qed.

Lemma stays_hall_table table : stays (mcpwm_init_hall_table table).
Proof. unfold mcpwm_init_hall_table. off. Qed.
Hint Resolve stays_hall_table : off.

Lemma stays_set_configuration : stays (mcpwm_set_configuration conf).
Proof.
  unfold mcpwm_set_configuration.
  do 3 (apply stays_bind; [off|intros []]). apply (post_update_sensor_mode conf false).
Qed.
End Events.

(** ** Stopped until the next command *)

(** Everything but commands, a new initialisation and the detection. *)
Definition passive (e : pwm_event) : Prop :=
  match e with Command _ | SetDetect _ | Init => False | _ => True end.

Section Passive.
Context `{Libm}.

(** What passive events that satisfy [P] lead to. *)
Inductive later (P : mc_configuration -> pwm_event -> pwm -> Prop) (s : pwm) : pwm -> Prop :=
| later_now : later P s s
| later_step conf e s1 s2 : later P s s1 -> passive e -> P conf e s1 ->
    pwm_step conf e s1 = Some (tt, s2) -> later P s s2.

(** Any event, and one whose readings the driver can use. *)
Definition any_event (conf : mc_configuration) (e : pwm_event) (s : pwm) : Prop := True.
Definition usable (table : list Z) (sl : bool) (conf : mc_configuration) (e : pwm_event) (s : pwm) : Prop :=
  conf_ok table sl conf /\ event_ok table sl e s.

Lemma stays_discard {A} (m : P A) : stays (stopped_in false) m -> stays (stopped_in false) (discard m).
Proof. intros Hm. unfold discard. apply stays_bind; [done|intros a; apply stays_ret]. Qed.

Lemma stays_deinit_finish : stays (stopped_in false) mcpwm_deinit_finish.
Proof.
  unfold mcpwm_deinit_finish. apply stays_read_vars. intros v _ _ _. apply stays_if; [off|].
  apply stays_bind; [|intros []; off]. apply post_modify. intros s [(H1 & H2 & H3) Hs]. by split_and!.
Qed.

Lemma passive_stays conf e : passive e -> stays (stopped_in false) (pwm_step conf e).
Proof.
  destruct e as [c|r| | | |n| | | | | | |i]; intros He; try destruct He; cbn [pwm_step].
  - apply stays_set_configuration.
  - unfold mcpwm_reset_hall_detect_table. off.
  - apply stays_inj_handler.
  - apply stays_adc_int_handler. off.
  - apply stays_discard, stays_rpm_thread.
  - apply stays_discard, stays_timer_thread.
  - apply stays_discard. unfold mcpwm_init_finish. off.
  - unfold mcpwm_deinit. off.
  - apply stays_discard, stays_deinit_finish.
  - apply post_modify. intros s [(H1 & H2 & H3) Hs]. by split_and!.
Qed.

Lemma later_stopped P s s' : stopped s -> later P s s' -> stopped s'.
Proof.
  intros Hs. induction 1 as [|conf e s1 s2 _ IH He _ Hr]; [done|].
  by apply (passive_stays conf e He s1 tt s2).
Qed.

Lemma later_reachable table sl s s' :
  reachable table sl s -> later (usable table sl) s s' -> reachable table sl s'.
Proof. intros Hs. induction 1 as [|conf e s1 s2 _ IH He [Hc He'] Hr]; [done|]. by eapply reach_step. Qed.
End Passive.

(** Stopping reaches that state, from any other. *)
Lemma stop_stops `{Libm} conf : post (fun _ => True) (pwm_step conf (Command StopPwm)) (fun _ => stopped).
Proof.
  cbn [pwm_step run_command]. unfold mcpwm_stop_pwm, set_mode, stop_pwm_ll, stop_pwm_hw.
  eapply (post_bind _ (fun _ s => control_mode (vars s) = CONTROL_MODE_NONE)); [by apply post_modify|intros []].
  eapply (post_bind _ (fun _ s => state (vars s) = MC_STATE_OFF /\ control_mode (vars s) = CONTROL_MODE_NONE)).
  { apply post_modify. by intros s Hs. }
  intros []. eapply (post_bind _ (fun _ s => (state (vars s) = MC_STATE_OFF /\
    control_mode (vars s) = CONTROL_MODE_NONE) /\ fets_off (preload (timers s)) = true)).
  { intros s [] s' Hs. rewrite all_channels_run. by intros [= <-]. }
  intros []. eapply (post_bind _ (fun _ => stopped_in false)).
  { apply post_modify. intros s [[H1 H2] H3]. by split_and!. }
  intros []. eapply post_weaken; [done| |apply (stays_set_switching_frequency conf false)].
  by intros a s [Hs _].
Qed.

(** C10. After mcpwm_stop_pwm the state is off, the control mode none and
    all transistors are off, and interrupt handlers, threads, readings and
    configurations of whatever kind leave it that way until a command, the
    detection or a new initialisation. As long as one hall table is in
    force, the hall readings of a sensored motor stand for a step in it
    and the angle can be normalised, none of these, and no command after
    them, fails. *)
Theorem stopped_motor_stays_off `{Libm} table sl conf s :
  hall_table_ok table -> reachable table sl s -> conf_ok table sl conf ->
  exists s1, pwm_step conf (Command StopPwm) s = Some (tt, s1) /\
    (forall s2, later any_event s1 s2 -> stopped s2) /\
    forall s2, later (usable table sl) s1 s2 ->
      forall conf e, conf_ok table sl conf -> event_ok table sl e s2 ->
        exists s3, pwm_step conf e s2 = Some (tt, s3).
Proof.
  intros Ht Hs Hc.
  destruct (step_inv table sl Ht conf (Command StopPwm) s Hc I) as (s1 & Hr & _); [by apply reachable_inv|].
  exists s1. split; [done|]. split.
  - intros s2 Hl. apply (later_stopped any_event s1); [|done]. exact (stop_stops conf s tt s1 I Hr).
  - intros s2 Hl conf' e Hc' He.
    destruct (step_inv table sl Ht conf' e s2 Hc' He) as (s3 & Hr3 & _); [|by exists s3].
    apply reachable_inv; [done|]. eapply later_reachable; [|exact Hl].
    exact (reach_step table sl conf (Command StopPwm) s s1 Hs Hc I Hr).
Qed.

(** A sensored motor, stopped: it stays off when a sensor cable breaks. *)
Lemma stopped_motor_stays_off_witness :
  let conf := conf_general_get_default_mc_configuration in
  let broken := still_inputs <| HALL1 := true |> <| HALL2 := true |> <| HALL3 := true |> in
  exists s s1 s2, reachable (H := zero_libm) (hall_table conf) false s /\
    pwm_step (H := zero_libm) conf (Command StopPwm) s = Some (tt, s1) /\
    pwm_step (H := zero_libm) conf (Sense broken) s1 = Some (tt, s2) /\ stopped s2.
Proof.
  intros conf broken.
  destruct still_reachable as (s & _ & Hs).
  destruct (stopped_motor_stays_off (H := zero_libm) (hall_table conf) false conf s default_table_ok Hs
    (conj eq_refl I)) as (s1 & Hr1 & Hl & _).
  assert (Hst := Hl _ (later_step any_event s1 conf (Sense broken) s1 _ (later_now _ _) I I eq_refl)).
  exists s, s1, (s1 <| inputs := broken |>). exact (conj Hs (conj Hr1 (conj eq_refl Hst))).
Defined.
