(* ===== verification/McpwmCounts.v ===== *)
(** * McpwmCounts: what the tachometers count, and the hall table

    [update_rpm_tacho] sees only the steps the motor is at.  As long as it is
    called before the motor has turned more than three steps forwards or two
    backwards, the counters follow the motor through any number of turns. *)
From S2P Require Import Prelude Float32 McTypes McpwmState Mcpwm McpwmBridge ConfDefault.

(** The commutation step [d] steps further. *)
Definition turn (step d : Z) : Z := wrap_step (step + d).

(** The motor turns by [ds], and the driver looks at it after each of them. *)
Fixpoint turns (step : Z) (ds : list Z) : P unit :=
  match ds with
  | [] => mret tt
  | d :: ds =>
      var_set (fun v => v <| comm_step := turn step d |>);; update_rpm_tacho;; turns (turn step d) ds
  end.

Lemma wrap_step_mod n : (wrap_step n - 1) mod 6 = (n - 1) mod 6 /\ 1 <= wrap_step n <= 6.
Proof.
  unfold wrap_step. pose proof (Z.mod_pos_bound (n - 1) 6).
  rewrite Z.add_simpl_r, Z.mod_mod by lia. lia.
Qed.

(** The difference of two steps is the turn between them. *)
Lemma tacho_diff_turn step d : 1 <= step <= 6 -> -2 <= d <= 3 ->
  tacho_diff (turn step d - 1) (step - 1) = d.
Proof.
  intros Hs Hd. destruct (wrap_step_mod (step + d)) as [Hm Hr]. unfold turn.
  set (w := wrap_step (step + d)) in *. clearbody w.
  assert (Hk : w = step + d - 6 \/ w = step + d \/ w = step + d + 6).
  { pose proof (Z.div_mod (w - 1) 6). pose proof (Z.div_mod (step + d - 1) 6). lia. }
  unfold tacho_diff. replace (w - 1 - (step - 1)) with (w - step) by lia.
  assert (Hrem : Z.rem (w - step) 6 = w - step).
  { destruct (Z.le_gt_cases 0 (w - step)); [apply Z.rem_small; lia|].
    rewrite <- (Z.opp_involutive (w - step)), Z.rem_opp_l by lia. rewrite Z.rem_small; lia. }
  rewrite Hrem. repeat case_match; lia.
Qed.

(** The counters after one look. *)
Definition counted (step d : Z) (v : pwm_vars) : pwm_vars :=
  v <| comm_step := step |> <| last_step := step - 1 |>
    <| tachometer_for_direction := i32 (tachometer_for_direction v + d) |>
    <| tachometer_abs := i32 (tachometer_abs v + d) |>
    <| tachometer := i32 (if direction v then tachometer v + d else tachometer v - d) |>.

Lemma look_run step d s : 1 <= step <= 6 -> -2 <= d <= 3 -> last_step (vars s) = step - 1 ->
  exists s', (var_set (fun v => v <| comm_step := turn step d |>);; update_rpm_tacho) s = Some (tt, s') /\
    vars s' = counted (turn step d) d (vars s).
Proof.
  intros Hs Hd Hl. destruct s as [v g c t i]. cbn in Hl. unfold update_rpm_tacho.
  do 3 erewrite ST_bind_Some by reflexivity. cbv zeta. unfold id.
  cbn [vars comm_step last_step setter eta pwm_eta pwm_vars_eta].
  destruct v. cbn in Hl |- *. subst. rewrite tacho_diff_turn by done.
  destruct (d =? 0); (eexists; split; reflexivity).
Qed.

Lemma turn_range step d : 1 <= turn step d <= 6.
Proof. apply wrap_step_mod. Qed.

Lemma turn_turn step d e : turn (turn step d) e = turn step (d + e).
Proof.
  unfold turn, wrap_step. f_equal.
  replace ((step + d - 1) mod 6 + 1 + e - 1) with ((step + d - 1) mod 6 + e) by lia.
  rewrite Z.add_mod_idemp_l by lia. f_equal. lia.
Qed.

Lemma turn_0 step : 1 <= step <= 6 -> turn step 0 = step.
Proof. intros H. unfold turn, wrap_step. rewrite Z.add_0_r, Z.mod_small; lia. Qed.

Lemma i32_add a b : i32 (i32 a + b) = i32 (a + b).
Proof.
  unfold i32. replace ((a + 2147483648) mod 4294967296 - 2147483648 + b + 2147483648)
    with ((a + 2147483648) mod 4294967296 + b) by lia.
  rewrite Z.add_mod_idemp_l by lia. do 2 f_equal. lia.
Qed.

(** C12. As long as the motor turns at most three steps forwards or two
    backwards between two looks at it, the tachometer counts its net
    rotation, through any number of turns; so does tachometer_abs, which
    therefore decreases when the motor turns back. *)
Theorem tachometers_follow_motor ds step s :
  1 <= step <= 6 -> last_step (vars s) = step - 1 -> Forall (fun d => -2 <= d <= 3) ds ->
  is_i32 (tachometer (vars s)) -> is_i32 (tachometer_abs (vars s)) ->
  exists s', turns step ds s = Some (tt, s') /\
    tachometer (vars s') =
      i32 (if direction (vars s) then tachometer (vars s) + zsum ds else tachometer (vars s) - zsum ds) /\
    tachometer_abs (vars s') = i32 (tachometer_abs (vars s) + zsum ds) /\
    last_step (vars s') = turn step (zsum ds) - 1.
Proof.
  intros Hstep Hl Hds. revert step s Hstep Hl. induction Hds as [|d ds Hd _ IH]; intros step s Hstep Hl Ht Ha.
  - exists s. cbn [zsum foldr]. rewrite Z.add_0_r, Z.sub_0_r, Z.add_0_r, turn_0 by done.
    split; [done|]. rewrite (i32_id (tachometer_abs _)) by done.
    by destruct (direction (vars s)); rewrite i32_id.
  - destruct (look_run step d s Hstep Hd Hl) as (s1 & Hr & Hv).
    destruct (IH (turn step d) s1 (turn_range _ _)) as (s' & Hr' & H1 & H2 & H3);
      try (rewrite Hv; apply i32_range); [by rewrite Hv|].
    exists s'. split.
    { cbn [turns]. unfold mbind, ST_bind in *. revert Hr. destruct (var_set _ s) as [[[] s0]|]; [|done].
      by intros ->. }
    assert (Hc : tachometer (vars s1) =
        i32 (if direction (vars s) then tachometer (vars s) + d else tachometer (vars s) - d) /\
      tachometer_abs (vars s1) = i32 (tachometer_abs (vars s) + d) /\
      direction (vars s1) = direction (vars s)) by by rewrite Hv.
    destruct Hc as (Hc1 & Hc2 & Hc3). rewrite H1, H2, H3, Hc1, Hc2, Hc3, turn_turn.
    change (zsum (d :: ds)) with (d + zsum ds).
    split; [|split; [|done]].
    + destruct (direction (vars s)); unfold Z.sub; rewrite i32_add; f_equal; lia.
    + rewrite i32_add. f_equal. lia.
Qed.

(** Two turns forwards, then one step and three steps back: nine steps. *)
Lemma tachometers_follow_motor_witness :
  exists s', turns 1 (replicate 12 1 ++ [-1; -2]) (pwm0 (mkInputs (fun _ => 0) 0 0 0 0 false false false
      (fun _ => 0) 0 0 0 false false f0)) = Some (tt, s') /\
    tachometer (vars s') = -9 /\ tachometer_abs (vars s') = 9.
Proof.
  edestruct (tachometers_follow_motor (replicate 12 1 ++ [-1; -2]) 1) as (s' & Hr & H1 & H2 & _);
    [lia| | | | |exists s'; split; [exact Hr|exact (conj H1 H2)]]; [done| |done|done].
  apply Forall_app. split; [apply Forall_replicate; lia|]. repeat constructor; lia.
Defined.

(** ** The detection of the hall table

    While the motor turns, [note_hall] counts for each reading of the three
    sensors how often it came with each commutation step.
    [mcpwm_get_hall_detect_result] makes a table of it. *)

(** ** What a table of counts says *)

Definition seen (row : list Z) (step : Z) : Z := default 0 (row !!? step).

(** The step that belongs to a row: the first of those seen most often, if
    that was more than 15 times. *)
Definition step_of (row : list Z) (h : Z) : Prop :=
  (h = -1 /\ forall j, 1 <= j <= 6 -> seen row j <= 15) \/
  (1 <= h <= 6 /\ 15 < seen row h /\ (forall j, 1 <= j <= 6 -> seen row j <= seen row h) /\
   (forall j, 1 <= j < h -> seen row j < seen row h)).

(** A complete table: every step once, and two readings that do not occur. *)
Definition complete_table : list Z := [-1; -1; 1; 2; 3; 4; 5; 6].

Definition row_body (row : list Z) (j : Z) (a : Z * Z) : option (Z * Z) :=
  let '(samples, res) := a in
  n ← row !!? j;
  Some (if samples <? n then (n, if 15 <? n then j else res) else (samples, res)).

Lemma hall_row_spec row : length row = 7%nat -> exists h, hall_row row = Some h /\ step_of row h.
Proof.
  intros Hlen.
  set (I := fun i (a : Z * Z) => 0 <= a.1 /\ (forall j, 1 <= j < i -> seen row j <= a.1) /\
    ((a.1 <= 15 /\ a.2 = -1) \/
     (15 < a.1 /\ 1 <= a.2 < i /\ seen row a.2 = a.1 /\ forall j, 1 <= j < a.2 -> seen row j < a.1))).
  destruct (for_loop_inv I 6 1 (row_body row) (0, -1)) as ([m h] & Hr & Hm & Hall & Hcase).
  - split; [cbn; lia|]. split; [intros; lia|]. left. cbn. lia.
  - intros j [m h] Hj (Hm & Hall & Hcase). cbn [fst snd] in *.
    destruct (at_ix_Some row j) as [n Hn]; [lia|].
    assert (Hs : seen row j = n) by (unfold seen; by rewrite Hn).
    unfold row_body. rewrite Hn. cbn [mbind option_bind].
    assert (Hstep : forall x, (forall k, 1 <= k < j -> seen row k <= x) -> n <= x ->
      forall k, 1 <= k < j + 1 -> seen row k <= x).
    { intros x Hx Hnx k Hk. destruct (Z.eq_dec k j) as [->|]; [lia|apply Hx; lia]. }
    eexists. split; [reflexivity|]. destruct (Z.ltb_spec m n) as [Hlt|Hge]; unfold I; cbn [fst snd].
    + split; [lia|]. split; [apply Hstep; [intros k Hk; specialize (Hall k Hk); lia|lia]|].
      destruct (Z.ltb_spec 15 n); [right|left; lia].
      split; [lia|]. split; [lia|]. split; [done|]. intros k Hk. specialize (Hall k Hk). lia.
    + split; [lia|]. split; [by apply Hstep|].
      destruct Hcase as [?|(H1 & H2 & H3)]; [by left|right]. split; [lia|]. split; [lia|done].
  - exists h. split.
    { change (hall_row row) with ('(_, res) ← for_loop 6 1 1 (row_body row) (0, -1); Some res).
      by rewrite Hr. }
    cbn [fst snd] in *. destruct Hcase as [[H1 ->]|(H1 & H2 & H3 & H4)].
    + left. split; [done|]. intros j Hj. specialize (Hall j). lia.
    + right. rewrite H3. split; [lia|]. split; [done|]. split; [|done]. intros j Hj. apply Hall. lia.
Qed.

Lemma step_of_range row h : step_of row h -> h = -1 \/ 1 <= h <= 6.
Proof. intros [[-> _]|[H _]]; [by left|by right]. Qed.

(** ** The table *)

Definition rows_body (rows : list (list Z)) (i : Z) (table : list Z) : option (list Z) :=
  row ← rows !!? i; res ← hall_row row; put_ix i res table.

Lemma rows_spec rows table :
  length rows = 8%nat -> Forall (fun row => length row = 7%nat) rows -> length table = 8%nat ->
  exists t, for_loop 8 0 1 (rows_body rows) table = Some t /\ Forall2 step_of rows t.
Proof.
  intros Hlen Hrows Ht.
  set (I := fun i (t : list Z) => length t = 8%nat /\
    forall k, Z.of_nat k < i -> exists row h, rows !! k = Some row /\ t !! k = Some h /\ step_of row h).
  destruct (for_loop_inv I 8 0 (rows_body rows) table) as (t & Hr & Hl & Hall).
  - split; [done|]. intros k Hk. lia.
  - intros j t Hj [Hl Hall]. destruct (at_ix_Some rows j) as [row Hrow]; [lia|].
    assert (Hrk : rows !! Z.to_nat j = Some row).
    { unfold at_ix in Hrow. by rewrite decide_True in Hrow by lia. }
    destruct (hall_row_spec row) as (h & Hh & Hs).
    { by apply (proj1 (Forall_lookup _ _) Hrows (Z.to_nat j)). }
    eexists. split.
    { unfold rows_body. rewrite Hrow. cbn [mbind option_bind]. rewrite Hh. cbn [mbind option_bind].
      apply put_ix_Some. lia. }
    split; [by rewrite length_insert|]. intros k Hk. destruct (decide (k = Z.to_nat j)) as [->|Hne].
    + exists row, h. by rewrite list_lookup_insert_eq by lia.
    + rewrite list_lookup_insert_ne by done. apply Hall. lia.
  - exists t. split; [done|]. apply Forall2_same_length_lookup. split; [lia|].
    intros k row h Hrow Hh. assert (Hk : (k < 8)%nat) by (apply lookup_lt_Some in Hrow; lia).
    destruct (Hall k) as (row' & h' & H1 & H2 & H3); [lia|]. congruence.
Qed.

(** ** Counting the steps *)

Definition flag (l : list Z) (k : Z) : Z := if decide (k ∈ l) then 1 else 0.
Definition flags (l : list Z) : list Z := flag l <$> [0; 1; 2; 3; 4; 5; 6].

Definition count_body (table : list Z) (i : Z) (a : Z * Z * list Z) : option (Z * Z * list Z) :=
  let '(invalid, tot, nums) := a in
  t ← table !!? i;
  if t =? -1 then Some (invalid + 1, tot, nums)
  else n ← nums !!? t;
       if n =? 0 then nums ← put_ix t 1 nums; Some (invalid, tot + 1, nums)
       else Some (invalid, tot, nums).

Definition missing (l : list Z) : nat := length (filter (fun h => h = -1) l).

Lemma flags_lookup l t : 1 <= t <= 6 -> flags l !! Z.to_nat t = Some (flag l t).
Proof. intros Ht. destruct (step_cases t Ht) as [->|[->|[->|[->|[->| ->]]]]]; done. Qed.

Lemma flags_ext l l' : (forall k, 0 <= k <= 6 -> k ∈ l <-> k ∈ l') -> flags l = flags l'.
Proof.
  intros H. assert (Hk : forall k, 0 <= k <= 6 -> flag l k = flag l' k) by (intros; by apply decide_ext, H).
  unfold flags. cbn [fmap list_fmap]. by rewrite !Hk by lia.
Qed.

Lemma flags_app l t : 1 <= t <= 6 -> flags (l ++ [t]) = <[Z.to_nat t := 1]> (flags l).
Proof.
  intros Ht. unfold flags.
  assert (Hne : forall k, k <> t -> flag (l ++ [t]) k = flag l k).
  { intros k Hk. apply decide_ext. rewrite elem_of_app, list_elem_of_singleton.
    split; [intros [?|?]; [done|lia]|by left]. }
  assert (Heq : flag (l ++ [t]) t = 1).
  { unfold flag. rewrite decide_True; [done|]. apply elem_of_app. right. by apply list_elem_of_singleton. }
  destruct (step_cases t Ht) as [->|[->|[->|[->|[->| ->]]]]];
    cbn [fmap list_fmap]; rewrite ?Heq, ?Hne by done; done.
Qed.

Lemma flags_seen l t : 1 <= t <= 6 -> t ∈ l -> flags (l ++ [t]) = flags l.
Proof.
  intros Ht Hin. rewrite flags_app by done. apply list_insert_id. rewrite flags_lookup by done.
  unfold flag. by rewrite decide_True.
Qed.

Lemma missing_app l t : missing (l ++ [t]) = (missing l + if decide (t = (-1)%Z) then 1 else 0)%nat.
Proof.
  unfold missing. rewrite list.filter_app, length_app. f_equal.
  rewrite list.filter_cons, list.filter_nil.
  by case_decide.
Qed.

Lemma hall_count_spec table : length table = 8%nat -> Forall (fun h => h = -1 \/ 1 <= h <= 6) table ->
  hall_count table = Some (Z.of_nat (missing table), zsum (flags table)).
Proof.
  intros Hlen Hall.
  set (I := fun i (a : Z * Z * list Z) => let l := take (Z.to_nat i) table in
    a = (Z.of_nat (missing l), zsum (flags l), flags l)).
  destruct (for_loop_inv I 8 0 (count_body table) (0, 0, replicate 7 0)) as (a & Hr & Ha); [done| |].
  - intros j a Hj ->. destruct (at_ix_Some table j) as [t Ht]; [lia|].
    assert (Htk : table !! Z.to_nat j = Some t).
    { unfold at_ix in Ht. by rewrite decide_True in Ht by lia. }
    pose proof (proj1 (Forall_lookup _ _) Hall _ _ Htk) as Hrange.
    unfold I, count_body. rewrite Ht. cbn [mbind option_bind].
    replace (Z.to_nat (j + 1)) with (S (Z.to_nat j)) by lia. rewrite (take_S_r _ _ t) by done.
    set (l := take (Z.to_nat j) table). rewrite missing_app.
    destruct (Z.eqb_spec t (-1)) as [->|Hne].
    + rewrite decide_True by done. eexists. split; [reflexivity|].
      assert (Hf : flags (l ++ [-1]) = flags l).
      { apply flags_ext. intros k Hk. rewrite elem_of_app, list_elem_of_singleton.
        split; [intros [?|?]; [done|lia]|by left]. }
      by rewrite Hf, Nat2Z.inj_add.
    + rewrite decide_False by done. destruct Hrange as [|Hrange]; [done|].
      unfold at_ix. rewrite decide_True by lia. rewrite flags_lookup by done. cbn [mbind option_bind].
      unfold flag at 1. case_decide as Hin; cbn [Z.eqb].
      * eexists. split; [reflexivity|]. by rewrite flags_seen, Nat.add_0_r by done.
      * rewrite put_ix_Some by (unfold flags; rewrite length_fmap; cbn; lia). cbn [mbind option_bind].
        eexists. split; [reflexivity|]. rewrite flags_app by done.
        rewrite (zsum_insert _ _ 0) by (rewrite flags_lookup by done; unfold flag; by rewrite decide_False).
        rewrite Nat.add_0_r. do 2 f_equal. lia.
  - unfold I in Ha. change (Z.to_nat (0 + Z.of_nat 8)) with 8%nat in Ha.
    rewrite take_ge in Ha by lia. subst a.
    change (hall_count table) with
      ('(invalid, tot, _) ← for_loop 8 0 1 (count_body table) (0, 0, replicate 7 0); Some (invalid, tot)).
    by rewrite Hr.
Qed.

(** ** Completeness *)

Lemma flag_range l k : 0 <= flag l k <= 1.
Proof. unfold flag. case_decide; lia. Qed.

Lemma flags_six l : zsum (flags l) = 6 -> 0 ∉ l -> forall k, 1 <= k <= 6 -> k ∈ l.
Proof.
  intros Hsum H0 k Hk. assert (Hf : flag l 0 = 0) by (unfold flag; by rewrite decide_False).
  assert (Hone : flag l k = 1).
  { unfold flags, zsum in Hsum. cbn [fmap list_fmap foldr] in Hsum.
    pose proof (flag_range l 1). pose proof (flag_range l 2). pose proof (flag_range l 3).
    pose proof (flag_range l 4). pose proof (flag_range l 5). pose proof (flag_range l 6).
    destruct (step_cases k Hk) as [->|[->|[->|[->|[->| ->]]]]]; lia. }
  unfold flag in Hone. case_decide; [done|lia].
Qed.

Lemma missing_spec l : filter (fun h => h = -1) l = replicate (missing l) (-1).
Proof.
  unfold missing. symmetry. apply replicate_as_elem_of. split; [done|].
  intros x Hx. by apply list_elem_of_filter in Hx as [-> _].
Qed.

Lemma complete_table_iff t : length t = 8%nat -> Forall (fun h => h = -1 \/ 1 <= h <= 6) t ->
  t ≡ₚ complete_table <-> missing t = 2%nat /\ zsum (flags t) = 6.
Proof.
  intros Hlen Hall. split.
  - intros Hp. unfold missing. split; [by rewrite Hp|].
    rewrite (flags_ext t complete_table); [done|]. intros k _. by rewrite Hp.
  - intros [Hm Hsum].
    assert (Hsplit : t ≡ₚ filter (fun h => h = -1) t ++ filter (fun h => ~ h = -1) t).
    { symmetry. apply list.filter_app_complement. }
    rewrite missing_spec, Hm in Hsplit. cbn [replicate app] in Hsplit. rewrite Hsplit.
    change complete_table with (-1 :: -1 :: [1; 2; 3; 4; 5; 6]). do 2 constructor.
    symmetry. apply submseteq_length_Permutation.
    + apply NoDup_submseteq; [by apply (bool_decide_eq_true_1 (NoDup [1; 2; 3; 4; 5; 6]))|].
      intros k Hk. apply list_elem_of_filter.
      assert (Hr : 1 <= k <= 6).
      { revert k Hk. apply list.Forall_forall. repeat constructor; lia. }
      split; [lia|]. apply flags_six; [done| |done]. intros H0.
      destruct (proj1 (list.Forall_forall _ _) Hall 0 H0); lia.
    + apply Permutation_length in Hsplit. cbn [length] in *. lia.
Qed.

(** C13. The hall table that is detected has for each reading of the
    sensors the step seen most often with it, if it was seen more than 15
    times, and -1 otherwise; the result is 0 exactly when the table has
    every step once and two invalid readings. *)
Theorem hall_detection_spec conf table s :
  m_sensor_port_mode conf = SENSOR_PORT_MODE_HALL -> length table = 8%nat ->
  length (hall_detect_table (curr s)) = 8%nat ->
  Forall (fun row => length row = 7%nat) (hall_detect_table (curr s)) ->
  exists res t, mcpwm_get_hall_detect_result conf table s = Some ((res, t), s) /\
    Forall2 step_of (hall_detect_table (curr s)) t /\
    (res = 0 <-> t ≡ₚ complete_table) /\ (res = 0 \/ res = -1).
Proof.
  intros Hmode Hlen Hrows H7. destruct (rows_spec _ table Hrows H7 Hlen) as (t & Hr & Hs).
  assert (Ht : length t = 8%nat) by (apply Forall2_length in Hs; lia).
  assert (Hrange : Forall (fun h => h = -1 \/ 1 <= h <= 6) t).
  { apply Forall_lookup. intros i h Hh. destruct (Forall2_lookup_r _ _ _ _ _ Hs Hh) as (row & _ & H).
    by apply (step_of_range row). }
  pose proof (complete_table_iff t Ht Hrange) as Hiff.
  exists (if (Z.of_nat (missing t) =? 2) && (zsum (flags t) =? 6) then 0 else -1), t.
  split; [|split; [done|split]].
  - unfold mcpwm_get_hall_detect_result. rewrite Hmode, Z.eqb_refl. cbn [negb].
    erewrite ST_bind_Some by reflexivity. unfold lift.
    change (fun i table => row ← _ !!? i; res ← hall_row row; put_ix i res table)
      with (rows_body (hall_detect_table (curr s))).
    erewrite ST_bind_Some; [|by rewrite Hr]. cbv beta.
    erewrite ST_bind_Some; [|by rewrite (hall_count_spec t Ht Hrange)]. reflexivity.
  - rewrite Hiff. destruct (Z.eqb_spec (Z.of_nat (missing t)) 2), (Z.eqb_spec (zsum (flags t)) 6);
      cbn [andb]; lia.
  - destruct (_ && _); [by left|by right].
Qed.

(** Hall sensors that give 1 3 2 6 4 5 for the steps 1 to 6. *)
Definition sample_rows : list (list Z) :=
  let row k := <[k := 100]> (replicate 7 0) in
  [replicate 7 0; row 1%nat; row 3%nat; row 2%nat; row 5%nat; row 6%nat; row 4%nat; replicate 7 15].

Lemma hall_detection_spec_witness :
  let s0 := pwm0 (mkInputs (fun _ => 0) 0 0 0 0 false false false (fun _ => 0) 0 0 0 false false f0) in
  exists t s', mcpwm_get_hall_detect_result conf_general_get_default_mc_configuration (replicate 8 0)
    (s0 <| curr := (curr s0) <| hall_detect_table := sample_rows |> |>) = Some ((0, t), s') /\
    Forall2 step_of sample_rows t.
Proof.
  intros s0.
  destruct (hall_detection_spec conf_general_get_default_mc_configuration (replicate 8 0)
    (s0 <| curr := (curr s0) <| hall_detect_table := sample_rows |> |>)) as (res & t & Hr & Hs & _ & _);
    [done|done|done|by repeat constructor|].
  assert (Hres : res = 0).
  { vm_compute in Hr. by injection Hr. }
  subst res. exists t. eexists. split; [exact Hr|exact Hs].
Defined.
