(* ===== verification/Transmit.v ===== *)
(** * Transmit: sending on the CAN bus and sending packets
    (the transmitting halves of src/comm_can.c and src/commands.c)

    [comm_can_transmit] hands a frame to the controller; here it is appended to
    the output.  [comm_can_send_buffer] splits a payload into frames. *)
From S2P Require Import Prelude Float32 Buffer Crc McTypes World.

Definition RX_FRAMES_SIZE : Z := 100.
Definition RX_BUFFER_SIZE : Z := 1024.
Definition CAN_STATUS_MSGS_TO_STORE : nat := 10.

Section CanTx.
Context {D F : Type}.
Abbreviation M := (ST (world D F)).

Definition comm_can_transmit (id : Z) (data : list Z) (len : Z) : M unit :=
  emit (EvCan {| IDE := true; EID := id; DLC := len; data8 := take (Z.to_nat len) data |}).

(** [dest | ((uint32_t)packet << 8)] *)
Definition can_id (dest packet : Z) : Z := Z.lor dest (Z.shiftl packet 8).

(** [memcpy(dst, data + i, n)] as the bytes read. *)
Definition mem_read (data : list Z) (i n : Z) : option (list Z) :=
  if decide (0 <= i /\ 0 <= n /\ i + n <= Z.of_nat (length data))
  then Some (take (Z.to_nat n) (drop (Z.to_nat i) data)) else None.

Definition lift_opt {A} (o : option A) : M A := fun w => a ← o; Some (a, w).

(** [for (i = 0; i < len; i += 7) { if (i > 255) break; ... }]; returns [end_a]. *)
Fixpoint send_fill (fuel : nat) (dest : Z) (data : list Z) (len i end_a : Z) : M Z :=
  match fuel with
  | O => st_fail
  | S fuel =>
      if i <? len then
        if 255 <? i then mret end_a else
        let send_len := if i + 7 <=? len then 7 else len - i in
        bs ← lift_opt (mem_read data i send_len);
        comm_can_transmit (can_id dest CAN_PACKET_FILL_RX_BUFFER) (u8 i :: bs) (send_len + 1);;
        send_fill fuel dest data len (i + 7) (i + 7)
      else mret end_a
  end.

(** [for (i = end_a; i < len; i += 6)] *)
Fixpoint send_fill_long (fuel : nat) (dest : Z) (data : list Z) (len i : Z) : M unit :=
  match fuel with
  | O => st_fail
  | S fuel =>
      if i <? len then
        let send_len := if i + 6 <=? len then 6 else len - i in
        bs ← lift_opt (mem_read data i send_len);
        comm_can_transmit (can_id dest CAN_PACKET_FILL_RX_BUFFER_LONG)
          (u8 (Z.shiftr i 8) :: u8 (Z.land i 255) :: bs) (send_len + 2);;
        send_fill_long fuel dest data len (i + 6)
      else mret tt
  end.

(** [data] is the memory from the pointer on, [len] the length to send. *)
Definition comm_can_send_buffer (dest : Z) (data : list Z) (len : Z) (send : bool) : M unit :=
  w ← st_get;
  let own := controller_id (appconf w) in
  if len <=? 6 then
    bs ← lift_opt (mem_read data 0 len);
    comm_can_transmit (can_id dest CAN_PACKET_PROCESS_SHORT_BUFFER)
      (own :: Z.b2z send :: bs) (len + 2)
  else
    let fuel := S (Z.to_nat len) in
    end_a ← send_fill fuel dest data len 0 0;
    send_fill_long fuel dest data len end_a;;
    crc ← lift_opt (crc16 data len);
    comm_can_transmit (can_id dest CAN_PACKET_PROCESS_RX_BUFFER)
      [own; Z.b2z send; u8 (Z.shiftr len 8); u8 (Z.land len 255);
       u8 (Z.shiftr crc 8); u8 (Z.land crc 255)] 6.

(** A local array [uint8_t buffer[n]] filled by appending: the bytes and the
    index reached. *)
Definition fill_buffer (n : nat) (m : ST wstate unit) : M (list Z * Z) :=
  r ← lift_opt (m (replicate n 0, 0)); mret r.2.

(** [buffer_append_int32(buffer, v, &send_index); comm_can_transmit(...)] *)
Definition transmit_int32 (dest packet v : Z) : M unit :=
  '(buffer, send_index) ← fill_buffer 4 (buffer_append_int32 v);
  comm_can_transmit (can_id dest packet) buffer send_index.

Definition comm_can_set_duty (dest : Z) (duty : f32) : M unit :=
  transmit_int32 dest CAN_PACKET_SET_DUTY (f2i32 (duty * f_of_int 100000)%f32).
Definition comm_can_set_current (dest : Z) (current : f32) : M unit :=
  transmit_int32 dest CAN_PACKET_SET_CURRENT (f2i32 (current * f_of_int 1000)%f32).
Definition comm_can_set_current_brake (dest : Z) (current : f32) : M unit :=
  transmit_int32 dest CAN_PACKET_SET_CURRENT_BRAKE (f2i32 (current * f_of_int 1000)%f32).
Definition comm_can_set_rpm (dest : Z) (rpm : f32) : M unit :=
  transmit_int32 dest CAN_PACKET_SET_RPM (f2i32 rpm).
Definition comm_can_set_pos (dest : Z) (pos : f32) : M unit :=
  transmit_int32 dest CAN_PACKET_SET_POS (f2i32 (pos * f_of_int 1000000)%f32).

(** The packet sending function of the CAN process thread. *)
Definition send_packet_wrapper (data : list Z) (len : Z) : M unit :=
  id ← can rx_buffer_last_id;
  comm_can_send_buffer id data len true.
End CanTx.

(** ** Reading memory *)

Lemma mem_read_prefix bs junk k n :
  0 <= k -> Z.of_nat (length bs) = k + n -> 0 <= n ->
  mem_read (bs ++ junk) k n = Some (drop (Z.to_nat k) bs).
Proof.
  intros Hk Hl Hn. unfold mem_read. rewrite decide_True by (rewrite length_app; lia).
  f_equal. rewrite drop_app_le by lia. rewrite take_app_length'; [done|]. rewrite length_drop. lia.
Qed.

Lemma mem_read_take data i n :
  0 <= i -> 0 <= n -> i + n <= Z.of_nat (length data) ->
  mem_read data i n = Some (take (Z.to_nat n) (drop (Z.to_nat i) data)).
Proof. intros. unfold mem_read. by rewrite decide_True by lia. Qed.

(** ** Sending packets (the transmitting half of src/commands.c) *)

Definition PACKET_MAX_PL_LEN : Z := 1024.

Section CommandsTx.
Context {D F : Type}.
Abbreviation M := (ST (world D F)).

Definition commands_set_send_func (func : send_handler) : M unit :=
  cmd_set (fun s => s <| send_func := Some func |>).

(** [data] is the memory from the pointer on.  The transports other than CAN
    receive the packet as an output. *)
Definition commands_send_packet (data : list Z) (len : Z) : M unit :=
  f ← cmd send_func;
  match f with
  | None => mret tt
  | Some SendCan => send_packet_wrapper data len
  | Some h => bs ← lift_opt (mem_read data 0 len); emit (EvSend h bs)
  end.

(** Fill [send_buffer] from index 0 and send what was written. *)
Definition send_reply (m : ST wstate unit) : M unit :=
  buf ← cmd send_buffer;
  '(_, (buf', ind)) ← lift_opt (m (buf, 0));
  cmd_set (fun s => s <| send_buffer := buf' |>);;
  commands_send_packet buf' ind.

Definition commands_send_samples (data : list Z) (len : Z) : M unit :=
  bs ← lift_opt (mem_read data 0 len);
  commands_send_packet (COMM_SAMPLE_PRINT :: bs) (len + 1).

Definition commands_send_rotor_pos (rotor_pos : f32) : M unit :=
  '(buffer, index) ← fill_buffer 5
    (put8 COMM_ROTOR_POSITION;; buffer_append_int32 (f2i32 (rotor_pos * f_of_int 100000)%f32));
  commands_send_packet buffer index.

(** [for (i = 0; i < len; i++) buffer_append_int32(...)] *)
Fixpoint append_samples (samples : list f32) (n : nat) : ST wstate unit :=
  match n, samples with
  | O, _ => mret tt
  | S n, x :: samples => buffer_append_int32 (f2i32 (x * f_of_int 10000)%f32);; append_samples samples n
  | S _, [] => st_fail
  end.

Definition commands_send_experiment_samples (samples : list f32) (len : Z) : M unit :=
  if 256 <? len * 4 + 1 then mret tt else
  '(buffer, index) ← fill_buffer (Z.to_nat (len * 4 + 1))
    (put8 COMM_EXPERIMENT_SAMPLE;; append_samples samples (Z.to_nat len));
  commands_send_packet buffer index.

Definition commands_get_disp_pos_mode : M Z := cmd display_position_mode.

Definition commands_set_app_data_handler (func : option Z) : M unit :=
  cmd_set (fun s => s <| appdata_func := func |>).

(** [memcpy(send_buffer + index, data, len)] does not check the length. *)
Definition commands_send_app_data (data : list Z) (len : Z) : M unit :=
  bs ← lift_opt (mem_read data 0 len);
  send_reply (put8 COMM_CUSTOM_APP_DATA;; put_bytes bs).
End CommandsTx.
