(* ===== verification/McInterface.v ===== *)
(** * McInterface: the motor control interface (src/mc_interface.c)

    Dispatch to the motor drivers, the lock and the fault handling, the energy
    counters, sampling, and the current limits that depend on temperature and
    battery voltage.  This file has the code; McInterfaceSpec.v has its
    theorems. *)
From S2P Require Import Prelude Float32 Buffer McTypes Motor Flash Eeprom Utils World Transmit.
From S2P Require Import Transmit.

Definition MCPWM_DETECT_STOP_TIME : Z := 500.
Definition FAULT_VEC_LEN : Z := 25.

Section McInterface.
Context {D F : Type} `{Board D}.
Abbreviation M := (ST (world D F)).

(** [switch (m_conf.motor_type)] with its cases BLDC and DC, FOC, and default. *)
Definition by_motor {A} (t : Z) (pwm foc other : A) : A :=
  if (t =? MOTOR_TYPE_BLDC) || (t =? MOTOR_TYPE_DC) then pwm
  else if t =? MOTOR_TYPE_FOC then foc else other.

(** A getter that asks the selected driver. *)
Definition motor_get {A} (dflt : A) (f : driver D -> mc_configuration -> D -> A) : M A :=
  c ← mci m_conf;
  by_motor (motor_type c) (hw (f mcpwm c)) (hw (f mcpwm_foc c)) (mret dflt).

(** A command handed to the selected driver. *)
Definition motor_do (f : driver D -> mc_configuration -> D -> D) : M unit :=
  c ← mci m_conf;
  by_motor (motor_type c) (hw_do (f mcpwm c)) (hw_do (f mcpwm_foc c)) (mret tt).

(** terminal.c *)
Definition terminal_add_fault_data (data : fault_data) : M unit := fun w =>
  if decide (0 <= fault_vec_write w < Z.of_nat (length (fault_vec w))) then
    let i := fault_vec_write w + 1 in
    Some (tt, w <| fault_vec := <[Z.to_nat (fault_vec_write w) := data]> (fault_vec w) |>
                <| fault_vec_write := if FAULT_VEC_LEN <=? i then 0 else i |>)
  else None.

(** ** Configuration *)

Definition init_encoder (mode counts : Z) : M unit :=
  if mode =? SENSOR_PORT_MODE_ABI then hw_do (encoder_init_abi counts)
  else if mode =? SENSOR_PORT_MODE_AS5047_SPI then hw_do encoder_init_as5047p_spi
  else mret tt.

Definition mci_init (c : mc_configuration) (s : mci_state) : mci_state :=
  s <| m_conf := c |> <| m_fault_now := FAULT_CODE_NONE |> <| m_ignore_iterations := 0 |>
    <| m_cycles_running := 0 |> <| m_lock_enabled := false |> <| m_lock_override_once := false |>
    <| m_motor_current_sum := f0 |> <| m_input_current_sum := f0 |>
    <| m_motor_current_iterations := f0 |> <| m_input_current_iterations := f0 |>
    <| m_amp_seconds := f0 |> <| m_amp_seconds_charged := f0 |>
    <| m_watt_seconds := f0 |> <| m_watt_seconds_charged := f0 |>
    <| m_position_set := f0 |> <| m_last_adc_duration_sample := f0 |>
    <| m_sample_len := 1000 |> <| m_sample_int := 1 |> <| m_sample_ready := true |>
    <| m_sample_now := 0 |> <| m_sample_at_start := false |> <| m_start_comm := 0 |>.

Definition mc_interface_init (configuration : mc_configuration) : M unit :=
  mci_set (mci_init configuration);;
  c ← mci m_conf;
  init_encoder (m_sensor_port_mode c) (m_encoder_counts c);;
  motor_do drv_init.

Definition mc_interface_get_configuration : M mc_configuration := mci m_conf.

Definition mc_interface_dccal_done : M bool :=
  motor_get false (fun d _ => drv_is_dccal_done d).

Definition mc_interface_set_pwm_callback (p_func : option Z) : M unit :=
  mci_set (fun s => s <| pwn_done_func := p_func |>).

(** ** Lock, state and fault *)

Definition mc_interface_lock : M unit := mci_set (fun s => s <| m_lock_enabled := true |>).
Definition mc_interface_unlock : M unit := mci_set (fun s => s <| m_lock_enabled := false |>).
Definition mc_interface_lock_override_once : M unit :=
  mci_set (fun s => s <| m_lock_override_once := true |>).

Definition mc_interface_get_fault : M Z := mci m_fault_now.

Definition mc_interface_get_state : M Z := motor_get MC_STATE_OFF (fun d _ => drv_get_state d).

(** Returns the milliseconds left until commands are allowed again. *)
Definition mc_interface_try_input : M Z :=
  st ← mc_interface_get_state;
  when (st =? MC_STATE_DETECTING)
    (c ← mci m_conf;
     hw_do (drv_stop_pwm mcpwm c);;
     mci_set (fun s => s <| m_ignore_iterations := MCPWM_DETECT_STOP_TIME |>));;
  retval ← mci m_ignore_iterations;
  ignore ← mci m_ignore_iterations;
  locked ← mci m_lock_enabled;
  if (ignore =? 0) && locked then
    override ← mci m_lock_override_once;
    if negb override then mret 1
    else mci_set (fun s => s <| m_lock_override_once := false |>);; mret retval
  else mret retval.

(** [if (mc_interface_try_input()) return; ...] *)
Definition if_input (m : M unit) : M unit :=
  t ← mc_interface_try_input; if t =? 0 then m else mret tt.

(** ** Motor commands *)

Definition mc_interface_set_duty (dutyCycle : f32) : M unit :=
  if_input (motor_do (fun d c => drv_set_duty d c dutyCycle)).
Definition mc_interface_set_duty_noramp (dutyCycle : f32) : M unit :=
  if_input (motor_do (fun d c => drv_set_duty_noramp d c dutyCycle)).
Definition mc_interface_set_pid_speed (rpm : f32) : M unit :=
  if_input (motor_do (fun d c => drv_set_pid_speed d c rpm)).
Definition mc_interface_set_pid_pos (pos : f32) : M unit :=
  if_input (mci_set (fun s => s <| m_position_set := pos |>);;
            motor_do (fun d c => drv_set_pid_pos d c pos)).
Definition mc_interface_set_current (current : f32) : M unit :=
  if_input (motor_do (fun d c => drv_set_current d c current)).
Definition mc_interface_set_brake_current (current : f32) : M unit :=
  if_input (motor_do (fun d c => drv_set_brake_current d c current)).
Definition mc_interface_brake_now : M unit := mc_interface_set_duty f0.
Definition mc_interface_release_motor : M unit := mc_interface_set_current f0.

(** ** Getters *)

Definition mc_interface_get_duty_cycle_set : M f32 := motor_get f0 drv_get_duty_cycle_set.
Definition mc_interface_get_duty_cycle_now : M f32 := motor_get f0 drv_get_duty_cycle_now.
Definition mc_interface_get_sampling_frequency_now : M f32 :=
  c ← mci m_conf;
  by_motor (motor_type c)
    (hw (drv_get_switching_frequency_now mcpwm c))
    (f ← hw (drv_get_switching_frequency_now mcpwm_foc c); mret (f / f_of_int 2)%f32)
    (mret f0).
Definition mc_interface_get_rpm : M f32 := motor_get f0 drv_get_rpm.

Definition mc_interface_get_amp_hours (reset : bool) : M f32 :=
  v ← mci m_amp_seconds;
  when reset (mci_set (fun s => s <| m_amp_seconds := f0 |>));;
  mret (v / f_of_int 3600)%f32.

Definition mc_interface_get_amp_hours_charged (reset : bool) : M f32 :=
  v ← mci m_amp_seconds_charged;
  when reset (mci_set (fun s => s <| m_amp_seconds_charged := f0 |>));;
  mret (v / f_of_int 3600)%f32.

(** As in the source, [reset] clears the amp counter. *)
Definition mc_interface_get_watt_hours (reset : bool) : M f32 :=
  v ← mci m_watt_seconds;
  when reset (mci_set (fun s => s <| m_amp_seconds := f0 |>));;
  mret (v / f_of_int 3600)%f32.

Definition mc_interface_get_watt_hours_charged (reset : bool) : M f32 :=
  v ← mci m_watt_seconds_charged;
  when reset (mci_set (fun s => s <| m_watt_seconds_charged := f0 |>));;
  mret (v / f_of_int 3600)%f32.

Definition mc_interface_get_tot_current : M f32 := motor_get f0 drv_get_tot_current.
Definition mc_interface_get_tot_current_filtered : M f32 :=
  motor_get f0 drv_get_tot_current_filtered.
Definition mc_interface_get_tot_current_directional : M f32 :=
  motor_get f0 drv_get_tot_current_directional.
Definition mc_interface_get_tot_current_directional_filtered : M f32 :=
  motor_get f0 drv_get_tot_current_directional_filtered.
Definition mc_interface_get_tot_current_in : M f32 := motor_get f0 drv_get_tot_current_in.
Definition mc_interface_get_tot_current_in_filtered : M f32 :=
  motor_get f0 drv_get_tot_current_in_filtered.

Definition mc_interface_get_tachometer_value (reset : bool) : M Z :=
  c ← mci m_conf;
  by_motor (motor_type c) (hw_run (drv_get_tachometer_value mcpwm reset))
    (hw_run (drv_get_tachometer_value mcpwm_foc reset)) (mret 0).
Definition mc_interface_get_tachometer_abs_value (reset : bool) : M Z :=
  c ← mci m_conf;
  by_motor (motor_type c) (hw_run (drv_get_tachometer_abs_value mcpwm reset))
    (hw_run (drv_get_tachometer_abs_value mcpwm_foc reset)) (mret 0).

Definition mc_interface_get_last_inj_adc_isr_duration : M f32 :=
  motor_get f0 (fun d _ => drv_get_last_inj_adc_isr_duration d).

Definition mc_interface_read_reset_avg_motor_current : M f32 :=
  s ← mci m_motor_current_sum; n ← mci m_motor_current_iterations;
  mci_set (fun s => s <| m_motor_current_sum := f0 |> <| m_motor_current_iterations := f0 |>);;
  mret (s / n)%f32.

Definition mc_interface_read_reset_avg_input_current : M f32 :=
  s ← mci m_input_current_sum; n ← mci m_input_current_iterations;
  mci_set (fun s => s <| m_input_current_sum := f0 |> <| m_input_current_iterations := f0 |>);;
  mret (s / n)%f32.

Definition mc_interface_get_pid_pos_set : M f32 := mci m_position_set.

Definition mc_interface_get_pid_pos_now : M f32 :=
  c ← mci m_conf;
  by_motor (motor_type c) (hw encoder_read_deg) (hw mcpwm_foc_get_pid_pos_now) (mret f0).

Definition mc_interface_get_last_sample_adc_isr_duration : M f32 :=
  mci m_last_adc_duration_sample.

Definition mc_interface_sample_print_data (at_start : bool) (len decimation : Z) : M unit :=
  let len := if ADC_SAMPLE_MAX_LEN <? len then ADC_SAMPLE_MAX_LEN else len in
  mci_set (fun s => s <| m_sample_len := len |> <| m_sample_int := decimation |>);;
  if at_start then
    mci_set (fun s => s <| m_sample_at_start := true |>);;
    step ← hw mcpwm_get_comm_step;
    mci_set (fun s => s <| m_start_comm := step |>)
  else mci_set (fun s => s <| m_sample_now := 0 |> <| m_sample_ready := false |>).

(** ** Faults *)

(** The block that records the fault and its conditions. *)
Definition log_fault (fault : Z) : M unit :=
  val_samp ← hw TIM8_CCR1; current_samp ← hw TIM1_CCR4; tim_top ← hw TIM1_ARR;
  current ← mc_interface_get_tot_current;
  current_filtered ← mc_interface_get_tot_current_filtered;
  voltage ← hw GET_INPUT_VOLTAGE;
  duty ← mc_interface_get_duty_cycle_now;
  rpm ← mc_interface_get_rpm;
  tacho ← mc_interface_get_tachometer_value false;
  cycles ← mci m_cycles_running;
  comm_step ← hw mcpwm_get_comm_step;
  temperature ← hw (fun d => NTC_TEMP d ADC_IND_TEMP_MOS1);
  terminal_add_fault_data {|
    fd_fault := fault; fd_current := current; fd_current_filtered := current_filtered;
    fd_voltage := voltage; fd_duty := duty; fd_rpm := rpm; fd_tacho := tacho;
    fd_cycles_running := i32 cycles; fd_tim_val_samp := val_samp;
    fd_tim_current_samp := current_samp; fd_tim_top := tim_top; fd_comm_step := comm_step;
    fd_temperature := temperature |}.

Definition mc_interface_fault_stop (fault : Z) : M unit :=
  done ← mc_interface_dccal_done;
  now ← mci m_fault_now;
  when (done && (now =? FAULT_CODE_NONE)) (log_fault fault);;
  c ← mci m_conf;
  mci_set (fun s => s <| m_ignore_iterations := m_fault_stop_time_ms c |>);;
  motor_do drv_stop_pwm;;
  mci_set (fun s => s <| m_fault_now := fault |>).

Definition set_conf (f : mc_configuration -> mc_configuration) : M unit :=
  mci_set (fun s => s <| m_conf := f (m_conf s) |>).

(** The largest current allowed at [temp] between the two temperature limits. *)
Definition derated (conf : mc_configuration) (temp : f32) : f32 :=
  let maxc := fabs (l_current_max conf) in
  let maxc := if (fabs (l_current_min conf) >? maxc)%f32 then fabs (l_current_min conf) else maxc in
  utils_map temp (l_temp_fet_start conf) (l_temp_fet_end conf) maxc f0.

Definition update_temperature_limits : M unit :=
  temp ← hw (fun d => NTC_TEMP d ADC_IND_TEMP_MOS2);
  conf ← mci m_conf;
  if (temp <? l_temp_fet_start conf)%f32 then
    set_conf (fun c => c <| lo_current_min := l_current_min c |>
                         <| lo_current_max := l_current_max c |>)
  else if (temp >? l_temp_fet_end conf)%f32 then
    set_conf (fun c => c <| lo_current_min := f0 |> <| lo_current_max := f0 |>);;
    mc_interface_fault_stop FAULT_CODE_OVER_TEMP_FET
  else
    let maxc := derated conf temp in
    when (fabs (l_current_max conf) >? maxc)%f32
      (set_conf (fun c => c <| lo_current_max := (SIGN (l_current_max c) * maxc)%f32 |>));;
    when (fabs (l_current_min conf) >? maxc)%f32
      (set_conf (fun c => c <| lo_current_min := (SIGN (l_current_min c) * maxc)%f32 |>)).

Definition update_battery_limits (v_in : f32) : M unit :=
  conf ← mci m_conf;
  let limit :=
    if (v_in >? l_battery_cut_start conf)%f32 then l_in_current_max conf
    else if (v_in <? l_battery_cut_end conf)%f32 then f0
    else utils_map v_in (l_battery_cut_start conf) (l_battery_cut_end conf)
           (l_in_current_max conf) f0 in
  set_conf (fun c => c <| lo_in_current_max := limit |>);;
  set_conf (fun c => c <| lo_in_current_min := l_in_current_min c |>).

(** [update_override_limits(&m_conf)]. *)
Definition update_override_limits : M unit :=
  v_in ← hw GET_INPUT_VOLTAGE;
  update_temperature_limits;;
  update_battery_limits v_in.

Definition mc_interface_set_configuration (configuration : mc_configuration) : M unit :=
  old ← mci m_conf;
  when (negb (m_sensor_port_mode old =? m_sensor_port_mode configuration))
    (hw_do encoder_deinit;;
     init_encoder (m_sensor_port_mode configuration) (m_encoder_counts configuration));;
  when (m_sensor_port_mode configuration =? SENSOR_PORT_MODE_ABI)
    (hw_do (encoder_set_counts (m_encoder_counts configuration)));;
  (if (motor_type old =? MOTOR_TYPE_FOC) && negb (motor_type configuration =? MOTOR_TYPE_FOC) then
     hw_do (drv_deinit mcpwm_foc old);;
     set_conf (fun _ => configuration);;
     hw_do (drv_init mcpwm configuration)
   else if negb (motor_type old =? MOTOR_TYPE_FOC) && (motor_type configuration =? MOTOR_TYPE_FOC) then
     hw_do (drv_deinit mcpwm old);;
     set_conf (fun _ => configuration);;
     hw_do (drv_init mcpwm_foc configuration)
   else set_conf (fun _ => configuration));;
  update_override_limits;;
  motor_do drv_set_configuration.

(** ** [mc_interface_mc_timer_isr], called once per PWM cycle *)

Definition isr_voltage (input_voltage : f32) : M unit :=
  conf ← mci m_conf;
  if ((input_voltage <? l_min_vin conf) || (input_voltage >? l_max_vin conf))%f32 then
    mci_set (fun s => s <| wrong_voltage_iterations := i32 (wrong_voltage_iterations s + 1) |>);;
    n ← mci wrong_voltage_iterations;
    when (8 <=? n)
      (mc_interface_fault_stop (if (input_voltage <? l_min_vin conf)%f32
                                then FAULT_CODE_UNDER_VOLTAGE else FAULT_CODE_OVER_VOLTAGE))
  else mci_set (fun s => s <| wrong_voltage_iterations := 0 |>).

Definition isr_cycles : M unit :=
  st ← mc_interface_get_state;
  mci_set (fun s => s <| m_cycles_running :=
    if st =? MC_STATE_RUNNING then u32 (m_cycles_running s + 1) else 0 |>).

Definition isr_callback : M unit :=
  f ← mci pwn_done_func;
  match f with Some f => hw_do (pwm_callback f) | None => mret tt end.

Definition isr_sums (current current_in : f32) : M unit :=
  mci_set (fun s => s
    <| m_motor_current_sum := (m_motor_current_sum s + current)%f32 |>
    <| m_input_current_sum := (m_input_current_sum s + current_in)%f32 |>
    <| m_motor_current_iterations := (m_motor_current_iterations s + f1)%f32 |>
    <| m_input_current_iterations := (m_input_current_iterations s + f1)%f32 |>).

Definition isr_abs_current (current : f32) : M unit :=
  tot ← mc_interface_get_tot_current;
  conf ← mci m_conf;
  abs_current ← (if motor_type conf =? MOTOR_TYPE_FOC
                 then hw (mcpwm_foc_get_abs_motor_current conf) else mret tot);
  abs_current_filtered ← (if motor_type conf =? MOTOR_TYPE_FOC
                 then hw (mcpwm_foc_get_abs_motor_current_filtered conf) else mret current);
  let measured := if l_slow_abs_current conf then abs_current_filtered else abs_current in
  when (fabs measured >? l_abs_current_max conf)%f32
    (mc_interface_fault_stop FAULT_CODE_ABS_OVER_CURRENT).

Definition isr_counters (current current_in f_samp input_voltage : f32) : M unit :=
  when (fabs current >? f1)%f32
    (mci_set (fun s => s
       <| curr_diff_sum := (curr_diff_sum s + current_in / f_samp)%f32 |>
       <| curr_diff_samples := (curr_diff_samples s + f1 / f_samp)%f32 |>);;
     samples ← mci curr_diff_samples;
     when (samples >=? flit 1 100)%f32
       (sum ← mci curr_diff_sum;
        (if (sum >? f0)%f32 then
           mci_set (fun s => s
             <| m_amp_seconds := (m_amp_seconds s + sum)%f32 |>
             <| m_watt_seconds := (m_watt_seconds s + sum * input_voltage)%f32 |>)
         else
           mci_set (fun s => s
             <| m_amp_seconds_charged := (m_amp_seconds_charged s - sum)%f32 |>
             <| m_watt_seconds_charged := (m_watt_seconds_charged s - sum * input_voltage)%f32 |>));;
        mci_set (fun s => s <| curr_diff_samples := f0 |> <| curr_diff_sum := f0 |>))).

Definition isr_sample_start : M unit :=
  at_start ← mci m_sample_at_start;
  when at_start
    (st ← mc_interface_get_state;
     start_comm ← mci m_start_comm;
     step ← hw mcpwm_get_comm_step;
     when ((st =? MC_STATE_RUNNING) || negb (start_comm =? step))
       (mci_set (fun s => s <| m_sample_now := 0 |> <| m_sample_ready := false |>
                            <| m_sample_at_start := false |>))).

(** [array[m_sample_now] = v] *)
Definition put_sample (get : mci_state -> list Z) (set : list Z -> mci_state -> mci_state) (v : Z)
    : M unit := fun w =>
  l ← arr_set (m_sample_now (w_mci w)) v (get (w_mci w));
  Some (tt, w <| w_mci := set l (w_mci w) |>).

Definition put_curr0 := put_sample m_curr0_samples (fun l s => s <| m_curr0_samples := l |>).
Definition put_curr1 := put_sample m_curr1_samples (fun l s => s <| m_curr1_samples := l |>).
Definition put_ph1 := put_sample m_ph1_samples (fun l s => s <| m_ph1_samples := l |>).
Definition put_ph2 := put_sample m_ph2_samples (fun l s => s <| m_ph2_samples := l |>).
Definition put_ph3 := put_sample m_ph3_samples (fun l s => s <| m_ph3_samples := l |>).
Definition put_vzero := put_sample m_vzero_samples (fun l s => s <| m_vzero_samples := l |>).
Definition put_status := put_sample m_status_samples (fun l s => s <| m_status_samples := l |>).
Definition put_fir := put_sample m_curr_fir_samples (fun l s => s <| m_curr_fir_samples := l |>).
Definition put_f_sw := put_sample m_f_sw_samples (fun l s => s <| m_f_sw_samples := l |>).

Definition float_at (l : list f32) (i : Z) : M f32 :=
  lift_opt (if decide (0 <= i) then l !! Z.to_nat i else None).

Definition sample_currents : M unit :=
  st ← mc_interface_get_state;
  if st =? MC_STATE_DETECTING then
    step ← hw mcpwm_get_comm_step;
    c ← hw mcpwm_detect_currents; v ← float_at c (step - 1); put_curr0 (f2i16 v);;
    c ← hw mcpwm_detect_currents_diff; v ← float_at c (step - 1); put_curr1 (f2i16 v);;
    vs ← hw mcpwm_detect_voltages;
    v ← float_at vs 0; put_ph1 (f2i16 v);;
    v ← float_at vs 1; put_ph2 (f2i16 v);;
    v ← float_at vs 2; put_ph3 (f2i16 v)
  else
    v ← hw (fun d => ADC_curr_norm_value d 0); put_curr0 (i16 v);;
    v ← hw (fun d => ADC_curr_norm_value d 1); put_curr1 (i16 v);;
    v ← hw (fun d => ADC_V_L1 d - mcpwm_vzero d); put_ph1 (i16 v);;
    v ← hw (fun d => ADC_V_L2 d - mcpwm_vzero d); put_ph2 (i16 v);;
    v ← hw (fun d => ADC_V_L3 d - mcpwm_vzero d); put_ph3 (i16 v).

(** [m_sample_now++], and the end of the recording. *)
Definition sample_advance : M unit :=
  mci_set (fun s => s <| m_sample_now := m_sample_now s + 1 |>);;
  now ← mci m_sample_now; len ← mci m_sample_len;
  when (now =? len)
    (mci_set (fun s => s <| m_sample_ready := true |> <| m_sample_now := 0 |>
                         <| sample_event := true |>)).

(** One sample written to the buffers. *)
Definition sample_written (f_samp : f32) : M unit :=
  sample_currents;;
  v ← hw mcpwm_vzero; put_vzero (i16 v);;
  cur ← mc_interface_get_tot_current; put_fir (f2i16 (cur * f_of_int 100)%f32);;
  put_f_sw (f2i16 (f_samp / f_of_int 10)%f32);;
  status ← hw (fun d => Z.lor (mcpwm_get_comm_step d) (Z.shiftl (mcpwm_read_hall_phase d) 3));
  put_status (u8 status).

Definition isr_take_sample (f_samp : f32) : M unit :=
  sample_written f_samp;;
  sample_advance;;
  dur ← hw mcpwm_get_last_adc_isr_duration;
  mci_set (fun s => s <| m_last_adc_duration_sample := dur |>).

Definition isr_sampling (f_samp : f32) : M unit :=
  ready ← mci m_sample_ready;
  when (negb ready)
    (mci_set (fun s => s <| isr_a := isr_a s + 1 |>);;
     a ← mci isr_a; int ← mci m_sample_int;
     when (int <=? a)
       (mci_set (fun s => s <| isr_a := 0 |>);;
        isr_take_sample f_samp)).

(** Everything up to the sample collection; returns the sampling frequency. *)
Definition isr_supervise : M f32 :=
  hw_do ledpwm_update_pwm;;
  input_voltage ← hw GET_INPUT_VOLTAGE;
  isr_voltage input_voltage;;
  isr_cycles;;
  isr_callback;;
  current ← mc_interface_get_tot_current_filtered;
  current_in ← mc_interface_get_tot_current_in_filtered;
  isr_sums current current_in;;
  isr_abs_current current;;
  f_samp ← mc_interface_get_sampling_frequency_now;
  isr_counters current current_in f_samp input_voltage;;
  mret f_samp.

Definition mc_interface_mc_timer_isr : M unit :=
  f_samp ← isr_supervise;
  isr_sample_start;;
  isr_sampling f_samp.

Definition mc_interface_adc_inj_int_handler : M unit := motor_do drv_adc_inj_int_handler.

(** ** Threads *)

(** One round of [timer_thread], once per millisecond. *)
Definition timer_thread_step : M unit :=
  fault ← hw IS_DRV_FAULT;
  when fault (mc_interface_fault_stop FAULT_CODE_DRV8302);;
  ignore ← mci m_ignore_iterations;
  (if 0 <? ignore then mci_set (fun s => s <| m_ignore_iterations := m_ignore_iterations s - 1 |>)
   else
     fault ← hw IS_DRV_FAULT;
     when (negb fault) (mci_set (fun s => s <| m_fault_now := FAULT_CODE_NONE |>)));;
  update_override_limits.

Definition sample_at (l : list Z) (i : Z) : M Z :=
  lift_opt (if decide (0 <= i) then l !! Z.to_nat i else None).

(** The 17 bytes of sample [i]. *)
Definition sample_bytes (i : Z) : M (list Z) :=
  c0 ← (l ← mci m_curr0_samples; sample_at l i);
  c1 ← (l ← mci m_curr1_samples; sample_at l i);
  p1 ← (l ← mci m_ph1_samples; sample_at l i);
  p2 ← (l ← mci m_ph2_samples; sample_at l i);
  p3 ← (l ← mci m_ph3_samples; sample_at l i);
  vz ← (l ← mci m_vzero_samples; sample_at l i);
  st ← (l ← mci m_status_samples; sample_at l i);
  fir ← (l ← mci m_curr_fir_samples; sample_at l i);
  fsw ← (l ← mci m_f_sw_samples; sample_at l i);
  mret (be16 c0 ++ be16 c1 ++ be16 p1 ++ be16 p2 ++ be16 p3 ++ be16 vz ++ [u8 st] ++ be16 fir
        ++ be16 fsw).

(** [for (int i = 0; i < m_sample_len; i++)]: the bound is read each time. *)
Fixpoint sample_send_loop (fuel : nat) (i : Z) : M unit :=
  match fuel with
  | O => mret tt
  | S fuel =>
      len ← mci m_sample_len;
      if i <? len then
        bs ← sample_bytes i;
        commands_send_samples bs (Z.of_nat (length bs));;
        sample_send_loop fuel (i + 1)
      else mret tt
  end.

(** One round of [sample_send_thread]; at most 2000 samples are sent. *)
Definition sample_send_step : M unit :=
  ev ← mci sample_event;
  when ev (mci_set (fun s => s <| sample_event := false |>);;
           sample_send_loop (Z.to_nat (ADC_SAMPLE_MAX_LEN + 1)) 0).
End McInterface.
