(* ===== verification/McInterfaceSpec.v ===== *)
(** * McInterfaceSpec: theorems about mc_interface.c *)
From S2P Require Import Prelude Float32 Buffer McTypes Motor Flash Eeprom Utils World Transmit.
From S2P Require Import Transmit McInterface.

(** Run a straight-line computation on a symbolic world. *)
Ltac st_run :=
  repeat (cbv beta iota zeta delta [mbind ST_bind mret ST_ret mci mci_set hw hw_do hw_run sys sys_set
    tmo tmo_set cmd cmd_set can can_set emit st_modify st_get when set_conf setter eta mci_state_eta
    world_eta timeout_state_eta sys_state_eta commands_state_eta can_state_eta]; cbn).

Section Spec.
Context {D F : Type} `{Board D}.
Abbreviation W := (world D F).
Abbreviation M := (ST (world D F)).

(** ** What the world looks like to a command *)

(** The selected driver; none for an unknown motor type. *)
Definition the_driver (c : mc_configuration) : option (driver D) :=
  by_motor (motor_type c) (Some mcpwm) (Some mcpwm_foc) None.

Definition motor_state (w : W) : Z :=
  match the_driver (m_conf (w_mci w)) with
  | Some d => drv_get_state d (w_hw w)
  | None => MC_STATE_OFF
  end.

(** A driver operation applied to the hardware. *)
Definition drive (f : driver D -> mc_configuration -> D -> D) (w : W) : W :=
  match the_driver (m_conf (w_mci w)) with
  | Some d => w <| w_hw := f d (m_conf (w_mci w)) (w_hw w) |>
  | None => w
  end.

Definition with_mci (f : mci_state -> mci_state) (w : W) : W := w <| w_mci := f (w_mci w) |>.

Lemma set_mci_id (w : W) : w <| w_mci := w_mci w |> = w.
Proof. by destruct w. Qed.

Lemma by_motor_cases {A} t (a b c : A) :
  by_motor t a b c = a \/ by_motor t a b c = b \/ by_motor t a b c = c.
Proof. unfold by_motor. destruct (_ || _), (t =? MOTOR_TYPE_FOC); auto. Qed.

Lemma motor_do_run f (w : W) : motor_do f w = Some (tt, drive f w).
Proof.
  unfold motor_do, drive, the_driver, by_motor.
  st_run. destruct (_ || _); [done|]. by destruct (_ =? _).
Qed.

Lemma motor_get_run {A} (dflt : A) f (w : W) :
  motor_get dflt f w =
  Some (match the_driver (m_conf (w_mci w)) with
        | Some d => f d (m_conf (w_mci w)) (w_hw w) | None => dflt end, w).
Proof.
  unfold motor_get, the_driver, by_motor. st_run. destruct (_ || _); [done|]. by destruct (_ =? _).
Qed.

Lemma get_state_run (w : W) : mc_interface_get_state w = Some (motor_state w, w).
Proof. apply motor_get_run. Qed.

(** ** Commands and the lock *)

Inductive mc_command :=
| CmdDuty (x : f32) | CmdDutyNoramp (x : f32) | CmdSpeed (x : f32) | CmdPos (x : f32)
| CmdCurrent (x : f32) | CmdBrake (x : f32).

Definition mc_exec (c : mc_command) : M unit :=
  match c with
  | CmdDuty x => mc_interface_set_duty x
  | CmdDutyNoramp x => mc_interface_set_duty_noramp x
  | CmdSpeed x => mc_interface_set_pid_speed x
  | CmdPos x => mc_interface_set_pid_pos x
  | CmdCurrent x => mc_interface_set_current x
  | CmdBrake x => mc_interface_set_brake_current x
  end.

(** The driver operation behind a command. *)
Definition cmd_op (c : mc_command) (d : driver D) (conf : mc_configuration) : D -> D :=
  match c with
  | CmdDuty x => drv_set_duty d conf x
  | CmdDutyNoramp x => drv_set_duty_noramp d conf x
  | CmdSpeed x => drv_set_pid_speed d conf x
  | CmdPos x => drv_set_pid_pos d conf x
  | CmdCurrent x => drv_set_current d conf x
  | CmdBrake x => drv_set_brake_current d conf x
  end.

Definition note_pos (c : mc_command) (s : mci_state) : mci_state :=
  match c with CmdPos x => s <| m_position_set := x |> | _ => s end.

(** Is a command accepted, and what is left of the lock afterwards? *)
Definition accepts (s : mci_state) : bool :=
  (m_ignore_iterations s =? 0) && (negb (m_lock_enabled s) || m_lock_override_once s).

Definition consume_override (s : mci_state) : mci_state :=
  if m_lock_enabled s then s <| m_lock_override_once := false |> else s.

(** Detection in progress: the command stops it and is itself ignored. *)
Definition stop_detection (w : W) : W :=
  with_mci (fun s => s <| m_ignore_iterations := MCPWM_DETECT_STOP_TIME |>)
    (w <| w_hw := drv_stop_pwm mcpwm (m_conf (w_mci w)) (w_hw w) |>).

Lemma try_input_detecting (w : W) :
  motor_state w = MC_STATE_DETECTING ->
  mc_interface_try_input w = Some (MCPWM_DETECT_STOP_TIME, stop_detection w).
Proof.
  intros Hst. unfold mc_interface_try_input. rewrite (ST_bind_Some _ _ _ _ _ (get_state_run w)), Hst.
  by st_run.
Qed.

Lemma try_input_run (w : W) :
  motor_state w <> MC_STATE_DETECTING -> 0 <= m_ignore_iterations (w_mci w) ->
  exists t, mc_interface_try_input w =
    Some (t, if accepts (w_mci w) then with_mci consume_override w else w) /\
    (t =? 0) = accepts (w_mci w).
Proof.
  intros Hst Hn. unfold mc_interface_try_input.
  rewrite (ST_bind_Some _ _ _ _ _ (get_state_run w)).
  rewrite (proj2 (Z.eqb_neq _ _) Hst). st_run.
  unfold accepts, with_mci, consume_override.
  destruct (Z.eqb_spec (m_ignore_iterations (w_mci w)) 0) as [He|He]; cbn [andb].
  - destruct (m_lock_enabled (w_mci w)) eqn:Hl; cbn [negb orb].
    + destruct (m_lock_override_once (w_mci w)) eqn:Ho; cbn [negb].
      * exists (m_ignore_iterations (w_mci w)). split; [done|]. by apply Z.eqb_eq.
      * by exists 1.
    + exists (m_ignore_iterations (w_mci w)). split; [by rewrite set_mci_id|]. by apply Z.eqb_eq.
  - exists (m_ignore_iterations (w_mci w)). split; [done|].
    by apply Z.eqb_neq.
Qed.

(** The effect of an accepted command. *)
Definition perform (c : mc_command) (w : W) : W :=
  drive (cmd_op c) (with_mci (note_pos c) (with_mci consume_override w)).

Lemma exec_if_input c :
  mc_exec c = if_input (match c with
                        | CmdPos x => mci_set (fun s => s <| m_position_set := x |>);;
                                      motor_do (fun d conf => drv_set_pid_pos d conf x)
                        | _ => motor_do (cmd_op c)
                        end).
Proof. by destruct c. Qed.

Lemma exec_body c (w : W) :
  (match c with
   | CmdPos x => mci_set (fun s => s <| m_position_set := x |>);;
                 motor_do (fun d conf => drv_set_pid_pos d conf x)
   | _ => motor_do (cmd_op c)
   end) w = Some (tt, drive (cmd_op c) (with_mci (note_pos c) w)).
Proof.
  destruct c; unfold with_mci; cbn [note_pos]; rewrite ?set_mci_id; try apply motor_do_run.
Qed.

Lemma exec_spec c (w : W) :
  motor_state w <> MC_STATE_DETECTING -> 0 <= m_ignore_iterations (w_mci w) ->
  mc_exec c w = Some (tt, if accepts (w_mci w) then perform c w else w).
Proof.
  intros Hst Hn. rewrite exec_if_input. unfold if_input.
  destruct (try_input_run w Hst Hn) as (t & Hrun & Ht).
  rewrite (ST_bind_Some _ _ _ _ _ Hrun), Ht.
  destruct (accepts (w_mci w)); [apply exec_body|done].
Qed.

Lemma exec_detecting c (w : W) :
  motor_state w = MC_STATE_DETECTING -> mc_exec c w = Some (tt, stop_detection w).
Proof.
  intros Hst. rewrite exec_if_input. unfold if_input.
  by rewrite (ST_bind_Some _ _ _ _ _ (try_input_detecting w Hst)).
Qed.

(** A list of commands, one after the other. *)
Fixpoint mc_run (cs : list mc_command) : M unit :=
  match cs with
  | [] => mret tt
  | c :: cs => mc_exec c;; mc_run cs
  end.

Lemma refused_run cs (w : W) :
  motor_state w <> MC_STATE_DETECTING -> 0 <= m_ignore_iterations (w_mci w) ->
  accepts (w_mci w) = false -> mc_run cs w = Some (tt, w).
Proof.
  intros Hst Hn Hacc. induction cs as [|c cs IH]; [done|]. cbn [mc_run].
  by rewrite (ST_bind_Some _ _ _ _ _ (exec_spec c w Hst Hn)), Hacc.
Qed.

Lemma drive_mci f (w : W) : w_mci (drive f w) = w_mci w.
Proof. unfold drive. by destruct (the_driver _). Qed.

Lemma perform_mci c (w : W) : w_mci (perform c w) = note_pos c (consume_override (w_mci w)).
Proof. unfold perform. by rewrite drive_mci. Qed.

Lemma consume_conf s : m_conf (consume_override s) = m_conf s.
Proof. unfold consume_override. by destruct (m_lock_enabled s). Qed.

Lemma note_pos_fields c s :
  m_conf (note_pos c s) = m_conf s /\ m_lock_enabled (note_pos c s) = m_lock_enabled s /\
  m_lock_override_once (note_pos c s) = m_lock_override_once s /\
  m_ignore_iterations (note_pos c s) = m_ignore_iterations s.
Proof. by destruct c. Qed.

(** The hardware after an accepted command. *)
Lemma perform_hw c (w : W) :
  w_hw (perform c w) =
  match the_driver (m_conf (w_mci w)) with
  | Some d => cmd_op c d (m_conf (w_mci w)) (w_hw w) | None => w_hw w end.
Proof.
  unfold perform, drive, with_mci. cbn [setter w_mci w_hw].
  destruct (note_pos_fields c (consume_override (w_mci w))) as (Hc & _).
  cbv [setter eta world_eta]; cbn [w_mci w_hw]. rewrite Hc, consume_conf.
  by destruct (the_driver _).
Qed.

(** No command puts a driver that is not detecting into detection. *)
Class CommandsDoNotDetect : Prop :=
  cmd_not_detecting d c conf x :
    d = mcpwm \/ d = mcpwm_foc -> drv_get_state d x <> MC_STATE_DETECTING ->
    drv_get_state d (cmd_op c d conf x) <> MC_STATE_DETECTING.

Lemma the_driver_cases c d : the_driver c = Some d -> d = mcpwm \/ d = mcpwm_foc.
Proof.
  unfold the_driver, by_motor. destruct (_ || _); [intros [= <-]; by left|].
  destruct (_ =? _); [intros [= <-]; by right|done].
Qed.

Lemma perform_not_detecting `{!CommandsDoNotDetect} c (w : W) :
  motor_state w <> MC_STATE_DETECTING -> motor_state (perform c w) <> MC_STATE_DETECTING.
Proof.
  unfold motor_state. rewrite perform_hw, perform_mci.
  destruct (note_pos_fields c (consume_override (w_mci w))) as (-> & _). rewrite consume_conf.
  destruct (the_driver (m_conf (w_mci w))) as [d|] eqn:Hd; [|done].
  apply cmd_not_detecting. by apply (the_driver_cases (m_conf (w_mci w))).
Qed.

(** ** Faults *)

Definition log_ok (w : W) : Prop :=
  Z.of_nat (length (fault_vec w)) = FAULT_VEC_LEN /\ 0 <= fault_vec_write w < FAULT_VEC_LEN.

(** The hardware when the driver is stopped: logging the fault reads the
    tachometer. *)
Definition after_log (w : W) : D :=
  match the_driver (m_conf (w_mci w)) with
  | Some d => if drv_is_dccal_done d (w_hw w) && (m_fault_now (w_mci w) =? FAULT_CODE_NONE)
              then (drv_get_tachometer_value d false (w_hw w)).2 else w_hw w
  | None => w_hw w
  end.

Definition stopped (w : W) : D :=
  match the_driver (m_conf (w_mci w)) with
  | Some d => drv_stop_pwm d (m_conf (w_mci w)) (after_log w)
  | None => after_log w
  end.

Definition faulted (fault : Z) (s : mci_state) : mci_state :=
  s <| m_ignore_iterations := m_fault_stop_time_ms (m_conf s) |> <| m_fault_now := fault |>.

Lemma tacho_run reset (w : W) :
  mc_interface_get_tachometer_value reset w =
  match the_driver (m_conf (w_mci w)) with
  | Some d => let '(v, x) := drv_get_tachometer_value d reset (w_hw w) in Some (v, w <| w_hw := x |>)
  | None => Some (0, w)
  end.
Proof.
  unfold mc_interface_get_tachometer_value, the_driver, by_motor. st_run.
  destruct (_ || _); [done|]. by destruct (_ =? _).
Qed.

Lemma add_fault_run fd (w : W) :
  log_ok w -> exists w', terminal_add_fault_data fd w = Some (tt, w') /\ log_ok w' /\
    w_mci w' = w_mci w /\ w_hw w' = w_hw w.
Proof.
  intros [Hlen Hwr]. unfold terminal_add_fault_data. rewrite decide_True by lia.
  eexists. split; [reflexivity|]. split; [|done]. split; cbv [setter eta world_eta]; cbn.
  - by rewrite length_insert.
  - unfold FAULT_VEC_LEN in *. destruct (Z.leb_spec 25 (fault_vec_write w + 1)); lia.
Qed.

Lemma log_fault_run fault (w : W) :
  log_ok w -> exists w', log_fault fault w = Some (tt, w') /\ log_ok w' /\
    w_mci w' = w_mci w /\
    w_hw w' = match the_driver (m_conf (w_mci w)) with
              | Some d => (drv_get_tachometer_value d false (w_hw w)).2 | None => w_hw w end.
Proof.
  intros Hlog. unfold log_fault, mc_interface_get_tot_current, mc_interface_get_tot_current_filtered,
    mc_interface_get_duty_cycle_now, mc_interface_get_rpm.
  cbv beta delta [mbind ST_bind hw mci].
  repeat (rewrite motor_get_run || (progress cbv beta iota)).
  rewrite tacho_run. destruct (the_driver (m_conf (w_mci w))) as [d|].
  - destruct (drv_get_tachometer_value d false (w_hw w)) as [v x]. cbv beta iota.
    match goal with |- context [terminal_add_fault_data ?fd ?w1] =>
      destruct (add_fault_run fd w1 Hlog) as (w' & -> & Hok & Hm & Hh) end.
    exists w'. by rewrite Hm, Hh.
  - cbv beta iota.
    match goal with |- context [terminal_add_fault_data ?fd ?w1] =>
      destruct (add_fault_run fd w1 Hlog) as (w' & -> & Hok & Hm & Hh) end.
    exists w'. by rewrite Hm, Hh.
Qed.

Lemma fault_stop_spec fault (w : W) :
  log_ok w -> exists w', mc_interface_fault_stop fault w = Some (tt, w') /\ log_ok w' /\
    w_mci w' = faulted fault (w_mci w) /\ w_hw w' = stopped w.
Proof.
  intros Hlog. unfold mc_interface_fault_stop, mc_interface_dccal_done.
  cbv beta delta [mbind ST_bind mci]. rewrite motor_get_run. cbv beta iota.
  assert (Hmid : exists w1,
    when (match the_driver (m_conf (w_mci w)) with
          | Some d => drv_is_dccal_done d (w_hw w) | None => false end
          && (m_fault_now (w_mci w) =? FAULT_CODE_NONE)) (log_fault fault) w = Some (tt, w1) /\
    log_ok w1 /\ w_mci w1 = w_mci w /\ w_hw w1 = after_log w).
  { unfold after_log. destruct (the_driver (m_conf (w_mci w))) as [d|] eqn:Hd; [|by exists w].
    destruct (_ && _); [|by exists w]. destruct (log_fault_run fault w Hlog) as (w1 & Hw1).
    rewrite Hd in Hw1. by exists w1. }
  destruct Hmid as (w1 & -> & Hok & Hm & Hh). cbv beta iota delta [mci_set st_modify].
  rewrite motor_do_run. eexists. split; [reflexivity|]. unfold drive, stopped, faulted.
  rewrite <- Hh, Hm. cbv [setter eta world_eta mci_state_eta]; cbn.
  destruct (the_driver (m_conf (w_mci w))); cbn; by rewrite ?Hm.
Qed.

(** ** The limits that follow temperature and battery voltage *)

(** The configuration without its computed limits. *)
Definition base (c : mc_configuration) : mc_configuration :=
  c <| lo_current_max := f0 |> <| lo_current_min := f0 |>
    <| lo_in_current_max := f0 |> <| lo_in_current_min := f0 |>.

Definition hot (c : mc_configuration) (temp : f32) : bool :=
  negb (temp <? l_temp_fet_start c)%f32 && (temp >? l_temp_fet_end c)%f32.

Definition temperature_limited (c : mc_configuration) (temp : f32) : mc_configuration :=
  if (temp <? l_temp_fet_start c)%f32 then
    c <| lo_current_min := l_current_min c |> <| lo_current_max := l_current_max c |>
  else if (temp >? l_temp_fet_end c)%f32 then c <| lo_current_min := f0 |> <| lo_current_max := f0 |>
  else
    let m := derated c temp in
    let c1 := if (fabs (l_current_max c) >? m)%f32
              then c <| lo_current_max := (SIGN (l_current_max c) * m)%f32 |> else c in
    if (fabs (l_current_min c) >? m)%f32
    then c1 <| lo_current_min := (SIGN (l_current_min c) * m)%f32 |> else c1.

Definition battery_limit (c : mc_configuration) (v_in : f32) : f32 :=
  if (v_in >? l_battery_cut_start c)%f32 then l_in_current_max c
  else if (v_in <? l_battery_cut_end c)%f32 then f0
  else utils_map v_in (l_battery_cut_start c) (l_battery_cut_end c) (l_in_current_max c) f0.

Definition battery_limited (c : mc_configuration) (v_in : f32) : mc_configuration :=
  c <| lo_in_current_max := battery_limit c v_in |> <| lo_in_current_min := l_in_current_min c |>.

Definition limited (c : mc_configuration) (temp v_in : f32) : mc_configuration :=
  battery_limited (temperature_limited c temp) v_in.

Lemma base_temperature c temp : base (temperature_limited c temp) = base c.
Proof.
  unfold temperature_limited. repeat case_match; reflexivity.
Qed.

Lemma base_limited c temp v_in : base (limited c temp v_in) = base c.
Proof. rewrite <- (base_temperature c temp). reflexivity. Qed.

(** Fields outside the computed limits depend on [base] only. *)
Lemma base_field {A} (f : mc_configuration -> A) c c' :
  (forall c, f c = f (base c)) -> base c = base c' -> f c = f c'.
Proof. intros Hf Hb. by rewrite (Hf c), (Hf c'), Hb. Qed.

Lemma base_motor_type c c' : base c = base c' -> motor_type c = motor_type c'.
Proof. by apply base_field. Qed.

Lemma base_hot c c' temp : base c = base c' -> hot c temp = hot c' temp.
Proof. by apply (base_field (fun c => hot c temp)). Qed.

Lemma base_driver c c' : base c = base c' -> the_driver c = the_driver c'.
Proof. by apply base_field. Qed.

Definition with_conf (f : mc_configuration -> mc_configuration) (s : mci_state) : mci_state :=
  s <| m_conf := f (m_conf s) |>.

Lemma temperature_limits_run (w : W) :
  let temp := NTC_TEMP (w_hw w) ADC_IND_TEMP_MOS2 in
  update_temperature_limits w =
  (if hot (m_conf (w_mci w)) temp then
     mc_interface_fault_stop FAULT_CODE_OVER_TEMP_FET
       (with_mci (with_conf (fun c => temperature_limited c temp)) w)
   else Some (tt, with_mci (with_conf (fun c => temperature_limited c temp)) w)).
Proof.
  cbv zeta. unfold update_temperature_limits.
  cbv beta iota delta [mbind ST_bind hw mci]. unfold hot, with_mci, with_conf, temperature_limited.
  set (temp := NTC_TEMP (w_hw w) ADC_IND_TEMP_MOS2). set (c := m_conf (w_mci w)).
  destruct (temp <? l_temp_fet_start c)%f32 eqn:H1; cbn [negb andb].
  { unfold set_conf, mci_set, st_modify. fold c. by rewrite ?H1. }
  destruct (fltb (l_temp_fet_end c) temp) eqn:H2.
  { unfold set_conf, mci_set, st_modify. fold c. by rewrite ?H1, ?H2. }
  unfold when, set_conf, mci_set, st_modify. fold c. rewrite ?H1, ?H2.
  destruct (fltb (derated c temp) (fabs (l_current_max c))) eqn:H3;
    destruct (fltb (derated c temp) (fabs (l_current_min c))) eqn:H4; try reflexivity.
  cbn. by destruct w as [[]].
Qed.

Lemma battery_limits_run v_in (w : W) :
  update_battery_limits v_in w =
  Some (tt, with_mci (with_conf (fun c => battery_limited c v_in)) w).
Proof. reflexivity. Qed.

Lemma update_limits_run (w : W) :
  let temp := NTC_TEMP (w_hw w) ADC_IND_TEMP_MOS2 in
  let v_in := GET_INPUT_VOLTAGE (w_hw w) in
  hot (m_conf (w_mci w)) temp = false ->
  update_override_limits w = Some (tt, with_mci (with_conf (fun c => limited c temp v_in)) w).
Proof.
  cbv zeta. intros Hh. unfold update_override_limits.
  cbv beta iota delta [mbind ST_bind hw]. rewrite temperature_limits_run, Hh. cbv beta iota.
  by rewrite battery_limits_run.
Qed.

(** ** Ticks of the timer thread *)

(** The board reports no driver fault and is not too hot. *)
Definition calm (c : mc_configuration) (d : D) : Prop :=
  IS_DRV_FAULT d = false /\ hot c (NTC_TEMP d ADC_IND_TEMP_MOS2) = false.

Definition count_down (s : mci_state) : mci_state :=
  if 0 <? m_ignore_iterations s then s <| m_ignore_iterations := m_ignore_iterations s - 1 |>
  else s <| m_fault_now := FAULT_CODE_NONE |>.

Lemma timer_step_calm (w : W) :
  calm (m_conf (w_mci w)) (w_hw w) ->
  timer_thread_step w = Some (tt, with_mci
    (fun s => with_conf (fun c => limited c (NTC_TEMP (w_hw w) ADC_IND_TEMP_MOS2)
                                    (GET_INPUT_VOLTAGE (w_hw w))) (count_down s)) w).
Proof.
  intros [Hf Hh]. unfold timer_thread_step.
  cbv beta iota delta [mbind ST_bind hw mci]. rewrite Hf. cbn [when mret ST_ret negb].
  unfold count_down. destruct (0 <? m_ignore_iterations (w_mci w)) eqn:Hi;
    cbv beta iota delta [when mci_set st_modify hw]; rewrite ?Hf; cbv beta iota delta [negb mci_set st_modify];
    rewrite update_limits_run by exact Hh; unfold with_mci; cbv beta; rewrite ?Hi; reflexivity.
Qed.

Fixpoint ticks (n : nat) : M unit :=
  match n with O => mret tt | S n => timer_thread_step;; ticks n end.

(** The state after [n] calm ticks, up to the computed limits. *)
Record ticked (n : nat) (s s' : mci_state) : Prop := {
  tk_base : base (m_conf s') = base (m_conf s);
  tk_lock : m_lock_enabled s' = m_lock_enabled s;
  tk_over : m_lock_override_once s' = m_lock_override_once s;
  tk_ign : m_ignore_iterations s' = Z.max 0 (m_ignore_iterations s - Z.of_nat n);
  tk_fault : m_fault_now s' =
    if decide (Z.of_nat n <= m_ignore_iterations s) then m_fault_now s else FAULT_CODE_NONE
}.

Lemma ticks_calm n (w : W) :
  calm (m_conf (w_mci w)) (w_hw w) -> 0 <= m_ignore_iterations (w_mci w) ->
  exists w', ticks n w = Some (tt, w') /\ w_hw w' = w_hw w /\ ticked n (w_mci w) (w_mci w').
Proof.
  revert w. induction n as [|n IH]; intros w Hc Hi.
  - exists w. split; [done|]. split; [done|]. split; try done; [lia|].
    by rewrite decide_True by lia.
  - cbn [ticks]. rewrite (ST_bind_Some _ _ _ _ _ (timer_step_calm w Hc)).
    set (temp := NTC_TEMP _ _). set (v := GET_INPUT_VOLTAGE _).
    set (w1 := with_mci _ w).
    assert (Hb : base (m_conf (w_mci w1)) = base (m_conf (w_mci w))).
    { unfold w1, with_mci, with_conf, count_down. cbv [setter eta world_eta mci_state_eta]; cbn.
      rewrite base_limited. by destruct (0 <? _). }
    assert (Hs : m_lock_enabled (w_mci w1) = m_lock_enabled (w_mci w) /\
      m_lock_override_once (w_mci w1) = m_lock_override_once (w_mci w) /\
      m_ignore_iterations (w_mci w1) = Z.max 0 (m_ignore_iterations (w_mci w) - 1) /\
      m_fault_now (w_mci w1) =
        if 0 <? m_ignore_iterations (w_mci w) then m_fault_now (w_mci w) else FAULT_CODE_NONE).
    { unfold w1, with_mci, with_conf, count_down. cbv [setter eta world_eta mci_state_eta]; cbn.
      destruct (Z.ltb_spec 0 (m_ignore_iterations (w_mci w))); cbn; split_and!; try done; lia. }
    destruct Hs as (Hs1 & Hs2 & Hs3 & Hs4).
    destruct (IH w1) as (w' & Hrun & Hhw & [Tb Tl To Ti Tf]).
    { destruct Hc as [Hc1 Hc2]. split; [done|]. by rewrite (base_hot _ _ _ Hb). }
    { lia. }
    exists w'. split; [done|]. split; [done|]. split; try congruence; [lia|].
    rewrite Tf, Hs3, Hs4. destruct (Z.ltb_spec 0 (m_ignore_iterations (w_mci w)));
      repeat case_decide; try done; lia.
Qed.

(** A driver that has been told to stop is not detecting: mcpwm.c is off then
    (mcpwm.c:840), mcpwm_foc.c off or, without a minimum current, running
    (mcpwm_foc.c:460). *)
Class StopEndsDetection : Prop :=
  stop_ends_detection d c x :
    d = mcpwm \/ d = mcpwm_foc -> drv_get_state d (drv_stop_pwm d c x) <> MC_STATE_DETECTING.

Lemma stopped_not_detecting `{!StopEndsDetection} (w w' : W) :
  w_hw w' = stopped w -> the_driver (m_conf (w_mci w')) = the_driver (m_conf (w_mci w)) ->
  motor_state w' <> MC_STATE_DETECTING.
Proof.
  intros Hhw Hd. unfold motor_state. rewrite Hhw, Hd. unfold stopped.
  destruct (the_driver (m_conf (w_mci w))) as [d|] eqn:E; [|done].
  apply stop_ends_detection. by apply (the_driver_cases (m_conf (w_mci w))).
Qed.
End Spec.
