(* ===== verification/BoardSim.v ===== *)
(** * BoardSim: a concrete board, for witnesses

    Both drivers log the calls made to them; sensors read what the record
    says.  [logf] is instantiated by 0, so that the NTC formula gives the
    constant 25 degrees unless [sim_cold] changes the reading. *)
From S2P Require Import Prelude Float32 McTypes Motor Flash Eeprom World McInterface.
From S2P Require Import McInterfaceSpec.

(** A driver call: which driver, which operation, its argument. *)
Inductive call :=
| CInit | CDeinit | CSetConf | CDuty (x : f32) | CDutyNoramp (x : f32) | CSpeed (x : f32)
| CPos (x : f32) | CCurrent (x : f32) | CBrake (x : f32) | CStop | CEncoder | CDetect.

Record sim := mkSim {
  sim_calls : list (bool * call);
  sim_state : Z;
  sim_vin : Z;
  sim_drv_fault : bool;
  sim_step : Z;
  sim_rpm : Z;
  sim_time : Z;
  sim_ext : Z
}.
#[export] Instance sim_eta : Eta sim := fun s =>
  mkSim (sim_calls s) (sim_state s) (sim_vin s) (sim_drv_fault s) (sim_step s)
    (sim_rpm s) (sim_time s) (sim_ext s).

Definition log_call (foc : bool) (c : call) (s : sim) : sim :=
  s <| sim_calls := sim_calls s ++ [(foc, c)] |>.
Definition run_call (foc : bool) (c : call) (s : sim) : sim :=
  log_call foc c s <| sim_state := MC_STATE_RUNNING |>.
Definition off_call (foc : bool) (c : call) (s : sim) : sim :=
  log_call foc c s <| sim_state := MC_STATE_OFF |>.

Definition sim_driver (foc : bool) : driver sim := {|
  drv_init _ := off_call foc CInit;
  drv_deinit _ := off_call foc CDeinit;
  drv_set_configuration _ := log_call foc CSetConf;
  drv_is_dccal_done _ := true;
  drv_get_state := sim_state;
  drv_set_duty _ x := run_call foc (CDuty x);
  drv_set_duty_noramp _ x := run_call foc (CDutyNoramp x);
  drv_set_pid_speed _ x := run_call foc (CSpeed x);
  drv_set_pid_pos _ x := run_call foc (CPos x);
  drv_set_current _ x := run_call foc (CCurrent x);
  drv_set_brake_current _ x := run_call foc (CBrake x);
  drv_stop_pwm _ := off_call foc CStop;
  drv_get_duty_cycle_set _ _ := f0;
  drv_get_duty_cycle_now _ _ := f0;
  drv_get_switching_frequency_now _ _ := f_of_int 20000;
  drv_get_rpm _ s := f_of_int (sim_rpm s);
  drv_get_tot_current _ _ := f0;
  drv_get_tot_current_filtered _ _ := f0;
  drv_get_tot_current_directional _ _ := f0;
  drv_get_tot_current_directional_filtered _ _ := f0;
  drv_get_tot_current_in _ _ := f0;
  drv_get_tot_current_in_filtered _ _ := f0;
  drv_get_tachometer_value _ s := (0, s);
  drv_get_tachometer_abs_value _ s := (0, s);
  drv_get_last_inj_adc_isr_duration _ := f0;
  drv_adc_inj_int_handler _ s := s
|}.

#[export] Instance sim_board : Board sim := {|
  mcpwm := sim_driver false;
  mcpwm_foc := sim_driver true;
  mcpwm_get_comm_step s := 1 + sim_step s mod 6;
  mcpwm_read_hall_phase _ := 0;
  mcpwm_get_last_adc_isr_duration _ := f0;
  mcpwm_detect_currents _ := replicate 6 f0;
  mcpwm_detect_currents_diff _ := replicate 6 f0;
  mcpwm_detect_voltages _ := replicate 6 f0;
  mcpwm_vzero _ := 0;
  mcpwm_set_detect _ s := log_call false CDetect s <| sim_state := MC_STATE_DETECTING |>;
  mcpwm_reset_hall_detect_table s := s;
  mcpwm_get_hall_detect_result s := ((0, replicate 8 0), s);
  mcpwm_read_reset_avg_cycle_integrator s := (f0, s);
  mcpwm_foc_get_abs_motor_current _ _ := f0;
  mcpwm_foc_get_abs_motor_current_filtered _ _ := f0;
  mcpwm_foc_get_pid_pos_now _ := f0;
  mcpwm_foc_measure_res_ind c s := ((true, f0, f0), c, s);
  mcpwm_foc_encoder_detect c _ _ s := ((f0, f0, false), c, s);
  mcpwm_foc_hall_detect c _ s := ((true, replicate 8 0), c, s);
  encoder_deinit := log_call false CEncoder;
  encoder_init_abi _ := log_call false CEncoder;
  encoder_init_as5047p_spi := log_call false CEncoder;
  encoder_set_counts _ := log_call false CEncoder;
  encoder_is_configured _ := false;
  encoder_read_deg _ := f0;
  ADC_Value s ch := if ch =? ADC_IND_VIN_SENS then sim_vin s
                   else if ch =? ADC_IND_EXT then sim_ext s else 2047;
  ADC_curr_norm_value _ _ := 0;
  IS_DRV_FAULT := sim_drv_fault;
  TIM8_CCR1 _ := 0;
  TIM1_CCR4 _ := 0;
  TIM1_ARR _ := 0;
  ledpwm_update_pwm s := s;
  pwm_callback _ s := s;
  chVTGetSystemTime := sim_time;
  logf _ := f0
|}.

#[export] Instance sim_commands : CommandsDoNotDetect (D := sim).
Proof. by intros d c conf x [-> | ->] _; destruct c. Qed.

#[export] Instance sim_stop : StopEndsDetection (D := sim).
Proof. by intros d c x [-> | ->]. Qed.

(** ** A world *)

Definition sim_conf : mc_configuration := {|
  pwm_mode := 1; comm_mode := 0; motor_type := MOTOR_TYPE_BLDC; sensor_mode := 0;
  l_current_max := f_of_int 60; l_current_min := f_of_int (-60); l_in_current_max := f_of_int 60;
  l_in_current_min := f_of_int (-40); l_abs_current_max := f_of_int 130;
  l_min_erpm := f_of_int (-100000); l_max_erpm := f_of_int 100000;
  l_max_erpm_fbrake := f_of_int 300; l_max_erpm_fbrake_cc := f_of_int 1500;
  l_min_vin := f_of_int 8; l_max_vin := f_of_int 57; l_battery_cut_start := f_of_int 10;
  l_battery_cut_end := f_of_int 8; l_slow_abs_current := false; l_rpm_lim_neg_torque := true;
  l_temp_fet_start := f_of_int 80; l_temp_fet_end := f_of_int 100;
  l_temp_motor_start := f_of_int 80; l_temp_motor_end := f_of_int 100;
  l_min_duty := f0; l_max_duty := f1;
  lo_current_max := f_of_int 60; lo_current_min := f_of_int (-60);
  lo_in_current_max := f_of_int 60; lo_in_current_min := f_of_int (-40);
  sl_min_erpm := f_of_int 150; sl_min_erpm_cycle_int_limit := f_of_int 1100;
  sl_max_fullbreak_current_dir_change := f_of_int 10; sl_cycle_int_limit := f_of_int 62;
  sl_phase_advance_at_br := f1; sl_cycle_int_rpm_br := f_of_int 80000;
  sl_bemf_coupling_k := f_of_int 600;
  hall_table := [-1; 1; 3; 2; 5; 6; 4; -1]; hall_sl_erpm := f_of_int 2000;
  foc_current_kp := f0; foc_current_ki := f_of_int 50; foc_f_sw := f_of_int 20000; foc_dt_us := f0;
  foc_encoder_offset := f_of_int 180; foc_encoder_inverted := false; foc_encoder_ratio := f_of_int 7;
  foc_motor_l := f0; foc_motor_r := f0; foc_motor_flux_linkage := f0; foc_observer_gain := f0;
  foc_pll_kp := f_of_int 2000; foc_pll_ki := f_of_int 40000; foc_duty_dowmramp_kp := f_of_int 10;
  foc_duty_dowmramp_ki := f_of_int 200; foc_openloop_rpm := f_of_int 400;
  foc_sl_openloop_hyst := f0; foc_sl_openloop_time := f0; foc_sl_d_current_duty := f0;
  foc_sl_d_current_factor := f0; foc_sensor_mode := 0;
  foc_hall_table := [255; 255; 255; 255; 255; 255; 255; 255]; foc_sl_erpm := f_of_int 2500;
  s_pid_kp := f0; s_pid_ki := f0; s_pid_kd := f0; s_pid_min_erpm := f_of_int 900;
  p_pid_kp := f0; p_pid_ki := f0; p_pid_kd := f0; p_pid_ang_div := f1;
  cc_startup_boost_duty := f0; cc_min_current := f1; cc_gain := f0; cc_ramp_step_max := f0;
  m_fault_stop_time_ms := 3; m_duty_ramp_step := f0; m_duty_ramp_step_rpm_lim := f0;
  m_current_backoff_gain := f0; m_encoder_counts := 8192; m_sensor_port_mode := 0 |}.

Definition sim_appconf : app_configuration := {|
  controller_id := 7; timeout_msec := 1000; timeout_brake_current := f0; send_can_status := false;
  send_can_status_rate_hz := 500; app_to_use := APP_UART;
  app_ppm_conf := {| ppm_ctrl_type := 0; ppm_pid_max_erpm := f_of_int 15000; ppm_hyst := f0;
    ppm_pulse_start := f1; ppm_pulse_end := f_of_int 2; ppm_median_filter := false;
    ppm_safe_start := true; ppm_rpm_lim_start := f_of_int 150000; ppm_rpm_lim_end := f_of_int 200000;
    ppm_multi_esc := false; ppm_tc := false; ppm_tc_max_diff := f_of_int 3000 |};
  app_adc_conf := {| adc_ctrl_type := 0; adc_hyst := f0; adc_voltage_start := f1;
    adc_voltage_end := f_of_int 3; adc_use_filter := true; adc_safe_start := true;
    adc_cc_button_inverted := false; adc_rev_button_inverted := false; adc_voltage_inverted := false;
    adc_rpm_lim_start := f_of_int 150000; adc_rpm_lim_end := f_of_int 200000; adc_multi_esc := false;
    adc_tc := false; adc_tc_max_diff := f_of_int 3000; adc_update_rate_hz := 500 |};
  app_uart_baudrate := 115200;
  app_chuk_conf := {| chuk_ctrl_type := 1; chuk_hyst := f0; chuk_rpm_lim_start := f_of_int 150000;
    chuk_rpm_lim_end := f_of_int 250000; chuk_ramp_time_pos := f1; chuk_ramp_time_neg := f1;
    chuk_stick_erpm_per_s_in_cc := f_of_int 3000; chuk_multi_esc := false; chuk_tc := false;
    chuk_tc_max_diff := f_of_int 3000 |};
  app_nrf_conf := {| nrf_speed := 1; nrf_power := 3; nrf_crc_type := 1; nrf_retry_delay := 0;
    nrf_retries := 3; nrf_channel := 76; nrf_address := [198; 199; 0]; nrf_send_crc_ack := true |} |}.

Definition sim_fault : fault_data := mk_fault_data 0 f0 f0 f0 f0 f0 0 0 0 0 0 0 f0.

Definition samples0 : list Z := replicate 2000 0.

Definition sim_mci : mci_state := {|
  m_conf := sim_conf; m_fault_now := FAULT_CODE_NONE; m_ignore_iterations := 0;
  m_cycles_running := 0; m_lock_enabled := false; m_lock_override_once := false;
  m_motor_current_sum := f0; m_input_current_sum := f0; m_motor_current_iterations := f0;
  m_input_current_iterations := f0; m_amp_seconds := f0; m_amp_seconds_charged := f0;
  m_watt_seconds := f0; m_watt_seconds_charged := f0; m_position_set := f0;
  m_curr0_samples := samples0; m_curr1_samples := samples0; m_ph1_samples := samples0;
  m_ph2_samples := samples0; m_ph3_samples := samples0; m_vzero_samples := samples0;
  m_status_samples := samples0; m_curr_fir_samples := samples0; m_f_sw_samples := samples0;
  m_sample_len := 1000; m_sample_int := 1; m_sample_ready := true; m_sample_now := 0;
  m_sample_at_start := false; m_start_comm := 0; m_last_adc_duration_sample := f0;
  pwn_done_func := None; wrong_voltage_iterations := 0; curr_diff_sum := f0;
  curr_diff_samples := f0; isr_a := 0; sample_event := false |}.

Definition sim_status : can_status_msg := mk_can_status_msg (-1) 0 f0 f0 f0.

(** A motor of the given type, an erased flash, 30 V input voltage. *)
Definition sim_world (mt : Z) : world sim flash_mem := {|
  w_mci := sim_mci <| m_conf := sim_conf <| motor_type := mt |> |>;
  w_tmo := mkTimeout 1000 0 f0 false;
  w_cmd := mkCommands (replicate 1024 0) f0 f0 f0 f0 f0 (replicate 8 0) 0 (Some SendUsb) None 0 false;
  w_can := mkCan (replicate 10 sim_status) (replicate 1024 0) 0
             (replicate 100 (mkFrame true 0 0 (replicate 8 0))) 0 0;
  w_sys := mkSys 0 false true;
  appconf := sim_appconf;
  w_ee := mkEE (FlashMem (fun _ => 255)) 0;
  VirtAddVarTab := [];
  fault_vec := replicate 25 sim_fault;
  fault_vec_write := 0;
  w_out := [];
  w_hw := mkSim [] MC_STATE_OFF 1988 false 1 0 0 0 |}.
