(* ===== verification/McInterfaceSafe.v ===== *)
(** * McInterfaceSafe: mc_interface.c stays inside its arrays

    In the logic of Safe.v: the invariant of the interrupt handler covers the
    nine sample buffers and the fault log. *)
From S2P Require Import Safe Prelude Float32 Buffer McTypes Motor Flash Eeprom Utils World Transmit.
From S2P Require Import Transmit McInterface McInterfaceSpec BoardSim.

Section Isr.
Context {D F : Type} `{Board D}.
Abbreviation W := (world D F).
Abbreviation M := (ST (world D F)).

(** The nine sample buffers have their declared length. *)
Definition samples_sized (s : mci_state) : Prop :=
  Forall (fun l => Z.of_nat (length l) = ADC_SAMPLE_MAX_LEN)
    [m_curr0_samples s; m_curr1_samples s; m_ph1_samples s; m_ph2_samples s; m_ph3_samples s;
     m_vzero_samples s; m_status_samples s; m_curr_fir_samples s; m_f_sw_samples s].

(** The variables of the recording: at start, ready, length, decimation, next
    index, decimation counter. *)
Definition window : Type := bool * bool * Z * Z * Z * Z.
Definition recording (s : mci_state) : window :=
  (m_sample_at_start s, m_sample_ready s, m_sample_len s, m_sample_int s, m_sample_now s, isr_a s).

(** A predicate on the recording, with sized buffers and a sound fault log. *)
Definition rec_ok (R : window -> Prop) (w : W) : Prop :=
  (samples_sized (w_mci w) /\ R (recording (w_mci w))) /\ log_ok w.

(** The invariant of sampling: the next sample goes inside the buffers. *)
Definition inside (r : window) : Prop :=
  let '(_, _, len, _, now, _) := r in 0 < len <= ADC_SAMPLE_MAX_LEN /\ 0 <= now < len.

Definition isr_ok : W -> Prop := rec_ok inside.

(** The comm step indexes the detection arrays of mcpwm.c. *)
Class DetectArrays : Prop := {
  detect_currents_6 d : length (mcpwm_detect_currents d) = 6%nat;
  detect_currents_diff_6 d : length (mcpwm_detect_currents_diff d) = 6%nat;
  detect_voltages_6 d : length (mcpwm_detect_voltages d) = 6%nat;
  comm_step_range d : 1 <= mcpwm_get_comm_step d <= 6
}.

Section Recording.
Context (R : window -> Prop).
Abbreviation safe := (safe (rec_ok R)).

Lemma safe_mci {A} (f : mci_state -> A) : safe (mci f).
Proof. intros w Hw. by exists (f (w_mci w)), w. Qed.

Lemma safe_hw {A} (f : D -> A) : safe (hw f).
Proof. intros w Hw. by exists (f (w_hw w)), w. Qed.

Lemma safe_hw_do f : safe (hw_do f).
Proof. by apply safe_modify. Qed.

Lemma safe_motor_do f : safe (motor_do f).
Proof.
  intros w [Hs Hl]. rewrite motor_do_run. exists tt, (drive f w). split; [done|].
  split; [by rewrite drive_mci|]. unfold drive. by destruct (the_driver _).
Qed.

Lemma safe_motor_get {A} (dflt : A) f : safe (motor_get dflt f).
Proof. intros w Hw. rewrite motor_get_run. by eexists _, w. Qed.

Lemma safe_fault_stop fault : safe (mc_interface_fault_stop fault).
Proof.
  intros w [Hs Hl]. destruct (fault_stop_spec fault w Hl) as (w' & Hrun & Hl' & Hm & _).
  exists tt, w'. split; [done|]. split; [|done]. by rewrite Hm.
Qed.

(** Updates that leave the buffers and the recording alone. *)
Lemma safe_mci_set f :
  (forall s, samples_sized s -> samples_sized (f s)) -> (forall s, recording (f s) = recording s) ->
  safe (mci_set f).
Proof.
  intros Hz Hr. apply safe_modify. intros w [[Hs Hw] Hl]. split; [|done]. split; [by apply Hz|].
  change (w_mci (setter (proj := w_mci) (fun _ => f (w_mci w)) w)) with (f (w_mci w)). by rewrite Hr.
Qed.

Lemma safe_when b (m : M unit) : safe m -> safe (when b m).
Proof. intros Hm. apply safe_if; [done|apply safe_ret]. Qed.

Create HintDb safe.
Hint Resolve safe_ret safe_mci safe_hw safe_hw_do safe_motor_do safe_motor_get safe_fault_stop : safe.

Ltac safe :=
  repeat first
    [ solve [eauto with safe]
    | apply safe_bind; [|intros ?]
    | apply safe_when
    | apply safe_mci_set; [by intros ?|by intros ?]
    | apply safe_if
    | progress cbv zeta ].

Lemma safe_isr_voltage v : safe (isr_voltage v).
Proof. unfold isr_voltage. safe. Qed.

Lemma safe_isr_cycles : safe isr_cycles.
Proof. unfold isr_cycles, mc_interface_get_state. safe. Qed.

Lemma safe_isr_callback : safe isr_callback.
Proof. unfold isr_callback. apply safe_bind; [safe|]. intros []; safe. Qed.

Lemma safe_isr_sums c ci : safe (isr_sums c ci).
Proof. unfold isr_sums. safe. Qed.

Lemma safe_isr_abs_current c : safe (isr_abs_current c).
Proof. unfold isr_abs_current, mc_interface_get_tot_current. safe. Qed.

Lemma safe_isr_counters c ci f v : safe (isr_counters c ci f v).
Proof. unfold isr_counters. safe. Qed.

Lemma safe_supervise : safe isr_supervise.
Proof.
  unfold isr_supervise, mc_interface_get_tot_current_filtered,
    mc_interface_get_tot_current_in_filtered, mc_interface_get_sampling_frequency_now, by_motor.
  pose proof safe_isr_voltage. pose proof safe_isr_cycles. pose proof safe_isr_callback.
  pose proof safe_isr_sums. pose proof safe_isr_abs_current. pose proof safe_isr_counters. safe.
Qed.

(** From here on the next index is inside the buffers. *)
Context (HR : forall s, R (recording s) -> 0 <= m_sample_now s < ADC_SAMPLE_MAX_LEN).

(** Storing a sample: the index is inside, the buffer keeps its length. *)
Lemma safe_put get set v :
  (forall s, samples_sized s -> Z.of_nat (length (get s)) = ADC_SAMPLE_MAX_LEN) ->
  (forall s l, Z.of_nat (length l) = ADC_SAMPLE_MAX_LEN -> samples_sized s -> samples_sized (set l s)) ->
  (forall s l, recording (set l s) = recording s) ->
  safe (put_sample get set v).
Proof.
  intros Hget Hset Hrec w [[Hz Hr] Hl].
  unfold put_sample, arr_set. pose proof (HR _ Hr). rewrite Hget, decide_True by (done || lia).
  eexists tt, _. split; [reflexivity|]. split; [|done].
  match goal with |- context [w_mci ?x] => change (w_mci x) with
    (set (<[Z.to_nat (m_sample_now (w_mci w)) := v]> (get (w_mci w))) (w_mci w)) end.
  rewrite Hrec. split; [|done]. apply Hset; [|done]. rewrite length_insert. by apply Hget.
Qed.

Ltac put :=
  apply safe_put;
    [intros s Hz; unfold samples_sized in Hz;
     repeat match goal with Hz : Forall _ (_ :: _) |- _ => inversion_clear Hz end; assumption
    |intros s l Hl Hz; unfold samples_sized in *; cbn;
     repeat match goal with Hz : Forall _ (_ :: _) |- _ => inversion_clear Hz end;
     repeat constructor; assumption
    |done].

Lemma safe_put_curr0 v : safe (put_curr0 v).
Proof. put. Qed.
Lemma safe_put_curr1 v : safe (put_curr1 v).
Proof. put. Qed.
Lemma safe_put_ph1 v : safe (put_ph1 v).
Proof. put. Qed.
Lemma safe_put_ph2 v : safe (put_ph2 v).
Proof. put. Qed.
Lemma safe_put_ph3 v : safe (put_ph3 v).
Proof. put. Qed.
Lemma safe_put_vzero v : safe (put_vzero v).
Proof. put. Qed.
Lemma safe_put_status v : safe (put_status v).
Proof. put. Qed.
Lemma safe_put_fir v : safe (put_fir v).
Proof. put. Qed.
Lemma safe_put_f_sw v : safe (put_f_sw v).
Proof. put. Qed.

Hint Resolve safe_put_curr0 safe_put_curr1 safe_put_ph1 safe_put_ph2 safe_put_ph3 safe_put_vzero
  safe_put_status safe_put_fir safe_put_f_sw safe_isr_voltage safe_isr_cycles safe_isr_callback
  safe_isr_sums safe_isr_abs_current safe_isr_counters : safe.

(** Reading the hardware, with a fact about what was read. *)
Lemma safe_hw_bind {A B} (Q : A -> Prop) (f : D -> A) (k : A -> M B) :
  (forall d, Q (f d)) -> (forall a, Q a -> safe (k a)) -> safe (mbind k (hw f)).
Proof. intros Hf Hk w Hw. exact (Hk _ (Hf (w_hw w)) w Hw). Qed.

Lemma safe_float_at l i : 0 <= i < Z.of_nat (length l) -> safe (float_at l i).
Proof.
  intros Hi w Hw. unfold float_at, lift_opt. rewrite decide_True by lia.
  destruct (lookup_lt_is_Some_2 l (Z.to_nat i)) as [x Hx]; [lia|]. rewrite Hx. by exists x, w.
Qed.

Lemma safe_sample_currents `{!DetectArrays} : safe sample_currents.
Proof.
  unfold sample_currents. apply safe_bind; [apply safe_motor_get|intros st].
  apply safe_if; [|safe].
  apply (safe_hw_bind (fun n => 1 <= n <= 6)); [apply comm_step_range|intros step Hstep].
  apply (safe_hw_bind (fun l => length l = 6%nat)); [apply detect_currents_6|intros c Hc].
  apply safe_bind; [apply safe_float_at; lia|intros v].
  apply safe_bind; [safe|intros _].
  apply (safe_hw_bind (fun l => length l = 6%nat)); [apply detect_currents_diff_6|intros c' Hc'].
  apply safe_bind; [apply safe_float_at; lia|intros v'].
  apply safe_bind; [safe|intros _].
  apply (safe_hw_bind (fun l => length l = 6%nat)); [apply detect_voltages_6|intros vs Hvs].
  repeat first [apply safe_float_at; lia | apply safe_bind; [|intros ?] | solve [eauto with safe]].
Qed.

Lemma safe_sample_written `{!DetectArrays} f : safe (sample_written f).
Proof.
  unfold sample_written, mc_interface_get_tot_current. pose proof safe_sample_currents. safe.
Qed.
End Recording.

(** ** One interrupt, step by step *)

Lemma inside_now s : inside (recording s) -> 0 <= m_sample_now s < ADC_SAMPLE_MAX_LEN.
Proof. unfold inside, recording. lia. Qed.

Lemma safe_sample_start : safe isr_ok isr_sample_start.
Proof.
  unfold isr_sample_start, mc_interface_get_state.
  apply safe_bind; [apply safe_mci|intros at_start]. apply safe_when.
  apply safe_bind; [apply safe_motor_get|intros st]. apply safe_bind; [apply safe_mci|intros c].
  apply safe_bind; [apply safe_hw|intros step]. apply safe_when, safe_modify.
  intros w [[Hz Hr] Hl]. split; [|done]. split; [done|]. unfold inside, recording in *. cbn. lia.
Qed.

(** The index advances; a recording that is full starts over. *)
Lemma advance_run (w : W) :
  sample_advance w = Some (tt, with_mci (fun s =>
    let s := s <| m_sample_now := m_sample_now s + 1 |> in
    if m_sample_now s =? m_sample_len s
    then s <| m_sample_ready := true |> <| m_sample_now := 0 |> <| sample_event := true |>
    else s) w).
Proof.
  unfold sample_advance, when. cbv beta iota delta [mbind ST_bind mci mci_set st_modify].
  unfold with_mci. cbv zeta. 
  match goal with |- context [Z.eqb ?a ?b] => destruct (Z.eqb a b) eqn:He end; cbn in He |- *;
    by rewrite He.
Qed.

Lemma safe_take_sample `{!DetectArrays} f : safe isr_ok (isr_take_sample f).
Proof.
  unfold isr_take_sample. apply safe_bind; [apply safe_sample_written; [exact inside_now|done]|intros _].
  apply safe_bind; [|intros _].
  - intros w [[Hz Hr] Hl]. rewrite advance_run. eexists tt, _. split; [reflexivity|].
    split; [|done]. unfold inside, recording in Hr |- *. cbn.
    destruct (Z.eqb_spec (m_sample_now (w_mci w) + 1) (m_sample_len (w_mci w))); (split; [done|]); cbn; lia.
  - apply safe_bind; [apply safe_hw|intros d]. by apply safe_mci_set.
Qed.

(** The interrupt handler never leaves its buffers, and the next
    index stays inside the recording. *)
Theorem mc_timer_isr_safe `{!DetectArrays} (w : W) :
  isr_ok w -> exists w', mc_interface_mc_timer_isr w = Some (tt, w') /\ isr_ok w'.
Proof.
  intros Hw. assert (Hs : safe isr_ok mc_interface_mc_timer_isr).
  { unfold mc_interface_mc_timer_isr. apply safe_bind; [apply safe_supervise|intros f].
    apply safe_bind; [apply safe_sample_start|intros _].
    unfold isr_sampling. apply safe_bind; [apply safe_mci|intros r]. apply safe_when.
    apply safe_bind; [by apply safe_modify|intros _].
    do 2 (apply safe_bind; [apply safe_mci|intros ?]). apply safe_when.
    apply safe_bind; [by apply safe_modify|intros _]. by apply safe_take_sample. }
  destruct (Hs w Hw) as ([] & w' & Hrun & Hw'). by exists w'.
Qed.

(** ** Requesting a recording *)

Lemma sample_print_ok at_start len dec (w : W) :
  isr_ok w -> 0 < len -> (at_start = true -> m_sample_now (w_mci w) = 0) ->
  exists w', mc_interface_sample_print_data at_start len dec w = Some (tt, w') /\ isr_ok w'.
Proof.
  intros [[Hz Hr] Hl] Hpos Hidle. unfold mc_interface_sample_print_data, inside, recording in *.
  destruct at_start; (eexists; split; [reflexivity|]); (split; [|done]);
    (split; [done|..]); unfold inside, recording; cbn; unfold ADC_SAMPLE_MAX_LEN in *;
    destruct (Z.ltb_spec 2000 len); try lia; rewrite Hidle by done; lia.
Qed.

(** A recording of length 0 that has reached sample [k]. *)
Definition endless (k : Z) (r : window) : Prop :=
  let '(at_start, ready, len, int, now, a) := r in
  at_start = false /\ ready = false /\ len = 0 /\ int <= 1 /\ now = k /\ 0 <= a.

Lemma endless_sampling `{!DetectArrays} k f (w : W) :
  0 <= k < ADC_SAMPLE_MAX_LEN -> rec_ok (endless k) w ->
  exists w', isr_sampling f w = Some (tt, w') /\ rec_ok (endless (k + 1)) w'.
Proof.
  intros Hk [[Hz Hr] Hl]. unfold isr_sampling. cbv beta iota delta [mbind ST_bind mci mci_set st_modify].
  pose proof Hr as (Hat & Hready & Hlen & Hint & Hnow & Ha). rewrite Hready. cbn [negb when].
  cbv beta iota delta [mbind ST_bind mci mci_set st_modify].
  match goal with |- context [Z.leb ?x ?y] => destruct (Z.leb_spec x y) as [_|Hlt]; [|cbn in Hlt; lia] end.
  cbv beta iota delta [when mbind ST_bind mci mci_set st_modify].
  match goal with |- context [isr_take_sample f ?x] => set (w1 := x) end.
  assert (Hw1 : rec_ok (endless k) w1) by (split; [split; [done|]|done]; repeat split; done || lia).
  unfold isr_take_sample. cbv beta iota delta [mbind ST_bind].
  destruct (safe_sample_written (endless k)) with (f := f) (s := w1) as ([] & w2 & -> & [[Hz2 Hr2] Hl2]);
    [unfold endless, recording; intros s Hs; destruct Hs as (?&?&?&?&->&?); lia|done|done|].
  rewrite advance_run. cbv beta iota delta [hw mci_set st_modify].
  eexists. split; [reflexivity|]. unfold endless, recording in Hr2. destruct Hr2 as (H1&H2&H3&H4&H5&H6).
  unfold with_mci. cbv zeta.
  assert (He : (m_sample_now ((w_mci w2) <| m_sample_now := m_sample_now (w_mci w2) + 1 |>) =?
    m_sample_len ((w_mci w2) <| m_sample_now := m_sample_now (w_mci w2) + 1 |>)) = false)
    by (apply Z.eqb_neq; cbn; lia).
  rewrite He. split; [split; [done|]|done]. repeat split; try done; cbn; lia.
Qed.

Lemma put_outside get set v (w : W) :
  samples_sized (w_mci w) -> m_sample_now (w_mci w) = ADC_SAMPLE_MAX_LEN ->
  (forall s, samples_sized s -> Z.of_nat (length (get s)) = ADC_SAMPLE_MAX_LEN) ->
  put_sample get set v w = None.
Proof.
  intros Hz Hnow Hget. unfold put_sample, arr_set. rewrite Hnow, decide_False; [done|].
  rewrite Hget by done. lia.
Qed.

Lemma curr0_sized s : samples_sized s -> Z.of_nat (length (m_curr0_samples s)) = ADC_SAMPLE_MAX_LEN.
Proof. unfold samples_sized. intros Hz. by inversion_clear Hz. Qed.

Lemma endless_overflow f (w : W) :
  rec_ok (endless ADC_SAMPLE_MAX_LEN) w -> isr_sampling f w = None.
Proof.
  intros [[Hz Hr] Hl]. unfold isr_sampling. cbv beta iota delta [mbind ST_bind mci mci_set st_modify].
  pose proof Hr as (Hat & Hready & Hlen & Hint & Hnow & Ha). rewrite Hready. cbn [negb when].
  cbv beta iota delta [mbind ST_bind mci mci_set st_modify].
  match goal with |- context [Z.leb ?x ?y] => destruct (Z.leb_spec x y) as [_|Hlt]; [|cbn in Hlt; lia] end.
  cbv beta iota delta [when mbind ST_bind mci mci_set st_modify].
  match goal with |- context [isr_take_sample f ?x] => set (w1 := x) end.
  unfold isr_take_sample, sample_written, sample_currents. cbv beta iota delta [mbind ST_bind].
  rewrite get_state_run. destruct (_ =? MC_STATE_DETECTING);
    cbv beta iota delta [hw float_at lift_opt mbind option_bind].
  - destruct (decide _); [|done]. destruct (_ !! _); [|done].
    unfold put_curr0. by rewrite put_outside by (done || apply curr0_sized).
  - unfold put_curr0. by rewrite put_outside by (done || apply curr0_sized).
Qed.

Fixpoint isr_times (n : nat) : M unit :=
  match n with O => mret tt | S n => mc_interface_mc_timer_isr;; isr_times n end.

Lemma endless_isr `{!DetectArrays} k (w : W) :
  rec_ok (endless k) w -> exists f w1, rec_ok (endless k) w1 /\
    mc_interface_mc_timer_isr w = isr_sampling f w1.
Proof.
  intros Hw. unfold mc_interface_mc_timer_isr. cbv beta delta [mbind ST_bind].
  destruct (safe_supervise (endless k) w Hw) as (f & w1 & -> & Hw1). exists f, w1. split; [done|].
  cbv iota beta. unfold isr_sample_start. cbv beta iota delta [mbind ST_bind mci].
  destruct Hw1 as [[_ (Hat & _)] _]. by rewrite Hat.
Qed.

(** A recording of length 0, which the protocol can request, never
    ends: the 2001st sample is written outside the buffers. *)
Theorem zero_recording_overflows `{!DetectArrays} (w w0 : W) :
  samples_sized (w_mci w) -> log_ok w -> 0 <= isr_a (w_mci w) ->
  m_sample_at_start (w_mci w) = false ->
  mc_interface_sample_print_data false 0 1 w = Some (tt, w0) ->
  is_Some (isr_times 2000 w0) /\ isr_times 2001 w0 = None.
Proof.
  intros Hz Hl Ha Hat [= <-].
  set (w0 := setter _ _). 
  assert (Hw0 : rec_ok (endless 0) w0).
  { split; [split; [done|]|done]. repeat split; cbn; (done || lia). }
  clearbody w0.
  assert (Hn : forall n k v, Z.of_nat n + k <= ADC_SAMPLE_MAX_LEN -> 0 <= k -> rec_ok (endless k) v ->
    exists v', isr_times n v = Some (tt, v') /\ rec_ok (endless (k + Z.of_nat n)) v').
  { induction n as [|n IH]; intros k v Hk Hk0 Hv; cbn [isr_times].
    - exists v. split; [done|]. by rewrite Z.add_0_r.
    - destruct (endless_isr k v Hv) as (f & w1 & Hw1 & Hisr).
      destruct (endless_sampling k f w1 ltac:(lia) Hw1) as (w2 & Hs & Hw2).
      cbv beta delta [mbind ST_bind]. rewrite Hisr, Hs. cbv beta iota.
      destruct (IH (k + 1) w2 ltac:(lia) ltac:(lia) Hw2) as (v' & Hv' & Hok). exists v'.
      split; [done|]. by replace (k + Z.of_nat (S n)) with (k + 1 + Z.of_nat n) by lia. }
  assert (Hsplit : forall n m v, isr_times (n + m) v = mbind (fun _ => isr_times m) (isr_times n) v).
  { induction n as [|n IH]; intros m v; [done|]. cbn [isr_times Nat.add].
    cbv beta delta [mbind ST_bind]. destruct (mc_interface_mc_timer_isr v) as [[[] v1]|]; [|done].
    exact (IH m v1). }
  destruct (Hn 2000%nat 0 w0 ltac:(done) ltac:(done) Hw0) as (v & Hv & Hok).
  split; [by rewrite Hv|]. change 2001%nat with (2000 + 1)%nat. rewrite Hsplit.
  rewrite (ST_bind_Some _ _ _ _ _ Hv). cbn [isr_times]. cbv beta delta [mbind ST_bind].
  destruct (endless_isr _ v Hok) as (f & w1 & Hw1 & ->).
  by rewrite endless_overflow.
Qed.
End Isr.

