(* ===== verification/McInterfaceTheorems.v ===== *)
(** * McInterfaceTheorems: what the motor control interface promises *)
From S2P Require Import Prelude Float32 Buffer McTypes Motor Flash Eeprom Utils World Transmit.
From S2P Require Import Transmit McInterface McInterfaceSpec McInterfaceSafe BoardSim.

Section Theorems.
Context {D F : Type} `{Board D}.
Abbreviation W := (world D F).

(** C32. While the interface is locked and no detection runs, the first
    command of any sequence gets through if there is an override and no
    block after a fault is pending, and no other: the result is that of
    the first command alone, or the whole world is unchanged, the override
    included. *)
Theorem lock_passes_one_command `{!CommandsDoNotDetect} c cs (w : W) :
  motor_state w <> MC_STATE_DETECTING -> 0 <= m_ignore_iterations (w_mci w) ->
  m_lock_enabled (w_mci w) = true ->
  mc_run (c :: cs) w =
  Some (tt, if m_lock_override_once (w_mci w) && (m_ignore_iterations (w_mci w) =? 0)
            then perform c w else w).
Proof.
  intros Hst Hn Hl. destruct (m_lock_override_once (w_mci w) && _) eqn:Ho.
  - apply andb_true_iff in Ho as [Ho Hz%Z.eqb_eq].
    cbn [mc_run]. rewrite (ST_bind_Some _ _ _ _ _ (exec_spec c w Hst ltac:(lia))).
    assert (Hacc : accepts (w_mci w) = true) by (unfold accepts; by rewrite Hz, Hl, Ho).
    rewrite Hacc. destruct (note_pos_fields c (consume_override (w_mci w))) as (_ & El & Eo & En).
    assert (Hcon : consume_override (w_mci w) = (w_mci w) <| m_lock_override_once := false |>)
      by (unfold consume_override; by rewrite Hl).
    apply refused_run.
    + by apply perform_not_detecting.
    + rewrite perform_mci, En, Hcon. cbn. lia.
    + unfold accepts. rewrite perform_mci, El, Eo, En, Hcon. cbn. by rewrite Hl, andb_false_r.
  - apply refused_run; [done|lia|]. unfold accepts. rewrite Hl. cbn [negb orb].
    by rewrite andb_comm.
Qed.

(** C33. A fault gives the driver the stop command and blocks every
    command for as many timer ticks as the configuration says; if the
    cause of the fault is gone, an unlocked interface accepts commands
    again after those, and the fault is cleared one tick later. *)
Theorem fault_stops_and_blocks `{!StopEndsDetection} fault (w : W) :
  log_ok w -> calm (m_conf (w_mci w)) (stopped w) ->
  0 <= m_fault_stop_time_ms (m_conf (w_mci w)) -> m_lock_enabled (w_mci w) = false ->
  exists w1, mc_interface_fault_stop fault w = Some (tt, w1) /\ w_hw w1 = stopped w /\
  forall n, exists wn, ticks n w1 = Some (tt, wn) /\ w_hw wn = stopped w /\
    (Z.of_nat n < m_fault_stop_time_ms (m_conf (w_mci w)) ->
       forall cs, mc_run cs wn = Some (tt, wn)) /\
    (m_fault_stop_time_ms (m_conf (w_mci w)) <= Z.of_nat n ->
       forall c, mc_exec c wn = Some (tt, perform c wn)) /\
    m_fault_now (w_mci wn) =
      if decide (Z.of_nat n <= m_fault_stop_time_ms (m_conf (w_mci w))) then fault
      else FAULT_CODE_NONE.
Proof.
  intros Hlog Hcalm HT Hlock.
  destruct (fault_stop_spec fault w Hlog) as (w1 & Hrun & _ & Hm1 & Hhw1).
  exists w1. split; [done|]. split; [done|]. intros n.
  assert (Hi1 : m_ignore_iterations (w_mci w1) = m_fault_stop_time_ms (m_conf (w_mci w)))
    by by rewrite Hm1.
  destruct (ticks_calm n w1) as (wn & Hticks & Hhw & [Tb Tl To Ti Tf]).
  { rewrite Hhw1, Hm1. exact Hcalm. }
  { lia. }
  rewrite Hm1 in Tb, Tl, To, Tf. rewrite Hi1 in Ti. cbn in Tb, Tl, To, Tf.
  assert (Hnd : motor_state wn <> MC_STATE_DETECTING).
  { apply (stopped_not_detecting w wn); [by rewrite Hhw|by apply base_driver]. }
  exists wn. split; [done|]. split; [by rewrite Hhw|]. split; [|split; [|exact Tf]].
  - intros Hn cs. apply refused_run; [done|lia|]. unfold accepts.
    by rewrite (proj2 (Z.eqb_neq _ _)) by lia.
  - intros Hn c. rewrite exec_spec by (done || lia).
    assert (Hacc : accepts (w_mci wn) = true).
    { unfold accepts. rewrite Tl, Hlock, (proj2 (Z.eqb_eq _ _)) by lia. done. }
    by rewrite Hacc.
Qed.

(** ** The limits *)

(** Above the end temperature the current limits are set to zero, the
    motor is stopped and the fault recorded. *)
Theorem overheating_stops (w : W) :
  log_ok w -> hot (m_conf (w_mci w)) (NTC_TEMP (w_hw w) ADC_IND_TEMP_MOS2) = true ->
  exists w', update_override_limits w = Some (tt, w') /\
    lo_current_max (m_conf (w_mci w')) = f0 /\ lo_current_min (m_conf (w_mci w')) = f0 /\
    m_fault_now (w_mci w') = FAULT_CODE_OVER_TEMP_FET /\
    m_ignore_iterations (w_mci w') = m_fault_stop_time_ms (m_conf (w_mci w)) /\
    base (m_conf (w_mci w')) = base (m_conf (w_mci w)).
Proof.
  intros Hlog Hhot. unfold update_override_limits. cbv beta iota delta [mbind ST_bind hw].
  rewrite temperature_limits_run, Hhot.
  set (w0 := with_mci _ w).
  destruct (fault_stop_spec FAULT_CODE_OVER_TEMP_FET w0 Hlog) as (w1 & -> & _ & Hm1 & _).
  cbv beta iota. rewrite battery_limits_run. eexists. split; [reflexivity|].
  unfold hot in Hhot. apply andb_true_iff in Hhot as [H1%negb_true_iff H2].
  assert (Ht : m_conf (w_mci w1) = (m_conf (w_mci w)) <| lo_current_min := f0 |> <| lo_current_max := f0 |>).
  { rewrite Hm1. unfold w0, with_mci, with_conf, faulted, temperature_limited. cbn.
    by rewrite H1, H2. }
  unfold with_mci, with_conf. cbn. rewrite Ht. cbn.
  split_and!; try done; rewrite Hm1; [done|].
  unfold w0, with_mci, with_conf, faulted, temperature_limited. cbn. by rewrite H1, H2.
Qed.

(** Below the start temperature and above the battery cut-off the
    limits in force are the configured ones. *)
Theorem normal_limits (w : W) :
  (NTC_TEMP (w_hw w) ADC_IND_TEMP_MOS2 <? l_temp_fet_start (m_conf (w_mci w)))%f32 = true ->
  (GET_INPUT_VOLTAGE (w_hw w) >? l_battery_cut_start (m_conf (w_mci w)))%f32 = true ->
  exists w', update_override_limits w = Some (tt, w') /\ w_hw w' = w_hw w /\
    let c := m_conf (w_mci w') in
    base c = base (m_conf (w_mci w)) /\
    lo_current_max c = l_current_max c /\ lo_current_min c = l_current_min c /\
    lo_in_current_max c = l_in_current_max c /\ lo_in_current_min c = l_in_current_min c.
Proof.
  intros Ht Hv. rewrite update_limits_run by (unfold hot; by rewrite Ht).
  eexists. split; [reflexivity|]. split; [done|].
  unfold with_mci, with_conf. cbn. unfold limited, temperature_limited. rewrite Ht.
  unfold battery_limited, battery_limit. cbn. by rewrite Hv.
Qed.

(** Between the two temperatures a limit whose magnitude is not above
    the derated current keeps the value it had, even the 0 of an
    overheating. *)
Theorem derating_keeps_old_limit (w : W) :
  let c := m_conf (w_mci w) in
  let temp := NTC_TEMP (w_hw w) ADC_IND_TEMP_MOS2 in
  (temp <? l_temp_fet_start c)%f32 = false -> (temp >? l_temp_fet_end c)%f32 = false ->
  (fabs (l_current_max c) >? derated c temp)%f32 = false ->
  exists w', update_override_limits w = Some (tt, w') /\
    lo_current_max (m_conf (w_mci w')) = lo_current_max c.
Proof.
  cbv zeta. intros Ht1 Ht2 Hm. rewrite update_limits_run by (unfold hot; by rewrite Ht1, Ht2).
  eexists. split; [reflexivity|]. unfold with_mci, with_conf. cbn.
  unfold limited, temperature_limited. rewrite Ht1, Ht2. cbv zeta. rewrite Hm.
  by destruct (fltb (derated _ _) (fabs (l_current_min _))).
Qed.

(** ** Supply voltage *)

Definition wrong_voltage (c : mc_configuration) (v : f32) : bool :=
  ((v <? l_min_vin c) || (v >? l_max_vin c))%f32.

Definition voltage_fault (c : mc_configuration) (v : f32) : Z :=
  if (v <? l_min_vin c)%f32 then FAULT_CODE_UNDER_VOLTAGE else FAULT_CODE_OVER_VOLTAGE.

Fixpoint voltage_times (n : nat) (v : f32) : ST W unit :=
  match n with O => mret tt | S n => isr_voltage v;; voltage_times n v end.

Lemma isr_voltage_run v (w : W) :
  wrong_voltage (m_conf (w_mci w)) v = true -> 0 <= wrong_voltage_iterations (w_mci w) < 1000 ->
  let w1 := with_mci (fun s => s <| wrong_voltage_iterations := wrong_voltage_iterations s + 1 |>) w in
  isr_voltage v w =
  if 8 <=? wrong_voltage_iterations (w_mci w) + 1
  then mc_interface_fault_stop (voltage_fault (m_conf (w_mci w)) v) w1 else Some (tt, w1).
Proof.
  intros Hw Hn. unfold isr_voltage. cbv beta iota delta [mbind ST_bind mci mci_set st_modify].
  unfold wrong_voltage in Hw. rewrite Hw. unfold with_mci. cbv zeta.
  assert (Hi : i32 (wrong_voltage_iterations (w_mci w) + 1) = wrong_voltage_iterations (w_mci w) + 1)
    by (apply i32_id; unfold is_i32; lia).
  rewrite Hi. unfold when. cbn. by destruct (8 <=? _).
Qed.

Lemma voltage_times_add n m v (w : W) :
  voltage_times (n + m) v w = mbind (M := ST W) (fun _ => voltage_times m v) (voltage_times n v) w.
Proof.
  revert w. induction n as [|n IH]; intros w; [done|]. cbn [voltage_times Nat.add].
  cbv beta delta [mbind ST_bind]. destruct (isr_voltage v w) as [[[] v1]|]; [|done]. exact (IH v1).
Qed.

(** Seven interrupts in a row with a wrong supply voltage only count;
    the eighth stops the motor with the matching fault. *)
Theorem wrong_voltage_eight_times v (w : W) :
  log_ok w -> wrong_voltage (m_conf (w_mci w)) v = true -> wrong_voltage_iterations (w_mci w) = 0 ->
  (forall n, (n < 8)%nat -> voltage_times n v w =
     Some (tt, with_mci (fun s => s <| wrong_voltage_iterations := Z.of_nat n |>) w)) /\
  exists w', voltage_times 8 v w = Some (tt, w') /\
    m_fault_now (w_mci w') = voltage_fault (m_conf (w_mci w)) v /\ w_hw w' = stopped w.
Proof.
  intros Hlog Hw H0.
  assert (Hcount : forall n, (n < 8)%nat -> voltage_times n v w =
     Some (tt, with_mci (fun s => s <| wrong_voltage_iterations := Z.of_nat n |>) w)).
  { induction n as [|n IH]; intros Hn.
    - cbn [voltage_times]. unfold with_mci. 
      replace ((w_mci w) <| wrong_voltage_iterations := Z.of_nat 0 |>) with (w_mci w);
        [by rewrite set_mci_id|]. destruct (w_mci w). cbn in *. by rewrite H0.
    - replace (S n) with (n + 1)%nat by lia. rewrite voltage_times_add.
      rewrite (ST_bind_Some _ _ _ _ _ (IH ltac:(lia))). cbn [voltage_times].
      set (wn := with_mci _ w). cbv beta delta [mbind ST_bind].
      rewrite isr_voltage_run by (done || (cbn; lia)).
      change (wrong_voltage_iterations (w_mci wn)) with (Z.of_nat n).
      destruct (Z.leb_spec 8 (Z.of_nat n + 1)); [lia|].
      unfold wn, with_mci. cbn. do 3 f_equal. by rewrite Nat2Z.inj_add. }
  split; [done|]. change 8%nat with (7 + 1)%nat. rewrite voltage_times_add.
  rewrite (ST_bind_Some _ _ _ _ _ (Hcount 7%nat ltac:(lia))). cbn [voltage_times].
  set (w7 := with_mci _ w). cbv beta delta [mbind ST_bind].
  rewrite isr_voltage_run by (done || (cbn; lia)).
  change (wrong_voltage_iterations (w_mci w7)) with 7. cbn [Z.leb Z.compare Z.add].
  match goal with |- context [mc_interface_fault_stop ?f ?x] =>
    destruct (fault_stop_spec f x Hlog) as (w' & Hrun & _ & Hm & Hhw) end.
  change (8 <=? 7 + 1) with true. cbv iota. rewrite Hrun. exists w'. split; [done|]. split; [by rewrite Hm|].
  rewrite Hhw. reflexivity.
Qed.

(** ** A new configuration *)

(** The hardware after the drivers were exchanged. *)
Definition switch_hw (old new : mc_configuration) (d : D) : D :=
  if (motor_type old =? MOTOR_TYPE_FOC) && negb (motor_type new =? MOTOR_TYPE_FOC)
  then drv_init mcpwm new (drv_deinit mcpwm_foc old d)
  else if negb (motor_type old =? MOTOR_TYPE_FOC) && (motor_type new =? MOTOR_TYPE_FOC)
  then drv_init mcpwm_foc new (drv_deinit mcpwm old d) else d.

(** A new configuration takes effect with the limits that temperature
    and voltage allow; when the motor type changes, the old driver is shut
    down before the new one starts, and the running driver gets the
    result. *)
Theorem set_configuration_spec new (w : W) :
  let old := m_conf (w_mci w) in
  let d := switch_hw old new (w_hw w) in
  m_sensor_port_mode new = m_sensor_port_mode old -> m_sensor_port_mode new <> SENSOR_PORT_MODE_ABI ->
  hot new (NTC_TEMP d ADC_IND_TEMP_MOS2) = false ->
  let conf := limited new (NTC_TEMP d ADC_IND_TEMP_MOS2) (GET_INPUT_VOLTAGE d) in
  exists w', mc_interface_set_configuration new w = Some (tt, w') /\
    w_mci w' = (w_mci w) <| m_conf := conf |> /\
    w_hw w' = match the_driver new with
              | Some drv => drv_set_configuration drv conf d | None => d end.
Proof.
  cbv zeta. intros Hport Habi Hhot. unfold mc_interface_set_configuration.
  cbv beta iota delta [mbind ST_bind mci].
  rewrite Hport, Z.eqb_refl. rewrite <- Hport, (proj2 (Z.eqb_neq _ _) Habi). cbn [negb when mret ST_ret].
  set (old := m_conf (w_mci w)) in *.
  assert (Hsw : forall k : unit -> ST W unit,
    mbind (M := ST W) k (if (motor_type old =? MOTOR_TYPE_FOC) && negb (motor_type new =? MOTOR_TYPE_FOC) then
       hw_do (drv_deinit mcpwm_foc old);; set_conf (fun _ => new);; hw_do (drv_init mcpwm new)
     else if negb (motor_type old =? MOTOR_TYPE_FOC) && (motor_type new =? MOTOR_TYPE_FOC) then
       hw_do (drv_deinit mcpwm old);; set_conf (fun _ => new);; hw_do (drv_init mcpwm_foc new)
     else set_conf (fun _ => new)) w
    = k tt (with_mci (with_conf (fun _ => new)) (w <| w_hw := switch_hw old new (w_hw w) |>))).
  { intros k. unfold switch_hw. destruct (_ && _); [done|]. destruct (_ && _); [done|]. by destruct w. }
  cbv beta iota delta [mbind ST_bind] in Hsw |- *. rewrite Hsw. clear Hsw.
  set (d := switch_hw old new (w_hw w)) in *. set (w1 := with_mci _ _).
  rewrite (update_limits_run w1 Hhot). cbv beta iota. rewrite motor_do_run.
  eexists. split; [reflexivity|].
  assert (Hd : the_driver (limited new (NTC_TEMP d ADC_IND_TEMP_MOS2) (GET_INPUT_VOLTAGE d)) = the_driver new)
    by apply base_driver, base_limited.
  split; [rewrite drive_mci; reflexivity|]. unfold drive, with_mci, with_conf. cbn. rewrite Hd.
  by destruct (the_driver new).
Qed.

(** ** Energy counters *)

(** Resetting the watt-hour counter leaves it running and clears the
    amp-hour counter instead. *)
Theorem watt_hours_reset_clears_amp_hours (w : W) :
  exists w', mc_interface_get_watt_hours true w
    = Some ((m_watt_seconds (w_mci w) / f_of_int 3600)%f32, w') /\
  m_watt_seconds (w_mci w') = m_watt_seconds (w_mci w) /\ m_amp_seconds (w_mci w') = f0.
Proof. eexists. split; [reflexivity|done]. Qed.
End Theorems.

(** ** Witnesses on the simulated board *)

Definition mk_world (f : mci_state -> mci_state) : world sim flash_mem :=
  with_mci f (sim_world MOTOR_TYPE_BLDC).

Lemma sim_log_ok f : log_ok (mk_world f).
Proof. by split. Qed.

Definition locked_world : world sim flash_mem :=
  mk_world (fun s => s <| m_lock_enabled := true |> <| m_lock_override_once := true |>).

Lemma locked_not_detecting : motor_state locked_world <> MC_STATE_DETECTING.
Proof. vm_compute. discriminate. Qed.

Lemma lock_passes_one_command_witness :
  mc_run [CmdDuty f1; CmdCurrent f1] locked_world = Some (tt, perform (CmdDuty f1) locked_world).
Proof.
  assert (Hl : m_lock_enabled (w_mci locked_world) = true) by reflexivity.
  assert (Hi : 0 <= m_ignore_iterations (w_mci locked_world)) by apply Z.le_refl.
  pose proof (lock_passes_one_command (CmdDuty f1) [CmdCurrent f1] locked_world
    locked_not_detecting Hi Hl) as Hrun.
  replace (m_lock_override_once (w_mci locked_world) && (m_ignore_iterations (w_mci locked_world) =? 0))
    with true in Hrun by reflexivity. exact Hrun.
Defined.

Lemma fault_stops_and_blocks_witness :
  exists w1, mc_interface_fault_stop FAULT_CODE_DRV8302 (mk_world id) = Some (tt, w1) /\
    w_hw w1 = stopped (mk_world id).
Proof.
  destruct (fault_stops_and_blocks FAULT_CODE_DRV8302 (mk_world id) (sim_log_ok id)
    ltac:(split; vm_compute; reflexivity) ltac:(cbn; lia) eq_refl) as (w1 & Hr & Hh & _).
  exact (ex_intro _ w1 (conj Hr Hh)).
Defined.

Definition hot_world : world sim flash_mem :=
  mk_world (fun s => s <| m_conf := (m_conf s) <| l_temp_fet_start := f1 |> <| l_temp_fet_end := f_of_int 20 |> |>).

Lemma overheating_stops_witness :
  exists w', update_override_limits hot_world = Some (tt, w') /\
    m_fault_now (w_mci w') = FAULT_CODE_OVER_TEMP_FET.
Proof.
  destruct (overheating_stops hot_world ltac:(by split) ltac:(vm_compute; reflexivity))
    as (w' & Hr & _ & _ & Hf & _).
  exact (ex_intro _ w' (conj Hr Hf)).
Defined.

Lemma normal_facts :
  (NTC_TEMP (w_hw (mk_world id)) ADC_IND_TEMP_MOS2
     <? l_temp_fet_start (m_conf (w_mci (mk_world id))))%f32 = true /\
  (GET_INPUT_VOLTAGE (w_hw (mk_world id)) >? l_battery_cut_start (m_conf (w_mci (mk_world id))))%f32
  = true.
Proof. vm_compute. done. Qed.

Lemma normal_limits_witness :
  exists w', update_override_limits (mk_world id) = Some (tt, w') /\ w_hw w' = w_hw (mk_world id).
Proof.
  destruct (normal_limits (mk_world id) (proj1 normal_facts) (proj2 normal_facts))
    as (w' & Hr & Hh & _).
  exact (ex_intro _ w' (conj Hr Hh)).
Defined.

(** 25 degrees between 10 and 100, a maximum of 1 A, a limit left at 0. *)
Definition derating_world : world sim flash_mem :=
  mk_world (fun s => s <| m_conf := (m_conf s) <| l_temp_fet_start := f_of_int 10 |>
    <| l_current_max := f1 |> <| lo_current_max := f0 |> |>).

Lemma derating_facts :
  let c := m_conf (w_mci derating_world) in
  let temp := NTC_TEMP (w_hw derating_world) ADC_IND_TEMP_MOS2 in
  (temp <? l_temp_fet_start c)%f32 = false /\ (temp >? l_temp_fet_end c)%f32 = false /\
  (fabs (l_current_max c) >? derated c temp)%f32 = false.
Proof. vm_compute. done. Qed.

Lemma derating_keeps_old_limit_witness :
  exists w', update_override_limits derating_world = Some (tt, w') /\
    lo_current_max (m_conf (w_mci w')) = f0.
Proof.
  destruct derating_facts as (H1 & H2 & H3).
  destruct (derating_keeps_old_limit derating_world H1 H2 H3) as (w' & Hr & Hl).
  exists w'. split; [exact Hr|]. rewrite Hl. reflexivity.
Defined.

Lemma wrong_voltage_eight_times_witness :
  exists w', voltage_times 8 f0 (mk_world id) = Some (tt, w') /\
    m_fault_now (w_mci w') = FAULT_CODE_UNDER_VOLTAGE.
Proof.
  destruct (wrong_voltage_eight_times f0 (mk_world id) (sim_log_ok id) ltac:(vm_compute; reflexivity)
    eq_refl) as (_ & w' & Hr & Hf & _).
  exact (ex_intro _ w' (conj Hr Hf)).
Defined.

Definition foc_conf : mc_configuration := sim_conf <| motor_type := MOTOR_TYPE_FOC |>.

Lemma set_configuration_spec_witness :
  exists w', mc_interface_set_configuration foc_conf (mk_world id) = Some (tt, w') /\
    sim_calls (w_hw w') = [(false, CDeinit); (true, CInit); (true, CSetConf)].
Proof.
  destruct (set_configuration_spec foc_conf (mk_world id) eq_refl ltac:(discriminate)
    ltac:(vm_compute; reflexivity)) as (w' & Hr & _ & Hh).
  exists w'. split; [exact Hr|]. by rewrite Hh.
Defined.

#[export] Instance sim_detect : DetectArrays (D := sim).
Proof.
  split; try done. intros d. cbn. pose proof (Z.mod_pos_bound (sim_step d) 6 ltac:(lia)). lia.
Qed.

Lemma sim_isr_ok : isr_ok (sim_world MOTOR_TYPE_BLDC).
Proof. split; [split; [|done]|done]. repeat constructor. Qed.

Lemma mc_timer_isr_safe_witness :
  exists w', mc_interface_mc_timer_isr (sim_world MOTOR_TYPE_BLDC) = Some (tt, w') /\ isr_ok w'.
Proof. exact (mc_timer_isr_safe _ sim_isr_ok). Defined.

Lemma sim_samples_sized : samples_sized (w_mci (sim_world MOTOR_TYPE_BLDC)).
Proof. repeat constructor. Qed.

Lemma zero_recording_overflows_witness :
  exists w0, mc_interface_sample_print_data false 0 1 (sim_world MOTOR_TYPE_BLDC) = Some (tt, w0) /\
    isr_times 2001 w0 = None.
Proof.
  eexists. split; [reflexivity|].
  exact (proj2 (zero_recording_overflows (sim_world MOTOR_TYPE_BLDC) _ sim_samples_sized
    (sim_log_ok id) ltac:(done) eq_refl eq_refl)).
Defined.
