(* ===== verification/FlashHelper.v ===== *)
(** * FlashHelper: uploading a new program (src/flash_helper.c)

    The new program goes to sectors 8 to 10.  Both functions stop the motor
    and take the system lock with the watchdog off for the whole operation;
    as in the source, a flash error returns at once, with both left as they
    are. *)
From S2P Require Import Prelude Float32 McTypes Motor Flash Eeprom Utils World Transmit.
From S2P Require Import McInterface.

Section FlashHelper.
Context {D F : Type} `{Board D} `{Flash F}.
Abbreviation M := (ST (world D F)).

Definition new_app_base : Z := flash_addr !!! NEW_APP_BASE.

(** [for (int i = 0; i < NEW_APP_SECTORS; i++)]; [None] for the status: the
    loop ended without an error. *)
Fixpoint erase_loop (n i : nat) (new_app_size : Z) : M (option Z) :=
  match n with
  | O => mret None
  | S n =>
      if flash_addr !!! (NEW_APP_BASE + i)%nat <? new_app_size then
        res ← ee_run (flash_op (FLASH_EraseSector (flash_sector !!! (NEW_APP_BASE + i)%nat) VoltageRange_3));
        if negb (res =? FLASH_COMPLETE) then mret (Some res) else erase_loop n (S i) new_app_size
      else mret None
  end.

(** The common frame of both functions: early return on an error. *)
Definition with_flash_access (body : M (option Z)) : M Z :=
  mc_interface_unlock;;
  mc_interface_release_motor;;
  utils_sys_lock_cnt;;
  wwdg false;;
  r ← body;
  match r with
  | Some res => mret res
  | None =>
      wwdg true;;
      utils_sys_unlock_cnt;;
      mret FLASH_COMPLETE
  end.

Definition flash_helper_erase_new_app (new_app_size : Z) : M Z :=
  with_flash_access (erase_loop NEW_APP_SECTORS 0 (u32 (new_app_size + new_app_base))).

(** [for (uint32_t i = 0; i < len; i++)]; [data] is the memory from the
    pointer on. *)
Fixpoint write_loop (data : list Z) (n : nat) (address : Z) {struct n} : M (option Z) :=
  match n with
  | O => mret None
  | S n =>
      match data with
      | [] => st_fail
      | b :: data =>
          res ← ee_run (flash_op (FLASH_ProgramByte (u32 address) b));
          if negb (res =? FLASH_COMPLETE) then mret (Some res) else write_loop data n (address + 1)
      end
  end.

Definition flash_helper_write_new_app_data (offset : Z) (data : list Z) (len : Z) : M Z :=
  with_flash_access (write_loop data (Z.to_nat len) (new_app_base + offset)).
End FlashHelper.
