(* ===== verification/Timeout.v ===== *)
(** * Timeout: braking when no command arrives (src/timeout.c) *)
From S2P Require Import Prelude Float32 McTypes Motor Flash Eeprom Utils World Transmit.
From S2P Require Import McInterface.

(** ** ChibiOS time (chvt.h): 32-bit ticks of 0.1 ms *)

Definition CH_CFG_ST_FREQUENCY : Z := 10000.
Definition MS2ST (msec : Z) : Z := u32 (u32 (u32 msec * CH_CFG_ST_FREQUENCY) + 999) / 1000.
Definition elapsed (now start : Z) : Z := u32 (now - start).

Section Timeout.
Context {D F : Type} `{Board D}.
Abbreviation M := (ST (world D F)).

Definition timeout_init : M unit :=
  tmo_set (fun _ => {| timeout_msec_v := 1000; last_update_time := 0;
                       timeout_brake_current_v := f0; has_timeout := false |}).

Definition timeout_configure (timeout : Z) (brake_current : f32) : M unit :=
  tmo_set (fun s => s <| timeout_msec_v := timeout |> <| timeout_brake_current_v := brake_current |>).

Definition timeout_reset : M unit :=
  now ← hw chVTGetSystemTime;
  tmo_set (fun s => s <| last_update_time := now |>).

Definition timeout_has_timeout : M bool := tmo has_timeout.
Definition timeout_get_timeout_msec : M Z := tmo timeout_msec_v.
Definition timeout_get_brake_current : M f32 := tmo timeout_brake_current_v.

(** One round of [timeout_thread], every 10 ms. *)
Definition timeout_thread_step : M unit :=
  msec ← tmo timeout_msec_v;
  last ← tmo last_update_time;
  now ← hw chVTGetSystemTime;
  if negb (msec =? 0) && (MS2ST msec <? elapsed now last) then
    mc_interface_unlock;;
    current ← tmo timeout_brake_current_v;
    mc_interface_set_brake_current current;;
    tmo_set (fun s => s <| has_timeout := true |>)
  else tmo_set (fun s => s <| has_timeout := false |>).
End Timeout.
