(* ===== verification/ConfGeneral.v ===== *)
(** * ConfGeneral: storing the configurations and measuring the motor
    (src/conf_general.c; the default configurations are in ConfDefault.v)

    A configuration is stored as its memory image, one EEPROM variable per
    half-word.  The layout of the two structures is the compiler's: [Layout]
    is its interface.  The static temporaries [mcconf] and [mcconf_old] are
    written before they are read in every function and appear as local values.
    The flash driver's [FLASH_Unlock] and [FLASH_ClearFlag] do not change the
    flash contents and are left out. *)
From S2P Require Import Prelude Float32 McTypes Motor Flash Eeprom Utils World Transmit.
From S2P Require Import McInterface ConfDefault FlashHelper Timeout.

Definition EEPROM_BASE_MCCONF : Z := 1000.
Definition EEPROM_BASE_APPCONF : Z := 2000.

(** The memory image of a structure: [sizeof], and the bytes at its address. *)
Class Layout (C : Type) : Type := {
  sizeof : Z;
  image : C -> list Z;
  of_image : list Z -> C
}.
Arguments sizeof C {_}.

(** The number of variables that hold a structure. *)
Definition half_words (C : Type) `{Layout C} : nat := Z.to_nat (sizeof C / 2).

(** [chThdSleepMilliseconds]: what happens in the meantime (interrupts, the
    other threads, the motor). *)
Class Sleep (D F : Type) : Type := chThdSleepMilliseconds : Z -> ST (world D F) unit.

Section ConfGeneral.
Context {D F : Type} `{Board D} `{Flash F}.
Abbreviation M := (ST (world D F)).

(** ** Start-up *)

(** [for (i = 0; i < n; i++) VirtAddVarTab[ind++] = base + i]; returns [ind]. *)
Fixpoint assign_addresses (n : nat) (base i ind : Z) : M Z :=
  match n with
  | O => mret ind
  | S n =>
      (fun w => tab ← arr_set ind (u16 (base + i)) (VirtAddVarTab w);
                Some (tt, w <| VirtAddVarTab := tab |>));;
      assign_addresses n base (i + 1) (ind + 1)
  end.

(** As in the source, both loops run over the size of [app_configuration]. *)
Definition conf_general_init `{Layout app_configuration} : M unit :=
  st_modify (fun w => w <| VirtAddVarTab := replicate (Z.to_nat NB_OF_VAR) 0 |>);;
  ind ← assign_addresses (half_words app_configuration) EEPROM_BASE_MCCONF 0 0;
  assign_addresses (half_words app_configuration) EEPROM_BASE_APPCONF 0 ind;;
  tab ← (fun w => Some (VirtAddVarTab w, w));
  ee_run (EE_Init tab);;
  mret tt.

(** ** Reading and storing *)

Definition ee_read (va : Z) : M (Z * Z) := fun w =>
  Some (EE_ReadVariable va 0 (ee_flash (w_ee w)), w).

Definition ee_write (va data : Z) : M Z := fun w =>
  ee_run (EE_WriteVariable (VirtAddVarTab w) va data) w.

(** The loop of the reading functions over the bytes of the structure: the
    bytes, and [is_ok]. *)
Fixpoint read_image (n : nat) (base i : Z) (conf_addr : list Z) : M (list Z * bool) :=
  match n with
  | O => mret (conf_addr, true)
  | S n =>
      '(st, var) ← ee_read (u16 (base + i));
      if st =? 0 then
        conf_addr ← lift_opt (arr_set (2 * i) (Z.land (Z.shiftr var 8) 255) conf_addr);
        conf_addr ← lift_opt (arr_set (2 * i + 1) (Z.land var 255) conf_addr);
        read_image n base (i + 1) conf_addr
      else mret (conf_addr, false)
  end.

(** The loop of the storing functions: [is_ok]. *)
Fixpoint store_image (n : nat) (base i : Z) (conf_addr : list Z) : M bool :=
  match n with
  | O => mret true
  | S n =>
      b0 ← sample_at conf_addr (2 * i);
      b1 ← sample_at conf_addr (2 * i + 1);
      let var := Z.lor (Z.land (Z.shiftl b0 8) 65280) (Z.land b1 255) in
      st ← ee_write (u16 (base + i)) var;
      if negb (st =? FLASH_COMPLETE) then mret false
      else store_image n base (i + 1) conf_addr
  end.

(** The common frame of the storing functions. *)
Definition with_motor_stopped (body : M bool) : M bool :=
  mc_interface_unlock;;
  mc_interface_release_motor;;
  utils_sys_lock_cnt;;
  wwdg false;;
  is_ok ← body;
  wwdg true;;
  utils_sys_unlock_cnt;;
  mret is_ok.

(** [conf] is the structure before the call. *)
Definition conf_general_read_app_configuration `{Layout app_configuration}
    (conf : app_configuration) : M app_configuration :=
  '(bytes, is_ok) ← read_image (half_words app_configuration) EEPROM_BASE_APPCONF 0 (image conf);
  mret (if is_ok : bool then of_image bytes else conf_general_get_default_app_configuration).

Definition conf_general_store_app_configuration `{Layout app_configuration}
    (conf : app_configuration) : M bool :=
  with_motor_stopped
    (store_image (half_words app_configuration) EEPROM_BASE_APPCONF 0 (image conf)).

Definition conf_general_read_mc_configuration `{Layout mc_configuration}
    (conf : mc_configuration) : M mc_configuration :=
  '(bytes, is_ok) ← read_image (half_words mc_configuration) EEPROM_BASE_MCCONF 0 (image conf);
  mret (if is_ok : bool then of_image bytes else conf_general_get_default_mc_configuration).

Definition conf_general_store_mc_configuration `{Layout mc_configuration}
    (conf : mc_configuration) : M bool :=
  with_motor_stopped
    (store_image (half_words mc_configuration) EEPROM_BASE_MCCONF 0 (image conf)).

(** ** Measuring the motor *)

Section Measure.
Context `{Sleep D F}.

(** [for (i = 0; i < n; i++) if (go_on) sleep 1 ms; else { ok_steps++; break; }];
    returns what is added to [ok_steps]. *)
Fixpoint wait_while (n : nat) (go_on : M bool) : M Z :=
  match n with
  | O => mret 0
  | S n =>
      b ← go_on;
      if b : bool then chThdSleepMilliseconds 1;; wait_while n go_on else mret 1
  end.

Definition tacho_below (tacho steps : Z) : M bool :=
  t ← hw_run (drv_get_tachometer_value mcpwm false);
  mret (i32 (t - tacho) <? steps).

(** The same loop with the speed summed up: ok step, sum, iterations. *)
Fixpoint rpm_loop (n : nat) (tacho : Z) (rpm_sum rpm_iterations : f32) : M (Z * f32 * f32) :=
  match n with
  | O => mret (0, rpm_sum, rpm_iterations)
  | S n =>
      b ← tacho_below tacho 100;
      if b : bool then
        rpm ← mc_interface_get_rpm;
        chThdSleepMilliseconds 1;;
        rpm_loop n tacho (rpm_sum + rpm)%f32 (rpm_iterations + f1)%f32
      else mret (1, rpm_sum, rpm_iterations)
  end.

(** Both measurements run the motor with this configuration. *)
Definition delay_commutation (min_erpm : f32) (c : mc_configuration) : mc_configuration :=
  c <| motor_type := MOTOR_TYPE_BLDC |> <| sensor_mode := SENSOR_MODE_SENSORLESS |>
    <| comm_mode := COMM_MODE_DELAY |> <| sl_phase_advance_at_br := f1 |>
    <| sl_min_erpm := min_erpm |>.

(** Returns success, [int_limit], [bemf_coupling_k], [hall_table], [hall_res]. *)
Definition conf_general_detect_motor_param (current min_rpm low_duty : f32)
    : M (bool * f32 * f32 * list Z * Z) :=
  let spinup_to_duty := flit 6 10 in
  mcconf_old ← mc_interface_get_configuration;
  mc_interface_set_configuration (delay_commutation min_rpm mcconf_old);;
  mc_interface_lock;;
  mc_interface_lock_override_once;;
  mc_interface_set_current current;;
  ok1 ← wait_while 5000 (d ← mc_interface_get_duty_cycle_now; mret (d <? spinup_to_duty)%f32);
  hw_do mcpwm_reset_hall_detect_table;;
  mc_interface_lock_override_once;;
  mc_interface_set_duty spinup_to_duty;;
  chThdSleepMilliseconds 400;;
  mc_interface_lock_override_once;;
  mc_interface_set_current f0;;
  tacho ← hw_run (drv_get_tachometer_value mcpwm false);
  ok2 ← wait_while 2000 (tacho_below tacho 3);
  hw_run mcpwm_read_reset_avg_cycle_integrator;;
  tacho ← hw_run (drv_get_tachometer_value mcpwm false);
  ok3 ← wait_while 3000 (tacho_below tacho 50);
  '(hall_res, hall_table) ← hw_run mcpwm_get_hall_detect_result;
  int_limit ← hw_run mcpwm_read_reset_avg_cycle_integrator;
  ok4 ← wait_while 5000 (d ← mc_interface_get_duty_cycle_now; mret (d >? low_duty)%f32);
  mc_interface_lock_override_once;;
  mc_interface_set_duty low_duty;;
  hw_run mcpwm_read_reset_avg_cycle_integrator;;
  tacho ← hw_run (drv_get_tachometer_value mcpwm false);
  '(ok5, rpm_sum, rpm_iterations) ← rpm_loop 3000 tacho f0 f0;
  running ← hw_run mcpwm_read_reset_avg_cycle_integrator;
  let rpm := (rpm_sum / rpm_iterations)%f32 in
  mc_interface_lock_override_once;;
  mc_interface_release_motor;;
  vin ← hw (fun d => ADC_Value d ADC_IND_VIN_SENS);
  let bemf_coupling_k := ((running - int_limit) / f_of_int vin * rpm)%f32 in
  mc_interface_set_configuration mcconf_old;;
  mc_interface_unlock;;
  mret (ok1 + ok2 + ok3 + ok4 + ok5 =? 5, int_limit, bemf_coupling_k, hall_table, hall_res).

(** [while (duty_now < duty) { sleep; if (++cnt >= 5000) return false; }]:
    whether the duty cycle was reached. *)
Fixpoint spin_up (n : nat) (duty : f32) : M bool :=
  match n with
  | O => mret false
  | S n =>
      d ← mc_interface_get_duty_cycle_now;
      if (d <? duty)%f32 then chThdSleepMilliseconds 1;; spin_up n duty else mret true
  end.

(** The sums of voltage, speed and current, and the number of samples. *)
Fixpoint flux_samples (n : nat) (v rpm i samples : f32) : M (f32 * f32 * f32 * f32) :=
  match n with
  | O => mret (v, rpm, i, samples)
  | S n =>
      vin ← hw GET_INPUT_VOLTAGE;
      d ← mc_interface_get_duty_cycle_now;
      rpm_now ← mc_interface_get_rpm;
      i_now ← mc_interface_get_tot_current;
      chThdSleepMilliseconds 1;;
      flux_samples n (v + vin * d)%f32 (rpm + rpm_now)%f32 (i + i_now)%f32 (samples + f1)%f32
  end.

(** [None]: the motor did not reach the duty cycle (the C function returns
    false); [Some linkage] otherwise.  As in the source, only the failing path
    restores the timeout. *)
Definition conf_general_measure_flux_linkage (current duty min_erpm res : f32) : M (option f32) :=
  mcconf_old ← mc_interface_get_configuration;
  mc_interface_set_configuration (delay_commutation min_erpm mcconf_old);;
  chThdSleepMilliseconds 1000;;
  tout ← timeout_get_timeout_msec;
  tout_c ← timeout_get_brake_current;
  timeout_configure 60000 f0;;
  mc_interface_lock;;
  mc_interface_lock_override_once;;
  mc_interface_set_current current;;
  reached ← spin_up 5000 duty;
  if negb reached then
    mc_interface_set_current f0;;
    timeout_configure tout tout_c;;
    mc_interface_set_configuration mcconf_old;;
    mc_interface_unlock;;
    mret None
  else
    mc_interface_lock_override_once;;
    mc_interface_set_duty duty;;
    '(v, rpm, i, samples) ← flux_samples 2000 f0 f0 f0 f0;
    mc_interface_set_configuration mcconf_old;;
    mc_interface_unlock;;
    mc_interface_set_current f0;;
    let avg_voltage := (v / samples)%f32 in
    let avg_rpm := (rpm / samples)%f32 in
    let avg_current := (i / samples)%f32 in
    let avg_voltage := (avg_voltage - avg_current * res * f_of_int 2)%f32 in
    mret (Some (avg_voltage * f_of_int 60
                / (fsqrt (f_of_int 3) * f_of_int 2 * M_PI * avg_rpm))%f32).
End Measure.
End ConfGeneral.
