(* ===== verification/Commands.v ===== *)
(** * Commands: the command protocol (the receiving half of src/commands.c)

    [commands_process_packet] is a switch over the first byte of a packet;
    every case is a definition here.  A packet is the memory from its pointer
    on and a length: as in the source the cases read the fields they expect
    without looking at the length, so a short packet reads the bytes that
    follow it.  The servo output is compiled out (SERVO_OUT_ENABLE is 0). *)
From S2P Require Import Prelude Float32 Buffer McTypes ConfCodec Motor Flash Eeprom Utils World.
From S2P Require Import Transmit McInterface ConfDefault FlashHelper Timeout.
From S2P Require Import ConfGeneral.

Definition FW_VERSION_MAJOR : Z := 2.
Definition FW_VERSION_MINOR : Z := 18.

(** The decoded inputs of the applications (servo_dec.h, app.h). *)
Class Apps (D : Type) : Type := {
  servodec_get_servo : D -> Z -> f32;
  servodec_get_last_pulse_len : D -> Z -> f32;
  app_adc_get_decoded_level : D -> f32;
  app_adc_get_voltage : D -> f32;
  app_adc_get_decoded_level2 : D -> f32;
  app_adc_get_voltage2 : D -> f32;
  app_nunchuk_get_decoded_chuk : D -> f32
}.

Section Commands.
Context {D F : Type} `{Board D} `{Flash F} `{Apps D} `{Sleep D F}.
Context `{Layout mc_configuration} `{Layout app_configuration}.
Abbreviation M := (ST (world D F)).

(** [ind = 0; ...(data, &ind)]: read from the start of the packet's data. *)
Definition parse {A} (g : ST Z A) : M A := r ← lift_opt (g 0); mret r.1.

(** The case COMM_FW_VERSION. *)
Definition on_fw_version : M unit :=
  send_reply (put8 COMM_FW_VERSION;; put8 FW_VERSION_MAJOR;; put8 FW_VERSION_MINOR).

(** flash_helper.c; the jump itself leaves the program. *)
Definition flash_helper_jump_to_bootloader : M unit :=
  mc_interface_unlock;;
  mc_interface_release_motor;;
  wwdg false;;
  emit EvBootloader.

Definition reply_status (packet_id flash_res : Z) : M unit :=
  send_reply (put8 packet_id;; put8 (if flash_res =? FLASH_COMPLETE then 1 else 0)).

Definition on_erase_new_app (data : list Z) : M unit :=
  size ← parse (buffer_get_uint32 data);
  flash_res ← flash_helper_erase_new_app size;
  reply_status COMM_ERASE_NEW_APP flash_res.

Definition on_write_new_app_data (data : list Z) (len : Z) : M unit :=
  new_app_offset ← parse (buffer_get_uint32 data);
  flash_res ← flash_helper_write_new_app_data new_app_offset (drop 4 data) (u32 (len - 4));
  reply_status COMM_WRITE_NEW_APP_DATA flash_res.

(** The case COMM_GET_VALUES; all seven temperature inputs are the same one. *)
Definition on_get_values : M unit :=
  temp ← hw (fun d => NTC_TEMP d ADC_IND_TEMP_MOS1);
  motor_current ← mc_interface_read_reset_avg_motor_current;
  input_current ← mc_interface_read_reset_avg_input_current;
  duty ← mc_interface_get_duty_cycle_now;
  rpm ← mc_interface_get_rpm;
  vin ← hw GET_INPUT_VOLTAGE;
  ah ← mc_interface_get_amp_hours false;
  ahc ← mc_interface_get_amp_hours_charged false;
  wh ← mc_interface_get_watt_hours false;
  whc ← mc_interface_get_watt_hours_charged false;
  tacho ← mc_interface_get_tachometer_value false;
  tacho_abs ← mc_interface_get_tachometer_abs_value false;
  fault ← mc_interface_get_fault;
  let append_temp := buffer_append_float16 temp (f_of_int 10) in
  send_reply
    (put8 COMM_GET_VALUES;;
     append_temp;; append_temp;; append_temp;; append_temp;; append_temp;; append_temp;;
     append_temp;;
     buffer_append_float32 motor_current (f_of_int 100);;
     buffer_append_float32 input_current (f_of_int 100);;
     buffer_append_float16 duty (f_of_int 1000);;
     buffer_append_float32 rpm f1;;
     buffer_append_float16 vin (f_of_int 10);;
     buffer_append_float32 ah (f_of_int 10000);;
     buffer_append_float32 ahc (f_of_int 10000);;
     buffer_append_float32 wh (f_of_int 10000);;
     buffer_append_float32 whc (f_of_int 10000);;
     buffer_append_int32 tacho;;
     buffer_append_int32 tacho_abs;;
     put8 fault).

(** ** Motor commands *)

Definition on_set_duty (data : list Z) : M unit :=
  v ← parse (get_scaled data (f_of_int 100000)); mc_interface_set_duty v;; timeout_reset.
Definition on_set_current (data : list Z) : M unit :=
  v ← parse (get_scaled data (f_of_int 1000)); mc_interface_set_current v;; timeout_reset.
Definition on_set_current_brake (data : list Z) : M unit :=
  v ← parse (get_scaled data (f_of_int 1000)); mc_interface_set_brake_current v;; timeout_reset.
Definition on_set_rpm (data : list Z) : M unit :=
  v ← parse (buffer_get_int32 data); mc_interface_set_pid_speed (f_of_int v);; timeout_reset.
Definition on_set_pos (data : list Z) : M unit :=
  v ← parse (get_scaled data (f_of_int 1000000)); mc_interface_set_pid_pos v;; timeout_reset.

Definition on_set_detect (data : list Z) : M unit :=
  mcconf ← mc_interface_get_configuration;
  mode ← parse (get8 data);
  cmd_set (fun s => s <| display_position_mode := mode |>);;
  when (motor_type mcconf =? MOTOR_TYPE_BLDC)
    (if mode =? DISP_POS_MODE_NONE then mc_interface_release_motor
     else when (mode =? DISP_POS_MODE_INDUCTANCE)
            (c ← mci m_conf; hw_do (mcpwm_set_detect c)));;
  timeout_reset.

(** ** Configuration *)

Definition on_set_mcconf (packet_id : Z) (data : list Z) : M unit :=
  mcconf ← parse (mcconf_get data);
  conf_general_store_mc_configuration mcconf;;
  mc_interface_set_configuration mcconf;;
  send_reply (put8 packet_id).

Definition on_get_mcconf (packet_id : Z) : M unit :=
  mcconf ← (if packet_id =? COMM_GET_MCCONF then mc_interface_get_configuration
            else mret conf_general_get_default_mc_configuration);
  send_reply (put8 packet_id;; mcconf_append mcconf).

(** app.c; the applications that are configured are outside the model. *)
Definition app_set_configuration (conf : app_configuration) : M unit :=
  st_modify (fun w => w <| appconf := conf |>);;
  emit (EvAppConfigured conf).

Definition app_get_configuration : M app_configuration := fun w => Some (appconf w, w).

Definition on_set_appconf (packet_id : Z) (data : list Z) : M unit :=
  conf ← parse (appconf_get data);
  conf_general_store_app_configuration conf;;
  app_set_configuration conf;;
  timeout_configure (timeout_msec conf) (timeout_brake_current conf);;
  send_reply (put8 packet_id).

Definition on_get_appconf (packet_id : Z) : M unit :=
  conf ← (if packet_id =? COMM_GET_APPCONF then app_get_configuration
          else mret conf_general_get_default_app_configuration);
  send_reply (put8 packet_id;; appconf_append conf).

(** ** Sampling and the terminal *)

Definition on_sample_print (data : list Z) : M unit :=
  '(at_start, sample_len, decimation) ←
    parse (at_start ← get_bool data; sample_len ← buffer_get_uint16 data;
           decimation ← get8 data; mret (at_start, sample_len, decimation));
  mc_interface_sample_print_data at_start sample_len decimation.

(** The string at the start of the memory, up to the first zero. *)
Fixpoint c_string (mem : list Z) : list Z :=
  match mem with [] => [] | b :: mem => if b =? 0 then [] else b :: c_string mem end.

(** [data[len] = 0]; returns the changed memory. *)
Definition on_terminal_cmd (data : list Z) (len : Z) : M (list Z) :=
  data ← lift_opt (arr_set len 0 data);
  emit (EvTerminal (c_string data));;
  mret data.

(** ** Detection *)

Definition on_detect_motor_param (data : list Z) : M unit :=
  '(current, min_rpm, low_duty) ←
    parse (current ← buffer_get_float32 data (f_of_int 1000);
           min_rpm ← buffer_get_float32 data (f_of_int 1000);
           low_duty ← buffer_get_float32 data (f_of_int 1000); mret (current, min_rpm, low_duty));
  cmd_set (fun s => s <| detect_current := current |> <| detect_min_rpm := min_rpm |>
                      <| detect_low_duty := low_duty |> <| detect_event := true |>).

(** A measurement of mcpwm_foc.c, which works on the interface's configuration. *)
Definition foc_measure {A} (m : mc_configuration -> D -> A * mc_configuration * D) : M A := fun w =>
  let '(a, c, d) := m (m_conf (w_mci w)) (w_hw w) in
  Some (a, w <| w_mci := (w_mci w) <| m_conf := c |> |> <| w_hw := d |>).

Definition on_detect_motor_r_l : M unit :=
  mcconf_old ← mc_interface_get_configuration;
  mc_interface_set_configuration (mcconf_old <| motor_type := MOTOR_TYPE_FOC |>);;
  '(res, r, l) ← foc_measure mcpwm_foc_measure_res_ind;
  mc_interface_set_configuration mcconf_old;;
  let r := if res : bool then r else f0 in
  let l := if res : bool then l else f0 in
  send_reply (put8 COMM_DETECT_MOTOR_R_L;;
              buffer_append_float32 r (f_of_int 1000000);;
              buffer_append_float32 l (f_of_int 1000)).

Definition on_detect_flux_linkage (data : list Z) : M unit :=
  '(current, min_rpm, duty, resistance) ←
    parse (current ← buffer_get_float32 data (f_of_int 1000);
           min_rpm ← buffer_get_float32 data (f_of_int 1000);
           duty ← buffer_get_float32 data (f_of_int 1000);
           resistance ← buffer_get_float32 data (f_of_int 1000000);
           mret (current, min_rpm, duty, resistance));
  res ← conf_general_measure_flux_linkage current duty min_rpm resistance;
  let linkage := match res with Some linkage => linkage | None => f0 end in
  send_reply (put8 COMM_DETECT_MOTOR_FLUX_LINKAGE;;
              buffer_append_float32 linkage (f_of_int 10000000)).

(** The configuration for the measurements with the FOC driver. *)
Definition foc_detection (c : mc_configuration) : mc_configuration :=
  c <| motor_type := MOTOR_TYPE_FOC |> <| foc_f_sw := f_of_int 10000 |>
    <| foc_current_kp := flit 1 100 |> <| foc_current_ki := f_of_int 10 |>.

Definition reply_encoder (offset ratio : f32) (inverted : bool) : M unit :=
  send_reply (put8 COMM_DETECT_ENCODER;;
              buffer_append_float32 offset (f_of_int 1000000);;
              buffer_append_float32 ratio (f_of_int 1000000);;
              put_bool inverted).

Definition on_detect_encoder (data : list Z) : M unit :=
  configured ← hw encoder_is_configured;
  if configured : bool then
    mcconf_old ← mc_interface_get_configuration;
    current ← parse (buffer_get_float32 data (f_of_int 1000));
    mc_interface_set_configuration (foc_detection mcconf_old);;
    '(offset, ratio, inverted) ← foc_measure (fun c => mcpwm_foc_encoder_detect c current false);
    mc_interface_set_configuration mcconf_old;;
    reply_encoder offset ratio inverted
  else reply_encoder (f_of_int 1001) f0 false.

(** [memset(send_buffer, v, n); ind += n] *)
Definition memset_start (v : Z) (n : nat) : ST wstate unit := fun '(buf, i) =>
  if decide (n <= length buf)%nat
  then Some (tt, (list_inserts 0 (replicate n v) buf, i + Z.of_nat n)) else None.

(** As in the source, without a hall port nothing is sent and the buffer is
    overwritten from its start. *)
Definition on_detect_hall_foc (data : list Z) : M unit :=
  mcconf_old ← mc_interface_get_configuration;
  if m_sensor_port_mode mcconf_old =? SENSOR_PORT_MODE_HALL then
    current ← parse (buffer_get_float32 data (f_of_int 1000));
    mc_interface_set_configuration (foc_detection mcconf_old);;
    '(res, hall_tab) ← foc_measure (fun c => mcpwm_foc_hall_detect c current);
    mc_interface_set_configuration mcconf_old;;
    send_reply (put8 COMM_DETECT_HALL_FOC;; put_bytes hall_tab;; put8 (if res : bool then 0 else 1))
  else
    buf ← cmd send_buffer;
    '(_, (buf', _)) ← lift_opt ((put8 COMM_DETECT_HALL_FOC;; memset_start 255 8;; put8 0) (buf, 0));
    cmd_set (fun s => s <| send_buffer := buf' |>).

(** ** Applications and CAN *)

Definition on_get_decoded_ppm : M unit :=
  servo ← hw (fun d => servodec_get_servo d 0);
  pulse ← hw (fun d => servodec_get_last_pulse_len d 0);
  send_reply (put8 COMM_GET_DECODED_PPM;;
              append_scaled servo (f_of_int 1000000);; append_scaled pulse (f_of_int 1000000)).

Definition on_get_decoded_adc : M unit :=
  level ← hw app_adc_get_decoded_level; voltage ← hw app_adc_get_voltage;
  level2 ← hw app_adc_get_decoded_level2; voltage2 ← hw app_adc_get_voltage2;
  send_reply (put8 COMM_GET_DECODED_ADC;;
              append_scaled level (f_of_int 1000000);; append_scaled voltage (f_of_int 1000000);;
              append_scaled level2 (f_of_int 1000000);; append_scaled voltage2 (f_of_int 1000000)).

Definition on_get_decoded_chuk : M unit :=
  v ← hw app_nunchuk_get_decoded_chuk;
  send_reply (put8 COMM_GET_DECODED_CHUK;; append_scaled v (f_of_int 1000000)).

Definition on_forward_can (data : list Z) (len : Z) : M unit :=
  id ← parse (get8 data);
  comm_can_send_buffer id (drop 1 data) (u32 (len - 1)) false.

(** [app_nunchuk_update_output] hands the data on and resets the timeout. *)
Definition app_nunchuk_update_output (c : chuck_data) : M unit := emit (EvChuck c);; timeout_reset.

Definition on_set_chuck_data (data : list Z) : M unit :=
  c ← parse (js_x ← get8 data; js_y ← get8 data; bt_c ← get_bool data; bt_z ← get_bool data;
             acc_x ← buffer_get_int16 data; acc_y ← buffer_get_int16 data;
             acc_z ← buffer_get_int16 data;
             mret (mk_chuck_data js_x js_y acc_x acc_y acc_z bt_c bt_z));
  app_nunchuk_update_output c.

Definition on_custom_app_data (data : list Z) (len : Z) : M unit :=
  f ← cmd appdata_func;
  match f with
  | None => mret tt
  | Some h => bs ← lift_opt (mem_read data 0 len); emit (EvAppData h bs)
  end.

(** ** The switch *)

Definition dispatch (packet_id : Z) (data : list Z) (len : Z) : M unit :=
  if packet_id =? COMM_FW_VERSION then on_fw_version
  else if packet_id =? COMM_JUMP_TO_BOOTLOADER then flash_helper_jump_to_bootloader
  else if packet_id =? COMM_ERASE_NEW_APP then on_erase_new_app data
  else if packet_id =? COMM_WRITE_NEW_APP_DATA then on_write_new_app_data data len
  else if packet_id =? COMM_GET_VALUES then on_get_values
  else if packet_id =? COMM_SET_DUTY then on_set_duty data
  else if packet_id =? COMM_SET_CURRENT then on_set_current data
  else if packet_id =? COMM_SET_CURRENT_BRAKE then on_set_current_brake data
  else if packet_id =? COMM_SET_RPM then on_set_rpm data
  else if packet_id =? COMM_SET_POS then on_set_pos data
  else if packet_id =? COMM_SET_DETECT then on_set_detect data
  else if packet_id =? COMM_SET_SERVO_POS then mret tt
  else if packet_id =? COMM_SET_MCCONF then on_set_mcconf packet_id data
  else if (packet_id =? COMM_GET_MCCONF) || (packet_id =? COMM_GET_MCCONF_DEFAULT)
       then on_get_mcconf packet_id
  else if packet_id =? COMM_SET_APPCONF then on_set_appconf packet_id data
  else if (packet_id =? COMM_GET_APPCONF) || (packet_id =? COMM_GET_APPCONF_DEFAULT)
       then on_get_appconf packet_id
  else if packet_id =? COMM_SAMPLE_PRINT then on_sample_print data
  else if packet_id =? COMM_DETECT_MOTOR_PARAM then on_detect_motor_param data
  else if packet_id =? COMM_DETECT_MOTOR_R_L then on_detect_motor_r_l
  else if packet_id =? COMM_DETECT_MOTOR_FLUX_LINKAGE then on_detect_flux_linkage data
  else if packet_id =? COMM_DETECT_ENCODER then on_detect_encoder data
  else if packet_id =? COMM_DETECT_HALL_FOC then on_detect_hall_foc data
  else if packet_id =? COMM_REBOOT then emit EvReboot
  else if packet_id =? COMM_ALIVE then timeout_reset
  else if packet_id =? COMM_GET_DECODED_PPM then on_get_decoded_ppm
  else if packet_id =? COMM_GET_DECODED_ADC then on_get_decoded_adc
  else if packet_id =? COMM_GET_DECODED_CHUK then on_get_decoded_chuk
  else if packet_id =? COMM_FORWARD_CAN then on_forward_can data len
  else if packet_id =? COMM_SET_CHUCK_DATA then on_set_chuck_data data
  else if packet_id =? COMM_CUSTOM_APP_DATA then on_custom_app_data data len
  else mret tt.

(** Returns the memory behind [data] as the call leaves it. *)
Definition commands_process_packet (data : list Z) (len : Z) : M (list Z) :=
  if len =? 0 then mret data else
  match data with
  | [] => st_fail
  | packet_id :: rest =>
      if packet_id =? COMM_TERMINAL_CMD
      then rest ← on_terminal_cmd rest (len - 1); mret (packet_id :: rest)
      else dispatch packet_id rest (len - 1);; mret data
  end.

(** [s] is the formatted text ([vsnprintf] writes at most 253 characters and
    a zero). *)
Definition commands_printf (s : list Z) : M unit :=
  let len := Z.of_nat (length s) in
  when (0 <? len)
    (commands_send_packet (COMM_PRINT :: take 253 s ++ [0]) (if len <? 254 then len + 1 else 255)).

(** One round of [detect_thread]. *)
Definition detect_thread_step : M unit :=
  ev ← cmd detect_event;
  when ev
    (cmd_set (fun s => s <| detect_event := false |>);;
     current ← cmd detect_current; min_rpm ← cmd detect_min_rpm; low_duty ← cmd detect_low_duty;
     '(ok, int_limit, coupling, hall_table, hall_res) ←
       conf_general_detect_motor_param current min_rpm low_duty;
     let int_limit := if ok : bool then int_limit else f0 in
     let coupling := if ok : bool then coupling else f0 in
     cmd_set (fun s => s <| detect_cycle_int_limit := int_limit |>
                         <| detect_coupling_k := coupling |>
                         <| detect_hall_table := hall_table |> <| detect_hall_res := hall_res |>);;
     send_reply (put8 COMM_DETECT_MOTOR_PARAM;;
                 append_scaled int_limit (f_of_int 1000);;
                 append_scaled coupling (f_of_int 1000);;
                 put_i8s hall_table;;
                 put8 hall_res)).
End Commands.
