(* ===== verification/CommCan.v ===== *)
(** * CommCan: receiving on the CAN bus (src/comm_can.c)

    The reading thread puts received frames into a ring of 100; the process
    thread takes them out, runs the motor commands, reassembles fragmented
    packets in [rx_buffer] and hands complete ones to commands.c.  Short
    enumerations are bytes on the target, so the command is one byte of the
    identifier. *)
From S2P Require Import Prelude Float32 Buffer Crc McTypes ConfCodec Motor Flash Eeprom Utils.
From S2P Require Import World Transmit McInterface ConfDefault FlashHelper Timeout.
From S2P Require Import ConfGeneral Commands.

(** [memcpy(dst + i, bs, n)] within an array. *)
Definition mem_write (i : Z) (bs : list Z) (dst : list Z) : option (list Z) :=
  if decide (0 <= i /\ i + Z.of_nat (length bs) <= Z.of_nat (length dst))
  then Some (list_inserts (Z.to_nat i) bs dst) else None.

Section CommCan.
Context {D F : Type} `{Board D} `{Flash F} `{Apps D} `{Sleep D F}.
Context `{Layout mc_configuration} `{Layout app_configuration}.
Abbreviation M := (ST (world D F)).

Definition comm_can_init : M unit :=
  can_set (fun s => s <| stat_msgs := map (fun m => m <| csm_id := -1 |>) (stat_msgs s) |>
                      <| rx_frame_read := 0 |> <| rx_frame_write := 0 |>).

(** [cancom_read_thread] for one received frame. *)
Definition can_receive (rxmsg : can_frame) : M unit := fun w =>
  let s := w_can w in
  if decide (0 <= rx_frame_write s < Z.of_nat (length (rx_frames s))) then
    let i := rx_frame_write s + 1 in
    Some (tt, w <| w_can := s <| rx_frames := <[Z.to_nat (rx_frame_write s) := rxmsg]> (rx_frames s) |>
                              <| rx_frame_write := if i =? RX_FRAMES_SIZE then 0 else i |> |>)
  else None.

(** *** The cases of [cancom_process_thread] *)

Definition can_fill (rxmsg : can_frame) : M unit :=
  i ← parse (get8 (data8 rxmsg));
  bs ← lift_opt (mem_read (data8 rxmsg) 1 (DLC rxmsg - 1));
  buf ← can rx_buffer;
  buf ← lift_opt (mem_write i bs buf);
  can_set (fun s => s <| rx_buffer := buf |>).

Definition can_fill_long (rxmsg : can_frame) : M unit :=
  '(hi, lo) ← parse (hi ← get8 (data8 rxmsg); lo ← get8 (data8 rxmsg); mret (hi, lo));
  let rxbuf_ind := Z.lor (Z.shiftl hi 8) lo in
  when (rxbuf_ind <? RX_BUFFER_SIZE)
    (bs ← lift_opt (mem_read (data8 rxmsg) 2 (DLC rxmsg - 2));
     buf ← can rx_buffer;
     buf ← lift_opt (mem_write rxbuf_ind bs buf);
     can_set (fun s => s <| rx_buffer := buf |>)).

Definition can_process_long (rxmsg : can_frame) : M unit :=
  '(last_id, commands_send, l1, l0, crc_high, crc_low) ←
    parse (last_id ← get8 (data8 rxmsg); commands_send ← get_bool (data8 rxmsg);
           l1 ← get8 (data8 rxmsg); l0 ← get8 (data8 rxmsg);
           crc_high ← get8 (data8 rxmsg); crc_low ← get8 (data8 rxmsg);
           mret (last_id, commands_send, l1, l0, crc_high, crc_low));
  can_set (fun s => s <| rx_buffer_last_id := last_id |>);;
  let rxbuf_len := Z.lor (Z.shiftl l1 8) l0 in
  when (negb (RX_BUFFER_SIZE <? rxbuf_len))
    (buf ← can rx_buffer;
     crc ← lift_opt (crc16 buf rxbuf_len);
     when (crc =? Z.lor (Z.shiftl crc_high 8) crc_low)
       (if commands_send : bool then commands_send_packet buf rxbuf_len
        else
          commands_set_send_func SendCan;;
          buf ← commands_process_packet buf rxbuf_len;
          can_set (fun s => s <| rx_buffer := buf |>))).

Definition can_process_short (rxmsg : can_frame) : M unit :=
  '(last_id, commands_send) ←
    parse (last_id ← get8 (data8 rxmsg); commands_send ← get_bool (data8 rxmsg);
           mret (last_id, commands_send));
  can_set (fun s => s <| rx_buffer_last_id := last_id |>);;
  let data := drop 2 (data8 rxmsg) in
  let len := u32 (DLC rxmsg - 2) in
  if commands_send : bool then commands_send_packet data len
  else
    commands_set_send_func SendCan;;
    commands_process_packet data len;;
    mret tt.

(** The first switch, for frames addressed to this controller. *)
Definition can_command (cmd : Z) (rxmsg : can_frame) : M unit :=
  let data := data8 rxmsg in
  if cmd =? CAN_PACKET_SET_DUTY then
    v ← parse (get_scaled data (f_of_int 100000)); mc_interface_set_duty v;; timeout_reset
  else if cmd =? CAN_PACKET_SET_CURRENT then
    v ← parse (get_scaled data (f_of_int 1000)); mc_interface_set_current v;; timeout_reset
  else if cmd =? CAN_PACKET_SET_CURRENT_BRAKE then
    v ← parse (get_scaled data (f_of_int 1000)); mc_interface_set_brake_current v;; timeout_reset
  else if cmd =? CAN_PACKET_SET_RPM then
    v ← parse (buffer_get_int32 data); mc_interface_set_pid_speed (f_of_int v);; timeout_reset
  else if cmd =? CAN_PACKET_SET_POS then
    v ← parse (get_scaled data (f_of_int 1000000)); mc_interface_set_pid_pos v;; timeout_reset
  else if cmd =? CAN_PACKET_FILL_RX_BUFFER then can_fill rxmsg
  else if cmd =? CAN_PACKET_FILL_RX_BUFFER_LONG then can_fill_long rxmsg
  else if cmd =? CAN_PACKET_PROCESS_RX_BUFFER then can_process_long rxmsg
  else if cmd =? CAN_PACKET_PROCESS_SHORT_BUFFER then can_process_short rxmsg
  else mret tt.

(** The first message that is free or has the identifier is replaced. *)
Fixpoint store_status (id : Z) (new : can_status_msg) (msgs : list can_status_msg)
    : list can_status_msg :=
  match msgs with
  | [] => []
  | m :: msgs =>
      if (csm_id m =? id) || (csm_id m =? -1) then new :: msgs else m :: store_status id new msgs
  end.

(** The case CAN_PACKET_STATUS of the second switch. *)
Definition can_status (id : Z) (rxmsg : can_frame) : M unit :=
  now ← hw chVTGetSystemTime;
  let data := data8 rxmsg in
  new ← parse (rpm ← buffer_get_int32 data; current ← buffer_get_int16 data;
               duty ← buffer_get_int16 data;
               mret (mk_can_status_msg id now (f_of_int rpm) (f_of_int current / f_of_int 10)%f32
                       (f_of_int duty / f_of_int 1000)%f32));
  can_set (fun s => s <| stat_msgs := store_status id new (stat_msgs s) |>).

Definition can_frame_step (rxmsg : can_frame) : M unit :=
  when (IDE rxmsg)
    (let id := Z.land (EID rxmsg) 255 in
     let cmd := u8 (Z.shiftr (EID rxmsg) 8) in
     conf ← app_get_configuration;
     when ((id =? 255) || (id =? controller_id conf)) (can_command cmd rxmsg);;
     when (cmd =? CAN_PACKET_STATUS) (can_status id rxmsg)).

(** One round of the inner loop of [cancom_process_thread]. *)
Definition cancom_process_step : M unit :=
  r ← can rx_frame_read;
  frames ← can rx_frames;
  rxmsg ← lift_opt (if decide (0 <= r) then frames !! Z.to_nat r else None);
  can_set (fun s => s <| rx_frame_read := r + 1 |>);;
  can_frame_step rxmsg;;
  can_set (fun s => s <| rx_frame_read :=
    if rx_frame_read s =? RX_FRAMES_SIZE then 0 else rx_frame_read s |>).

(** [while (rx_frame_read != rx_frame_write)]. *)
Fixpoint cancom_process (fuel : nat) : M unit :=
  match fuel with
  | O => st_fail
  | S fuel =>
      r ← can rx_frame_read; w ← can rx_frame_write;
      if r =? w then mret tt else cancom_process_step;; cancom_process fuel
  end.

(** One round of [cancom_status_thread]: the time to sleep. *)
Definition cancom_status_step : M Z :=
  conf ← app_get_configuration;
  when (send_can_status conf)
    (rpm ← mc_interface_get_rpm;
     current ← mc_interface_get_tot_current;
     duty ← mc_interface_get_duty_cycle_now;
     '(buffer, send_index) ← fill_buffer 8
       (buffer_append_int32 (f2i32 rpm);;
        buffer_append_int16 (f2i16 (current * f_of_int 10)%f32);;
        buffer_append_int16 (f2i16 (duty * f_of_int 1000)%f32));
     comm_can_transmit (can_id (controller_id conf) CAN_PACKET_STATUS) buffer send_index);;
  conf ← app_get_configuration;
  if send_can_status_rate_hz conf =? 0 then st_fail else
  let sleep_time := CH_CFG_ST_FREQUENCY / send_can_status_rate_hz conf in
  mret (if sleep_time =? 0 then 1 else sleep_time).

(** The message or 0 for an invalid index; a negative one is not checked. *)
Definition comm_can_get_status_msg_index (index : Z) : M (option can_status_msg) :=
  if index <? Z.of_nat CAN_STATUS_MSGS_TO_STORE then
    msgs ← can stat_msgs;
    m ← lift_opt (if decide (0 <= index) then msgs !! Z.to_nat index else None);
    mret (Some m)
  else mret None.

Definition comm_can_get_status_msg_id (id : Z) : M (option can_status_msg) :=
  msgs ← can stat_msgs;
  mret (head (filter (fun m => csm_id m = id) msgs)).
End CommCan.
