(* ===== verification/Keeps.v ===== *)
(** * Keeps: what an operation leaves alone

    [keeps f m]: whenever [m] returns, [f] has the same value before and after.
    [Outside f] says that [f] looks at nothing the motor interface and the
    transports write; the operations of mc_interface.c and the sending
    functions keep every such [f]. *)
From S2P Require Import Prelude Float32 Buffer McTypes Motor Flash Eeprom Utils World Transmit.
From S2P Require Import Transmit McInterface.

Definition keeps {S A X} (f : S -> X) (m : ST S A) : Prop :=
  forall s a s', m s = Some (a, s') -> f s' = f s.

Lemma bind_inv {S A B} (m : ST S A) (k : A -> ST S B) s b s' :
  mbind (M := ST S) k m s = Some (b, s') -> exists a s1, m s = Some (a, s1) /\ k a s1 = Some (b, s').
Proof.
  unfold mbind, ST_bind. destruct (m s) as [[a s1]|]; [|done]. intros Hk. by exists a, s1.
Qed.

Section Rules.
Context {S X : Type} (f : S -> X).

Lemma keeps_ret {A} (a : A) : keeps f (mret a).
Proof. by intros s b s' [= <- <-]. Qed.
Lemma keeps_fail {A} : keeps f (st_fail (A := A)).
Proof. by intros s b s'. Qed.
Lemma keeps_bind {A B} (m : ST S A) (k : A -> ST S B) :
  keeps f m -> (forall a, keeps f (k a)) -> keeps f (mbind (M := ST S) k m).
Proof.
  intros Hm Hk s b s' (a & s1 & H1 & H2)%bind_inv. by rewrite (Hk _ _ _ _ H2), (Hm _ _ _ H1).
Qed.
Lemma keeps_get : keeps f st_get.
Proof. by intros s a s' [= <- <-]. Qed.
Lemma keeps_read {A} (g : S -> A) : keeps f (fun s => Some (g s, s)).
Proof. by intros s a s' [= <- <-]. Qed.
Lemma keeps_modify (g : S -> S) : (forall s, f (g s) = f s) -> keeps f (st_modify g).
Proof. by intros Hg s a s' [= <- <-]. Qed.
End Rules.

Class Outside {D F X : Type} (f : world D F -> X) : Prop := {
  out_mci w s : f (w <| w_mci := s |>) = f w;
  out_hw w d : f (w <| w_hw := d |>) = f w;
  out_vec w v : f (w <| fault_vec := v |>) = f w;
  out_vec_write w i : f (w <| fault_vec_write := i |>) = f w;
  out_cmd w c : f (w <| w_cmd := c |>) = f w;
  out_out w o : f (w <| w_out := o |>) = f w;
  out_sys w s : f (w <| w_sys := s |>) = f w;
  out_ee w e : f (w <| w_ee := e |>) = f w
}.

Create HintDb keeps.
#[export] Hint Extern 1 (Outside _) => apply _ : keeps.

Section Access.
Context {D F X : Type} (f : world D F -> X) `{!Outside f}.

Lemma keeps_mci {A} (g : mci_state -> A) : keeps f (mci g).
Proof. apply keeps_read. Qed.
Lemma keeps_mci_set g : keeps f (mci_set g).
Proof. apply keeps_modify. intros. apply out_mci. Qed.
Lemma keeps_hw {A} (g : D -> A) : keeps f (hw g).
Proof. apply keeps_read. Qed.
Lemma keeps_hw_do g : keeps f (hw_do g).
Proof. apply keeps_modify. intros. apply out_hw. Qed.
Lemma keeps_hw_run {A} (g : D -> A * D) : keeps f (hw_run g).
Proof. intros s a s'. unfold hw_run. destruct (g _). intros [= <- <-]. apply out_hw. Qed.
Lemma keeps_tmo {A} (g : timeout_state -> A) : keeps f (tmo g).
Proof. apply keeps_read. Qed.
Lemma keeps_cmd {A} (g : commands_state -> A) : keeps f (cmd g).
Proof. apply keeps_read. Qed.
Lemma keeps_cmd_set g : keeps f (cmd_set g).
Proof. apply keeps_modify. intros. apply out_cmd. Qed.
Lemma keeps_can {A} (g : can_state -> A) : keeps f (can g).
Proof. apply keeps_read. Qed.
Lemma keeps_sys {A} (g : sys_state -> A) : keeps f (sys g).
Proof. apply keeps_read. Qed.
Lemma keeps_sys_set g : keeps f (sys_set g).
Proof. apply keeps_modify. intros. apply out_sys. Qed.
Lemma keeps_emit e : keeps f (emit e).
Proof. apply keeps_modify. intros. apply out_out. Qed.
Lemma keeps_ee_run o : keeps f (ee_run o).
Proof. intros s a s'. unfold ee_run. destruct (o _). intros [= <- <-]. apply out_ee. Qed.
Lemma keeps_lift_opt {A} (o : option A) : keeps f (lift_opt o).
Proof. intros s a s'. unfold lift_opt. destruct o; [|done]. by intros [= <- <-]. Qed.
Lemma keeps_when (b : bool) m : keeps f m -> keeps f (when b m).
Proof. intros Hm. destruct b; [done|apply keeps_ret]. Qed.
Lemma keeps_fault_data `{Board D} data : keeps f (terminal_add_fault_data data).
Proof.
  intros w a w'. unfold terminal_add_fault_data. case_decide; [|done].
  intros [= <- <-]. rewrite out_vec_write. apply out_vec.
Qed.
End Access.

#[export] Hint Resolve keeps_ret keeps_fail keeps_get keeps_mci keeps_mci_set keeps_hw keeps_hw_do
  keeps_hw_run keeps_tmo keeps_cmd keeps_cmd_set keeps_can keeps_sys keeps_sys_set keeps_emit
  keeps_ee_run keeps_lift_opt keeps_fault_data : keeps.

(** Walk through a computation; [keeps_unfold d] first unfolds a definition. *)
Ltac keeps_auto :=
  repeat first
    [ solve [eauto 3 with keeps]
    | assumption
    | apply keeps_bind; [|intro]
    | apply keeps_when
    | progress cbn zeta
    | match goal with
      | |- keeps _ (match ?x with _ => _ end) => destruct x
      | |- keeps _ (let _ := _ in _) => intro
      end ].

Section Interface.
Context {D F X : Type} `{Board D} (f : world D F -> X) `{!Outside f}.

Lemma keeps_by_motor {A} t (a b c : ST (world D F) A) :
  keeps f a -> keeps f b -> keeps f c -> keeps f (by_motor t a b c).
Proof. unfold by_motor. intros. destruct (_ || _); [done|]. by destruct (_ =? _). Qed.

Lemma keeps_motor_get {A} (d : A) g : keeps f (motor_get d g).
Proof. unfold motor_get. keeps_auto. apply keeps_by_motor; keeps_auto. Qed.
Lemma keeps_motor_do g : keeps f (motor_do g).
Proof. unfold motor_do. keeps_auto. apply keeps_by_motor; keeps_auto. Qed.
#[local] Hint Resolve keeps_motor_get keeps_motor_do : keeps.

Lemma keeps_try_input : keeps f mc_interface_try_input.
Proof. unfold mc_interface_try_input, mc_interface_get_state. keeps_auto. Qed.
#[local] Hint Resolve keeps_try_input : keeps.

Lemma keeps_if_input m : keeps f m -> keeps f (if_input m).
Proof. intros Hm. unfold if_input. keeps_auto. Qed.

Lemma keeps_set_duty x : keeps f (mc_interface_set_duty x).
Proof. apply keeps_if_input. keeps_auto. Qed.
Lemma keeps_set_pid_speed x : keeps f (mc_interface_set_pid_speed x).
Proof. apply keeps_if_input. keeps_auto. Qed.
Lemma keeps_set_pid_pos x : keeps f (mc_interface_set_pid_pos x).
Proof. apply keeps_if_input. keeps_auto. Qed.
Lemma keeps_set_current x : keeps f (mc_interface_set_current x).
Proof. apply keeps_if_input. keeps_auto. Qed.
Lemma keeps_set_brake_current x : keeps f (mc_interface_set_brake_current x).
Proof. apply keeps_if_input. keeps_auto. Qed.

Lemma keeps_tacho reset : keeps f (mc_interface_get_tachometer_value reset).
Proof. unfold mc_interface_get_tachometer_value. keeps_auto. apply keeps_by_motor; keeps_auto. Qed.
Lemma keeps_tacho_abs reset : keeps f (mc_interface_get_tachometer_abs_value reset).
Proof. unfold mc_interface_get_tachometer_abs_value. keeps_auto. apply keeps_by_motor; keeps_auto. Qed.
#[local] Hint Resolve keeps_tacho : keeps.

Lemma keeps_fault_stop fault : keeps f (mc_interface_fault_stop fault).
Proof.
  unfold mc_interface_fault_stop, mc_interface_dccal_done, log_fault, mc_interface_get_tot_current,
    mc_interface_get_tot_current_filtered, mc_interface_get_duty_cycle_now, mc_interface_get_rpm.
  keeps_auto.
Qed.
#[local] Hint Resolve keeps_fault_stop : keeps.

Lemma keeps_update_override_limits : keeps f update_override_limits.
Proof.
  unfold update_override_limits, update_temperature_limits, update_battery_limits, set_conf.
  keeps_auto.
Qed.
#[local] Hint Resolve keeps_update_override_limits : keeps.

Lemma keeps_init_encoder mode counts : keeps f (init_encoder mode counts).
Proof. unfold init_encoder. keeps_auto. Qed.
#[local] Hint Resolve keeps_init_encoder : keeps.

Lemma keeps_set_configuration c : keeps f (mc_interface_set_configuration c).
Proof. unfold mc_interface_set_configuration, set_conf. keeps_auto. Qed.
End Interface.

#[export] Hint Resolve keeps_motor_get keeps_motor_do keeps_try_input keeps_set_duty
  keeps_set_pid_speed keeps_set_pid_pos keeps_set_current keeps_set_brake_current keeps_tacho
  keeps_tacho_abs keeps_fault_stop keeps_update_override_limits keeps_set_configuration : keeps.

(** ** Sending *)

Section Sending.
Context {D F X : Type} (f : world D F -> X) `{!Outside f}.

Lemma keeps_transmit id data len : keeps f (comm_can_transmit id data len).
Proof. apply keeps_emit, _. Qed.
#[local] Hint Resolve keeps_transmit : keeps.

Lemma keeps_send_fill fuel dest data len i e : keeps f (send_fill fuel dest data len i e).
Proof. revert i e. induction fuel as [|fuel IH]; intros i e; cbn [send_fill]; keeps_auto. Qed.
Lemma keeps_send_fill_long fuel dest data len i : keeps f (send_fill_long fuel dest data len i).
Proof. revert i. induction fuel as [|fuel IH]; intros i; cbn [send_fill_long]; keeps_auto. Qed.
#[local] Hint Resolve keeps_send_fill keeps_send_fill_long : keeps.

Lemma keeps_can_send_buffer dest data len send : keeps f (comm_can_send_buffer dest data len send).
Proof. unfold comm_can_send_buffer. keeps_auto. Qed.
#[local] Hint Resolve keeps_can_send_buffer : keeps.

Lemma keeps_send_packet data len : keeps f (commands_send_packet data len).
Proof. unfold commands_send_packet, send_packet_wrapper. keeps_auto. Qed.
#[local] Hint Resolve keeps_send_packet : keeps.

Lemma keeps_send_reply m : keeps f (send_reply m).
Proof. unfold send_reply. keeps_auto. Qed.
Lemma keeps_set_send_func h : keeps f (commands_set_send_func h).
Proof. unfold commands_set_send_func. keeps_auto. Qed.
End Sending.

#[export] Hint Resolve keeps_can_send_buffer keeps_send_packet keeps_send_reply keeps_set_send_func
  : keeps.
