(* ===== verification/ConfTheorems.v ===== *)
(** * ConfTheorems: configurations on the wire and in the EEPROM

    The configuration messages round trip up to the precision of the wire
    format; what is stored is what is read; and which variables survive a page
    transfer of the EEPROM. *)
From S2P Require Import Prelude Float32 Buffer McTypes ConfCodec Motor Flash Eeprom EepromSpec.
From S2P Require Import EepromSpec EepromSafety EepromTheorems Utils World Transmit.
From S2P Require Import McInterface McInterfaceSpec ConfDefault FlashHelper Timeout ConfGeneral.
From S2P Require Import BoardSim.

(** ** The wire format *)

(** C40. Both configuration messages are read back exactly as they were
    written, field by field, up to the precision of the wire format. *)
Theorem configuration_roundtrip c a buf i :
  mc_configuration_typed c -> app_configuration_typed a -> 0 <= i ->
  i + Z.of_nat MCCONF_WIRE_LEN <= Z.of_nat (length buf) ->
  (exists buf', mcconf_append c (buf, i) = Some (tt, (buf', i + Z.of_nat MCCONF_WIRE_LEN)) /\
     mcconf_get buf' i = Some (mcconf_quant c, i + Z.of_nat MCCONF_WIRE_LEN)) /\
  (exists buf', appconf_append a (buf, i) = Some (tt, (buf', i + Z.of_nat APPCONF_WIRE_LEN)) /\
     appconf_get buf' i = Some (appconf_quant a, i + Z.of_nat APPCONF_WIRE_LEN)).
Proof.
  intros Hc Ha Hi. rewrite <- (mcconf_wire_length c Hc), <- (appconf_wire_length a Ha). intros Hlen.
  split; apply writes_reads; try done.
  - by apply mcconf_append_writes.
  - by apply mcconf_get_reads.
  - by apply appconf_append_writes.
  - by apply appconf_get_reads.
  - rewrite (appconf_wire_length a Ha). rewrite (mcconf_wire_length c Hc) in Hlen.
    unfold MCCONF_WIRE_LEN, APPCONF_WIRE_LEN in *. lia.
Qed.

(** The scaled values are truncated, not rounded: 0.251 comes back as 0.250. *)
Lemma wire_truncates buf :
  length buf = 4%nat ->
  exists buf', append_scaled (flit 251 1000) (f_of_int 1000) (buf, 0) = Some (tt, (buf', 4)) /\
    get_scaled buf' (f_of_int 1000) 0 = Some (flit 250 1000, 4).
Proof.
  intros Hlen. change 4 with (0 + Z.of_nat (length (be32 (f2i32 (flit 251 1000 * f_of_int 1000)%f32)))).
  replace (flit 250 1000) with (quant32 (f_of_int 1000) (flit 251 1000)) by (vm_compute; reflexivity).
  apply (writes_reads _ (fun data => get_scaled data (f_of_int 1000))); [apply writes_scaled|apply reads_scaled|done|]. rewrite Hlen. done.
Qed.

Lemma configuration_roundtrip_witness :
  let c := conf_general_get_default_mc_configuration in
  let a := conf_general_get_default_app_configuration in
  (exists buf', mcconf_append c (replicate 300 0, 1) = Some (tt, (buf', 282)) /\
     mcconf_get buf' 1 = Some (mcconf_quant c, 282)) /\
  (exists buf', appconf_append a (replicate 300 0, 1) = Some (tt, (buf', 126)) /\
     appconf_get buf' 1 = Some (appconf_quant a, 126)).
Proof.
  apply (configuration_roundtrip _ _ (replicate 300 0) 1 default_mc_typed default_app_typed); [lia|].
  vm_compute. discriminate.
Defined.

(** ** The EEPROM image *)

(** [sizeof] is even and every image has that many bytes. *)
Class LayoutOk (C : Type) `{Layout C} : Prop := {
  image_length (c : C) : length (image c) = (2 * half_words C)%nat;
  image_bytes (c : C) : is_bytes (image c)
}.

(** The variable that holds bytes [2k] and [2k + 1]. *)
Definition word (bytes : list Z) (k : Z) : Z :=
  256 * (bytes !!! Z.to_nat (2 * k)) + bytes !!! Z.to_nat (2 * k + 1).

(** [VirtAddVarTab] after [conf_general_init] with [n] half-words. *)
Definition conf_table (n : nat) : list Z :=
  map (fun k => u16 (EEPROM_BASE_MCCONF + k)) (seqZ 0 (Z.of_nat n)) ++
  map (fun k => u16 (EEPROM_BASE_APPCONF + k)) (seqZ 0 (Z.of_nat n)) ++
  replicate (Z.to_nat NB_OF_VAR - 2 * n) 0.

Section Image.
Context {D F : Type} `{Board D} `{Flash F} `{!FlashLaws F} `{!FlashReliable F}.
Abbreviation W := (world D F).

Definition with_ee (e : ee_state F) (w : W) : W := w <| w_ee := e |>.

Lemma ee_write_run va d (w : W) m tab :
  VirtAddVarTab w = tab -> represents tab m (ee_flash (w_ee w)) ->
  Forall is_addr tab -> 2 + Z.of_nat (length tab) <= 4096 -> va ∈ tab -> is_u16 d ->
  exists e, ee_write va d w = Some (FLASH_COMPLETE, with_ee e w) /\
    represents tab (<[va := d]> m) (ee_flash e).
Proof.
  intros Ht Hrep Htab Hlen Hva Hd.
  pose proof Hrep as (p & Hst & _).
  pose proof (proj1 (list.Forall_forall _ _) Htab) as Hin.
  destruct (write_variable_spec tab va d p _ Hst Htab Hlen (Hin va Hva) Hd) as ((_ & Hrel) & _).
  assert (Hc : (EE_WriteVariable tab va d (w_ee w)).1 = FLASH_COMPLETE) by by apply Hrel.
  pose proof (write_represents tab va d m _ Hrep Htab Hlen Hva Hd Hc) as Hrep'.
  unfold ee_write, ee_run. rewrite Ht.
  destruct (EE_WriteVariable tab va d (w_ee w)) as [st e]. cbn [fst snd] in *. subst st.
  by exists e.
Qed.

Lemma sample_at_run l i (w : W) :
  0 <= i < Z.of_nat (length l) -> sample_at l i w = Some (l !!! Z.to_nat i, w).
Proof.
  intros Hi. unfold sample_at, lift_opt. rewrite decide_True by lia.
  rewrite (list_lookup_lookup_total_lt l (Z.to_nat i)) by lia. done.
Qed.

(** The two bytes joined as the code joins them. *)
Lemma join_word b0 b1 :
  is_u8 b0 -> is_u8 b1 -> Z.lor (Z.land (Z.shiftl b0 8) 65280) (Z.land b1 255) = 256 * b0 + b1.
Proof.
  intros Hb0 Hb1. unfold is_u8 in *.
  assert (E1 : Z.land b1 255 = b1).
  { change 255 with (Z.ones 8). rewrite Z.land_ones by lia. by apply Z.mod_small. }
  assert (E0 : Z.land (Z.shiftl b0 8) 65280 = Z.shiftl b0 8).
  { change 65280 with (Z.shiftl (Z.ones 8) 8). rewrite <- Z.shiftl_land, Z.land_ones by lia.
    by rewrite Z.mod_small by lia. }
  rewrite E0, E1, lor_shiftl_add by lia. lia.
Qed.

Lemma split_word b0 b1 :
  is_u8 b0 -> is_u8 b1 ->
  Z.land (Z.shiftr (256 * b0 + b1) 8) 255 = b0 /\ Z.land (256 * b0 + b1) 255 = b1.
Proof.
  intros Hu0 Hu1. change 255 with (Z.ones 8). rewrite !Z.land_ones, Z.shiftr_div_pow2 by lia.
  change (2 ^ 8) with 256. unfold is_u8 in *. Z.to_euclidean_division_equations. lia.
Qed.

(** Two more elements of [new] over [old]. *)
Lemma update_pair (new old : list Z) k :
  0 <= k -> 2 * k + 1 < Z.of_nat (length new) -> length old = length new ->
  <[Z.to_nat (2 * k + 1) := new !!! Z.to_nat (2 * k + 1)]>
    (<[Z.to_nat (2 * k) := new !!! Z.to_nat (2 * k)]>
       (take (Z.to_nat (2 * k)) new ++ drop (Z.to_nat (2 * k)) old)) =
  take (Z.to_nat (2 * (k + 1))) new ++ drop (Z.to_nat (2 * (k + 1))) old.
Proof.
  intros Hk Hn Hlen.
  replace (Z.to_nat (2 * (k + 1))) with (S (S (Z.to_nat (2 * k)))) by lia.
  replace (Z.to_nat (2 * k + 1)) with (S (Z.to_nat (2 * k))) by lia.
  assert (Hj : (S (Z.to_nat (2 * k)) < length new)%nat) by lia. revert Hj.
  generalize (Z.to_nat (2 * k)). clear Hk Hn. intros j. revert old Hlen j.
  induction new as [|x new IH]; intros [|y old] Hlen j Hj; try (cbn in *; lia).
  destruct j as [|j].
  - destruct new as [|x' new], old as [|y' old]; cbn in *; (lia || done).
  - cbn. f_equal. apply IH; cbn in *; lia.
Qed.

Lemma bytes_total bs k : is_bytes bs -> (k < length bs)%nat -> is_u8 (bs !!! k).
Proof. intros Hb Hk. by apply Forall_lookup_total_1. Qed.

(** Storing [n] half-words from index [i] on. *)
Lemma store_image_spec bytes base tab n i m (w : W) :
  VirtAddVarTab w = tab -> represents tab m (ee_flash (w_ee w)) ->
  Forall is_addr tab -> 2 + Z.of_nat (length tab) <= 4096 ->
  is_bytes bytes -> 0 <= i -> 2 * (i + Z.of_nat n) <= Z.of_nat (length bytes) ->
  0 <= base -> base + i + Z.of_nat n <= 65535 ->
  (forall k, i <= k < i + Z.of_nat n -> base + k ∈ tab) ->
  exists e m', store_image n base i bytes w = Some (true, with_ee e w) /\
    represents tab m' (ee_flash e) /\
    (forall k, i <= k < i + Z.of_nat n -> m' !! (base + k) = Some (word bytes k)) /\
    (forall va, ~ (base + i <= va < base + i + Z.of_nat n) -> m' !! va = m !! va).
Proof.
  intros Ht Hrep Htab Hlen Hb Hi Hn Hbase Hmax Hin. revert i m w Ht Hrep Hi Hn Hmax Hin.
  induction n as [|n IH]; intros i m w Ht Hrep Hi Hn Hmax Hin; cbn [store_image].
  { exists (w_ee w), m. split; [|split; [done|split; [lia|done]]].
    unfold with_ee. by destruct w. }
  pose proof (bytes_total bytes (Z.to_nat (2 * i)) Hb ltac:(lia)) as Hb0.
  pose proof (bytes_total bytes (Z.to_nat (2 * i + 1)) Hb ltac:(lia)) as Hb1.
  rewrite (ST_bind_Some _ _ _ _ _ (sample_at_run bytes (2 * i) w ltac:(lia))).
  rewrite (ST_bind_Some _ _ _ _ _ (sample_at_run bytes (2 * i + 1) w ltac:(lia))).
  rewrite (join_word _ _ Hb0 Hb1).
  assert (Hu : u16 (base + i) = base + i) by (apply u16_id; unfold is_u16; lia).
  rewrite Hu.
  destruct (ee_write_run (base + i) (word bytes i) w m tab) as (e & Hrun & Hrep'); try done.
  { apply Hin. lia. }
  { unfold word, is_u16, is_u8 in *. lia. }
  rewrite (ST_bind_Some _ _ _ _ _ Hrun). cbn [negb Z.eqb FLASH_COMPLETE Pos.eqb].
  destruct (IH (i + 1) (<[base + i := word bytes i]> m) (with_ee e w))
    as (e' & m' & Hrun' & Hr & Hnew & Hold); try done; try lia.
  { intros k Hk. apply Hin. lia. }
  exists e', m'. split; [rewrite Hrun'; by destruct w|]. split; [done|]. split.
  - intros k Hk. destruct (decide (k = i)) as [->|]; [|apply Hnew; lia].
    by rewrite Hold, lookup_insert_eq by lia.
  - intros va Hva. by rewrite Hold, lookup_insert_ne by lia.
Qed.

(** Reading [n] half-words from index [i] on. *)
Lemma read_image_spec bytes base n i old (w : W) :
  is_bytes bytes -> 0 <= i -> 2 * (i + Z.of_nat n) <= Z.of_nat (length bytes) ->
  length old = length bytes -> 0 <= base -> base + i + Z.of_nat n <= 65535 ->
  (forall k, i <= k < i + Z.of_nat n ->
     ee_lookup (ee_flash (w_ee w)) (base + k) = Some (word bytes k)) ->
  let upto k := take (Z.to_nat (2 * k)) bytes ++ drop (Z.to_nat (2 * k)) old in
  read_image n base i (upto i) w = Some ((upto (i + Z.of_nat n), true), w).
Proof.
  intros Hb Hi Hn Hlen Hbase Hmax Hlk upto. revert i Hi Hn Hmax Hlk.
  induction n as [|n IH]; intros i Hi Hn Hmax Hlk; cbn [read_image].
  { by rewrite Z.add_0_r. }
  pose proof (bytes_total bytes (Z.to_nat (2 * i)) Hb ltac:(lia)) as Hb0.
  pose proof (bytes_total bytes (Z.to_nat (2 * i + 1)) Hb ltac:(lia)) as Hb1.
  assert (Hu : u16 (base + i) = base + i) by (apply u16_id; unfold is_u16; lia).
  rewrite Hu.
  specialize (Hlk i ltac:(lia)) as Hi'. unfold ee_lookup in Hi'.
  destruct (EE_ReadVariable (base + i) 0 (ee_flash (w_ee w))) as [st v] eqn:E.
  destruct (st =? 0) eqn:Est; [|done]. injection Hi' as ->.
  unfold mbind at 1, ST_bind at 1. unfold ee_read at 1. rewrite E, Est.
  destruct (split_word _ _ Hb0 Hb1) as [Hhi Hlo].
  change (256 * _ + _) with (word bytes i) in Hhi, Hlo.
  rewrite Hhi, Hlo.
  assert (Hup : length (upto i) = length bytes).
  { unfold upto. rewrite length_app, length_take, length_drop. lia. }
  assert (Hstep : <[Z.to_nat (2 * i + 1) := bytes !!! Z.to_nat (2 * i + 1)]>
                    (<[Z.to_nat (2 * i) := bytes !!! Z.to_nat (2 * i)]> (upto i)) = upto (i + 1)).
  { unfold upto. apply update_pair; lia. }
  unfold lift_opt, arr_set. unfold mbind at 1, ST_bind at 1. rewrite decide_True by lia.
  cbn [mbind option_bind]. unfold mbind at 1, ST_bind at 1. rewrite length_insert, decide_True by lia.
  cbn [mbind option_bind]. rewrite Hstep.
  rewrite IH; try lia.
  - by replace (i + 1 + Z.of_nat n) with (i + Z.of_nat (S n)) by lia.
  - intros k Hk. apply Hlk. lia.
Qed.

(** A variable that is not found ends the reading. *)
Lemma read_image_missing base n i old k (w : W) :
  0 <= i -> 2 * (i + Z.of_nat n) <= Z.of_nat (length old) -> 0 <= base ->
  base + i + Z.of_nat n <= 65535 -> i <= k < i + Z.of_nat n ->
  ee_lookup (ee_flash (w_ee w)) (base + k) = None ->
  exists b, read_image n base i old w = Some ((b, false), w).
Proof.
  intros Hi Hn Hbase Hmax Hk Hlk. revert i old Hi Hn Hmax Hk.
  induction n as [|n IH]; intros i old Hi Hn Hmax Hk; cbn [read_image]; [lia|].
  assert (Hu : u16 (base + i) = base + i) by (apply u16_id; unfold is_u16; lia). rewrite Hu.
  unfold mbind at 1, ST_bind at 1. unfold ee_read at 1.
  destruct (EE_ReadVariable (base + i) 0 (ee_flash (w_ee w))) as [st v] eqn:E.
  destruct (st =? 0) eqn:Est; [|by exists old].
  assert (Hne : k <> i).
  { intros ->. unfold ee_lookup in Hlk. by rewrite E, Est in Hlk. }
  unfold lift_opt, arr_set. unfold mbind at 1, ST_bind at 1. rewrite decide_True by lia.
  cbn [mbind option_bind]. unfold mbind at 1, ST_bind at 1. rewrite length_insert, decide_True by lia.
  cbn [mbind option_bind]. apply IH; rewrite ?length_insert; lia.
Qed.
End Image.

(** ** Initialisation, storing and reading *)

Lemma two_inserts (l1 l2 : list Z) k z :
  list_inserts (length l1) l2
    (list_inserts 0 l1 (replicate (length l1 + (length l2 + k)) z)) = l1 ++ l2 ++ replicate k z.
Proof.
  rewrite !replicate_add, list_inserts_0_r by (by rewrite length_replicate).
  rewrite <- (Nat.add_0_r (length l1)), list_inserts_app_r.
  by rewrite list_inserts_0_r by (by rewrite length_replicate).
Qed.

Lemma conf_table_length n : (2 * n <= 160)%nat -> length (conf_table n) = 160%nat.
Proof.
  intros Hn. unfold conf_table, NB_OF_VAR.
  rewrite !length_app, !length_map, length_seqZ, length_replicate. lia.
Qed.

Lemma elem_of_conf_table n va :
  (n <= 80)%nat -> va ∈ conf_table n <->
  1000 <= va < 1000 + Z.of_nat n \/ 2000 <= va < 2000 + Z.of_nat n \/ (n < 80)%nat /\ va = 0.
Proof.
  intros Hn. unfold conf_table. rewrite !elem_of_app, !list_elem_of_fmap.
  setoid_rewrite elem_of_seqZ. rewrite elem_of_replicate.
  unfold u16, EEPROM_BASE_MCCONF, EEPROM_BASE_APPCONF, NB_OF_VAR. split.
  - intros [(k & -> & Hk)|[(k & -> & Hk)|[-> Hz]]]; rewrite ?Z.mod_small by lia; lia.
  - intros [Hv|[Hv|[Hz ->]]].
    + left. exists (va - 1000). rewrite Z.mod_small by lia. lia.
    + right. left. exists (va - 2000). rewrite Z.mod_small by lia. lia.
    + right. right. lia.
Qed.

Lemma conf_table_addr n : (n <= 80)%nat -> Forall is_addr (conf_table n).
Proof.
  intros Hn. apply list.Forall_forall. intros va Hva.
  apply elem_of_conf_table in Hva; [|done]. unfold is_addr, is_u16. lia.
Qed.

Section Conf.
Context {D F : Type} `{Board D} `{Flash F} `{!FlashLaws F} `{!FlashReliable F}.
Abbreviation W := (world D F).

Lemma assign_addresses_run n base i ind (w : W) :
  0 <= ind -> ind + Z.of_nat n <= Z.of_nat (length (VirtAddVarTab w)) ->
  assign_addresses n base i ind w =
  Some (ind + Z.of_nat n, w <| VirtAddVarTab :=
    list_inserts (Z.to_nat ind) (map (fun k => u16 (base + k)) (seqZ i (Z.of_nat n)))
      (VirtAddVarTab w) |>).
Proof.
  revert i ind w. induction n as [|n IH]; intros i ind w Hind Hlen; cbn [assign_addresses].
  { rewrite Z.add_0_r. by destruct w. }
  unfold mbind at 1, ST_bind at 1. unfold arr_set at 1. rewrite decide_True by lia.
  cbn [mbind option_bind]. rewrite IH; [|lia|].
  2: { cbv [setter eta world_eta]. cbn [VirtAddVarTab]. rewrite length_insert. lia. }
  rewrite (seqZ_cons i (Z.of_nat (S n))) by lia.
  replace (Z.pred (Z.of_nat (S n))) with (Z.of_nat n) by lia. change (Z.succ i) with (i + 1).
  cbv [setter eta world_eta]. cbn [map VirtAddVarTab list_inserts w_mci w_tmo w_cmd w_can w_sys
    appconf w_ee fault_vec fault_vec_write w_out w_hw].
  replace (Z.to_nat (ind + 1)) with (S (Z.to_nat ind)) by lia.
  rewrite list_insert_inserts_lt by lia.
  by replace (ind + 1 + Z.of_nat n) with (ind + Z.of_nat (S n)) by lia.
Qed.

(** The system after initialisation or a configuration was stored. *)
Definition released (w w' : W) : Prop :=
  exists s d, w' = w <| w_mci := s |> <| w_hw := d |>.

Lemma released_mk s d (w : W) :
  released w (mkWorld s (w_tmo w) (w_cmd w) (w_can w) (w_sys w) (appconf w) (w_ee w)
    (VirtAddVarTab w) (fault_vec w) (fault_vec_write w) (w_out w) d).
Proof. exists s, d. by destruct w. Qed.

Lemma released_refl (w : W) : released w w.
Proof. exists (w_mci w), (w_hw w). by destruct w. Qed.

Lemma try_input_total (w : W) :
  exists t w', mc_interface_try_input w = Some (t, w') /\ released w w'.
Proof.
  unfold mc_interface_try_input. rewrite (ST_bind_Some _ _ _ _ _ (get_state_run w)).
  destruct (motor_state w =? MC_STATE_DETECTING); st_run.
  - eexists _, _. split; [done|]. apply released_mk.
  - destruct (_ && _); [|eexists _, _; split; [done|apply released_refl]]. st_run.
    destruct (negb _); eexists _, _; (split; [done|]); [apply released_refl|apply released_mk].
Qed.

Lemma release_motor_total (w : W) :
  exists w', mc_interface_release_motor w = Some (tt, w') /\ released w w'.
Proof.
  unfold mc_interface_release_motor, mc_interface_set_current, if_input.
  destruct (try_input_total w) as (t & w1 & Hrun & s & d & ->).
  rewrite (ST_bind_Some _ _ _ _ _ Hrun). destruct (t =? 0).
  - rewrite motor_do_run. eexists. split; [done|]. unfold drive.
    destruct (the_driver _) as [dr|]; apply (released_mk _ _ w).
  - eexists. split; [done|]. apply (released_mk _ _ w).
Qed.

(** The world in which the flash is written: motor released, system locked,
    watchdog off. *)
Definition locked_sys (s : sys_state) : sys_state :=
  (if sys_lock_cnt s =? 0 then s <| sys_locked := true |> else s)
    <| sys_lock_cnt := sys_lock_cnt s + 1 |> <| wwdg_enabled := false |>.

Lemma locked_sys_cnt s : sys_lock_cnt (locked_sys s) = sys_lock_cnt s + 1.
Proof. unfold locked_sys. by destruct (_ =? 0). Qed.

Lemma access_entry (w : W) :
  exists s d, forall B (k : ST W B),
    (mc_interface_unlock;; mc_interface_release_motor;; utils_sys_lock_cnt;; wwdg false;; k) w
    = k (w <| w_mci := s |> <| w_hw := d |> <| w_sys := locked_sys (w_sys w) |>).
Proof.
  destruct (release_motor_total (w <| w_mci := (w_mci w) <| m_lock_enabled := false |> |>))
    as (w0 & Hrel & s & d & ->).
  exists s, d. intros B k. unfold mc_interface_unlock.
  unfold mbind at 1, ST_bind at 1. unfold mci_set at 1, st_modify at 1.
  rewrite (ST_bind_Some _ _ _ _ _ Hrel). unfold utils_sys_lock_cnt, wwdg, locked_sys.
  by st_run; destruct (sys_lock_cnt (w_sys w) =? 0).
Qed.

(** Turning the watchdog on and unlocking undoes [locked_sys]. *)
Definition unlocked (w w' : W) : Prop :=
  w_ee w' = w_ee w /\ VirtAddVarTab w' = VirtAddVarTab w /\ wwdg_enabled (w_sys w') = true /\
  sys_lock_cnt (w_sys w') = sys_lock_cnt (w_sys w) - 1.

Lemma access_exit (w : W) :
  0 < sys_lock_cnt (w_sys w) ->
  exists w', unlocked w w' /\
  forall B (k : ST W B), (wwdg true;; utils_sys_unlock_cnt;; k) w = k w'.
Proof.
  intros Hcnt. unfold utils_sys_unlock_cnt, wwdg.
  exists (w <| w_sys := (if sys_lock_cnt (w_sys w) - 1 =? 0 then (w_sys w) <| sys_locked := false |>
                         else w_sys w) <| sys_lock_cnt := sys_lock_cnt (w_sys w) - 1 |>
                         <| wwdg_enabled := true |> |>).
  split.
  - unfold unlocked. by st_run.
  - intros B k. st_run. destruct (Z.eqb_spec (sys_lock_cnt (w_sys w)) 0); [lia|]. st_run.
    by destruct (_ =? 0); st_run.
Qed.

(** The frame of the storing functions around a body that changes only the
    EEPROM. *)
Lemma with_motor_stopped_run (body : ST W bool) (w : W) :
  0 <= sys_lock_cnt (w_sys w) ->
  exists w1, w_ee w1 = w_ee w /\ VirtAddVarTab w1 = VirtAddVarTab w /\
  forall ok e, body w1 = Some (ok, with_ee e w1) ->
  exists w', with_motor_stopped body w = Some (ok, w') /\ w_ee w' = e /\
    VirtAddVarTab w' = VirtAddVarTab w /\ wwdg_enabled (w_sys w') = true /\
    sys_lock_cnt (w_sys w') = sys_lock_cnt (w_sys w).
Proof.
  intros Hcnt. destruct (access_entry w) as (s & d & Hentry). eexists. split; [|split]; cycle 2.
  - intros ok e Hbody. unfold with_motor_stopped. rewrite Hentry.
    rewrite (ST_bind_Some _ _ _ _ _ Hbody).
    destruct (access_exit (with_ee e (w <| w_mci := s |> <| w_hw := d |>
      <| w_sys := locked_sys (w_sys w) |>))) as (w' & (He & Ht & Hwd & Hc) & Hexit).
    { change (0 < sys_lock_cnt (locked_sys (w_sys w))). rewrite locked_sys_cnt. lia. }
    exists w'. rewrite Hexit. split; [done|]. split; [exact He|]. split; [exact Ht|].
    split; [exact Hwd|]. rewrite Hc.
    change (sys_lock_cnt (locked_sys (w_sys w)) - 1 = sys_lock_cnt (w_sys w)). rewrite locked_sys_cnt. lia.
  - done.
  - done.
Qed.

Lemma ok_then_ok (a b : op F) s :
  (forall s, (a s).1 = FLASH_COMPLETE) -> (forall s, (b s).1 = FLASH_COMPLETE) ->
  (ok_then a b s).1 = FLASH_COMPLETE.
Proof. intros Ha Hb. unfold ok_then. pose proof (Ha s). destruct (a s). cbn in *. subst. apply Hb. Qed.

Lemma erase_ok sector v (s : ee_state F) : (EE_EraseSectorIfNotEmpty sector v s).1 = FLASH_COMPLETE.
Proof.
  unfold EE_EraseSectorIfNotEmpty. destruct (any_programmed _ _ _); [|done].
  unfold flash_op. pose proof (erase_sector_ok sector v (ee_flash s)).
  by destruct (FLASH_EraseSector _ _ _).
Qed.

Lemma format_ok (s : ee_state F) : (EE_Format s).1 = FLASH_COMPLETE.
Proof.
  apply ok_then_ok; [intros; apply erase_ok|]. intros s'. apply ok_then_ok; [|intros; apply erase_ok].
  intros s2. unfold flash_op. pose proof (program_halfword_ok PAGE0_BASE_ADDRESS VALID_PAGE (ee_flash s2)).
  by destruct (FLASH_ProgramHalfWord _ _ _).
Qed.

(** [EE_Init] on a blank chip and on one in use. *)
Lemma ee_init_represents tab m (s : ee_state F) :
  page_empty (ee_flash s) 0 /\ page_empty (ee_flash s) 1 /\ m = ∅ \/ represents tab m (ee_flash s) ->
  (forall va, va ∈ tab -> va <> 0xFFFF) ->
  exists e, EE_Init tab s = (FLASH_COMPLETE, e) /\ represents tab m (ee_flash e).
Proof.
  intros [(E0 & E1 & ->)|Hrep] Hne.
  - assert (HI : EE_Init tab s = EE_Format s).
    { rewrite <- (ok_then_done EE_Format). unfold EE_Init.
      change (rd16 (ee_flash s) PAGE0_BASE_ADDRESS) with (status (ee_flash s) 0).
      change (rd16 (ee_flash s) PAGE1_BASE_ADDRESS) with (status (ee_flash s) 1).
      by rewrite (status_empty _ _ E0), (status_empty _ _ E1). }
    rewrite HI. pose proof (format_ok s) as Hok. destruct (format_spec s Hok) as [Hst Hn].
    destruct (EE_Format s) as [st e]. cbn [fst snd] in *. subst st. exists e. split; [done|].
    exists 0. split; [done|]. intros va Hva. rewrite lookup_empty. by apply Hn, Hne.
  - destruct Hrep as (p & Hst & Hr). exists s. rewrite (init_stable tab p s Hst).
    split; [done|]. by exists p.
Qed.

(** Initialisation on a blank flash or on one in use fills the table
    of variables and leaves an EEPROM that holds what was stored before. *)
Theorem conf_general_init_table `{Layout app_configuration} m (w : W) :
  (half_words app_configuration <= 80)%nat ->
  let tab := conf_table (half_words app_configuration) in
  page_empty (ee_flash (w_ee w)) 0 /\ page_empty (ee_flash (w_ee w)) 1 /\ m = ∅ \/
  represents tab m (ee_flash (w_ee w)) ->
  exists e, conf_general_init w = Some (tt, with_ee e (w <| VirtAddVarTab := tab |>)) /\
    represents tab m (ee_flash e).
Proof.
  intros Hn tab Hflash. set (n := half_words app_configuration) in *.
  assert (Htab : list_inserts n (map (fun k => u16 (EEPROM_BASE_APPCONF + k)) (seqZ 0 (Z.of_nat n)))
    (list_inserts 0 (map (fun k => u16 (EEPROM_BASE_MCCONF + k)) (seqZ 0 (Z.of_nat n)))
       (replicate (Z.to_nat NB_OF_VAR) 0)) = tab).
  { unfold tab, conf_table. change (Z.to_nat NB_OF_VAR) with 160%nat.
    pose proof (two_inserts (map (fun k => u16 (EEPROM_BASE_MCCONF + k)) (seqZ 0 (Z.of_nat n)))
      (map (fun k => u16 (EEPROM_BASE_APPCONF + k)) (seqZ 0 (Z.of_nat n))) (160 - 2 * n) 0) as E.
    rewrite !length_map, !length_seqZ, !Nat2Z.id in E. rewrite <- E.
    do 3 f_equal. lia. }
  unfold conf_general_init. fold n.
  unfold mbind at 1, ST_bind at 1. unfold st_modify at 1.
  erewrite ST_bind_Some; [|apply assign_addresses_run; [lia|]].
  2: { cbv [setter eta world_eta]. cbn [VirtAddVarTab]. rewrite length_replicate.
       unfold NB_OF_VAR. lia. }
  erewrite ST_bind_Some; [|apply assign_addresses_run; [lia|]].
  2: { cbv [setter eta world_eta]. cbn [VirtAddVarTab]. rewrite length_inserts, length_replicate.
       unfold NB_OF_VAR. lia. }
  cbv [setter eta world_eta]. cbn [VirtAddVarTab]. rewrite Z.add_0_l, Nat2Z.id.
  change (Z.to_nat 0) with 0%nat. rewrite Htab.
  unfold mbind, ST_bind, ee_run. cbn.
  destruct (ee_init_represents tab m (w_ee w)) as (e & -> & Hrep); [done| |].
  { intros va Hva. apply elem_of_conf_table in Hva; lia. }
  exists e. split; [by destruct w|done].
Qed.

Lemma lookup_represents tab m (s : F) va : represents tab m s -> va ∈ tab -> ee_lookup s va = m !! va.
Proof. intros (p & Hp & Hr) Hva. by rewrite (ee_lookup_page _ p), Hr. Qed.

(** The variables of the stored configuration. *)
Definition holds_app `{Layout app_configuration} (c : app_configuration) (look : Z -> option Z) : Prop :=
  forall k, 0 <= k < Z.of_nat (half_words app_configuration) -> look (EEPROM_BASE_APPCONF + k) = Some (word (image c) k).

Lemma read_app_run `{Layout app_configuration} `{!LayoutOk app_configuration} c old (w : W) :
  (half_words app_configuration <= 80)%nat -> of_image (image c) = c ->
  holds_app c (ee_lookup (ee_flash (w_ee w))) ->
  conf_general_read_app_configuration old w = Some (c, w).
Proof.
  intros Hn Hc Hlook. unfold conf_general_read_app_configuration, holds_app in *. set (n := half_words app_configuration) in *.
  pose proof (image_length c) as Hlen. fold n in Hlen. pose proof (image_length old) as Hold. fold n in Hold.
  pose proof (read_image_spec (image c) EEPROM_BASE_APPCONF n 0 (image old) w (image_bytes c)) as Hread.
  cbv zeta beta in Hread. change (Z.to_nat (2 * 0)) with 0%nat in Hread. rewrite take_0, drop_0 in Hread.
  erewrite ST_bind_Some; [|apply Hread; unfold EEPROM_BASE_APPCONF in *; try lia].
  - rewrite take_ge, drop_ge, app_nil_r by lia. by rewrite Hc.
  - intros k Hk. by apply Hlook.
Qed.

(** On a flash without errors an application configuration is stored, page
    transfers included; the motor configuration variables keep their values,
    and the watchdog and the system lock are as before. *)
Lemma app_configuration_saved `{Layout app_configuration} `{!LayoutOk app_configuration} c m (w : W) :
  (half_words app_configuration <= 80)%nat ->
  let tab := conf_table (half_words app_configuration) in
  VirtAddVarTab w = tab -> represents tab m (ee_flash (w_ee w)) -> 0 <= sys_lock_cnt (w_sys w) ->
  exists w' m', conf_general_store_app_configuration c w = Some (true, w') /\
    represents tab m' (ee_flash (w_ee w')) /\ holds_app c (fun va => m' !! va) /\
    (forall va, va < EEPROM_BASE_APPCONF -> m' !! va = m !! va) /\
    wwdg_enabled (w_sys w') = true /\ sys_lock_cnt (w_sys w') = sys_lock_cnt (w_sys w).
Proof.
  intros Hn tab Ht Hrep Hcnt. unfold holds_app. set (n := half_words app_configuration) in *.
  pose proof (image_length c) as Hlen. fold n in Hlen. pose proof (image_bytes c) as Hb.
  destruct (with_motor_stopped_run
    (store_image n EEPROM_BASE_APPCONF 0 (image c)) w Hcnt) as (w1 & He1 & Ht1 & Hrun).
  assert (Hin : forall k, 0 <= k < 0 + Z.of_nat n -> EEPROM_BASE_APPCONF + k ∈ tab).
  { intros k Hk. apply elem_of_conf_table; [exact Hn|]. unfold EEPROM_BASE_APPCONF. lia. }
  destruct (store_image_spec (image c) EEPROM_BASE_APPCONF tab n 0 m w1)
    as (e & m' & Hst & Hrep' & Hnew & Hkeep);
    [congruence|by rewrite He1|exact (conf_table_addr n Hn)| |exact Hb|lia|lia|
     unfold EEPROM_BASE_APPCONF; lia|unfold EEPROM_BASE_APPCONF; lia|exact Hin|].
  { unfold tab. rewrite conf_table_length by lia. lia. }
  destruct (Hrun _ _ Hst) as (w' & Hw' & He' & Ht' & Hwd & Hlk).
  exists w', m'. split; [exact Hw'|]. rewrite He'. split; [exact Hrep'|]. split; [exact Hnew|]. split; [|done].
  intros va Hlt. apply Hkeep. unfold EEPROM_BASE_APPCONF in *. lia.
Qed.

(** It is read back exactly. *)
Theorem app_configuration_stored `{Layout app_configuration} `{!LayoutOk app_configuration}
    c old m (w : W) :
  (half_words app_configuration <= 80)%nat -> of_image (image c) = c ->
  let tab := conf_table (half_words app_configuration) in
  VirtAddVarTab w = tab -> represents tab m (ee_flash (w_ee w)) -> 0 <= sys_lock_cnt (w_sys w) ->
  exists w', conf_general_store_app_configuration c w = Some (true, w') /\
    conf_general_read_app_configuration old w' = Some (c, w') /\
    wwdg_enabled (w_sys w') = true /\ sys_lock_cnt (w_sys w') = sys_lock_cnt (w_sys w) /\
    forall va, va ∈ tab -> va < EEPROM_BASE_APPCONF ->
      ee_lookup (ee_flash (w_ee w')) va = ee_lookup (ee_flash (w_ee w)) va.
Proof.
  intros Hn Hc tab Ht Hrep Hcnt.
  destruct (app_configuration_saved c m w Hn Ht Hrep Hcnt) as (w' & m' & Hw & Hrep' & Hnew & Hkeep & Hwd & Hlk).
  exists w'. split; [exact Hw|]. split; [|split; [done|split; [done|]]].
  - apply read_app_run; [done|done|]. intros k Hk. rewrite (lookup_represents tab m' _ _ Hrep'); [by apply Hnew|].
    apply elem_of_conf_table; [exact Hn|]. unfold EEPROM_BASE_APPCONF. lia.
  - intros va Hva Hlt. by rewrite (lookup_represents tab m' _ _ Hrep'), (lookup_represents tab m _ _ Hrep), Hkeep.
Qed.

(** The table of variables has as many entries for the motor
    configuration as the application configuration has half-words: if the
    motor configuration is larger, the first write to a full page loses
    the rest, and the motor configuration is then read as the default. *)
Theorem mc_configuration_lost `{Layout app_configuration} `{Layout mc_configuration}
    va d p old (w w' : W) :
  (half_words app_configuration <= 80)%nat ->
  (half_words app_configuration < half_words mc_configuration <= 1000)%nat ->
  let tab := conf_table (half_words app_configuration) in
  VirtAddVarTab w = tab -> stable p (ee_flash (w_ee w)) -> page_wf (ee_flash (w_ee w)) p 4096 ->
  va ∈ tab -> is_u16 d -> length (image old) = (2 * half_words mc_configuration)%nat ->
  ee_write va d w = Some (FLASH_COMPLETE, w') ->
  conf_general_read_mc_configuration old w' = Some (conf_general_get_default_mc_configuration, w').
Proof.
  intros Hn Hlt tab Ht Hst Hwf Hva Hd Hold Hw.
  set (n := half_words app_configuration) in *.
  pose proof (conf_table_addr n Hn) as Haddr.
  pose proof (proj1 (list.Forall_forall _ _) Haddr) as Hin.
  assert (Hlen : 2 + Z.of_nat (length tab) <= 4096).
  { unfold tab. rewrite conf_table_length by lia. lia. }
  unfold ee_write, ee_run in Hw. rewrite Ht in Hw.
  destruct (EE_WriteVariable tab va d (w_ee w)) as [st e] eqn:E. injection Hw as -> <-.
  assert (Hnone : ee_lookup (ee_flash e) (EEPROM_BASE_MCCONF + Z.of_nat n) = None).
  { change e with (FLASH_COMPLETE, e).2. rewrite <- E.
    assert (Hnt : EEPROM_BASE_MCCONF + Z.of_nat n ∉ tab).
    { unfold tab. rewrite elem_of_conf_table by exact Hn. unfold EEPROM_BASE_MCCONF. lia. }
    apply (full_write_drops tab va d p (w_ee w)); try assumption.
    - apply Hin, Hva.
    - by rewrite E.
    - unfold EEPROM_BASE_MCCONF. lia.
    - intros <-. by apply Hnt. }
  unfold conf_general_read_mc_configuration.
  destruct (read_image_missing EEPROM_BASE_MCCONF (half_words mc_configuration) 0 (image old)
    (Z.of_nat n) (with_ee e w)) as (b & Hrd); try (unfold EEPROM_BASE_MCCONF; lia); [exact Hnone|].
  change (w <| w_ee := e |>) with (with_ee e w).
  by rewrite (ST_bind_Some _ _ _ _ _ Hrd).
Qed.
End Conf.

(** ** Witnesses: structures laid out as on the wire, padded to whole half-words *)

Definition padded (n : nat) (bytes : list Z) : list Z := take n (map u8 bytes ++ replicate n 0).

Lemma padded_length n bytes : length (padded n bytes) = n.
Proof. unfold padded. rewrite length_take, length_app, length_replicate. lia. Qed.

Lemma padded_bytes n bytes : is_bytes (padded n bytes).
Proof.
  apply Forall_take, Forall_app. split.
  - apply list.Forall_forall. intros x (y & -> & _)%list_elem_of_fmap. apply u8_range.
  - apply Forall_replicate. done.
Qed.

#[export] Instance sim_app_layout : Layout app_configuration := {
  sizeof := 126;
  image c := padded 126 (appconf_wire c);
  of_image bs := match appconf_get bs 0 with
                 | Some (c, _) => c | None => conf_general_get_default_app_configuration end
}.

#[export] Instance sim_mc_layout : Layout mc_configuration := {
  sizeof := 282;
  image c := padded 282 (mcconf_wire c);
  of_image bs := match mcconf_get bs 0 with
                 | Some (c, _) => c | None => conf_general_get_default_mc_configuration end
}.

#[export] Instance sim_app_layout_ok : LayoutOk app_configuration.
Proof. split; intros c; [apply padded_length|apply padded_bytes]. Qed.

#[export] Instance sim_mc_layout_ok : LayoutOk mc_configuration.
Proof. split; intros c; [apply padded_length|apply padded_bytes]. Qed.

Lemma blank_pages p : is_page p -> page_empty (ee_flash (w_ee (sim_world MOTOR_TYPE_BLDC))) p.
Proof. by intros _ j _. Qed.

Lemma sim_half_words :
  (half_words app_configuration <= 80)%nat /\
  (half_words app_configuration < half_words mc_configuration <= 1000)%nat.
Proof. vm_compute. lia. Qed.

Lemma conf_general_init_table_witness :
  exists e, conf_general_init (sim_world MOTOR_TYPE_BLDC) =
    Some (tt, with_ee e ((sim_world MOTOR_TYPE_BLDC) <| VirtAddVarTab := conf_table 63 |>)) /\
    represents (conf_table 63) ∅ (ee_flash e).
Proof.
  exact (conf_general_init_table ∅ (sim_world MOTOR_TYPE_BLDC) (proj1 sim_half_words)
    (or_introl (conj (blank_pages 0 (or_introl eq_refl))
      (conj (blank_pages 1 (or_intror eq_refl)) eq_refl)))).
Defined.

Definition formatted_world : world sim flash_mem :=
  (sim_world MOTOR_TYPE_BLDC) <| VirtAddVarTab := conf_table 63 |> <| w_ee := (EE_Format blank_mem).2 |>.

Lemma formatted_represents : represents (conf_table 63) ∅ (ee_flash (w_ee formatted_world)).
Proof.
  exists 0. split; [apply blank_mem_stable|]. intros va Hva. rewrite lookup_empty.
  assert (Hf : va <> 0xFFFF) by (apply elem_of_conf_table in Hva; lia).
  exact (proj2 (format_spec blank_mem blank_mem_formats) va Hf).
Qed.

Lemma sim_app_image : of_image (image sim_appconf) = sim_appconf.
Proof. vm_compute. reflexivity. Qed.

Lemma app_configuration_stored_witness :
  exists w', conf_general_store_app_configuration sim_appconf formatted_world = Some (true, w') /\
    conf_general_read_app_configuration conf_general_get_default_app_configuration w'
    = Some (sim_appconf, w').
Proof.
  destruct (app_configuration_stored sim_appconf conf_general_get_default_app_configuration ∅
    formatted_world (proj1 sim_half_words) sim_app_image eq_refl formatted_represents (Z.le_refl 0))
    as (w' & Hs & Hr & _).
  exact (ex_intro _ w' (conj Hs Hr)).
Defined.

(** Page 0 in use and full. *)
Definition full_world : world sim flash_mem :=
  let w := sim_world MOTOR_TYPE_BLDC in
  mkWorld (w_mci w) (w_tmo w) (w_cmd w) (w_can w) (w_sys w) (appconf w) full_mem
    (conf_table 63) (fault_vec w) (fault_vec_write w) (w_out w) (w_hw w).

Lemma table_has_2000 : 2000 ∈ conf_table 63.
Proof. apply elem_of_conf_table; lia. Qed.

Lemma full_write_complete : (EE_WriteVariable (conf_table 63) 2000 5 full_mem).1 = FLASH_COMPLETE.
Proof.
  assert (Hn : (63 <= 80)%nat) by lia. assert (Hlen : 2 + Z.of_nat (length (conf_table 63)) <= 4096).
  { rewrite conf_table_length; lia. }
  pose proof (proj1 (list.Forall_forall _ _) (conf_table_addr 63 Hn) 2000 table_has_2000) as Ha.
  destruct (write_variable_spec (conf_table 63) 2000 5 0 full_mem (proj1 full_mem_stable)
    (conf_table_addr 63 Hn) Hlen Ha five_u16) as ((_ & Hrel) & _).
  exact (Hrel flash_mem_reliable).
Qed.

Lemma full_world_write :
  ee_write 2000 5 full_world =
  Some (FLASH_COMPLETE, with_ee (EE_WriteVariable (conf_table 63) 2000 5 full_mem).2 full_world).
Proof.
  unfold ee_write, ee_run, full_world. cbn [VirtAddVarTab w_ee].
  pose proof full_write_complete as Hc. destruct (EE_WriteVariable _ _ _ _) as [st e].
  cbn [fst snd] in *. by subst st.
Qed.

Lemma mc_configuration_lost_witness :
  exists w', ee_write 2000 5 full_world = Some (FLASH_COMPLETE, w') /\
    conf_general_read_mc_configuration sim_conf w' =
    Some (conf_general_get_default_mc_configuration, w').
Proof.
  exact (ex_intro _ _ (conj full_world_write
    (mc_configuration_lost 2000 5 0 sim_conf full_world _ (proj1 sim_half_words)
      (proj2 sim_half_words) eq_refl (proj1 full_mem_stable) (proj2 full_mem_stable) table_has_2000 five_u16
      (padded_length 282 (mcconf_wire sim_conf)) full_world_write))).
Defined.
