(* ===== verification/FlashTheorems.v ===== *)
(** * FlashTheorems: uploading a program, and the system lock

    An upload on a flash without errors stores the program and touches nothing
    else; after a flash error the system stays locked. *)
From S2P Require Import Prelude Float32 McTypes Motor Flash Eeprom EepromTheorems Utils World.
From S2P Require Import Transmit McInterface McInterfaceSpec FlashHelper.
From S2P Require Import ConfGeneral BoardSim ConfTheorems.

Definition new_app_end : Z := 0x080E0000.

Lemma new_app_base_val : new_app_base = 0x08080000.
Proof. reflexivity. Qed.

(** The sectors of the new program. *)
Lemma new_app_sector i :
  (i < NEW_APP_SECTORS)%nat ->
  flash_sector !! (NEW_APP_BASE + i)%nat = Some (flash_sector !!! (NEW_APP_BASE + i)%nat) /\
  flash_addr !! (NEW_APP_BASE + i)%nat = Some (new_app_base + Z.of_nat i * 0x20000) /\
  flash_addr !!! (NEW_APP_BASE + i)%nat = new_app_base + Z.of_nat i * 0x20000 /\
  sector_size (NEW_APP_BASE + i) = 0x20000.
Proof. unfold NEW_APP_SECTORS. intros Hi. do 3 (destruct i as [|i]; [done|]). lia. Qed.

Section Access.
Context {D F : Type} `{Board D} `{Flash F}.
Abbreviation W := (world D F).

(** Both functions run their body with the motor released, the system locked
    and the watchdog off. *)
Lemma with_flash_access_body (body : ST W (option Z)) (w : W) :
  exists w1, w_ee w1 = w_ee w /\ w_sys w1 = locked_sys (w_sys w) /\
  with_flash_access body w =
    (r ← body; match r with
               | Some res => mret res
               | None => wwdg true;; utils_sys_unlock_cnt;; mret FLASH_COMPLETE
               end) w1.
Proof.
  destruct (access_entry w) as (s & d & Hentry).
  exists (w <| w_mci := s |> <| w_hw := d |> <| w_sys := locked_sys (w_sys w) |>).
  split; [done|]. split; [done|]. unfold with_flash_access. by rewrite Hentry.
Qed.

(** A body that ends without an error. *)
Lemma with_flash_access_run (body : ST W (option Z)) (w : W) :
  0 <= sys_lock_cnt (w_sys w) ->
  exists w1, w_ee w1 = w_ee w /\
  forall e, body w1 = Some (None, with_ee e w1) ->
  exists w', with_flash_access body w = Some (FLASH_COMPLETE, w') /\ w_ee w' = e /\
    wwdg_enabled (w_sys w') = true /\ sys_lock_cnt (w_sys w') = sys_lock_cnt (w_sys w).
Proof.
  intros Hcnt. destruct (with_flash_access_body body w) as (w1 & He1 & Hs1 & Heq).
  exists w1. split; [done|]. intros e Hbody. rewrite Heq, (ST_bind_Some _ _ _ _ _ Hbody).
  destruct (access_exit (with_ee e w1)) as (w' & (He & Ht & Hwd & Hc) & Hexit).
  { change (0 < sys_lock_cnt (w_sys w1)). rewrite Hs1, locked_sys_cnt. lia. }
  exists w'. rewrite Hexit. split; [done|]. split; [exact He|]. split; [exact Hwd|]. rewrite Hc.
  change (sys_lock_cnt (w_sys w1) - 1 = sys_lock_cnt (w_sys w)). rewrite Hs1, locked_sys_cnt. lia.
Qed.

Lemma write_loop_frame data n address (w w' : W) r :
  write_loop data n address w = Some (r, w') -> exists e, w' = with_ee e w.
Proof.
  revert data address w. induction n as [|n IH]; intros data address w; cbn [write_loop].
  - intros [= <- <-]. exists (w_ee w). by destruct w.
  - destruct data as [|b data]; [done|].
    unfold mbind, ST_bind. destruct (ee_run _ w) as [[st w1]|] eqn:E; [|done].
    assert (He : exists e, w1 = with_ee e w).
    { unfold ee_run in E. destruct (flash_op _ _) as [st' e]. injection E as <- <-. by exists e. }
    destruct He as [e ->]. destruct (negb _).
    + intros [= <- <-]. by exists e.
    + intros Hrun. destruct (IH _ _ _ Hrun) as [e' ->]. by exists e'.
Qed.

(** When writing a new program fails, the function returns with the
    system still locked and the watchdog off. *)
Theorem flash_error_keeps_lock offset data len st (w w' : W) :
  flash_helper_write_new_app_data offset data len w = Some (st, w') -> st <> FLASH_COMPLETE ->
  wwdg_enabled (w_sys w') = false /\ sys_lock_cnt (w_sys w') = sys_lock_cnt (w_sys w) + 1.
Proof.
  intros Hrun Hst. unfold flash_helper_write_new_app_data in Hrun.
  destruct (with_flash_access_body
    (write_loop data (Z.to_nat len) (new_app_base + offset)) w) as (w1 & He1 & Hs1 & Heq).
  rewrite Heq in Hrun. unfold mbind, ST_bind in Hrun.
  destruct (write_loop _ _ _ w1) as [[r w2]|] eqn:Eb; [|done].
  destruct (write_loop_frame _ _ _ _ _ _ Eb) as [e ->]. destruct r as [res|].
  - injection Hrun as <- <-. change (w_sys (with_ee e w1)) with (w_sys w1).
    rewrite Hs1, locked_sys_cnt. split; [|done]. unfold locked_sys. by destruct (_ =? 0).
  - exfalso. apply Hst. unfold utils_sys_unlock_cnt, wwdg in Hrun. revert Hrun. st_run.
    destruct (negb _); st_run; [destruct (_ =? 0); st_run|]; congruence.
Qed.

(** The bytes of the program, programmed into erased flash. *)
Lemma program_byte_run `{!FlashLaws F} `{!FlashReliable F} a b (w : W) :
  exists e, ee_run (flash_op (FLASH_ProgramByte a b)) w = Some (FLASH_COMPLETE, with_ee e w) /\
    forall x, flash_byte (ee_flash e) x =
      if decide (x = a) then Z.land (flash_byte (ee_flash (w_ee w)) x) (u8 b)
      else flash_byte (ee_flash (w_ee w)) x.
Proof.
  unfold ee_run, flash_op. pose proof (program_byte_spec a b (ee_flash (w_ee w))) as [_ Hspec].
  pose proof (program_byte_ok a b (ee_flash (w_ee w))) as Hok.
  destruct (FLASH_ProgramByte a b _) as [st f]. cbn [fst snd] in *. subst st.
  exists (mkEE f (DataVar (w_ee w))). split; [done|]. cbn [ee_flash].
  destruct Hspec as [Hp|[? _]]; [|done]. intros x. rewrite Hp.
  destruct (decide (x = a)) as [->|Hne].
  - rewrite decide_True by lia. by rewrite Z.sub_diag, Z.mul_0_r, Z.shiftr_0_r.
  - by rewrite decide_False by lia.
Qed.

Lemma write_loop_run `{!FlashLaws F} `{!FlashReliable F} data n address (w : W) :
  (n <= length data)%nat -> 0 <= address -> address + Z.of_nat n <= 4294967296 ->
  exists e, write_loop data n address w = Some (None, with_ee e w) /\
    forall x, flash_byte (ee_flash e) x =
      if decide (address <= x < address + Z.of_nat n)
      then Z.land (flash_byte (ee_flash (w_ee w)) x) (u8 (data !!! Z.to_nat (x - address)))
      else flash_byte (ee_flash (w_ee w)) x.
Proof.
  revert data address w. induction n as [|n IH]; intros data address w Hn Ha Hmax; cbn [write_loop].
  { exists (w_ee w). split; [by destruct w|]. intros x. by rewrite decide_False by lia. }
  destruct data as [|b data]; [cbn in Hn; lia|].
  rewrite u32_id by (unfold is_u32; lia).
  destruct (program_byte_run address b w) as (e & Hrun & Hb).
  rewrite (ST_bind_Some _ _ _ _ _ Hrun). cbn [negb Z.eqb FLASH_COMPLETE Pos.eqb].
  destruct (IH data (address + 1) (with_ee e w)) as (e' & Hrun' & Hb'); [cbn in Hn; lia|lia|lia|].
  exists e'. split; [rewrite Hrun'; by destruct w|]. intros x. rewrite Hb'.
  change (ee_flash (w_ee (with_ee e w))) with (ee_flash e). rewrite Hb.
  destruct (decide (x = address)) as [->|Hne].
  - rewrite decide_False, decide_True by lia. by rewrite Z.sub_diag.
  - destruct (decide (address + 1 <= x < address + 1 + Z.of_nat n)).
    + rewrite decide_True by lia.
      by replace (Z.to_nat (x - address)) with (S (Z.to_nat (x - (address + 1)))) by lia.
    + by rewrite decide_False by lia.
Qed.

Lemma erase_sector_run `{!FlashLaws F} `{!FlashReliable F} i (w : W) :
  (i < NEW_APP_SECTORS)%nat ->
  let a := new_app_base + Z.of_nat i * 0x20000 in
  exists e, ee_run (flash_op (FLASH_EraseSector (flash_sector !!! (NEW_APP_BASE + i)%nat)
      VoltageRange_3)) w = Some (FLASH_COMPLETE, with_ee e w) /\
    forall x, flash_byte (ee_flash e) x =
      if decide (a <= x < a + 0x20000) then 255 else flash_byte (ee_flash (w_ee w)) x.
Proof.
  intros Hi a. destruct (new_app_sector i Hi) as (Hs & Ha & _ & Hsize).
  pose proof (erase_sector_spec _ _ _ (ee_flash (w_ee w)) Hs Ha) as [_ Hspec].
  pose proof (erase_sector_ok (flash_sector !!! (NEW_APP_BASE + i)%nat) VoltageRange_3
    (ee_flash (w_ee w))) as Hok.
  unfold ee_run, flash_op. destruct (FLASH_EraseSector _ _ _) as [st f]. cbn [fst snd] in *. subst st.
  exists (mkEE f (DataVar (w_ee w))). split; [done|]. cbn [ee_flash].
  destruct Hspec as [Hp|[? _]]; [|done]. intros x. by rewrite Hp, Hsize.
Qed.

Lemma erase_loop_run `{!FlashLaws F} `{!FlashReliable F} n i size (w : W) :
  (i + n = NEW_APP_SECTORS)%nat ->
  let a := new_app_base + Z.of_nat i * 0x20000 in
  exists e top, erase_loop n i size w = Some (None, with_ee e w) /\
    a <= top <= new_app_end /\ (size <= top \/ top = new_app_end) /\
    forall x, flash_byte (ee_flash e) x =
      if decide (a <= x < top) then 255 else flash_byte (ee_flash (w_ee w)) x.
Proof.
  revert i w. induction n as [|n IH]; intros i w Hi a; cbn [erase_loop].
  { assert (Ha : a = new_app_end).
    { unfold a, new_app_end, NEW_APP_SECTORS in *. rewrite new_app_base_val. lia. }
    exists (w_ee w), a. split; [by destruct w|]. split; [lia|]. split; [by right|].
    intros x. by rewrite decide_False by lia. }
  assert (Hi3 : (i < NEW_APP_SECTORS)%nat) by lia.
  destruct (new_app_sector i Hi3) as (_ & _ & -> & _).
  assert (Hend : a + Z.of_nat n * 0x20000 + 0x20000 = new_app_end).
  { unfold a, new_app_end, NEW_APP_SECTORS in *. rewrite new_app_base_val. lia. }
  fold a. destruct (Z.ltb_spec a size) as [Hlt|Hge].
  - destruct (erase_sector_run i w Hi3) as (e & Hrun & Hb).
    rewrite (ST_bind_Some _ _ _ _ _ Hrun). cbn [negb Z.eqb FLASH_COMPLETE Pos.eqb].
    destruct (IH (S i) (with_ee e w) ltac:(lia)) as (e' & top & Hrun' & Htop & Hsz & Hb').
    exists e', top. split; [rewrite Hrun'; by destruct w|]. split; [lia|]. split; [done|].
    intros x. rewrite Hb'. change (ee_flash (w_ee (with_ee e w))) with (ee_flash e). rewrite Hb.
    fold a. replace (new_app_base + Z.of_nat (S i) * 0x20000) with (a + 0x20000) in * by lia.
    repeat case_decide; first [done|lia].
  - exists (w_ee w), a. split; [by destruct w|]. split; [lia|]. split; [by left|].
    intros x. by rewrite decide_False by lia.
Qed.

(** C38. On a flash without errors a program of at most three sectors that
    was erased for and then written stands in the flash byte by byte, and
    nothing outside the three sectors of the new program has changed. *)
Theorem upload_stores `{!FlashLaws F} `{!FlashReliable F} size offset data len (w : W) :
  0 <= sys_lock_cnt (w_sys w) -> 0 <= size <= new_app_end - new_app_base ->
  0 <= offset -> 0 <= len <= Z.of_nat (length data) -> offset + len <= size ->
  Forall is_u8 data ->
  exists w1 w2, flash_helper_erase_new_app size w = Some (FLASH_COMPLETE, w1) /\
    flash_helper_write_new_app_data offset data len w1 = Some (FLASH_COMPLETE, w2) /\
    (forall k, 0 <= k < len ->
       flash_byte (ee_flash (w_ee w2)) (new_app_base + offset + k) = data !!! Z.to_nat k) /\
    (forall x, ~ (new_app_base <= x < new_app_end) ->
       flash_byte (ee_flash (w_ee w2)) x = flash_byte (ee_flash (w_ee w)) x).
Proof.
  intros Hcnt Hsize Hoff Hlen Hfit Hb. pose proof new_app_base_val as Hbase.
  unfold new_app_end in Hsize. rewrite Hbase in Hsize.
  destruct (with_flash_access_run
    (erase_loop NEW_APP_SECTORS 0 (u32 (size + new_app_base))) w Hcnt) as (v1 & He1 & Hrun1).
  rewrite u32_id in Hrun1 by (unfold is_u32; lia).
  destruct (erase_loop_run NEW_APP_SECTORS 0 (size + new_app_base) v1 eq_refl)
    as (e1 & top & Hl1 & Htop & Hsz & Hb1).
  destruct (Hrun1 _ Hl1) as (w1 & Hw1 & Hew1 & _ & Hc1).
  destruct (with_flash_access_run
    (write_loop data (Z.to_nat len) (new_app_base + offset)) w1 ltac:(lia)) as (v2 & He2 & Hrun2).
  destruct (write_loop_run data (Z.to_nat len) (new_app_base + offset) v2) as (e2 & Hl2 & Hb2);
    [lia|lia|lia|].
  destruct (Hrun2 _ Hl2) as (w2 & Hw2 & Hew2 & _).
  exists w1, w2. split; [|split; [exact Hw2|]].
  { unfold flash_helper_erase_new_app. by rewrite u32_id by (unfold is_u32; lia). }
  rewrite Hew2. rewrite He2, Hew1 in Hb2. rewrite He1 in Hb1.
  unfold new_app_end in *. split.
  - intros k Hk. rewrite Hb2, decide_True, Hb1, decide_True by lia.
    replace (new_app_base + offset + k - (new_app_base + offset)) with k by lia.
    assert (Hu : is_u8 (data !!! Z.to_nat k)) by (apply Forall_lookup_total_1; [done|lia]).
    rewrite u8_id by done. rewrite Z.land_comm. change 255 with (Z.ones 8).
    rewrite Z.land_ones by lia. by apply Z.mod_small.
  - intros x Hx. by rewrite Hb2, decide_False, Hb1, decide_False by lia.
Qed.
End Access.

(** ** The system lock *)

Inductive lock_op := OpLock | OpUnlock.

Section Lock.
Context {D F : Type}.
Abbreviation W := (world D F).

Fixpoint lock_run (ops : list lock_op) : ST W unit :=
  match ops with
  | [] => mret tt
  | OpLock :: ops => utils_sys_lock_cnt;; lock_run ops
  | OpUnlock :: ops => utils_sys_unlock_cnt;; lock_run ops
  end.

(** The number of locks still held; an unlock without a lock is ignored. *)
Fixpoint held (ops : list lock_op) (n : Z) : Z :=
  match ops with
  | [] => n
  | OpLock :: ops => held ops (n + 1)
  | OpUnlock :: ops => held ops (Z.max 0 (n - 1))
  end.

(** The system is locked exactly while the counter is positive. *)
Definition lock_ok (s : sys_state) : Prop :=
  0 <= sys_lock_cnt s /\ sys_locked s = negb (sys_lock_cnt s =? 0).

Lemma lock_step op (w : W) :
  lock_ok (w_sys w) ->
  exists w', (match op with OpLock => utils_sys_lock_cnt | OpUnlock => utils_sys_unlock_cnt end) w
    = Some (tt, w') /\ lock_ok (w_sys w') /\ sys_lock_cnt (w_sys w') = held [op] (sys_lock_cnt (w_sys w)).
Proof.
  unfold lock_ok. intros [Hn Hl]. destruct op; cbn [held].
  - unfold utils_sys_lock_cnt. st_run. destruct (Z.eqb_spec (sys_lock_cnt (w_sys w)) 0) as [He|He];
      st_run; eexists; (split; [done|]); st_run.
    + by rewrite He.
    + rewrite Hl, (proj2 (Z.eqb_neq _ _)) by lia. cbn. lia.
  - unfold utils_sys_unlock_cnt. st_run. destruct (Z.eqb_spec (sys_lock_cnt (w_sys w)) 0) as [He|He];
      st_run.
    + eexists. split; [done|]. rewrite Hl, He. done.
    + destruct (Z.eqb_spec (sys_lock_cnt (w_sys w) - 1) 0) as [He1|He1]; st_run;
        eexists; (split; [done|]); st_run; rewrite Z.max_r by lia.
      * by rewrite He1.
      * rewrite Hl, (proj2 (Z.eqb_neq _ _) He1). cbn. lia.
Qed.

(** Locks nest, whatever the sequence. *)
Lemma sys_lock_nests ops (w : W) :
  lock_ok (w_sys w) ->
  exists w', lock_run ops w = Some (tt, w') /\ lock_ok (w_sys w') /\
    sys_lock_cnt (w_sys w') = held ops (sys_lock_cnt (w_sys w)).
Proof.
  revert w. induction ops as [|op ops IH]; intros w Hok; [by exists w|].
  destruct (lock_step op w Hok) as (w1 & Hrun & Hok1 & Hc1).
  destruct (IH w1 Hok1) as (w2 & Hrun2 & Hok2 & Hc2). exists w2.
  split; [|split; [done|]].
  - destruct op; cbn [lock_run]; by rewrite (ST_bind_Some _ _ _ _ _ Hrun).
  - rewrite Hc2, Hc1. by destruct op.
Qed.
End Lock.

(** ** Witnesses *)

Lemma sim_data_ok : Forall is_u8 [1; 2; 3].
Proof. repeat constructor; lia. Qed.

Lemma upload_stores_witness :
  exists w1 w2, flash_helper_erase_new_app 100 (sim_world MOTOR_TYPE_BLDC) = Some (FLASH_COMPLETE, w1) /\
    flash_helper_write_new_app_data 4 [1; 2; 3] 3 w1 = Some (FLASH_COMPLETE, w2) /\
    flash_byte (ee_flash (w_ee w2)) (new_app_base + 4 + 2) = 3.
Proof.
  destruct (upload_stores 100 4 [1; 2; 3] 3 (sim_world MOTOR_TYPE_BLDC)) as (w1 & w2 & He & Hw & Hb & _).
  - done.
  - unfold new_app_end. rewrite new_app_base_val. lia.
  - lia.
  - cbn. lia.
  - lia.
  - exact sim_data_ok.
  - exists w1, w2. split; [exact He|]. split; [exact Hw|]. apply (Hb 2). lia.
Defined.

(** A flash whose next operation fails. *)
Definition faulty_world : world sim flash_sim :=
  let w := sim_world MOTOR_TYPE_BLDC in
  mkWorld (w_mci w) (w_tmo w) (w_cmd w) (w_can w) (w_sys w) (appconf w) (blank_sim [FailBefore])
    (conf_table 63) (fault_vec w) (fault_vec_write w) (w_out w) (w_hw w).

Lemma faulty_status :
  option_map fst (flash_helper_write_new_app_data 0 [1] 1 faulty_world) = Some 8.
Proof. vm_compute. reflexivity. Qed.

Lemma flash_error_keeps_lock_witness :
  exists w', flash_helper_write_new_app_data 0 [1] 1 faulty_world = Some (8, w') /\
    wwdg_enabled (w_sys w') = false /\ sys_lock_cnt (w_sys w') = 1.
Proof.
  pose proof faulty_status as Hst.
  destruct (flash_helper_write_new_app_data 0 [1] 1 faulty_world) as [[st w']|] eqn:E; [|discriminate Hst].
  injection Hst as ->. exists w'. split; [reflexivity|].
  exact (flash_error_keeps_lock 0 [1] 1 8 faulty_world w' E ltac:(discriminate)).
Defined.

Lemma sys_lock_nests_example :
  exists w', lock_run [OpLock; OpLock; OpUnlock; OpUnlock; OpUnlock] (sim_world MOTOR_TYPE_BLDC)
    = Some (tt, w') /\ lock_ok (w_sys w') /\ sys_lock_cnt (w_sys w') = 0.
Proof.
  exact (sys_lock_nests [OpLock; OpLock; OpUnlock; OpUnlock; OpUnlock] (sim_world MOTOR_TYPE_BLDC)
    (conj (Z.le_refl 0) eq_refl)).
Defined.
