(* ===== verification/TimeoutTheorems.v ===== *)
(** * TimeoutTheorems: the command timeout (src/timeout.c and its users) *)
From S2P Require Import Prelude Float32 McTypes Motor Flash Eeprom Utils World Transmit.
From S2P Require Import McInterface McInterfaceSpec Timeout ConfGeneral Keeps BoardSim.

(** The two settings of the timeout. *)
Definition timeout_conf {D F} (w : world D F) : Z * f32 :=
  (timeout_msec_v (w_tmo w), timeout_brake_current_v (w_tmo w)).

#[export] Instance timeout_conf_outside {D F} : Outside (@timeout_conf D F).
Proof. by split. Qed.

Section Timeout.
Context {D F : Type} `{Board D}.
Abbreviation W := (world D F).

(** More ticks than the timeout have passed since the last reset. *)
Definition expired (w : W) : bool :=
  negb (timeout_msec_v (w_tmo w) =? 0) &&
  (MS2ST (timeout_msec_v (w_tmo w)) <?
     elapsed (chVTGetSystemTime (w_hw w)) (last_update_time (w_tmo w))).

Definition set_has_timeout (b : bool) (w : W) : W := w <| w_tmo := (w_tmo w) <| has_timeout := b |> |>.

(** Up to 429496 ms the conversion to ticks of 0.1 ms is exact. *)
Lemma MS2ST_exact msec : 0 <= msec <= 429496 -> MS2ST msec = 10 * msec.
Proof.
  intros Hm. unfold MS2ST, CH_CFG_ST_FREQUENCY.
  rewrite (u32_id msec), (u32_id (msec * 10000)), u32_id by (unfold is_u32; lia).
  Z.to_euclidean_division_equations. lia.
Qed.

Lemma timeout_step_run (w : W) :
  motor_state w <> MC_STATE_DETECTING -> 0 <= m_ignore_iterations (w_mci w) ->
  let w0 := with_mci (fun s => s <| m_lock_enabled := false |>) w in
  let brake := CmdBrake (timeout_brake_current_v (w_tmo w)) in
  timeout_thread_step w = Some (tt,
    if expired w then
      set_has_timeout true (if m_ignore_iterations (w_mci w) =? 0 then perform brake w0 else w0)
    else set_has_timeout false w).
Proof.
  intros Hst Hn w0 brake. unfold timeout_thread_step.
  do 3 (erewrite ST_bind_Some by reflexivity). fold (expired w).
  destruct (expired w); [|reflexivity].
  assert (Hunlock : mc_interface_unlock w = Some (tt, w0)) by reflexivity.
  rewrite (ST_bind_Some _ _ _ _ _ Hunlock). erewrite ST_bind_Some by reflexivity.
  pose proof (exec_spec brake w0 Hst Hn) as Hexec. cbn [mc_exec brake] in Hexec.
  rewrite (ST_bind_Some _ _ _ _ _ Hexec). unfold accepts.
  change (m_lock_enabled (w_mci w0)) with false. cbn [negb orb]. rewrite andb_true_r.
  change (m_ignore_iterations (w_mci w0)) with (m_ignore_iterations (w_mci w)).
  by destruct (m_ignore_iterations (w_mci w) =? 0).
Qed.

(** C39. With a timeout of up to 429496 ms and no detection running, a
    round of the timeout thread reports a timeout exactly when the timeout
    is not 0 and more time has passed since the last command. It then
    unlocks the interface and brakes with the configured current, unless a
    block after a fault is pending, when the brake command is refused;
    otherwise it leaves interface and motor alone. *)
Theorem timeout_stops_motor (w : W) :
  motor_state w <> MC_STATE_DETECTING -> 0 <= m_ignore_iterations (w_mci w) ->
  0 <= timeout_msec_v (w_tmo w) <= 429496 ->
  let waited := elapsed (chVTGetSystemTime (w_hw w)) (last_update_time (w_tmo w)) in
  let late := (0 <? timeout_msec_v (w_tmo w)) && (10 * timeout_msec_v (w_tmo w) <? waited) in
  exists w', timeout_thread_step w = Some (tt, w') /\ has_timeout (w_tmo w') = late /\
    (if late then
       m_lock_enabled (w_mci w') = false /\
       w_hw w' = if m_ignore_iterations (w_mci w) =? 0
                 then w_hw (drive (cmd_op (CmdBrake (timeout_brake_current_v (w_tmo w)))) w)
                 else w_hw w
     else w_mci w' = w_mci w /\ w_hw w' = w_hw w).
Proof.
  intros Hst Hn Hms waited late. eexists. split; [by apply timeout_step_run|].
  unfold expired. rewrite MS2ST_exact by lia. fold waited.
  assert (Hl : negb (timeout_msec_v (w_tmo w) =? 0) = (0 <? timeout_msec_v (w_tmo w))) by lia.
  rewrite Hl. fold late. clear Hl. destruct late; [|done]. unfold set_has_timeout.
  split; [by destruct (_ =? 0)|]. destruct (_ =? 0); [|done]. split.
  - cbv [setter eta world_eta]. cbn [w_mci]. by rewrite perform_mci.
  - cbv [setter eta world_eta]. cbn [w_hw]. rewrite perform_hw. unfold drive, with_mci.
    cbv [setter eta world_eta]. cbn [w_mci m_conf mci_state_eta]. by destruct (the_driver _).
Qed.

(** A timeout of 429497 ms is over after 0.4 ms: its conversion to
    ticks wraps around. *)
Theorem timeout_wraps (w : W) :
  motor_state w <> MC_STATE_DETECTING -> 0 <= m_ignore_iterations (w_mci w) ->
  timeout_msec_v (w_tmo w) = 429497 ->
  3 < elapsed (chVTGetSystemTime (w_hw w)) (last_update_time (w_tmo w)) ->
  exists w', timeout_thread_step w = Some (tt, w') /\ has_timeout (w_tmo w') = true.
Proof.
  intros Hst Hn Hms Hel. eexists. split; [by apply timeout_step_run|]. unfold expired.
  rewrite Hms. change (MS2ST 429497) with 3. rewrite (proj2 (Z.ltb_lt _ _) Hel).
  reflexivity.
Qed.
End Timeout.

(** ** Measuring the flux linkage *)

Section Flux.
Context {D F : Type} `{Board D} `{Sleep D F}.
Abbreviation W := (world D F).

(** Nobody reconfigures the timeout during the measurement. *)
Hypothesis sleep_keeps : forall n, keeps timeout_conf (chThdSleepMilliseconds (D := D) (F := F) n).

Lemma spin_up_keeps n duty : keeps timeout_conf (spin_up (D := D) (F := F) n duty).
Proof using sleep_keeps.
  induction n as [|n IH]; cbn [spin_up]; unfold mc_interface_get_duty_cycle_now; keeps_auto.
Qed.

Lemma flux_samples_keeps n v rpm i samples :
  keeps timeout_conf (flux_samples (D := D) (F := F) n v rpm i samples).
Proof using sleep_keeps.
  revert v rpm i samples. induction n as [|n IH]; intros v rpm i samples; cbn [flux_samples];
    unfold mc_interface_get_duty_cycle_now, mc_interface_get_rpm, mc_interface_get_tot_current;
    keeps_auto.
Qed.

(** A measurement of the flux linkage that fails restores the timeout
    settings; one that succeeds leaves the timeout at 60 seconds without
    brake current. *)
Theorem flux_linkage_timeout current duty min_erpm res r (w w' : W) :
  conf_general_measure_flux_linkage current duty min_erpm res w = Some (r, w') ->
  timeout_conf w' = match r with None => timeout_conf w | Some _ => (60000, f0) end.
Proof using sleep_keeps.
  unfold conf_general_measure_flux_linkage.
  intros (c & w1 & E1 & Hrun)%bind_inv. apply (keeps_mci timeout_conf) in E1.
  apply bind_inv in Hrun as ([] & w2 & E2 & Hrun). apply (keeps_set_configuration timeout_conf) in E2.
  apply bind_inv in Hrun as ([] & w3 & E3 & Hrun). apply sleep_keeps in E3.
  apply bind_inv in Hrun as (tout & w4 & E4 & Hrun). injection E4 as <- <-.
  apply bind_inv in Hrun as (tout_c & w5 & E5 & Hrun). injection E5 as <- <-.
  apply bind_inv in Hrun as ([] & w6 & E6 & Hrun).
  assert (Hc6 : timeout_conf w6 = (60000, f0)) by (by injection E6 as <-). clear E6.
  apply bind_inv in Hrun as ([] & w7 & E7 & Hrun). apply (keeps_mci_set timeout_conf) in E7.
  apply bind_inv in Hrun as ([] & w8 & E8 & Hrun). apply (keeps_mci_set timeout_conf) in E8.
  apply bind_inv in Hrun as ([] & w9 & E9 & Hrun). apply (keeps_set_current timeout_conf) in E9.
  apply bind_inv in Hrun as (reached & w10 & E10 & Hrun). apply spin_up_keeps in E10.
  destruct reached; cbn [negb] in Hrun.
  - apply bind_inv in Hrun as ([] & w11 & E11 & Hrun). apply (keeps_mci_set timeout_conf) in E11.
    apply bind_inv in Hrun as ([] & w12 & E12 & Hrun). apply (keeps_set_duty timeout_conf) in E12.
    apply bind_inv in Hrun as ([[[v rpm] i] samples] & w13 & E13 & Hrun).
    apply flux_samples_keeps in E13.
    apply bind_inv in Hrun as ([] & w14 & E14 & Hrun).
    apply (keeps_set_configuration timeout_conf) in E14.
    apply bind_inv in Hrun as ([] & w15 & E15 & Hrun). apply (keeps_mci_set timeout_conf) in E15.
    apply bind_inv in Hrun as ([] & w16 & E16 & Hrun). apply (keeps_set_current timeout_conf) in E16.
    injection Hrun as <- <-. congruence.
  - apply bind_inv in Hrun as ([] & w11 & E11 & Hrun). apply (keeps_set_current timeout_conf) in E11.
    apply bind_inv in Hrun as ([] & w12 & E12 & Hrun).
    assert (Hc12 : timeout_conf w12 = timeout_conf w3) by (by injection E12 as <-). clear E12.
    apply bind_inv in Hrun as ([] & w13 & E13 & Hrun).
    apply (keeps_set_configuration timeout_conf) in E13.
    apply bind_inv in Hrun as ([] & w14 & E14 & Hrun). apply (keeps_mci_set timeout_conf) in E14.
    injection Hrun as <- <-. congruence.
Qed.
End Flux.

(** ** Witnesses *)

(** 20000 ticks after the last reset. *)
Definition late_world (msec : Z) : world sim flash_mem :=
  (sim_world MOTOR_TYPE_BLDC) <| w_tmo := mkTimeout msec (4294967296 - 20000) f1 false |>.

Lemma late_not_detecting msec : motor_state (late_world msec) <> MC_STATE_DETECTING.
Proof. discriminate. Qed.

Lemma timeout_stops_motor_witness :
  exists w', timeout_thread_step (late_world 1000) = Some (tt, w') /\
    has_timeout (w_tmo w') = true /\ sim_calls (w_hw w') = [(false, CBrake f1)].
Proof.
  destruct (timeout_stops_motor (late_world 1000) (late_not_detecting 1000) (Z.le_refl 0) ltac:(cbn; lia))
    as (w' & Hrun & Ht & _ & Hhw).
  exists w'. split; [exact Hrun|]. split; [exact Ht|]. rewrite Hhw. reflexivity.
Defined.

Lemma timeout_wraps_witness :
  exists w', timeout_thread_step (late_world 429497) = Some (tt, w') /\ has_timeout (w_tmo w') = true.
Proof.
  exact (timeout_wraps (late_world 429497) (late_not_detecting 429497) (Z.le_refl 0) eq_refl
    ltac:(reflexivity)).
Defined.

(** Time passes and nothing else happens. *)
#[export] Instance sim_sleep : Sleep sim flash_mem := fun _ => mret tt.

Lemma sim_sleep_keeps n : keeps timeout_conf (chThdSleepMilliseconds (D := sim) (F := flash_mem) n).
Proof. apply keeps_ret. Qed.

Lemma flux_succeeds :
  option_map fst (conf_general_measure_flux_linkage f1 f0 f1 f1 (sim_world MOTOR_TYPE_BLDC))
  = Some (Some S754_nan).
Proof. vm_compute. reflexivity. Qed.

Lemma flux_linkage_timeout_witness :
  exists r w', conf_general_measure_flux_linkage f1 f0 f1 f1 (sim_world MOTOR_TYPE_BLDC) = Some (r, w') /\
    timeout_conf w' = (60000, f0).
Proof.
  pose proof flux_succeeds as Hs.
  destruct (conf_general_measure_flux_linkage f1 f0 f1 f1 (sim_world MOTOR_TYPE_BLDC))
    as [[r w']|] eqn:E; [|discriminate Hs].
  injection Hs as ->. exists (Some S754_nan), w'. split; [reflexivity|].
  exact (flux_linkage_timeout sim_sleep_keeps f1 f0 f1 f1 (Some S754_nan) _ w' E).
Defined.
