(* ===== verification/CanTheorems.v ===== *)
(** * CanTheorems: packets over the CAN bus

    [comm_can_send_buffer] on one controller and the process thread on
    another: a packet of up to 1024 bytes is cut into frames, the frames are
    received one by one, and the receiver ends up handling exactly that
    packet. *)
From S2P Require Import Prelude Float32 Buffer Crc McTypes ConfCodec Motor Flash Eeprom Utils.
From S2P Require Import World Transmit McInterface McInterfaceSpec ConfDefault FlashHelper.
From S2P Require Import FlashHelper Timeout ConfGeneral Commands CommCan BoardSim ConfTheorems.
From S2P Require Import TimeoutTheorems.

(** What the controller of the receiver makes of a frame on the bus: eight
    data bytes, those beyond the length being arbitrary. *)
Record arrives (f g : can_frame) : Prop := {
  arr_ide : IDE g = IDE f;
  arr_eid : EID g = EID f;
  arr_dlc : DLC g = DLC f;
  arr_data : exists junk, data8 g = data8 f ++ junk;
  arr_length : length (data8 g) = 8%nat
}.

Lemma can_id_parts dest packet :
  is_u8 dest -> 0 <= packet < 256 ->
  Z.land (can_id dest packet) 255 = dest /\ u8 (Z.shiftr (can_id dest packet) 8) = packet.
Proof.
  intros Hd Hp. unfold can_id. rewrite Z.lor_comm, lor_shiftl_add by (unfold is_u8 in *; lia).
  change 255 with (Z.ones 8). rewrite Z.land_ones, Z.shiftr_div_pow2 by lia.
  change (2 ^ 8) with 256. unfold u8, is_u8 in *. split; Z.to_euclidean_division_equations; lia.
Qed.

Lemma crc16_take bs len :
  0 <= len <= Z.of_nat (length bs) -> crc16 bs len = Some (crc16_of (take (Z.to_nat len) bs)).
Proof.
  intros Hlen. rewrite <- (take_drop (Z.to_nat len) bs) at 1.
  rewrite <- (crc16_prefix (take (Z.to_nat len) bs) (drop (Z.to_nat len) bs)).
  f_equal. rewrite length_take. lia.
Qed.

(** Writing the next chunk of [data] extends the common prefix. *)
Lemma chunk_written (buf data : list Z) i n :
  0 <= i -> 0 <= n -> i + n <= Z.of_nat (length data) -> i + n <= Z.of_nat (length buf) ->
  take (Z.to_nat i) buf = take (Z.to_nat i) data ->
  let bs := take (Z.to_nat n) (drop (Z.to_nat i) data) in
  exists buf', mem_write i bs buf = Some buf' /\ length buf' = length buf /\
    take (Z.to_nat (i + n)) buf' = take (Z.to_nat (i + n)) data.
Proof.
  intros Hi Hn Hd Hb Heq bs.
  assert (Hl : length bs = Z.to_nat n) by (unfold bs; rewrite length_take, length_drop; lia).
  exists (list_inserts (Z.to_nat i) bs buf). unfold mem_write. rewrite decide_True by lia.
  split; [done|]. split; [apply length_inserts|].
  apply list_eq. intros j. destruct (decide (j < Z.to_nat (i + n))%nat) as [Hj|Hj].
  - rewrite !lookup_take_lt by done. destruct (decide (j < Z.to_nat i)%nat).
    + rewrite list_lookup_inserts_lt by done.
      rewrite <- (lookup_take_lt buf (Z.to_nat i)), Heq, lookup_take_lt by done. done.
    + rewrite list_lookup_inserts by lia. unfold bs.
      rewrite lookup_take_lt, lookup_drop by lia. f_equal. lia.
  - rewrite !lookup_take_ge by lia. done.
Qed.

Section Can.
Context {D F : Type} `{Board D} `{Flash F} `{Apps D} `{Sleep D F}.
Context `{Layout mc_configuration} `{Layout app_configuration}.
Abbreviation W := (world D F).

(** The frames one after the other. *)
Fixpoint can_frames (fs : list can_frame) : ST W unit :=
  match fs with
  | [] => mret tt
  | f :: fs => can_frame_step f;; can_frames fs
  end.

Lemma can_frames_app fs gs (w w1 : W) :
  can_frames fs w = Some (tt, w1) -> can_frames (fs ++ gs) w = can_frames gs w1.
Proof.
  revert w. induction fs as [|f fs IH]; intros w; cbn [can_frames app]; [by intros [= <-]|].
  unfold mbind, ST_bind. destruct (can_frame_step f w) as [[[] w2]|]; [apply IH|done].
Qed.

Lemma can_frames_one f (w : W) : can_frames [f] w = can_frame_step f w.
Proof.
  cbn [can_frames]. unfold mbind, ST_bind. by destruct (can_frame_step f w) as [[[] w1]|].
Qed.

Definition with_rx (buf : list Z) (w : W) : W :=
  w <| w_can := (w_can w) <| rx_buffer := buf |> |>.
Definition with_out (fs : list can_frame) (w : W) : W :=
  w <| w_out := w_out w ++ map EvCan fs |>.

Lemma with_rx_rx b1 b2 (w : W) : with_rx b1 (with_rx b2 w) = with_rx b1 w.
Proof. by destruct w. Qed.
Lemma with_out_app fs gs (w : W) : with_out gs (with_out fs w) = with_out (fs ++ gs) w.
Proof. unfold with_out. rewrite map_app. cbv [setter eta world_eta]. cbn. by rewrite <- app_assoc. Qed.
Lemma with_out_nil (w : W) : with_out [] w = w.
Proof. unfold with_out. rewrite app_nil_r. by destruct w. Qed.

Lemma transmit_run id data len (w : W) :
  comm_can_transmit id data len w =
  Some (tt, with_out [mkFrame true id len (take (Z.to_nat len) data)] w).
Proof. reflexivity. Qed.

(** A frame addressed to this controller. *)
Lemma frame_step_own packet dest g (w : W) :
  IDE g = true -> EID g = can_id dest packet -> is_u8 dest -> 0 <= packet < 9 ->
  controller_id (appconf w) = dest ->
  can_frame_step g w = can_command packet g w.
Proof.
  intros Hide Heid Hd Hp Hown. destruct (can_id_parts dest packet Hd ltac:(lia)) as [Hid Hcmd].
  unfold can_frame_step. rewrite Hide, Heid, Hid, Hcmd. cbn [when].
  erewrite ST_bind_Some by reflexivity. rewrite Hown, Z.eqb_refl, orb_true_r. cbn [when].
  unfold mbind, ST_bind. destruct (can_command packet g w) as [[[] w1]|]; [|done].
  unfold CAN_PACKET_STATUS. rewrite (proj2 (Z.eqb_neq _ _)) by lia. done.
Qed.

Lemma parse_run {A} (g : ST Z A) a i (w : W) : g 0 = Some (a, i) -> parse g w = Some (a, w).
Proof. intros Hg. unfold parse, lift_opt, mbind, ST_bind. by rewrite Hg. Qed.

Lemma lift_run {A} (o : option A) a (w : W) : o = Some a -> lift_opt o w = Some (a, w).
Proof. by intros ->. Qed.

(** [send_fill] cuts the data into frames that [can_fill] puts together. *)
Lemma fill_step dest i bs buf' g (w : W) :
  is_u8 dest -> controller_id (appconf w) = dest -> 0 <= i <= 255 ->
  arrives (mkFrame true (can_id dest CAN_PACKET_FILL_RX_BUFFER) (Z.of_nat (length bs) + 1)
    (u8 i :: bs)) g ->
  mem_write i bs (rx_buffer (w_can w)) = Some buf' ->
  can_frame_step g w = Some (tt, with_rx buf' w).
Proof.
  intros Hd Hown Hi [Hide Heid Hdlc [junk Hdata] _] Hw.
  rewrite (frame_step_own CAN_PACKET_FILL_RX_BUFFER dest g w Hide Heid Hd ltac:(done) Hown).
  change (can_command CAN_PACKET_FILL_RX_BUFFER g w) with (can_fill g w).
  cbn [data8 DLC] in Hdata, Hdlc. unfold can_fill. rewrite Hdata, Hdlc.
  rewrite u8_id by (unfold is_u8; lia).
  erewrite ST_bind_Some; [|apply (parse_run _ i 1); reflexivity].
  replace (Z.of_nat (length bs) + 1 - 1) with (Z.of_nat (length bs)) by lia.
  change ((i :: bs) ++ junk) with ([i] ++ (bs ++ junk)).
  erewrite ST_bind_Some; [|apply lift_run, (mem_read_prefix (i :: bs) junk 1); cbn [length]; lia].
  erewrite ST_bind_Some by reflexivity.
  change (drop (Z.to_nat 1) (i :: bs)) with bs.
  erewrite ST_bind_Some; [|by apply lift_run]. reflexivity.
Qed.

Lemma fill_long_step dest i bs buf' g (w : W) :
  is_u8 dest -> controller_id (appconf w) = dest -> 0 <= i < RX_BUFFER_SIZE ->
  arrives (mkFrame true (can_id dest CAN_PACKET_FILL_RX_BUFFER_LONG) (Z.of_nat (length bs) + 2)
    (u8 (Z.shiftr i 8) :: u8 (Z.land i 255) :: bs)) g ->
  mem_write i bs (rx_buffer (w_can w)) = Some buf' ->
  can_frame_step g w = Some (tt, with_rx buf' w).
Proof.
  intros Hd Hown Hi [Hide Heid Hdlc [junk Hdata] _] Hw.
  rewrite (frame_step_own CAN_PACKET_FILL_RX_BUFFER_LONG dest g w Hide Heid Hd ltac:(done) Hown).
  change (can_command CAN_PACKET_FILL_RX_BUFFER_LONG g w) with (can_fill_long g w).
  cbn [data8 DLC] in Hdata, Hdlc. unfold can_fill_long. rewrite Hdata, Hdlc.
  assert (Hi0 : Z.lor (Z.shiftl (u8 (Z.shiftr i 8)) 8) (u8 (Z.land i 255)) = i).
  { change 255 with (Z.ones 8). unfold RX_BUFFER_SIZE in Hi.
    rewrite Z.land_ones, lor_shiftl_add, Z.shiftr_div_pow2 by int_solve.
    change (2 ^ 8) with 256. int_solve. }
  erewrite ST_bind_Some;
    [|apply (parse_run _ (u8 (Z.shiftr i 8), u8 (Z.land i 255)) 2); reflexivity].
  cbv beta iota zeta. rewrite Hi0, (proj2 (Z.ltb_lt _ _)) by lia. cbn [when].
  replace (Z.of_nat (length bs) + 2 - 2) with (Z.of_nat (length bs)) by lia.
  erewrite ST_bind_Some;
    [|apply lift_run, (mem_read_prefix (u8 (Z.shiftr i 8) :: u8 (Z.land i 255) :: bs) junk 2);
      cbn [length]; lia].
  erewrite ST_bind_Some by reflexivity. cbn [drop Z.to_nat Pos.to_nat Pos.iter_op Nat.add].
  erewrite ST_bind_Some; [|by apply lift_run]. reflexivity.
Qed.

(** Receiving [fs] extends what the receive buffer has of [data] from the
    first [i] bytes to the first [e]. *)
Definition delivers (dest : Z) (data : list Z) (fs : list can_frame) (i e : Z) : Prop :=
  forall gs (w : W), Forall2 arrives fs gs -> controller_id (appconf w) = dest ->
  Z.of_nat (length (rx_buffer (w_can w))) = RX_BUFFER_SIZE ->
  take (Z.to_nat i) (rx_buffer (w_can w)) = take (Z.to_nat i) data ->
  exists buf, can_frames gs w = Some (tt, with_rx buf w) /\
    Z.of_nat (length buf) = RX_BUFFER_SIZE /\ take (Z.to_nat e) buf = take (Z.to_nat e) data.

Lemma delivers_nil dest data i : delivers dest data [] i i.
Proof.
  intros gs w Hgs _ Hlen Heq. inversion Hgs; subst. exists (rx_buffer (w_can w)).
  split; [by destruct w as [? ? ? [] ]|done].
Qed.

Lemma delivers_app dest data fs fs' i e e' :
  delivers dest data fs i e -> delivers dest data fs' e e' -> delivers dest data (fs ++ fs') i e'.
Proof.
  intros H1' H2' gs w (gs1 & gs2 & Hg1 & Hg2 & ->)%Forall2_app_inv_l Hown Hlen Heq.
  destruct (H1' gs1 w Hg1 Hown Hlen Heq) as (buf & Hrun & Hlen1 & Heq1).
  destruct (H2' gs2 (with_rx buf w) Hg2 Hown Hlen1 Heq1) as (buf2 & Hrun2 & Hlen2 & Heq2).
  exists buf2. split; [|done]. rewrite (can_frames_app _ _ _ _ Hrun), Hrun2. by rewrite with_rx_rx.
Qed.

(** A frame the controller can send. *)
Definition frame_ok (f : can_frame) : Prop :=
  DLC f = Z.of_nat (length (data8 f)) /\ (length (data8 f) <= 8)%nat.

(** One chunk, whatever its frame is, if receiving it writes it in place. *)
Lemma delivers_chunk dest data f i n :
  0 <= i -> 0 <= n -> i + n <= Z.of_nat (length data) -> i + n <= RX_BUFFER_SIZE ->
  (forall g buf' (w : W), arrives f g -> controller_id (appconf w) = dest ->
     mem_write i (take (Z.to_nat n) (drop (Z.to_nat i) data)) (rx_buffer (w_can w)) = Some buf' ->
     can_frame_step g w = Some (tt, with_rx buf' w)) ->
  delivers dest data [f] i (i + n).
Proof.
  intros Hi Hn Hd Hmax Hstep gs w Hgs Hown Hlen Heq.
  destruct (chunk_written (rx_buffer (w_can w)) data i n Hi Hn Hd ltac:(lia) Heq)
    as (buf & Hw & Hlen' & Heq').
  inversion Hgs as [|? g ? gs' Hg Hnil]; subst. inversion Hnil; subst.
  exists buf. split; [|split; [lia|done]]. rewrite can_frames_one. by apply Hstep.
Qed.

Lemma send_fill_spec fuel dest data len i (w : W) :
  is_u8 dest -> 0 <= len <= Z.of_nat (length data) -> len <= RX_BUFFER_SIZE -> 0 <= i ->
  (Z.to_nat (len - i) < fuel)%nat ->
  exists e fs, send_fill fuel dest data len i i w = Some (e, with_out fs w) /\ 0 <= e /\
    Forall frame_ok fs /\ delivers dest data fs (Z.min i len) (Z.min e len).
Proof.
  intros Hd Hlen Hmax. revert i w. induction fuel as [|fuel IH]; intros i w Hi Hf; [lia|].
  cbn [send_fill]. destruct (Z.ltb_spec i len) as [Hlt|Hge].
  2: { exists i, []. rewrite with_out_nil. split; [done|]. split; [done|].
    split; [constructor|]. apply delivers_nil. }
  destruct (Z.ltb_spec 255 i) as [Hbig|Hsmall].
  { exists i, []. rewrite with_out_nil. split; [done|]. split; [done|].
    split; [constructor|]. apply delivers_nil. }
  set (n := if i + 7 <=? len then 7 else len - i).
  assert (Hn : n = Z.min 7 (len - i)) by (unfold n; destruct (Z.leb_spec (i + 7) len); lia).
  clearbody n.
  erewrite ST_bind_Some; [|apply lift_run, mem_read_take; lia].
  rewrite (ST_bind_Some _ _ _ _ _ (transmit_run _ _ _ w)).
  set (bs := take (Z.to_nat n) (drop (Z.to_nat i) data)).
  assert (Hbs : length bs = Z.to_nat n) by (unfold bs; rewrite length_take, length_drop; lia).
  rewrite (take_ge (u8 i :: bs)) by (cbn [length]; lia).
  set (f := mkFrame true _ _ _).
  destruct (IH (i + 7) (with_out [f] w)) as (e & fs & Hrun & He & Hok & Hdel); [lia|lia|].
  exists e, (f :: fs). split; [rewrite Hrun; by rewrite with_out_app|split; [done|split]].
  { constructor; [|done]. unfold f, frame_ok. cbn [DLC data8 length]. lia. }
  change (f :: fs) with ([f] ++ fs). apply (delivers_app _ _ _ _ _ (Z.min (i + 7) len)); [|done].
  replace (Z.min (i + 7) len) with (i + n) by lia. replace (Z.min i len) with i by lia.
  apply delivers_chunk; [done|lia|lia|lia|]. intros g buf' w' Hg Hown Hw.
  apply (fill_step dest i bs buf' g w' Hd Hown ltac:(lia)); [|done].
  rewrite Hbs. replace (Z.of_nat (Z.to_nat n)) with n by lia. exact Hg.
Qed.

Lemma send_fill_long_spec fuel dest data len i (w : W) :
  is_u8 dest -> 0 <= len <= Z.of_nat (length data) -> len <= RX_BUFFER_SIZE -> 0 <= i ->
  (Z.to_nat (len - i) < fuel)%nat ->
  exists fs, send_fill_long fuel dest data len i w = Some (tt, with_out fs w) /\
    Forall frame_ok fs /\ delivers dest data fs (Z.min i len) len.
Proof.
  intros Hd Hlen Hmax. revert i w. induction fuel as [|fuel IH]; intros i w Hi Hf; [lia|].
  cbn [send_fill_long]. destruct (Z.ltb_spec i len) as [Hlt|Hge].
  2: { exists []. rewrite with_out_nil. split; [done|]. split; [constructor|].
       replace (Z.min i len) with len by lia. apply delivers_nil. }
  set (n := if i + 6 <=? len then 6 else len - i).
  assert (Hn : n = Z.min 6 (len - i)) by (unfold n; destruct (Z.leb_spec (i + 6) len); lia).
  clearbody n.
  erewrite ST_bind_Some; [|apply lift_run, mem_read_take; lia].
  rewrite (ST_bind_Some _ _ _ _ _ (transmit_run _ _ _ w)).
  set (bs := take (Z.to_nat n) (drop (Z.to_nat i) data)).
  assert (Hbs : length bs = Z.to_nat n) by (unfold bs; rewrite length_take, length_drop; lia).
  rewrite (take_ge (u8 (Z.shiftr i 8) :: u8 (Z.land i 255) :: bs)) by (cbn [length]; lia).
  set (f := mkFrame true _ _ _).
  destruct (IH (i + 6) (with_out [f] w)) as (fs & Hrun & Hok & Hdel); [lia|lia|].
  exists (f :: fs). split; [rewrite Hrun; by rewrite with_out_app|split].
  { constructor; [|done]. unfold f, frame_ok. cbn [DLC data8 length]. lia. }
  change (f :: fs) with ([f] ++ fs). apply (delivers_app _ _ _ _ _ (Z.min (i + 6) len)); [|done].
  replace (Z.min (i + 6) len) with (i + n) by lia. replace (Z.min i len) with i by lia.
  apply delivers_chunk; [done|lia|lia|lia|]. intros g buf' w' Hg Hown Hw.
  apply (fill_long_step dest i bs buf' g w' Hd Hown ltac:(lia)); [|done].
  rewrite Hbs. replace (Z.of_nat (Z.to_nat n)) with n by lia. exact Hg.
Qed.

(** What the receiver does with a complete packet in [buf]. *)
Definition handle_packet (own : Z) (send : bool) (buf : list Z) (len : Z) : ST W unit :=
  can_set (fun s => s <| rx_buffer_last_id := own |>);;
  (if send then commands_send_packet buf len
   else
     commands_set_send_func SendCan;;
     buf ← commands_process_packet buf len;
     can_set (fun s => s <| rx_buffer := buf |>)).

Lemma join_bytes z : is_u16 z -> Z.lor (Z.shiftl (u8 (Z.shiftr z 8)) 8) (u8 (Z.land z 255)) = z.
Proof.
  intros Hz. change 255 with (Z.ones 8).
  rewrite Z.land_ones, lor_shiftl_add, Z.shiftr_div_pow2 by int_solve.
  change (2 ^ 8) with 256. int_solve.
Qed.

Lemma process_step dest own send data buf len crc g (w : W) :
  is_u8 dest -> controller_id (appconf w) = dest -> is_u8 own -> 0 <= len <= RX_BUFFER_SIZE ->
  Z.of_nat (length buf) = RX_BUFFER_SIZE -> len <= Z.of_nat (length data) ->
  take (Z.to_nat len) buf = take (Z.to_nat len) data -> crc16 data len = Some crc ->
  arrives (mkFrame true (can_id dest CAN_PACKET_PROCESS_RX_BUFFER) 6
    [own; Z.b2z send; u8 (Z.shiftr len 8); u8 (Z.land len 255);
     u8 (Z.shiftr crc 8); u8 (Z.land crc 255)]) g ->
  can_frame_step g (with_rx buf w) = handle_packet own send buf len (with_rx buf w).
Proof.
  intros Hd Hown Ho Hlen Hbuf Hdl Heq Hcrc [Hide Heid Hdlc [junk Hdata] _].
  set (w1 := with_rx buf w). assert (Hown1 : controller_id (appconf w1) = dest) by exact Hown.
  rewrite (frame_step_own CAN_PACKET_PROCESS_RX_BUFFER dest g w1 Hide Heid Hd ltac:(done) Hown1).
  change (can_command CAN_PACKET_PROCESS_RX_BUFFER g w1) with (can_process_long g w1).
  rewrite (crc16_take data len) in Hcrc by lia. injection Hcrc as Hcrc.
  assert (Hu : is_u16 crc) by (rewrite <- Hcrc; apply crc16_of_range).
  cbn [data8] in Hdata. unfold can_process_long. rewrite Hdata.
  erewrite ST_bind_Some; [|apply (parse_run _ (own, send, u8 (Z.shiftr len 8), u8 (Z.land len 255),
    u8 (Z.shiftr crc 8), u8 (Z.land crc 255)) 6); by destruct send].
  cbv beta iota zeta. unfold RX_BUFFER_SIZE in *.
  rewrite (join_bytes len) by (unfold is_u16; lia).
  rewrite (join_bytes crc) by exact Hu.
  unfold handle_packet. erewrite ST_bind_Some by reflexivity.
  erewrite (ST_bind_Some (can_set _)) by reflexivity.
  rewrite (proj2 (Z.ltb_ge _ _)) by lia. cbn [negb when].
  erewrite ST_bind_Some by reflexivity.
  match goal with |- context [crc16 ?b len] => change b with buf end.
  rewrite (crc16_take buf len), Heq, Hcrc by lia.
  erewrite ST_bind_Some by reflexivity. by rewrite Z.eqb_refl.
Qed.

(** C34. A packet of 7 to 1024 bytes sent over the CAN bus is cut into
    frames of at most 8 bytes; another controller that receives them,
    whatever the unused bytes of the frames hold, ends up handling exactly
    that packet. *)
Theorem can_packet_transfer dest data len send (ws wr : W) :
  is_u8 dest -> controller_id (appconf wr) = dest -> is_u8 (controller_id (appconf ws)) ->
  6 < len <= RX_BUFFER_SIZE -> len <= Z.of_nat (length data) ->
  Z.of_nat (length (rx_buffer (w_can wr))) = RX_BUFFER_SIZE ->
  exists fs, comm_can_send_buffer dest data len send ws = Some (tt, with_out fs ws) /\
    Forall frame_ok fs /\
    (forall gs, Forall2 arrives fs gs ->
     exists buf, take (Z.to_nat len) buf = take (Z.to_nat len) data /\
       can_frames gs wr =
       handle_packet (controller_id (appconf ws)) send buf len (with_rx buf wr)).
Proof.
  intros Hd Hown Ho Hlen Hdl Hrx. unfold comm_can_send_buffer.
  erewrite ST_bind_Some by reflexivity. rewrite (proj2 (Z.leb_gt _ _)) by lia.
  destruct (send_fill_spec (S (Z.to_nat len)) dest data len 0 ws) as (e & fs1 & Hrun1 & He & Hok1 & Hdel1);
    [done|lia|lia|lia|lia|].
  rewrite (ST_bind_Some _ _ _ _ _ Hrun1).
  destruct (send_fill_long_spec (S (Z.to_nat len)) dest data len e (with_out fs1 ws))
    as (fs2 & Hrun2 & Hok2 & Hdel2); [done|lia|lia|lia|lia|].
  rewrite (ST_bind_Some _ _ _ _ _ Hrun2), with_out_app.
  pose proof (crc16_take data len ltac:(lia)) as Hcrc.
  erewrite ST_bind_Some; [|by apply lift_run]. rewrite transmit_run, with_out_app.
  set (crc := crc16_of _) in *. set (f := mkFrame true _ _ _).
  exists ((fs1 ++ fs2) ++ [f]). split; [done|]. split.
  { apply Forall_app. split; [by apply Forall_app|].
    apply Forall_singleton. unfold frame_ok, f.
    split; [reflexivity|]. cbn [data8]. rewrite length_take. change (Z.to_nat 6) with 6%nat. lia. }
  intros gs (gs1 & gs2 & Hg1 & Hg2 & ->)%Forall2_app_inv_l.
  inversion Hg2 as [|? g ? gs' Hg Hnil]; subst. inversion Hnil; subst.
  destruct (delivers_app _ _ _ _ _ _ _ Hdel1 Hdel2 gs1 wr Hg1 eq_refl Hrx)
    as (buf & Hrun & Hbl & Heq); [by replace (Z.to_nat (Z.min 0 len)) with 0%nat by lia|].
  exists buf. split; [done|].
  rewrite (can_frames_app _ _ _ _ Hrun), can_frames_one.
  exact (process_step (controller_id (appconf wr)) (controller_id (appconf ws)) send data buf len
    crc g wr Hd eq_refl Ho ltac:(lia) Hbl Hdl Heq Hcrc Hg).
Qed.

(** What the receiver does with a packet that fits one frame. *)
Definition handle_short (own : Z) (send : bool) (mem : list Z) (len : Z) : ST W unit :=
  can_set (fun s => s <| rx_buffer_last_id := own |>);;
  (if send then commands_send_packet mem len
   else commands_set_send_func SendCan;; commands_process_packet mem len;; mret tt).

(** A packet of at most 6 bytes is sent over the CAN bus in one
    frame, and the receiver handles those bytes. *)
Theorem can_short_transfer dest data len send (ws wr : W) :
  is_u8 dest -> controller_id (appconf wr) = dest -> is_u8 (controller_id (appconf ws)) ->
  0 <= len <= 6 -> len <= Z.of_nat (length data) ->
  exists fs, comm_can_send_buffer dest data len send ws = Some (tt, with_out fs ws) /\
    Forall frame_ok fs /\
    (forall gs, Forall2 arrives fs gs ->
     exists junk, can_frames gs wr =
       handle_short (controller_id (appconf ws)) send (take (Z.to_nat len) data ++ junk) len wr).
Proof.
  intros Hd Hown Ho Hlen Hdl. unfold comm_can_send_buffer.
  erewrite ST_bind_Some by reflexivity. rewrite (proj2 (Z.leb_le _ _)) by lia.
  erewrite ST_bind_Some; [|apply lift_run, mem_read_take; lia].
  rewrite transmit_run, drop_0. set (own := controller_id (appconf ws)) in *.
  set (bs := take (Z.to_nat len) data).
  assert (Hbs : length bs = Z.to_nat len) by (unfold bs; rewrite length_take; lia).
  rewrite (take_ge (own :: Z.b2z send :: bs)) by (cbn [length]; lia).
  eexists. split; [done|]. split.
  { apply Forall_singleton. unfold frame_ok. cbn [DLC data8 length]. lia. }
  intros gs Hgs.
  inversion Hgs as [|? g ? gs' Hg Hnil]; subst. inversion Hnil; subst.
  destruct Hg as [Hide Heid Hdlc [junk Hdata] _]. exists junk. rewrite can_frames_one.
  cbn [data8 DLC] in Hdata, Hdlc.
  rewrite (frame_step_own CAN_PACKET_PROCESS_SHORT_BUFFER _ g wr Hide Heid Hd ltac:(done) eq_refl).
  change (can_command CAN_PACKET_PROCESS_SHORT_BUFFER g wr) with (can_process_short g wr).
  unfold can_process_short. rewrite Hdata, Hdlc.
  erewrite ST_bind_Some; [|apply (parse_run _ (own, send) 2); by destruct send].
  cbv beta iota zeta. replace (len + 2 - 2) with len by lia.
  rewrite u32_id by (unfold is_u32; lia). done.
Qed.

(** A fragment that starts inside the receive buffer and ends behind
    it is written outside the buffer. *)
Theorem can_fill_overflow dest hi lo rest g (w : W) :
  is_u8 dest -> controller_id (appconf w) = dest ->
  IDE g = true -> EID g = can_id dest CAN_PACKET_FILL_RX_BUFFER_LONG ->
  data8 g = hi :: lo :: rest -> length (data8 g) = 8%nat ->
  Z.of_nat (length (rx_buffer (w_can w))) = RX_BUFFER_SIZE ->
  let i := Z.lor (Z.shiftl hi 8) lo in
  0 <= i < RX_BUFFER_SIZE -> 2 <= DLC g <= 8 -> RX_BUFFER_SIZE < i + (DLC g - 2) ->
  can_frame_step g w = None.
Proof.
  intros Hd Hown Hide Heid Hdata Hl Hrx i Hi Hdlc Hover.
  rewrite (frame_step_own CAN_PACKET_FILL_RX_BUFFER_LONG dest g w Hide Heid Hd ltac:(done) Hown).
  change (can_command CAN_PACKET_FILL_RX_BUFFER_LONG g w) with (can_fill_long g w).
  unfold can_fill_long. rewrite Hdata in *.
  erewrite ST_bind_Some; [|apply (parse_run _ (hi, lo) 2); reflexivity].
  cbv beta iota zeta. fold i. rewrite (proj2 (Z.ltb_lt _ _)) by lia. cbn [when].
  erewrite ST_bind_Some; [|apply lift_run, mem_read_take; lia].
  erewrite ST_bind_Some by reflexivity.
  unfold mbind, ST_bind, lift_opt, mem_write. rewrite decide_False; [done|].
  rewrite length_take, length_drop. lia.
Qed.
End Can.

(** ** The ring of received frames *)

Section Ring.
Context {D F : Type}.
Abbreviation W := (world D F).

Definition ring_ok (s : can_state) : Prop :=
  Z.of_nat (length (rx_frames s)) = RX_FRAMES_SIZE /\
  0 <= rx_frame_read s < RX_FRAMES_SIZE /\ 0 <= rx_frame_write s < RX_FRAMES_SIZE.

(** The number of frames the process thread has still to handle. *)
Definition pending (s : can_state) : Z := (rx_frame_write s - rx_frame_read s) mod RX_FRAMES_SIZE.

(** A received frame goes into the ring of 100 and the indices stay
    valid; the frame after 99 unhandled ones makes the ring look empty. *)
Theorem can_ring_receive f (w : W) :
  ring_ok (w_can w) ->
  exists w', can_receive f w = Some (tt, w') /\ ring_ok (w_can w') /\
    rx_frame_read (w_can w') = rx_frame_read (w_can w) /\
    pending (w_can w') = (if pending (w_can w) =? RX_FRAMES_SIZE - 1 then 0 else pending (w_can w) + 1) /\
    rx_frames (w_can w') !! Z.to_nat (rx_frame_write (w_can w)) = Some f.
Proof.
  unfold ring_ok, pending, RX_FRAMES_SIZE. intros (Hl & Hr & Hw). unfold can_receive.
  rewrite decide_True by lia. eexists. split; [done|].
  cbv [setter eta world_eta can_state_eta]. cbn. unfold RX_FRAMES_SIZE.
  rewrite length_insert, list_lookup_insert_eq by lia.
  destruct (Z.eqb_spec (rx_frame_write (w_can w) + 1) 100);
    destruct (Z.eqb_spec ((rx_frame_write (w_can w) - rx_frame_read (w_can w)) mod 100) (100 - 1));
    repeat split; try lia; Z.to_euclidean_division_equations; lia.
Qed.
End Ring.

(** ** Witnesses *)

#[export] Instance sim_apps : Apps sim := {
  servodec_get_servo _ _ := f0; servodec_get_last_pulse_len _ _ := f0;
  app_adc_get_decoded_level _ := f0; app_adc_get_voltage _ := f0;
  app_adc_get_decoded_level2 _ := f0; app_adc_get_voltage2 _ := f0;
  app_nunchuk_get_decoded_chuk _ := f0
}.

(** The rest of the eight bytes holds 170. *)
Definition padded_frame (f : can_frame) : can_frame :=
  mkFrame (IDE f) (EID f) (DLC f) (data8 f ++ replicate (8 - length (data8 f)) 170).

Lemma padded_arrives fs : Forall frame_ok fs -> Forall2 arrives fs (map padded_frame fs).
Proof.
  induction 1 as [|f fs [Hd Hl] _ IH]; [constructor|]. cbn [map]. constructor; [|exact IH].
  split; [done|done|done|by eexists|]. cbn [padded_frame data8].
  rewrite length_app, length_replicate. lia.
Qed.

Definition can_payload : list Z := COMM_TERMINAL_CMD :: replicate 399 65.

Lemma can_packet_transfer_witness :
  exists fs buf, comm_can_send_buffer 7 can_payload 400 false (sim_world MOTOR_TYPE_BLDC)
      = Some (tt, with_out fs (sim_world MOTOR_TYPE_BLDC)) /\
    take 400 buf = can_payload /\
    can_frames (map padded_frame fs) (sim_world MOTOR_TYPE_BLDC) =
    handle_packet 7 false buf 400 (with_rx buf (sim_world MOTOR_TYPE_BLDC)).
Proof.
  destruct (can_packet_transfer 7 can_payload 400 false (sim_world MOTOR_TYPE_BLDC)
    (sim_world MOTOR_TYPE_BLDC)) as (fs & Hs & Hok & Hr);
    [done|done|done|done|done|done|].
  destruct (Hr _ (padded_arrives fs Hok)) as (buf & Hb & Hrun). exists fs, buf.
  split; [exact Hs|]. split; [exact Hb|exact Hrun].
Defined.

Lemma can_short_transfer_witness :
  exists fs junk, comm_can_send_buffer 7 [COMM_ALIVE] 1 false (sim_world MOTOR_TYPE_BLDC)
      = Some (tt, with_out fs (sim_world MOTOR_TYPE_BLDC)) /\
    can_frames (map padded_frame fs) (sim_world MOTOR_TYPE_BLDC) =
    handle_short 7 false ([COMM_ALIVE] ++ junk) 1 (sim_world MOTOR_TYPE_BLDC).
Proof.
  destruct (can_short_transfer 7 [COMM_ALIVE] 1 false (sim_world MOTOR_TYPE_BLDC)
    (sim_world MOTOR_TYPE_BLDC)) as (fs & Hs & Hok & Hr); [done|done|done|done|done|].
  destruct (Hr _ (padded_arrives fs Hok)) as (junk & Hrun). exists fs, junk.
  split; [exact Hs|exact Hrun].
Defined.

(** Six bytes for position 1023. *)
Definition overflow_frame : can_frame :=
  mkFrame true (can_id 7 CAN_PACKET_FILL_RX_BUFFER_LONG) 8 [3; 255; 1; 2; 3; 4; 5; 6].

Lemma can_fill_overflow_witness : can_frame_step overflow_frame (sim_world MOTOR_TYPE_BLDC) = None.
Proof.
  exact (can_fill_overflow 7 3 255 [1; 2; 3; 4; 5; 6] overflow_frame (sim_world MOTOR_TYPE_BLDC)
    ltac:(done) eq_refl eq_refl eq_refl eq_refl eq_refl eq_refl ltac:(done) ltac:(done) ltac:(done)).
Defined.

Lemma can_ring_receive_witness :
  exists w', can_receive (mkFrame true 7 0 (replicate 8 0)) (sim_world MOTOR_TYPE_BLDC) = Some (tt, w') /\
    pending (w_can w') = 1.
Proof.
  destruct (can_ring_receive (mkFrame true 7 0 (replicate 8 0)) (sim_world MOTOR_TYPE_BLDC))
    as (w' & Hrun & _ & _ & Hp & _); [done|].
  exists w'. split; [exact Hrun|exact Hp].
Defined.
