(* ===== verification/CommandTheorems.v ===== *)
(** * CommandTheorems: what the packets of the command protocol do *)
From S2P Require Import Prelude Float32 Buffer McTypes ConfCodec Motor Flash Eeprom Utils World.
From S2P Require Import Transmit McInterface McInterfaceSpec ConfDefault FlashHelper.
From S2P Require Import FlashHelper Timeout ConfGeneral Commands CommCan Keeps BoardSim.
From S2P Require Import ConfTheorems TimeoutTheorems CanTheorems.

#[export] Instance appconf_outside {D F} : Outside (@appconf D F).
Proof. by split. Qed.

Section Commands.
Context {D F : Type} `{Board D} `{Flash F} `{Apps D} `{Sleep D F}.
Context `{Layout mc_configuration} `{Layout app_configuration}.
Abbreviation W := (world D F).

(** [parse] of a reader on a packet that starts with its bytes. *)
Lemma parse_reads {A} (g : list Z -> ST Z A) bs v rest (w : W) :
  reads g bs v -> parse (g (bs ++ rest)) w = Some (v, w).
Proof.
  intros Hr. apply (parse_run _ v (0 + Z.of_nat (length bs))). apply Hr. split; [done|].
  intros k Hk. by rewrite lookup_app_l by (cbn; lia).
Qed.

(** ** Motor commands *)

(** The command behind a packet id and its argument. *)
Definition wire_command (packet_id v : Z) : option mc_command :=
  if packet_id =? COMM_SET_DUTY then Some (CmdDuty (f_of_int v / f_of_int 100000)%f32)
  else if packet_id =? COMM_SET_CURRENT then Some (CmdCurrent (f_of_int v / f_of_int 1000)%f32)
  else if packet_id =? COMM_SET_CURRENT_BRAKE then Some (CmdBrake (f_of_int v / f_of_int 1000)%f32)
  else if packet_id =? COMM_SET_RPM then Some (CmdSpeed (f_of_int v))
  else if packet_id =? COMM_SET_POS then Some (CmdPos (f_of_int v / f_of_int 1000000)%f32)
  else None.

(** [timeout_reset] *)
Definition timeout_restarted (w : W) : W :=
  w <| w_tmo := (w_tmo w) <| last_update_time := chVTGetSystemTime (w_hw w) |> |>.

(** The body of the five cases. *)
Lemma set_command_run {A} c (g : ST Z A) (a : A) (set : A -> ST W unit) (w : W) :
  motor_state w <> MC_STATE_DETECTING -> 0 <= m_ignore_iterations (w_mci w) ->
  parse g w = Some (a, w) -> set a = mc_exec c ->
  (x ← parse g; set x;; timeout_reset) w =
  Some (tt, timeout_restarted (if accepts (w_mci w) then perform c w else w)).
Proof.
  intros Hst Hn Hparse Hset. rewrite (ST_bind_Some _ _ _ _ _ Hparse), Hset.
  rewrite (ST_bind_Some _ _ _ _ _ (exec_spec c w Hst Hn)). reflexivity.
Qed.

Lemma motor_dispatch packet_id v c rest len (w : W) :
  wire_command packet_id v = Some c -> is_i32 v ->
  motor_state w <> MC_STATE_DETECTING -> 0 <= m_ignore_iterations (w_mci w) ->
  dispatch packet_id (be32 v ++ rest) len w =
  Some (tt, timeout_restarted (if accepts (w_mci w) then perform c w else w)).
Proof.
  intros Hc Hv Hst Hn.
  assert (Hscaled : forall scale, parse (get_scaled (be32 v ++ rest) scale) w
                     = Some ((f_of_int v / scale)%f32, w)).
  { intros scale. apply (parse_reads (fun data => get_scaled data scale)).
    apply (reads_map buffer_get_int32 (fun x => (f_of_int x / scale)%f32)). by apply reads_int32. }
  assert (Hint : parse (buffer_get_int32 (be32 v ++ rest)) w = Some (v, w))
    by (apply parse_reads; by apply reads_int32).
  unfold wire_command in Hc.
  destruct (Z.eqb_spec packet_id COMM_SET_DUTY) as [->|_].
  { injection Hc as <-. exact (set_command_run (CmdDuty _) _ _ _ w Hst Hn (Hscaled _) eq_refl). }
  destruct (Z.eqb_spec packet_id COMM_SET_CURRENT) as [->|_].
  { injection Hc as <-. exact (set_command_run (CmdCurrent _) _ _ _ w Hst Hn (Hscaled _) eq_refl). }
  destruct (Z.eqb_spec packet_id COMM_SET_CURRENT_BRAKE) as [->|_].
  { injection Hc as <-. exact (set_command_run (CmdBrake _) _ _ _ w Hst Hn (Hscaled _) eq_refl). }
  destruct (Z.eqb_spec packet_id COMM_SET_RPM) as [->|_].
  { injection Hc as <-. exact (set_command_run (CmdSpeed _) _ _ (fun x =>
      mc_interface_set_pid_speed (f_of_int x)) w Hst Hn Hint eq_refl). }
  destruct (Z.eqb_spec packet_id COMM_SET_POS) as [->|_]; [|done].
  injection Hc as <-. exact (set_command_run (CmdPos _) _ _ _ w Hst Hn (Hscaled _) eq_refl).
Qed.

(** A duty, current, brake, speed or position packet gives the motor
    exactly the scaled value, if the interface accepts commands, and
    restarts the timeout in any case. *)
Theorem motor_packet packet_id v c rest len (w : W) :
  wire_command packet_id v = Some c -> is_i32 v -> len <> 0 ->
  motor_state w <> MC_STATE_DETECTING -> 0 <= m_ignore_iterations (w_mci w) ->
  commands_process_packet (packet_id :: be32 v ++ rest) len w =
  Some (packet_id :: be32 v ++ rest,
        timeout_restarted (if accepts (w_mci w) then perform c w else w)).
Proof.
  intros Hc Hv Hlen Hst Hn. unfold commands_process_packet.
  rewrite (proj2 (Z.eqb_neq _ _) Hlen).
  destruct (Z.eqb_spec packet_id COMM_TERMINAL_CMD) as [->|_]; [done|].
  by rewrite (ST_bind_Some _ _ _ _ _ (motor_dispatch packet_id v c rest (len - 1) w Hc Hv Hst Hn)).
Qed.

(** ** The configuration messages *)

(** A reply of the bytes [bs] through a transport other than CAN. *)
Lemma send_reply_run m bs h (w : W) :
  writes m bs -> (length bs <= length (send_buffer (w_cmd w)))%nat ->
  send_func (w_cmd w) = Some h -> h <> SendCan ->
  send_reply m w =
  Some (tt, w <| w_cmd := (w_cmd w) <| send_buffer := bs ++ drop (length bs) (send_buffer (w_cmd w)) |> |>
              <| w_out := w_out w ++ [EvSend h bs] |>).
Proof.
  intros Hm Hlen Hh Hne. unfold send_reply. erewrite ST_bind_Some by reflexivity.
  assert (Hrun : m (send_buffer (w_cmd w), 0) =
    Some (tt, (bs ++ drop (length bs) (send_buffer (w_cmd w)), Z.of_nat (length bs)))).
  { rewrite (Hm _ 0) by lia. do 3 f_equal. change (Z.to_nat 0) with 0%nat.
    rewrite <- (take_drop (length bs) (send_buffer (w_cmd w))) at 1.
    apply list_inserts_0_r. rewrite length_take. lia. }
  erewrite ST_bind_Some; [|by apply lift_run]. cbv beta iota zeta.
  erewrite ST_bind_Some by reflexivity. unfold commands_send_packet.
  erewrite ST_bind_Some by reflexivity.
  assert (Hread : mem_read (bs ++ drop (length bs) (send_buffer (w_cmd w))) 0 (Z.of_nat (length bs))
                  = Some bs).
  { rewrite mem_read_take by (rewrite ?length_app; lia). by rewrite drop_0, Nat2Z.id, take_app_length. }
  cbv [setter eta world_eta]. cbn [w_cmd send_func commands_state_eta]. rewrite Hh.
  destruct h; try done; (erewrite ST_bind_Some; [|by apply lift_run]); reflexivity.
Qed.

(** The reply to a request for the motor configuration carries its
    wire image, and that image sent back stores the configuration, puts it
    into force and is acknowledged. *)
Theorem mcconf_messages rest len h (w : W) :
  let c := m_conf (w_mci w) in
  mc_configuration_typed c -> len <> 0 -> send_func (w_cmd w) = Some h -> h <> SendCan ->
  Z.of_nat (length (send_buffer (w_cmd w))) = PACKET_MAX_PL_LEN ->
  (exists w', commands_process_packet (COMM_GET_MCCONF :: rest) len w
     = Some (COMM_GET_MCCONF :: rest, w') /\ m_conf (w_mci w') = c /\
     w_out w' = w_out w ++ [EvSend h (COMM_GET_MCCONF :: mcconf_wire c)]) /\
  commands_process_packet (COMM_SET_MCCONF :: mcconf_wire c ++ rest) len w =
  (conf_general_store_mc_configuration (mcconf_quant c);;
   mc_interface_set_configuration (mcconf_quant c);;
   send_reply (put8 COMM_SET_MCCONF);;
   mret (COMM_SET_MCCONF :: mcconf_wire c ++ rest)) w.
Proof.
  intros c Ht Hlen Hh Hne Hbuf. unfold commands_process_packet.
  rewrite (proj2 (Z.eqb_neq _ _) Hlen). split.
  - change (COMM_GET_MCCONF =? COMM_TERMINAL_CMD) with false. cbv iota.
    change (dispatch COMM_GET_MCCONF rest (len - 1)) with (on_get_mcconf (D := D) (F := F) COMM_GET_MCCONF).
    assert (Hw : writes (put8 COMM_GET_MCCONF;; mcconf_append c) (COMM_GET_MCCONF :: mcconf_wire c)).
    { apply (writes_bind _ _ [u8 COMM_GET_MCCONF]); [apply writes_put8|by apply mcconf_append_writes]. }
    pose proof (mcconf_wire_length c Ht) as Hl. unfold MCCONF_WIRE_LEN, PACKET_MAX_PL_LEN in *.
    assert (Hrun : on_get_mcconf COMM_GET_MCCONF w
      = send_reply (put8 COMM_GET_MCCONF;; mcconf_append c) w) by reflexivity.
    rewrite (send_reply_run _ _ h w Hw) in Hrun by (cbn [length]; lia || done).
    rewrite (ST_bind_Some _ _ _ _ _ Hrun). eexists. split; [reflexivity|]. by split.
  - change (COMM_SET_MCCONF =? COMM_TERMINAL_CMD) with false. cbv iota.
    change (dispatch COMM_SET_MCCONF (mcconf_wire c ++ rest) (len - 1))
      with (on_set_mcconf (D := D) (F := F) COMM_SET_MCCONF (mcconf_wire c ++ rest)).
    unfold on_set_mcconf. unfold mbind at 1, ST_bind at 1.
    erewrite ST_bind_Some; [|by apply parse_reads, mcconf_get_reads].
    unfold mbind, ST_bind. destruct (conf_general_store_mc_configuration _ w) as [[ok w1]|]; [|done].
    destruct (mc_interface_set_configuration _ w1) as [[[] w2]|]; [|done].
    by destruct (send_reply _ w2) as [[[] w3]|].
Qed.

(** After a packet with an application configuration, that
    configuration and its timeout settings are in force, whether or not it
    could be stored. *)
Theorem set_appconf_message c rest len (w w' : W) mem :
  app_configuration_typed c -> len <> 0 ->
  commands_process_packet (COMM_SET_APPCONF :: appconf_wire c ++ rest) len w = Some (mem, w') ->
  appconf w' = appconf_quant c /\
  timeout_conf w' = (timeout_msec c, quant32 (f_of_int 1000) (timeout_brake_current c)).
Proof.
  intros Ht Hlen. unfold commands_process_packet. rewrite (proj2 (Z.eqb_neq _ _) Hlen).
  change (COMM_SET_APPCONF =? COMM_TERMINAL_CMD) with false. cbv iota.
  change (dispatch COMM_SET_APPCONF (appconf_wire c ++ rest) (len - 1))
    with (on_set_appconf (D := D) (F := F) COMM_SET_APPCONF (appconf_wire c ++ rest)).
  intros ([] & w5 & Hrun & Hret)%bind_inv. injection Hret as <- <-. unfold on_set_appconf in Hrun.
  apply bind_inv in Hrun as (conf & w1 & E1 & Hrun).
  rewrite (parse_reads appconf_get _ (appconf_quant c) rest w) in E1 by by apply appconf_get_reads.
  injection E1 as <- <-.
  apply bind_inv in Hrun as (ok & w2 & _ & Hrun).
  apply bind_inv in Hrun as ([] & w3 & E3 & Hrun). injection E3 as <-.
  apply bind_inv in Hrun as ([] & w4 & E4 & Hrun). injection E4 as <-.
  split.
  - apply (keeps_send_reply appconf) in Hrun. by rewrite Hrun.
  - apply (keeps_send_reply timeout_conf) in Hrun. by rewrite Hrun.
Qed.

(** ** The terminal *)

(** A terminal command is terminated in place: it needs one byte of
    memory behind the packet, and without it the write is outside the
    buffer. *)
Theorem terminal_cmd_bounds text tail (w : W) :
  commands_process_packet (COMM_TERMINAL_CMD :: text ++ tail) (1 + Z.of_nat (length text)) w =
  match tail with
  | [] => None
  | _ :: tail' =>
      Some (COMM_TERMINAL_CMD :: text ++ 0 :: tail',
            w <| w_out := w_out w ++ [EvTerminal (c_string (text ++ 0 :: tail'))] |>)
  end.
Proof.
  unfold commands_process_packet. rewrite (proj2 (Z.eqb_neq _ _)) by lia.
  change (COMM_TERMINAL_CMD =? COMM_TERMINAL_CMD) with true. cbv iota.
  replace (1 + Z.of_nat (length text) - 1) with (Z.of_nat (length text)) by lia.
  unfold on_terminal_cmd, arr_set. rewrite length_app.
  destruct tail as [|b tail']; cbn [length].
  - rewrite app_nil_r, decide_False by lia. reflexivity.
  - rewrite decide_True by lia.
    rewrite Nat2Z.id, insert_app_r_alt, Nat.sub_diag by lia. reflexivity.
Qed.

(** ** Detection without a hall port *)

(** Without a hall port the hall detection sends no reply and
    overwrites the start of the send buffer. *)
Theorem hall_detection_unanswered rest len (w : W) :
  len <> 0 -> m_sensor_port_mode (m_conf (w_mci w)) <> SENSOR_PORT_MODE_HALL ->
  (10 <= length (send_buffer (w_cmd w)))%nat ->
  exists w', commands_process_packet (COMM_DETECT_HALL_FOC :: rest) len w
    = Some (COMM_DETECT_HALL_FOC :: rest, w') /\
    w_out w' = w_out w /\ w_mci w' = w_mci w /\ w_hw w' = w_hw w /\
    take 8 (send_buffer (w_cmd w')) = replicate 8 255.
Proof.
  intros Hlen Hport Hbuf. unfold commands_process_packet. rewrite (proj2 (Z.eqb_neq _ _) Hlen).
  change (COMM_DETECT_HALL_FOC =? COMM_TERMINAL_CMD) with false. cbv iota.
  change (dispatch COMM_DETECT_HALL_FOC rest (len - 1))
    with (on_detect_hall_foc (D := D) (F := F) rest).
  destruct (send_buffer (w_cmd w)) as [|b0 [|b1 [|b2 [|b3 [|b4 [|b5 [|b6 [|b7 [|b8 [|b9 bs]]]]]]]]]] eqn:E;
    cbn [length] in Hbuf; try lia.
  assert (Hrun : on_detect_hall_foc (D := D) (F := F) rest w = Some (tt, w <| w_cmd :=
    (w_cmd w) <| send_buffer := replicate 8 255 ++ b8 :: 0 :: bs |> |>)).
  { unfold on_detect_hall_foc. erewrite ST_bind_Some by reflexivity.
    rewrite (proj2 (Z.eqb_neq _ _) Hport). erewrite ST_bind_Some by reflexivity. rewrite E.
    assert (Hfill : (put8 COMM_DETECT_HALL_FOC;; memset_start 255 8;; put8 0)
      (b0 :: b1 :: b2 :: b3 :: b4 :: b5 :: b6 :: b7 :: b8 :: b9 :: bs, 0)
      = Some (tt, (replicate 8 255 ++ b8 :: 0 :: bs, 10))).
    { pose proof (writes_put8 COMM_DETECT_HALL_FOC
        (b0 :: b1 :: b2 :: b3 :: b4 :: b5 :: b6 :: b7 :: b8 :: b9 :: bs) 0) as Hput.
      rewrite (ST_bind_Some _ _ _ _ _ (Hput ltac:(lia) ltac:(cbn [length]; lia))).
      unfold mbind, ST_bind, memset_start.
      rewrite decide_True by (rewrite length_inserts; cbn [length]; lia). cbv beta iota.
      rewrite (writes_put8 0); [reflexivity|lia|].
      rewrite !length_inserts. cbn [length]. lia. }
    erewrite ST_bind_Some; [|by apply lift_run]. reflexivity. }
  rewrite (ST_bind_Some _ _ _ _ _ Hrun). eexists. split; [reflexivity|]. by repeat split.
Qed.
End Commands.

(** ** Witnesses *)

Lemma sim_not_detecting : motor_state (sim_world MOTOR_TYPE_BLDC) <> MC_STATE_DETECTING.
Proof. discriminate. Qed.

Lemma motor_packet_witness :
  exists w', commands_process_packet (COMM_SET_CURRENT :: be32 5000 ++ []) 5 (sim_world MOTOR_TYPE_BLDC)
    = Some (COMM_SET_CURRENT :: be32 5000 ++ [], w') /\
    sim_calls (w_hw w') = [(false, CCurrent (f_of_int 5000 / f_of_int 1000)%f32)].
Proof.
  eexists. split.
  - refine (motor_packet COMM_SET_CURRENT 5000 _ [] 5 (sim_world MOTOR_TYPE_BLDC) eq_refl _ _
      sim_not_detecting _); [unfold is_i32; lia|lia|done].
  - reflexivity.
Defined.

Definition default_conf_world : world sim flash_mem :=
  (sim_world MOTOR_TYPE_BLDC) <| w_mci := sim_mci <| m_conf := conf_general_get_default_mc_configuration |> |>.

Lemma mcconf_messages_witness :
  exists w', commands_process_packet [COMM_GET_MCCONF] 1 default_conf_world
     = Some ([COMM_GET_MCCONF], w') /\
     w_out w' = [EvSend SendUsb (COMM_GET_MCCONF :: mcconf_wire conf_general_get_default_mc_configuration)].
Proof.
  destruct (mcconf_messages [] 1 SendUsb default_conf_world default_mc_typed ltac:(lia) eq_refl
    ltac:(discriminate) eq_refl) as ((w' & Hrun & _ & Hout) & _).
  exists w'. split; [exact Hrun|exact Hout].
Defined.

Lemma set_appconf_returns :
  option_map (fun r => length r.1) (commands_process_packet (COMM_SET_APPCONF :: appconf_wire
    conf_general_get_default_app_configuration ++ []) 126 formatted_world) = Some 126%nat.
Proof. vm_compute. reflexivity. Qed.

Lemma set_appconf_message_witness :
  exists mem w', commands_process_packet (COMM_SET_APPCONF :: appconf_wire
      conf_general_get_default_app_configuration ++ []) 126 formatted_world = Some (mem, w') /\
    timeout_msec_v (w_tmo w') = 1000.
Proof.
  pose proof set_appconf_returns as Hs.
  destruct (commands_process_packet (COMM_SET_APPCONF :: appconf_wire
    conf_general_get_default_app_configuration ++ []) 126 formatted_world) as [[mem w']|] eqn:E;
    [|discriminate Hs].
  exists mem, w'. split; [reflexivity|].
  pose proof (proj2 (set_appconf_message _ [] 126 formatted_world w' mem default_app_typed
    ltac:(lia) E)) as Hc.
  exact (f_equal fst Hc).
Defined.

(** A motor with an encoder. *)
Definition encoder_world : world sim flash_mem :=
  (sim_world MOTOR_TYPE_FOC)
    <| w_mci := sim_mci <| m_conf := sim_conf <| m_sensor_port_mode := SENSOR_PORT_MODE_ABI |> |> |>.

Lemma hall_detection_unanswered_witness :
  exists w', commands_process_packet (COMM_DETECT_HALL_FOC :: be32 5000) 5 encoder_world
    = Some (COMM_DETECT_HALL_FOC :: be32 5000, w') /\ w_out w' = [].
Proof.
  assert (Hbuf : (10 <= length (send_buffer (w_cmd encoder_world)))%nat)
    by (cbn [encoder_world w_cmd send_buffer]; vm_compute; lia).
  destruct (hall_detection_unanswered (be32 5000) 5 encoder_world ltac:(lia) ltac:(discriminate) Hbuf)
    as (w' & Hrun & Hout & _).
  exists w'. split; [exact Hrun|exact Hout].
Defined.
