(* ===== verification/CanProgress.v ===== *)
(** * CanProgress: the process thread of the CAN bus empties its ring

    Whatever the packets make the controller do, handling a frame takes
    exactly one frame out of the ring: the loop of the thread ends after as
    many rounds as there were frames. *)
From S2P Require Import Prelude Float32 Buffer McTypes ConfCodec Motor Flash Eeprom Utils World.
From S2P Require Import Transmit McInterface McInterfaceSpec ConfDefault FlashHelper.
From S2P Require Import FlashHelper Timeout ConfGeneral Commands CommCan Keeps BoardSim.
From S2P Require Import ConfTheorems TimeoutTheorems CanTheorems.

(** The ring's indices and size. *)
Definition ring_of {D F} (w : world D F) : Z * Z * nat :=
  (rx_frame_read (w_can w), rx_frame_write (w_can w), length (rx_frames (w_can w))).

#[export] Instance ring_outside {D F} : Outside (@ring_of D F).
Proof. by split. Qed.

Section Keep.
Context {D F : Type} `{Board D} `{Flash F} `{Apps D} `{Sleep D F}.
Context `{Layout mc_configuration} `{Layout app_configuration}.
Abbreviation W := (world D F).

(** No frame is received while a measurement sleeps. *)
Hypothesis sleep_keeps : forall n, keeps ring_of (chThdSleepMilliseconds (D := D) (F := F) n).

Abbreviation keeps_ring := (keeps (@ring_of D F)).

Lemma ring_tmo_set g : keeps_ring (tmo_set g).
Proof. by apply keeps_modify. Qed.
#[local] Hint Resolve ring_tmo_set : keeps.
#[local] Hint Extern 1 (keeps _ (chThdSleepMilliseconds _)) => apply sleep_keeps : keeps.

Lemma ring_parse {A} (g : ST Z A) : keeps_ring (parse g).
Proof. unfold parse. keeps_auto. Qed.
Lemma ring_timeout_reset : keeps_ring timeout_reset.
Proof. unfold timeout_reset. keeps_auto. Qed.
Lemma ring_release : keeps_ring mc_interface_release_motor.
Proof. unfold mc_interface_release_motor. keeps_auto. Qed.
Lemma ring_lock : keeps_ring utils_sys_lock_cnt.
Proof. unfold utils_sys_lock_cnt. keeps_auto. Qed.
Lemma ring_unlock : keeps_ring utils_sys_unlock_cnt.
Proof. unfold utils_sys_unlock_cnt. keeps_auto. Qed.
Lemma ring_wwdg b : keeps_ring (wwdg b).
Proof. unfold wwdg. keeps_auto. Qed.
#[local] Hint Resolve ring_parse ring_timeout_reset ring_release ring_lock ring_unlock ring_wwdg : keeps.

Lemma ring_sample_at l i : keeps_ring (sample_at l i).
Proof. unfold sample_at. keeps_auto. Qed.
Lemma ring_ee_write va d : keeps_ring (ee_write va d).
Proof. intros w a w'. apply (keeps_ee_run ring_of). Qed.
#[local] Hint Resolve ring_sample_at ring_ee_write : keeps.

Lemma ring_store_image n base i bytes : keeps_ring (store_image n base i bytes).
Proof. revert i. induction n as [|n IH]; intros i; cbn [store_image]; keeps_auto. Qed.
#[local] Hint Resolve ring_store_image : keeps.
Lemma ring_store_app c : keeps_ring (conf_general_store_app_configuration c).
Proof. unfold conf_general_store_app_configuration, with_motor_stopped, mc_interface_unlock. keeps_auto. Qed.
Lemma ring_store_mc c : keeps_ring (conf_general_store_mc_configuration c).
Proof. unfold conf_general_store_mc_configuration, with_motor_stopped, mc_interface_unlock. keeps_auto. Qed.
#[local] Hint Resolve ring_store_app ring_store_mc : keeps.

Lemma ring_erase_loop n i size : keeps_ring (erase_loop n i size).
Proof. revert i. induction n as [|n IH]; intros i; cbn [erase_loop]; keeps_auto. Qed.
Lemma ring_write_loop data n a : keeps_ring (write_loop data n a).
Proof. revert data a. induction n as [|n IH]; intros data a; cbn [write_loop]; keeps_auto. Qed.
#[local] Hint Resolve ring_erase_loop ring_write_loop : keeps.
Lemma ring_flash_access body : keeps_ring body -> keeps_ring (with_flash_access body).
Proof. intros Hb. unfold with_flash_access, mc_interface_unlock. keeps_auto. Qed.

Lemma ring_spin_up n duty : keeps_ring (spin_up n duty).
Proof. induction n as [|n IH]; cbn [spin_up]; unfold mc_interface_get_duty_cycle_now; keeps_auto. Qed.
Lemma ring_flux_samples n v rpm i s : keeps_ring (flux_samples n v rpm i s).
Proof.
  revert v rpm i s. induction n as [|n IH]; intros v rpm i s; cbn [flux_samples];
    unfold mc_interface_get_duty_cycle_now, mc_interface_get_rpm, mc_interface_get_tot_current;
    keeps_auto.
Qed.
#[local] Hint Resolve ring_spin_up ring_flux_samples : keeps.

Lemma ring_flux a b c d : keeps_ring (conf_general_measure_flux_linkage a b c d).
Proof.
  unfold conf_general_measure_flux_linkage, mc_interface_get_configuration, mc_interface_lock,
    mc_interface_unlock, mc_interface_lock_override_once, timeout_get_timeout_msec,
    timeout_get_brake_current, timeout_configure. keeps_auto.
Qed.
Lemma ring_foc_measure {A} (m : mc_configuration -> D -> A * mc_configuration * D) :
  keeps_ring (foc_measure m).
Proof. intros w a w'. unfold foc_measure. destruct (m _ _) as [[a' c] d]. by intros [= <- <-]. Qed.
Lemma ring_app_set c : keeps_ring (app_set_configuration c).
Proof.
  unfold app_set_configuration. apply keeps_bind; [by apply keeps_modify|intros []]. keeps_auto.
Qed.
Lemma ring_app_get : keeps_ring app_get_configuration.
Proof. by intros w a w' [= <- <-]. Qed.
#[local] Hint Resolve ring_flux ring_foc_measure ring_app_set ring_app_get : keeps.

Lemma ring_dispatch packet_id data len : keeps_ring (dispatch packet_id data len).
Proof.
  unfold dispatch, on_fw_version, flash_helper_jump_to_bootloader, on_erase_new_app,
    on_write_new_app_data, flash_helper_erase_new_app, flash_helper_write_new_app_data, reply_status,
    on_get_values, mc_interface_read_reset_avg_motor_current,
    mc_interface_read_reset_avg_input_current, mc_interface_get_duty_cycle_now, mc_interface_get_rpm,
    mc_interface_get_amp_hours, mc_interface_get_amp_hours_charged, mc_interface_get_watt_hours,
    mc_interface_get_watt_hours_charged, mc_interface_get_fault, on_set_duty, on_set_current,
    on_set_current_brake, on_set_rpm, on_set_pos, on_set_detect, mc_interface_get_configuration,
    on_set_mcconf, on_get_mcconf, on_set_appconf, timeout_configure, on_get_appconf, on_sample_print,
    mc_interface_sample_print_data, on_detect_motor_param, on_detect_motor_r_l,
    on_detect_flux_linkage, on_detect_encoder, reply_encoder, on_detect_hall_foc, on_get_decoded_ppm,
    on_get_decoded_adc, on_get_decoded_chuk, on_forward_can, on_set_chuck_data,
    app_nunchuk_update_output, on_custom_app_data, mc_interface_unlock.
  repeat (match goal with |- keeps _ (if ?b then _ else _) => destruct b end;
    [solve [keeps_auto; apply ring_flash_access; keeps_auto]|]).
  keeps_auto.
Qed.
#[local] Hint Resolve ring_dispatch : keeps.

Lemma ring_process_packet data len : keeps_ring (commands_process_packet data len).
Proof. unfold commands_process_packet, on_terminal_cmd. keeps_auto. Qed.
#[local] Hint Resolve ring_process_packet : keeps.

Lemma ring_can_set g :
  (forall s, rx_frame_read (g s) = rx_frame_read s /\ rx_frame_write (g s) = rx_frame_write s /\
             rx_frames (g s) = rx_frames s) -> keeps_ring (can_set g).
Proof.
  intros Hg. apply keeps_modify. intros w. unfold ring_of. cbn.
  by destruct (Hg (w_can w)) as (-> & -> & ->).
Qed.
#[local] Hint Extern 1 (keeps _ (can_set _)) => apply ring_can_set; done : keeps.

Lemma ring_can_fill g : keeps_ring (can_fill g).
Proof. unfold can_fill. keeps_auto. Qed.
Lemma ring_can_fill_long g : keeps_ring (can_fill_long g).
Proof. unfold can_fill_long. keeps_auto. Qed.
Lemma ring_can_process_long g : keeps_ring (can_process_long g).
Proof. unfold can_process_long. keeps_auto. Qed.
Lemma ring_can_process_short g : keeps_ring (can_process_short g).
Proof. unfold can_process_short. keeps_auto. Qed.
#[local] Hint Resolve ring_can_fill ring_can_fill_long ring_can_process_long ring_can_process_short
  : keeps.

Lemma ring_frame_step g : keeps_ring (can_frame_step g).
Proof. unfold can_frame_step, can_command, can_status. keeps_auto. Qed.

(** One round takes one frame. *)
Lemma process_step_one (w w' : W) :
  ring_ok (w_can w) -> 0 < pending (w_can w) -> cancom_process_step w = Some (tt, w') ->
  ring_ok (w_can w') /\ pending (w_can w') = pending (w_can w) - 1.
Proof.
  intros (Hl & Hr & Hw) Hp. unfold cancom_process_step.
  intros (r & w1 & E1 & Hrun)%bind_inv. injection E1 as <- <-.
  apply bind_inv in Hrun as (fs & w2 & E2 & Hrun). injection E2 as <- <-.
  apply bind_inv in Hrun as (g & w3 & E3 & Hrun).
  apply (keeps_lift_opt ring_of) in E3 as Hk3. 
  apply bind_inv in Hrun as ([] & w4 & E4 & Hrun). injection E4 as <-.
  apply bind_inv in Hrun as ([] & w5 & E5 & Hrun). apply ring_frame_step in E5.
  injection Hrun as <-. unfold ring_of in *. cbn in E5. injection E5 as Er Ew El.
  injection Hk3 as Hr3 Hw3 Hl3. rewrite Hw3 in Ew. rewrite Hl3 in El.
  unfold ring_ok, pending, RX_FRAMES_SIZE in *. cbn. rewrite Er, Ew, El.
  revert Hp. destruct (Z.eqb_spec (rx_frame_read (w_can w) + 1) 100); intros Hp;
    (split; [lia|]); Z.to_euclidean_division_equations; lia.
Qed.

Fixpoint process_rounds (n : nat) : ST W unit :=
  match n with O => mret tt | S n => cancom_process_step;; process_rounds n end.

(** The process thread of the CAN bus takes exactly one frame per
    round, whatever the packets make the controller do: its loop runs as
    often as frames are waiting, then the ring is empty. *)
Theorem cancom_process_empties fuel (w : W) :
  ring_ok (w_can w) -> pending (w_can w) < Z.of_nat fuel ->
  cancom_process fuel w = process_rounds (Z.to_nat (pending (w_can w))) w /\
  (forall w', cancom_process fuel w = Some (tt, w') ->
     ring_ok (w_can w') /\ pending (w_can w') = 0).
Proof using sleep_keeps.
  revert w. induction fuel as [|fuel IH]; intros w Hok Hf.
  { unfold pending, RX_FRAMES_SIZE in Hf. Z.to_euclidean_division_equations. lia. }
  cbn [cancom_process]. do 2 (erewrite ST_bind_Some by reflexivity).
  pose proof Hok as (Hl & Hr & Hw).
  destruct (Z.eqb_spec (rx_frame_read (w_can w)) (rx_frame_write (w_can w))) as [He|Hne].
  - assert (Hp : pending (w_can w) = 0) by (unfold pending; by rewrite He, Z.sub_diag).
    rewrite Hp. split; [done|]. by intros w' [= <-].
  - assert (Hp : 0 < pending (w_can w)).
    { unfold pending, RX_FRAMES_SIZE in *. Z.to_euclidean_division_equations. lia. }
    replace (Z.to_nat (pending (w_can w))) with (S (Z.to_nat (pending (w_can w) - 1))) by lia.
    cbn [process_rounds]. unfold mbind, ST_bind.
    destruct (cancom_process_step w) as [[[] w1]|] eqn:E; [|done].
    destruct (process_step_one w w1 Hok Hp E) as [Hok1 Hp1]. rewrite <- Hp1.
    apply IH; [done|lia].
Qed.
End Keep.

(** ** Witness: the ring with one frame for another controller *)

Lemma sim_sleep_ring n : keeps ring_of (chThdSleepMilliseconds (D := sim) (F := flash_mem) n).
Proof. apply keeps_ret. Qed.

Definition one_frame_world : world sim flash_mem :=
  (sim_world MOTOR_TYPE_BLDC) <| w_can := mkCan (replicate 10 sim_status) (replicate 1024 0) 0
     (replicate 100 (mkFrame true 9 0 (replicate 8 0))) 99 0 |>.

Lemma one_frame_processed : option_map fst (cancom_process 2 one_frame_world) = Some tt.
Proof. vm_compute. reflexivity. Qed.

Lemma cancom_process_empties_witness :
  exists w', cancom_process 2 one_frame_world = Some (tt, w') /\ pending (w_can w') = 0.
Proof.
  pose proof one_frame_processed as Hs.
  assert (Hok : ring_ok (w_can one_frame_world)) by done.
  assert (Hp : pending (w_can one_frame_world) < Z.of_nat 2) by done.
  pose proof (cancom_process_empties sim_sleep_ring 2 one_frame_world Hok Hp) as [_ Hend].
  destruct (cancom_process 2 one_frame_world) as [[[] w']|] eqn:E; [|discriminate Hs].
  exists w'. split; [reflexivity|]. exact (proj2 (Hend w' eq_refl)).
Defined.
