(* ===== verification/FloatExact.v ===== *)
(** * FloatExact: small integers are computed exactly

    Below [2^24] the conversion from an integer is exact, and so are sums,
    comparisons and the conversion back. *)
From S2P Require Import Prelude Float32.

Definition digits (p : positive) : Z := Z.pos (digits2_pos p).

Lemma digits_bounds p : 2 ^ (digits p - 1) <= Z.pos p < 2 ^ digits p.
Proof.
  unfold digits. induction p as [p IH|p IH|]; [| |by vm_compute]; cbn [digits2_pos];
    rewrite Pos2Z.inj_succ, Z.pow_succ_r by lia;
    replace (Z.succ (Z.pos (digits2_pos p)) - 1) with (Z.succ (Z.pos (digits2_pos p) - 1)) by lia;
    rewrite Z.pow_succ_r by lia; lia.
Qed.

Lemma digits_unique p d : 1 <= d -> 2 ^ (d - 1) <= Z.pos p < 2 ^ d -> digits p = d.
Proof.
  intros Hd Hp. pose proof (digits_bounds p) as Hb. assert (1 <= digits p) by (unfold digits; lia).
  destruct (Z.lt_trichotomy (digits p) d) as [Hlt|[->|Hgt]]; [|done|].
  - assert (2 ^ digits p <= 2 ^ (d - 1)) by (apply Z.pow_le_mono_r; lia). lia.
  - assert (2 ^ d <= 2 ^ (digits p - 1)) by (apply Z.pow_le_mono_r; lia). lia.
Qed.

(** ** Shifts *)

Lemma shl_align_spec m ex ex' :
  Z.pos (fst (shl_align m ex ex')) = Z.pos m * 2 ^ Z.max 0 (ex - ex') /\
  snd (shl_align m ex ex') = Z.min ex ex'.
Proof.
  unfold shl_align. destruct (ex' - ex) as [|d|d] eqn:E; cbn [fst snd].
  - rewrite Z.max_l by lia. lia.
  - rewrite Z.max_l by lia. lia.
  - rewrite Z.max_r by lia. split; [|lia]. replace (ex - ex') with (Z.pos d) by lia.
    clear E. induction d as [|d IH] using Pos.peano_ind; [cbn; lia|].
    rewrite Pos.iter_succ, Pos2Z.inj_xO, IH, Pos2Z.inj_succ, Z.pow_succ_r by lia. lia.
Qed.

Lemma shr_1_even q : 0 <= q ->
  shr_1 (Build_shr_record (2 * q) false false) = Build_shr_record q false false.
Proof. intros Hq. by destruct q as [|q|q]; [| |lia]. Qed.

Lemma iter_shr_exact n q : 0 <= q ->
  iter_pos shr_1 n (Build_shr_record (q * 2 ^ Z.pos n) false false) = Build_shr_record q false false.
Proof.
  revert q. induction n as [n IH|n IH|]; intros q Hq; cbn [iter_pos].
  - replace (q * 2 ^ Z.pos n~1) with (2 * (q * 2 ^ Z.pos n * 2 ^ Z.pos n)).
    2: { replace (Z.pos n~1) with (1 + (Z.pos n + Z.pos n)) by lia.
         rewrite !Z.pow_add_r by lia. lia. }
    rewrite shr_1_even by lia. rewrite IH by lia. by apply IH.
  - replace (q * 2 ^ Z.pos n~0) with (q * 2 ^ Z.pos n * 2 ^ Z.pos n).
    2: { replace (Z.pos n~0) with (Z.pos n + Z.pos n) by lia. rewrite !Z.pow_add_r by lia. lia. }
    rewrite IH by lia. by apply IH.
  - replace (q * 2 ^ 1) with (2 * q) by lia. by apply shr_1_even.
Qed.

Lemma shr_exact q e n : 0 <= q -> 0 <= n ->
  shr (Build_shr_record (q * 2 ^ n) false false) e n = (Build_shr_record q false false, e + n).
Proof.
  intros Hq Hn. destruct n as [|n|n]; [|cbn [shr]; by rewrite iter_shr_exact|lia].
  cbn [shr]. by rewrite Z.mul_1_r, Z.add_0_r.
Qed.

(** ** Normalising an exact number *)

(** The binary32 of a positive number of at most 24 bits. *)
Definition canon (q : positive) : f32 :=
  S754_finite false (Z.to_pos (Z.pos q * 2 ^ (24 - digits q))) (digits q - 24).

Lemma digits_shift q k m : 0 <= k -> Z.pos m = Z.pos q * 2 ^ k -> digits m = digits q + k.
Proof.
  intros Hk Hm. assert (1 <= digits q) by (unfold digits; lia). pose proof (digits_bounds q) as [Hl Hu].
  apply digits_unique; [lia|]. rewrite Hm.
  replace (digits q + k - 1) with (digits q - 1 + k) by lia. rewrite !Z.pow_add_r by lia.
  assert (0 < 2 ^ k) by (apply Z.pow_pos_nonneg; lia). nia.
Qed.

Lemma fexp_small d : -100 <= d -> fexp 24 128 d = d - 24.
Proof. intros Hd. unfold fexp, emin. lia. Qed.

Lemma round_exact q mz n e :
  digits q <= 24 -> 0 <= n -> Z.pos mz = Z.pos q * 2 ^ (24 - digits q) * 2 ^ n ->
  e = digits q - 24 - n -> binary_round_aux 24 128 false (Z.pos mz) e loc_Exact = canon q.
Proof.
  intros Hd Hn Hm ->. assert (Hd1 : 1 <= digits q) by (unfold digits; lia).
  set (r := Z.to_pos (Z.pos q * 2 ^ (24 - digits q))).
  assert (Hr : Z.pos r = Z.pos q * 2 ^ (24 - digits q)).
  { unfold r. rewrite Z2Pos.id; [done|]. assert (0 < 2 ^ (24 - digits q)) by (apply Z.pow_pos_nonneg; lia). lia. }
  assert (Hdr : digits r = 24) by (rewrite (digits_shift q (24 - digits q) r); lia).
  assert (Hdm : digits mz = 24 + n) by (rewrite (digits_shift r n mz); [lia|lia|by rewrite Hm, Hr]).
  unfold binary_round_aux, shr_fexp. change (Zdigits2 (Z.pos mz)) with (digits mz).
  rewrite Hdm, fexp_small by lia. rewrite Hm, <- Hr. cbn [shr_record_of_loc].
  replace (24 + n + (digits q - 24 - n) - 24 - (digits q - 24 - n)) with n by lia.
  rewrite shr_exact by lia. cbn [shr_m loc_of_shr_record round_nearest_even shr_record_of_loc].
  change (Zdigits2 (Z.pos r)) with (digits r). rewrite Hdr, fexp_small by lia.
  replace (24 + (digits q - 24 - n + n) - 24 - (digits q - 24 - n + n)) with 0 by lia.
  rewrite <- (Z.mul_1_r (Z.pos r)). change 1 with (2 ^ 0) at 1. rewrite shr_exact by lia.
  cbn [shr_m]. rewrite (proj2 (Z.leb_le _ _)) by lia. unfold canon. f_equal. lia.
Qed.

Lemma binary_round_exact q m k :
  digits q <= 24 -> 0 <= k <= 100 -> Z.pos m = Z.pos q * 2 ^ k ->
  binary_round 24 128 false m (- k) = canon q.
Proof.
  intros Hd Hk Hm. assert (Hd1 : 1 <= digits q) by (unfold digits; lia).
  unfold binary_round. change (Z.pos (digits2_pos m)) with (digits m).
  rewrite (digits_shift q k m) by lia || done. rewrite fexp_small by lia.
  replace (digits q + k + - k - 24) with (digits q - 24) by lia.
  destruct (shl_align_spec m (- k) (digits q - 24)) as [H1 H2].
  destruct (shl_align m (- k) (digits q - 24)) as [mz ez]. cbn [fst snd] in *.
  apply (round_exact q mz (digits q - 24 - ez)); [done|lia| |lia].
  rewrite H1, Hm, <- !Z.mul_assoc, <- !Z.pow_add_r by lia. do 2 f_equal. lia.
Qed.

Definition small (n : Z) : Prop := 0 <= n < 2 ^ 24.

Lemma small_digits q : Z.pos q < 2 ^ 24 <-> digits q <= 24.
Proof.
  pose proof (digits_bounds q) as [Hl Hu]. split; intros Hq.
  - destruct (Z.le_gt_cases (digits q) 24) as [|Hgt]; [done|].
    assert (2 ^ 24 <= 2 ^ (digits q - 1)) by (apply Z.pow_le_mono_r; lia). lia.
  - assert (2 ^ digits q <= 2 ^ 24) by (apply Z.pow_le_mono_r; lia). lia.
Qed.

Lemma f_of_pos q : Z.pos q < 2 ^ 24 -> f_of_int (Z.pos q) = canon q.
Proof. intros Hq. apply (binary_round_exact q q 0); [by apply small_digits|lia|lia]. Qed.

(** The mantissa of a canonical number, shifted to a lower exponent. *)
Lemma canon_aligned q e :
  digits q <= 24 -> e <= digits q - 24 ->
  Z.pos (fst (shl_align (Z.to_pos (Z.pos q * 2 ^ (24 - digits q))) (digits q - 24) e))
  = Z.pos q * 2 ^ (- e).
Proof.
  intros Hd He. destruct (shl_align_spec (Z.to_pos (Z.pos q * 2 ^ (24 - digits q))) (digits q - 24) e) as [-> _].
  assert (0 < 2 ^ (24 - digits q)) by (apply Z.pow_pos_nonneg; lia).
  rewrite Z2Pos.id, <- Z.mul_assoc, <- Z.pow_add_r by lia. do 2 f_equal. lia.
Qed.

Lemma f_of_int_add a b : small a -> small b -> small (a + b) ->
  (f_of_int a + f_of_int b)%f32 = f_of_int (a + b).
Proof.
  intros Ha Hb Hab. unfold small in *. destruct a as [|a|a]; [| |lia].
  - destruct b as [|b|b]; [done| |lia]. rewrite Z.add_0_l, f_of_pos by lia. done.
  - destruct b as [|b|b]; [rewrite Z.add_0_r, f_of_pos by lia; done| |lia].
    rewrite Pos2Z.add_pos_pos in *. rewrite !f_of_pos by lia.
    set (e := Z.min (digits a - 24) (digits b - 24)).
    assert (Hda : digits a <= 24) by (apply small_digits; lia).
    assert (Hdb : digits b <= 24) by (apply small_digits; lia).
    assert (1 <= digits a /\ 1 <= digits b) by (unfold digits; lia).
    set (c := canon (a + b)). unfold canon, fadd, SFadd. fold e. subst c. cbn [cond_Zopp].
    rewrite !canon_aligned by lia. rewrite <- Z.mul_add_distr_r.
    assert (Hp : 0 < 2 ^ (- e)) by (apply Z.pow_pos_nonneg; lia).
    destruct ((Z.pos a + Z.pos b) * 2 ^ (- e)) as [|m|m] eqn:Hm; [lia| |lia].
    cbn [binary_normalize]. rewrite <- (Z.opp_involutive e).
    apply (binary_round_exact (a + b) m (- e)); [apply small_digits; lia|lia|lia].
Qed.

Lemma f_of_int_key a b : small a -> small b ->
  (key_lt (fkey (f_of_int a)) (fkey (f_of_int b)) <-> a < b) /\
  is_nan (f_of_int a) = false.
Proof.
  intros Ha Hb. unfold small in *. destruct a as [|a|a]; [| |lia].
  - split; [|done]. destruct b as [|b|b]; [|rewrite f_of_pos by lia|lia]; cbn; lia.
  - rewrite (f_of_pos a) by lia. split; [|done].
    destruct b as [|b|b]; [cbn; lia|rewrite f_of_pos by lia|lia].
    assert (Hda : digits a <= 24) by (apply small_digits; lia).
    assert (Hdb : digits b <= 24) by (apply small_digits; lia).
    assert (1 <= digits a /\ 1 <= digits b) by (unfold digits; lia).
    unfold canon, fkey, key_lt.
    assert (Hpa : 0 < 2 ^ (24 - digits a)) by (apply Z.pow_pos_nonneg; lia).
    assert (Hpb : 0 < 2 ^ (24 - digits b)) by (apply Z.pow_pos_nonneg; lia).
    rewrite !Z2Pos.id by lia. destruct (Z.lt_trichotomy (digits a) (digits b)) as [Hlt|[Heq|Hgt]].
    + pose proof (digits_bounds a). pose proof (digits_bounds b).
      assert (2 ^ digits a <= 2 ^ (digits b - 1)) by (apply Z.pow_le_mono_r; lia). lia.
    + rewrite Heq in *. split; [|nia]. intros [?|[_ [?|[_ ?]]]]; [lia|lia|nia].
    + pose proof (digits_bounds a). pose proof (digits_bounds b).
      assert (2 ^ digits b <= 2 ^ (digits a - 1)) by (apply Z.pow_le_mono_r; lia). lia.
Qed.

Lemma f_of_int_ltb a b : small a -> small b -> (f_of_int a <? f_of_int b)%f32 = (a <? b).
Proof.
  intros Ha Hb. destruct (f_of_int_key a b Ha Hb) as [Hk Hna].
  destruct (f_of_int_key b a Hb Ha) as [_ Hnb].
  destruct (Z.ltb_spec a b) as [Hlt|Hge].
  - apply fltb_spec. split; [done|]. split; [done|]. by apply Hk.
  - apply fltb_false. right. right. rewrite Hk. lia.
Qed.

Lemma f_of_int_eqb a b : small a -> small b -> (f_of_int a =? f_of_int b)%f32 = (a =? b).
Proof.
  intros Ha Hb. destruct (f_of_int_key a b Ha Hb) as [Hab Hna].
  destruct (f_of_int_key b a Hb Ha) as [Hba Hnb].
  pose proof (SFcompare_spec _ _ Hna Hnb) as Hc. unfold feqb, SFeqb.
  destruct (SFcompare (f_of_int a) (f_of_int b)) as [[]|]; [| | |done].
  - destruct (fkey (f_of_int a)) as [[a1 a2] a3], (fkey (f_of_int b)) as [[b1 b2] b3].
    cbn in *. symmetry. apply Z.eqb_eq. lia.
  - apply Hab in Hc. symmetry. apply Z.eqb_neq. lia.
  - apply Hba in Hc. symmetry. apply Z.eqb_neq. lia.
Qed.

Lemma f2i32_f_of_int a : small a -> f2i32 (f_of_int a) = a.
Proof.
  intros Ha. unfold small in Ha. destruct a as [|a|a]; [done| |lia]. rewrite f_of_pos by lia.
  assert (Hd : digits a <= 24) by (apply small_digits; lia).
  unfold canon, f2i32. enough (ftrunc (S754_finite false (Z.to_pos (Z.pos a * 2 ^ (24 - digits a)))
    (digits a - 24)) = Z.pos a) as -> by lia.
  unfold ftrunc. assert (Hp : 0 < 2 ^ (24 - digits a)) by (apply Z.pow_pos_nonneg; lia).
  rewrite Z2Pos.id by lia. destruct (digits a - 24) as [|d|d] eqn:E.
  - replace (24 - digits a) with 0 by lia. lia.
  - lia.
  - replace (24 - digits a) with (Z.pos d) in * by lia. apply Z.div_mul. lia.
Qed.

(** ** Products and exact quotients *)

Lemma canon_mantissa q : digits q <= 24 ->
  Z.pos (Z.to_pos (Z.pos q * 2 ^ (24 - digits q))) = Z.pos q * 2 ^ (24 - digits q) /\
  digits (Z.to_pos (Z.pos q * 2 ^ (24 - digits q))) = 24.
Proof.
  intros Hd. assert (0 < 2 ^ (24 - digits q)) by (apply Z.pow_pos_nonneg; lia).
  assert (Hm : Z.pos (Z.to_pos (Z.pos q * 2 ^ (24 - digits q))) = Z.pos q * 2 ^ (24 - digits q))
    by (rewrite Z2Pos.id; lia).
  split; [done|]. rewrite (digits_shift q (24 - digits q)); [lia|lia|done].
Qed.

Lemma digits_mul a b : digits a + digits b - 1 <= digits (a * b) <= digits a + digits b.
Proof.
  pose proof (digits_bounds a) as Ha. pose proof (digits_bounds b) as Hb.
  pose proof (digits_bounds (a * b)) as Hab. rewrite Pos2Z.inj_mul in Hab.
  assert (1 <= digits a /\ 1 <= digits b /\ 1 <= digits (a * b)) by (unfold digits; lia).
  set (x := digits (a * b)) in *. assert (0 < 2 ^ (digits a - 1)) by (apply Z.pow_pos_nonneg; lia).
  assert (0 < 2 ^ (digits b - 1)) by (apply Z.pow_pos_nonneg; lia).
  split.
  - destruct (Z.le_gt_cases (digits a + digits b - 1) x) as [|Hgt]; [done|].
    assert (2 ^ x <= 2 ^ (digits a - 1 + (digits b - 1))) by (apply Z.pow_le_mono_r; lia).
    rewrite Z.pow_add_r in * by lia. nia.
  - destruct (Z.le_gt_cases x (digits a + digits b)) as [|Hgt]; [done|].
    assert (2 ^ (digits a + digits b) <= 2 ^ (x - 1)) by (apply Z.pow_le_mono_r; lia).
    rewrite Z.pow_add_r in * by lia. nia.
Qed.

Lemma f_of_int_mul a b : small a -> small b -> small (a * b) ->
  (f_of_int a * f_of_int b)%f32 = f_of_int (a * b).
Proof.
  intros Ha Hb Hab. unfold small in *. destruct a as [|a|a]; [| |lia].
  - destruct b as [|b|b]; [done| |lia]. by rewrite Z.mul_0_l, f_of_pos by lia.
  - destruct b as [|b|b]; [rewrite Z.mul_0_r, f_of_pos by lia; done| |lia].
    change (Z.pos a * Z.pos b) with (Z.pos (a * b)) in *. rewrite !f_of_pos by lia.
    pose proof (digits_mul a b). assert (Hd : digits (a * b) <= 24) by (apply small_digits; lia).
    assert (1 <= digits a /\ 1 <= digits b) by (unfold digits; lia).
    destruct (canon_mantissa a) as [Hma _]; [apply small_digits; lia|].
    destruct (canon_mantissa b) as [Hmb _]; [apply small_digits; lia|].
    set (c := canon (a * b)). unfold canon, fmul, SFmul. subst c. cbn [xorb].
    apply (round_exact (a * b) _ (digits (a * b) + 24 - digits a - digits b)); [done|lia| |lia].
    rewrite Pos2Z.inj_mul, Hma, Hmb, Pos2Z.inj_mul.
    transitivity (Z.pos a * Z.pos b * (2 ^ (24 - digits a) * 2 ^ (24 - digits b))); [ring|].
    rewrite <- (Z.mul_assoc (Z.pos a * Z.pos b) (2 ^ _) (2 ^ _)), <- !Z.pow_add_r by lia.
    do 2 f_equal. lia.
Qed.

Lemma f_of_int_div a b : small (a * b) -> 0 < a -> 0 < b ->
  (f_of_int (a * b) / f_of_int b)%f32 = f_of_int a.
Proof.
  intros Hab Ha Hb. unfold small in *. destruct a as [|a|a]; [lia| |lia]. destruct b as [|b|b]; [lia| |lia].
  change (Z.pos a * Z.pos b) with (Z.pos (a * b)) in *.
  rewrite !f_of_pos by lia. pose proof (digits_mul a b).
  assert (Hd : digits (a * b) <= 24) by (apply small_digits; lia).
  assert (1 <= digits a /\ 1 <= digits b) by (unfold digits; lia).
  destruct (canon_mantissa (a * b)) as [Hm1 Hd1]; [done|].
  destruct (canon_mantissa b) as [Hm2 Hd2]; [lia|].
  set (c := canon a). unfold canon, fdiv, SFdiv. subst c.
  set (m1 := Z.to_pos (Z.pos (a * b) * 2 ^ (24 - digits (a * b)))) in *.
  set (m2 := Z.to_pos (Z.pos b * 2 ^ (24 - digits b))) in *.
  unfold SFdiv_core_binary. cbn [xorb].
  change (Zdigits2 (Z.pos m1)) with (digits m1). change (Zdigits2 (Z.pos m2)) with (digits m2).
  rewrite Hd1, Hd2, fexp_small by lia.
  set (e := digits (a * b) - 24 - (digits b - 24)).
  replace (24 + (digits (a * b) - 24) - (24 + (digits b - 24)) - 24) with (e - 24) by lia.
  rewrite Z.min_l by lia. replace (e - (e - 24)) with 24 by lia. rewrite Z.shiftl_mul_pow2 by lia.
  set (q := Z.pos a * 2 ^ (24 + digits b - digits (a * b))).
  assert (Hq : Z.pos m1 * 2 ^ 24 = Z.pos m2 * q + 0).
  { unfold q. rewrite Hm1, Hm2, Pos2Z.inj_mul.
    transitivity (Z.pos a * Z.pos b * (2 ^ (24 - digits (a * b)) * 2 ^ 24)); [ring|].
    transitivity (Z.pos a * Z.pos b * (2 ^ (24 - digits b) * 2 ^ (24 + digits b - digits (a * b)))); [|ring].
    rewrite <- !Z.pow_add_r by lia. do 2 f_equal. lia. }
  assert (Hqp : 0 < q) by (unfold q; assert (0 < 2 ^ (24 + digits b - digits (a * b)))
    by (apply Z.pow_pos_nonneg; lia); lia).
  pose proof (Z.div_mod_unique (Z.pos m2) q (Z.pos m1 * 2 ^ 24 / Z.pos m2) 0
    ((Z.pos m1 * 2 ^ 24) mod Z.pos m2)) as Hu.
  destruct Hu as [Hu1 Hu2]; [lia|left; apply Z.mod_pos_bound; lia| |].
  { rewrite <- Hq. apply Z.div_mod. lia. }
  unfold Z.div, Z.modulo in Hu1, Hu2. destruct (Z.div_eucl _ _) as [q' r']. subst q' r'.
  assert (Hqv : q = Z.pos a * 2 ^ (24 - digits a) * 2 ^ (digits a + digits b - digits (a * b))).
  { unfold q. rewrite <- Z.mul_assoc, <- Z.pow_add_r by lia. do 2 f_equal. lia. }
  clearbody q. destruct q as [|mz|]; [lia| |lia].
  replace (new_location (Z.pos m2) 0) with loc_Exact
    by (unfold new_location, new_location_even, new_location_odd; by destruct (Z.even _)).
  apply (round_exact a mz (digits a + digits b - digits (a * b))); [lia|lia|done|lia].
Qed.
