(* ===== verification/FloatRound.v ===== *)
(** * FloatRound: what the operations of binary32 compute

    The real value [fr] of a number, and the correctness of the arithmetic: a
    sum, difference, product, quotient or square root is the number nearest to
    the exact result, off by at most one part in [2^24].  Bounds on computed
    values follow: they are monotone, and comparisons decide the order of the
    values. *)
From Stdlib Require Import Reals Lra.
From S2P Require Import Prelude Float32 FloatExact.
#[local] Open Scope R_scope.

(** ** Powers of two *)

Definition b2 (e : Z) : R := powerRZ 2 e.

Lemma b2_pos e : 0 < b2 e.
Proof. apply powerRZ_lt. lra. Qed.

Lemma b2_add a b : b2 (a + b) = b2 a * b2 b.
Proof. apply powerRZ_add. discrR. Qed.

Lemma b2_m1 : b2 (-1) = / 2.
Proof. change (b2 (-1)) with (/ (2 * 1)). by rewrite Rmult_1_r. Qed.

Lemma b2_1 e : b2 (e + 1) = 2 * b2 e.
Proof. rewrite b2_add. change (b2 1) with (2 * 1). lra. Qed.

Lemma b2_IZR n : (0 <= n)%Z -> IZR (2 ^ n) = b2 n.
Proof.
  revert n. apply natlike_ind; [done|]. intros n Hn IH.
  rewrite Z.pow_succ_r, mult_IZR, IH, <- b2_1 by done. f_equal.
Qed.

Lemma b2_le a b : (a <= b)%Z -> b2 a <= b2 b.
Proof.
  intros H. replace b with (a + (b - a))%Z by lia. rewrite b2_add, <- (b2_IZR (b - a)) by lia.
  pose proof (b2_pos a). assert (1 <= IZR (2 ^ (b - a))).
  { apply IZR_le. assert (0 < 2 ^ (b - a))%Z by (apply Z.pow_pos_nonneg; lia). lia. }
  nra.
Qed.

Lemma b2_lt_inv a b : b2 a < b2 b -> (a < b)%Z.
Proof. intros H. destruct (Z.lt_ge_cases a b) as [|Hge]; [done|]. apply b2_le in Hge. lra. Qed.

(** ** Values *)

Definition sgn (s : bool) : R := if s then -1 else 1.

(** The value of a finite number; 0 otherwise. *)
Definition fr (x : f32) : R :=
  match x with S754_finite s m e => sgn s * IZR (Z.pos m) * b2 e | _ => 0 end.

(** Finite and normalised, as every computed number is. *)
Definition fok (x : f32) : bool :=
  match x with
  | S754_zero _ => true | S754_finite _ m e => bounded 24 128 m e | _ => false
  end.

Definition nearest (v : R) (z : f32) : Prop :=
  match z with
  | S754_nan => False
  | S754_infinity s => b2 127 <= sgn s * v
  | _ => fok z = true /\ (forall f, fok f = true -> Rabs (fr z - v) <= Rabs (fr f - v)) /\
         Rabs (fr z - v) <= Rabs v * b2 (-24) + b2 (-150)
  end.

(** ** The bits below the mantissa *)

Definition inb (m : shr_record) (x : R) : Prop :=
  let q := IZR (shr_m m) in
  match shr_r m, shr_s m with
  | false, false => x = q
  | false, true => q < x < q + / 2
  | true, false => x = q + / 2
  | true, true => q + / 2 < x < q + 1
  end.

Lemma inb_floor m x : inb m x -> IZR (shr_m m) <= x < IZR (shr_m m) + 1.
Proof. unfold inb. destruct (shr_r m), (shr_s m); lra. Qed.

Lemma shr_1_inb m x :
  (0 <= shr_m m)%Z -> inb m x -> (0 <= shr_m (shr_1 m))%Z /\ inb (shr_1 m) (x / 2).
Proof.
  destruct m as [m r s]. intros Hm H. unfold inb in *. cbn [shr_m shr_r shr_s] in *.
  destruct m as [|[p|p|]|]; [| | | |lia]; cbn [shr_1 shr_m shr_r shr_s orb]; (split; [lia|]).
  - destruct r, s; cbn [orb]; lra.
  - change (Z.pos p~1) with (2 * Z.pos p + 1)%Z in H. rewrite plus_IZR, mult_IZR in H.
    destruct r, s; cbn [orb]; lra.
  - change (Z.pos p~0) with (2 * Z.pos p)%Z in H. rewrite mult_IZR in H.
    destruct r, s; cbn [orb]; lra.
  - destruct r, s; cbn [orb]; lra.
Qed.

Lemma iter_shr_inb n m x :
  (0 <= shr_m m)%Z -> inb m x ->
  (0 <= shr_m (iter_pos shr_1 n m))%Z /\ inb (iter_pos shr_1 n m) (x * b2 (- Z.pos n)).
Proof.
  revert m x. induction n as [n IH|n IH|]; intros m x Hm H; cbn [iter_pos].
  - destruct (shr_1_inb m x Hm H) as [H1 H2]. destruct (IH _ _ H1 H2) as [H3 H4].
    destruct (IH _ _ H3 H4) as [H5 H6]. split; [done|].
    replace (x * b2 (- Z.pos n~1)) with (x / 2 * b2 (- Z.pos n) * b2 (- Z.pos n)); [done|].
    replace (- Z.pos n~1)%Z with (- Z.pos n + - Z.pos n + -1)%Z by lia. rewrite !b2_add.
    rewrite b2_m1. lra.
  - destruct (IH _ _ Hm H) as [H3 H4]. destruct (IH _ _ H3 H4) as [H5 H6]. split; [done|].
    replace (x * b2 (- Z.pos n~0)) with (x * b2 (- Z.pos n) * b2 (- Z.pos n)); [done|].
    replace (- Z.pos n~0)%Z with (- Z.pos n + - Z.pos n)%Z by lia. rewrite !b2_add. lra.
  - destruct (shr_1_inb m x Hm H) as [H1 H2]. split; [done|].
    change (- Z.pos 1)%Z with (-1)%Z. by rewrite b2_m1.
Qed.

Lemma shr_inb m e n x :
  (0 <= shr_m m)%Z -> inb m x -> (0 <= n)%Z ->
  snd (shr m e n) = (e + n)%Z /\ (0 <= shr_m (fst (shr m e n)))%Z /\
  inb (fst (shr m e n)) (x * b2 (- n)).
Proof.
  intros Hm H Hn. destruct n as [|n|n]; [| |lia]; cbn [shr fst snd].
  - split; [lia|]. split; [done|]. change (b2 (- 0)) with 1. by rewrite Rmult_1_r.
  - split; [done|]. by apply iter_shr_inb.
Qed.

(** Rounding to the nearest integer. *)
Lemma round_half m x : inb m x ->
  let k := IZR (round_nearest_even (shr_m m) (loc_of_shr_record m)) in
  (k = IZR (shr_m m) \/ k = IZR (shr_m m) + 1) /\ Rabs (k - x) <= / 2 /\
  Rabs (k - x) <= x - IZR (shr_m m) /\ Rabs (k - x) <= IZR (shr_m m) + 1 - x.
Proof.
  destruct m as [m r s]. unfold inb. cbn [shr_m shr_r shr_s]. intros H.
  cbv zeta. destruct r, s; cbn [loc_of_shr_record round_nearest_even shr_m]; [| destruct (Z.even m)| |];
    rewrite ?plus_IZR; (split; [(left; lra) || (right; lra)|]);
    unfold Rabs; destruct (Rcase_abs _); lra.
Qed.

(** ** The format *)

Lemma digits_IZR p : b2 (digits p - 1) <= IZR (Z.pos p) < b2 (digits p).
Proof.
  pose proof (digits_bounds p) as [Hl Hu]. assert (1 <= digits p)%Z by (unfold digits; lia).
  rewrite <- !b2_IZR by lia. split; [by apply IZR_le|by apply IZR_lt].
Qed.

Lemma fexp_eq d : fexp 24 128 d = Z.max (d - 24) (-149).
Proof. done. Qed.

Lemma fok_spec s m e :
  fok (S754_finite s m e) = true <->
  (Z.max (digits m + e - 24) (-149) = e /\ e <= 104)%Z.
Proof.
  unfold fok, bounded, canonical_mantissa. change (Z.pos (digits2_pos m)) with (digits m).
  rewrite fexp_eq, andb_true_iff, Z.eqb_eq, Z.leb_le. lia.
Qed.

(** The size of the mantissa of a number in the format. *)
Lemma fok_digits s m e :
  fok (S754_finite s m e) = true ->
  (digits m <= 24 /\ -149 <= e <= 104 /\ (digits m = 24 \/ e = -149))%Z.
Proof. rewrite fok_spec. lia. Qed.

Lemma sgn_abs s x : 0 <= x -> Rabs (sgn s * x) = x.
Proof. intros H. unfold sgn, Rabs. destruct s, (Rcase_abs _); lra. Qed.

Lemma sgn_inv s : sgn s * sgn s = 1.
Proof. unfold sgn. destruct s; lra. Qed.

(** A number is a multiple of [2^E], or smaller than [2^(E+23)]. *)
Lemma fok_multiple f E :
  fok f = true -> (-149 <= E)%Z ->
  (exists k, fr f = IZR k * b2 E) \/ (E <> -149)%Z /\ Rabs (fr f) < b2 (E + 23).
Proof.
  intros Hf HE. destruct f as [s|s| |s m e]; try done.
  { left. exists 0%Z. cbn. lra. }
  destruct (fok_digits _ _ _ Hf) as (Hd & He & Hc).
  destruct (Z.le_gt_cases E e) as [Hle|Hgt].
  - left. exists ((if s then -1 else 1) * Z.pos m * 2 ^ (e - E))%Z. cbn [fr].
    rewrite !mult_IZR, b2_IZR by lia. replace e with ((e - E) + E)%Z at 1 by lia.
    rewrite b2_add. unfold sgn. destruct s; lra.
  - right. split; [lia|]. cbn [fr]. pose proof (digits_IZR m) as [_ Hu]. pose proof (b2_pos e).
    assert (0 < IZR (Z.pos m)) by (by apply IZR_lt).
    rewrite Rmult_assoc, sgn_abs by nra.
    apply Rlt_le_trans with (b2 (digits m + e)); [rewrite b2_add; nra|]. apply b2_le. lia.
Qed.

(** No multiple of the unit is nearer than the integer rounded to. *)
Lemma integer_nearer (k n q : Z) x :
  IZR q <= x < IZR q + 1 ->
  Rabs (IZR n - x) <= x - IZR q -> Rabs (IZR n - x) <= IZR q + 1 - x ->
  Rabs (IZR n - x) <= Rabs (IZR k - x).
Proof.
  intros Hx H1 H2. destruct (Z.le_gt_cases k q) as [Hk|Hk].
  - apply IZR_le in Hk. rewrite (Rabs_left1 (IZR k - x)) by lra. lra.
  - assert (q + 1 <= k)%Z as Hk' by lia. apply IZR_le in Hk'. rewrite plus_IZR in Hk'.
    rewrite (Rabs_right (IZR k - x)) by lra. lra.
Qed.

(** ** Rounding *)

Lemma shr_neg m e n : (n <= 0)%Z -> shr m e n = (m, e).
Proof. by destruct n. Qed.

(** The second normalisation, after a carry. *)
Lemma renorm k E :
  (0 < k <= 2 ^ 24)%Z -> (-149 <= E)%Z -> (E = -149 \/ 2 ^ 23 <= k)%Z ->
  exists p e, shr_fexp 24 128 k E loc_Exact = (Build_shr_record (Z.pos p) false false, e) /\
    IZR (Z.pos p) * b2 e = IZR k * b2 E /\ (Z.max (digits p + e - 24) (-149) = e)%Z.
Proof.
  intros Hk HE Hn. destruct k as [|k|k]; [lia| |lia]. unfold shr_fexp.
  change (Zdigits2 (Z.pos k)) with (digits k). rewrite fexp_eq. cbn [shr_record_of_loc].
  destruct (Z.eq_dec (Z.pos k) (2 ^ 24)%Z) as [Hc|Hc].
  - exists (2 ^ 23)%positive, (E + 1)%Z.
    assert (digits k = 25)%Z as -> by (apply digits_unique; lia).
    replace (Z.max (25 + E - 24) (-149) - E)%Z with 1%Z by lia.
    replace (Z.pos k) with (2 ^ 23 * 2 ^ 1)%Z by lia. rewrite shr_exact by lia.
    split; [done|]. split.
    + rewrite mult_IZR, (b2_1 E). change (2 ^ 1)%Z with 2%Z. change (Z.pos (2 ^ 23)) with (2 ^ 23)%Z. lra.
    + change (digits (2 ^ 23)) with 24%Z. lia.
  - exists k, E. assert (Hd : (digits k <= 24)%Z) by (apply small_digits; lia).
    rewrite shr_neg by lia. split; [done|]. split; [done|].
    destruct Hn as [->|Hn]; [unfold digits in *; lia|].
    assert (digits k = 24)%Z as -> by (apply digits_unique; lia). lia.
Qed.

Lemma inb_loc m l x : inb (shr_record_of_loc m l) x -> IZR m <= x < IZR m + 1.
Proof. intros H. apply inb_floor in H. by destruct l as [|[]]. Qed.

Lemma Zdigits2_nonneg m : (0 <= Zdigits2 m)%Z.
Proof. destruct m; cbn; lia. Qed.

Lemma Zdigits2_bounds m : (0 <= m)%Z ->
  (m < 2 ^ Zdigits2 m)%Z /\ (m <> 0%Z -> (2 ^ (Zdigits2 m - 1) <= m)%Z).
Proof.
  intros Hm. destruct m as [|m|m]; [by split|pose proof (digits_bounds m); split; [|intros _]; apply H|lia].
Qed.

(** The unit in the last place, for a mantissa [x] at exponent [e]. *)
Lemma unit_bounds m l e x :
  (0 <= m)%Z -> inb (shr_record_of_loc m l) x ->
  let E := Z.max (Zdigits2 m + e - 24)%Z (-149)%Z in
  (e <= E)%Z -> x * b2 (- (E - e))%Z < b2 24 /\ (E = (-149)%Z \/ b2 23 <= x * b2 (- (E - e))%Z).
Proof.
  intros Hm H%inb_loc E He. destruct (Zdigits2_bounds m Hm) as [Hu Hl].
  pose proof (Zdigits2_nonneg m) as Hd.
  assert (Hx : x < b2 (Zdigits2 m)).
  { rewrite <- b2_IZR by lia. apply Rlt_le_trans with (IZR m + 1); [lra|].
    rewrite <- plus_IZR. apply IZR_le. lia. }
  pose proof (b2_pos (- (E - e))%Z). split.
  - apply Rlt_le_trans with (b2 (Zdigits2 m) * b2 (- (E - e))%Z); [nra|].
    rewrite <- b2_add. apply b2_le. lia.
  - destruct (Z.eq_dec E (-149)%Z) as [|HE]; [by left|]. right.
    assert (m <> 0%Z) by (intros ->; unfold Zdigits2 in *; lia).
    assert (1 <= Zdigits2 m)%Z by (destruct m; cbn; lia).
    assert (b2 (Zdigits2 m - 1) <= x).
    { rewrite <- b2_IZR by lia. apply Rle_trans with (IZR m); [apply IZR_le; auto|lra]. }
    apply Rle_trans with (b2 (Zdigits2 m - 1) * b2 (- (E - e))%Z); [|nra].
    rewrite <- b2_add. apply b2_le. lia.
Qed.

(** The value [k] at exponent [E] that an [x] at exponent [E] is rounded to. *)
Lemma rounded_nearest s E X q k z :
  (-149 <= E)%Z -> 0 <= X -> E = (-149)%Z \/ b2 23 <= X ->
  (IZR q <= X < IZR q + 1) -> Rabs (IZR k - X) <= / 2 ->
  Rabs (IZR k - X) <= X - IZR q -> Rabs (IZR k - X) <= IZR q + 1 - X ->
  fok z = true -> fr z = sgn s * IZR k * b2 E ->
  nearest (sgn s * X * b2 E) z.
Proof.
  intros HE HX Hn Hq Hh H1 H2 Hz Hv.
  assert (Hdiff : forall y, Rabs (sgn s * y * b2 E - sgn s * X * b2 E) = Rabs (y - X) * b2 E).
  { intros y. replace (sgn s * y * b2 E - sgn s * X * b2 E) with (sgn s * (y - X) * b2 E) by lra.
    rewrite !Rabs_mult, (Rabs_right (b2 E)) by (pose proof (b2_pos E); lra).
    replace (Rabs (sgn s)) with 1; [lra|]. unfold sgn, Rabs. destruct s, (Rcase_abs _); lra. }
  assert (Hgoal : fok z = true /\
     (forall f, fok f = true -> Rabs (fr z - sgn s * X * b2 E) <= Rabs (fr f - sgn s * X * b2 E)) /\
     Rabs (fr z - sgn s * X * b2 E) <= Rabs (sgn s * X * b2 E) * b2 (-24) + b2 (-150)).
  { split; [done|]. rewrite Hv, Hdiff. pose proof (b2_pos E) as HbE. split.
    - intros f Hf. destruct (fok_multiple f E Hf HE) as [(j & Hj)|(HE' & Hsmall)].
      + replace (fr f) with (sgn s * (sgn s * IZR j) * b2 E)
          by (rewrite Hj, <- Rmult_assoc, sgn_inv; lra).
        rewrite Hdiff. apply Rmult_le_compat_r; [lra|].
        replace (sgn s * IZR j) with (IZR (if s then - j else j)%Z).
        2: { unfold sgn. destruct s; [rewrite opp_IZR|]; lra. }
        by apply (integer_nearer _ _ q).
      + destruct Hn as [|Hn]; [done|].
        assert (Hq23 : (2 ^ 23 <= q)%Z).
        { assert (2 ^ 23 < q + 1)%Z; [|lia]. apply lt_IZR. rewrite plus_IZR, (b2_IZR 23) by lia. lra. }
        apply IZR_le in Hq23. rewrite (b2_IZR 23) in Hq23 by lia.
        rewrite b2_add in Hsmall.
        assert (Hv0 : Rabs (sgn s * X * b2 E) = X * b2 E)
          by (rewrite Rmult_assoc; apply sgn_abs; nra).
        assert (Hf1 : Rabs (sgn s * X * b2 E) - Rabs (fr f) <= Rabs (fr f - sgn s * X * b2 E)).
        { rewrite (Rabs_minus_sym (fr f)). apply Rabs_triang_inv. }
        rewrite Hv0 in Hf1. nra.
    - rewrite Rmult_assoc, sgn_abs by nra. destruct Hn as [->|Hn].
      + change (-150)%Z with (-149 + -1)%Z. rewrite (b2_add (-149) (-1)), b2_m1.
        pose proof (b2_pos (-24)). pose proof (b2_pos (-149)).
        assert (0 <= X * b2 (-149) * b2 (-24)) by (apply Rmult_le_pos; nra). nra.
      + pose proof (b2_pos (-150)). assert (H24 : / 2 <= X * b2 (-24)); [|nra].
        apply Rle_trans with (b2 23 * b2 (-24)); [|pose proof (b2_pos (-24)); nra].
        rewrite <- b2_add. change (23 + -24)%Z with (-1)%Z. rewrite b2_m1. lra. }
  by destruct z.
Qed.

Lemma round_aux_nearest s m e l x :
  (0 <= m)%Z -> inb (shr_record_of_loc m l) x -> (e <= Z.max (Zdigits2 m + e - 24) (-149))%Z ->
  nearest (sgn s * x * b2 e) (binary_round_aux 24 128 s m e l).
Proof.
  intros Hm H He. destruct (unit_bounds m l e x Hm H He) as [Hu Hn].
  pose proof (inb_loc _ _ _ H) as [Hx _]. assert (0 <= IZR m) by (by apply IZR_le).
  unfold binary_round_aux, shr_fexp at 1. rewrite fexp_eq.
  set (E := Z.max (Zdigits2 m + e - 24)%Z (-149)%Z) in *.
  destruct (shr_inb (shr_record_of_loc m l) e (E - e) x) as (He1 & Hq0 & Hin);
    [by destruct l as [|[]]|done|lia|].
  destruct (shr (shr_record_of_loc m l) e (E - e)) as [m' e']. cbn [fst snd] in *.
  replace (e + (E - e))%Z with E in He1 by lia. subst e'.
  set (X := x * b2 (- (E - e))%Z) in *. pose proof (b2_pos (- (E - e))%Z) as Hb.
  replace (sgn s * x * b2 e) with (sgn s * X * b2 E).
  2: { unfold X. replace e with (- (E - e) + E)%Z at 2 by lia. rewrite (b2_add _ E). lra. }
  pose proof (inb_floor _ _ Hin) as Hq. destruct (round_half _ _ Hin) as (Hk & H12 & H1 & H2).
  set (k := round_nearest_even (shr_m m') (loc_of_shr_record m')) in *.
  assert (HX : 0 <= X) by (unfold X; nra). assert (HE : (-149 <= E)%Z) by lia.
  assert (Hkq : k = shr_m m' \/ k = (shr_m m' + 1)%Z).
  { destruct Hk as [Hk|Hk]; [left; by apply eq_IZR|right]. apply eq_IZR. by rewrite plus_IZR. }
  assert (Hq24 : (shr_m m' < 2 ^ 24)%Z) by (apply lt_IZR; rewrite b2_IZR by lia; lra).
  destruct (Z.eq_dec k 0%Z) as [Hk0|Hk0].
  - assert (shr_fexp 24 128 k E loc_Exact = (Build_shr_record 0 false false, E)) as ->.
    { rewrite Hk0. unfold shr_fexp. cbn [Zdigits2]. rewrite fexp_eq, shr_neg by lia. done. }
    cbn [shr_m]. apply (rounded_nearest s E X (shr_m m') k); try done.
    rewrite Hk0. cbn [fr]. lra.
  - assert (HnZ : (E = -149 \/ 2 ^ 23 <= k)%Z).
    { destruct Hn as [|Hn]; [by left|right].
      assert (2 ^ 23 < shr_m m' + 1)%Z; [|lia].
      apply lt_IZR. rewrite plus_IZR, (b2_IZR 23) by lia. lra. }
    destruct (renorm k E) as (p & e2 & -> & Hv & Hc); [lia|done|done|]. cbn [shr_m].
    destruct (Z.leb_spec e2 (128 - 24)) as [Hle|Hgt].
    + apply (rounded_nearest s E X (shr_m m') k); try done.
      * apply fok_spec. lia.
      * cbn [fr]. rewrite Rmult_assoc, Hv. lra.
    + cbn [nearest]. rewrite <- Rmult_assoc, <- Rmult_assoc, sgn_inv, Rmult_1_l.
      assert (Hd : digits p = 24%Z) by lia.
      destruct (digits_IZR p) as [Hp _]. rewrite Hd in Hp.
      assert (b2 128 <= IZR k * b2 E).
      { rewrite <- Hv. apply Rle_trans with (b2 23 * b2 e2).
        - rewrite <- b2_add. apply b2_le. lia.
        - pose proof (b2_pos e2). change (24 - 1)%Z with 23%Z in Hp. nra. }
      assert (1 <= IZR k) by (apply IZR_le; lia).
      assert (HkX : IZR k / 2 <= X).
      { revert H12. unfold Rabs. destruct (Rcase_abs _); lra. }
      change 128%Z with (127 + 1)%Z in *. rewrite (b2_1 127) in *. pose proof (b2_pos E). nra.
Qed.

(** ** The operations *)

Lemma nearest_zero s : nearest 0 (S754_zero s).
Proof.
  split; [done|]. cbn [fr]. rewrite Rminus_0_r, Rabs_R0. split; [intros; apply Rabs_pos|].
  pose proof (b2_pos (-150)). lra.
Qed.

(** A number of the format is its own nearest. *)
Lemma nearest_refl x : fok x = true -> nearest (fr x) x.
Proof.
  intros Hx. assert (Hg : fok x = true /\
    (forall f, fok f = true -> Rabs (fr x - fr x) <= Rabs (fr f - fr x)) /\
    Rabs (fr x - fr x) <= Rabs (fr x) * b2 (-24) + b2 (-150)).
  { rewrite Rminus_diag, Rabs_R0. split; [done|]. split; [intros; apply Rabs_pos|].
    pose proof (b2_pos (-150)). pose proof (b2_pos (-24)). pose proof (Rabs_pos (fr x)). nra. }
  by destruct x.
Qed.

Lemma binary_round_nearest s m e :
  nearest (sgn s * IZR (Z.pos m) * b2 e) (binary_round 24 128 s m e).
Proof.
  unfold binary_round. change (Z.pos (digits2_pos m)) with (digits m). rewrite fexp_eq.
  set (E := Z.max (digits m + e - 24)%Z (-149)%Z).
  destruct (shl_align_spec m e E) as [H1 H2]. destruct (shl_align m e E) as [mz ez]. cbn [fst snd] in *.
  assert (Hd : digits mz = (digits m + Z.max 0 (e - E))%Z) by (apply digits_shift; [lia|done]).
  replace (sgn s * IZR (Z.pos m) * b2 e) with (sgn s * IZR (Z.pos mz) * b2 ez).
  - apply round_aux_nearest; [lia|done|]. change (Zdigits2 (Z.pos mz)) with (digits mz). lia.
  - rewrite H1, mult_IZR, b2_IZR by lia.
    replace (b2 e) with (b2 (Z.max 0 (e - E)) * b2 ez); [lra|]. rewrite <- b2_add. f_equal. lia.
Qed.

Lemma normalize_nearest m e s : nearest (IZR m * b2 e) (binary_normalize 24 128 m e s).
Proof.
  destruct m as [|m|m]; cbn [binary_normalize].
  - rewrite Rmult_0_l. apply nearest_zero.
  - pose proof (binary_round_nearest false m e) as H. unfold sgn in H. by rewrite Rmult_1_l in H.
  - pose proof (binary_round_nearest true m e) as H. unfold sgn in H.
    replace (IZR (Z.neg m)) with (-1 * IZR (Z.pos m)); [done|].
    change (Z.neg m) with (- Z.pos m)%Z. rewrite opp_IZR. lra.
Qed.

Lemma f_of_int_nearest n : nearest (IZR n) (f_of_int n).
Proof. pose proof (normalize_nearest n 0 false) as H. by rewrite Rmult_1_r in H. Qed.

Lemma cond_Zopp_aligned s m e ez :
  (ez <= e)%Z ->
  IZR (cond_Zopp s (Z.pos (shl_align m e ez).1)) * b2 ez = sgn s * IZR (Z.pos m) * b2 e.
Proof.
  intros He. destruct (shl_align_spec m e ez) as [H1 _].
  assert (Hv : IZR (Z.pos (shl_align m e ez).1) * b2 ez = IZR (Z.pos m) * b2 e).
  { rewrite H1, mult_IZR, b2_IZR by lia. rewrite Rmult_assoc, <- b2_add. do 2 f_equal. lia. }
  unfold cond_Zopp, sgn. destruct s; [rewrite opp_IZR|]; lra.
Qed.

Lemma fadd_nearest x y : fok x = true -> fok y = true -> nearest (fr x + fr y) (x + y)%f32.
Proof.
  intros Hx Hy. destruct x as [sx|sx| |sx mx ex]; try done; destruct y as [sy|sy| |sy my ey]; try done.
  - cbn [fr]. rewrite Rplus_0_r. destruct sx, sy; apply nearest_zero.
  - cbn [fr]. rewrite Rplus_0_l. by apply (nearest_refl (S754_finite sy my ey)).
  - change (fr (S754_zero sy)) with 0. rewrite Rplus_0_r. by apply nearest_refl.
  - cbn [fr]. unfold fadd, SFadd.
    rewrite <- (cond_Zopp_aligned sx mx ex (Z.min ex ey)), <- (cond_Zopp_aligned sy my ey (Z.min ex ey)) by lia.
    rewrite <- Rmult_plus_distr_r, <- plus_IZR. apply normalize_nearest.
Qed.

Lemma fopp_ok x : fok (- x)%f32 = fok x.
Proof. by destruct x. Qed.

Lemma fr_opp x : fr (- x)%f32 = - fr x.
Proof. destruct x as [| | |[] m e]; cbn; unfold sgn; lra. Qed.

Lemma fabs_ok x : fok (fabs x) = fok x.
Proof. by destruct x. Qed.

Lemma fr_abs x : fr (fabs x) = Rabs (fr x).
Proof.
  destruct x as [s|s| |s m e]; cbn [fabs SFabs fr]; try by rewrite Rabs_R0.
  pose proof (b2_pos e). assert (0 < IZR (Z.pos m)) by (by apply IZR_lt).
  rewrite !Rmult_assoc, sgn_abs by nra. unfold sgn. lra.
Qed.

Lemma fsub_add x y : (x - y)%f32 = (x + - y)%f32.
Proof.
  destruct x as [[]|[]| |[] mx ex], y as [[]|[]| |[] my ey]; try done;
    unfold fsub, fadd, SFsub, SFadd, fopp, SFopp; cbn [negb cond_Zopp]; by rewrite ?Z.opp_involutive.
Qed.

Lemma fsub_nearest x y : fok x = true -> fok y = true -> nearest (fr x - fr y) (x - y)%f32.
Proof.
  intros Hx Hy. rewrite fsub_add. unfold Rminus. rewrite <- fr_opp.
  apply fadd_nearest; [done|]. by rewrite fopp_ok.
Qed.

Lemma sgn_xorb a b : sgn (xorb a b) = sgn a * sgn b.
Proof. destruct a, b; unfold sgn; cbn; lra. Qed.

Lemma fmul_nearest x y : fok x = true -> fok y = true -> nearest (fr x * fr y) (x * y)%f32.
Proof.
  intros Hx Hy. destruct x as [sx|sx| |sx mx ex]; try done; destruct y as [sy|sy| |sy my ey]; try done;
    cbn [fr fmul SFmul]; rewrite ?Rmult_0_l, ?Rmult_0_r; try apply nearest_zero.
  destruct (fok_digits _ _ _ Hx) as (Hdx & Hex & Hcx). destruct (fok_digits _ _ _ Hy) as (Hdy & Hey & Hcy).
  pose proof (digits_mul mx my) as Hd. assert (1 <= digits mx /\ 1 <= digits my)%Z by (unfold digits; lia).
  replace (sgn sx * IZR (Z.pos mx) * b2 ex * (sgn sy * IZR (Z.pos my) * b2 ey))
    with (sgn (xorb sx sy) * IZR (Z.pos (mx * my)) * b2 (ex + ey)).
  - apply round_aux_nearest; [lia|done|]. change (Zdigits2 (Z.pos (mx * my))) with (digits (mx * my)). lia.
  - rewrite sgn_xorb, Pos2Z.inj_mul, mult_IZR, b2_add. lra.
Qed.

(** Where the quotient lies between two mantissas. *)
Lemma new_location_inb m' d q r :
  (0 < d)%Z -> (0 <= r < d)%Z -> (m' = d * q + r)%Z ->
  inb (shr_record_of_loc q (new_location d r)) (IZR m' / IZR d).
Proof.
  intros Hd Hr ->. assert (HdR : 0 < IZR d) by (by apply IZR_lt).
  replace (IZR (d * q + r) / IZR d) with (IZR q + IZR r / IZR d)
    by (rewrite plus_IZR, mult_IZR; field; lra).
  assert (Hf : (2 * r < d)%Z -> IZR r / IZR d < / 2).
  { intros H. apply IZR_lt in H. rewrite mult_IZR in H.
    apply Rmult_lt_reg_r with (IZR d); [done|]. unfold Rdiv. rewrite Rmult_assoc, Rinv_l; lra. }
  assert (Hg : (d < 2 * r)%Z -> / 2 < IZR r / IZR d).
  { intros H. apply IZR_lt in H. rewrite mult_IZR in H.
    apply Rmult_lt_reg_r with (IZR d); [done|]. unfold Rdiv. rewrite Rmult_assoc, Rinv_l; lra. }
  assert (He : (2 * r = d)%Z -> IZR r / IZR d = / 2).
  { intros <-. rewrite mult_IZR. field. assert (0 < r)%Z as Hr0 by lia. apply IZR_lt in Hr0. lra. }
  assert (H0 : (0 < r)%Z -> 0 < IZR r / IZR d).
  { intros H. apply IZR_lt in H. by apply Rdiv_lt_0_compat. }
  assert (H1 : IZR r / IZR d < 1).
  { apply Rmult_lt_reg_r with (IZR d); [done|]. unfold Rdiv. rewrite Rmult_assoc, Rinv_l by lra.
    rewrite Rmult_1_r, Rmult_1_l. apply IZR_lt. lia. }
  unfold new_location, new_location_even, new_location_odd.
  destruct (Z.eqb_spec r 0) as [->|Hr0].
  { destruct (Z.even d); unfold inb; cbn; lra. }
  specialize (H0 ltac:(lia)). pose proof (proj2 (Z.eqb_neq r 0) Hr0) as Heq0.
  destruct (Z.even d) eqn:Hev; cbv beta; change IntDef.Z.eqb with Z.eqb; rewrite Heq0.
  - destruct (Z.compare_spec (2 * r) d) as [H|H|H]; unfold inb; cbn; [specialize (He H)|specialize (Hf H)|specialize (Hg H)]; lra.
  - assert (Hodd : (2 * r <> d)%Z).
    { intros Heq. rewrite <- Heq, Z.even_mul in Hev. done. }
    destruct (Z.compare_spec (2 * r + 1) d) as [H|H|H]; unfold inb; cbn;
      [specialize (Hf ltac:(lia))|specialize (Hf ltac:(lia))|specialize (Hg ltac:(lia))]; lra.
Qed.

Lemma shiftl_case m s : (0 <= s)%Z ->
  match s with Z.pos _ => Z.shiftl m s | Z0 => m | Z.neg _ => 0%Z end = (m * 2 ^ s)%Z.
Proof. intros Hs. destruct s; [lia|by apply Z.shiftl_mul_pow2|lia]. Qed.

Lemma div_core_nearest s m1 e1 m2 e2 :
  let '(q, e, l) := SFdiv_core_binary 24 128 (Z.pos m1) e1 (Z.pos m2) e2 in
  nearest (sgn s * (IZR (Z.pos m1) * b2 e1 / (IZR (Z.pos m2) * b2 e2))) (binary_round_aux 24 128 s q e l).
Proof.
  unfold SFdiv_core_binary. rewrite fexp_eq.
  change (Zdigits2 (Z.pos m1)) with (digits m1). change (Zdigits2 (Z.pos m2)) with (digits m2).
  set (D := (digits m1 + e1 - (digits m2 + e2))%Z).
  set (e := Z.min (Z.max (D - 24) (-149)) (e1 - e2)). rewrite shiftl_case by lia.
  set (m' := (Z.pos m1 * 2 ^ (e1 - e2 - e))%Z).
  assert (Hm' : (0 < m')%Z) by (unfold m'; assert (0 < 2 ^ (e1 - e2 - e))%Z by (apply Z.pow_pos_nonneg; lia); lia).
  pose proof (Z_div_mod m' (Z.pos m2) ltac:(lia)) as Hqr.
  destruct (Z.div_eucl m' (Z.pos m2)) as [q r]. destruct Hqr as [Hqr Hr].
  assert (Hq : (0 <= q)%Z) by nia. pose proof (b2_pos e). pose proof (b2_pos e2).
  assert (0 < IZR (Z.pos m2)) by (by apply IZR_lt).
  replace (sgn s * (IZR (Z.pos m1) * b2 e1 / (IZR (Z.pos m2) * b2 e2)))
    with (sgn s * (IZR m' / IZR (Z.pos m2)) * b2 e).
  2: { unfold m'. rewrite mult_IZR, b2_IZR by lia.
       replace (b2 e1) with (b2 (e1 - e2 - e) * b2 e * b2 e2); [field; lra|].
       rewrite <- !b2_add. f_equal. lia. }
  apply round_aux_nearest; [done|by apply new_location_inb|].
  destruct (Z.eq_dec q 0%Z) as [->|Hq0]; cbn [Zdigits2].
  - (* the dividend is far smaller: the result is below the smallest number *)
    assert (Hlt : (m' < Z.pos m2)%Z) by lia.
    pose proof (digits_bounds m1) as [Hl _]. pose proof (digits_bounds m2) as [_ Hu].
    assert (Hlt2 : (2 ^ (digits m1 - 1 + (e1 - e2 - e)) < 2 ^ digits m2)%Z).
    { rewrite Z.pow_add_r by (unfold digits; lia). unfold m' in Hlt.
      assert (0 < 2 ^ (e1 - e2 - e))%Z by (apply Z.pow_pos_nonneg; lia). nia. }
    apply Z.pow_lt_mono_r_iff in Hlt2; unfold digits in *; lia.
  - assert (Hd1 : (D <= Zdigits2 q + e)%Z); [|lia].
    destruct (Zdigits2_bounds q Hq) as [Hqu _].
    pose proof (digits_bounds m1) as [Hl _]. pose proof (digits_bounds m2) as [_ Hu].
    assert (Hlt2 : (2 ^ (digits m1 - 1 + (e1 - e2 - e)) < 2 ^ (digits m2 + Zdigits2 q))%Z).
    { pose proof (Zdigits2_nonneg q). rewrite !Z.pow_add_r by (unfold digits; lia).
      apply Z.le_lt_trans with m'; [unfold m'; assert (0 < 2 ^ (e1 - e2 - e))%Z by (apply Z.pow_pos_nonneg; lia); nia|].
      nia. }
    pose proof (Zdigits2_nonneg q). apply Z.pow_lt_mono_r_iff in Hlt2; unfold digits in *; lia.
Qed.

Lemma fdiv_nearest x y :
  fok x = true -> fok y = true -> fr y <> 0 -> nearest (fr x / fr y) (x / y)%f32.
Proof.
  intros Hx Hy Hy0. destruct x as [sx|sx| |sx mx ex]; try done; destruct y as [sy|sy| |sy my ey]; try done.
  - cbn [fr]. unfold Rdiv. rewrite Rmult_0_l. apply nearest_zero.
  - unfold fdiv, SFdiv. pose proof (div_core_nearest (xorb sx sy) mx ex my ey) as H.
    destruct (SFdiv_core_binary 24 128 (Z.pos mx) ex (Z.pos my) ey) as [[q e] l].
    cbn [fr]. assert (0 < IZR (Z.pos my)) by (by apply IZR_lt). pose proof (b2_pos ey).
    replace (sgn sx * IZR (Z.pos mx) * b2 ex / (sgn sy * IZR (Z.pos my) * b2 ey))
      with (sgn (xorb sx sy) * (IZR (Z.pos mx) * b2 ex / (IZR (Z.pos my) * b2 ey))); [done|].
    rewrite sgn_xorb. pose proof (sgn_inv sy). assert (sgn sy <> 0) by (destruct sy; unfold sgn; lra).
    replace (sgn sy) with (/ sgn sy) at 1; [field; lra|].
    apply (Rmult_eq_reg_r (sgn sy)); [|done]. rewrite Rinv_l; lra.
Qed.

Lemma sqrt_location_inb m q r :
  (0 <= q)%Z -> (m = q * q + r)%Z -> (0 <= r <= 2 * q)%Z ->
  inb (shr_record_of_loc q (if Z.eqb r 0 then loc_Exact else loc_Inexact (if Z.leb r q then Lt else Gt)))
      (sqrt (IZR m)).
Proof.
  intros Hq Hm Hr. apply IZR_le in Hq as HqR. assert (Hr0 : 0 <= IZR r) by (apply IZR_le; lia).
  assert (HmR : IZR m = IZR q * IZR q + IZR r) by (rewrite Hm, plus_IZR, mult_IZR; lra).
  assert (Hlo : forall y, 0 <= y -> y * y < IZR m -> y < sqrt (IZR m)).
  { intros y Hy Hlt. rewrite <- (sqrt_square y) by done. apply sqrt_lt_1; nra. }
  assert (Hhi : forall y, 0 <= y -> IZR m < y * y -> sqrt (IZR m) < y).
  { intros y Hy Hlt. rewrite <- (sqrt_square y) by done. apply sqrt_lt_1; nra. }
  destruct (Z.eqb_spec r 0) as [->|Hne].
  { unfold inb. cbn. rewrite HmR, Rplus_0_r. by apply sqrt_square. }
  destruct (Z.leb_spec r q) as [Hle|Hgt]; unfold inb; cbn.
  - assert (Hr1 : 1 <= IZR r) by (apply IZR_le; lia). apply IZR_le in Hle.
    split; [apply Hlo; nra|apply Hhi; nra].
  - assert (Hr1 : IZR q + 1 <= IZR r) by (rewrite <- plus_IZR; apply IZR_le; lia).
    destruct Hr as [_ Hr]. apply IZR_le in Hr. rewrite mult_IZR in Hr.
    split; [apply Hlo; nra|apply Hhi; nra].
Qed.

Lemma sqrt_b2 e : sqrt (b2 (2 * e)) = b2 e.
Proof.
  replace (2 * e)%Z with (e + e)%Z by lia. rewrite b2_add. apply sqrt_square.
  pose proof (b2_pos e). lra.
Qed.

Lemma fsqrt_nearest x : fok x = true -> 0 <= fr x -> nearest (sqrt (fr x)) (fsqrt x).
Proof.
  intros Hx H0. destruct x as [s|s| |[] m e]; try done.
  - cbn [fr fsqrt SFsqrt]. rewrite sqrt_0. apply nearest_zero.
  - exfalso. cbn [fr] in H0. unfold sgn in H0. assert (0 < IZR (Z.pos m)) by (by apply IZR_lt).
    pose proof (b2_pos e). nra.
  - unfold fsqrt, SFsqrt, SFsqrt_core_binary. rewrite fexp_eq. change (Zdigits2 (Z.pos m)) with (digits m).
    rewrite !Z.div2_div. set (D := ((digits m + e + 1) / 2)%Z).
    set (e' := Z.min (Z.max (D - 24) (-149)) (e / 2)).
    assert (Hs : (0 <= e - 2 * e')%Z) by (pose proof (Z.mod_pos_bound e 2); pose proof (Z.div_mod e 2); lia).
    pose proof (shiftl_case (Z.pos m) (e - 2 * e') Hs) as Hsh.
    replace (match (e - 2 * e')%Z with Z.pos _ => Z.shiftl (Z.pos m) (e - 2 * e') | Z0 => Z.pos m | Z.neg _ => 0%Z end)
      with (Z.pos m * 2 ^ (e - 2 * e'))%Z by (by destruct (e - 2 * e')%Z).
    set (m' := (Z.pos m * 2 ^ (e - 2 * e'))%Z).
    assert (Hm' : (0 < m')%Z) by (unfold m'; assert (0 < 2 ^ (e - 2 * e'))%Z by (apply Z.pow_pos_nonneg; lia); lia).
    pose proof (Z.sqrtrem_spec m' ltac:(lia)) as Hqr. destruct (Z.sqrtrem m') as [q r]. destruct Hqr as [Hqr Hr].
    assert (Hq : (0 <= q)%Z) by lia.
    replace (sqrt (fr (S754_finite false m e))) with (sgn false * sqrt (IZR m') * b2 e').
    2: { cbn [fr]. unfold sgn, m'. rewrite mult_IZR, b2_IZR by lia. rewrite !Rmult_1_l.
         replace (b2 e) with (b2 (e - 2 * e') * b2 (2 * e')) by (rewrite <- b2_add; f_equal; lia).
         rewrite <- Rmult_assoc. pose proof (b2_pos (e - 2 * e')). pose proof (b2_pos (2 * e')).
         assert (0 < IZR (Z.pos m)) by (by apply IZR_lt).
         rewrite (sqrt_mult_alt _ (b2 (2 * e'))) by nra. by rewrite sqrt_b2. }
    apply round_aux_nearest; [done|by apply sqrt_location_inb|].
    assert (HD : (0 <= D - 1 - e')%Z).
    { pose proof (digits_bounds m). assert (1 <= digits m)%Z by (unfold digits; lia).
      unfold D in *. Z.to_euclidean_division_equations; lia. }
    assert (Hq2 : (2 ^ (D - 1 - e') <= q)%Z).
    { assert (Hsq : (2 ^ (D - 1 - e') * 2 ^ (D - 1 - e') < (q + 1) * (q + 1))%Z); [|nia].
      rewrite <- Z.pow_add_r by lia. apply Z.le_lt_trans with m'; [|lia].
      apply Z.le_trans with (2 ^ (digits m - 1) * 2 ^ (e - 2 * e'))%Z.
      - rewrite <- Z.pow_add_r by (unfold digits; lia). apply Z.pow_le_mono_r; [lia|].
        unfold D. Z.to_euclidean_division_equations; lia.
      - unfold m'. apply Z.mul_le_mono_nonneg_r; [apply Z.pow_nonneg; lia|]. apply digits_bounds. }
    destruct (Zdigits2_bounds q Hq) as [Hqu _]. pose proof (Zdigits2_nonneg q).
    assert (D - 1 - e' < Zdigits2 q)%Z; [|lia].
    apply (Z.pow_lt_mono_r_iff 2); [lia|lia|]. lia.
Qed.

(** ** Comparison *)

Lemma fok_not_nan x : fok x = true -> is_nan x = false.
Proof. by destruct x. Qed.

(** The exponent decides between numbers of different exponents. *)
Lemma fok_lt s1 s2 m1 e1 m2 e2 :
  fok (S754_finite s1 m1 e1) = true -> fok (S754_finite s2 m2 e2) = true ->
  (e1 < e2)%Z -> IZR (Z.pos m1) * b2 e1 < IZR (Z.pos m2) * b2 e2.
Proof.
  intros H1 H2 He. destruct (fok_digits _ _ _ H1) as (Hd1 & _ & _).
  destruct (fok_digits _ _ _ H2) as (_ & _ & Hd2). destruct (fok_digits _ _ _ H1) as (_ & He1 & _).
  destruct (digits_IZR m1) as [_ Hu]. destruct (digits_IZR m2) as [Hl _].
  pose proof (b2_pos e1). pose proof (b2_pos e2).
  apply Rlt_le_trans with (b2 (digits m1) * b2 e1); [nra|].
  apply Rle_trans with (b2 (digits m2 - 1) * b2 e2); [|nra]. rewrite <- !b2_add. apply b2_le. lia.
Qed.

Lemma key_lt_fr x y : fok x = true -> fok y = true -> (key_lt (fkey x) (fkey y) <-> fr x < fr y).
Proof.
  intros Hx Hy.
  assert (Hpos : forall m e, 0 < IZR (Z.pos m) * b2 e).
  { intros m e. pose proof (b2_pos e). assert (0 < IZR (Z.pos m)) by (by apply IZR_lt). nra. }
  assert (Hcmp : forall s1 s2 m1 e1 m2 e2, fok (S754_finite s1 m1 e1) = true ->
    fok (S754_finite s2 m2 e2) = true ->
    ((e1 < e2 \/ e1 = e2 /\ Z.pos m1 < Z.pos m2)%Z <-> IZR (Z.pos m1) * b2 e1 < IZR (Z.pos m2) * b2 e2)).
  { intros s1 s2 m1 e1 m2 e2 H1 H2. split.
    - intros [He|[-> Hm]]; [by apply (fok_lt s1 s2)|]. apply IZR_lt in Hm. pose proof (b2_pos e2). nra.
    - intros Hlt. destruct (Z.lt_trichotomy e1 e2) as [He|[->|He]]; [by left| |].
      + right. split; [done|]. apply lt_IZR. pose proof (b2_pos e2). nra.
      + pose proof (fok_lt s2 s1 _ _ _ _ H2 H1 He). lra. }
  destruct x as [sx|sx| |sx mx ex]; try done; destruct y as [sy|sy| |sy my ey]; try done.
  - cbn. split; [lia|lra].
  - specialize (Hpos my ey). destruct sy; cbn [fkey key_lt fr]; unfold sgn; (split; [lia||lra|lra||lia]); lra.
  - specialize (Hpos mx ex). destruct sx; cbn [fkey key_lt fr]; unfold sgn; (split; [lia||lra|lra||lia]); lra.
  - pose proof (Hpos mx ex). pose proof (Hpos my ey).
    specialize (Hcmp sx sy mx ex my ey Hx Hy) as Hc1. specialize (Hcmp sy sx my ey mx ex Hy Hx) as Hc2.
    destruct sx, sy; cbn [fkey key_lt fr]; unfold sgn; rewrite !Rmult_assoc; split; intros H1;
      try lra; try lia.
    + assert (IZR (Z.pos my) * b2 ey < IZR (Z.pos mx) * b2 ex) by (apply Hc2; lia). lra.
    + assert (ey < ex \/ ey = ex /\ Z.pos my < Z.pos mx)%Z by (apply Hc2; lra). lia.
    + assert (IZR (Z.pos mx) * b2 ex < IZR (Z.pos my) * b2 ey) by (apply Hc1; lia). lra.
    + assert (ex < ey \/ ex = ey /\ Z.pos mx < Z.pos my)%Z by (apply Hc1; lra). lia.
Qed.

Lemma fltb_fr x y : fok x = true -> fok y = true -> (fltb x y = true <-> fr x < fr y).
Proof.
  intros Hx Hy. rewrite fltb_spec, key_lt_fr by done.
  split; [by intros (_ & _ & H)|]. intros H. by rewrite !fok_not_nan.
Qed.

Lemma fltb_fr_false x y : fok x = true -> fok y = true -> (fltb x y = false <-> fr y <= fr x).
Proof.
  intros Hx Hy. pose proof (fltb_fr x y Hx Hy) as H. destruct (fltb x y).
  - split; [done|]. pose proof (proj1 H eq_refl). lra.
  - split; [|done]. intros _. destruct (Rle_lt_dec (fr y) (fr x)) as [|Hlt]; [done|].
    by apply H in Hlt.
Qed.

Lemma fleb_fr x y : fok x = true -> fok y = true -> (fleb x y = true <-> fr x <= fr y).
Proof.
  intros Hx Hy. rewrite fleb_spec, key_lt_fr by done.
  split; [intros (_ & _ & H); lra|]. intros H. rewrite !fok_not_nan by done. split; [done|]. split; [done|lra].
Qed.

Lemma fleb_fr_false x y : fok x = true -> fok y = true -> (fleb x y = false <-> fr y < fr x).
Proof.
  intros Hx Hy. pose proof (fleb_fr x y Hx Hy) as H. destruct (fleb x y).
  - split; [done|]. pose proof (proj1 H eq_refl). lra.
  - split; [|done]. intros _. destruct (Rlt_le_dec (fr y) (fr x)) as [|Hle]; [done|].
    by apply H in Hle.
Qed.

(** ** Bounds on computed numbers

    [fvalid] holds of every binary32 the processor can hold, infinities and NaN
    included; all operations compute such numbers from such numbers.  For
    bounds, a result is a finite number near the exact value ([approx]), unless
    it overflows. *)
From Stdlib Require Import Reals Lra.
From S2P Require Import Prelude Float32 FloatExact Utils.
#[local] Open Scope R_scope.

Definition fvalid (x : f32) : bool :=
  match x with S754_finite _ m e => bounded 24 128 m e | _ => true end.

(** Not finite. *)
Definition special (x : f32) : bool :=
  match x with S754_nan | S754_infinity _ => true | _ => false end.

Lemma fok_valid x : fok x = true -> fvalid x = true.
Proof. by destruct x. Qed.

Lemma fvalid_cases x : fvalid x = true -> fok x = true \/ special x = true.
Proof. destruct x; auto. Qed.

Lemma fok_not_special x : fok x = true -> special x = false.
Proof. by destruct x. Qed.

(** ** Errors *)

Definition approx (v : R) (z : f32) : Prop :=
  fok z = true /\ Rabs (fr z - v) <= Rabs v * b2 (-24) + b2 (-150).

Lemma nearest_valid v z : nearest v z -> fvalid z = true.
Proof. destruct z; try done. by intros [H _]. Qed.

Lemma nearest_approx v z : nearest v z -> Rabs v < b2 127 -> approx v z.
Proof.
  intros Hn Hv. destruct z as [s|s| |s m e]; try done.
  - destruct Hn as (H1 & _ & H2). by split.
  - exfalso. cbn [nearest] in Hn. pose proof (b2_pos 127).
    assert (Rabs (sgn s * v) = Rabs v).
    { rewrite Rabs_mult. replace (Rabs (sgn s)) with 1; [lra|]. unfold sgn, Rabs.
      destruct s, (Rcase_abs _); lra. }
    pose proof (Rle_abs (sgn s * v)). lra.
  - destruct Hn as (H1 & _ & H2). by split.
Qed.

(** Rounding is monotone: a number of the format bounds the result. *)
Lemma nearest_le v z f : nearest v z -> fok z = true -> fok f = true -> v <= fr f -> fr z <= fr f.
Proof.
  intros Hn Hz Hf Hv. assert (H : Rabs (fr z - v) <= Rabs (fr f - v)).
  { destruct z; try done; destruct Hn as (_ & H & _); by apply H. }
  destruct (Rle_lt_dec (fr z) (fr f)) as [|Hlt]; [done|].
  rewrite (Rabs_right (fr f - v)), (Rabs_right (fr z - v)) in H by lra. lra.
Qed.

Lemma nearest_ge v z f : nearest v z -> fok z = true -> fok f = true -> fr f <= v -> fr f <= fr z.
Proof.
  intros Hn Hz Hf Hv. assert (H : Rabs (fr z - v) <= Rabs (fr f - v)).
  { destruct z; try done; destruct Hn as (_ & H & _); by apply H. }
  destruct (Rle_lt_dec (fr f) (fr z)) as [|Hlt]; [done|].
  rewrite (Rabs_left1 (fr f - v)), (Rabs_left1 (fr z - v)) in H by lra. lra.
Qed.

Lemma nearest_nonneg v z : nearest v z -> fok z = true -> 0 <= v -> 0 <= fr z.
Proof. intros Hn Hz Hv. change 0 with (fr f0). by apply (nearest_ge v). Qed.

(** The constants of the error bound as fractions. *)
Lemma b2_inv n : b2 (Z.neg n) = / IZR (2 ^ Z.pos n).
Proof.
  rewrite b2_IZR by lia. change (Z.neg n) with (- Z.pos n)%Z.
  apply (Rmult_eq_reg_r (b2 (Z.pos n))); [|pose proof (b2_pos (Z.pos n)); lra].
  rewrite <- b2_add, Rinv_l by (pose proof (b2_pos (Z.pos n)); lra). by rewrite Z.add_opp_diag_l.
Qed.

Lemma b2_m24 : b2 (-24) = / 16777216.
Proof. apply (b2_inv 24). Qed.

Lemma b2_m150 : 0 < b2 (-150) <= / 1000000000000000000000000000000000000000.
Proof.
  split; [apply b2_pos|]. rewrite (b2_inv 150). apply Rinv_le_contravar; [lra|].
  apply IZR_le. vm_compute. discriminate.
Qed.

Lemma b2_127 : 100000000000000000000000000000000000000 < b2 127.
Proof. rewrite <- b2_IZR by lia. apply IZR_lt. vm_compute. reflexivity. Qed.

(** A bound on the error in terms of a bound on the exact value. *)
Lemma approx_err v z B : approx v z -> Rabs v <= B -> Rabs (fr z - v) <= B / 16777216 + b2 (-150).
Proof. intros [_ H] HB. rewrite b2_m24 in H. unfold Rdiv. lra. Qed.

(** The value of a literal. *)
Lemma fr_lit x m n : x = S754_finite false m (Z.neg n) -> fr x = IZR (Z.pos m) / IZR (2 ^ Z.pos n).
Proof. intros ->. cbn [fr]. rewrite b2_inv. unfold sgn, Rdiv. lra. Qed.

Lemma fr_of_int n : small n -> fok (f_of_int n) = true /\ fr (f_of_int n) = IZR n.
Proof.
  intros Hn. unfold small in Hn. destruct n as [|n|n]; [done| |lia].
  rewrite f_of_pos by lia. assert (Hd : (digits n <= 24)%Z) by (apply small_digits; lia).
  destruct (canon_mantissa n Hd) as [Hm Hdm]. unfold canon.
  assert (1 <= digits n)%Z by (unfold digits; lia). split.
  - apply fok_spec. rewrite Hdm. lia.
  - cbn [fr]. rewrite Hm, mult_IZR, b2_IZR, !Rmult_assoc, <- b2_add by lia.
    replace (24 - digits n + (digits n - 24))%Z with 0%Z by lia. change (b2 0) with 1. unfold sgn. lra.
Qed.

(** ** Conversions to integers *)

Lemma ftrunc_nonneg x : fok x = true -> 0 <= fr x -> IZR (ftrunc x) <= fr x < IZR (ftrunc x) + 1 /\ (0 <= ftrunc x)%Z.
Proof.
  intros Hx H0. destruct x as [s|s| |s m e]; try done; [cbn; split; [lra|lia]|].
  assert (Hm : 0 < IZR (Z.pos m)) by (by apply IZR_lt). pose proof (b2_pos e).
  destruct s; [cbn [fr] in H0; unfold sgn in H0; nra|]. cbn [fr ftrunc]. unfold sgn.
  destruct e as [|e|e].
  - rewrite Z.mul_1_r. change (b2 0) with 1. split; [lra|lia].
  - rewrite mult_IZR, b2_IZR by lia. split; [lra|]. assert (0 < 2 ^ Z.pos e)%Z by (apply Z.pow_pos_nonneg; lia). lia.
  - rewrite b2_inv. set (d := (2 ^ Z.pos e)%Z). assert (Hd : (0 < d)%Z) by (apply Z.pow_pos_nonneg; lia).
    pose proof (Z.div_mod (Z.pos m) d ltac:(lia)) as Hdm. pose proof (Z.mod_pos_bound (Z.pos m) d Hd) as Hr.
    set (q := (Z.pos m / d)%Z) in *. set (r := (Z.pos m mod d)%Z) in *.
    assert (HdR : 0 < IZR d) by (by apply IZR_lt). destruct Hr as [Hr1 Hr2].
    apply IZR_le in Hr1. apply IZR_lt in Hr2.
    assert (HmR : IZR (Z.pos m) = IZR d * IZR q + IZR r) by (rewrite Hdm at 1; rewrite plus_IZR, mult_IZR; lra).
    replace (1 * IZR (Z.pos m) * / IZR d) with (IZR q + IZR r / IZR d) by (rewrite HmR; field; lra).
    assert (0 <= IZR r / IZR d < 1).
    { split; [apply Rmult_le_pos; [lra|]; left; by apply Rinv_0_lt_compat|].
      apply Rmult_lt_reg_r with (IZR d); [done|]. unfold Rdiv. rewrite Rmult_assoc, Rinv_l; lra. }
    split; [lra|]. unfold q. apply Z.div_pos; lia.
Qed.

Lemma f2u32_trunc x : fok x = true -> 0 <= fr x < 4294967295 ->
  IZR (f2u32 x) <= fr x < IZR (f2u32 x) + 1 /\ (0 <= f2u32 x < 4294967295)%Z.
Proof.
  intros Hx [H0 H1]. destruct (ftrunc_nonneg x Hx H0) as [[Hl Hu] Hn].
  assert (Hlt : (ftrunc x < 4294967295)%Z) by (apply lt_IZR; lra).
  replace (f2u32 x) with (ftrunc x); [lra + (split; [lra|lia])|].
  destruct x; try done; unfold f2u32; lia.
Qed.

Lemma f2u32_special x : special x = true -> f2u32 x = 0%Z \/ f2u32 x = 4294967295%Z.
Proof. destruct x as [|[]| |]; auto; done. Qed.
