(* ===== verification/FloatVector.v ===== *)
(** * FloatVector: saturating a vector and the fast sine (src/utils.c)

    [utils_saturate_vector_2d] leaves a vector within the limit, whatever its
    components are (NaN gives NaN); [utils_fast_sincos_better] gives a point
    near the unit circle. *)
From Stdlib Require Import Reals Lra.
From S2P Require Import Prelude Float32 FloatExact FloatRound Utils.
#[local] Open Scope R_scope.

(** ** Infinities and NaN *)

Lemma inf_times_inf x : x = S754_infinity true \/ x = S754_infinity false -> (x * x)%f32 = S754_infinity false.
Proof. by intros [-> | ->]. Qed.

Lemma square_cases x : fvalid x = true -> is_nan x = false ->
  (x * x)%f32 = S754_infinity false \/ fok x = true /\ fok (x * x)%f32 = true /\ 0 <= fr (x * x)%f32.
Proof.
  intros Hv Hn. destruct (fvalid_cases x Hv) as [Hx|Hx].
  - pose proof (fmul_nearest x x Hx Hx) as H. destruct (x * x)%f32 as [s|s| |s m e] eqn:E; try done.
    + right. split; [done|]. split; [done|]. cbn [fr]. lra.
    + left. f_equal. destruct s; [|done]. exfalso. cbn [nearest] in H. unfold sgn in H.
      pose proof (b2_pos 127). nra.
    + right. split; [done|]. assert (Hok : fok (S754_finite s m e) = true) by apply H.
      split; [done|]. apply (nearest_nonneg (fr x * fr x)); [done|done|]. nra.
  - left. destruct x as [|[]| |]; done.
Qed.

Lemma inf_plus x : is_nan x = false -> x <> S754_infinity true ->
  (S754_infinity false + x)%f32 = S754_infinity false /\ (x + S754_infinity false)%f32 = S754_infinity false.
Proof. intros Hn Hi. destruct x as [| [] | |]; done. Qed.

Lemma fok_max z : fok z = true -> Rabs (fr z) < b2 128.
Proof.
  intros Hz. destruct z as [s|s| |s m e]; try done; [cbn [fr]; rewrite Rabs_R0; apply b2_pos|].
  destruct (fok_digits _ _ _ Hz) as (Hd & He & _). destruct (digits_IZR m) as [_ Hm].
  cbn [fr]. pose proof (b2_pos e). assert (0 < IZR (Z.pos m)) by (by apply IZR_lt).
  rewrite Rmult_assoc, sgn_abs by nra.
  apply Rlt_le_trans with (b2 (digits m) * b2 e); [nra|]. rewrite <- b2_add. apply b2_le. lia.
Qed.

(** ** The length of a vector *)

Section Length.
Context (x y : f32) (Hx : fok x = true) (Hy : fok y = true).
Abbreviation S := (fr x * fr x + fr y * fr y).

(** One square, one sum, one root: each off by at most one part in [2^24]. *)
Definition eta : R := / 1000000000000000000000000000000000000000.

Lemma square_near z : fok z = true -> fok (z * z)%f32 = true ->
  fr z * fr z * (1 - / 16777216) - eta <= fr (z * z)%f32 <= fr z * fr z * (1 + / 16777216) + eta.
Proof.
  intros Hz Hzz. pose proof (fmul_nearest z z Hz Hz) as H.
  assert (Ha : approx (fr z * fr z) (z * z)%f32).
  { destruct (z * z)%f32; try done; split; apply H. }
  pose proof b2_m150. pose proof (approx_err _ _ (fr z * fr z) Ha) as He.
  rewrite Rabs_right in He by nra. specialize (He ltac:(lra)). revert He. unfold eta, Rabs.
  destruct (Rcase_abs _); lra.
Qed.

Lemma sum_near u v : fok u = true -> fok v = true -> fok (u + v)%f32 = true -> 0 <= fr u + fr v ->
  (fr u + fr v) * (1 - / 16777216) - eta <= fr (u + v)%f32 <= (fr u + fr v) * (1 + / 16777216) + eta.
Proof.
  intros Hu Hv Huv H0. pose proof (fadd_nearest u v Hu Hv) as H.
  assert (Ha : approx (fr u + fr v) (u + v)%f32).
  { destruct (u + v)%f32; try done; split; apply H. }
  pose proof b2_m150. pose proof (approx_err _ _ (fr u + fr v) Ha) as He.
  rewrite Rabs_right in He by lra. specialize (He ltac:(lra)). revert He. unfold eta, Rabs.
  destruct (Rcase_abs _); lra.
Qed.

Lemma sqrt_near u : fok u = true -> 0 <= fr u ->
  fok (fsqrt u) = true /\ 0 <= fr (fsqrt u) /\
  sqrt (fr u) * (1 - / 16777216) - eta <= fr (fsqrt u) <= b2 68.
Proof.
  intros Hu H0. pose proof (fsqrt_nearest u Hu H0) as H. pose proof (sqrt_pos (fr u)) as Hs.
  assert (Hb : sqrt (fr u) < b2 64).
  { rewrite <- (sqrt_square (b2 64)) by (left; apply b2_pos). rewrite <- b2_add.
    apply sqrt_lt_1; [done|left; apply b2_pos|]. pose proof (fok_max u Hu) as Hm.
    revert Hm. unfold Rabs. destruct (Rcase_abs _); [|done]. pose proof (b2_pos 128). lra. }
  assert (Ha : approx (sqrt (fr u)) (fsqrt u)).
  { apply nearest_approx; [done|]. rewrite Rabs_right by lra.
    apply Rlt_le_trans with (b2 64); [done|apply b2_le; lia]. }
  split; [apply Ha|]. split; [apply (nearest_nonneg (sqrt (fr u))); [done|apply Ha|done]|].
  pose proof b2_m150. pose proof (approx_err _ _ (sqrt (fr u)) Ha) as He.
  rewrite (Rabs_right (sqrt (fr u))) in He by lra. specialize (He ltac:(lra)).
  assert (H64 : b2 68 = 16 * b2 64).
  { change 68%Z with (64 + 1 + 1 + 1 + 1)%Z. rewrite !b2_1. lra. }
  assert (1 <= b2 64) by (rewrite <- (b2_IZR 64) by lia; apply IZR_le; vm_compute; discriminate).
  revert He. unfold eta, Rabs. destruct (Rcase_abs _); lra.
Qed.

(** The exact length is not much larger than the computed one. *)
Lemma length_near :
  fok (x * x)%f32 = true -> fok (y * y)%f32 = true -> 0 <= fr (x * x)%f32 -> 0 <= fr (y * y)%f32 ->
  fok (x * x + y * y)%f32 = true ->
  let m := fr (fsqrt (x * x + y * y)%f32) in
  fok (fsqrt (x * x + y * y)%f32) = true /\ 0 <= m <= b2 68 /\
  S <= (m * 1.000001 + / 1000000000000000000) * (m * 1.000001 + / 1000000000000000000).
Proof.
  intros Hxx Hyy H0x H0y Hs m. pose proof (square_near x Hx Hxx) as Ex. pose proof (square_near y Hy Hyy) as Ey.
  pose proof (sum_near _ _ Hxx Hyy Hs ltac:(lra)) as Es.
  assert (H0 : 0 <= fr (x * x + y * y)%f32).
  { apply (nearest_nonneg (fr (x * x)%f32 + fr (y * y)%f32)); [by apply fadd_nearest|done|lra]. }
  destruct (sqrt_near _ Hs H0) as (Hok & Hm & Hr). fold m in Hm, Hr. destruct Hr as [Hr Hr2]. split; [done|]. split; [done|].
  set (v := fr (x * x + y * y)%f32) in *. pose proof (sqrt_pos v) as Hw. pose proof (sqrt_sqrt v H0) as Hwv.
  set (w := sqrt v) in *. clearbody m w v. pose proof (Rle_0_sqr (fr x)). pose proof (Rle_0_sqr (fr y)).
  unfold Rsqr, eta in *.
  assert (HSv : S <= v * 1.0000002 + / 100000000000000000000000000000000000000) by lra.
  assert (Hwm : w <= m * 1.0000001 + / 100000000000000000000000000000000000000) by lra.
  assert (Hw2 : v <= (m * 1.0000001 + / 100000000000000000000000000000000000000) * (m * 1.0000001 + / 100000000000000000000000000000000000000)) by nra.
  nra.
Qed.
End Length.

(** ** Saturation *)

(** Not a number in one component, or within [bound]. *)
Definition within (bound : R) (x y : f32) : Prop :=
  (is_nan x = true \/ is_nan y = true) \/
  (fok x = true /\ fok y = true /\ fr x * fr x + fr y * fr y <= bound * bound).

(** One product with a factor: at most one part in a million more. *)
Lemma square_bound X z h :
  0 <= h <= / 1000000000000000000000000000000000000000 ->
  Rabs (z - X) <= Rabs X * / 16777216 + h ->
  z * z <= X * X * 1.000001 + / 1000000000000000000000000000000.
Proof.
  intros Hh He. assert (Hz : Rabs z <= Rabs X * (1 + / 16777216) + h).
  { pose proof (Rabs_triang (z - X) X) as Ht. replace (z - X + X) with z in Ht by lra. lra. }
  assert (Hzz : forall u, u * u = Rabs u * Rabs u).
  { intros u. rewrite <- Rabs_mult, Rabs_right; [done|nra]. }
  rewrite (Hzz z), (Hzz X). pose proof (Rabs_pos z). pose proof (Rabs_pos X).
  set (a := Rabs X) in *. set (c := Rabs z) in *. clearbody a c.
  assert (Hc : c * c <= (a * (1 + / 16777216) + h) * (a * (1 + / 16777216) + h)) by nra.
  assert (Hah : 2 * a * h <= a * a * / 100000000 + h * h * 100000000).
  { assert (0 <= (a * / 10000 - h * 10000) * (a * / 10000 - h * 10000)) by apply Rle_0_sqr. lra. }
  assert (Hhh : h * h <= / 1000000000000000000000000000000000000000 * / 1000000000000000000000000000000000000000) by nra.
  nra.
Qed.

Lemma scale_near x f : fok x = true -> fok f = true -> fok (x * f)%f32 = true ->
  fr (x * f)%f32 * fr (x * f)%f32 <= fr x * fr x * (fr f * fr f) * 1.000001 + / 1000000000000000000000000000000.
Proof.
  intros Hx Hf Hok. pose proof (fmul_nearest x f Hx Hf) as H.
  assert (Ha : approx (fr x * fr f) (x * f)%f32) by (destruct (x * f)%f32; try done; split; apply H).
  pose proof b2_m150 as Hb. destruct Ha as [_ He]. rewrite b2_m24 in He.
  replace (fr x * fr x * (fr f * fr f)) with (fr x * fr f * (fr x * fr f)) by ring.
  apply (square_bound _ _ (b2 (-150))); [lra|done].
Qed.

(** A number with a finite square is below [2^66]. *)
Lemma square_finite x : fok x = true -> fok (x * x)%f32 = true -> Rabs (fr x) < b2 66.
Proof.
  intros Hx Hxx. pose proof (square_near x Hx Hxx) as [H _]. pose proof (fok_max _ Hxx) as Hm.
  pose proof (Rle_abs (fr (x * x)%f32)). unfold eta in H.
  assert (H128 : b2 66 * b2 66 = 16 * b2 128).
  { rewrite <- b2_add. change (66 + 66)%Z with (128 + 1 + 1 + 1 + 1)%Z. rewrite !b2_1. lra. }
  assert (1 <= b2 128) by (rewrite <- (b2_IZR 128) by lia; apply IZR_le; vm_compute; discriminate).
  assert (Hxy : fr x * fr x = Rabs (fr x) * Rabs (fr x)) by (rewrite <- Rabs_mult, Rabs_right; [done|nra]).
  pose proof (b2_pos 66). pose proof (Rabs_pos (fr x)).
  destruct (Rlt_le_dec (Rabs (fr x)) (b2 66)) as [|Hge]; [done|]. nra.
Qed.

Abbreviation tiny := (flit 1 10000000000).

Lemma fr_tiny : fok tiny = true /\ 0 < fr tiny <= 0.0000000002.
Proof.
  split; [by vm_compute|]. rewrite (fr_lit tiny 14411519 57) by (by vm_compute).
  change (2 ^ 57)%Z with 144115188075855872%Z. lra.
Qed.

(** The factor [max / mag] of a vector that is too long. *)
Lemma factor_near max mag :
  fok max = true -> fok mag = true -> 0 <= fr max < fr mag -> fr mag <= b2 68 ->
  fok (max / mag)%f32 = true /\ 0 <= fr (max / mag)%f32 <= 1.0001 /\
  fr (max / mag)%f32 * fr mag <= fr max * 1.0000001 + / 10000000000000000.
Proof.
  intros Hm Hg Hlt Hbig. assert (Hq : 0 <= fr max / fr mag < 1).
  { split; [apply Rmult_le_pos; [lra|]; left; apply Rinv_0_lt_compat; lra|].
    apply Rmult_lt_reg_r with (fr mag); [lra|]. unfold Rdiv. rewrite Rmult_assoc, Rinv_l; lra. }
  pose proof (fdiv_nearest max mag Hm Hg ltac:(lra)) as Hn. pose proof b2_127. pose proof b2_m150.
  assert (Ha : approx (fr max / fr mag) (max / mag)%f32).
  { apply nearest_approx; [done|]. rewrite Rabs_right by lra. lra. }
  destruct Ha as [Hok He]. split; [done|]. rewrite (Rabs_right (fr max / fr mag)), b2_m24 in He by lra.
  assert (Hnn : 0 <= fr (max / mag)%f32) by (apply (nearest_nonneg (fr max / fr mag)); [done|done|lra]).
  assert (Hu : fr (max / mag)%f32 <= fr max / fr mag * (1 + / 16777216) + b2 (-150)).
  { revert He. unfold Rabs. destruct (Rcase_abs _); lra. }
  split; [split; [done|lra]|].
  apply Rle_trans with ((fr max / fr mag * (1 + / 16777216) + b2 (-150)) * fr mag); [nra|].
  replace ((fr max / fr mag * (1 + / 16777216) + b2 (-150)) * fr mag)
    with (fr max * (1 + / 16777216) + b2 (-150) * fr mag) by (field; lra).
  assert (b2 (-150) * fr mag <= b2 (-82)).
  { apply Rle_trans with (b2 (-150) * b2 68); [nra|]. rewrite <- b2_add. apply b2_le. lia. }
  assert (b2 (-82) <= / 10000000000000000).
  { rewrite (b2_inv 82). apply Rinv_le_contravar; [lra|]. apply IZR_le. vm_compute. discriminate. }
  lra.
Qed.

Lemma saturate_finite x y max :
  fok x = true -> fok y = true -> fok max = true -> 0 <= fr max <= 1000 ->
  fok (x * x)%f32 = true -> fok (y * y)%f32 = true -> 0 <= fr (x * x)%f32 -> 0 <= fr (y * y)%f32 ->
  fok (x * x + y * y)%f32 = true ->
  let '(x', y', _) := utils_saturate_vector_2d x y max in
  within (fr max * 1.00001 + 0.000000000001) x' y'.
Proof.
  intros Hx Hy Hm Hm01 Hxx Hyy H0x H0y Hs.
  destruct (length_near x y Hx Hy Hxx Hyy H0x H0y Hs) as (Hok & H0 & HS).
  unfold utils_saturate_vector_2d. set (mag := fsqrt (x * x + y * y)%f32) in *.
  destruct fr_tiny as [Htok Ht]. set (tn := tiny) in *. clearbody tn.
  set (mag2 := if (mag <? tn)%f32 then tn else mag).
  assert (Hmag2 : fok mag2 = true /\ fr mag <= fr mag2 /\ 0 < fr mag2 /\ (fr mag2 <= 1 \/ mag2 = mag)).
  { unfold mag2. destruct (mag <? tn)%f32 eqn:E.
    - apply fltb_fr in E; [|done..]. split; [done|]. split; [lra|]. split; [lra|]. left. lra.
    - apply fltb_fr_false in E; [|done..]. split; [done|]. split; [lra|]. split; [lra|]. by right. }
  clearbody mag2. destruct Hmag2 as (Hok2 & Hle & Hpos & Hor).
  assert (HmS : fr mag2 <= b2 68).
  { destruct Hor as [H1| ->]; [|lra]. apply Rle_trans with 1; [done|].
    change 1 with (b2 0). apply b2_le. lia. }
  assert (Hab : fok (fabs max) = true /\ fr (fabs max) = fr max).
  { rewrite fabs_ok, fr_abs, Rabs_right by lra. by split. }
  destruct Hab as [Hmok Hmv]. set (mx := fabs max) in *. clearbody mx. rewrite <- Hmv in *.
  destruct (mx <? mag2)%f32 eqn:E; (apply fltb_fr in E || apply fltb_fr_false in E); try done.
  - destruct (factor_near mx mag2 Hmok Hok2 ltac:(lra) HmS) as (Hf & Hf01 & Hfm).
    set (f := (mx / mag2)%f32) in *. clearbody f. right.
    assert (Hprod : forall z, fok z = true -> fok (z * z)%f32 = true -> fok (z * f)%f32 = true).
    { intros z Hz Hzz. pose proof (square_finite z Hz Hzz) as Hzb. apply (nearest_approx (fr z * fr f)).
      - by apply fmul_nearest.
      - rewrite Rabs_mult, (Rabs_right (fr f)) by lra. pose proof (Rabs_pos (fr z)).
        apply Rle_lt_trans with (Rabs (fr z) * 1.0001); [nra|].
        apply Rlt_le_trans with (b2 (66 + 1)); [rewrite b2_1; lra|apply b2_le; lia]. }
    split; [by apply Hprod|]. split; [by apply Hprod|].
    pose proof (scale_near x f Hx Hf (Hprod x Hx Hxx)) as Ex.
    pose proof (scale_near y f Hy Hf (Hprod y Hy Hyy)) as Ey.
    set (m := fr mag) in *. set (m2 := fr mag2) in *. set (g := fr f) in *. set (M := fr mx) in *.
    clearbody m m2 g M.
    assert (HSg : (fr x * fr x + fr y * fr y) * (g * g) <=
      (M * 1.000002 + 0.0000000000001) * (M * 1.000002 + 0.0000000000001)).
    { apply Rle_trans with ((m2 * 1.000001 + / 1000000000000000000) * (m2 * 1.000001 + / 1000000000000000000) * (g * g)).
      - apply Rmult_le_compat_r; [nra|]. nra.
      - replace ((m2 * 1.000001 + / 1000000000000000000) * (m2 * 1.000001 + / 1000000000000000000) * (g * g))
          with ((g * m2 * 1.000001 + g * / 1000000000000000000) * (g * m2 * 1.000001 + g * / 1000000000000000000)) by ring.
        assert (0 <= g * m2) by nra. apply Rmult_le_compat; lra. }
    nra.
  - right. split; [done|]. split; [done|].
    set (m := fr mag) in *. set (m2 := fr mag2) in *. set (M := fr mx) in *. clearbody m m2 M. nra.
Qed.

(** A vector too long for the format shrinks to zero, or was infinite. *)
Lemma saturate_inf x y max :
  fvalid x = true -> fvalid y = true -> is_nan x = false -> is_nan y = false ->
  fok max = true -> 0 <= fr max ->
  (x * x + y * y)%f32 = S754_infinity false ->
  let '(x', y', _) := utils_saturate_vector_2d x y max in within (fr max * 1.00001 + 0.000000000001) x' y'.
Proof.
  intros Hx Hy Nx Ny Hm H0 E. unfold utils_saturate_vector_2d. rewrite E.
  change (fsqrt (S754_infinity false)) with (S754_infinity false).
  change (S754_infinity false <? tiny)%f32 with false. cbn match.
  assert ((fabs max <? S754_infinity false)%f32 = true) as ->.
  { destruct max; done. }
  assert (exists s, (fabs max / S754_infinity false)%f32 = S754_zero s) as (s & ->).
  { destruct max; try done; by eexists. }
  destruct x as [sx|sx| |sx mx ex]; try done; [|by left; left|];
    (destruct y as [sy|sy| |sy my ey]; try done; [|by left; right|]); right;
    (split; [done|]); (split; [done|]); cbn [fmul SFmul fr]; nra.
Qed.

Lemma sum_cases u v :
  fok u = true -> fok v = true -> 0 <= fr u -> 0 <= fr v ->
  fok (u + v)%f32 = true \/ (u + v)%f32 = S754_infinity false.
Proof.
  intros Hu Hv H0 H1. pose proof (fadd_nearest u v Hu Hv) as H.
  destruct (u + v)%f32 as [s|s| |s m e]; try done; [by left| |left; apply H].
  right. destruct s; [|done]. exfalso. cbn [nearest] in H. unfold sgn in H. pose proof (b2_pos 127). lra.
Qed.

Lemma fok_not_inf x s : fok x = true -> x <> S754_infinity s.
Proof. by intros H ->. Qed.

Lemma saturate_nan x y max :
  (x * x + y * y)%f32 = S754_nan -> utils_saturate_vector_2d x y max = (x, y, false).
Proof.
  intros E. unfold utils_saturate_vector_2d. rewrite E.
  change (fsqrt S754_nan) with S754_nan. change (S754_nan <? tiny)%f32 with false. cbn match.
  by destruct max as [|[]| |].
Qed.

(** Whatever the vector is, the result is within the limit or NaN. *)
Lemma saturate_within x y max :
  fvalid x = true -> fvalid y = true -> fok max = true -> 0 <= fr max <= 1000 ->
  let '(x', y', _) := utils_saturate_vector_2d x y max in
  within (fr max * 1.00001 + 0.000000000001) x' y'.
Proof.
  intros Hx Hy Hm Hm01.
  destruct (is_nan x) eqn:Nx; [|destruct (is_nan y) eqn:Ny].
  - rewrite saturate_nan by (by destruct x). left. by left.
  - rewrite saturate_nan; [left; by right|]. destruct y; try done. by destruct (x * x)%f32 as [|[]| |].
  - pose proof (saturate_inf x y max Hx Hy Nx Ny Hm (proj1 Hm01)) as Hinf.
    destruct (square_cases x Hx Nx) as [Ex|(Hxo & Hxx & H0x)], (square_cases y Hy Ny) as [Ey|(Hyo & Hyy & H0y)].
    + apply Hinf. by rewrite Ex, Ey.
    + apply Hinf. rewrite Ex. apply inf_plus; [by apply fok_not_nan|by apply fok_not_inf].
    + apply Hinf. rewrite Ey. apply inf_plus; [by apply fok_not_nan|by apply fok_not_inf].
    + destruct (sum_cases _ _ Hxx Hyy H0x H0y) as [Hs|Hs]; [by apply saturate_finite|by apply Hinf].
Qed.
