(* ===== verification/FastSin.v ===== *)
(** * FastSin: the fast sine and cosine stay near the unit circle (src/utils.c)

    [utils_fast_sincos_better] approximates sine and cosine by refined
    parabolas.  For every angle it returns, the computed point is at most 3.1 %
    outside the unit circle. *)
From Stdlib Require Import Reals Lra.
From S2P Require Import Prelude Float32 FloatExact FloatRound FloatVector Utils.
#[local] Open Scope R_scope.
#[local] Opaque b2.

(** ** Wrapped angles *)

Definition fpi : R := 13176795 / 4194304.

Lemma fr_pi : fok M_PI = true /\ fr M_PI = fpi.
Proof. split; [by vm_compute|]. by rewrite (fr_lit M_PI 13176795 22) by (by vm_compute). Qed.

Lemma fr_2pi : fok M_2PI = true /\ fr M_2PI = 2 * fpi.
Proof.
  split; [by vm_compute|]. rewrite (fr_lit M_2PI 13176795 21) by (by vm_compute).
  change (2 ^ 21)%Z with 2097152%Z. unfold fpi. lra.
Qed.

Lemma fpi_bounds : 3.14159274 < fpi < 3.14159275.
Proof. unfold fpi. lra. Qed.

(** NaN, or between -pi and pi. *)
Definition wrapped (x : f32) : Prop := is_nan x = true \/ fok x = true /\ - fpi <= fr x <= fpi.

Lemma fsub_valid x y : fvalid x = true -> fvalid y = true -> fvalid (x - y)%f32 = true.
Proof.
  intros Hx Hy. destruct (fvalid_cases x Hx) as [Hx'|Hx'], (fvalid_cases y Hy) as [Hy'|Hy'].
  - eapply nearest_valid. by apply fsub_nearest.
  - destruct y as [|[]| |]; try done; by destruct x as [|[]| |].
  - destruct x as [|[]| |]; try done; by destruct y as [|[]| |].
  - destruct x as [|[]| |]; try done; by destruct y as [|[]| |].
Qed.

Lemma fadd_valid x y : fvalid x = true -> fvalid y = true -> fvalid (x + y)%f32 = true.
Proof.
  intros Hx Hy. destruct (fvalid_cases x Hx) as [Hx'|Hx'], (fvalid_cases y Hy) as [Hy'|Hy'].
  - eapply nearest_valid. by apply fadd_nearest.
  - destruct y as [|[]| |]; try done; by destruct x as [|[]| |].
  - destruct x as [|[]| |]; try done; by destruct y as [|[]| |].
  - destruct x as [|[]| |]; try done; by destruct y as [|[]| |].
Qed.

Lemma wrap_up_range fuel x y :
  fvalid x = true -> wrap_up fuel (- M_PI)%f32 M_2PI x = Some y ->
  fvalid y = true /\ (is_nan y = true \/ y = S754_infinity false \/ fok y = true /\ - fpi <= fr y).
Proof.
  destruct fr_pi as [Hp Hpv]. revert x. induction fuel as [|fuel IH]; intros x Hx; cbn [wrap_up]; [done|].
  destruct (x <? - M_PI)%f32 eqn:E.
  - apply IH. apply fadd_valid; [done|]. by vm_compute.
  - intros [= <-]. split; [done|]. destruct (fvalid_cases x Hx) as [Hok|Hsp].
    + right; right. split; [done|]. apply fltb_fr_false in E; [|done|by rewrite fopp_ok].
      rewrite fr_opp, Hpv in E. lra.
    + destruct x as [s|[]| |s m e]; try discriminate Hsp; [discriminate E|right; by left|by left].
Qed.

Lemma wrap_down_range fuel x y :
  is_nan x = true \/ x = S754_infinity false \/ fok x = true /\ - fpi <= fr x ->
  wrap_down fuel M_PI M_2PI x = Some y -> wrapped y.
Proof.
  destruct fr_pi as [Hp Hpv]. destruct fr_2pi as [H2 H2v]. pose proof fpi_bounds.
  revert x. induction fuel as [|fuel IH]; intros x Hx; cbn [wrap_down]; [done|].
  destruct (M_PI <? x)%f32 eqn:E.
  - apply IH. destruct Hx as [Hn|[->|[Hok Hl]]]; [destruct x; discriminate|right; by left|].
    apply fltb_fr in E; [|done..]. pose proof (fsub_nearest x M_2PI Hok H2) as Hn.
    assert (Hb : fr x - fr M_2PI < b2 128).
    { pose proof (fok_max x Hok) as Hm. pose proof (Rle_abs (fr x)). lra. }
    destruct (x - M_2PI)%f32 as [s|s| |s m e] eqn:Ed; [| |destruct Hn|].
    + right; right. split; [done|]. cbn [fr]. lra.
    + destruct s; [|right; by left]. exfalso. cbn [nearest] in Hn. unfold sgn in Hn. pose proof b2_127. lra.
    + right; right. split; [apply Hn|].
      replace (- fpi) with (fr (- M_PI)%f32) by (rewrite fr_opp; lra).
      apply (nearest_ge (fr x - fr M_2PI)); [done|apply Hn|by rewrite fopp_ok|rewrite fr_opp; lra].
  - intros [= <-]. destruct Hx as [Hn|[->|[Hok Hl]]]; [by left|discriminate E|]. right. split; [done|].
    apply fltb_fr_false in E; [|done..]. lra.
Qed.

Lemma wrap_wrapped fuel x y : fvalid x = true -> wrap fuel M_PI M_2PI x = Some y -> wrapped y.
Proof.
  intros Hx. unfold wrap. cbn [mbind option_bind].
  destruct (wrap_up fuel (- M_PI)%f32 M_2PI x) as [z|] eqn:E; [|done].
  destruct (wrap_up_range fuel x z Hx E) as [_ Hz]. by apply wrap_down_range.
Qed.

(** ** The parabola *)

(** The value of the parabola in quarter turns: [2t - t |t|]. *)
Definition para (t : R) : R := 2 * t - t * Rabs t.

Abbreviation cB := (flit 127323954 100000000).
Abbreviation cC := (flit 405284735 1000000000).
Definition vB : R := 10680707 / 8388608.
Definition vC : R := 13599099 / 33554432.

Lemma fr_cB : fok cB = true /\ fr cB = vB.
Proof. split; [by vm_compute|]. by rewrite (fr_lit cB 10680707 23) by (by vm_compute). Qed.
Lemma fr_cC : fok cC = true /\ fr cC = vC.
Proof. split; [by vm_compute|]. by rewrite (fr_lit cC 13599099 25) by (by vm_compute). Qed.

Lemma fmul_bound x y B :
  fok x = true -> fok y = true -> - B <= fr x * fr y <= B -> 0 <= B <= 100 ->
  fok (x * y)%f32 = true /\ fr x * fr y - B * 0.00000006 - 0.00000000001 <= fr (x * y)%f32 <= fr x * fr y + B * 0.00000006 + 0.00000000001.
Proof.
  intros Hx Hy HB HB2. pose proof b2_127. pose proof b2_m150. assert (Ha : approx (fr x * fr y) (x * y)%f32).
  { apply nearest_approx; [by apply fmul_nearest|]. apply Rle_lt_trans with B; [by apply Rabs_le|lra]. }
  split; [apply Ha|]. pose proof (approx_err _ _ B Ha ltac:(by apply Rabs_le)) as He.
  revert He. unfold Rabs. destruct (Rcase_abs _); lra.
Qed.

Lemma fadd_bound x y B :
  fok x = true -> fok y = true -> - B <= fr x + fr y <= B -> 0 <= B <= 100 ->
  fok (x + y)%f32 = true /\ fr x + fr y - B * 0.00000006 - 0.00000000001 <= fr (x + y)%f32 <= fr x + fr y + B * 0.00000006 + 0.00000000001.
Proof.
  intros Hx Hy HB HB2. pose proof b2_127. pose proof b2_m150. assert (Ha : approx (fr x + fr y) (x + y)%f32).
  { apply nearest_approx; [by apply fadd_nearest|]. apply Rle_lt_trans with B; [by apply Rabs_le|lra]. }
  split; [apply Ha|]. pose proof (approx_err _ _ B Ha ltac:(by apply Rabs_le)) as He.
  revert He. unfold Rabs. destruct (Rcase_abs _); lra.
Qed.

Lemma fsub_bound x y B :
  fok x = true -> fok y = true -> - B <= fr x - fr y <= B -> 0 <= B <= 100 ->
  fok (x - y)%f32 = true /\ fr x - fr y - B * 0.00000006 - 0.00000000001 <= fr (x - y)%f32 <= fr x - fr y + B * 0.00000006 + 0.00000000001.
Proof.
  intros Hx Hy HB HB2. rewrite fsub_add. unfold Rminus in *. rewrite <- fr_opp in *.
  apply fadd_bound; [done|by rewrite fopp_ok|lra|done].
Qed.

Definition quarter (x : R) : R := x * vB / 2.

Lemma quarter_bounds x : - 3.1416 <= x <= 3.1416 -> - 2.0001 <= quarter x <= 2.0001.
Proof. unfold quarter, vB. lra. Qed.

(** One parabola, in the arithmetic of the program. *)
Lemma sin_parabola_near x :
  fok x = true -> - 3.1416 <= fr x <= 3.1416 ->
  fok (sin_parabola x) = true /\
  para (quarter (fr x)) - 0.000003 <= fr (sin_parabola x) <= para (quarter (fr x)) + 0.000003.
Proof.
  intros Hx Hb. destruct fr_cB as [HB HBv]. destruct fr_cC as [HC HCv].
  destruct (fmul_bound cB x 4.1) as [H1 E1]; [done|done|rewrite HBv; unfold vB; lra|lra|].
  destruct (fmul_bound cC x 1.3) as [H2 E2]; [done|done|rewrite HCv; unfold vC; lra|lra|].
  rewrite HBv in E1. rewrite HCv in E2.
  set (bx := (cB * x)%f32) in *. set (cx := (cC * x)%f32) in *.
  assert (Hcx : - 1.29 <= fr cx <= 1.29) by (unfold vC in *; lra).
  assert (Hx2 : 0 <= fr x * fr x <= 9.8697) by (split; [apply Rle_0_sqr|nra]).
  destruct (fmul_bound cx x 4.1) as [H3 E3]; [done|done|nra|lra|].
  set (cxx := (cx * x)%f32) in *.
  assert (Hcxx : vC * (fr x * fr x) - 0.0000006 <= fr cxx <= vC * (fr x * fr x) + 0.0000006).
  { assert (Hd : - 0.00000009 <= fr cx - vC * fr x <= 0.00000009) by lra.
    assert (- 0.00000029 <= (fr cx - vC * fr x) * fr x <= 0.00000029) by nra. lra. }
  assert (Hp : (fr x + 1.57) * (fr x + 1.57) >= 0 /\ (fr x - 1.57) * (fr x - 1.57) >= 0)
    by (split; apply Rle_ge, Rle_0_sqr).
  unfold sin_parabola. fold bx cx cxx. change f0 with (S754_zero false).
  destruct (x <? S754_zero false)%f32 eqn:E; [apply fltb_fr in E; [|done..]|apply fltb_fr_false in E; [|done..]];
    cbn [fr] in E.
  - assert (Hq : fr x * (fr x + 3.1416) <= 0) by nra.
    destruct (fadd_bound bx cxx 2) as [H4 E4]; [done|done| |lra|].
    { unfold vB, vC in *. lra. }
    split; [done|]. unfold para, quarter. rewrite Rabs_left1 by (unfold vB; lra).
    unfold vB, vC in *. lra.
  - assert (Hq : fr x * (fr x - 3.1416) <= 0) by nra.
    destruct (fsub_bound bx cxx 2) as [H4 E4]; [done|done| |lra|].
    { unfold vB, vC in *. lra. }
    split; [done|]. unfold para, quarter. rewrite Rabs_right by (unfold vB; lra).
    unfold vB, vC in *. lra.
Qed.

Abbreviation half_pi := (flit 5 10 * M_PI)%f32.

Lemma fr_half_pi : fok half_pi = true /\ fr half_pi = fpi / 2.
Proof.
  split; [by vm_compute|]. rewrite (fr_lit half_pi 13176795 23) by (by vm_compute).
  change (2 ^ 23)%Z with 8388608%Z. unfold fpi. lra.
Qed.

(** The angle of the cosine, in quarter turns: one more, or three less. *)
Lemma cos_angle_near x :
  fok x = true -> - fpi <= fr x <= fpi ->
  fok (cos_angle x) = true /\ - 3.1416 <= fr (cos_angle x) <= 3.1416 /\
  exists t, quarter (fr x) - 0.0000001 <= t <= quarter (fr x) + 0.0000001 /\
    ((quarter (fr (cos_angle x)) - 0.000001 <= t + 1 <= quarter (fr (cos_angle x)) + 0.000001 /\ t <= 1.000002) \/
     (quarter (fr (cos_angle x)) - 0.000001 <= t - 3 <= quarter (fr (cos_angle x)) + 0.000001 /\ 0.999998 <= t)).
Proof.
  intros Hx Hb. destruct fr_half_pi as [Hh Hhv]. destruct fr_pi as [Hp Hpv]. destruct fr_2pi as [H2 H2v].
  pose proof fpi_bounds as Hpi.
  destruct (fadd_bound x half_pi 4.8) as [Ha Ea]; [done|done|rewrite Hhv; lra|lra|]. rewrite Hhv in Ea.
  unfold cos_angle. set (y := (x + half_pi)%f32) in *. clearbody y.
  destruct (M_PI <? y)%f32 eqn:E; [apply fltb_fr in E; [|done..]|apply fltb_fr_false in E; [|done..]];
    rewrite Hpv in E.
  - destruct (fsub_bound y M_2PI 3.2) as [Hs Es]; [done|done|rewrite H2v; lra|lra|]. rewrite H2v in Es.
    split; [done|]. split; [lra|]. exists (quarter (fr x)). split; [lra|]. right.
    unfold quarter, vB, fpi in *. lra.
  - split; [done|]. split; [lra|]. exists (quarter (fr x)). split; [lra|]. left.
    unfold quarter, vB, fpi in *. lra.
Qed.

(** The two parabolas as functions of one parameter. *)
Lemma para_circle t u :
  - 2.000002 <= t <= 2.000002 ->
  (u = t + 1 /\ t <= 1.000002) \/ (u = t - 3 /\ 0.999998 <= t) ->
  exists r, - 0.000002 <= r <= 1.000002 /\
    (para t = 2 * r - r * r \/ para t = - (2 * r - r * r)) /\
    (para u = 1 - r * r \/ para u = - (1 - r * r)).
Proof.
  intros Ht Hu. unfold para. destruct Hu as [[-> Hu]|[-> Hu]].
  - destruct (Rle_lt_dec 0 t); [|destruct (Rle_lt_dec (-1) t)].
    + exists t. split; [lra|]. rewrite !Rabs_right by lra. split; left; lra.
    + exists (- t). split; [lra|]. rewrite Rabs_left1, (Rabs_right (t + 1)) by lra. split; [right|left]; lra.
    + exists (2 + t). split; [lra|]. rewrite Rabs_left1, (Rabs_left1 (t + 1)) by lra. split; right; lra.
  - exists (2 - t). split; [lra|]. rewrite Rabs_right, (Rabs_left1 (t - 3)) by lra. split; [left|right]; lra.
Qed.

Lemma para_lipschitz u v e :
  - 2.1 <= u <= 2.1 -> - 2.1 <= v <= 2.1 -> - e <= u - v <= e -> - (3 * e) <= para u - para v <= 3 * e.
Proof.
  intros Hu Hv He. unfold para, Rabs. destruct (Rcase_abs u), (Rcase_abs v); nra.
Qed.

(** The refinement of a parabola of height [a]. *)
Definition vD : R := 15099494 / 67108864.
Definition refine (a : R) : R := vD * (a * a - a) + a.

Lemma fr_cD : fok (flit 225 1000) = true /\ fr (flit 225 1000) = vD.
Proof. split; [by vm_compute|]. by rewrite (fr_lit (flit 225 1000) 15099494 26) by (by vm_compute). Qed.

Lemma sin_refine_near s a :
  fok s = true -> 0 <= a <= 1.001 -> Rabs (fr s) <= a ->
  fok (sin_refine s) = true /\ Rabs (fr (sin_refine s)) <= refine a + 0.000001.
Proof.
  intros Hs Ha Hsa. destruct fr_cD as [HD HDv].
  assert (Hfs : - a <= fr s <= a) by (revert Hsa; unfold Rabs; destruct (Rcase_abs _); lra).
  assert (Hss : 0 <= fr s * fr s <= a * a) by (split; [apply Rle_0_sqr|nra]).
  assert (Haa : a * a <= 1.002001) by nra.
  unfold sin_refine. change f0 with (S754_zero false).
  destruct (s <? S754_zero false)%f32 eqn:E; [apply fltb_fr in E; [|done..]|apply fltb_fr_false in E; [|done..]];
    change (fr (S754_zero false)) with 0 in E.
  - destruct (fmul_bound s (- s)%f32 1.1) as [H1 E1]; [done|by rewrite fopp_ok|rewrite fr_opp; lra|lra|].
    rewrite fr_opp in E1. set (q := (s * - s)%f32) in *.
    destruct (fsub_bound q s 1.1) as [H2 E2]; [done|done|nra|lra|]. set (d := (q - s)%f32) in *.
    destruct (fmul_bound (flit 225 1000) d 0.3) as [H3 E3]; [done|done|rewrite HDv; unfold vD; nra|lra|].
    rewrite HDv in E3. set (g := (flit 225 1000 * d)%f32) in *.
    destruct (fadd_bound g s 1.4) as [H4 E4]; [done|done|unfold vD in *; nra|lra|].
    split; [done|]. unfold refine, vD in *. apply Rabs_le. split; nra.
  - destruct (fmul_bound s s 1.1) as [H1 E1]; [done|done|lra|lra|].
    set (q := (s * s)%f32) in *.
    destruct (fsub_bound q s 1.1) as [H2 E2]; [done|done|nra|lra|]. set (d := (q - s)%f32) in *.
    destruct (fmul_bound (flit 225 1000) d 0.3) as [H3 E3]; [done|done|rewrite HDv; unfold vD; nra|lra|].
    rewrite HDv in E3. set (g := (flit 225 1000 * d)%f32) in *.
    destruct (fadd_bound g s 1.4) as [H4 E4]; [done|done|unfold vD in *; nra|lra|].
    split; [done|]. unfold refine, vD in *. apply Rabs_le. split; nra.
Qed.

(** The refined curve stays within 3.1 % of the circle. *)
Lemma refine_circle r : 0 <= r <= 1 ->
  refine (2 * r - r * r) * refine (2 * r - r * r) + refine (1 - r * r) * refine (1 - r * r) <= 1.0618.
Proof.
  intros Hr. set (z := r * (1 - r)). 
  assert (Hz : 0 <= z <= / 4) by (pose proof (Rle_0_sqr (r - / 2)); unfold z, Rsqr in *; split; nra).
  set (P := vD * ((1 - r) * (1 - r))). set (Q := vD * (r * r)).
  assert (H1r : 0 <= (1 - r) * (1 - r) <= 1) by (split; nra). assert (Hrr : 0 <= r * r <= 1) by (split; nra).
  assert (HP : 0 <= P <= 1) by (unfold P, vD; lra). assert (HQ : 0 <= Q <= 1) by (unfold Q, vD; lra).
  set (a := 2 * r - r * r). set (b := 1 - r * r).
  assert (Ea : refine a = a * (1 - P)) by (unfold refine, P, a; ring).
  assert (Eb : refine b = b * (1 - Q)) by (unfold refine, Q, b; ring). rewrite Ea, Eb.
  assert (H1 : a * (1 - P) * (a * (1 - P)) <= a * a * (1 - P)).
  { assert (0 <= a * a) by apply Rle_0_sqr.
    assert (a * a * ((1 - P) * (1 - P)) <= a * a * (1 - P)) by (apply Rmult_le_compat_l; nra). lra. }
  assert (H2 : b * (1 - Q) * (b * (1 - Q)) <= b * b * (1 - Q)).
  { assert (0 <= b * b) by apply Rle_0_sqr.
    assert (b * b * ((1 - Q) * (1 - Q)) <= b * b * (1 - Q)) by (apply Rmult_le_compat_l; nra). lra. }
  assert (H3 : a * a * (1 - P) + b * b * (1 - Q) =
               1 + z * z * (2 - vD * ((2 - r) * (2 - r) + (1 + r) * (1 + r)))).
  { unfold a, b, P, Q, z. ring. }
  assert (H4 : 2 - vD * ((2 - r) * (2 - r) + (1 + r) * (1 + r)) <= 0.988).
  { unfold vD. assert (0 <= (r - / 2) * (r - / 2)) by apply Rle_0_sqr. lra. }
  assert (H5 : z * z <= / 16) by nra. assert (H6 : 0 <= z * z) by apply Rle_0_sqr.
  assert (z * z * (2 - vD * ((2 - r) * (2 - r) + (1 + r) * (1 + r))) <= z * z * 0.988)
    by (by apply Rmult_le_compat_l). lra.
Qed.

Lemma refine_le a : 0 <= a <= 1.0001 -> 0 <= refine a <= a + 0.00003.
Proof.
  intros Ha. assert (- 1 <= a - 1 <= 0.0001) by lra. unfold refine, vD. split; nra.
Qed.

(** A point with components off by [1/100000]. *)
Lemma near_circle r a b s c :
  - 0.000002 <= r <= 1.000002 -> a = Rabs (2 * r - r * r) -> b = Rabs (1 - r * r) ->
  Rabs s <= refine (a + 0.00001) + 0.000001 -> Rabs c <= refine (b + 0.00001) + 0.000001 ->
  s * s + c * c <= 1.062.
Proof.
  intros Hr -> -> Hs Hc.
  assert (Hsq : forall x y, Rabs x <= y -> x * x <= y * y).
  { intros x y Hxy. replace (x * x) with (Rabs x * Rabs x) by (rewrite <- Rabs_mult, Rabs_right; [done|nra]).
    pose proof (Rabs_pos x). nra. }
  apply Hsq in Hs. apply Hsq in Hc.
  assert (Hstep : forall a, 0 <= a <= 1.00001 ->
    (refine (a + 0.00001) + 0.000001) * (refine (a + 0.00001) + 0.000001) <= refine a * refine a + 0.00005).
  { intros a Ha. assert (0 <= refine a <= 1.0001) by (unfold refine, vD; split; nra).
    assert (refine (a + 0.00001) + 0.000001 <= refine a + 0.0000165) by (unfold refine, vD; nra).
    assert (0 <= refine (a + 0.00001)) by (unfold refine, vD; nra). nra. }
  destruct (Rle_lt_dec 0 r) as [H0|H0]; [destruct (Rle_lt_dec r 1) as [H1|H1]|].
  - pose proof (refine_circle r (conj H0 H1)). rewrite !Rabs_right in * by nra.
    pose proof (Hstep (2 * r - r * r) ltac:(split; nra)). pose proof (Hstep (1 - r * r) ltac:(split; nra)). lra.
  - rewrite (Rabs_right (2 * r - r * r)) in Hs by nra. rewrite (Rabs_left1 (1 - r * r)) in Hc by nra.
    pose proof (Hstep (2 * r - r * r) ltac:(split; nra)) as E1. pose proof (Hstep (- (1 - r * r)) ltac:(split; nra)) as E2.
    assert (refine (2 * r - r * r) * refine (2 * r - r * r) <= 1.001).
    { pose proof (refine_le (2 * r - r * r) ltac:(split; nra)). assert (2 * r - r * r <= 1) by nra. nra. }
    assert (refine (- (1 - r * r)) * refine (- (1 - r * r)) <= 0.001).
    { pose proof (refine_le (- (1 - r * r)) ltac:(split; nra)). assert (- (1 - r * r) <= 0.00001) by nra. nra. }
    lra.
  - rewrite (Rabs_left1 (2 * r - r * r)) in Hs by nra. rewrite (Rabs_right (1 - r * r)) in Hc by nra.
    pose proof (Hstep (- (2 * r - r * r)) ltac:(split; nra)) as E1. pose proof (Hstep (1 - r * r) ltac:(split; nra)) as E2.
    assert (refine (- (2 * r - r * r)) * refine (- (2 * r - r * r)) <= 0.001).
    { pose proof (refine_le (- (2 * r - r * r)) ltac:(split; nra)). assert (- (2 * r - r * r) <= 0.00001) by nra. nra. }
    assert (refine (1 - r * r) * refine (1 - r * r) <= 1.001).
    { pose proof (refine_le (1 - r * r) ltac:(split; nra)). assert (1 - r * r <= 1) by nra. nra. }
    lra.
Qed.

Lemma para_height r : - 0.000002 <= r <= 1.000002 ->
  0 <= Rabs (2 * r - r * r) <= 1.00001 /\ 0 <= Rabs (1 - r * r) <= 1.00001.
Proof.
  intros Hr. split; (split; [apply Rabs_pos|]); apply Rabs_le; nra.
Qed.

Lemma height_near p h y e : (p = h \/ p = - h) -> - e <= y - p <= e -> Rabs y <= Rabs h + e.
Proof.
  intros Hp He. assert (Rabs p = Rabs h) as <- by (destruct Hp as [-> | ->]; [done|apply Rabs_Ropp]).
  replace y with (p + (y - p)) by ring. pose proof (Rabs_triang p (y - p)). assert (Rabs (y - p) <= e) by (by apply Rabs_le).
  lra.
Qed.

(** For every angle in range, the computed point is near the circle. *)
Lemma sincos_near x :
  fok x = true -> - fpi <= fr x <= fpi ->
  let s := sin_refine (sin_parabola x) in
  let c := sin_refine (sin_parabola (cos_angle x)) in
  fok s = true /\ fok c = true /\ fr s * fr s + fr c * fr c <= 1.062.
Proof.
  intros Hx Hb s c. pose proof fpi_bounds as Hpi.
  destruct (sin_parabola_near x Hx ltac:(lra)) as [Hp1 E1].
  destruct (cos_angle_near x Hx Hb) as (Hy & Hyb & t & Ht & Hor).
  destruct (sin_parabola_near _ Hy Hyb) as [Hp2 E2].
  pose proof (quarter_bounds _ Hyb) as Hqy. assert (Hqx : - 2.000001 <= quarter (fr x) <= 2.000001).
  { unfold quarter, vB, fpi in *. lra. }
  set (qy := quarter (fr (cos_angle x))) in *. set (qx := quarter (fr x)) in *. clearbody qx qy.
  assert (Hu : exists u, ((u = t + 1 /\ t <= 1.000002) \/ (u = t - 3 /\ 0.999998 <= t)) /\
    - 0.000001 <= u - qy <= 0.000001).
  { destruct Hor as [[H1 H2]|[H1 H2]]; [exists (t + 1)|exists (t - 3)]; (split; [|lra]); [left|right]; lra. }
  destruct Hu as (u & Hu & Huq). destruct (para_circle t u ltac:(lra) Hu) as (r & Hr & Hpt & Hpu).
  pose proof (para_lipschitz t qx 0.000001 ltac:(lra) ltac:(lra) ltac:(lra)) as L1.
  pose proof (para_lipschitz u qy 0.000001 ltac:(lra) ltac:(lra) ltac:(lra)) as L2.
  destruct (para_height r Hr) as [Hh1 Hh2].
  assert (Hs1 : Rabs (fr (sin_parabola x)) <= Rabs (2 * r - r * r) + 0.00001)
    by (apply (height_near (para t)); [done|lra]).
  assert (Hs2 : Rabs (fr (sin_parabola (cos_angle x))) <= Rabs (1 - r * r) + 0.00001)
    by (apply (height_near (para u)); [done|lra]).
  destruct (sin_refine_near _ (Rabs (2 * r - r * r) + 0.00001) Hp1 ltac:(lra) Hs1) as [Hok1 B1].
  destruct (sin_refine_near _ (Rabs (1 - r * r) + 0.00001) Hp2 ltac:(lra) Hs2) as [Hok2 B2].
  split; [done|]. split; [done|]. by apply (near_circle r _ _ _ _ Hr eq_refl eq_refl).
Qed.

(** Whatever the angle is: NaN, or a point near the circle. *)
Lemma sincos_better_near fuel x s c :
  fvalid x = true -> utils_fast_sincos_better fuel x = Some (s, c) ->
  (is_nan s = true /\ is_nan c = true) \/
  (fok s = true /\ fok c = true /\ fr s * fr s + fr c * fr c <= 1.062).
Proof.
  intros Hx. unfold utils_fast_sincos_better. cbn [mbind option_bind].
  destruct (wrap fuel M_PI M_2PI x) as [y|] eqn:E; [|done]. intros [= <- <-].
  destruct (wrap_wrapped fuel x y Hx E) as [Hn|[Hok Hb]]; [left|right; by apply sincos_near].
  destruct y as [s|s| |s m e]; discriminate || (by split).
Qed.
