(* ===== verification/FocMeasure.v ===== *)
(** * FocMeasure: the measurements of the FOC driver (src/mcpwm_foc.c)

    They run in a thread of their own: they lock the motor interface, put
    targets into the variables of the driver, and sleep while the interrupt
    handler works.  What happens during a sleep is the interface [Sleep].  The
    configuration they change for a while is the one [m_conf] of
    mc_interface.c holds, to which the driver's [m_conf] points.  Text for the
    terminal is left out. *)
From S2P Require Import Prelude Float32 McTypes Motor Flash Eeprom Utils World Transmit.
From S2P Require Import Transmit McInterface Timeout ConfGeneral McpwmState FocState Foc.

(** Where the driver's variables are in the hardware state. *)
Class FocIn (D : Type) : Type := { foc_of : D -> foc; foc_put : foc -> D -> D }.

(** [sincosf], [atan2f] and [roundf] of the C library. *)
Class LibmTrig : Type := {
  sincosf : f32 -> f32 * f32;
  atan2f : f32 -> f32 -> f32;
  roundf : f32 -> f32
}.

Section FocMeasure.
Context {D F : Type} `{FocIn D} `{Sleep D F} `{LibmTrig}.
Abbreviation M := (ST (world D F)).

Definition foc_run {A} (m : PF A) : M A := fun w =>
  match m (foc_of (w_hw w)) with
  | Some (a, s) => Some (a, w <| w_hw := foc_put s (w_hw w) |>)
  | None => None
  end.

(** The configuration through the driver's pointer. *)
Definition the_conf {A} (f : mc_configuration -> A) : M A := c ← mci m_conf; mret (f c).

Definition override_phase (x : f32) : M unit :=
  foc_run (fvar_set (fun v => v <| m_phase_now_override := x |>)).

(** [for (float i = from; i < to; i += step) { m_phase_now_override = i; sleep ms; }] *)
Fixpoint rotate_up (fuel : nat) (i to step : f32) (ms : Z) : M unit :=
  match fuel with
  | O => st_fail
  | S fuel =>
      if (i <? to)%f32 then
        override_phase i;; chThdSleepMilliseconds ms;; rotate_up fuel (i + step)%f32 to step ms
      else mret tt
  end.

Fixpoint rotate_down (fuel : nat) (i to step : f32) (ms : Z) : M unit :=
  match fuel with
  | O => st_fail
  | S fuel =>
      if (i >? to)%f32 then
        override_phase i;; chThdSleepMilliseconds ms;; rotate_down fuel (i - step)%f32 to step ms
      else mret tt
  end.

Definition rotate_fuel : nat := 2000.
Definition rotate_step : f32 := (M_2PI / f_of_int 500)%f32.

(** The common start: the motor is locked to an angle with a current. *)
Definition start_override (id_set iq_set : f32) : M unit :=
  foc_run (fvar_set (fun v => v <| m_phase_override := true |> <| m_id_set := id_set |>
    <| m_iq_set := iq_set |> <| m_control_mode := CONTROL_MODE_CURRENT |>
    <| m_state := MC_STATE_RUNNING |>)).

Definition stop_override : M unit :=
  foc_run (fvar_set (fun v => v <| m_id_set := f0 |> <| m_iq_set := f0 |>
                                <| m_phase_override := false |>);;
           release).

Definition clear_samples : M unit :=
  foc_run (smp_set (fun m => m <| avg_current_tot := f0 |> <| avg_voltage_tot := f0 |>
                               <| sample_num := 0 |>)).

(** ** Resistance *)

(** [while (sample_num < samples) { sleep; if (++cnt > 10000) break; }] *)
Fixpoint wait_samples (n : nat) (samples : Z) : M unit :=
  match n with
  | O => mret tt
  | S n =>
      k ← foc_run (smp sample_num);
      if k <? samples then chThdSleepMilliseconds 1;; wait_samples n samples else mret tt
  end.

(** The two averages. *)
Definition averages : M (f32 * f32) :=
  m ← foc_run (smp id);
  mret (avg_current_tot m / f_of_int (sample_num m), avg_voltage_tot m / f_of_int (sample_num m))%f32.

Definition mcpwm_foc_measure_resistance (current : f32) (samples : Z) : M f32 :=
  mc_interface_lock;;
  start_override f0 current;;
  override_phase f0;;
  tout ← timeout_get_timeout_msec;
  tout_c ← timeout_get_brake_current;
  timeout_configure 60000 f0;;
  chThdSleepMilliseconds 1000;;
  clear_samples;;
  wait_samples 10001 samples;;
  '(current_avg, voltage_avg) ← averages;
  stop_override;;
  timeout_configure tout tout_c;;
  mc_interface_unlock;;
  mret ((voltage_avg / current_avg) * TWO_THIRDS)%f32.

(** ** Inductance *)

(** Waits until the interrupt handler has taken one sample: the rest of the
    [n] rounds, 0 after a timeout. *)
Fixpoint wait_inductance (n : nat) : M nat :=
  match n with
  | O => mret O
  | S n' =>
      b ← foc_run (smp measure_inductance_now);
      if b : bool then chThdSleepMilliseconds 1;; wait_inductance n' else mret n
  end.

Fixpoint inductance_samples (samples : nat) (budget : nat) : M unit :=
  match samples with
  | O => mret tt
  | S samples =>
      foc_run (smp_set (fun m => m <| measure_inductance_now := true |>));;
      rest ← wait_inductance budget;
      match rest with O => mret tt | _ => inductance_samples samples rest end
  end.

(** The inductance and the current used. *)
Definition mcpwm_foc_measure_inductance (duty : f32) (samples : Z) : M (f32 * f32) :=
  clear_samples;;
  foc_run (smp_set (fun m => m <| measure_inductance_duty := duty |>));;
  tout ← timeout_get_timeout_msec;
  tout_c ← timeout_get_brake_current;
  timeout_configure 60000 f0;;
  mc_interface_lock;;
  inductance_samples (Z.to_nat samples) 5001;;
  timeout_configure tout tout_c;;
  mc_interface_unlock;;
  '(avg_current, avg_voltage) ← averages;
  arr ← foc_run (ftim foc_TIM1_ARR);
  m ← foc_run (smp id);
  let clock := f_of_int SYSTEM_CORE_CLOCK in
  let t := (f_of_int arr * measure_inductance_duty m / clock
            - f_of_int (MCPWM_FOC_INDUCTANCE_SAMPLE_CNT_OFFSET
                        + MCPWM_FOC_INDUCTANCE_SAMPLE_RISE_COMP) / clock)%f32 in
  mret (((avg_voltage * t) / avg_current) * f_of_int 1000000 * TWO_THIRDS, avg_current)%f32.

(** ** Both *)

Definition set_frequency : M unit :=
  c ← mci m_conf;
  foc_run (TIMER_UPDATE_SAMP_TOP (u32 (foc_top c - 2)) 5 (foc_top c)).

(** [for (float i = 2.0; i < l_current_max / 2.0; i *= 1.5)]: [i_last]. *)
Fixpoint find_current (fuel : nat) (i : f32) : M f32 :=
  match fuel with
  | O => st_fail
  | S fuel =>
      max ← the_conf l_current_max;
      if (i <? max / f_of_int 2)%f32 then
        res_tmp ← mcpwm_foc_measure_resistance i 20;
        if (i >? flit 5 10 / res_tmp)%f32 then mret i
        else find_current fuel (i * flit 15 10)%f32
      else mret f0
  end.

(** [for (float i = 0.02; i < 0.5; i *= 1.5)]: [duty_last]. *)
Fixpoint find_duty (fuel : nat) (i i_last : f32) : M f32 :=
  match fuel with
  | O => st_fail
  | S fuel =>
      if (i <? flit 5 10)%f32 then
        '(_, i_tmp) ← mcpwm_foc_measure_inductance i 20;
        if (i_tmp >=? i_last)%f32 then mret i
        else find_duty fuel (i * flit 15 10)%f32 i_last
      else mret f0
  end.

(** The result, the resistance and the inductance. *)
Definition mcpwm_foc_measure_res_ind : M (bool * f32 * f32) :=
  f_sw_old ← the_conf foc_f_sw;
  kp_old ← the_conf foc_current_kp;
  ki_old ← the_conf foc_current_ki;
  set_conf (fun c => c <| foc_f_sw := f_of_int 10000 |> <| foc_current_kp := flit 1 100 |>
                       <| foc_current_ki := f_of_int 10 |>);;
  set_frequency;;
  i_last ← find_current 300 (f_of_int 2);
  max ← the_conf l_current_max;
  let i_last := if (i_last <? flit 1 100)%f32 then (max / f_of_int 2)%f32 else i_last in
  res ← mcpwm_foc_measure_resistance i_last 500;
  set_conf (fun c => c <| foc_f_sw := f_of_int 3000 |>);;
  set_frequency;;
  duty_last ← find_duty 20 (flit 2 100) i_last;
  '(ind, _) ← mcpwm_foc_measure_inductance duty_last 500;
  set_conf (fun c => c <| foc_f_sw := f_sw_old |> <| foc_current_kp := kp_old |>
                       <| foc_current_ki := ki_old |>);;
  set_frequency;;
  mret (true, res, ind).

(** ** Hall sensors *)

(** [sin_hall], [cos_hall] and [hall_iterations]. *)
Definition hall_sums : Type := list f32 * list f32 * list Z.

Definition add_hall (hall : Z) (angle : f32) (t : hall_sums) : option hall_sums :=
  let '(sin_hall, cos_hall, iterations) := t in
  let '(s, c) := sincosf angle in
  s0 ← sin_hall !!? hall; c0 ← cos_hall !!? hall; n ← iterations !!? hall;
  sin_hall ← put_ix hall (s0 + s)%f32 sin_hall;
  cos_hall ← put_ix hall (c0 + c)%f32 cos_hall;
  iterations ← put_ix hall (i32 (n + 1)) iterations;
  Some (sin_hall, cos_hall, iterations).

(** [n] positions, [i], [i + step], ... degrees. *)
Fixpoint hall_turn (n : nat) (i step : Z) (t : hall_sums) : M hall_sums :=
  match n with
  | O => mret t
  | S n =>
      override_phase (f_of_int i * M_PI / f_of_int 180)%f32;;
      chThdSleepMilliseconds 5;;
      hall ← foc_run read_hall;
      angle ← foc_run (fvar m_phase_now_override);
      t ← lift_opt (add_hall hall angle t);
      hall_turn n (i + step) step t
  end.

Fixpoint hall_turns (k : nat) (n : nat) (i step : Z) (t : hall_sums) : M hall_sums :=
  match k with
  | O => mret t
  | S k => t ← hall_turn n i step t; hall_turns k n i step t
  end.

(** One entry of the table. *)
Definition hall_entry (s c : f32) (n : Z) : Z :=
  if 30 <? n then
    let ang := utils_norm_angle (atan2f s c * f_of_int 180 / M_PI)%f32 in
    u8 (f2u32 (ang * f_of_int 200 / f_of_int 360)%f32)
  else 255.

(** The table and the number of invalid entries. *)
Definition hall_result (t : hall_sums) : list Z * Z :=
  let '(sin_hall, cos_hall, iterations) := t in
  let table := zip_with (fun sc n => hall_entry sc.1 sc.2 n) (zip sin_hall cos_hall) iterations in
  (table, Z.of_nat (length (filter (fun n => n <= 30) iterations))).

Definition mcpwm_foc_hall_detect (current : f32) : M (bool * list Z) :=
  mc_interface_lock;;
  start_override current f0;;
  tout ← timeout_get_timeout_msec;
  tout_c ← timeout_get_brake_current;
  timeout_configure 60000 f0;;
  override_phase f0;;
  chThdSleepMilliseconds 1000;;
  let t := (replicate 8 f0, replicate 8 f0, replicate 8 0) in
  t ← hall_turns 3 360 0 1 t;
  t ← hall_turns 3 361 360 (-1) t;
  stop_override;;
  timeout_configure tout tout_c;;
  let '(table, fails) := hall_result t in
  mc_interface_unlock;;
  mret (fails =? 2, table).

(** ** Encoder *)

Definition the_encoder : M f32 := foc_run (ang m_phase_now_encoder).
Definition the_override : M f32 := foc_run (fvar m_phase_now_override).

(** [while (!encoder_index_found()) { one turn; if (++cnt > 30) break; }] *)
Fixpoint find_index (n : nat) : M unit :=
  match n with
  | O => mret tt
  | S n =>
      found ← foc_run (finp foc_encoder_index_found);
      if found : bool then mret tt
      else rotate_up rotate_fuel f0 M_2PI rotate_step 1;; find_index n
  end.

(** [(2.0 / 3.0) * M_PI] *)
Definition third_turn : f32 := (TWO_THIRDS * M_PI)%f32.

(** One movement by a third of an electrical turn: the angle the encoder moved. *)
Definition third_step (up : bool) : M f32 :=
  phase_old ← the_encoder;
  p ← the_override;
  (if up then rotate_up rotate_fuel p (p + third_turn)%f32 rotate_step 1
   else rotate_down rotate_fuel p (p - third_turn)%f32 rotate_step 1);;
  p ← the_override;
  p ← lift_opt (utils_norm_angle_rad angle_fuel p);
  override_phase p;;
  chThdSleepMilliseconds 300;;
  phase ← the_encoder;
  lift_opt (if up then utils_angle_difference_rad angle_fuel phase phase_old
            else utils_angle_difference_rad angle_fuel phase_old phase).

(** At most [n] movements, until the encoder is back at [first]. *)
Fixpoint third_steps (n : nat) (up : bool) (i : Z) (first s_sum c_sum : f32) : M (f32 * f32) :=
  match n with
  | O => mret (s_sum, c_sum)
  | S n =>
      diff ← third_step up;
      let '(s, c) := sincosf diff in
      let s_sum := (s_sum + s)%f32 in
      let c_sum := (c_sum + c)%f32 in
      phase ← the_encoder;
      d ← lift_opt (utils_angle_difference_rad angle_fuel phase first);
      if (3 <? i) && (fabs d <? fabs (diff / f_of_int 2))%f32 then mret (s_sum, c_sum)
      else third_steps n up (i + 1) first s_sum c_sum
  end.

(** The offset at one of [it_ofs] positions. *)
Definition offset_step (it_ofs i : Z) (s_sum c_sum : f32) : M (f32 * f32) :=
  ratio ← the_conf foc_encoder_ratio;
  override_phase (f_of_int i * f_of_int 2 * M_PI * ratio / f_of_int it_ofs)%f32;;
  chThdSleepMilliseconds 500;;
  phase ← the_encoder;
  p ← the_override;
  diff ← lift_opt (utils_angle_difference_rad angle_fuel phase p);
  let '(s, c) := sincosf diff in
  mret (s_sum + s, c_sum + c)%f32.

Fixpoint offset_steps (n : nat) (it_ofs i step : Z) (s_sum c_sum : f32) : M (f32 * f32) :=
  match n with
  | O => mret (s_sum, c_sum)
  | S n =>
      '(s_sum, c_sum) ← offset_step it_ofs i s_sum c_sum;
      offset_steps n it_ofs (i + step) step s_sum c_sum
  end.

(** [atan2f(s, c) * 180.0 / M_PI] *)
Definition atan2_deg (s c : f32) : f32 := (atan2f s c * f_of_int 180 / M_PI)%f32.

(** Inversion and ratio from the sums. *)
Definition inverted_ratio (s_sum c_sum : f32) : bool * f32 :=
  let diff := atan2_deg s_sum c_sum in
  ((diff <? f0)%f32, roundf (TWO_THIRDS * f_of_int 180 / fabs diff)%f32).

(** The offset, the ratio and whether the encoder is inverted. *)
Definition mcpwm_foc_encoder_detect (current : f32) : M (f32 * f32 * bool) :=
  mc_interface_lock;;
  start_override current f0;;
  tout ← timeout_get_timeout_msec;
  tout_c ← timeout_get_brake_current;
  timeout_configure 600000 f0;;
  c_old ← mci m_conf;
  set_conf (fun c => c <| foc_encoder_offset := f0 |> <| foc_encoder_inverted := false |>
                       <| foc_encoder_ratio := f1 |>);;
  find_index 31;;
  rotate_up rotate_fuel f0 M_2PI rotate_step 1;;
  chThdSleepMilliseconds 1000;;
  first ← the_encoder;
  '(s_sum, c_sum) ← third_steps 20 true 0 first f0 f0;
  first ← the_encoder;
  '(s_sum, c_sum) ← third_steps 20 false 0 first s_sum c_sum;
  let '(inverted, ratio) := inverted_ratio s_sum c_sum in
  set_conf (fun c => c <| foc_encoder_inverted := inverted |> <| foc_encoder_ratio := ratio |>);;
  p ← the_override;
  rotate_up rotate_fuel p M_2PI rotate_step 2;;
  ratio_now ← the_conf foc_encoder_ratio;
  let it_ofs := f2i32 (ratio_now * f_of_int 3)%f32 in
  '(s_sum, c_sum) ← offset_steps (Z.to_nat it_ofs) it_ofs 0 1 f0 f0;
  '(s_sum, c_sum) ← offset_steps (Z.to_nat it_ofs) it_ofs it_ofs (-1) s_sum c_sum;
  let offset := utils_norm_angle (atan2_deg s_sum c_sum) in
  stop_override;;
  set_conf (fun c => c <| foc_encoder_inverted := foc_encoder_inverted c_old |>
                       <| foc_encoder_offset := foc_encoder_offset c_old |>
                       <| foc_encoder_ratio := foc_encoder_ratio c_old |>);;
  timeout_configure tout tout_c;;
  mc_interface_unlock;;
  mret (offset, ratio, inverted).
End FocMeasure.
