(* ===== verification/FocSvm.v ===== *)
(** * FocSvm: the space vector modulation realises the requested vector

    [svm] turns a vector in the stator frame into the three switching times of
    the bridge.  Up to the rounding of two ticks, the switching times realise
    the vector in all six sectors, and they lie within the PWM period. *)
From Stdlib Require Import Reals Lra.
From S2P Require Import Prelude Float32 FloatExact FloatRound Utils Foc.
#[local] Open Scope R_scope.

(** ** The constants *)

Definition k3 : R := / sqrt 3.

Lemma sqrt3_sq : sqrt 3 * sqrt 3 = 3.
Proof. apply sqrt_sqrt. lra. Qed.

Lemma sqrt3_bounds : 1.7320508 < sqrt 3 < 1.7320509.
Proof.
  split.
  - rewrite <- (sqrt_square 1.7320508) by lra. apply sqrt_lt_1; lra.
  - rewrite <- (sqrt_square 1.7320509) by lra. apply sqrt_lt_1; lra.
Qed.

Lemma k3_sq : k3 * k3 = / 3.
Proof.
  unfold k3. pose proof sqrt3_bounds. rewrite <- Rinv_mult. f_equal. apply sqrt3_sq.
Qed.

Lemma k3_bounds : 0.57735026 < k3 < 0.57735028.
Proof. pose proof k3_sq. assert (0 < k3) by (apply Rinv_0_lt_compat; pose proof sqrt3_bounds; lra). split; nra. Qed.

Lemma k3_sqrt : sqrt 3 / 2 * (2 * k3) = 1.
Proof. unfold k3. pose proof sqrt3_bounds. field. lra. Qed.

Lemma one_by_sqrt3 : fok ONE_BY_SQRT3 = true /\ Rabs (fr ONE_BY_SQRT3 - k3) <= 0.00000004.
Proof.
  split; [by vm_compute|]. rewrite (fr_lit ONE_BY_SQRT3 9686330 24) by (by vm_compute).
  change (2 ^ 24)%Z with 16777216%Z. pose proof k3_bounds. unfold Rabs. destruct (Rcase_abs _); lra.
Qed.

Lemma two_by_sqrt3 : fok TWO_BY_SQRT3 = true /\ Rabs (fr TWO_BY_SQRT3 - 2 * k3) <= 0.00000008.
Proof.
  split; [by vm_compute|]. rewrite (fr_lit TWO_BY_SQRT3 9686330 23) by (by vm_compute).
  change (2 ^ 23)%Z with 8388608%Z. pose proof k3_bounds. unfold Rabs. destruct (Rcase_abs _); lra.
Qed.

(** ** Sums and products of small numbers *)

Definition small_err : R := b2 (-150).

Lemma fmul_err x y B :
  fok x = true -> fok y = true -> Rabs (fr x * fr y) <= B -> B <= 1000000 ->
  fok (x * y)%f32 = true /\ Rabs (fr (x * y)%f32 - fr x * fr y) <= B / 16777216 + b2 (-150).
Proof.
  intros Hx Hy HB HB2. pose proof b2_127. assert (Ha : approx (fr x * fr y) (x * y)%f32).
  { apply nearest_approx; [by apply fmul_nearest|lra]. }
  split; [apply Ha|by apply approx_err].
Qed.

Lemma fadd_err x y B :
  fok x = true -> fok y = true -> Rabs (fr x + fr y) <= B -> B <= 1000000 ->
  fok (x + y)%f32 = true /\ Rabs (fr (x + y)%f32 - (fr x + fr y)) <= B / 16777216 + b2 (-150).
Proof.
  intros Hx Hy HB HB2. pose proof b2_127. assert (Ha : approx (fr x + fr y) (x + y)%f32).
  { apply nearest_approx; [by apply fadd_nearest|lra]. }
  split; [apply Ha|by apply approx_err].
Qed.

(** A difference of numbers in order is not negative. *)
Lemma fadd_nonneg x y :
  fok x = true -> fok y = true -> fok (x + y)%f32 = true -> 0 <= fr x + fr y -> 0 <= fr (x + y)%f32.
Proof. intros Hx Hy Hz H. apply (nearest_nonneg (fr x + fr y)); [by apply fadd_nearest|done|done]. Qed.

Lemma fmul_opp_l x y : (- x * y)%f32 = (- (x * y))%f32.
Proof.
  destruct x as [sx|sx| |sx mx ex], y as [sy|sy| |sy my ey]; try done; cbn; try by destruct sx, sy.
  unfold fmul, SFmul, fopp, SFopp. rewrite <- negb_xorb_l. unfold binary_round_aux.
  destruct (shr_fexp 24 128 (Z.pos (mx * my)) (ex + ey) loc_Exact) as [m1 e1].
  destruct (shr_fexp 24 128 (round_nearest_even (shr_m m1) (loc_of_shr_record m1)) e1 loc_Exact) as [m2 e2].
  destruct (shr_m m2); [done| |done]. by destruct (Z.leb e2 (128 - 24)).
Qed.

(** ** One on-time *)

(** The time [t] for the value [u], on a timer with period [half]. *)
Definition on_time (u : R) (half t : Z) : Prop :=
  (0 <= t)%Z /\ u * IZR half - 0.000001 * IZR half - 1.0001 <= IZR t <= u * IZR half + 0.000001 * IZR half + 0.0001.

Lemma ticks_on_time z u half :
  fok z = true -> 0 <= fr z -> Rabs (fr z - u) <= 0.0000006 -> Rabs u <= 1.4 -> (0 <= half < 65536)%Z ->
  on_time u half (f2u32 (z * f_of_int half)%f32).
Proof.
  intros Hz H0 He Hu Hh. destruct (fr_of_int half) as [Hi Hv]; [unfold small; lia|].
  destruct Hh as [Hh1 Hh2]. apply IZR_le in Hh1 as HhR. assert (HhR2 : IZR half <= 65535) by (apply IZR_le; lia).
  pose proof b2_m150. pose proof (Rle_abs u). pose proof (Rabs_pos u).
  assert (Hz1 : fr z <= 1.4000006) by (revert He; unfold Rabs; repeat destruct (Rcase_abs _); lra).
  assert (Hz2 : - 0.0000006 <= fr z - u <= 0.0000006) by (revert He; unfold Rabs; destruct (Rcase_abs _); lra).
  assert (Hp : 0 <= fr z * IZR half <= 1.4000006 * IZR half) by nra.
  destruct (fmul_err z (f_of_int half) (1.4000006 * IZR half)) as [Hok Herr]; [done|done| |lra|].
  { rewrite Hv, Rabs_right by lra. lra. }
  rewrite Hv in Herr. set (w := (z * f_of_int half)%f32) in *.
  assert (Hw0 : 0 <= fr w).
  { apply (nearest_nonneg (fr z * IZR half)); [rewrite <- Hv; by apply fmul_nearest|done|lra]. }
  assert (Hw : - (1.4000006 * IZR half / 16777216 + b2 (-150)) <= fr w - fr z * IZR half
               <= 1.4000006 * IZR half / 16777216 + b2 (-150)).
  { revert Herr. unfold Rabs. destruct (Rcase_abs _); lra. }
  destruct (f2u32_trunc w Hok) as [Ht [Ht0 _]]; [split; [done|]; nra|]. split; [done|]. nra.
Qed.

(** ** The two on-times of each sector *)

(** What they are for the exact vector [(a, b)]. *)
Definition sector_times (sector : Z) (a b : R) : R * R :=
  if (sector =? 1)%Z then (a - k3 * b, 2 * k3 * b)
  else if (sector =? 2)%Z then (a + k3 * b, - a + k3 * b)
  else if (sector =? 3)%Z then (2 * k3 * b, - a - k3 * b)
  else if (sector =? 4)%Z then (- a + k3 * b, - (2 * k3 * b))
  else if (sector =? 5)%Z then (- a - k3 * b, a - k3 * b)
  else (- (2 * k3 * b), a + k3 * b).

Section Vector.
Context (alpha beta : f32) (half : Z).
Context (Ha : fok alpha = true) (Hb : fok beta = true) (Hh : (0 <= half < 65536)%Z).
Context (Hmag : fr alpha * fr alpha + fr beta * fr beta <= 0.866 * 0.866).
Abbreviation a := (fr alpha).
Abbreviation b := (fr beta).

Lemma mag_alpha : -0.866 <= a <= 0.866.
Proof. split; nra. Qed.
Lemma mag_beta : -0.866 <= b <= 0.866.
Proof. split; nra. Qed.

(** The longest vector reaches 99.998 % of the period. *)
Lemma mag_sum x : x = a \/ x = - a -> x + k3 * b <= 0.99998 /\ x - k3 * b <= 0.99998.
Proof.
  intros Hx. pose proof k3_sq as Hk. assert (Hxx : x * x = a * a) by (destruct Hx as [-> | ->]; lra).
  assert (H1 : (x + k3 * b) * (x + k3 * b) <= 0.99995).
  { assert (0 <= (k3 * x - b) * (k3 * x - b)) by apply Rle_0_sqr. nra. }
  assert (H2 : (x - k3 * b) * (x - k3 * b) <= 0.99995).
  { assert (0 <= (k3 * x + b) * (k3 * x + b)) by apply Rle_0_sqr. nra. }
  split; nra.
Qed.

Lemma mag_two : -0.99998 <= 2 * k3 * b <= 0.99998.
Proof. pose proof k3_bounds. pose proof mag_beta. split; nra. Qed.

Abbreviation p := (ONE_BY_SQRT3 * beta)%f32.
Abbreviation q := (TWO_BY_SQRT3 * beta)%f32.

Lemma p_near : fok p = true /\ Rabs (fr p - k3 * b) <= 0.0000001.
Proof.
  destruct one_by_sqrt3 as [Hok He]. pose proof mag_beta. pose proof k3_bounds. pose proof b2_m150.
  assert (He' : -0.00000004 <= fr ONE_BY_SQRT3 - k3 <= 0.00000004) by (revert He; unfold Rabs; destruct (Rcase_abs _); lra).
  destruct (fmul_err ONE_BY_SQRT3 beta 0.6) as [Hp Hpe]; [done|done| |lra|].
  { apply Rabs_le. nra. }
  split; [done|]. apply Rabs_le. revert Hpe. unfold Rabs. destruct (Rcase_abs _); nra.
Qed.

Lemma q_near : fok q = true /\ Rabs (fr q - 2 * k3 * b) <= 0.0000003.
Proof.
  destruct two_by_sqrt3 as [Hok He]. pose proof mag_beta. pose proof k3_bounds. pose proof b2_m150.
  assert (He' : -0.00000008 <= fr TWO_BY_SQRT3 - 2 * k3 <= 0.00000008) by (revert He; unfold Rabs; destruct (Rcase_abs _); lra).
  destruct (fmul_err TWO_BY_SQRT3 beta 1.1) as [Hp Hpe]; [done|done| |lra|].
  { apply Rabs_le. nra. }
  split; [done|]. apply Rabs_le. revert Hpe. unfold Rabs. destruct (Rcase_abs _); nra.
Qed.

(** The sums [x + y] for [x = alpha] or its opposite, [y] near [k3 b] or its opposite. *)
Lemma sum_on_time x y v :
  fok x = true -> fok y = true -> -0.866 <= fr x <= 0.866 -> Rabs (fr y - v) <= 0.0000001 ->
  -0.51 <= v <= 0.51 -> 0 <= fr x + fr y ->
  on_time (fr x + v) half (f2u32 ((x + y) * f_of_int half)%f32).
Proof.
  intros Hx Hy Hxb Hyv Hv H0. pose proof b2_m150.
  assert (Hyv' : -0.0000001 <= fr y - v <= 0.0000001) by (revert Hyv; unfold Rabs; destruct (Rcase_abs _); lra).
  destruct (fadd_err x y 1.4) as [Hok He]; [done|done|apply Rabs_le; lra|lra|].
  apply ticks_on_time; [done|by apply fadd_nonneg| | |done].
  - apply Rabs_le. revert He. unfold Rabs. destruct (Rcase_abs _); lra.
  - apply Rabs_le. lra.
Qed.

Lemma opp_near y v : fok y = true -> Rabs (fr y - v) <= 0.0000001 ->
  fok (- y)%f32 = true /\ Rabs (fr (- y)%f32 - - v) <= 0.0000001.
Proof.
  intros Hy H. rewrite fopp_ok, fr_opp. split; [done|].
  replace (- fr y - - v) with (- (fr y - v)) by lra. by rewrite Rabs_Ropp.
Qed.

Lemma opp_mag x : -0.866 <= fr x <= 0.866 -> -0.866 <= fr (- x)%f32 <= 0.866.
Proof. rewrite fr_opp. lra. Qed.

Lemma p_sign : (0 <= b -> 0 <= fr p) /\ (b <= 0 -> fr p <= 0).
Proof.
  destruct p_near as [Hp _]. destruct one_by_sqrt3 as [Hc _].
  assert (0 <= fr ONE_BY_SQRT3) by (rewrite (fr_lit ONE_BY_SQRT3 9686330 24) by (by vm_compute); lra).
  split; intros H1.
  - apply (nearest_nonneg (fr ONE_BY_SQRT3 * b)); [by apply fmul_nearest|done|nra].
  - change 0 with (fr f0). apply (nearest_le (fr ONE_BY_SQRT3 * b)); [by apply fmul_nearest|done|done|cbn [fr f0]; nra].
Qed.

Lemma q_sign : (0 <= b -> 0 <= fr q) /\ (b <= 0 -> fr q <= 0).
Proof.
  destruct q_near as [Hp _]. destruct two_by_sqrt3 as [Hc _].
  assert (0 <= fr TWO_BY_SQRT3) by (rewrite (fr_lit TWO_BY_SQRT3 9686330 23) by (by vm_compute); lra).
  split; intros H1.
  - apply (nearest_nonneg (fr TWO_BY_SQRT3 * b)); [by apply fmul_nearest|done|nra].
  - change 0 with (fr f0). apply (nearest_le (fr TWO_BY_SQRT3 * b)); [by apply fmul_nearest|done|done|cbn [fr f0]; nra].
Qed.

(** [x + p] and [x - p] for [x = alpha] or [x = - alpha]. *)
Lemma plus_on_time x : fok x = true -> -0.866 <= fr x <= 0.866 -> 0 <= fr x + fr p ->
  on_time (fr x + k3 * b) half (f2u32 ((x + p) * f_of_int half)%f32).
Proof.
  intros Hx Hm H0. destruct p_near as [Hp He]. pose proof mag_beta. pose proof k3_bounds.
  by apply sum_on_time; [| | | |nra|].
Qed.

Lemma minus_on_time x : fok x = true -> -0.866 <= fr x <= 0.866 -> 0 <= fr x - fr p ->
  on_time (fr x - k3 * b) half (f2u32 ((x - p) * f_of_int half)%f32).
Proof.
  intros Hx Hm H0. destruct p_near as [Hp He]. pose proof mag_beta. pose proof k3_bounds.
  destruct (opp_near _ _ Hp He) as [Hp' He']. rewrite fsub_add.
  apply sum_on_time; [done|done|done|done|nra|]. rewrite fr_opp. lra.
Qed.

Lemma two_on_time : 0 <= b -> on_time (2 * k3 * b) half (f2u32 (q * f_of_int half)%f32).
Proof.
  intros H0. destruct q_near as [Hq He]. pose proof mag_two. destruct q_sign as [Hs _].
  apply ticks_on_time; [done|auto|lra|apply Rabs_le; lra|done].
Qed.

Lemma two_opp_on_time : b <= 0 ->
  on_time (- (2 * k3 * b)) half (f2u32 (- TWO_BY_SQRT3 * beta * f_of_int half)%f32).
Proof.
  intros H0. destruct q_near as [Hq He]. pose proof mag_two. destruct q_sign as [_ Hs]. specialize (Hs H0).
  rewrite fmul_opp_l. apply ticks_on_time; [by rewrite fopp_ok|rewrite fr_opp; lra| |apply Rabs_le; lra|done].
  rewrite fr_opp. replace (- fr q - - (2 * k3 * b)) with (- (fr q - 2 * k3 * b)) by lra.
  rewrite Rabs_Ropp. lra.
Qed.

Definition times_ok (sector : Z) : Prop :=
  (1 <= sector <= 6)%Z /\
  let '(u1, u2) := sector_times sector a b in
  let '(t1, t2) := svm_times sector alpha beta half in
  on_time u1 half t1 /\ on_time u2 half t2 /\ u1 + u2 <= 0.99998.

Lemma sector_ok : times_ok (svm_sector alpha beta).
Proof.
  destruct p_near as [Hp _]. destruct p_sign as [Hp1 Hp2]. pose proof mag_alpha as Hma.
  pose proof mag_two as Hm2. pose proof (mag_sum a (or_introl eq_refl)) as Hs1.
  pose proof (mag_sum (- a) (or_intror eq_refl)) as Hs2.
  assert (Hna : fok (- alpha)%f32 = true) by by rewrite fopp_ok.
  pose proof (opp_mag alpha Hma) as Hmo.
  pose proof (fr_opp alpha) as Hfo.
  unfold svm_sector. rewrite fmul_opp_l.
  destruct (f0 <=? beta)%f32 eqn:Eb; destruct (f0 <=? alpha)%f32 eqn:Ea;
    [apply fleb_fr in Eb; [|done..]|apply fleb_fr in Eb; [|done..]
    |apply fleb_fr_false in Eb; [|done..]|apply fleb_fr_false in Eb; [|done..]];
    (apply fleb_fr in Ea || apply fleb_fr_false in Ea); try done;
    change (fr f0) with 0 in *.
  - destruct (alpha <? p)%f32 eqn:E; [apply fltb_fr in E; [|done..]|apply fltb_fr_false in E; [|done..]];
      (split; [lia|]); cbn [sector_times svm_times Z.eqb Pos.eqb].
    + pose proof (plus_on_time alpha Ha Hma ltac:(lra)). pose proof (plus_on_time _ Hna Hmo ltac:(lra)) as H2.
      rewrite Hfo in H2. split; [done|]. split; [done|lra].
    + pose proof (minus_on_time alpha Ha Hma ltac:(lra)). pose proof (two_on_time Eb).
      split; [done|]. split; [done|lra].
  - destruct (alpha <? - p)%f32 eqn:E;
      [apply fltb_fr in E; [|done|by rewrite fopp_ok]|apply fltb_fr_false in E; [|done|by rewrite fopp_ok]];
      rewrite fr_opp in E; (split; [lia|]); cbn [sector_times svm_times Z.eqb Pos.eqb].
    + pose proof (minus_on_time _ Hna Hmo ltac:(lra)) as H2. rewrite Hfo in H2. pose proof (two_on_time Eb).
      split; [done|]. split; [done|lra].
    + pose proof (plus_on_time alpha Ha Hma ltac:(lra)).
      pose proof (plus_on_time _ Hna Hmo ltac:(specialize (Hp1 Eb); lra)) as H2.
      rewrite Hfo in H2. split; [done|]. split; [done|lra].
  - destruct (alpha <? - p)%f32 eqn:E;
      [apply fltb_fr in E; [|done|by rewrite fopp_ok]|apply fltb_fr_false in E; [|done|by rewrite fopp_ok]];
      rewrite fr_opp in E; (split; [lia|]); cbn [sector_times svm_times Z.eqb Pos.eqb].
    + pose proof (minus_on_time _ Hna Hmo ltac:(lra)) as H2. rewrite Hfo in H2.
      pose proof (minus_on_time alpha Ha Hma ltac:(specialize (Hp2 ltac:(lra)); lra)).
      split; [done|]. split; [done|lra].
    + pose proof (plus_on_time alpha Ha Hma ltac:(lra)). pose proof (two_opp_on_time ltac:(lra)).
      split; [done|]. split; [done|lra].
  - destruct (alpha <? p)%f32 eqn:E; [apply fltb_fr in E; [|done..]|apply fltb_fr_false in E; [|done..]];
      (split; [lia|]); cbn [sector_times svm_times Z.eqb Pos.eqb].
    + pose proof (plus_on_time _ Hna Hmo ltac:(lra)) as H2. rewrite Hfo in H2.
      pose proof (two_opp_on_time ltac:(lra)). split; [done|]. split; [done|lra].
    + pose proof (minus_on_time _ Hna Hmo ltac:(lra)) as H2. rewrite Hfo in H2.
      pose proof (minus_on_time alpha Ha Hma ltac:(lra)). split; [done|]. split; [done|lra].
Qed.
End Vector.

(** ** The switching times *)

(** The order in which the phases switch, for on-times that fit. *)
Definition switching (sector t1 t2 half : Z) : Z * Z * Z :=
  let first := ((half - t1 - t2) / 2)%Z in
  let last := (first + t1 + t2)%Z in
  if (sector =? 1)%Z then (first, first + t1, last)%Z
  else if (sector =? 2)%Z then (first + t2, first, last)%Z
  else if (sector =? 3)%Z then (last, first, first + t1)%Z
  else if (sector =? 4)%Z then (last, first + t2, first)%Z
  else if (sector =? 5)%Z then (first + t1, last, first)%Z
  else (first, last, first + t2)%Z.

Lemma svm_no_wrap alpha beta half t1 t2 :
  svm_times (svm_sector alpha beta) alpha beta half = (t1, t2) ->
  (0 <= t1)%Z -> (0 <= t2)%Z -> (t1 + t2 <= half < 65536)%Z ->
  svm alpha beta half = switching (svm_sector alpha beta) t1 t2 half.
Proof.
  intros Ht H1 H2 Hs. unfold svm, switching. rewrite Ht. set (sector := svm_sector alpha beta).
  rewrite !(u32_id (half - t1 - t2)) by (unfold is_u32; lia).
  set (first := ((half - t1 - t2) / 2)%Z).
  assert (Hf : (0 <= first <= half - t1 - t2)%Z) by (unfold first; Z.to_euclidean_division_equations; lia).
  clearbody first sector.
  repeat match goal with |- context [u32 ?x] => rewrite (u32_id x) by (unfold is_u32; lia) end.
  repeat case_match; f_equal; try (f_equal; lia); lia.
Qed.

(** What the three switching times mean for the vector [(a, b)]. *)
Definition realises (a b : R) (half : Z) (times : Z * Z * Z) : Prop :=
  let '(tA, tB, tC) := times in
  (0 <= tA <= half /\ 0 <= tB <= half /\ 0 <= tC <= half)%Z /\
  (half - 1 <= Z.min tA (Z.min tB tC) + Z.max tA (Z.max tB tC) <= half)%Z /\
  Rabs ((IZR tB + IZR tC) / 2 - IZR tA - a * IZR half) <= 2 /\
  Rabs (sqrt 3 / 2 * (IZR tC - IZR tB) - b * IZR half) <= 2.

Lemma sum_fits u1 u2 half t1 t2 :
  (0 <= half < 65536)%Z -> u1 + u2 <= 0.99998 -> on_time u1 half t1 -> on_time u2 half t2 ->
  (t1 + t2 <= half)%Z.
Proof.
  intros [Hh1 Hh2] Hu [_ H1] [_ H2]. apply IZR_le in Hh1.
  assert (t1 + t2 < half + 1)%Z; [|lia]. apply lt_IZR. rewrite !plus_IZR. nra.
Qed.

Lemma switching_realises sector a b half t1 t2 :
  (0 <= half < 65536)%Z -> (1 <= sector <= 6)%Z -> (t1 + t2 <= half)%Z ->
  on_time (sector_times sector a b).1 half t1 -> on_time (sector_times sector a b).2 half t2 ->
  realises a b half (switching sector t1 t2 half).
Proof.
  intros Hh Hs Hsum [H10 H1] [H20 H2]. pose proof k3_sqrt as Hk. pose proof sqrt3_bounds as Hs3.
  assert (Hh0 : 0 <= IZR half <= 65535) by (split; apply IZR_le; lia).
  assert (Hbh : forall r, sqrt 3 / 2 * (2 * k3 * r) = r).
  { intros r. rewrite <- Rmult_assoc, Hk. lra. }
  assert (Hmul : forall x e, - e <= x <= e -> - (0.8661 * e) <= sqrt 3 / 2 * x <= 0.8661 * e).
  { intros x e Hx. nra. }
  pose proof (Hbh (b * IZR half)) as Hb.
  assert (Hs6 : (sector = 1 \/ sector = 2 \/ sector = 3 \/ sector = 4 \/ sector = 5 \/ sector = 6)%Z) by lia.
  unfold switching. set (first := ((half - t1 - t2) / 2)%Z).
  assert (Hf : (0 <= first /\ half - 1 <= 2 * first + t1 + t2 <= half)%Z)
    by (unfold first; Z.to_euclidean_division_equations; lia).
  clearbody first.
  destruct Hs6 as [-> |[-> |[-> |[-> |[-> | ->]]]]]; cbn [sector_times Z.eqb Pos.eqb fst snd] in *;
    unfold realises; (split; [lia|]); (split; [lia|]); rewrite !plus_IZR.
  - specialize (Hmul (IZR t2 - 2 * k3 * b * IZR half) 2 ltac:(lra)).
    split; apply Rabs_le; lra.
  - specialize (Hmul (IZR t1 + IZR t2 - 2 * k3 * b * IZR half) 2.2 ltac:(lra)).
    split; apply Rabs_le; lra.
  - specialize (Hmul (IZR t1 - 2 * k3 * b * IZR half) 2 ltac:(lra)).
    split; apply Rabs_le; lra.
  - specialize (Hmul (IZR t2 + 2 * k3 * b * IZR half) 2 ltac:(lra)).
    split; apply Rabs_le; lra.
  - specialize (Hmul (IZR t1 + IZR t2 + 2 * k3 * b * IZR half) 2.2 ltac:(lra)).
    split; apply Rabs_le; lra.
  - specialize (Hmul (IZR t1 + 2 * k3 * b * IZR half) 2 ltac:(lra)).
    split; apply Rabs_le; lra.
Qed.

Lemma svm_realises alpha beta half :
  fok alpha = true -> fok beta = true ->
  fr alpha * fr alpha + fr beta * fr beta <= 0.866 * 0.866 -> (0 <= half < 65536)%Z ->
  realises (fr alpha) (fr beta) half (svm alpha beta half).
Proof.
  intros Ha Hb Hmag Hh. pose proof (sector_ok alpha beta half Ha Hb Hh Hmag) as [Hs H].
  destruct (svm_times (svm_sector alpha beta) alpha beta half) as [t1 t2] eqn:Et.
  pose proof (switching_realises (svm_sector alpha beta) (fr alpha) (fr beta) half t1 t2 Hh Hs) as Hr.
  destruct (sector_times (svm_sector alpha beta) (fr alpha) (fr beta)) as [u1 u2].
  destruct H as (H1 & H2 & Hu). pose proof (sum_fits _ _ _ _ _ Hh Hu H1 H2) as Hfit.
  rewrite (svm_no_wrap alpha beta half t1 t2 Et); [by apply Hr|apply H1|apply H2|lia].
Qed.

(** C17. For a modulation vector of length at most 0.866 the switching
    times of the space vector modulation lie within the period, centred in
    it, and realise both components of the vector up to two ticks, in all
    six sectors. *)
Theorem svm_realises_vector alpha beta half :
  fok alpha = true -> fok beta = true ->
  fr alpha * fr alpha + fr beta * fr beta <= 0.866 * 0.866 -> (0 <= half < 65536)%Z ->
  realises (fr alpha) (fr beta) half (svm alpha beta half).
Proof. apply svm_realises. Qed.

(** A vector of length 0.5 at 45 degrees, on a timer with 8400 ticks. *)
Lemma svm_realises_vector_witness :
  svm (flit 35 100) (flit 35 100) 8400 = (1882, 3124, 6518)%Z /\
  realises (fr (flit 35 100)) (fr (flit 35 100)) 8400 (svm (flit 35 100) (flit 35 100) 8400).
Proof.
  split; [vm_compute; reflexivity|].
  apply svm_realises_vector; [vm_compute; reflexivity|vm_compute; reflexivity| |lia].
  rewrite (fr_lit (flit 35 100) 11744051 25) by (vm_compute; reflexivity).
  change (2 ^ 25)%Z with 33554432%Z. lra.
Defined.
