(* ===== verification/FocControl.v ===== *)
(** * FocControl: the current controller keeps the bridge within its period (src/mcpwm_foc.c)

    [control_current] limits the modulation, turns it into the stator frame and
    writes the three duty registers.  For every phase, current and voltage the
    variables can hold, NaN and infinities included, the registers hold switching
    times within the period which realise the modulation vector.  At the end,
    when the loops that wrap angles end. *)
From Stdlib Require Import Reals Lra.
From S2P Require Import Prelude Float32 FloatExact FloatRound FloatVector FastSin.
From S2P Require Import McTypes ConfDefault Motor Utils McpwmState FocState Foc FocSvm.
#[local] Open Scope R_scope.
#[local] Opaque b2.

(** ** Every operation computes a number of the format *)

Lemma fmul_valid x y : fvalid x = true -> fvalid y = true -> fvalid (x * y)%f32 = true.
Proof.
  intros Hx Hy. destruct (fvalid_cases x Hx) as [Hx'|Hx'], (fvalid_cases y Hy) as [Hy'|Hy'];
    [|by destruct x as [|[]| |[]], y as [|[]| |[]]..].
  eapply nearest_valid. by apply fmul_nearest.
Qed.

Lemma fdiv_valid x y : fvalid x = true -> fvalid y = true -> fvalid (x / y)%f32 = true.
Proof.
  intros Hx Hy. destruct (fvalid_cases x Hx) as [Hx'|Hx'], (fvalid_cases y Hy) as [Hy'|Hy'];
    [|by destruct x as [|[]| |[]], y as [|[]| |[]]..].
  destruct y as [s|s| |s m e]; try done; [by destruct x as [|[]| |[]], s|].
  eapply nearest_valid. apply fdiv_nearest; [done|done|]. cbn [fr].
  assert (0 < IZR (Z.pos m)) by (by apply IZR_lt). pose proof (b2_pos e). unfold sgn. destruct s; nra.
Qed.

Lemma fabs_valid x : fvalid (fabs x) = fvalid x.
Proof. by destruct x. Qed.

(** ** NaN spreads *)

Lemma fmul_nan x y : is_nan y = true -> is_nan (x * y)%f32 = true.
Proof. by destruct y, x. Qed.
Lemma fadd_nan x y : is_nan x = true \/ is_nan y = true -> is_nan (x + y)%f32 = true.
Proof. by intros [H|H]; destruct x as [|[]| |[]], y as [|[]| |[]]. Qed.
Lemma fsub_nan x y : is_nan x = true \/ is_nan y = true -> is_nan (x - y)%f32 = true.
Proof. by intros [H|H]; destruct x as [|[]| |[]], y as [|[]| |[]]. Qed.

(** ** Limits *)

Lemma truncate_range x lo hi :
  is_nan x = false -> fvalid x = true -> fok lo = true -> fok hi = true -> fr lo <= fr hi ->
  fok (truncate x lo hi) = true /\ fr lo <= fr (truncate x lo hi) <= fr hi.
Proof.
  intros Hn Hv Hl Hh Hlh. unfold truncate, utils_truncate_number.
  destruct (fvalid_cases x Hv) as [Hx|Hs].
  - destruct (hi <? x)%f32 eqn:E1; cbn [fst]; [by split; [|lra]|].
    apply fltb_fr_false in E1; [|done..].
    destruct (x <? lo)%f32 eqn:E2; cbn [fst]; [by split; [|lra]|].
    apply fltb_fr_false in E2; [|done..]. split; [done|]. cbn [fst]. lra.
  - destruct x as [|[]| |]; try done.
    + assert ((hi <? S754_infinity true)%f32 = false) as -> by (by destruct hi as [| | |[]]).
      assert ((S754_infinity true <? lo)%f32 = true) as -> by (by destruct lo as [| | |[]]).
      cbn [fst]. by split; [|lra].
    + assert ((hi <? S754_infinity false)%f32 = true) as -> by (by destruct hi as [| | |[]]).
      cbn [fst]. by split; [|lra].
Qed.

(** ** The rotation of the modulation *)

Lemma rotate_term x y B :
  fok x = true -> fok y = true -> - B <= fr x * fr y <= B -> 0 <= B <= 1 ->
  fok (x * y)%f32 = true /\ fr x * fr y - 0.0000001 <= fr (x * y)%f32 <= fr x * fr y + 0.0000001.
Proof.
  intros Hx Hy HB HB1. destruct (fmul_bound x y B Hx Hy HB ltac:(lra)) as [Hok H]. split; [done|]. lra.
Qed.

Section Rotate.
Context (s c d q : f32).
Context (Hs : fok s = true) (Hc : fok c = true) (Hd : fok d = true) (Hq : fok q = true).
Context (Hsc : fr s * fr s + fr c * fr c <= 1.062) (Hdq : fr d * fr d + fr q * fr q <= 0.8315 * 0.8315).

Lemma product_bound u v : u * u <= 1.062 -> v * v <= 0.8315 * 0.8315 -> - (0.87) <= u * v <= 0.87.
Proof.
  intros Hu Hv. assert (u * v * (u * v) <= 0.87 * 0.87).
  { replace (u * v * (u * v)) with (u * u * (v * v)) by ring. pose proof (Rle_0_sqr u). pose proof (Rle_0_sqr v).
    unfold Rsqr in *. nra. }
  split; nra.
Qed.

Lemma four_products :
  - (0.87) <= fr c * fr d <= 0.87 /\ - (0.87) <= fr s * fr q <= 0.87 /\
  - (0.87) <= fr c * fr q <= 0.87 /\ - (0.87) <= fr s * fr d <= 0.87.
Proof.
  pose proof (Rle_0_sqr (fr s)). pose proof (Rle_0_sqr (fr c)). pose proof (Rle_0_sqr (fr d)).
  pose proof (Rle_0_sqr (fr q)). unfold Rsqr in *. repeat split; apply product_bound; lra.
Qed.

(** The exact vector turns by the angle and grows by the length of [(s, c)]. *)
Lemma rotated_length a b :
  fr c * fr d - fr s * fr q - 0.0000005 <= a <= fr c * fr d - fr s * fr q + 0.0000005 ->
  fr c * fr q + fr s * fr d - 0.0000005 <= b <= fr c * fr q + fr s * fr d + 0.0000005 ->
  a * a + b * b <= 0.866 * 0.866.
Proof.
  set (a' := fr c * fr d - fr s * fr q). set (b' := fr c * fr q + fr s * fr d). intros Ha Hb.
  assert (E : a' * a' + b' * b' = (fr s * fr s + fr c * fr c) * (fr d * fr d + fr q * fr q)) by (unfold a', b'; ring).
  assert (H : a' * a' + b' * b' <= 0.735).
  { rewrite E. pose proof (Rle_0_sqr (fr s)). pose proof (Rle_0_sqr (fr c)). pose proof (Rle_0_sqr (fr d)).
    pose proof (Rle_0_sqr (fr q)). unfold Rsqr in *. nra. }
  clearbody a' b'. clear E. pose proof (Rle_0_sqr a'). pose proof (Rle_0_sqr b'). unfold Rsqr in *.
  assert (- 1 <= a' <= 1 /\ - 1 <= b' <= 1) as [Ha' Hb'] by (repeat split; nra).
  assert (a * a <= a' * a' + 0.000002) by nra. assert (b * b <= b' * b' + 0.000002) by nra. lra.
Qed.

Lemma rotated :
  let a := (c * d - s * q)%f32 in let b := (c * q + s * d)%f32 in
  fok a = true /\ fok b = true /\ fr a * fr a + fr b * fr b <= 0.866 * 0.866.
Proof.
  destruct four_products as (H1 & H2 & H3 & H4).
  destruct (rotate_term c d 0.87 Hc Hd H1 ltac:(lra)) as [O1 E1].
  destruct (rotate_term s q 0.87 Hs Hq H2 ltac:(lra)) as [O2 E2].
  destruct (rotate_term c q 0.87 Hc Hq H3 ltac:(lra)) as [O3 E3].
  destruct (rotate_term s d 0.87 Hs Hd H4 ltac:(lra)) as [O4 E4].
  destruct (fsub_bound _ _ 1.8 O1 O2 ltac:(lra) ltac:(lra)) as [Oa Ea].
  destruct (fadd_bound _ _ 1.8 O3 O4 ltac:(lra) ltac:(lra)) as [Ob Eb].
  split; [done|]. split; [done|]. apply rotated_length; lra.
Qed.
End Rotate.

(** ** The angle loops end *)

Lemma wrap_up_total n x :
  fok x = true -> - (6 * IZR (Z.of_nat n)) <= fr x <= 1000 -> IZR (Z.of_nat n) <= 165 ->
  exists y, wrap_up (S n) (- M_PI)%f32 M_2PI x = Some y /\ fok y = true /\ fr y <= 1000.
Proof.
  destruct fr_pi as [Hp Hpv]. destruct fr_2pi as [H2 H2v]. pose proof fpi_bounds as Hpi. pose proof b2_m150 as Hb.
  revert x. induction n as [|n IH]; intros x Hx Hr Hn; cbn [wrap_up].
  - destruct (x <? - M_PI)%f32 eqn:E; [|exists x; by split; [|split; [|lra]]].
    apply fltb_fr in E; [|done|by rewrite fopp_ok]. rewrite fr_opp, Hpv in E. change (IZR (Z.of_nat 0)) with 0 in Hr. lra.
  - destruct (x <? - M_PI)%f32 eqn:E; [|exists x; by split; [|split; [|lra]]].
    apply fltb_fr in E; [|done|by rewrite fopp_ok]. rewrite fr_opp, Hpv in E.
    rewrite Nat2Z.inj_succ, <- Z.add_1_r, plus_IZR in Hr, Hn.
    destruct (fadd_err x M_2PI 1000 Hx H2) as [Hok He]; [apply Rabs_le; rewrite H2v; lra|lra|].
    rewrite H2v in He. apply (IH (x + M_2PI)%f32 Hok); [|lra].
    revert He. unfold Rabs. destruct (Rcase_abs _); lra.
Qed.

Lemma wrap_down_total n x :
  fok x = true -> - 4 <= fr x <= 6 * IZR (Z.of_nat n) -> IZR (Z.of_nat n) <= 170 ->
  exists y, wrap_down (S n) M_PI M_2PI x = Some y /\ fok y = true.
Proof.
  destruct fr_pi as [Hp Hpv]. destruct fr_2pi as [H2 H2v]. pose proof fpi_bounds as Hpi. pose proof b2_m150 as Hb.
  revert x. induction n as [|n IH]; intros x Hx Hr Hn; cbn [wrap_down].
  - destruct (M_PI <? x)%f32 eqn:E; [|by exists x].
    apply fltb_fr in E; [|done..]. rewrite Hpv in E. change (IZR (Z.of_nat 0)) with 0 in Hr. lra.
  - destruct (M_PI <? x)%f32 eqn:E; [|by exists x]. apply fltb_fr in E; [|done..]. rewrite Hpv in E.
    rewrite Nat2Z.inj_succ, <- Z.add_1_r, plus_IZR in Hr, Hn.
    assert (H2o : fok (- M_2PI)%f32 = true) by done.
    destruct (fadd_err x (- M_2PI)%f32 1100 Hx H2o) as [Hok He]; [apply Rabs_le; rewrite fr_opp, H2v; lra|lra|].
    rewrite fr_opp, H2v in He. rewrite fsub_add. apply (IH _ Hok); [|lra].
    revert He. unfold Rabs. destruct (Rcase_abs _); lra.
Qed.

(** NaN, or at most 1000 rad. *)
Definition angle_ok (x : f32) : Prop := is_nan x = true \/ fok x = true /\ - 990 <= fr x <= 990.

Lemma wrap_more f1 f2 low turn x y : (f1 <= f2)%nat -> wrap_up f1 low turn x = Some y -> wrap_up f2 low turn x = Some y.
Proof.
  revert f2 x. induction f1 as [|f1 IH]; intros f2 x Hle; [done|]. destruct f2 as [|f2]; [lia|]. cbn [wrap_up].
  destruct (x <? low)%f32; [|done]. apply IH. lia.
Qed.

Lemma wrap_more_down f1 f2 high turn x y :
  (f1 <= f2)%nat -> wrap_down f1 high turn x = Some y -> wrap_down f2 high turn x = Some y.
Proof.
  revert f2 x. induction f1 as [|f1 IH]; intros f2 x Hle; [done|]. destruct f2 as [|f2]; [lia|]. cbn [wrap_down].
  destruct (high <? x)%f32; [|done]. apply IH. lia.
Qed.

Lemma wrap_ends x : fok x = true -> - 990 <= fr x <= 990 ->
  exists y, wrap angle_fuel M_PI M_2PI x = Some y /\ fok y = true /\ - fpi <= fr y <= fpi.
Proof.
  intros Hx Hr. assert (Hv : fvalid x = true) by by apply fok_valid.
  cut (exists y, wrap angle_fuel M_PI M_2PI x = Some y /\ fok y = true).
  { intros (y & E & Hy). exists y. split; [done|]. split; [done|].
    destruct (wrap_wrapped _ _ _ Hv E) as [Hn|[_ Hb]]; [by destruct y|done]. }
  unfold wrap. cbn [mbind option_bind]. destruct (wrap_up_total 165 x Hx) as (y & E & Hy & Hy2).
  1, 2: change (IZR (Z.of_nat 165)) with 165; lra.
  rewrite (wrap_more 166 angle_fuel _ _ _ _ ltac:(unfold angle_fuel; lia) E).
  destruct (wrap_up_range _ _ _ Hv E) as [_ [Hn|[->|[_ Hl]]]]; [by destruct y|done|].
  pose proof fpi_bounds. destruct (wrap_down_total 170 y Hy) as (z & Ez & Hz).
  1, 2: change (IZR (Z.of_nat 170)) with 170; lra.
  exists z. split; [|done]. apply (wrap_more_down 171 angle_fuel); [unfold angle_fuel; lia|done].
Qed.

Lemma wrap_total x : angle_ok x -> exists y, wrap angle_fuel M_PI M_2PI x = Some y.
Proof.
  intros [Hn|[Hx Hr]]; [destruct x; try done; by eexists|].
  destruct (wrap_ends x Hx Hr) as (y & E & _). by exists y.
Qed.

(** ** The modulation *)

Lemma svm_nan a b half : is_nan a = true -> is_nan b = true -> (0 <= half < 65536)%Z ->
  svm (- a)%f32 (- b)%f32 half = (half / 2, half / 2, half / 2)%Z.
Proof.
  intros Ha Hb Hh. destruct a; try done. destruct b; try done. unfold svm.
  change (svm_sector (- S754_nan)%f32 (- S754_nan)%f32) with 5%Z.
  assert (svm_times 5 (- S754_nan)%f32 (- S754_nan)%f32 half = (0, 0)%Z) as ->.
  { unfold svm_times. cbn [Z.eqb Pos.eqb]. by destruct (f_of_int half). }
  cbn [Z.eqb Pos.eqb]. rewrite (u32_id (half - 0 - 0)) by (unfold is_u32; lia).
  replace (half - 0 - 0)%Z with half by lia. rewrite Z.add_0_r.
  assert (u32 (half / 2) = half / 2)%Z as ->; [|by rewrite Z.add_0_r, u32_id by (unfold is_u32; Z.to_euclidean_division_equations; lia)].
  apply u32_id. unfold is_u32. Z.to_euclidean_division_equations. lia.
Qed.

(** What the configuration and the variables of the controller must be: numbers
    of the format, a duty limit of at most 96 %, and an angle in range. *)
Record control_ready (conf : mc_configuration) (m : motor_state_t) : Prop := {
  ready_kp : fvalid (foc_current_kp conf) = true;
  ready_limit : fok (l_max_duty conf) = true;
  ready_limit_range : 0 <= fr (l_max_duty conf) <= 0.96;
  ready_max : fvalid (max_duty m) = true;
  ready_max_nan : is_nan (max_duty m) = false;
  ready_phase : angle_ok (phase m);
  ready_phase_valid : fvalid (phase m) = true;
  ready_ialpha : fvalid (i_alpha m) = true;
  ready_ibeta : fvalid (i_beta m) = true;
  ready_id : fvalid (id_target m) = true;
  ready_iq : fvalid (iq_target m) = true;
  ready_vd : fvalid (vd m) = true;
  ready_vq : fvalid (vq m) = true;
  ready_vbus : fvalid (v_bus m) = true
}.

Lemma limit_near md : fok md = true -> 0 <= fr md <= 0.96 ->
  fok (SQRT3_BY_2 * md)%f32 = true /\ 0 <= fr (SQRT3_BY_2 * md)%f32 <= 0.83139.
Proof.
  intros Hmd Hr. assert (Hs : fok SQRT3_BY_2 = true) by (by vm_compute).
  assert (Hsv : fr SQRT3_BY_2 = 14529495 / 16777216) by (by rewrite (fr_lit SQRT3_BY_2 14529495 24) by (by vm_compute)).
  destruct (fmul_bound SQRT3_BY_2 md 0.84 Hs Hmd) as [Hok He]; [rewrite Hsv; lra|lra|].
  split; [done|]. split; [|rewrite Hsv in He; lra].
  apply (nearest_nonneg (fr SQRT3_BY_2 * fr md)); [by apply fmul_nearest|done|rewrite Hsv; lra].
Qed.

Lemma within_le b1 b2 x y : 0 <= b1 <= b2 -> within b1 x y -> within b2 x y.
Proof. intros Hb [H|(Hx & Hy & H)]; [by left|right]. split; [done|]. split; [done|]. nra. Qed.

(** The PI controllers limit the modulation. *)
Lemma current_pi_within conf m s c dt :
  control_ready conf m -> fvalid s = true -> fvalid c = true ->
  within 0.8315 (mod_d (current_pi conf s c dt m)) (mod_q (current_pi conf s c dt m)).
Proof.
  intros [Hkp Hl Hlr Hmx Hmxn _ _ Hia Hib Hid Hiq Hvd Hvq Hvb] Hs Hc. unfold current_pi.
  set (md := truncate (fabs (max_duty m)) f0 (l_max_duty conf)).
  assert (Hmd : fok md = true /\ 0 <= fr md <= fr (l_max_duty conf)).
  { destruct (truncate_range (fabs (max_duty m)) f0 (l_max_duty conf)) as [H1 H2];
      [by destruct (max_duty m)|by rewrite fabs_valid|done|done|change (fr f0) with 0; lra|].
    change (fr f0) with 0 in H2. by split. }
  destruct Hmd as [Hmd Hmr]. destruct (limit_near md Hmd ltac:(lra)) as [Hlim Hlr2].
  match goal with |- context [utils_saturate_vector_2d ?x ?y (SQRT3_BY_2 * md)%f32] =>
    assert (Hw : let '(x', y', _) := utils_saturate_vector_2d x y (SQRT3_BY_2 * md)%f32 in
                 within (fr (SQRT3_BY_2 * md)%f32 * 1.00001 + 0.000000000001) x' y') end.
  { apply saturate_within; [| |done|lra]; (apply fdiv_valid; [|by apply fmul_valid]);
      (apply fadd_valid; [done|]); (apply fmul_valid; [|done]); (apply fsub_valid; [done|]);
      (apply fsub_valid || apply fadd_valid); by apply fmul_valid. }
  destruct (utils_saturate_vector_2d _ _ (SQRT3_BY_2 * md)%f32) as [[d q] b].
  destruct (utils_saturate_vector_2d _ _ _) as [[vd' vq'] b'].
  change (within 0.8315 d q). apply (within_le _ 0.8315) in Hw; [done|lra].
Qed.

(** The vector the modulation asks for, and what the bridge gets. *)
Definition duties_realise (a b : f32) (arr : Z) (duties : Z * Z * Z) : Prop :=
  (is_nan a = true /\ is_nan b = true /\ duties = (arr / 2, arr / 2, arr / 2)%Z) \/
  (fok a = true /\ fok b = true /\ realises (fr (- a)%f32) (fr (- b)%f32) arr duties).

Lemma modulation_realised s c m arr :
  (is_nan s = true /\ is_nan c = true) \/
  (fok s = true /\ fok c = true /\ fr s * fr s + fr c * fr c <= 1.062) ->
  within 0.8315 (mod_d m) (mod_q m) -> (0 <= arr < 65536)%Z ->
  let '(a, b) := stator_modulation s c m in
  duties_realise a b arr (svm (- a)%f32 (- b)%f32 arr).
Proof.
  intros Hsc Hw Harr. unfold stator_modulation.
  assert (Hnan : is_nan s = true \/ is_nan (mod_d m) = true \/ is_nan (mod_q m) = true ->
    is_nan c = true \/ is_nan s = false ->
    duties_realise (c * mod_d m - s * mod_q m)%f32 (c * mod_q m + s * mod_d m)%f32 arr
      (svm (- (c * mod_d m - s * mod_q m))%f32 (- (c * mod_q m + s * mod_d m))%f32 arr)).
  { intros Hn Hcs. left. assert (is_nan (c * mod_d m - s * mod_q m)%f32 = true /\ is_nan (c * mod_q m + s * mod_d m)%f32 = true) as [Ha Hb].
    { destruct Hn as [Hn|[Hn|Hn]].
      - destruct s; try done. split; [apply fsub_nan|apply fadd_nan]; by right.
      - split; [apply fsub_nan; left|apply fadd_nan; right]; by apply fmul_nan.
      - split; [apply fsub_nan; right|apply fadd_nan; left]; by apply fmul_nan. }
    split; [done|]. split; [done|]. by apply svm_nan. }
  destruct Hsc as [[H1 H2]|(Hs & Hc & Hsc)]; [apply Hnan; auto|].
  destruct Hw as [[Hn|Hn]|(Hd & Hq & Hdq)]; [apply Hnan; [auto|right; by apply fok_not_nan]..|].
  right. destruct (rotated s c (mod_d m) (mod_q m) Hs Hc Hd Hq Hsc Hdq) as (Ha & Hb & Hm).
  split; [done|]. split; [done|]. apply svm_realises; [by rewrite fopp_ok..| |done]. rewrite !fr_opp. lra.
Qed.

Lemma duties_range a b arr t1 t2 t3 : (0 <= arr < 65536)%Z ->
  duties_realise a b arr (t1, t2, t3) -> (0 <= t1 <= arr /\ 0 <= t2 <= arr /\ 0 <= t3 <= arr)%Z.
Proof.
  intros Harr [(_ & _ & [= -> -> ->])|(_ & _ & H & _)]; [|done].
  assert (0 <= arr / 2 <= arr)%Z by (Z.to_euclidean_division_equations; lia). done.
Qed.

(** ** The controller *)

Definition duties_of (t : foc_timers) : Z * Z * Z := (TIM1_CCR1 t, TIM1_CCR3 t, TIM1_CCR2 t).

(** The bridge runs, within its period, as the modulation of the state asks. *)
Definition controlled (st : foc) (s c : f32) : Prop :=
  let '(a, b) := stator_modulation s c (m_motor_state st) in
  m_output_on (f_vars st) = true /\
  (0 <= TIM1_CCR1 (f_timers st) <= foc_TIM1_ARR (f_timers st) /\
   0 <= TIM1_CCR2 (f_timers st) <= foc_TIM1_ARR (f_timers st) /\
   0 <= TIM1_CCR3 (f_timers st) <= foc_TIM1_ARR (f_timers st))%Z /\
  duties_realise a b (foc_TIM1_ARR (f_timers st)) (duties_of (f_timers st)).

Lemma fangle_valid fuel x y : fvalid x = true -> wrap fuel M_PI M_2PI x = Some y -> fvalid y = true.
Proof.
  intros Hx E. destruct (wrap_wrapped fuel x y Hx E) as [Hn|[Hok _]]; [by destruct y|by apply fok_valid].
Qed.

Lemma start_pwm_hw_spec (st : foc) : exists st', start_pwm_hw st = Some (tt, st') /\
  m_output_on (f_vars st') = true /\ m_motor_state st' = m_motor_state st /\
  duties_of (f_timers st') = duties_of (f_timers st) /\
  foc_TIM1_ARR (f_timers st') = foc_TIM1_ARR (f_timers st).
Proof. by eexists. Qed.

Lemma sincos_total x : angle_ok x -> exists s c, utils_fast_sincos_better angle_fuel x = Some (s, c).
Proof.
  intros Hx. destruct (wrap_total x Hx) as (y & E). unfold utils_fast_sincos_better. rewrite E. by eexists _, _.
Qed.

Lemma control_current_spec conf dt (st : foc) :
  control_ready conf (m_motor_state st) -> (0 <= foc_TIM1_ARR (f_timers st) < 65536)%Z ->
  exists st' s c, control_current conf dt st = Some (tt, st') /\
    utils_fast_sincos_better angle_fuel (phase (m_motor_state st)) = Some (s, c) /\
    foc_TIM1_ARR (f_timers st') = foc_TIM1_ARR (f_timers st) /\ controlled st' s c.
Proof.
  intros Hr Harr. destruct (sincos_total _ (ready_phase _ _ Hr)) as (s & c & Esc).
  pose proof (sincos_better_near _ _ _ _ (ready_phase_valid _ _ Hr) Esc) as Hsc.
  assert (Hv : fvalid s = true /\ fvalid c = true).
  { destruct Hsc as [[H1 H2]|(H1 & H2 & _)]; [destruct s, c; try done|split; by apply fok_valid]. }
  pose proof (current_pi_within conf _ s c dt Hr (proj1 Hv) (proj2 Hv)) as Hw.
  pose proof (modulation_realised s c _ _ Hsc Hw Harr) as Hm.
  set (m := current_pi conf s c dt (m_motor_state st)) in *.
  destruct (stator_modulation s c m) as [a b] eqn:Eab.
  destruct (svm (- a)%f32 (- b)%f32 (foc_TIM1_ARR (f_timers st))) as [[t1 t2] t3] eqn:Et.
  pose proof (duties_range _ _ _ _ _ _ Harr Hm) as (H1 & H2 & H3).
  set (m' := m <| v_alpha := ((a - (deadtime_comp conf s c m).1) * TWO_THIRDS * v_bus m)%f32 |>
               <| v_beta := ((b - (deadtime_comp conf s c m).2) * TWO_THIRDS * v_bus m)%f32 |>).
  set (st1 := st <| m_motor_state := m' |> <| f_timers := (f_timers st) <| TIM1_CCR1 := t1 |> <| TIM1_CCR2 := t3 |> <| TIM1_CCR3 := t2 |> |>).
  assert (E : control_current conf dt st = when_f (negb (m_output_on (f_vars st))) start_pwm_hw st1).
  { unfold control_current. erewrite ST_bind_Some by done. erewrite ST_bind_Some by (unfold flift; by rewrite Esc).
    cbv beta iota. erewrite ST_bind_Some by done. erewrite ST_bind_Some by done. fold m. cbv beta.
    change (Datatypes.id (m_motor_state (st <| m_motor_state := m |>))) with m.
    rewrite Eab. destruct (deadtime_comp conf s c m) as [ac bc] eqn:Ed. cbv beta iota.
    erewrite ST_bind_Some by done. erewrite ST_bind_Some by done. cbv beta.
    match goal with |- context [svm _ _ ?x] => change x with (foc_TIM1_ARR (f_timers st)) end.
    rewrite Et. cbv beta iota. erewrite ST_bind_Some by done. erewrite ST_bind_Some by done. cbv beta.
    unfold st1, m'. rewrite !u16_id by (unfold is_u16; lia). reflexivity. }
  assert (Hc1 : stator_modulation s c m' = (a, b)) by (rewrite <- Eab; reflexivity).
  destruct (m_output_on (f_vars st)) eqn:Eon.
  - exists st1, s, c. split; [done|]. split; [done|]. split; [done|]. unfold controlled.
    change (m_motor_state st1) with m'. rewrite Hc1. by split.
  - destruct (start_pwm_hw_spec st1) as (st2 & E2 & Hon & Hmo & Hd & Ha). exists st2, s, c.
    split; [by rewrite E|]. split; [done|]. split; [by rewrite Ha|]. unfold controlled. rewrite Hmo.
    change (m_motor_state st1) with m'. rewrite Hc1, Hd, Ha. split; [done|].
    change (duties_of (f_timers st1)) with (t1, t2, t3) in *. unfold duties_of in Hd. injection Hd as -> -> ->. by split.
Qed.

(** C14. Whatever currents, voltages and targets the variables hold, NaN
    and infinities included, the current controller returns with the
    bridge on and switching times within the period of the timer which
    realise its modulation vector; a modulation that is not a number gives
    no voltage. The phase must be NaN or at most 990 rad, since the loop
    that normalises it need not end beyond, l_max_duty between 0 and 0.96,
    and max_duty not NaN. *)
Theorem current_control_safe conf dt (st : foc) :
  control_ready conf (m_motor_state st) -> (0 <= foc_TIM1_ARR (f_timers st) < 65536)%Z ->
  exists st' s c, control_current conf dt st = Some (tt, st') /\
    utils_fast_sincos_better angle_fuel (phase (m_motor_state st)) = Some (s, c) /\
    foc_TIM1_ARR (f_timers st') = foc_TIM1_ARR (f_timers st) /\ controlled st' s c.
Proof. apply control_current_spec. Qed.

(** The default configuration, one of the currents infinite. *)
Definition infinite_current : foc :=
  let i := mkFocInputs (fun _ => 1500%Z) 2048 2048 false false false 0 false false false f0 in
  (foc0 i) <| f_timers := (f_timers (foc0 i)) <| foc_TIM1_ARR := 8400%Z |> |>
           <| m_motor_state := motor_state0 <| i_alpha := S754_infinity false |> <| v_bus := f_of_int 24 |>
                                            <| phase := f1 |> <| max_duty := flit 95 100 |> |>.

Lemma current_control_safe_witness : exists st' s c,
  control_current conf_general_get_default_mc_configuration (flit 1 10000) infinite_current = Some (tt, st') /\
  utils_fast_sincos_better angle_fuel f1 = Some (s, c) /\
  foc_TIM1_ARR (f_timers st') = 8400%Z /\ controlled st' s c.
Proof.
  apply (current_control_safe conf_general_get_default_mc_configuration (flit 1 10000) infinite_current).
  - split; try (vm_compute; reflexivity).
    + change (l_max_duty conf_general_get_default_mc_configuration) with (flit 19 20).
      rewrite (fr_lit (flit 19 20) 15938355 24) by (vm_compute; reflexivity).
      change (2 ^ 24)%Z with 16777216%Z. lra.
    + right. split; [reflexivity|]. change (phase (m_motor_state infinite_current)) with f1.
      rewrite (fr_lit f1 8388608 23) by (vm_compute; reflexivity). change (2 ^ 23)%Z with 8388608%Z. lra.
  - split; [discriminate|reflexivity].
Defined.

(** ** When the loops that wrap angles end (src/utils.c)

    [utils_norm_angle_rad] adds or subtracts full turns until the angle lies
    between -pi and pi.  Up to 990 rad the fuel of the model is enough; above
    2^27 rad a turn is less than half a unit of the single precision, and the
    loop never ends.  Every angle of the observer, of the phase locked loop and
    of the current controller goes through it. *)
From Stdlib Require Import Reals Lra.
From S2P Require Import Prelude Float32 FloatExact FloatRound FloatVector FastSin.
From S2P Require Import McTypes ConfDefault Motor Utils McpwmState FocState Foc.
#[local] Open Scope R_scope.
#[local] Opaque b2.

(** Above 2^27 with the sign [s], or infinite. *)
Definition far (s : bool) (x : f32) : Prop :=
  x = S754_infinity s \/ fok x = true /\ b2 27 < sgn s * fr x.

Lemma b2_4 : b2 4 = 16.
Proof. by rewrite <- b2_IZR by lia. Qed.
Lemma b2_27 : b2 27 = 134217728.
Proof. by rewrite <- b2_IZR by lia. Qed.

(** Such values are multiples of 16, so the next one is 16 further. *)
Lemma far_next s x : fok x = true -> b2 27 < sgn s * fr x -> b2 27 + 16 <= sgn s * fr x.
Proof.
  intros Hx Hf. pose proof b2_27 as H27.
  assert (Ha : sgn s * fr x <= Rabs (fr x)) by (unfold sgn, Rabs; destruct s, (Rcase_abs _); lra).
  destruct (fok_multiple x 4 Hx) as [[k Hk]|[_ Hk]]; [lia| |change (4 + 23)%Z with 27%Z in Hk; lra].
  rewrite b2_4 in Hk. assert (Hs : sgn s * fr x = IZR ((if s then -1 else 1) * k) * 16).
  { rewrite Hk, mult_IZR. unfold sgn. destruct s; lra. }
  rewrite Hs in *. set (q := ((if s then -1 else 1) * k)%Z) in *.
  destruct (Z.le_gt_cases 8388609 q) as [Hq|Hq]; [apply IZR_le in Hq; lra|].
  assert (q <= 8388608)%Z as Hq' by lia. apply IZR_le in Hq'. lra.
Qed.

(** A turn towards zero leads nowhere: the float nearest to the result is as far out. *)
Lemma far_step s x z : fok x = true -> b2 27 < sgn s * fr x ->
  nearest (fr x - sgn s * (2 * fpi)) z -> far s z.
Proof.
  intros Hx Hf Hn. pose proof fpi_bounds as Hpi. pose proof b2_27 as H27. pose proof (far_next s x Hx Hf) as Hnext.
  assert (H1 : sgn s * (fr x - sgn s * (2 * fpi)) = sgn s * fr x - 2 * fpi) by (unfold sgn; destruct s; lra).
  assert (Hd : Rabs (fr x - (fr x - sgn s * (2 * fpi))) <= 2 * fpi).
  { apply Rabs_le. unfold sgn. destruct s; lra. }
  destruct (fok z) eqn:Hz.
  - right. split; [done|].
    assert (Hm : Rabs (fr z - (fr x - sgn s * (2 * fpi))) <= 2 * fpi).
    { refine (Rle_trans _ _ _ _ Hd). destruct z; try done; by apply Hn. }
    clear Hd H1. revert Hm. unfold sgn, Rabs in *. destruct s, (Rcase_abs _); lra.
  - left. destruct z as [t|t| |t m e]; try done; [|by destruct Hn as [Hn _]; congruence].
    cbn [nearest] in Hn. f_equal. pose proof b2_127. unfold sgn in *. destruct s, t; try done; lra.
Qed.

Lemma far_up_step x : far false x -> far false (x - M_2PI)%f32.
Proof.
  destruct fr_2pi as [H2 H2v]. intros [->|[Hx Hf]]; [by left|]. apply (far_step false x); [done..|].
  pose proof (fsub_nearest x M_2PI Hx H2) as Hn. rewrite H2v in Hn. unfold sgn. by rewrite Rmult_1_l.
Qed.

Lemma far_down_step x : far true x -> far true (x + M_2PI)%f32.
Proof.
  destruct fr_2pi as [H2 H2v]. intros [->|[Hx Hf]]; [by left|]. apply (far_step true x); [done..|].
  pose proof (fadd_nearest x M_2PI Hx H2) as Hn. rewrite H2v in Hn. unfold sgn.
  by replace (fr x - -1 * (2 * fpi)) with (fr x + 2 * fpi) by lra.
Qed.

Lemma wrap_down_hangs fuel x : far false x -> wrap_down fuel M_PI M_2PI x = None.
Proof.
  destruct fr_pi as [Hp Hpv]. pose proof fpi_bounds as Hpi. pose proof b2_27 as H27.
  revert x. induction fuel as [|fuel IH]; intros x Hx; cbn [wrap_down]; [done|].
  assert ((M_PI <? x)%f32 = true) as ->; [|by apply IH, far_up_step].
  destruct Hx as [->|[Hx Hf]]; [by vm_compute|]. apply fltb_fr; [done..|]. unfold sgn in Hf. lra.
Qed.

Lemma wrap_up_hangs fuel x : far true x -> wrap_up fuel (- M_PI)%f32 M_2PI x = None.
Proof.
  destruct fr_pi as [Hp Hpv]. pose proof fpi_bounds as Hpi. pose proof b2_27 as H27.
  revert x. induction fuel as [|fuel IH]; intros x Hx; cbn [wrap_up]; [done|].
  assert ((x <? - M_PI)%f32 = true) as ->; [|by apply IH, far_down_step].
  destruct Hx as [->|[Hx Hf]]; [by vm_compute|]. apply fltb_fr; [done|by rewrite fopp_ok|].
  rewrite fr_opp. unfold sgn in Hf. lra.
Qed.

Lemma wrap_up_stays fuel x : far false x -> wrap_up (S fuel) (- M_PI)%f32 M_2PI x = Some x.
Proof.
  destruct fr_pi as [Hp Hpv]. pose proof fpi_bounds as Hpi. pose proof b2_27 as H27. intros Hx. cbn [wrap_up].
  assert ((x <? - M_PI)%f32 = false) as ->; [|done].
  destruct Hx as [->|[Hx Hf]]; [by vm_compute|]. apply fltb_fr_false; [done|by rewrite fopp_ok|].
  rewrite fr_opp. unfold sgn in Hf. lra.
Qed.

(** C20. utils_norm_angle_rad ends for every angle up to 990 rad, with an
    angle between -pi and pi; for an infinite angle and beyond 2^27 rad it
    never ends, since a full turn no longer changes the number. *)
Theorem norm_angle_rad_ends (x : f32) :
  (fok x = true -> - 990 <= fr x <= 990 ->
     exists y, utils_norm_angle_rad angle_fuel x = Some y /\ fok y = true /\ - fpi <= fr y <= fpi) /\
  ((exists s, far s x) -> forall fuel, utils_norm_angle_rad fuel x = None).
Proof.
  split.
  - apply wrap_ends.
  - intros [[] Hs] [|fuel]; try done; unfold utils_norm_angle_rad, wrap; cbn [mbind option_bind].
    + by rewrite wrap_up_hangs.
    + rewrite wrap_up_stays by done. by apply wrap_down_hangs.
Qed.

(** ** Witness *)

Definition angle_700 : f32 := f_of_int 700.
Definition angle_2e8 : f32 := f_of_int 200000000.

Lemma norm_angle_rad_ends_witness :
  (exists y, utils_norm_angle_rad angle_fuel angle_700 = Some y /\ fok y = true /\ - fpi <= fr y <= fpi) /\
  forall fuel, utils_norm_angle_rad fuel angle_2e8 = None.
Proof.
  split.
  - destruct (fr_of_int 700 ltac:(unfold small; lia)) as [Hok Hv].
    apply (proj1 (norm_angle_rad_ends angle_700)); [exact Hok|]. unfold angle_700. rewrite Hv. lra.
  - apply (proj2 (norm_angle_rad_ends angle_2e8)). exists false. right. split; [by vm_compute|].
    assert (Hv : exists m e, angle_2e8 = S754_finite false m (Z.pos e) /\ (Z.pos m * 2 ^ Z.pos e = 200000000)%Z).
    { by vm_compute; eexists _, _. }
    destruct Hv as (m & e & -> & Hme). cbn [fr]. unfold sgn. rewrite <- (b2_IZR (Z.pos e)) by lia.
    rewrite Rmult_assoc, <- mult_IZR, Hme, b2_27. lra.
Defined.
