(* ===== verification/FocLimits.v ===== *)
(** * FocLimits: the current targets respect the limits (src/mcpwm_foc.c)

    [limit_currents] makes the targets of the current controller: the vector
    stays within the motor current limit, the torque current within the limits
    of both directions, and the power it takes from or returns to the battery
    within the input current limits. *)
From Stdlib Require Import Reals Lra.
From S2P Require Import Prelude Float32 FloatExact FloatRound FloatVector FastSin.
From S2P Require Import McTypes ConfDefault Utils FocState Foc FocSvm FocControl FocIsr.
#[local] Open Scope R_scope.
#[local] Opaque b2.

(** Between zero and [y]. *)
Definition towards_zero (y y' : f32) : Prop :=
  fok y' = true /\ (0 <= fr y -> 0 <= fr y' <= fr y) /\ (fr y <= 0 -> fr y <= fr y' <= 0).

Lemma towards_zero_refl y : fok y = true -> towards_zero y y.
Proof. intros Hy. split; [done|]. split; lra. Qed.

Lemma towards_zero_trans x y z : towards_zero x y -> towards_zero y z -> towards_zero x z.
Proof.
  intros (_ & H1 & H2) (Hz & H3 & H4). split; [done|].
  split; intros Hx; [specialize (H1 Hx)|specialize (H2 Hx)].
  - specialize (H3 ltac:(lra)). lra.
  - specialize (H4 ltac:(lra)). lra.
Qed.

Lemma Rabs_between x e : Rabs x <= e -> - e <= x <= e.
Proof. unfold Rabs. destruct (Rcase_abs x); lra. Qed.

Lemma fr_1 : fr f1 = 1.
Proof. rewrite (fr_lit f1 8388608 23) by (by vm_compute). change (2 ^ 23)%Z with 8388608%Z. lra. Qed.

(** A factor between 0 and 1. *)
Lemma scale_towards_zero y f :
  fok y = true -> fok f = true -> Rabs (fr y) < b2 127 -> 0 <= fr f <= 1 -> towards_zero y (y * f)%f32.
Proof.
  intros Hy Hf Hm Hf1. pose proof (fmul_nearest y f Hy Hf) as Hn.
  assert (Hok : fok (y * f)%f32 = true).
  { destruct (y * f)%f32 as [s|s| |s m e]; try done; [|apply Hn]. exfalso. cbn [nearest] in Hn.
    assert (H : sgn s * (fr y * fr f) < b2 127); [|lra].
    assert (Rabs (fr y * fr f) <= Rabs (fr y)).
    { rewrite Rabs_mult, (Rabs_right (fr f)) by lra. pose proof (Rabs_pos (fr y)). nra. }
    assert (sgn s * (fr y * fr f) <= Rabs (fr y * fr f)); [|lra].
    unfold sgn, Rabs. destruct s, (Rcase_abs _); lra. }
  split; [done|]. split; intros H0.
  - split; [apply (nearest_nonneg (fr y * fr f)); [done|done|nra]|].
    apply (nearest_le (fr y * fr f)); [done|done|done|nra].
  - split; [apply (nearest_ge (fr y * fr f)); [done|done|done|nra]|].
    change 0 with (fr f0). apply (nearest_le (fr y * fr f)); [done|done|done|change (fr f0) with 0; nra].
Qed.

(** The computed length of a finite vector: finite, or beyond the format. *)
Lemma length_cases x y : fok x = true -> fok y = true ->
  (fok (fsqrt (x * x + y * y)%f32) = true /\ 0 <= fr (fsqrt (x * x + y * y)%f32)) \/
  fsqrt (x * x + y * y)%f32 = S754_infinity false.
Proof.
  intros Hx Hy.
  assert (Hs : (fok (x * x + y * y)%f32 = true /\ 0 <= fr (x * x + y * y)%f32) \/
               (x * x + y * y)%f32 = S754_infinity false).
  { destruct (square_cases x (fok_valid x Hx) (fok_not_nan x Hx)) as [Ex|(_ & Hxx & H0x)],
      (square_cases y (fok_valid y Hy) (fok_not_nan y Hy)) as [Ey|(_ & Hyy & H0y)].
    - right. by rewrite Ex, Ey.
    - right. rewrite Ex. apply inf_plus; [by apply fok_not_nan|by apply fok_not_inf].
    - right. rewrite Ey. apply inf_plus; [by apply fok_not_nan|by apply fok_not_inf].
    - destruct (sum_cases _ _ Hxx Hyy H0x H0y) as [H|H]; [left|by right]. split; [done|].
      apply (nearest_nonneg (fr (x * x)%f32 + fr (y * y)%f32)); [by apply fadd_nearest|done|lra]. }
  destruct Hs as [[Hs H0]| ->]; [left|by right].
  destruct (sqrt_near _ Hs H0) as (H1 & H2 & _). by split.
Qed.

Lemma saturate_shrinks x y max :
  fok x = true -> fok y = true -> Rabs (fr x) < b2 127 -> Rabs (fr y) < b2 127 ->
  fok max = true -> 0 <= fr max <= 1000 ->
  let '(x', y', _) := utils_saturate_vector_2d x y max in towards_zero x x' /\ towards_zero y y'.
Proof.
  intros Hx Hy Bx By Hm H0. unfold utils_saturate_vector_2d.
  pose proof (length_cases x y Hx Hy) as Hmag. set (mag := fsqrt (x * x + y * y)%f32) in *. clearbody mag.
  assert (Hab : fok (fabs max) = true /\ fr (fabs max) = fr max).
  { rewrite fabs_ok, fr_abs, Rabs_right by lra. by split. }
  destruct Hab as [Hmok Hmv]. set (mx := fabs max) in *. clearbody mx.
  assert (Hmag2 : (fok (if (mag <? tiny)%f32 then tiny else mag) = true /\ 0 <= fr (if (mag <? tiny)%f32 then tiny else mag)) \/
                  (if (mag <? tiny)%f32 then tiny else mag) = S754_infinity false).
  { destruct fr_tiny as [Ht Ht2]. destruct (mag <? tiny)%f32; [left; split; [done|lra]|done]. }
  set (mag2 := if (mag <? tiny)%f32 then tiny else mag) in *. clearbody mag2.
  destruct (mx <? mag2)%f32 eqn:E; [|by split; apply towards_zero_refl].
  assert (Hf : fok (mx / mag2)%f32 = true /\ 0 <= fr (mx / mag2)%f32 <= 1).
  { destruct Hmag2 as [[Hg Hg0]| ->].
    - apply fltb_fr in E; [|done..].
      assert (Hq : 0 <= fr mx / fr mag2 < 1).
      { split; [apply Rmult_le_pos; [lra|]; left; apply Rinv_0_lt_compat; lra|].
        apply Rmult_lt_reg_r with (fr mag2); [lra|]. unfold Rdiv. rewrite Rmult_assoc, Rinv_l; lra. }
      pose proof (fdiv_nearest mx mag2 Hmok Hg ltac:(lra)) as Hn. pose proof b2_127.
      destruct (nearest_approx _ _ Hn) as [Hok _]; [rewrite Rabs_right by lra; lra|]. split; [done|].
      split; [apply (nearest_nonneg (fr mx / fr mag2) _ Hn Hok); lra|].
      rewrite <- fr_1. apply (nearest_le (fr mx / fr mag2) _ f1 Hn Hok eq_refl). rewrite fr_1. lra.
    - destruct mx; try done; (split; [done|]); cbn [fdiv SFdiv fr]; lra. }
  destruct Hf as [Hfok Hf1]. split; by apply scale_towards_zero.
Qed.

Lemma truncate_towards_zero y lo hi :
  fok y = true -> fok lo = true -> fok hi = true -> fr lo <= 0 <= fr hi ->
  towards_zero y (truncate y lo hi) /\ fr lo <= fr (truncate y lo hi) <= fr hi.
Proof.
  intros Hy Hl Hh H. unfold truncate, utils_truncate_number.
  destruct (hi <? y)%f32 eqn:E1; [apply fltb_fr in E1; [|done..]|apply fltb_fr_false in E1; [|done..]]; cbn [fst].
  - split; [split; [done|]; split; lra|lra].
  - destruct (y <? lo)%f32 eqn:E2; [apply fltb_fr in E2; [|done..]|apply fltb_fr_false in E2; [|done..]]; cbn [fst].
    + split; [split; [done|]; split; lra|lra].
    + split; [by apply towards_zero_refl|lra].
Qed.

(** ** Limits of the input current *)

(** A bound of the current for a bound [lim] of its product with [m]. *)
Lemma quotient_bound lim m :
  fok lim = true -> fok m = true -> Rabs (fr lim) <= 1000 -> 0.001 < Rabs (fr m) ->
  fok (lim / m)%f32 = true /\ Rabs (fr (lim / m)%f32 * fr m - fr lim) <= Rabs (fr lim) * 0.000001 + 0.000001 /\
  (0 <= fr lim * fr m -> 0 <= fr (lim / m)%f32) /\ (fr lim * fr m <= 0 -> fr (lim / m)%f32 <= 0).
Proof.
  intros Hl Hm Bl Bm.
  assert (Hm0 : fr m <> 0) by (intros E; rewrite E, Rabs_R0 in Bm; lra).
  pose proof (fdiv_nearest lim m Hl Hm Hm0) as Hn. pose proof b2_127. pose proof b2_m150.
  set (q := fr lim / fr m) in *.
  assert (Eq : q * fr m = fr lim) by (unfold q; by field). assert (Hq : Rabs q <= 1000000).
  { assert (Rabs q * Rabs (fr m) <= 1000) by (rewrite <- Rabs_mult, Eq; lra). pose proof (Rabs_pos q). nra. }
  destruct (nearest_approx q _ Hn ltac:(lra)) as [Hok He]. split; [done|]. rewrite b2_m24 in He. split.
  - replace (fr (lim / m)%f32 * fr m - fr lim) with ((fr (lim / m)%f32 - q) * fr m) by (rewrite <- Eq; ring).
    rewrite Rabs_mult. apply Rle_trans with ((Rabs q * / 16777216 + b2 (-150)) * Rabs (fr m)).
    { apply Rmult_le_compat_r; [apply Rabs_pos|done]. }
    assert (E1 : Rabs q * Rabs (fr m) = Rabs (fr lim)) by (by rewrite <- Rabs_mult, Eq).
    assert (E2 : b2 (-150) * Rabs (fr m) <= 0.000001).
    { pose proof (fok_max m Hm). apply Rle_trans with (b2 (-150) * b2 128); [apply Rmult_le_compat_l; lra|].
      rewrite <- b2_add. change (-150 + 128)%Z with (-22)%Z. rewrite (b2_inv 22).
      change (2 ^ 22)%Z with 4194304%Z. lra. }
    pose proof (Rabs_pos (fr lim)). nra.
  - assert (Es : fr lim * fr m = q * (fr m * fr m)) by (rewrite <- Eq; ring). rewrite Es.
    assert (Hmm : 0 < fr m * fr m) by nra. split; intros Hs0.
    + apply (nearest_nonneg q); [done|done|]. nra.
    + change 0 with (fr f0). apply (nearest_le q); [done|done|done|]. change (fr f0) with 0. nra.
Qed.

Lemma fr_milli : fok (flit 1 1000) = true /\ 0.001 < fr (flit 1 1000) < 0.0010000001.
Proof.
  split; [by vm_compute|]. rewrite (fr_lit (flit 1 1000) 8589935 33) by (by vm_compute).
  change (2 ^ 33)%Z with 8589934592%Z. lra.
Qed.

(** The limits of the motor: of its current, in both directions, and of the
    current of the battery. *)
Record limits_ok (conf : mc_configuration) : Prop := {
  lim_max : fok (lo_current_max conf) = true;
  lim_max_range : 0 <= fr (lo_current_max conf) <= 1000;
  lim_min : fok (lo_current_min conf) = true;
  lim_min_range : - 1000 <= fr (lo_current_min conf) <= 0;
  lim_in_max : fok (lo_in_current_max conf) = true;
  lim_in_max_range : 0 <= fr (lo_in_current_max conf) <= 1000;
  lim_in_min : fok (lo_in_current_min conf) = true;
  lim_in_min_range : - 1000 <= fr (lo_in_current_min conf) <= 0
}.

(** The part of [limit_currents] for the battery. *)
Definition limit_input (conf : mc_configuration) (mod_q iq : f32) : f32 :=
  if (mod_q >? flit 1 1000)%f32 then
    truncate iq (lo_in_current_min conf / mod_q)%f32 (lo_in_current_max conf / mod_q)%f32
  else if (mod_q <? - flit 1 1000)%f32 then
    truncate iq (lo_in_current_max conf / mod_q)%f32 (lo_in_current_min conf / mod_q)%f32
  else iq.

(** Between the two limits of the battery. *)
Definition input_ok (conf : mc_configuration) (m iq : f32) : Prop :=
  fr (lo_in_current_min conf) * 1.000001 - 0.000001 <= fr m * fr iq
  <= fr (lo_in_current_max conf) * 1.000001 + 0.000001.

Lemma div_inf lim s : fok lim = true -> fok (lim / S754_infinity s)%f32 = true /\ fr (lim / S754_infinity s)%f32 = 0.
Proof. by destruct lim as [| | |[]]. Qed.

Lemma limit_input_ok conf m iq : limits_ok conf -> fvalid m = true -> fok iq = true ->
  towards_zero iq (limit_input conf m iq) /\
  (fok m = true -> 0.001001 < Rabs (fr m) -> input_ok conf m (limit_input conf m iq)).
Proof.
  intros [_ _ _ _ Ho Hor Hu Hur] Hm Hi. unfold limit_input, input_ok. destruct fr_milli as [Hml Hmv].
  set (hi := lo_in_current_max conf) in *. set (lo := lo_in_current_min conf) in *. clearbody hi lo.
  destruct (fvalid_cases m Hm) as [Hok|Hsp].
  2: { destruct m as [|s| |]; try done. split; [|done].
       destruct (div_inf hi s Ho) as [H1 H2]. destruct (div_inf lo s Hu) as [H3 H4].
       destruct (_ <? _)%f32; [|destruct (_ <? _)%f32; [|by apply towards_zero_refl]];
         (apply truncate_towards_zero; [done|done|done|lra]). }
  assert (Hhi : Rabs (fr hi) = fr hi) by (apply Rabs_right; lra).
  assert (Hlo : Rabs (fr lo) = - fr lo) by (apply Rabs_left1; lra).
  destruct (flit 1 1000 <? m)%f32 eqn:E1; [apply fltb_fr in E1; [|done..]|apply fltb_fr_false in E1; [|done..]];
    [|destruct (m <? - flit 1 1000)%f32 eqn:E2; [apply fltb_fr in E2; [|done|by rewrite fopp_ok]
                                                |apply fltb_fr_false in E2; [|done|by rewrite fopp_ok]]].
  - rewrite (Rabs_right (fr m)) by lra.
    destruct (quotient_bound hi m) as (H1 & H2 & H3 & _); [done|done|lra|rewrite Rabs_right; lra|].
    destruct (quotient_bound lo m) as (H4 & H5 & _ & H6); [done|done|lra|rewrite Rabs_right; lra|].
    specialize (H3 ltac:(nra)). specialize (H6 ltac:(nra)). rewrite Hhi in H2. rewrite Hlo in H5.
    destruct (truncate_towards_zero iq _ _ Hi H4 H1 ltac:(lra)) as [Ht Hb]. split; [done|]. intros _ _.
    apply Rabs_between in H2. apply Rabs_between in H5. nra.
  - rewrite fr_opp in E2. rewrite (Rabs_left1 (fr m)) by lra.
    destruct (quotient_bound hi m) as (H1 & H2 & _ & H3); [done|done|lra|rewrite Rabs_left1; lra|].
    destruct (quotient_bound lo m) as (H4 & H5 & H6 & _); [done|done|lra|rewrite Rabs_left1; lra|].
    specialize (H3 ltac:(nra)). specialize (H6 ltac:(nra)). rewrite Hhi in H2. rewrite Hlo in H5.
    destruct (truncate_towards_zero iq _ _ Hi H1 H4 ltac:(lra)) as [Ht Hb]. split; [done|]. intros _ _.
    apply Rabs_between in H2. apply Rabs_between in H5. nra.
  - rewrite fr_opp in E2. split; [by apply towards_zero_refl|]. intros _ Hb. exfalso. revert Hb.
    unfold Rabs. destruct (Rcase_abs _); lra.
Qed.

(** ** The targets *)

(** C18. With limits that are numbers of the right sign up to 1000 A and
    an unlimited direct current of at most a million amperes, the targets
    of the current controller respect the limits: the vector stays within
    the motor current and the torque current within the limits of both
    directions. If the modulation is finite and above 0.001001 in
    magnitude, its product with the torque current is within the input
    current limits (up to one part in a million); below 0.001 the code
    applies no input current limit. *)
Theorem current_targets_limited conf mod_q id_set iq_set :
  limits_ok conf -> fvalid mod_q = true -> fok id_set = true -> Rabs (fr id_set) <= 1000000 ->
  fvalid iq_set = true -> is_nan iq_set = false ->
  let '(id', iq') := limit_currents conf mod_q id_set iq_set in
  let max := fr (lo_current_max conf) * 1.00001 + 0.000000000001 in
  fok id' = true /\ fok iq' = true /\
  fr id' * fr id' + fr iq' * fr iq' <= max * max /\
  fr (lo_current_min conf) <= fr iq' <= fr (lo_current_max conf) /\
  (fok mod_q = true -> 0.001001 < Rabs (fr mod_q) -> input_ok conf mod_q iq').
Proof.
  intros Hlim Hm Hd Hdb Hq Hqn. pose proof Hlim as [Hx Hxr Hn Hnr _ _ _ _]. pose proof b2_127.
  unfold limit_currents. set (iq := truncate iq_set (lo_current_min conf) (lo_current_max conf)).
  destruct (truncate_range iq_set (lo_current_min conf) (lo_current_max conf)) as [Hiq Hiqr]; [done|done|done|done|lra|].
  fold iq in Hiq, Hiqr.
  pose proof (saturate_within id_set iq (lo_current_max conf) (fok_valid _ Hd) (fok_valid _ Hiq) Hx Hxr) as Hw.
  pose proof (saturate_shrinks id_set iq (lo_current_max conf) Hd Hiq ltac:(lra)
    ltac:(apply Rle_lt_trans with 1000; [apply Rabs_le; lra|lra]) Hx Hxr) as Hs.
  destruct (utils_saturate_vector_2d id_set iq (lo_current_max conf)) as [[id' iq2] b].
  destruct Hs as [(Hid & _) Hiq2]. pose proof Hiq2 as (Hok2 & _).
  destruct (limit_input_ok conf mod_q iq2 Hlim Hm Hok2) as [Ht Hin].
  change (let max := fr (lo_current_max conf) * 1.00001 + 0.000000000001 in
    fok id' = true /\ fok (limit_input conf mod_q iq2) = true /\
    fr id' * fr id' + fr (limit_input conf mod_q iq2) * fr (limit_input conf mod_q iq2) <= max * max /\
    fr (lo_current_min conf) <= fr (limit_input conf mod_q iq2) <= fr (lo_current_max conf) /\
    (fok mod_q = true -> 0.001001 < Rabs (fr mod_q) -> input_ok conf mod_q (limit_input conf mod_q iq2))).
  destruct Hw as [[H1|H1]|(_ & _ & Hw)]; [by rewrite fok_not_nan in H1..|].
  set (iq' := limit_input conf mod_q iq2) in *. pose proof (towards_zero_trans _ _ _ Hiq2 Ht) as (Hok' & T1 & T2).
  destruct Ht as (_ & T3 & T4). cbv zeta. split; [done|]. split; [done|]. split; [|split; [|done]].
  - assert (fr iq' * fr iq' <= fr iq2 * fr iq2); [|lra].
    destruct (Rle_lt_dec 0 (fr iq2)) as [H0|H0]; [specialize (T3 H0)|specialize (T4 ltac:(lra))]; nra.
  - destruct (Rle_lt_dec 0 (fr iq)) as [H0|H0]; [specialize (T1 H0)|specialize (T2 ltac:(lra))]; lra.
Qed.

(** 60 A in both directions, 30 A from and 20 A to the battery; 100 A are asked
    for at half the voltage. *)
Definition limited_conf : mc_configuration :=
  conf_general_get_default_mc_configuration
    <| lo_current_max := f_of_int 60 |> <| lo_current_min := f_of_int (-60) |>
    <| lo_in_current_max := f_of_int 30 |> <| lo_in_current_min := (- f_of_int 20)%f32 |>.

Lemma fr_half : fr (flit 5 10) = 0.5.
Proof. rewrite (fr_lit (flit 5 10) 8388608 24) by (by vm_compute). change (2 ^ 24)%Z with 16777216%Z. lra. Qed.

Lemma current_targets_limited_witness :
  limit_currents limited_conf (flit 5 10) f0 (f_of_int 100) = (f0, f_of_int 60) /\
  input_ok limited_conf (flit 5 10) (f_of_int 60).
Proof.
  assert (E : limit_currents limited_conf (flit 5 10) f0 (f_of_int 100) = (f0, f_of_int 60)) by (vm_compute; reflexivity).
  split; [exact E|].
  assert (Hsm : forall n, (0 <= n < 1000)%Z -> fr (f_of_int n) = IZR n) by (intros n Hn; apply fr_of_int; unfold small; lia).
  pose proof (current_targets_limited limited_conf (flit 5 10) f0 (f_of_int 100)) as H. rewrite E in H.
  refine (proj2 (proj2 (proj2 (proj2 (H _ _ _ _ _ _)))) _ _); try (vm_compute; reflexivity).
  - assert (H60 : fr (- f_of_int 60)%f32 = -60) by (rewrite fr_opp, Hsm by lia; lra).
    assert (H20 : fr (- f_of_int 20)%f32 = -20) by (rewrite fr_opp, Hsm by lia; lra).
    split; try (vm_compute; reflexivity).
    + change (lo_current_max limited_conf) with (f_of_int 60). rewrite Hsm by lia. lra.
    + change (lo_current_min limited_conf) with (- f_of_int 60)%f32. lra.
    + change (lo_in_current_max limited_conf) with (f_of_int 30). rewrite Hsm by lia. lra.
    + change (lo_in_current_min limited_conf) with (- f_of_int 20)%f32. lra.
  - change (fr f0) with 0. rewrite Rabs_R0. lra.
  - rewrite fr_half, Rabs_right; lra.
Defined.
