(* ===== verification/FocBridge.v ===== *)
(** * FocBridge: the FOC driver as a transition system (src/mcpwm_foc.c)

    Commands, interrupts, rounds of the thread, measurements and readings in any
    order: what the bridge does, and that a released motor stays released. *)
From S2P Require Import Prelude Safe Float32 McTypes Motor Utils McpwmState McpwmBridge ConfDefault.
From S2P Require Import Keeps FocState Foc FocIsr.

(** ** Events *)

(** The commands of mcpwm_foc.h. *)
Inductive foc_command :=
  | FocDuty (x : f32)
  | FocDutyNoramp (x : f32)
  | FocSpeed (rpm : f32)
  | FocPos (pos : f32)
  | FocCurrent (x : f32)
  | FocBrake (x : f32)
  | FocStop
  | FocConfigure.

Definition foc_exec (conf : mc_configuration) (c : foc_command) : PF unit :=
  match c with
  | FocDuty x => mcpwm_foc_set_duty x
  | FocDutyNoramp x => mcpwm_foc_set_duty_noramp x
  | FocSpeed rpm => mcpwm_foc_set_pid_speed rpm
  | FocPos pos => mcpwm_foc_set_pid_pos pos
  | FocCurrent x => mcpwm_foc_set_current conf x
  | FocBrake x => mcpwm_foc_set_brake_current conf x
  | FocStop => mcpwm_foc_stop_pwm conf
  | FocConfigure => mcpwm_foc_set_configuration conf
  end.

Fixpoint foc_execs (conf : mc_configuration) (cs : list foc_command) : PF unit :=
  match cs with [] => mret tt | c :: cs => foc_exec conf c;; foc_execs conf cs end.

(** What happens to the driver.  The commands of [FocIsr] are those
    [mc_interface_mc_timer_isr] gives within the interrupt; the last six events
    are the steps of the measurements in FocMeasure.v. *)
Inductive foc_event :=
  | FocAdcIsr (cs : list foc_command)
  | FocThread
  | FocCommand (c : foc_command)
  | FocReading (i : foc_inputs)
  | FocCalStart
  | FocInitFinish
  | FocDeinit
  | FocReadTacho (reset : bool)
  | FocOverride (id_set iq_set : f32)
  | FocOverridePhase (x : f32)
  | FocOverrideEnd
  | FocSamples (m : mc_sample_t)
  | FocSample
  | FocFrequency.

Definition foc_handle (conf : mc_configuration) (e : foc_event) : PF unit :=
  match e with
  | FocAdcIsr cs => mcpwm_foc_adc_inj_int_handler conf (foc_execs conf cs)
  | FocThread => _ ← timer_thread_step conf; mret tt
  | FocCommand c => foc_exec conf c
  | FocReading i => st_modify (fun s => s <| f_inputs := i |>)
  | FocCalStart => _ ← do_dc_cal_start; mret tt
  | FocInitFinish => _ ← mcpwm_foc_init_finish; mret tt
  | FocDeinit => mcpwm_foc_deinit
  | FocReadTacho reset =>
      _ ← mcpwm_foc_get_tachometer_value reset; _ ← mcpwm_foc_get_tachometer_abs_value reset; mret tt
  | FocOverride id_set iq_set =>
      fvar_set (fun v => v <| m_phase_override := true |> <| m_id_set := id_set |>
        <| m_iq_set := iq_set |> <| m_control_mode := CONTROL_MODE_CURRENT |>
        <| m_state := MC_STATE_RUNNING |>)
  | FocOverridePhase x => fvar_set (fun v => v <| m_phase_now_override := x |>)
  | FocOverrideEnd =>
      fvar_set (fun v => v <| m_id_set := f0 |> <| m_iq_set := f0 |> <| m_phase_override := false |>);;
      release
  | FocSamples m => smp_set (fun p => m <| measure_inductance_now := measure_inductance_now p |>)
  | FocSample => smp_set (fun m => m <| measure_inductance_now := true |>)
  | FocFrequency => TIMER_UPDATE_SAMP_TOP (u32 (foc_top conf - 2)) 5 (foc_top conf)
  end.

Fixpoint foc_handles (es : list (mc_configuration * foc_event)) : PF unit :=
  match es with [] => mret tt | (conf, e) :: es => foc_handle conf e;; foc_handles es end.

(** The states the driver reaches after its start, under any configurations. *)
Inductive foc_reach : foc -> Prop :=
  | foc_reach_init conf st st' : mcpwm_foc_init conf st = Some (tt, st') -> foc_reach st'
  | foc_reach_step conf e st st' : foc_reach st -> foc_handle conf e st = Some (tt, st') -> foc_reach st'.

(** ** The variables that decide about the bridge *)

Record foc_key := mkKey {
  key_state : Z;
  key_mode : Z;
  key_on : bool;
  key_measuring : bool;
  key_preload : bridge;
  key_outputs : bridge
}.

Definition key_of (s : foc) : foc_key :=
  mkKey (m_state (f_vars s)) (m_control_mode (f_vars s)) (m_output_on (f_vars s))
    (measure_inductance_now (m_samples s)) (foc_preload (f_timers s)) (foc_outputs (f_timers s)).

(** One channel, and all three, off and on. *)
Definition all_channels (c : tim_channel) : bridge := mkBridge c c c.
Definition bridge_off : bridge := all_channels (mkChannel TIM_ForcedAction_InActive true false).
Definition bridge_pwm : bridge := all_channels (mkChannel TIM_OCMode_PWM1 true true).

(** All transistors off and the flag clear, or all phases modulated and the flag
    set; on only while the motor runs or the inductance is measured; running
    exactly when there is a control mode. *)
Definition key_ok (k : foc_key) : Prop :=
  ((key_on k = false /\ key_preload k = bridge_off /\ key_outputs k = bridge_off) \/
   (key_on k = true /\ key_preload k = bridge_pwm /\ key_outputs k = bridge_pwm /\
    (key_state k = MC_STATE_RUNNING \/ key_measuring k = true))) /\
  ((key_state k = MC_STATE_OFF /\ key_mode k = CONTROL_MODE_NONE) \/
   (key_state k = MC_STATE_RUNNING /\ key_mode k <> CONTROL_MODE_NONE)).

(** ** Functions that leave them alone *)

Abbreviation fkeeps := (keeps key_of).

Lemma fkeeps_fvar {A} (f : foc_vars -> A) : fkeeps (fvar f).
Proof. by intros s a s' [= _ <-]. Qed.
Lemma fkeeps_mot {A} (f : motor_state_t -> A) : fkeeps (mot f).
Proof. by intros s a s' [= _ <-]. Qed.
Lemma fkeeps_smp {A} (f : mc_sample_t -> A) : fkeeps (smp f).
Proof. by intros s a s' [= _ <-]. Qed.
Lemma fkeeps_fcur {A} (f : foc_current -> A) : fkeeps (fcur f).
Proof. by intros s a s' [= _ <-]. Qed.
Lemma fkeeps_ang {A} (f : foc_angles -> A) : fkeeps (ang f).
Proof. by intros s a s' [= _ <-]. Qed.
Lemma fkeeps_sta {A} (f : foc_static -> A) : fkeeps (sta f).
Proof. by intros s a s' [= _ <-]. Qed.
Lemma fkeeps_ftim {A} (f : foc_timers -> A) : fkeeps (ftim f).
Proof. by intros s a s' [= _ <-]. Qed.
Lemma fkeeps_finp {A} (f : foc_inputs -> A) : fkeeps (finp f).
Proof. by intros s a s' [= _ <-]. Qed.
Lemma fkeeps_flift {A} (o : option A) : fkeeps (flift o).
Proof. intros s a s'. unfold flift. destruct o; [|done]. by intros [= _ <-]. Qed.
Lemma fkeeps_mot_set f : fkeeps (mot_set f).
Proof. by apply keeps_modify. Qed.
Lemma fkeeps_fcur_set f : fkeeps (fcur_set f).
Proof. by apply keeps_modify. Qed.
Lemma fkeeps_ang_set f : fkeeps (ang_set f).
Proof. by apply keeps_modify. Qed.
Lemma fkeeps_sta_set f : fkeeps (sta_set f).
Proof. by apply keeps_modify. Qed.
Lemma fkeeps_smp_set f : (forall m, measure_inductance_now (f m) = measure_inductance_now m) -> fkeeps (smp_set f).
Proof. intros H. apply keeps_modify. intros s. unfold key_of. cbn. by rewrite H. Qed.

Definition vkey (v : foc_vars) : Z * Z * bool := (m_state v, m_control_mode v, m_output_on v).
Lemma fkeeps_fvar_set f : (forall v, vkey (f v) = vkey v) -> fkeeps (fvar_set f).
Proof.
  intros H. apply keeps_modify. intros s. specialize (H (f_vars s)). unfold vkey in H.
  unfold key_of. cbn. by injection H as -> -> ->.
Qed.

Definition tkey (t : foc_timers) : bridge * bridge := (foc_preload t, foc_outputs t).
Lemma fkeeps_ftim_set f : (forall t, tkey (f t) = tkey t) -> fkeeps (ftim_set f).
Proof.
  intros H. apply keeps_modify. intros s. specialize (H (f_timers s)). unfold tkey in H.
  unfold key_of. cbn. by injection H as -> ->.
Qed.

Lemma fkeeps_when_f b (m : PF unit) : fkeeps m -> fkeeps (when_f b m).
Proof. destruct b; [done|]. intros _. apply keeps_ret. Qed.
Lemma fkeeps_if {A} (b : bool) (m1 m2 : PF A) : fkeeps m1 -> fkeeps m2 -> fkeeps (if b then m1 else m2).
Proof. by destruct b. Qed.

Create HintDb focb discriminated.
#[export] Hint Constants Opaque : focb.
#[export] Hint Resolve keeps_ret fkeeps_fvar fkeeps_mot fkeeps_smp fkeeps_fcur fkeeps_ang fkeeps_sta
  fkeeps_ftim fkeeps_finp fkeeps_flift fkeeps_mot_set fkeeps_fcur_set fkeeps_ang_set fkeeps_sta_set : focb.

Ltac foc_key := intros ?; cbv beta zeta; repeat case_match; reflexivity.

Ltac fkeep :=
  repeat first
    [ solve [eauto 2 with focb]
    | progress cbv zeta
    | apply fkeeps_when_f
    | match goal with |- keeps _ (if _ then _ else _) => apply fkeeps_if end
    | apply keeps_bind; [|intros ?]
    | apply fkeeps_fvar_set; foc_key
    | apply fkeeps_ftim_set; foc_key
    | apply fkeeps_smp_set; foc_key
    | match goal with |- keeps _ (let '(_, _) := ?x in _) => destruct x end
    | match goal with |- keeps _ (match ?x with (_, _) => _ end) => destruct x end
    | match goal with |- keeps _ (match ?x with Some _ => _ | None => _ end) => destruct x end ].

Section Functions.
Context (conf : mc_configuration).

Lemma fkeeps_input_voltage : fkeeps foc_input_voltage.
Proof. unfold foc_input_voltage. fkeep. Qed.
Hint Resolve fkeeps_input_voltage : focb.
Lemma fkeeps_update_duty a b c : fkeeps (TIMER_UPDATE_DUTY a b c).
Proof. unfold TIMER_UPDATE_DUTY. fkeep. Qed.
Hint Resolve fkeeps_update_duty : focb.
Lemma fkeeps_update_samp a b : fkeeps (TIMER_UPDATE_SAMP a b).
Proof. unfold TIMER_UPDATE_SAMP. fkeep. Qed.
Hint Resolve fkeeps_update_samp : focb.
Lemma fkeeps_update_samp_top a b c : fkeeps (TIMER_UPDATE_SAMP_TOP a b c).
Proof. unfold TIMER_UPDATE_SAMP_TOP. fkeep. Qed.
Lemma fkeeps_update_duty_currentsamp a b c d : fkeeps (TIMER_UPDATE_DUTY_CURRENTSAMP a b c d).
Proof. unfold TIMER_UPDATE_DUTY_CURRENTSAMP. fkeep. Qed.
Hint Resolve fkeeps_update_samp_top fkeeps_update_duty_currentsamp : focb.

Lemma fkeeps_sample_currents : fkeeps sample_currents.
Proof. unfold sample_currents. fkeep. Qed.
Lemma fkeeps_take_sample c : fkeeps (take_sample c).
Proof. unfold take_sample. fkeep. Qed.
Lemma fkeeps_track_encoder : fkeeps (track_encoder conf).
Proof. unfold track_encoder. fkeep. Qed.
Lemma fkeeps_control_duty d dt : fkeeps (control_duty conf d dt).
Proof. unfold control_duty. fkeep. Qed.
Hint Resolve fkeeps_control_duty : focb.
Lemma fkeeps_requested_current p dt : fkeeps (requested_current conf p dt).
Proof. unfold requested_current. fkeep. Qed.
Lemma fkeeps_run_observer dt : fkeeps (run_observer conf dt).
Proof. unfold run_observer. fkeep. Qed.
Lemma fkeeps_set_phase_now x : fkeeps (set_phase_now x).
Proof. unfold set_phase_now. fkeep. Qed.
Lemma fkeeps_read_hall : fkeeps read_hall.
Proof. unfold read_hall. fkeep. Qed.
Hint Resolve fkeeps_set_phase_now fkeeps_read_hall : focb.
Lemma fkeeps_correct_hall a s dt : fkeeps (correct_hall conf a s dt).
Proof. unfold correct_hall. fkeep. Qed.
Lemma fkeeps_correct_encoder o e s : fkeeps (correct_encoder conf o e s).
Proof. unfold correct_encoder. fkeep. Qed.
Hint Resolve fkeeps_correct_hall fkeeps_correct_encoder : focb.
Lemma fkeeps_hall_phase dt : fkeeps (hall_phase conf dt).
Proof. unfold hall_phase. fkeep. Qed.
Lemma fkeeps_encoder_phase : fkeeps (encoder_phase conf).
Proof. unfold encoder_phase. fkeep. Qed.
Hint Resolve fkeeps_sample_currents fkeeps_take_sample fkeeps_track_encoder fkeeps_requested_current
  fkeeps_run_observer fkeeps_hall_phase fkeeps_encoder_phase : focb.
Lemma fkeeps_running_phase dt i : fkeeps (running_phase conf dt i).
Proof. unfold running_phase. fkeep. Qed.
Lemma fkeeps_undriven_step dt : fkeeps (undriven_step conf dt).
Proof. unfold undriven_step. fkeep. Qed.
Lemma fkeeps_update_pll dt : fkeeps (update_pll conf dt).
Proof. unfold update_pll. fkeep. Qed.
Lemma fkeeps_update_tachometer : fkeeps update_tachometer.
Proof. unfold update_tachometer. fkeep. Qed.
Lemma fkeeps_track_position e : fkeeps (track_position conf e).
Proof. unfold track_position. fkeep. Qed.
Lemma fkeeps_update_phase_before : fkeeps update_phase_before.
Proof. unfold update_phase_before. fkeep. Qed.
Lemma fkeeps_pid_pos a b dt : fkeeps (run_pid_control_pos conf a b dt).
Proof. unfold run_pid_control_pos. fkeep. Qed.
Hint Resolve fkeeps_pid_pos : focb.
Lemma fkeeps_get_rpm : fkeeps mcpwm_foc_get_rpm.
Proof. unfold mcpwm_foc_get_rpm. fkeep. Qed.
Hint Resolve fkeeps_get_rpm : focb.
Lemma fkeeps_pid_speed dt : fkeeps (run_pid_control_speed conf dt).
Proof. unfold run_pid_control_speed. fkeep. Qed.
Lemma fkeeps_position_control dt : fkeeps (position_control conf dt).
Proof. unfold position_control. fkeep. Qed.
Lemma fkeeps_openloop_step dt : fkeeps (openloop_step conf dt).
Proof. unfold openloop_step. fkeep. Qed.
Lemma fkeeps_sample_running : fkeeps sample_running.
Proof. unfold sample_running. fkeep. Qed.
Hint Resolve fkeeps_pid_speed fkeeps_openloop_step fkeeps_sample_running : focb.
Lemma fkeeps_timer_thread_step : fkeeps (timer_thread_step conf).
Proof. unfold timer_thread_step. fkeep. Qed.
End Functions.
#[export] Hint Resolve fkeeps_input_voltage fkeeps_update_duty fkeeps_update_samp fkeeps_update_samp_top
  fkeeps_update_duty_currentsamp fkeeps_sample_currents fkeeps_take_sample fkeeps_track_encoder
  fkeeps_requested_current fkeeps_run_observer fkeeps_running_phase fkeeps_undriven_step
  fkeeps_update_pll fkeeps_update_tachometer fkeeps_track_position fkeeps_update_phase_before
  fkeeps_position_control fkeeps_timer_thread_step : focb.

(** ** The invariant *)

Definition K (P : foc_key -> Prop) (s : foc) : Prop := P (key_of s).

Lemma keeps_stays P {A} (m : PF A) : fkeeps m -> stays (K P) m.
Proof. intros H s a s' Hs E. unfold K. by rewrite (H _ _ _ E). Qed.

Lemma post_fkeeps {A B} P (m : PF A) (k : A -> PF B) Q :
  fkeeps m -> (forall a, post (K P) (k a) Q) -> post (K P) (m ≫= k) Q.
Proof. intros H. apply post_bind. by apply keeps_stays. Qed.

Ltac fskip := apply post_fkeeps; [solve [fkeep]|intros ?; cbv beta zeta].

Ltac fsplit := match goal with |- post _ (match ?x with (_, _) => _ end) _ => destruct x end.

Lemma post_start_pwm_hw :
  post (K (fun k => key_ok k /\ (key_state k = MC_STATE_RUNNING \/ key_measuring k = true)))
    start_pwm_hw (fun _ => K key_ok).
Proof.
  intros s [] s' [[_ Hm] Hr] [= <-]. split; [right|exact Hm]. by split_and!.
Qed.

Lemma post_stop_pwm_hw :
  post (K key_ok) stop_pwm_hw (fun _ => K (fun k => key_ok k /\ key_on k = false)).
Proof. intros s [] s' [_ Hm] [= <-]. split; [split; [left|exact Hm]|done]. by split_and!. Qed.

Definition released (k : foc_key) : Prop :=
  key_state k = MC_STATE_OFF /\ key_mode k = CONTROL_MODE_NONE /\ key_on k = false /\
  key_preload k = bridge_off /\ key_outputs k = bridge_off.

Lemma released_ok k : released k -> key_ok k.
Proof. intros (H1 & H2 & H3 & H4 & H5). split; left; by split_and!. Qed.

Lemma release_run s : exists s', release s = Some (tt, s') /\ K released s'.
Proof. eexists. split; [reflexivity|]. by split_and!. Qed.

Lemma post_release P : post P release (fun _ => K released).
Proof. intros s [] s' _ E. destruct (release_run s) as (s1 & E1 & H1). rewrite E1 in E. by injection E as <-. Qed.

Lemma set_running_key s a s' : set_running s = Some (a, s') ->
  key_of s' = mkKey MC_STATE_RUNNING (key_mode (key_of s)) (key_on (key_of s)) (key_measuring (key_of s))
                (key_preload (key_of s)) (key_outputs (key_of s)).
Proof.
  unfold set_running. change (mbind (M := ST foc) ?k (fvar m_state) s) with (k (m_state (f_vars s)) s).
  cbv beta. destruct (Z.eqb_spec (m_state (f_vars s)) MC_STATE_RUNNING) as [E|E].
  - intros [= _ <-]. unfold key_of. cbn [key_mode key_on key_measuring key_preload key_outputs]. by rewrite E.
  - by intros [= _ <-].
Qed.

(** A command that starts the motor. *)
Lemma start_key f :
  (forall v, m_control_mode (f v) <> CONTROL_MODE_NONE) ->
  (forall v, m_output_on (f v) = m_output_on v) ->
  post (K key_ok) (fvar_set f;; set_running) (fun _ => K key_ok).
Proof.
  intros Hm Ho s [] s' [Hb _] (a & s1 & [= <- <-] & E)%bind_inv. apply set_running_key in E. unfold K. rewrite E.
  specialize (Hm (f_vars s)). specialize (Ho (f_vars s)). split; [|right; by split].
  destruct Hb as [(H1 & H2 & H3)|(H1 & H2 & H3 & _)]; [left|right]; cbn [key_on key_preload key_outputs key_state key_of f_vars].
  - split; [|by split]. unfold key_of in *. cbn in *. by rewrite Ho.
  - split; [|split; [done|split; [done|by left]]]. unfold key_of in *. cbn in *. by rewrite Ho.
Qed.

Section Invariant.
Context (conf : mc_configuration).
Abbreviation I := (K key_ok).

Lemma stays_release : stays I release.
Proof. eapply post_weaken; [| |apply (post_release I)]; [done|]. intros ? s. apply released_ok. Qed.

Lemma stays_foc_exec c : stays I (foc_exec conf c).
Proof.
  assert (Hc : forall mode x, mode <> CONTROL_MODE_NONE -> stays I (set_current_mode conf mode x)).
  { intros mode x Hm. unfold set_current_mode. apply stays_if; [apply stays_release|].
    by apply start_key. }
  destruct c; cbn [foc_exec]; unfold mcpwm_foc_set_duty_noramp, mcpwm_foc_stop_pwm, mcpwm_foc_set_current;
    try by apply start_key.
  - by apply Hc.
  - by apply Hc.
  - by apply Hc.
  - apply stays_bind; [apply stays_release|]. intros []. apply keeps_stays. fkeep.
Qed.

Lemma stays_foc_execs cs : stays I (foc_execs conf cs).
Proof. induction cs as [|c cs IH]; [apply stays_ret|]. apply stays_bind; [apply stays_foc_exec|done]. Qed.

(** The current controller turns the bridge on while the motor runs. *)
Definition runs (k : foc_key) : Prop := key_ok k /\ key_state k = MC_STATE_RUNNING.

Lemma post_control_current dt : post (K runs) (control_current conf dt) (fun _ => I).
Proof.
  unfold control_current. do 2 fskip. fsplit. do 2 fskip. do 2 fsplit. do 2 fskip. do 2 fsplit. do 2 fskip.
  apply post_if; intros _; [|apply post_ret; by intros ? []].
  eapply post_weaken; [| |apply post_start_pwm_hw]; [|done]. intros ? [H1 H2]. split; [done|by left].
Qed.

Lemma post_running_step ia ib d dt : post (K runs) (running_step conf ia ib d dt) (fun _ => I).
Proof. unfold running_step. do 6 fskip. fsplit. fskip. apply post_control_current. Qed.

(** One step of the inductance measurement. *)
Definition measures (k : foc_key) : Prop := key_ok k /\ key_measuring k = true.

Lemma post_weaken_l {A} (P P' : foc_key -> Prop) Q (m : PF A) :
  (forall k, P' k -> P k) -> post (K P) m Q -> post (K P') m Q.
Proof. intros H. by apply post_weaken; [intros s; apply H|]. Qed.

Lemma post_inductance_step ia ib : post (K measures) (inductance_step ia ib) (fun _ => I).
Proof.
  unfold inductance_step. do 3 fskip.
  assert (Hk : forall m : PF unit, fkeeps m -> post (K measures) m (fun _ => I)).
  { intros m Hm. by apply (post_weaken_l key_ok); [intros k []|apply keeps_stays]. }
  assert (Hrest : forall st, stays I (sta_set (fun s => s <| inductance_state := i32 (st + 1) |>))).
  { intros st. apply keeps_stays. fkeep. }
  apply post_if; intros _.
  - fskip. apply (post_bind _ (fun _ => K (fun k => key_ok k /\ key_on k = false))).
    { eapply post_weaken; [| |apply post_stop_pwm_hw]; [by intros ? []|done]. }
    intros []. do 2 fskip. apply post_modify. intros s [[Hb Hm] Hon]. split; [|exact Hm].
    left. destruct Hb as [Hb|(Hon' & _)]; [done|]. congruence.
  - apply (post_bind _ (fun _ => I)); [|intros []; apply Hrest].
    repeat (apply post_if; intros _); try (apply Hk; solve [fkeep]).
    fskip. eapply post_weaken; [| |apply post_start_pwm_hw]; [|done]. intros ? [H1 H2]. split; [done|by right].
Qed.

Lemma stays_foc_isr cs :
  stays I (mcpwm_foc_adc_inj_int_handler conf (foc_execs conf cs)).
Proof.
  unfold mcpwm_foc_adc_inj_int_handler. fskip. fsplit.
  apply (post_bind _ (fun b s => I s /\ b = measure_inductance_now (m_samples s))).
  { by intros ? ? ? Hs [= <- <-]. }
  intros measuring. apply post_if; intros Hm.
  { eapply post_weaken; [| |apply post_inductance_step]; [|done]. intros ? [Hs ->]. by split. }
  apply (post_weaken I _ (fun _ => I)); [by intros ? []|done|]. do 4 fskip.
  apply (post_bind _ (fun st s => I s /\ st = m_state (f_vars s))).
  { by intros ? ? ? Hs [= <- <-]. }
  intros st. apply (post_bind _ (fun _ => I)).
  - apply post_if; intros Hst.
    + eapply post_weaken; [| |apply post_running_step]; [|done]. intros ? [Hs ->].
      split; [done|]. by apply Z.eqb_eq.
    + eapply post_weaken; [| |apply keeps_stays; fkeep]; [by intros ? []|done].
  - intros []. do 5 fskip. apply stays_bind; [apply stays_foc_execs|]. intros []. apply keeps_stays. fkeep.
Qed.

Lemma stays_foc_handle e : stays I (foc_handle conf e).
Proof.
  destruct e; cbn [foc_handle]; try (apply keeps_stays; solve [fkeep]).
  - apply stays_foc_isr.
  - apply stays_foc_exec.
  - by apply post_modify.
  - apply post_modify. intros ? [Hb _]. split; [|right; by split].
    destruct Hb as [Hb|(H1 & H2 & H3 & _)]; [by left|right]. split_and!; try done. by left.
  - fskip. apply stays_release.
  - apply post_modify. intros ? [Hb Hm]. split; [|exact Hm].
    destruct Hb as [Hb|(H1 & H2 & H3 & _)]; [by left|right]. split_and!; try done. by right.
Qed.
End Invariant.

Lemma post_init conf : post (fun _ => True) (mcpwm_foc_init conf) (fun _ => K released).
Proof.
  unfold mcpwm_foc_init. set (Z0 := K (fun k => key_state k = MC_STATE_OFF /\ key_mode k = CONTROL_MODE_NONE)).
  assert (Hz : forall f, stays Z0 (smp_set f)) by (intros f; by apply post_modify).
  assert (Ht : forall f, stays Z0 (ftim_set f)) by (intros f; by apply post_modify).
  apply (post_bind _ (fun _ => Z0)); [by apply post_modify|]. intros []. do 3 fskip.
  apply (post_bind _ (fun _ => Z0)); [apply Hz|]. intros [].
  apply (post_bind _ (fun _ => Z0)); [apply Ht|]. intros [].
  apply (post_bind _ (fun _ => K released)).
  { intros s [] s' [H1 H2] [= <-]. by split_and!. }
  intros []. do 2 fskip. apply keeps_stays. fkeep.
Qed.

Lemma reach_ok s : foc_reach s -> K key_ok s.
Proof.
  induction 1 as [conf st st' E|conf e st st' _ IH E].
  - apply released_ok. by apply (post_init conf st tt).
  - by apply (stays_foc_handle conf e st tt).
Qed.

(** C15. In every state the FOC driver reaches after its start, under any
    commands, interrupts, thread rounds, measurements and configurations,
    either all transistors are off or all three phases are modulated and
    the motor runs or the inductance is measured; it runs exactly when it
    has a control mode. *)
Theorem foc_bridge_reachable s : foc_reach s ->
  ((m_output_on (f_vars s) = false /\ foc_outputs (f_timers s) = bridge_off) \/
   (m_output_on (f_vars s) = true /\ foc_outputs (f_timers s) = bridge_pwm /\
    (m_state (f_vars s) = MC_STATE_RUNNING \/ measure_inductance_now (m_samples s) = true))) /\
  foc_preload (f_timers s) = foc_outputs (f_timers s) /\
  (m_state (f_vars s) = MC_STATE_OFF /\ m_control_mode (f_vars s) = CONTROL_MODE_NONE \/
   m_state (f_vars s) = MC_STATE_RUNNING /\ m_control_mode (f_vars s) <> CONTROL_MODE_NONE).
Proof.
  intros [Hb Hm]%reach_ok. change (key_of s) with (key_of s) in *. cbn in Hb, Hm.
  destruct Hb as [(H1 & H2 & H3)|(H1 & H2 & H3 & H4)]; rewrite H2, H3.
  - split; [by left|by split].
  - split; [right; by split_and!|by split].
Qed.

(** The default configuration: started, a current of 5 A set, one interrupt. *)
Definition reading0 : foc_inputs :=
  mkFocInputs (fun _ => 1500) 2048 2048 true false false 0 false false false f0.
Abbreviation conf0 := conf_general_get_default_mc_configuration.
Definition final {A} (s : foc) (r : option (A * foc)) : foc := match r with Some (_, s) => s | None => s end.
Definition started : foc := final (foc0 reading0) (mcpwm_foc_init conf0 (foc0 reading0)).
Definition commanded : foc := final started (foc_handle conf0 (FocCommand (FocCurrent (f_of_int 5))) started).
Definition driven : foc := final commanded (foc_handle conf0 (FocAdcIsr []) commanded).

Lemma foc_bridge_reachable_witness :
  m_output_on (f_vars driven) = true /\ foc_preload (f_timers driven) = foc_outputs (f_timers driven).
Proof.
  split; [vm_compute; reflexivity|].
  refine (proj1 (proj2 (foc_bridge_reachable driven _))).
  apply (foc_reach_step conf0 (FocAdcIsr []) commanded); [|vm_compute; reflexivity].
  apply (foc_reach_step conf0 (FocCommand (FocCurrent (f_of_int 5))) started); [|vm_compute; reflexivity].
  apply (foc_reach_init conf0 (foc0 reading0)). vm_compute. reflexivity.
Defined.

(** ** A released motor *)

(** Commands that release the motor, and events that do not start it. *)
Definition quiet_command (conf : mc_configuration) (c : foc_command) : bool :=
  match c with
  | FocCurrent x | FocBrake x => (fabs x <? cc_min_current conf)%f32
  | FocStop => (f0 <? cc_min_current conf)%f32
  | FocConfigure => true
  | _ => false
  end.

Definition quiet (conf : mc_configuration) (e : foc_event) : bool :=
  match e with
  | FocAdcIsr cs => forallb (quiet_command conf) cs
  | FocCommand c => quiet_command conf c
  | FocOverride _ _ | FocSample => false
  | _ => true
  end.

Lemma quiet_exec conf c s : quiet_command conf c = true ->
  exists s', foc_exec conf c s = Some (tt, s') /\ K released s' /\
             measure_inductance_now (m_samples s') = measure_inductance_now (m_samples s).
Proof.
  assert (Hrel : exists s', release s = Some (tt, s') /\ K released s' /\
                   measure_inductance_now (m_samples s') = measure_inductance_now (m_samples s)).
  { eexists. split; [reflexivity|]. by split_and!. }
  destruct c as [x|x|x|x|x|x| |]; cbn [quiet_command foc_exec]; intros Hq; try discriminate.
  - unfold mcpwm_foc_set_current, set_current_mode. by rewrite Hq.
  - unfold mcpwm_foc_set_brake_current, set_current_mode. by rewrite Hq.
  - unfold mcpwm_foc_stop_pwm, mcpwm_foc_set_current, set_current_mode. change (fabs f0) with f0. by rewrite Hq.
  - destruct Hrel as (s1 & E1 & H1 & H2). unfold mcpwm_foc_set_configuration.
    rewrite (ST_bind_Some _ _ _ _ _ E1). eexists. split; [reflexivity|]. by split.
Qed.

(** Released, and no measurement of the inductance goes on. *)
Definition at_rest (k : foc_key) : Prop := released k /\ key_measuring k = false.

Section Quiet.
Context (conf : mc_configuration).
Abbreviation R := (K at_rest).

Lemma rest_exec c : quiet_command conf c = true -> stays R (foc_exec conf c).
Proof.
  intros Hc s [] s' [_ Hm] E. destruct (quiet_exec conf c s Hc) as (s1 & E1 & H1 & H2).
  rewrite E1 in E. injection E as <-. split; [done|]. unfold key_of in *. cbn in *. by rewrite H2.
Qed.

Lemma rest_execs cs : forallb (quiet_command conf) cs = true -> stays R (foc_execs conf cs).
Proof.
  induction cs as [|c cs IH]; cbn [forallb foc_execs]; [intros _; apply stays_ret|].
  intros [Hc Hcs]%andb_prop. apply stays_bind; [by apply rest_exec|]. intros []. by apply IH.
Qed.

Lemma rest_isr cs : forallb (quiet_command conf) cs = true ->
  stays R (mcpwm_foc_adc_inj_int_handler conf (foc_execs conf cs)).
Proof.
  intros Hcs. unfold mcpwm_foc_adc_inj_int_handler. fskip. fsplit.
  apply (post_bind _ (fun b s => R s /\ b = false)).
  { intros ? ? ? [Hr Hm] [= <- <-]. by split. }
  intros measuring. apply post_if; intros Hm; [intros ? ? ? [_ ->]; discriminate|].
  apply (post_weaken R _ (fun _ => R)); [by intros ? []|done|]. do 4 fskip.
  apply (post_bind _ (fun st s => R s /\ st = MC_STATE_OFF)).
  { intros ? ? ? Hr [= <- <-]. split; [done|]. apply Hr. }
  intros st. apply (post_bind _ (fun _ => R)).
  - apply post_if; intros Hst; [intros ? ? ? [_ ->]; discriminate|].
    eapply post_weaken; [| |apply keeps_stays; fkeep]; [by intros ? []|done].
  - intros []. do 5 fskip. apply stays_bind; [by apply rest_execs|]. intros []. apply keeps_stays. fkeep.
Qed.

Lemma rest_handle e : quiet conf e = true -> stays R (foc_handle conf e).
Proof.
  destruct e; cbn [quiet foc_handle]; intros Hq; try discriminate; try (apply keeps_stays; solve [fkeep]).
  - by apply rest_isr.
  - by apply rest_exec.
  - by apply post_modify.
  - fskip. intros s [] s' [_ Hm] [= <-]. by split_and!.
Qed.
End Quiet.

Lemma rest_handles es : Forall (fun ce => quiet ce.1 ce.2 = true) es -> stays (K at_rest) (foc_handles es).
Proof.
  induction 1 as [|[conf e] es He _ IH]; cbn [foc_handles]; [apply stays_ret|].
  apply stays_bind; [by apply rest_handle|]. by intros [].
Qed.

(** C16. A current below the minimum, a stop with a positive minimum
    current and a new configuration switch all transistors of the FOC
    driver off at once, and interrupts, the thread and further such
    commands leave them off, unless the inductance is being measured. *)
Theorem foc_released_stays_off conf c s :
  quiet_command conf c = true -> measure_inductance_now (m_samples s) = false ->
  exists s1, foc_exec conf c s = Some (tt, s1) /\ m_state (f_vars s1) = MC_STATE_OFF /\
    foc_outputs (f_timers s1) = bridge_off /\
    forall es s2, Forall (fun ce => quiet ce.1 ce.2 = true) es -> foc_handles es s1 = Some (tt, s2) ->
      m_state (f_vars s2) = MC_STATE_OFF /\ foc_outputs (f_timers s2) = bridge_off /\
      fets_off (foc_outputs (f_timers s2)) = true.
Proof.
  intros Hc Hm. destruct (quiet_exec conf c s Hc) as (s1 & E1 & Hr & Hms). exists s1.
  split; [done|]. split; [apply Hr|]. split; [apply Hr|]. intros es s2 Hes E2.
  assert (Hs1 : K at_rest s1) by (split; [done|by rewrite <- Hm, <- Hms]).
  destruct (rest_handles es Hes s1 tt s2 Hs1 E2) as [(H1 & H2 & H3 & H4 & H5) _].
  split; [done|]. split; [done|]. unfold key_of in H5. cbn in H5. by rewrite H5.
Qed.

(** The driven motor is stopped; an interrupt and a round of the thread follow. *)
Lemma foc_released_stays_off_witness : exists s1 s2,
  foc_exec conf0 FocStop driven = Some (tt, s1) /\
  foc_handles [(conf0, FocAdcIsr [FocStop]); (conf0, FocThread)] s1 = Some (tt, s2) /\
  m_state (f_vars s2) = MC_STATE_OFF /\ foc_outputs (f_timers s2) = bridge_off.
Proof.
  destruct (foc_released_stays_off conf0 FocStop driven) as (s1 & E1 & _ & _ & H);
    [vm_compute; reflexivity|vm_compute; reflexivity|].
  set (es := [(conf0, FocAdcIsr [FocStop]); (conf0, FocThread)]) in *.
  exists s1, (final s1 (foc_handles es s1)). split; [exact E1|].
  assert (Hs1 : s1 = final driven (foc_exec conf0 FocStop driven)) by (rewrite E1; reflexivity).
  assert (E2 : foc_handles es s1 = Some (tt, final s1 (foc_handles es s1))).
  { rewrite Hs1. vm_compute. reflexivity. }
  split; [exact E2|].
  assert (Hq : Forall (fun ce => quiet ce.1 ce.2 = true) es) by (repeat constructor).
  destruct (H es _ Hq E2) as (H1 & H2 & _). split; assumption.
Defined.
