(* ===== verification/FocMeasureTheorems.v ===== *)
(** * FocMeasureTheorems: a measurement leaves the motor as it should

    Whatever happens while it sleeps, a measurement of the resistance or of the
    Hall sensors ends, with the motor released, the angle override off, the
    interface unlocked and the timeout as it was. *)
From S2P Require Import Prelude Safe Float32 McTypes Motor Flash Eeprom Utils World Transmit.
From S2P Require Import Transmit McInterface McInterfaceSpec Timeout ConfDefault ConfGeneral McpwmState McpwmBridge FocState Foc.
From S2P Require Import Keeps FocIsr FocMeasure FocBridge BoardSim.

(** The driver's variables are part of the hardware state, and a sleep ends. *)
Class FocInLaws (D : Type) `{FocIn D} : Prop :=
  foc_of_put : forall s (d : D), foc_of (foc_put s d) = s.
Class SleepEnds (D F : Type) `{Sleep D F} : Prop :=
  sleep_ends : forall ms (w : world D F), exists w', chThdSleepMilliseconds ms w = Some (tt, w').

Section Measure.
Context {D F : Type} `{FocInLaws D} `{SleepEnds D F} `{LibmTrig}.
Abbreviation W := (world D F).
Abbreviation M := (ST W).
Abbreviation ends m := (safe (fun _ : W => True) m).

Lemma ends_intro {A} (m : M A) : (forall w, exists a w', m w = Some (a, w')) -> ends m.
Proof. intros Hm w _. destruct (Hm w) as (a & w' & E). by exists a, w'. Qed.

Lemma triple_pure {A} (P : Prop) (m : M A) Q :
  (P -> triple (fun _ => True) m Q) -> triple (fun _ => P) m Q.
Proof. intros Hm w HP. by apply (Hm HP w). Qed.

Lemma ends_sleep ms : ends (chThdSleepMilliseconds ms).
Proof. apply ends_intro. intros w. destruct (sleep_ends ms w) as [w' E]. by exists tt, w'. Qed.

Lemma ends_foc {A} (m : PF A) : safe (fun _ => True) m -> ends (foc_run m).
Proof.
  intros Hm. apply ends_intro. intros w. destruct (Hm (foc_of (w_hw w)) I) as (a & s & E & _).
  unfold foc_run. rewrite E. by eexists _, _.
Qed.

Lemma ends_set f : ends (foc_run (fvar_set f)).
Proof. apply ends_foc. intros s _. by eexists _, _. Qed.

Lemma ends_wait n samples : ends (wait_samples n samples).
Proof.
  induction n as [|n IH]; cbn [wait_samples]; [by apply safe_ret|].
  apply safe_bind; [apply ends_foc; intros s _; by eexists _, _|]. intros k. apply safe_if; [|by apply safe_ret].
  apply safe_bind; [apply ends_sleep|done].
Qed.

(** *** The Hall sensors *)

Definition hall_sums_ok (t : hall_sums) : Prop :=
  length t.1.1 = 8%nat /\ length t.1.2 = 8%nat /\ length t.2 = 8%nat.

Lemma read_hall_small (w : W) : exists h w', foc_run read_hall w = Some (h, w') /\ 0 <= h < 8.
Proof.
  unfold foc_run, read_hall. unfold finp. eexists _, _. split; [reflexivity|].
  by destruct (foc_HALL1 _), (foc_HALL2 _), (foc_HALL3 _).
Qed.

Lemma add_hall_ok h angle t : 0 <= h < 8 -> hall_sums_ok t ->
  exists t', add_hall h angle t = Some t' /\ hall_sums_ok t'.
Proof.
  destruct t as [[ss cc] its]. intros Hh (L1 & L2 & L3). cbn in L1, L2, L3. unfold add_hall.
  destruct (sincosf angle) as [s c].
  destruct (at_ix_Some ss h ltac:(lia)) as [x ->], (at_ix_Some cc h ltac:(lia)) as [y ->], (at_ix_Some its h ltac:(lia)) as [z ->].
  cbn [mbind option_bind]. rewrite !put_ix_Some by lia. eexists. split; [reflexivity|].
  repeat split; cbn; by rewrite length_insert.
Qed.

Lemma hall_turn_ok n i step t : hall_sums_ok t ->
  triple (fun _ : W => True) (hall_turn n i step t) (fun t' _ => hall_sums_ok t').
Proof.
  revert i t. induction n as [|n IH]; intros i t Ht; cbn [hall_turn]; [by apply triple_ret|].
  eapply triple_bind; [apply ends_set|]. intros []. eapply triple_bind; [apply ends_sleep|]. intros [].
  apply (triple_bind _ (fun h _ => 0 <= h < 8)).
  { intros w _. destruct (read_hall_small w) as (h & w' & E & Hh). by exists h, w'. }
  intros h. apply triple_pure. intros Hh. eapply triple_bind; [apply ends_foc; intros s _; by eexists _, _|].
  intros angle. destruct (add_hall_ok h angle t Hh Ht) as (t1 & E & Ht1).
  intros w _. unfold lift_opt. rewrite E. erewrite ST_bind_Some by reflexivity. by apply IH.
Qed.

Lemma hall_turns_ok k n i step t : hall_sums_ok t ->
  triple (fun _ : W => True) (hall_turns k n i step t) (fun t' _ => hall_sums_ok t').
Proof.
  revert t. induction k as [|k IH]; intros t Ht; cbn [hall_turns]; [by apply triple_ret|].
  eapply triple_bind; [by apply hall_turn_ok|]. intros t'. cbv beta. apply triple_pure. apply IH.
Qed.

(** *** The end of a measurement *)

(** The motor is released and the override off; the interface is unlocked and
    the timeout is the one before. *)
Definition restored (t : timeout_state) (w : W) : Prop :=
  key_state (key_of (foc_of (w_hw w))) = MC_STATE_OFF /\ key_mode (key_of (foc_of (w_hw w))) = CONTROL_MODE_NONE /\
  key_on (key_of (foc_of (w_hw w))) = false /\ key_outputs (key_of (foc_of (w_hw w))) = bridge_off /\
  m_phase_override (f_vars (foc_of (w_hw w))) = false /\
  m_lock_enabled (w_mci w) = false /\
  timeout_msec_v (w_tmo w) = timeout_msec_v t /\ timeout_brake_current_v (w_tmo w) = timeout_brake_current_v t.

Definition released_foc (s : foc) : Prop :=
  key_state (key_of s) = MC_STATE_OFF /\ key_mode (key_of s) = CONTROL_MODE_NONE /\ key_on (key_of s) = false /\
  key_outputs (key_of s) = bridge_off /\ m_phase_override (f_vars s) = false.

Lemma stop_override_run (w : W) : exists w', stop_override w = Some (tt, w') /\ released_foc (foc_of (w_hw w')).
Proof.
  unfold stop_override, foc_run.
  assert (E : exists s, (fvar_set (fun v => v <| m_id_set := f0 |> <| m_iq_set := f0 |> <| m_phase_override := false |>);;
    release) (foc_of (w_hw w)) = Some (tt, s) /\ released_foc s).
  { destruct (foc_of (w_hw w)) as [] eqn:Ef. eexists. split; [reflexivity|]. repeat split. }
  destruct E as (s & -> & Hs). eexists. split; [reflexivity|].
  change (released_foc (foc_of (foc_put s (w_hw w)))). by rewrite foc_of_put.
Qed.

Lemma restore_run (t : timeout_state) {A} (a : A) (w : W) :
  exists w', (stop_override;; timeout_configure (timeout_msec_v t) (timeout_brake_current_v t);; mc_interface_unlock;; mret a) w
    = Some (a, w') /\ restored t w'.
Proof.
  destruct (stop_override_run w) as (w1 & E & (R1 & R2 & R3 & R4 & R5)). rewrite (ST_bind_Some _ _ _ _ _ E).
  eexists. split; [reflexivity|]. repeat split; done.
Qed.

Lemma then_ends {A B} (m : M A) (k : A -> M B) (Q : B -> W -> Prop) (w : W) : ends m ->
  (forall a w', exists b w2, k a w' = Some (b, w2) /\ Q b w2) -> exists b w2, (mbind (M := ST W) k m) w = Some (b, w2) /\ Q b w2.
Proof.
  intros Hm Hk. destruct (Hm w I) as (a & w' & E & _). destruct (Hk a w') as (b & w2 & E2 & HQ).
  exists b, w2. by rewrite (ST_bind_Some _ _ _ _ _ E).
Qed.

(** Setting variables of the driver keeps the timeout. *)
Lemma set_then {B} f (k : unit -> M B) (Q : B -> W -> Prop) (w : W) t : w_tmo w = t ->
  (forall w', w_tmo w' = t -> exists b w2, k tt w' = Some (b, w2) /\ Q b w2) ->
  exists b w2, (mbind (M := ST W) k (foc_run (fvar_set f))) w = Some (b, w2) /\ Q b w2.
Proof. intros Ht Hk. erewrite ST_bind_Some by reflexivity. by apply Hk. Qed.

(** Reading the timeout and setting another one. *)
Lemma timeout_then {B} ms (k : Z -> f32 -> M B) (Q : B -> W -> Prop) (w : W) t : w_tmo w = t ->
  (forall w', exists b w2, k (timeout_msec_v t) (timeout_brake_current_v t) w' = Some (b, w2) /\ Q b w2) ->
  exists b w2, (tout ← timeout_get_timeout_msec; tout_c ← timeout_get_brake_current;
    timeout_configure ms f0;; k tout tout_c) w = Some (b, w2) /\ Q b w2.
Proof.
  intros <- Hk. erewrite ST_bind_Some by reflexivity. erewrite ST_bind_Some by reflexivity.
  erewrite ST_bind_Some by reflexivity. apply Hk.
Qed.

Lemma measure_resistance_restores current samples (w : W) :
  exists r w', mcpwm_foc_measure_resistance current samples w = Some (r, w') /\ restored (w_tmo w) w'.
Proof.
  unfold mcpwm_foc_measure_resistance, start_override, override_phase. erewrite ST_bind_Some by reflexivity.
  apply (set_then _ _ _ _ (w_tmo w)); [done|]. intros w1 E1. apply (set_then _ _ _ _ (w_tmo w)); [done|]. intros w2 E2.
  apply (timeout_then _ _ _ _ _ E2). intros w3. apply then_ends; [apply ends_sleep|]. intros _ w4.
  apply then_ends; [apply ends_foc; intros s _; by eexists _, _|]. intros _ w5.
  apply then_ends; [apply ends_wait|]. intros _ w6.
  apply then_ends; [unfold averages; apply safe_bind; [apply ends_foc; intros s _; by eexists _, _|intros ?; by apply safe_ret]|].
  intros [c v] w7. destruct (restore_run (w_tmo w) ((v / c) * TWO_THIRDS)%f32 w7) as (w8 & E & HR). by eexists _, w8.
Qed.

(** The table has an entry for each of the eight readings. *)
Lemma hall_result_length t : hall_sums_ok t -> length (hall_result t).1 = 8%nat.
Proof.
  destruct t as [[ss cc] its]. intros (L1 & L2 & L3). cbn in L1, L2, L3. unfold hall_result. cbn [fst].
  rewrite length_zip_with, length_zip. lia.
Qed.

Lemma hall_detect_restores current (w : W) :
  exists r w', mcpwm_foc_hall_detect current w = Some (r, w') /\ (restored (w_tmo w) w' /\ length r.2 = 8%nat).
Proof.
  unfold mcpwm_foc_hall_detect, start_override, override_phase. erewrite ST_bind_Some by reflexivity.
  apply (set_then _ _ _ _ (w_tmo w)); [done|]. intros w1 E1. apply (timeout_then _ _ _ _ _ E1). intros w2.
  apply then_ends; [apply ends_set|]. intros _ w3. apply then_ends; [apply ends_sleep|]. intros _ w4.
  destruct (hall_turns_ok 3 360 0 1 (replicate 8 f0, replicate 8 f0, replicate 8 0) ltac:(done) w4 I) as (t1 & w5 & E5 & Ht1).
  rewrite (ST_bind_Some _ _ _ _ _ E5).
  destruct (hall_turns_ok 3 361 360 (-1) t1 Ht1 w5 I) as (t2 & w6 & E6 & Ht2).
  rewrite (ST_bind_Some _ _ _ _ _ E6). pose proof (hall_result_length t2 Ht2) as Hl.
  destruct (hall_result t2) as [table fails]. destruct (restore_run (w_tmo w) (fails =? 2, table) w6) as (w7 & E & HR).
  eexists _, w7. split; [exact E|]. by split.
Qed.

(** C19. Whatever happens while they sleep, the measurements of the
    resistance and of the Hall sensors come to an end with the motor
    released, the angle no longer overridden, the interface unlocked and
    the timeout as it was; the Hall table has an entry for every reading. *)
Theorem foc_measurements_restore current samples (w : W) :
  (exists r w', mcpwm_foc_measure_resistance current samples w = Some (r, w') /\ restored (w_tmo w) w') /\
  (exists r w', mcpwm_foc_hall_detect current w = Some (r, w') /\ restored (w_tmo w) w' /\ length r.2 = 8%nat).
Proof. split; [apply measure_resistance_restores|apply hall_detect_restores]. Qed.
End Measure.

(** ** Witness *)

#[export] Instance foc_in_itself : FocIn foc := {| foc_of s := s; foc_put s _ := s |}.
#[export] Instance foc_in_itself_laws : FocInLaws foc.
Proof. done. Qed.

(** One interrupt of the driver per sleep. *)
#[export] Instance sleep_isr : Sleep foc flash_mem := fun _ w =>
  Some (tt, match foc_handle conf0 (FocAdcIsr []) (w_hw w) with
            | Some (_, s) => w <| w_hw := s |> | None => w end).
#[export] Instance sleep_isr_ends : SleepEnds foc flash_mem.
Proof. intros ms w. by eexists. Qed.
#[export] Instance trig0 : LibmTrig := {| sincosf _ := (f0, f1); atan2f _ _ := f0; roundf x := x |}.

(** A running motor. *)
Definition foc_world : world foc flash_mem :=
  let w := sim_world MOTOR_TYPE_FOC in
  mkWorld (w_mci w) (w_tmo w) (w_cmd w) (w_can w) (w_sys w) (appconf w) (w_ee w) (VirtAddVarTab w)
    (fault_vec w) (fault_vec_write w) (w_out w) driven.

Lemma foc_measurements_restore_witness : m_output_on (f_vars (w_hw foc_world)) = true /\
  exists r w', mcpwm_foc_hall_detect (f_of_int 5) foc_world = Some (r, w') /\
    m_output_on (f_vars (w_hw w')) = false /\ timeout_msec_v (w_tmo w') = 1000 /\ length r.2 = 8%nat.
Proof.
  split; [by vm_compute|].
  destruct (foc_measurements_restore (f_of_int 5) 20 foc_world) as [_ (r & w' & E & HR & Hl)].
  exists r, w'. split; [exact E|]. destruct HR as (_ & _ & Hon & _ & _ & _ & Hm & _).
  split; [exact Hon|]. split; [exact Hm|exact Hl].
Defined.
