(* ===== verification/AppCommon.v ===== *)
(** * AppCommon: the safe start and the output stage of the applications

    What an application must have seen before it drives the motor: with safe start, app_ppm.c and app_adc.c drive the motor only after the
    input has been zero for some time, without interruption, and start over
    after a fault.  The specification of both: a history of marks, the latest
    first, and when such a history is [armed]. *)
From S2P Require Import Prelude.

(** A round with the input at zero, which counts [d]; a round with another
    input; a fault, a timeout or a new configuration. *)
Inductive mark := MZero (d : Z) | MNonzero | MReset.

Definition weight (m : mark) : Z := match m with MZero d => d | _ => 0 end.
Definition is_zero_mark (m : mark) : Prop := match m with MZero _ => True | _ => False end.

(** An uninterrupted run of zero inputs that counts [t], and no reset since. *)
Definition armed (t : Z) (h : list mark) : Prop :=
  exists h2 hz h1, h = h2 ++ hz ++ h1 /\ Forall is_zero_mark hz /\ t <= zsum (map weight hz) /\
    MReset ∉ h2.

(** What the latest zero inputs count together. *)
Fixpoint zeros (h : list mark) : Z :=
  match h with MZero d :: h => d + zeros h | _ => 0 end.

Lemma armed_cons t m h : m <> MReset -> armed t h -> armed t (m :: h).
Proof.
  intros Hm (h2 & hz & h1 & -> & Hz & Ht & Hh). exists (m :: h2), hz, h1.
  split; [done|]. split; [done|]. split; [done|]. by apply not_elem_of_cons.
Qed.

Lemma zeros_run h :
  exists hz h1, h = hz ++ h1 /\ Forall is_zero_mark hz /\ zsum (map weight hz) = zeros h.
Proof.
  induction h as [|[d| |] h (hz & h1 & -> & Hz & Hs)].
  - by exists [], [].
  - exists (MZero d :: hz), h1. split; [done|]. split; [by constructor|].
    change (d + zsum (map weight hz) = d + zeros (hz ++ h1)). by rewrite Hs.
  - by exists [], (MNonzero :: hz ++ h1).
  - by exists [], (MReset :: hz ++ h1).
Qed.

Lemma not_armed_zeros t h : ~ armed t h -> zeros h < t.
Proof.
  intros Hn. destruct (Z.lt_ge_cases (zeros h) t) as [|Hge]; [done|]. destruct Hn.
  destruct (zeros_run h) as (hz & h1 & -> & Hz & Hs). exists [], hz, h1.
  split; [done|]. split; [done|]. split; [lia|]. apply not_elem_of_nil.
Qed.

Lemma reset_not_armed t h : 0 < t -> ~ armed t (MReset :: h).
Proof.
  intros Ht (h2 & hz & h1 & Heq & Hz & Hs & Hin). destruct h2 as [|m h2].
  - destruct hz as [|m hz]; [cbn in Hs; lia|]. injection Heq as <- _. by apply Forall_inv in Hz.
  - injection Heq as <- _. by apply Hin, list_elem_of_here.
Qed.

(** A history of rounds that count [d] each needs enough of them. *)
Lemma armed_length t d h :
  0 <= d -> Forall (fun m => weight m <= d) h -> armed t h -> t <= d * Z.of_nat (length h).
Proof.
  intros Hd Hw (h2 & hz & h1 & -> & _ & Ht & _). rewrite !Forall_app in Hw.
  destruct Hw as (_ & Hw & _). rewrite !length_app.
  assert (zsum (map weight hz) <= d * Z.of_nat (length hz)); [|nia].
  clear Ht. induction Hw as [|m hz Hm _ IH]; [cbn; lia|].
  change (weight m + zsum (map weight hz) <= d * Z.of_nat (S (length hz))). lia.
Qed.

(** ** What the applications share
    (src/applications/app_ppm.c, app_adc.c, app_nunchuk.c)

    The input applications end in the same code: find the lowest speed of all
    controllers on the CAN bus, limit the current softly near the speed limit,
    control traction, and command this controller and the others.  An
    application keeps static variables [X] beside the core: its computations
    are in [ST (X * world)], and [core] runs one of the core's. *)
From S2P Require Import Prelude Float32 McTypes ConfCodec Motor Flash Eeprom Utils World Transmit.
From S2P Require Import Transmit McInterface ConfDefault FlashHelper Timeout ConfGeneral.
From S2P Require Import Commands CommCan.

(** [MAX_CAN_AGE], in seconds *)
Definition MAX_CAN_AGE : f32 := flit 1 10.

(** [UTILS_AGE_S] of utils.h *)
Definition UTILS_AGE_S (now x : Z) : f32 :=
  (f_of_int (elapsed now x) / f_of_int CH_CFG_ST_FREQUENCY)%f32.

(** [msg->id >= 0 && UTILS_AGE_S(msg->rx_time) < MAX_CAN_AGE] *)
Definition seen_recently (now : Z) (msg : can_status_msg) : bool :=
  (0 <=? csm_id msg) && (UTILS_AGE_S now (csm_rx_time msg) <? MAX_CAN_AGE)%f32.

(** The fields the three configurations share. *)
Record out_config := mkOut {
  rpm_lim_start : f32;
  rpm_lim_end : f32;
  multi_esc : bool;
  tc : bool;
  tc_max_diff : f32
}.

Definition ppm_out (c : ppm_config) : out_config :=
  mkOut (ppm_rpm_lim_start c) (ppm_rpm_lim_end c) (ppm_multi_esc c) (ppm_tc c) (ppm_tc_max_diff c).
Definition adc_out (c : adc_config) : out_config :=
  mkOut (adc_rpm_lim_start c) (adc_rpm_lim_end c) (adc_multi_esc c) (adc_tc c) (adc_tc_max_diff c).
Definition chuk_out (c : chuk_config) : out_config :=
  mkOut (chuk_rpm_lim_start c) (chuk_rpm_lim_end c) (chuk_multi_esc c) (chuk_tc c)
    (chuk_tc_max_diff c).

(** Near the speed limit the current falls to the minimum current. *)
Definition soft_limit (lim_start lim_end cc_min rpm_lowest current : f32) : f32 :=
  (if (rpm_lowest >? lim_end) && (current >? f0) then cc_min
   else if (rpm_lowest >? lim_start) && (current >? f0)
        then utils_map rpm_lowest lim_start lim_end current cc_min
   else if (rpm_lowest <? - lim_end) && (current <? f0) then cc_min
   else if (rpm_lowest <? - lim_start) && (current <? f0)
        then - utils_map (- rpm_lowest) lim_start lim_end (- current) cc_min
   else current)%f32.

(** A wheel that spins faster than the slowest one gets less current. *)
Definition traction (max_diff cc_min current diff : f32) : f32 :=
  let current_out := utils_map diff f0 max_diff current f0 in
  if (current_out <? cc_min)%f32 then f0 else current_out.

Definition directed (is_reverse : bool) (x : f32) : f32 := if is_reverse then (- x)%f32 else x.

Definition near_zero (x : f32) : bool := (fabs x <? flit 1 1000)%f32.

(** What the switch on the control type decides: [current], [current_mode],
    [current_mode_brake] and [send_duty]. *)
Record decision := mkDecision {
  d_current : f32;
  d_current_mode : bool;
  d_current_mode_brake : bool;
  d_send_duty : bool
}.

(** The decisions of the current modes: with reverse, and with a brake. *)
Definition decide_current (conf : mc_configuration) (x : f32) : decision :=
  mkDecision (if f0 <=? x then x * l_current_max conf else x * fabs (l_current_min conf))%f32
    true false false.
Definition decide_brake (conf : mc_configuration) (x : f32) : decision :=
  if (f0 <=? x)%f32 then mkDecision (x * l_current_max conf)%f32 true false false
  else mkDecision (fabs (x * l_current_min conf))%f32 true true false.

Section AppCommon.
Context {D F : Type} `{Board D}.
Abbreviation M := (ST (world D F)).

(** [for (int i = 0; i < CAN_STATUS_MSGS_TO_STORE; i++)] over the messages seen
    recently, [a] being what the body changes. *)
Fixpoint recent_loop {A} (n : nat) (i : Z) (f : can_status_msg -> A -> M A) (a : A) : M A :=
  match n with
  | O => mret a
  | S n =>
      msg ← comm_can_get_status_msg_index i;
      now ← hw chVTGetSystemTime;
      a ← match msg with
          | Some msg => if seen_recently now msg then f msg a else mret a
          | None => st_fail
          end;
      recent_loop n (i + 1) f a
  end.

Definition fold_recent {A} := recent_loop (A := A) CAN_STATUS_MSGS_TO_STORE 0.
Definition each_recent (f : can_status_msg -> M unit) : M unit := fold_recent (fun msg _ => f msg) tt.

(** "Find lowest RPM" *)
Definition lowest_rpm (c : out_config) (rpm_local : f32) : M f32 :=
  if multi_esc c then
    fold_recent (fun msg rpm_lowest =>
      mret (if fabs (csm_rpm msg) <? fabs rpm_lowest then csm_rpm msg else rpm_lowest)%f32) rpm_local
  else mret rpm_local.

(** "Send the same duty cycle to the other controllers" *)
Definition share_duty : M unit :=
  duty ← mc_interface_get_duty_cycle_now;
  each_recent (fun msg => comm_can_set_duty (u8 (csm_id msg)) duty).

Definition share_brake (current : f32) : M unit :=
  each_recent (fun msg => comm_can_set_current_brake (u8 (csm_id msg)) current).

Definition brake_output (current : f32) : M unit :=
  mc_interface_set_brake_current current;; share_brake current.

(** "Traction control" and the command: [current] is positive in the direction
    of [is_reverse], as are [rpm_local] and [rpm_lowest]. *)
Definition drive_output (c : out_config) (is_reverse : bool) (current rpm_local rpm_lowest : f32)
    : M unit :=
  cc_min ← (conf ← mci m_conf; mret (cc_min_current conf));
  let limit rpm := traction (tc_max_diff c) cc_min current (rpm - rpm_lowest)%f32 in
  current_out ←
    (if multi_esc c then
       current_out ← fold_recent (fun msg current_out =>
         let current_out := if tc c then limit (directed is_reverse (csm_rpm msg)) else current_out in
         comm_can_set_current (u8 (csm_id msg)) (directed is_reverse current_out);;
         mret current_out) current;
       mret (if tc c then limit rpm_local else current_out)
     else mret current);
  mc_interface_set_current (directed is_reverse current_out).

(** Soft limit and traction control of app_ppm.c and app_adc.c. *)
Definition current_output (c : out_config) (rpm_local rpm_lowest current : f32) : M unit :=
  cc_min ← (conf ← mci m_conf; mret (cc_min_current conf));
  let current := soft_limit (rpm_lim_start c) (rpm_lim_end c) cc_min rpm_lowest current in
  let is_reverse := (current <? f0)%f32 in
  drive_output c is_reverse (directed is_reverse current) (directed is_reverse rpm_local)
    (directed is_reverse rpm_lowest).

(** From "Find lowest RPM" to the end of the loop, in app_ppm.c and app_adc.c. *)
Definition app_output (c : out_config) (send_duty current_mode current_mode_brake : bool)
    (current : f32) : M unit :=
  rpm_local ← mc_interface_get_rpm;
  rpm_lowest ← lowest_rpm c rpm_local;
  when (send_duty && multi_esc c) share_duty;;
  when current_mode
    (if current_mode_brake then brake_output current
     else current_output c rpm_local rpm_lowest current).
End AppCommon.

(** ** Applications beside the core *)

Section Lift.
Context {X W : Type}.

Definition core {A} (m : ST W A) : ST (X * W) A := fun '(x, w) =>
  '(a, w') ← m w; Some (a, (x, w')).
Definition own {A} (f : X -> A) : ST (X * W) A := fun '(x, w) => Some (f x, (x, w)).
Definition own_set (f : X -> X) : ST (X * W) unit := fun '(x, w) => Some (tt, (f x, w)).
Definition own_when (b : bool) (m : ST (X * W) unit) : ST (X * W) unit := if b then m else mret tt.

Lemma core_run {A} (m : ST W A) (x : X) (w : W) a w' :
  m w = Some (a, w') -> core m (x, w) = Some (a, (x, w')).
Proof. intros Hm. unfold core. by rewrite Hm. Qed.

Lemma core_inv {A} (m : ST W A) (x : X) (w : W) a x' w' :
  core m (x, w) = Some (a, (x', w')) -> x' = x /\ m w = Some (a, w').
Proof.
  unfold core. cbv [mbind option_bind]. destruct (m w) as [[a1 w1]|]; [|done]. by intros [= <- <- <-].
Qed.
End Lift.
