(* ===== verification/AppPpm.v ===== *)
(** * AppPpm: the servo input and its application
    (src/servo_dec.c, src/applications/app_ppm.c)

    A timer measures the pulses of a remote control and calls [icuwidthcb];
    the decoded value wakes the application's thread, and so does a timer
    every 2 ms.  [ppm_thread_step] is one round of that thread. *)
From S2P Require Import Prelude Float32 McTypes ConfCodec Motor Flash Eeprom Utils World Transmit.
From S2P Require Import Transmit McInterface ConfDefault FlashHelper Timeout ConfGeneral.
From S2P Require Import Commands CommCan AppCommon.

(** ** servo_dec.c *)

Definition TIMER_FREQ : Z := 1000000.
Definition SERVO_NUM : Z := 1.

Record servo_state := mkServo {
  servo_last_update_time : Z;
  servo_pos : list f32;
  pulse_start : f32;
  pulse_end : f32;
  last_len_received : list f32;
  use_median_filter : bool;
  (** [c1] and [c2] of [icuwidthcb] *)
  median_c1 : f32;
  median_c2 : f32;
  (** is [done_func] set? *)
  done_func : bool
}.
#[export] Instance servo_state_eta : Eta servo_state := fun s =>
  mkServo (servo_last_update_time s) (servo_pos s) (pulse_start s) (pulse_end s)
    (last_len_received s) (use_median_filter s) (median_c1 s) (median_c2 s) (done_func s).

(** The static variables before the first call. *)
Definition servo_reset : servo_state :=
  mkServo 0 [f0] f1 (f_of_int 2) [f0] false (flit 1 2) (flit 1 2) false.

(** The length of a pulse of [width] timer ticks, in milliseconds. *)
Definition pulse_len (width : Z) : f32 :=
  (f_of_int width / (f_of_int TIMER_FREQ / f_of_int 1000))%f32.

(** The length beyond [pulse_start], cut to the range; -1 for a bad pulse. *)
Definition clip_pulse (start len_set len : f32) : f32 :=
  (if len >? len_set then
     if len <? len_set * flit 12 10 then len_set else - f1
   else if len <? f0 then
     if len + start >? start * flit 8 10 then f0 else - f1
   else len)%f32.

(** The accepted pulse of [icuwidthcb], up to the callback. *)
Definition servo_accept (len len_set : f32) (now : Z) (s : servo_state) : servo_state :=
  let c := ((len * f_of_int 2 - len_set) / len_set)%f32 in
  let s := if use_median_filter s then
             s <| servo_pos := [utils_middle_of_3 c (median_c1 s) (median_c2 s)] |>
               <| median_c2 := median_c1 s |> <| median_c1 := c |>
           else s <| servo_pos := [c] |> in
  s <| servo_last_update_time := now |>.

Definition servodec_set_pulse_options (start end_ : f32) (median_filter : bool) (s : servo_state)
    : servo_state :=
  s <| pulse_start := start |> <| pulse_end := end_ |> <| use_median_filter := median_filter |>.

Definition servodec_init (d_func : bool) (s : servo_state) : servo_state :=
  s <| servo_pos := [f0] |> <| last_len_received := [f0] |> <| done_func := d_func |>.

Definition servodec_get_servo (servo_num : Z) (s : servo_state) : option f32 :=
  if servo_num <? SERVO_NUM then servo_pos s !!? servo_num else Some f0.
Definition servodec_get_last_pulse_len (servo_num : Z) (s : servo_state) : option f32 :=
  if servo_num <? SERVO_NUM then last_len_received s !!? servo_num else Some f0.

(** In milliseconds. *)
Definition servodec_get_time_since_update (now : Z) (s : servo_state) : Z :=
  elapsed now (servo_last_update_time s) / (CH_CFG_ST_FREQUENCY / 1000).

(** ** app_ppm.c *)

Definition PPM_CTRL_TYPE_CURRENT : Z := 1.
Definition PPM_CTRL_TYPE_CURRENT_NOREV : Z := 2.
Definition PPM_CTRL_TYPE_CURRENT_NOREV_BRAKE : Z := 3.
Definition PPM_CTRL_TYPE_DUTY : Z := 4.
Definition PPM_CTRL_TYPE_DUTY_NOREV : Z := 5.
Definition PPM_CTRL_TYPE_PID : Z := 6.
Definition PPM_CTRL_TYPE_PID_NOREV : Z := 7.

Definition MIN_PULSES_WITHOUT_POWER : Z := 50.

Record ppm_state := mkPpm {
  servo : servo_state;
  ppm_is_running : bool;
  ppm_conf : ppm_config;
  pulses_without_power : Z;
  (** the [static] variable of the thread *)
  pulses_without_power_before : Z;
  (** the event the thread waits for *)
  ppm_event : bool
}.
#[export] Instance ppm_state_eta : Eta ppm_state := fun s =>
  mkPpm (servo s) (ppm_is_running s) (ppm_conf s) (pulses_without_power s)
    (pulses_without_power_before s) (ppm_event s).

Section AppPpm.
Context {D F : Type} `{Board D}.
Abbreviation W := (world D F).
Abbreviation A := (ST (ppm_state * W)).

Definition servo_set (f : servo_state -> servo_state) : A unit :=
  own_set (fun s => s <| servo := f (servo s) |>).

Definition app_ppm_configure (conf : ppm_config) : A unit :=
  own_set (fun s => s <| ppm_conf := conf |> <| pulses_without_power := 0 |>);;
  running ← own ppm_is_running;
  own_when running
    (servo_set (servodec_set_pulse_options (ppm_pulse_start conf) (ppm_pulse_end conf)
                  (ppm_median_filter conf))).

(** [chEvtSignalI(ppm_tp, 1)] *)
Definition ppm_signal : A unit := own_set (fun s => s <| ppm_event := true |>).

Definition servodec_func : A unit := core timeout_reset;; ppm_signal.

(** The timer callback; it restarts its timer for 2 ms. *)
Definition ppm_update : A unit := ppm_signal.

(** The callback of the pulse timer; [width] is what it measured. *)
Definition icuwidthcb (width : Z) : A unit :=
  servo_set (fun s => s <| last_len_received := [pulse_len width] |>);;
  s ← own servo;
  let len_set := (pulse_end s - pulse_start s)%f32 in
  let len := clip_pulse (pulse_start s) len_set (pulse_len width - pulse_start s)%f32 in
  own_when (f0 <=? len)%f32
    (now ← core (hw chVTGetSystemTime);
     servo_set (servo_accept len len_set now);;
     own_when (done_func s) servodec_func).

(** The thread before its loop. *)
Definition ppm_thread_init : A unit :=
  c ← own ppm_conf;
  servo_set (servodec_set_pulse_options (ppm_pulse_start c) (ppm_pulse_end c) (ppm_median_filter c));;
  servo_set (servodec_init true);;
  own_set (fun s => s <| ppm_is_running := true |>).

(** The first switch, and the dead band. *)
Definition ppm_input (c : ppm_config) (servo_val : f32) : f32 :=
  let t := ppm_ctrl_type c in
  let servo_val :=
    if (t =? PPM_CTRL_TYPE_CURRENT_NOREV) || (t =? PPM_CTRL_TYPE_DUTY_NOREV)
       || (t =? PPM_CTRL_TYPE_PID_NOREV)
    then ((servo_val + f1) / f_of_int 2)%f32 else servo_val in
  utils_deadband servo_val (ppm_hyst c) f1.

(** [pulses_without_power++] *)
Definition count_pulse : A unit :=
  own_set (fun s => s <| pulses_without_power := i32 (pulses_without_power s + 1) |>).

(** [pulses_without_power < MIN_PULSES_WITHOUT_POWER && config.safe_start] *)
Definition ppm_waiting (s : ppm_state) : bool :=
  (pulses_without_power s <? MIN_PULSES_WITHOUT_POWER) && ppm_safe_start (ppm_conf s).

(** A command that waits for the safe start. *)
Definition ppm_command_when_started (m : ST W unit) : A decision :=
  waiting ← own ppm_waiting;
  if waiting : bool then mret (mkDecision f0 false false false)
  else core m;; mret (mkDecision f0 false false true).

(** The second switch; [None] in the default case. *)
Definition ppm_control (c : ppm_config) (servo_val : f32) : A (option decision) :=
  let t := ppm_ctrl_type c in
  if (t =? PPM_CTRL_TYPE_CURRENT) || (t =? PPM_CTRL_TYPE_CURRENT_NOREV) then
    conf ← core (mci m_conf);
    own_when (near_zero servo_val) count_pulse;;
    mret (Some (decide_current conf servo_val))
  else if t =? PPM_CTRL_TYPE_CURRENT_NOREV_BRAKE then
    conf ← core (mci m_conf);
    own_when (servo_val <? flit 1 1000)%f32 count_pulse;;
    mret (Some (decide_brake conf servo_val))
  else if (t =? PPM_CTRL_TYPE_DUTY) || (t =? PPM_CTRL_TYPE_DUTY_NOREV) then
    own_when (near_zero servo_val) count_pulse;;
    conf ← core (mci m_conf);
    d ← ppm_command_when_started
          (mc_interface_set_duty
             (utils_map servo_val (- f1) f1 (- l_max_duty conf) (l_max_duty conf))%f32);
    mret (Some d)
  else if (t =? PPM_CTRL_TYPE_PID) || (t =? PPM_CTRL_TYPE_PID_NOREV) then
    own_when (near_zero servo_val) count_pulse;;
    d ← ppm_command_when_started (mc_interface_set_pid_speed (servo_val * ppm_pid_max_erpm c)%f32);
    mret (Some d)
  else mret None.

(** The body of the safe start: an interrupted sequence starts again. *)
Definition ppm_wait_round : A unit :=
  own_set (fun s => if pulses_without_power s =? pulses_without_power_before s
                    then s <| pulses_without_power := 0 |> else s);;
  own_set (fun s => s <| pulses_without_power_before := pulses_without_power s |>);;
  core (brake ← timeout_get_brake_current; mc_interface_set_brake_current brake).

(** [timeout_has_timeout() || servodec_get_time_since_update() >
    timeout_get_timeout_msec() || mc_interface_get_fault() != FAULT_CODE_NONE] *)
Definition ppm_halted : A bool :=
  s ← own servo;
  has ← core timeout_has_timeout;
  now ← core (hw chVTGetSystemTime);
  msec ← core timeout_get_timeout_msec;
  fault ← core mc_interface_get_fault;
  mret (has || (msec <? servodec_get_time_since_update now s) || negb (fault =? FAULT_CODE_NONE)).

(** The body of the loop of [ppm_thread]. *)
Definition ppm_round : A unit :=
  halted ← ppm_halted;
  if halted : bool then own_set (fun s => s <| pulses_without_power := 0 |>) else
  s ← own servo;
  servo_val ← core (lift_opt (servodec_get_servo 0 s));
  c ← own ppm_conf;
  d ← ppm_control c (ppm_input c servo_val);
  match d with
  | None => mret tt
  | Some d =>
      waiting ← own ppm_waiting;
      if waiting : bool then ppm_wait_round
      else core (app_output (ppm_out c) (d_send_duty d) (d_current_mode d) (d_current_mode_brake d)
                   (d_current d))
  end.

(** [chEvtWaitAny], then the body. *)
Definition ppm_thread_step : A unit :=
  e ← own ppm_event;
  own_when e (own_set (fun s => s <| ppm_event := false |>);; ppm_round).
End AppPpm.
