(* ===== verification/AppPpmTheorems.v ===== *)
(** * AppPpmTheorems: safe start, and what a round of the PPM application does *)
From S2P Require Import Prelude Float32 McTypes ConfCodec Motor Flash Eeprom Utils World Transmit.
From S2P Require Import Transmit McInterface McInterfaceSpec ConfDefault FlashHelper Timeout.
From S2P Require Import ConfGeneral Commands CommCan BoardSim AppCommon.
From S2P Require Import AppPpm.

Section Ppm.
Context {D F : Type} `{Board D}.
Abbreviation W := (world D F).
Abbreviation A := (ST (ppm_state * W)).

(** ** The parts of a round *)

(** Is the application halted: fault, timeout, or no pulse for too long? *)
Definition halted (s : ppm_state) (w : W) : bool :=
  has_timeout (w_tmo w)
  || (timeout_msec_v (w_tmo w) <? servodec_get_time_since_update (chVTGetSystemTime (w_hw w)) (servo s))
  || negb (m_fault_now (w_mci w) =? FAULT_CODE_NONE).

(** The decoded stick position, in the range of the control type. *)
Definition stick (s : ppm_state) : f32 := ppm_input (ppm_conf s) (default f0 (servo_pos (servo s) !! 0%nat)).

Definition ppm_active (s : ppm_state) : bool := (1 <=? ppm_ctrl_type (ppm_conf s)) && (ppm_ctrl_type (ppm_conf s) <=? 7).

(** Does the round count as one without power? *)
Definition zero_stick (s : ppm_state) : bool :=
  if ppm_ctrl_type (ppm_conf s) =? PPM_CTRL_TYPE_CURRENT_NOREV_BRAKE
  then (stick s <? flit 1 1000)%f32 else near_zero (stick s).

Definition counted (s : ppm_state) : ppm_state :=
  if zero_stick s then s <| pulses_without_power := i32 (pulses_without_power s + 1) |> else s.

(** The ppm_counters after a round that waits. *)
Definition waited (s : ppm_state) : ppm_state :=
  let n := if pulses_without_power s =? pulses_without_power_before s then 0
           else pulses_without_power s in
  s <| pulses_without_power := n |> <| pulses_without_power_before := n |>.

Definition servo_ok (s : ppm_state) : Prop := length (servo_pos (servo s)) = 1%nat.

Lemma halted_run s (w : W) : ppm_halted (s, w) = Some (halted s w, (s, w)).
Proof. reflexivity. Qed.

Lemma stick_run s (w : W) :
  servo_ok s ->
  core (lift_opt (servodec_get_servo 0 (servo s))) (s, w)
  = Some (default f0 (servo_pos (servo s) !! 0%nat), (s, w)).
Proof.
  unfold servo_ok. intros Hs. unfold servodec_get_servo, SERVO_NUM. cbn [Z.ltb Z.compare].
  change 0 with (Z.of_nat 0). rewrite at_ix_lookup.
  destruct (servo_pos (servo s)) as [|p [|]]; try discriminate. reflexivity.
Qed.

(** The command the switch gives itself, in the duty and speed modes. *)
Definition direct (s : ppm_state) (conf : mc_configuration) : option mc_command :=
  let t := ppm_ctrl_type (ppm_conf s) in
  if (t =? PPM_CTRL_TYPE_DUTY) || (t =? PPM_CTRL_TYPE_DUTY_NOREV) then
    Some (CmdDuty (utils_map (stick s) (- f1) f1 (- l_max_duty conf) (l_max_duty conf))%f32)
  else if (t =? PPM_CTRL_TYPE_PID) || (t =? PPM_CTRL_TYPE_PID_NOREV) then
    Some (CmdSpeed (stick s * ppm_pid_max_erpm (ppm_conf s))%f32)
  else None.

(** The decision in the current modes. *)
Definition current_decision (s : ppm_state) (conf : mc_configuration) : decision :=
  if ppm_ctrl_type (ppm_conf s) =? PPM_CTRL_TYPE_CURRENT_NOREV_BRAKE
  then decide_brake conf (stick s) else decide_current conf (stick s).

Lemma ppm_count_run b s (w : W) :
  own_when b count_pulse (s, w) =
  Some (tt, (if b then s <| pulses_without_power := i32 (pulses_without_power s + 1) |> else s, w)).
Proof. by destruct b. Qed.

Lemma ppm_active_cases s :
  ppm_active s = true -> exists t, In t [1; 2; 3; 4; 5; 6; 7] /\ ppm_ctrl_type (ppm_conf s) = t.
Proof.
  unfold ppm_active. intros [H1%Z.leb_le H2%Z.leb_le]%andb_true_iff.
  exists (ppm_ctrl_type (ppm_conf s)). split; [|done]. cbn [In]. lia.
Qed.

Lemma when_started_run (m : ST W unit) s (w : W) :
  ppm_command_when_started m (s, w) =
  if ppm_waiting s then Some (mkDecision f0 false false false, (s, w))
  else '(_, w1) ← m w; Some (mkDecision f0 false false true, (s, w1)).
Proof.
  unfold ppm_command_when_started. cbv [mbind ST_bind own option_bind]. destruct (ppm_waiting s); [done|].
  unfold core. cbv [mbind option_bind]. by destruct (m w) as [[[] w1]|].
Qed.

Lemma ppm_control_run s (w : W) :
  ppm_active s = true ->
  ppm_control (ppm_conf s) (stick s) (s, w) =
  match direct s (m_conf (w_mci w)) with
  | Some cmd =>
      if ppm_waiting (counted s) then Some (Some (mkDecision f0 false false false), (counted s, w))
      else '(_, w1) ← mc_exec cmd w; Some (Some (mkDecision f0 false false true), (counted s, w1))
  | None => Some (Some (current_decision s (m_conf (w_mci w))), (counted s, w))
  end.
Proof.
  intros (t & Ht & Heq)%ppm_active_cases. unfold ppm_control, direct, current_decision, counted, zero_stick.
  rewrite Heq.
  repeat (destruct Ht as [<-|Ht]); [..|destruct Ht]; cbn [Z.eqb Pos.eqb orb
    PPM_CTRL_TYPE_CURRENT PPM_CTRL_TYPE_CURRENT_NOREV PPM_CTRL_TYPE_CURRENT_NOREV_BRAKE
    PPM_CTRL_TYPE_DUTY PPM_CTRL_TYPE_DUTY_NOREV PPM_CTRL_TYPE_PID PPM_CTRL_TYPE_PID_NOREV].
  1-3: (erewrite ST_bind_Some by reflexivity); by rewrite (ST_bind_Some _ _ _ _ _ (ppm_count_run _ s w)).
  all: rewrite (ST_bind_Some _ _ _ _ _ (ppm_count_run _ s w)).
  1-2: (erewrite ST_bind_Some by reflexivity).
  all: unfold mbind at 1, ST_bind at 1; rewrite when_started_run; destruct (ppm_waiting _); [done|];
    cbn [mc_exec].
  1-2: by destruct (mc_interface_set_duty _ w) as [[[] w1]|].
  all: by destruct (mc_interface_set_pid_speed _ w) as [[[] w1]|].
Qed.
(** What a round that drives does to the core. *)
Definition drives (s : ppm_state) : ST W unit := fun w =>
  match direct s (m_conf (w_mci w)) with
  | Some cmd => (mc_exec cmd;; app_output (ppm_out (ppm_conf s)) true false false f0) w
  | None =>
      let d := current_decision s (m_conf (w_mci w)) in
      app_output (ppm_out (ppm_conf s)) (d_send_duty d) (d_current_mode d) (d_current_mode_brake d)
        (d_current d) w
  end.

Definition brakes : ST W unit := fun w => mc_exec (CmdBrake (timeout_brake_current_v (w_tmo w))) w.

Lemma ppm_wait_round_run s (w : W) :
  ppm_wait_round (s, w) = core (X := ppm_state) brakes (waited s, w).
Proof.
  unfold ppm_wait_round, waited. erewrite ST_bind_Some by reflexivity.
  erewrite ST_bind_Some by reflexivity. destruct (pulses_without_power s =? _); by destruct s.
Qed.

Lemma ppm_inactive_run s (w : W) :
  is_u8 (ppm_ctrl_type (ppm_conf s)) -> ppm_active s = false ->
  ppm_control (ppm_conf s) (stick s) (s, w) = Some (None, (s, w)).
Proof.
  unfold ppm_active. intros Hu Hn. unfold ppm_control.
  repeat rewrite (proj2 (Z.eqb_neq _ _)); try done; cbv [PPM_CTRL_TYPE_CURRENT
    PPM_CTRL_TYPE_CURRENT_NOREV PPM_CTRL_TYPE_CURRENT_NOREV_BRAKE PPM_CTRL_TYPE_DUTY
    PPM_CTRL_TYPE_DUTY_NOREV PPM_CTRL_TYPE_PID PPM_CTRL_TYPE_PID_NOREV];
    intros Heq; by rewrite Heq in Hn.
Qed.

Lemma ppm_round_run s (w : W) :
  servo_ok s -> is_u8 (ppm_ctrl_type (ppm_conf s)) ->
  ppm_round (s, w) =
  if halted s w then Some (tt, (s <| pulses_without_power := 0 |>, w))
  else if negb (ppm_active s) then Some (tt, (s, w))
  else if ppm_waiting (counted s) then core brakes (waited (counted s), w)
  else core (drives s) (counted s, w).
Proof.
  intros Hs Hu. unfold ppm_round. rewrite (ST_bind_Some _ _ _ _ _ (halted_run s w)).
  destruct (halted s w); [done|]. erewrite ST_bind_Some by reflexivity.
  rewrite (ST_bind_Some _ _ _ _ _ (stick_run s w Hs)).
  erewrite ST_bind_Some by reflexivity. fold (stick s).
  destruct (ppm_active s) eqn:Ha; cbn [negb].
  2: by rewrite (ST_bind_Some _ _ _ _ _ (ppm_inactive_run s w Hu Ha)).
  unfold mbind at 1, ST_bind at 1. rewrite (ppm_control_run s w Ha).
  destruct (direct s (m_conf (w_mci w))) as [cmd|] eqn:Hd.
  - destruct (ppm_waiting (counted s)) eqn:Hw.
    + unfold mbind, ST_bind, own. rewrite Hw. apply ppm_wait_round_run.
    + unfold drives, core. rewrite Hd. cbv [mbind option_bind ST_bind own].
      destruct (mc_exec cmd w) as [[[] w1]|]; [|done]. by rewrite Hw.
  - unfold mbind, ST_bind, own. destruct (ppm_waiting (counted s)); [apply ppm_wait_round_run|].
    unfold drives, core. by rewrite Hd.
Qed.
(** ** The history of the application *)

Definition round_mark (s : ppm_state) (w : W) : list mark :=
  if halted s w then [MReset]
  else if negb (ppm_active s) then []
  else if zero_stick s then [MZero 1] else [MNonzero].

Definition started (c : ppm_config) (s : ppm_state) : Prop :=
  exists w w' : W,
    (app_ppm_configure c;; ppm_thread_init)
      (mkPpm servo_reset false c 0 0 false, w) = Some (tt, (s, w')).

(** The latest mark first.  The world between two events is arbitrary. *)
Inductive ppm_history : list mark -> ppm_state -> Prop :=
| ph_start c s : is_u8 (ppm_ctrl_type c) -> started c s -> ppm_history [] s
| ph_pulse h s width (w : W) s' w' :
    ppm_history h s -> icuwidthcb width (s, w) = Some (tt, (s', w')) -> ppm_history h s'
| ph_timer h s (w : W) s' w' :
    ppm_history h s -> ppm_update (s, w) = Some (tt, (s', w')) -> ppm_history h s'
| ph_configure h s c (w : W) s' w' :
    ppm_history h s -> is_u8 (ppm_ctrl_type c) -> app_ppm_configure c (s, w) = Some (tt, (s', w')) ->
    ppm_history (MReset :: h) s'
| ph_round h s (w : W) s' w' :
    ppm_history h s -> ppm_thread_step (s, w) = Some (tt, (s', w')) ->
    ppm_history ((if ppm_event s then round_mark s w else []) ++ h) s'.

(** The invariant of the ppm_counters. *)
Record ppm_inv (h : list mark) (s : ppm_state) : Prop := {
  pi_servo : servo_ok s;
  pi_type : is_u8 (ppm_ctrl_type (ppm_conf s));
  pi_count : ~ armed MIN_PULSES_WITHOUT_POWER h -> ppm_safe_start (ppm_conf s) = true ->
    0 <= pulses_without_power s <= zeros h /\
    (pulses_without_power s = pulses_without_power_before s \/ pulses_without_power s = 0)
}.

(** What an event that is no round leaves alone. *)
Definition ppm_counters (s : ppm_state) : ppm_config * Z * Z :=
  (ppm_conf s, pulses_without_power s, pulses_without_power_before s).

Lemma inv_same h s s' : ppm_inv h s -> ppm_counters s' = ppm_counters s -> servo_ok s' -> ppm_inv h s'.
Proof. intros [Hs Ht Hc] [= H1 H2 H3] Hs'. split; [done|by rewrite H1|]. by rewrite H1, H2, H3. Qed.

Lemma servo_accept_ok len len_set now s : length (servo_pos (servo_accept len len_set now s)) = 1%nat.
Proof. unfold servo_accept. by destruct s as [? ? ? ? ? [|] ? ? ?]. Qed.

Lemma pulse_run width s (w : W) :
  exists s' w', icuwidthcb width (s, w) = Some (tt, (s', w')) /\
    ppm_counters s' = ppm_counters s /\ (servo_ok s -> servo_ok s') /\
    w_mci w' = w_mci w /\ w_hw w' = w_hw w.
Proof.
  unfold icuwidthcb, servo_set. erewrite ST_bind_Some by reflexivity.
  erewrite ST_bind_Some by reflexivity. unfold own_when.
  destruct (_ <=? _)%f32; [|by eexists _, _].
  erewrite ST_bind_Some by reflexivity. erewrite ST_bind_Some by reflexivity.
  destruct (done_func _); eexists _, _; (split; [reflexivity|]); (split; [done|]);
    (split; [|done]); intros _; apply servo_accept_ok.
Qed.

Lemma configure_run c s (w : W) :
  exists s', app_ppm_configure c (s, w) = Some (tt, (s', w)) /\
    ppm_counters s' = (c, 0, pulses_without_power_before s) /\ servo_pos (servo s') = servo_pos (servo s).
Proof.
  unfold app_ppm_configure. erewrite ST_bind_Some by reflexivity.
  erewrite ST_bind_Some by reflexivity. by destruct (ppm_is_running _); eexists.
Qed.

Lemma started_counters c s : started c s -> ppm_counters s = (c, 0, 0) /\ servo_ok s.
Proof.
  intros (w & w' & Hr). cbn in Hr. injection Hr as <- _. by destruct c.
Qed.

Lemma ppm_counted_conf s : ppm_conf (counted s) = ppm_conf s.
Proof. unfold counted. by destruct (zero_stick s), s. Qed.

Lemma ppm_inv_waiting h s (w : W) :
  ppm_inv h s -> ppm_safe_start (ppm_conf s) = true -> halted s w = false -> ppm_active s = true ->
  ~ armed MIN_PULSES_WITHOUT_POWER (round_mark s w ++ h) ->
  ppm_waiting (counted s) = true /\ ppm_inv (round_mark s w ++ h) (waited (counted s)).
Proof.
  intros [Hs Ht Hc] Hsafe Hh Ha Hn. unfold round_mark in *. rewrite Hh, Ha in *. cbn [negb] in *.
  assert (Hn0 : ~ armed MIN_PULSES_WITHOUT_POWER h).
  { intros Har. apply Hn. destruct (zero_stick s); by apply (armed_cons _ _ h). }
  destruct (Hc Hn0 Hsafe) as [Hcnt Hbef]. apply not_armed_zeros in Hn, Hn0.
  unfold ppm_waiting, MIN_PULSES_WITHOUT_POWER in *. rewrite ppm_counted_conf, Hsafe, andb_true_r. unfold counted.
  destruct (zero_stick s); cbn [app zeros] in *.
  - split; [apply Z.ltb_lt; cbn; rewrite i32_id by int_solve; lia|].
    split; [done|done|]. intros _ _. cbn. rewrite i32_id by int_solve. case_match; lia.
  - split; [apply Z.ltb_lt; lia|].
    split; [done|done|]. intros _ _. cbn. case_match; lia.
Qed.

Lemma exec_total c (w : W) : exists w', mc_exec c w = Some (tt, w').
Proof.
  rewrite exec_if_input. unfold if_input.
  assert (Ht : exists t w1, mc_interface_try_input w = Some (t, w1)).
  { unfold mc_interface_try_input. rewrite (ST_bind_Some _ _ _ _ _ (get_state_run w)). st_run.
    destruct (_ =? _); cbn; repeat case_match; eexists _, _; done. }
  destruct Ht as (t & w1 & Ht). rewrite (ST_bind_Some _ _ _ _ _ Ht).
  destruct (t =? 0); [|by eexists]. rewrite exec_body. by eexists.
Qed.

Lemma thread_step_run s (w : W) :
  ppm_thread_step (s, w) =
  if ppm_event s then ppm_round (s <| ppm_event := false |>, w) else Some (tt, (s, w)).
Proof. unfold ppm_thread_step. erewrite ST_bind_Some by reflexivity. by destruct (ppm_event s). Qed.

Lemma ppm_history_inv h s : ppm_history h s -> ppm_inv h s.
Proof.
  induction 1 as [c s Ht Hst|h s width w s' w' _ IH Hr|h s w s' w' _ IH Hr|h s c w s' w' _ IH Ht Hr
    |h s w s' w' _ IH Hr].
  - destruct (started_counters c s Hst) as [[= <- H1 H2] Hs].
    split; [done|done|]. intros _ _. rewrite H1, H2. cbn. lia.
  - destruct (pulse_run width s w) as (s1 & w1 & Hr1 & Hc & Hs & _). rewrite Hr1 in Hr.
    injection Hr as <- <-. apply (inv_same h s); [done|done|]. by apply Hs, IH.
  - injection Hr as <- <-. by apply (inv_same h s); [| |apply IH].
  - destruct (configure_run c s w) as (s1 & Hr1 & [= H1 H2 H3] & Hs). rewrite Hr1 in Hr.
    injection Hr as <- <-. split; [|by rewrite H1|].
    + unfold servo_ok. rewrite Hs. apply IH.
    + intros _ _. rewrite H2. cbn. lia.
  - rewrite thread_step_run in Hr. destruct (ppm_event s) eqn:He; [|by injection Hr as <- <-].
    set (s0 := s <| ppm_event := false |>) in *.
    change (round_mark s w) with (round_mark s0 w).
    assert (IH0 : ppm_inv h s0) by (apply (inv_same h s); [done|done|apply IH]).
    clearbody s0. clear s He IH. pose proof IH0 as [Hs Ht Hc].
    rewrite (ppm_round_run s0 w Hs Ht) in Hr.
    destruct (halted s0 w) eqn:Hh.
    { injection Hr as <- <-. unfold round_mark. rewrite Hh. split; [done|done|]. intros _ _. cbn. lia. }
    destruct (ppm_active s0) eqn:Ha; cbn [negb] in Hr.
    2: { injection Hr as <- <-. unfold round_mark. by rewrite Hh, Ha. }
    assert (Hs' : s' = if ppm_waiting (counted s0) then waited (counted s0) else counted s0)
      by (destruct (ppm_waiting _); by destruct (core_inv _ _ _ _ _ _ Hr)).
    assert (Hkeep : servo s' = servo s0 /\ ppm_conf s' = ppm_conf s0)
      by (rewrite Hs'; unfold waited, counted; by destruct (ppm_waiting _), (zero_stick s0)).
    destruct Hkeep as [Hk1 Hk2]. split.
    + unfold servo_ok. by rewrite Hk1.
    + by rewrite Hk2.
    + intros Hn Hsafe. rewrite Hk2 in Hsafe.
      destruct (ppm_inv_waiting h s0 w IH0 Hsafe Hh Ha Hn) as [Hw Hi]. rewrite Hs', Hw.
      apply Hi; [done|]. unfold waited, counted. by destruct (zero_stick s0).
Qed.

(** C23. With safe start, whatever pulses, timer ticks, configurations,
    faults and timeouts came before: until 50 rounds in a row have seen
    the stick at zero, with no fault, timeout or new configuration since,
    a round of the PPM application leaves the core alone or brakes. *)
Theorem ppm_start_is_safe h s (w : W) :
  ppm_history h s -> ppm_safe_start (ppm_conf s) = true ->
  ~ armed MIN_PULSES_WITHOUT_POWER (round_mark s w ++ h) ->
  exists s' w', ppm_thread_step (s, w) = Some (tt, (s', w')) /\ (w' = w \/ brakes w = Some (tt, w')).
Proof.
  intros Hist Hsafe Hn. pose proof (ppm_history_inv h s Hist) as Hinv. rewrite thread_step_run.
  destruct (ppm_event s); [|by eexists _, _; eauto].
  set (s0 := s <| ppm_event := false |>). change (round_mark s w) with (round_mark s0 w) in Hn.
  assert (Hi0 : ppm_inv h s0) by (apply (inv_same h s); [done|done|apply Hinv]).
  pose proof Hi0 as [Hs Ht _]. rewrite (ppm_round_run s0 w Hs Ht).
  destruct (halted s0 w) eqn:Hh; [by eexists _, _; eauto|].
  destruct (ppm_active s0) eqn:Ha; [|by eexists _, _; eauto]. cbn [negb].
  destruct (ppm_inv_waiting h s0 w Hi0 Hsafe Hh Ha Hn) as [-> _].
  destruct (exec_total (CmdBrake (timeout_brake_current_v (w_tmo w))) w) as [w' Hw].
  exists (waited (counted s0)), w'. split; [|by right]. by apply core_run.
Qed.

(** ** The start is reached *)

Fixpoint ppm_rounds (ws : list W) (s : ppm_state) : option ppm_state :=
  match ws with
  | [] => Some s
  | w :: ws => match ppm_round (s, w) with
               | Some (_, (s', _)) => ppm_rounds ws s' | None => None end
  end.

(** A state with the stick at zero that has counted [p] rounds. *)
Record zero_at (p b : Z) (s : ppm_state) : Prop := {
  za_servo : servo_ok s;
  za_type : is_u8 (ppm_ctrl_type (ppm_conf s));
  za_active : ppm_active s = true;
  za_zero : zero_stick s = true;
  za_count : pulses_without_power s = p;
  za_before : pulses_without_power_before s = b
}.

Lemma zero_round p b s (w : W) :
  zero_at p b s -> halted s w = false -> 0 <= p < 49 ->
  let n := if p + 1 =? b then 0 else p + 1 in
  ppm_waiting (counted s) = true ->
  exists s' w', ppm_round (s, w) = Some (tt, (s', w')) /\ zero_at n n s' /\ servo s' = servo s /\
    ppm_conf s' = ppm_conf s.
Proof.
  intros [Hs Ht Ha Hz Hp Hb] Hh Hr n Hw. rewrite (ppm_round_run s w Hs Ht), Hh, Ha, Hw. cbn [negb].
  destruct (exec_total (CmdBrake (timeout_brake_current_v (w_tmo w))) w) as [w' Hbr].
  exists (waited (counted s)), w'. split; [by apply core_run|].
  assert (Hn : (if pulses_without_power (counted s) =? pulses_without_power_before (counted s)
                then 0 else pulses_without_power (counted s)) = n).
  { unfold counted. rewrite Hz. cbn. by rewrite Hb, i32_id, Hp by int_solve. }
  unfold waited. rewrite Hn. unfold counted. rewrite Hz. by split.
Qed.

Lemma halted_servo s s' (w : W) : servo s' = servo s -> halted s' w = halted s w.
Proof. unfold halted. by intros ->. Qed.

Lemma all_running s s' (ws : list W) :
  servo s' = servo s -> Forall (fun w => halted s w = false) ws ->
  Forall (fun w => halted s' w = false) ws.
Proof. intros Hs. apply Forall_impl. intros w. by rewrite (halted_servo s s' w Hs). Qed.

(** Does a list of rounds lead to one that drives? *)
Definition reaches_drive (ws : list W) (s : ppm_state) : Prop :=
  exists n s' w, ws !! n = Some w /\ ppm_rounds (take n ws) s = Some s' /\
    ppm_round (s', w) = core (drives s') (counted s', w).

Lemma drive_now p b s (w : W) ws :
  zero_at p b s -> halted s w = false -> ppm_waiting (counted s) = false -> reaches_drive (w :: ws) s.
Proof.
  intros [Hs Ht Ha Hz Hp Hb] Hh Hw. exists 0%nat, s, w. split; [done|]. split; [done|].
  by rewrite (ppm_round_run s w Hs Ht), Hh, Ha, Hw.
Qed.

Lemma drive_later s s' (w : W) w' ws :
  ppm_round (s, w) = Some (tt, (s', w')) -> reaches_drive ws s' -> reaches_drive (w :: ws) s.
Proof.
  intros Hr (n & s1 & w1 & Hn & Hrs & Hd). exists (S n), s1, w1. split; [done|]. split; [|done].
  cbn [take ppm_rounds]. by rewrite Hr.
Qed.

Lemma zero_waiting p b s :
  zero_at p b s -> 0 <= p < 50 ->
  ppm_waiting (counted s) = (p + 1 <? 50) && ppm_safe_start (ppm_conf s).
Proof.
  intros [Hs Ht Ha Hz Hp Hb] Hr. unfold ppm_waiting, counted. rewrite Hz. cbn.
  by rewrite i32_id, Hp by int_solve.
Qed.

Lemma run_up n p s (ws : list W) :
  zero_at p p s -> Forall (fun w => halted s w = false) ws -> 0 <= p ->
  49 - p = Z.of_nat n -> (n < length ws)%nat -> reaches_drive ws s.
Proof.
  revert p s ws. induction n as [|n IH]; intros p s ws Hz Hh Hp Hn Hl;
    (destruct ws as [|w ws]; [cbn in Hl; lia|]); pose proof (Forall_inv Hh) as Hw;
    pose proof (zero_waiting p p s Hz ltac:(lia)) as Hwait.
  - apply (drive_now p p s w ws Hz Hw). rewrite Hwait. by replace (p + 1 <? 50) with false by lia.
  - destruct (ppm_waiting (counted s)) eqn:Hws; [|by apply (drive_now p p s w ws)].
    destruct (zero_round p p s w Hz Hw ltac:(lia) Hws) as (s' & w' & Hr & Hz' & Hs' & _).
    rewrite (proj2 (Z.eqb_neq (p + 1) p)) in Hz' by lia.
    apply (drive_later s s' w w' ws Hr), (IH (p + 1) s' ws Hz'); [|lia|lia|cbn in Hl; lia].
    by apply (all_running s), (Forall_inv_tail Hh).
Qed.

(** C24. After a reset of the PPM application with an active control type
    one of 51 rounds with the stick at zero drives, unless a fault, a
    timeout or a lost signal stops it in one of them, even if no further
    pulse arrives: the rounds of the 2 ms timer count as well. *)
Theorem ppm_start_is_reached h s (ws : list W) :
  ppm_history (MReset :: h) s -> ppm_active s = true -> zero_stick s = true ->
  Forall (fun w => halted s w = false) ws -> (51 <= length ws)%nat -> reaches_drive ws s.
Proof.
  intros Hist Ha Hz Hh Hl. destruct (ppm_history_inv _ _ Hist) as [Hs Ht Hc].
  destruct ws as [|w ws]; [cbn in Hl; lia|]. pose proof (Forall_inv Hh) as Hw.
  destruct (ppm_safe_start (ppm_conf s)) eqn:Hsafe.
  2: { exists 0%nat, s, w. split; [done|]. split; [done|]. rewrite (ppm_round_run s w Hs Ht), Hw, Ha.
       assert (Hwt : ppm_waiting (counted s) = false); [|by rewrite Hwt].
       unfold ppm_waiting. by rewrite ppm_counted_conf, Hsafe, andb_false_r. }
  pose proof (reset_not_armed MIN_PULSES_WITHOUT_POWER h ltac:(done)) as Hn.
  destruct (Hc Hn eq_refl) as [Hcnt _]. cbn [zeros] in Hcnt.
  assert (Hz0 : zero_at 0 (pulses_without_power_before s) s) by (split; [done..|lia|done]).
  assert (Hwait : ppm_waiting (counted s) = true) by (by rewrite (zero_waiting _ _ s Hz0), Hsafe).
  destruct (zero_round _ _ s w Hz0 Hw ltac:(lia) Hwait) as (s' & w' & Hr & Hz' & Hs' & _).
  apply (drive_later s s' w w' ws Hr).
  assert (Hh' : Forall (fun w => halted s' w = false) ws)
    by (by apply (all_running s), (Forall_inv_tail Hh)).
  cbn in Hl. destruct (_ =? _) in Hz'.
  - by apply (run_up 49 0 s' ws Hz' Hh'); lia.
  - by apply (run_up 48 1 s' ws Hz' Hh'); lia.
Qed.

(** ** What a driving round commands *)

Definition rpm_now (w : W) : f32 :=
  match the_driver (m_conf (w_mci w)) with
  | Some d => drv_get_rpm d (m_conf (w_mci w)) (w_hw w) | None => f0 end.

(** The command of a single controller, and whether it brakes. *)
Definition ppm_command (s : ppm_state) (w : W) : mc_command * bool :=
  let conf := m_conf (w_mci w) in
  match direct s conf with
  | Some cmd => (cmd, false)
  | None =>
      let d := current_decision s conf in
      if d_current_mode_brake d then (CmdBrake (d_current d), true)
      else (CmdCurrent (soft_limit (ppm_rpm_lim_start (ppm_conf s)) (ppm_rpm_lim_end (ppm_conf s))
                          (cc_min_current conf) (rpm_now w) (d_current d)), false)
  end.

Lemma then_nothing (m : ST W unit) w : (m;; mret tt) w = m w.
Proof. unfold mbind, ST_bind. by destruct (m w) as [[[] w1]|]. Qed.

Lemma directed_twice b x : directed b (directed b x) = x.
Proof. destruct b; [apply fopp_involutive|done]. Qed.

Lemma output_idle c (w : W) : multi_esc c = false -> app_output c true false false f0 w = Some (tt, w).
Proof.
  intros Hm. unfold app_output, mc_interface_get_rpm.
  rewrite (ST_bind_Some _ _ _ _ _ (motor_get_run _ _ w)). unfold lowest_rpm. by rewrite Hm.
Qed.

Lemma output_current c b x (w : W) :
  multi_esc c = false ->
  app_output c false true b x w =
  if b then (mc_exec (CmdBrake x);; share_brake x) w
  else mc_exec (CmdCurrent (soft_limit (rpm_lim_start c) (rpm_lim_end c)
                              (cc_min_current (m_conf (w_mci w))) (rpm_now w) x)) w.
Proof.
  intros Hm. unfold app_output, mc_interface_get_rpm.
  rewrite (ST_bind_Some _ _ _ _ _ (motor_get_run _ _ w)). unfold lowest_rpm. rewrite Hm.
  fold (rpm_now w). erewrite ST_bind_Some by reflexivity. erewrite ST_bind_Some by reflexivity.
  cbn [when]. destruct b; [done|]. unfold current_output. erewrite ST_bind_Some by reflexivity.
  unfold drive_output. erewrite ST_bind_Some by reflexivity. rewrite Hm.
  erewrite ST_bind_Some by reflexivity. by rewrite directed_twice.
Qed.

(** C26. A round of the PPM application that drives a single controller
    gives exactly one command: the duty cycle or speed of the stick, the
    brake current, or the current after the soft speed limit; only a brake
    is sent to the other controllers. *)
Theorem ppm_single_command h s (w : W) :
  ppm_history h s -> ppm_event s = true -> ppm_multi_esc (ppm_conf s) = false ->
  halted s w = false -> ppm_active s = true -> ppm_waiting (counted s) = false ->
  let '(cmd, braking) := ppm_command s w in
  ppm_thread_step (s, w) =
  core (mc_exec cmd;; (if braking then share_brake (match cmd with CmdBrake x => x | _ => f0 end)
                       else mret tt))
    ((counted s) <| ppm_event := false |>, w).
Proof.
  intros Hist He Hm Hh Ha Hw. destruct (ppm_history_inv h s Hist) as [Hs Ht _].
  destruct (ppm_command s w) as [cmd braking] eqn:Hcmd. rewrite thread_step_run, He.
  set (s0 := s <| ppm_event := false |>).
  assert (Hc0 : counted s0 = (counted s) <| ppm_event := false |>)
    by (unfold counted; change (zero_stick s0) with (zero_stick s); by destruct (zero_stick s)).
  rewrite (ppm_round_run s0 w Hs Ht). change (halted s0 w) with (halted s w).
  change (ppm_active s0) with (ppm_active s). rewrite Hh, Ha, Hc0. cbn [negb].
  change (ppm_waiting ((counted s) <| ppm_event := false |>)) with (ppm_waiting (counted s)). rewrite Hw.
  unfold core. enough (drives s0 w = (mc_exec cmd;; (if braking
    then share_brake (match cmd with CmdBrake x => x | _ => f0 end) else mret tt)) w) as -> by done.
  unfold ppm_command, drives in *. change (direct s0) with (direct s).
  change (current_decision s0) with (current_decision s).
  change (ppm_conf s0) with (ppm_conf s).
  destruct (direct s (m_conf (w_mci w))) as [cmd1|].
  - injection Hcmd as <- <-. destruct (exec_total cmd1 w) as [w1 H1].
    rewrite !(ST_bind_Some _ _ _ _ _ H1). by apply output_idle.
  - assert (Hd : d_send_duty (current_decision s (m_conf (w_mci w))) = false /\
                 d_current_mode (current_decision s (m_conf (w_mci w))) = true)
      by (unfold current_decision, decide_brake; destruct (_ =? _); [destruct (_ <=? _)%f32|]; done).
    destruct Hd as [-> ->]. rewrite output_current by done.
    destruct (d_current_mode_brake _); injection Hcmd as <- <-; [done|]. symmetry. apply then_nothing.
Qed.

(** Beyond the speed limit the PPM application commands the minimum
    current forwards in either direction: backwards it is not negated. *)
Theorem ppm_reverse_overspeed s (w : W) :
  let c := ppm_conf s in let conf := m_conf (w_mci w) in
  let current := d_current (current_decision s conf) in
  direct s conf = None -> d_current_mode_brake (current_decision s conf) = false ->
  (current >? f0)%f32 = true /\ (rpm_now w >? ppm_rpm_lim_end c)%f32 = true
  \/ (current <? f0)%f32 = true /\ (rpm_now w <? - ppm_rpm_lim_end c)%f32 = true ->
  ppm_command s w = (CmdCurrent (cc_min_current conf), false).
Proof.
  intros c conf current Hd Hb Hcase. unfold ppm_command. fold conf. rewrite Hd, Hb. fold current c.
  do 2 f_equal. unfold soft_limit. destruct Hcase as [[Hc Hr]|[Hc Hr]].
  - by rewrite Hc, Hr.
  - rewrite (fltb_asym _ _ Hc : (current >? f0)%f32 = false), !andb_false_r, Hc, Hr. done.
Qed.
End Ppm.

(** ** Witnesses *)

(** The default configuration with a control type; [pulses]: with safe start. *)
Definition sim_ppm_config (t : Z) (safe_start : bool) : ppm_config :=
  (app_ppm_conf sim_appconf) <| ppm_ctrl_type := t |> <| ppm_safe_start := safe_start |>.

Definition sim_ppm_started (c : ppm_config) : ppm_state :=
  mkPpm (mkServo 0 [f0] f1 (f_of_int 2) [f0] false (flit 1 2) (flit 1 2) true) true c 0 0 false.

Lemma sim_ppm_history t b :
  is_u8 t -> ppm_history (F := flash_mem) [] (sim_ppm_started (sim_ppm_config t b)).
Proof.
  intros Ht. apply (ph_start (sim_ppm_config t b)); [done|].
  by exists (sim_world MOTOR_TYPE_BLDC), (sim_world MOTOR_TYPE_BLDC).
Qed.

(** After a pulse of 1.8 ms, and before the thread has run. *)
Definition sim_pulsed (t : Z) (b : bool) : ppm_state :=
  match icuwidthcb 1800 (sim_ppm_started (sim_ppm_config t b), sim_world MOTOR_TYPE_BLDC) with
  | Some (_, (s, _)) => s | None => sim_ppm_started (sim_ppm_config t b) end.

Lemma sim_pulsed_history t b : is_u8 t -> ppm_history (F := flash_mem) [] (sim_pulsed t b).
Proof.
  intros Ht. destruct (pulse_run 1800 (sim_ppm_started (sim_ppm_config t b))
    (sim_world MOTOR_TYPE_BLDC)) as (s' & w' & Hr & _).
  apply (ph_pulse _ _ 1800 (sim_world MOTOR_TYPE_BLDC) _ w' (sim_ppm_history t b Ht)).
  unfold sim_pulsed. by rewrite Hr.
Qed.

Lemma ppm_start_is_safe_witness :
  let s := sim_pulsed PPM_CTRL_TYPE_DUTY true in
  exists s' w', ppm_thread_step (s, sim_world MOTOR_TYPE_BLDC) = Some (tt, (s', w')) /\
    (w' = sim_world MOTOR_TYPE_BLDC \/ brakes (sim_world MOTOR_TYPE_BLDC) = Some (tt, w')).
Proof.
  intros s. apply (ppm_start_is_safe [] s).
  - by apply sim_pulsed_history.
  - vm_compute. reflexivity.
  - intros Ha%(armed_length _ 1); [|lia|by vm_compute; repeat constructor]. by vm_compute in Ha.
Defined.

Lemma ppm_start_is_reached_witness :
  exists s : ppm_state, reaches_drive (replicate 51 (sim_world MOTOR_TYPE_BLDC)) s.
Proof.
  set (c := sim_ppm_config PPM_CTRL_TYPE_DUTY true).
  destruct (configure_run c (sim_ppm_started c) (sim_world MOTOR_TYPE_BLDC)) as (s & Hr & Hc & Hs).
  exists s. apply (ppm_start_is_reached [] s).
  - apply (ph_configure [] (sim_ppm_started c) c (sim_world MOTOR_TYPE_BLDC) s
      (sim_world MOTOR_TYPE_BLDC) (sim_ppm_history PPM_CTRL_TYPE_DUTY true ltac:(by split)));
      [by split|exact Hr].
  - injection Hr as <-. vm_compute. reflexivity.
  - injection Hr as <-. vm_compute. reflexivity.
  - injection Hr as <-. apply Forall_replicate. vm_compute. reflexivity.
  - rewrite length_replicate. lia.
Defined.

(** A pulse of 1.8 ms commands 60% duty cycle. *)
Lemma ppm_single_command_witness :
  let s := sim_pulsed PPM_CTRL_TYPE_DUTY false in
  exists x, ppm_thread_step (s, sim_world MOTOR_TYPE_BLDC) =
    core (mc_exec (CmdDuty x);; mret tt) ((counted s) <| ppm_event := false |>, sim_world MOTOR_TYPE_BLDC) /\
    (flit 599999 1000000 <? x)%f32 = true /\ (x <? flit 600001 1000000)%f32 = true.
Proof.
  intros s. eexists. split.
  - apply (ppm_single_command [] s (sim_world MOTOR_TYPE_BLDC)); [by apply sim_pulsed_history|..];
      vm_compute; reflexivity.
  - by vm_compute.
Defined.

(** The stick at -1, 300 erpm in reverse beyond a limit of 200. *)
Lemma ppm_reverse_overspeed_witness :
  let w := sim_world MOTOR_TYPE_BLDC in
  let w := w <| w_hw := (w_hw w) <| sim_rpm := -300 |> |> in
  let s := sim_ppm_started (sim_ppm_config PPM_CTRL_TYPE_CURRENT false) in
  let s := s <| servo := (servo s) <| servo_pos := [f_of_int (-1)] |> |>
             <| ppm_conf := (ppm_conf s) <| ppm_rpm_lim_end := f_of_int 200 |> |> in
  ppm_command s w = (CmdCurrent f1, false).
Proof.
  intros w0 w s0 s. apply (ppm_reverse_overspeed s w); [by vm_compute|by vm_compute|].
  right. by vm_compute.
Defined.
