(* ===== verification/AppAdc.v ===== *)
(** * AppAdc: the analog throttle (src/applications/app_adc.c)

    The thread computes the time of a sleep before the sleep and counts it after
    it, so [sleep_time], a local variable of the loop, is part of the state:
    [adc_thread_init] is the thread up to its first sleep, [adc_round] the loop
    from the end of one sleep to the next.  The pins of the buttons are its
    argument, a pin being [true] when it reads high. *)
From S2P Require Import Prelude Float32 McTypes ConfCodec Motor Flash Eeprom Utils World Transmit.
From S2P Require Import Transmit McInterface ConfDefault FlashHelper Timeout ConfGeneral.
From S2P Require Import Commands CommCan AppCommon.

Definition ADC_CTRL_TYPE_CURRENT : Z := 1.
Definition ADC_CTRL_TYPE_CURRENT_REV_CENTER : Z := 2.
Definition ADC_CTRL_TYPE_CURRENT_REV_BUTTON : Z := 3.
Definition ADC_CTRL_TYPE_CURRENT_NOREV_BRAKE_CENTER : Z := 4.
Definition ADC_CTRL_TYPE_CURRENT_NOREV_BRAKE_BUTTON : Z := 5.
Definition ADC_CTRL_TYPE_CURRENT_NOREV_BRAKE_ADC : Z := 6.
Definition ADC_CTRL_TYPE_DUTY : Z := 7.
Definition ADC_CTRL_TYPE_DUTY_REV_CENTER : Z := 8.
Definition ADC_CTRL_TYPE_DUTY_REV_BUTTON : Z := 9.

Definition MIN_MS_WITHOUT_POWER : Z := 500.
Definition FILTER_SAMPLES : Z := 5.
Definition RPM_FILTER_SAMPLES : Z := 8.

(** A ring of samples: [filter_buffer] and [filter_ptr]. *)
Record ring := mkRing { samples : list f32; ptr : Z }.

Definition ring_init (n : Z) : ring := mkRing (replicate (Z.to_nat n) f0) 0.

(** The mean of the [n] latest samples, the new one included. *)
Definition mean_filter (n : Z) (v : f32) (r : ring) : option (f32 * ring) :=
  buffer ← put_ix (ptr r) v (samples r);
  let i := ptr r + 1 in
  Some ((foldl fadd f0 buffer / f_of_int n)%f32, mkRing buffer (if n <=? i then 0 else i)).

Record adc_state := mkAdc {
  adc_conf : adc_config;
  ms_without_power : f32;
  decoded_level : f32;
  read_voltage : f32;
  decoded_level2 : f32;
  read_voltage2 : f32;
  use_rx_tx_as_buttons : bool;
  (** the local variable of the loop, in system ticks *)
  sleep_time : Z;
  (** the [static] variables of the thread *)
  adc_filter : ring;
  adc_filter2 : ring;
  ms_before : Z;
  was_pid : bool;
  rpm_filter : ring;
  pid_rpm : f32
}.
#[export] Instance adc_state_eta : Eta adc_state := fun s =>
  mkAdc (adc_conf s) (ms_without_power s) (decoded_level s) (read_voltage s) (decoded_level2 s)
    (read_voltage2 s) (use_rx_tx_as_buttons s) (sleep_time s) (adc_filter s) (adc_filter2 s) (ms_before s)
    (was_pid s) (rpm_filter s) (pid_rpm s).

(** The levels of the pins, as [palReadPad] returns them. *)
Record pins := mkPins { UART_TX : bool; UART_RX : bool; ICU : bool }.

Definition app_adc_configure (conf : adc_config) (s : adc_state) : adc_state :=
  s <| adc_conf := conf |> <| ms_without_power := f0 |>.

(** The variables before the start, then [app_adc_start]. *)
Definition adc_reset (conf : adc_config) : adc_state :=
  mkAdc conf f0 f0 f0 f0 f0 false 0 (ring_init FILTER_SAMPLES) (ring_init FILTER_SAMPLES) 0 false
    (ring_init RPM_FILTER_SAMPLES) f0.
Definition app_adc_start (use_rx_tx : bool) (s : adc_state) : adc_state :=
  s <| use_rx_tx_as_buttons := use_rx_tx |>.

(** The time of a sleep, in system ticks; a division by zero gives 0. *)
Definition adc_sleep_time (c : adc_config) : Z :=
  let t := if adc_update_rate_hz c =? 0 then 0 else CH_CFG_ST_FREQUENCY / adc_update_rate_hz c in
  if t =? 0 then 1 else t.

(** The loop before [chThdSleep]: the configuration of this moment fixes the
    sleep that the next round counts. *)
Definition adc_sleep (s : adc_state) : adc_state := s <| sleep_time := adc_sleep_time (adc_conf s) |>.

(** The thread up to its first sleep. *)
Definition adc_thread_init : adc_state -> adc_state := adc_sleep.

Definition adc_voltage (value : Z) : f32 := (f_of_int value / f_of_int 4095 * V_REG)%f32.

(** "Map and truncate the read voltage", "Optionally invert". *)
Definition adc_level (c : adc_config) (v : f32) : f32 :=
  let v := utils_map v (adc_voltage_start c) (adc_voltage_end c) f0 f1 in
  let v := fst (utils_truncate_number v f0 f1) in
  if adc_voltage_inverted c then (f1 - v)%f32 else v.

(** [cc_button] and [rev_button] *)
Definition adc_buttons (use_rx_tx : bool) (c : adc_config) (p : pins) : bool * bool :=
  let pressed level inverted := xorb (negb level) inverted in
  let t := adc_ctrl_type c in
  if use_rx_tx then
    (pressed (UART_TX p) (adc_cc_button_inverted c), pressed (UART_RX p) (adc_rev_button_inverted c))
  else if (t =? ADC_CTRL_TYPE_CURRENT_REV_BUTTON) || (t =? ADC_CTRL_TYPE_CURRENT_NOREV_BRAKE_BUTTON)
          || (t =? ADC_CTRL_TYPE_DUTY_REV_BUTTON)
  then (false, pressed (ICU p) (adc_rev_button_inverted c))
  else (pressed (ICU p) (adc_cc_button_inverted c), false).

(** The first switch, and the dead band. *)
Definition adc_input (c : adc_config) (rev_button : bool) (pwr brake : f32) : f32 :=
  let t := adc_ctrl_type c in
  let pwr :=
    if (t =? ADC_CTRL_TYPE_CURRENT_REV_CENTER) || (t =? ADC_CTRL_TYPE_CURRENT_NOREV_BRAKE_CENTER)
       || (t =? ADC_CTRL_TYPE_DUTY_REV_CENTER)
    then (pwr * f_of_int 2 - f1)%f32
    else if t =? ADC_CTRL_TYPE_CURRENT_NOREV_BRAKE_ADC
    then if (brake >? flit 1 100)%f32 then (- brake)%f32 else pwr
    else if (t =? ADC_CTRL_TYPE_CURRENT_REV_BUTTON)
            || (t =? ADC_CTRL_TYPE_CURRENT_NOREV_BRAKE_BUTTON) || (t =? ADC_CTRL_TYPE_DUTY_REV_BUTTON)
    then if rev_button then (- pwr)%f32 else pwr
    else pwr in
  utils_deadband pwr (adc_hyst c) f1.

(** [ms_without_power < MIN_MS_WITHOUT_POWER && config.safe_start] *)
Definition adc_waiting (s : adc_state) : bool :=
  (ms_without_power s <? f_of_int MIN_MS_WITHOUT_POWER)%f32 && adc_safe_start (adc_conf s).

(** [(1000.0 * (float)sleep_time) / (float)CH_CFG_ST_FREQUENCY] *)
Definition round_ms (sleep : Z) : f32 :=
  ((f_of_int 1000 * f_of_int sleep) / f_of_int CH_CFG_ST_FREQUENCY)%f32.

Section AppAdc.
Context {D F : Type} `{Board D}.
Abbreviation W := (world D F).
Abbreviation A := (ST (adc_state * W)).

(** The optional mean filter over one of the two rings. *)
Definition filtered (get : adc_state -> ring) (set : ring -> adc_state -> adc_state) (v : f32) : A f32 :=
  c ← own adc_conf;
  if adc_use_filter c then
    r ← own get;
    '(v, r) ← core (lift_opt (mean_filter FILTER_SAMPLES v r));
    own_set (set r);; mret v
  else mret v.

(** One of the two analog inputs, from the reading to the level. *)
Definition read_throttle : A f32 :=
  value ← core (hw (fun d => ADC_Value d ADC_IND_EXT));
  own_set (fun s => s <| read_voltage := adc_voltage value |>);;
  v ← filtered adc_filter (fun r s => s <| adc_filter := r |>) (adc_voltage value);
  c ← own adc_conf;
  own_set (fun s => s <| decoded_level := adc_level c v |>);;
  mret (adc_level c v).

Definition read_brake : A f32 :=
  value ← core (hw (fun d => ADC_Value d ADC_IND_EXT2));
  own_set (fun s => s <| read_voltage2 := adc_voltage value |>);;
  v ← filtered adc_filter2 (fun r s => s <| adc_filter2 := r |>) (adc_voltage value);
  c ← own adc_conf;
  own_set (fun s => s <| decoded_level2 := adc_level c v |>);;
  mret (adc_level c v).

(** [ms_without_power += ...] *)
Definition count_ms (sleep_ms : f32) : A unit :=
  own_set (fun s => s <| ms_without_power := (ms_without_power s + sleep_ms)%f32 |>).

(** The second switch; [None] in the default case. *)
Definition adc_control (c : adc_config) (pwr : f32) : A (option decision) :=
  let t := adc_ctrl_type c in
  sleep ← own sleep_time;
  if (t =? ADC_CTRL_TYPE_CURRENT) || (t =? ADC_CTRL_TYPE_CURRENT_REV_CENTER)
     || (t =? ADC_CTRL_TYPE_CURRENT_REV_BUTTON) then
    conf ← core (mci m_conf);
    own_when (near_zero pwr) (count_ms (round_ms sleep));;
    mret (Some (decide_current conf pwr))
  else if (t =? ADC_CTRL_TYPE_CURRENT_NOREV_BRAKE_CENTER)
          || (t =? ADC_CTRL_TYPE_CURRENT_NOREV_BRAKE_BUTTON)
          || (t =? ADC_CTRL_TYPE_CURRENT_NOREV_BRAKE_ADC) then
    conf ← core (mci m_conf);
    own_when (pwr <? flit 1 1000)%f32 (count_ms (round_ms sleep));;
    mret (Some (decide_brake conf pwr))
  else if (t =? ADC_CTRL_TYPE_DUTY) || (t =? ADC_CTRL_TYPE_DUTY_REV_CENTER)
          || (t =? ADC_CTRL_TYPE_DUTY_REV_BUTTON) then
    own_when (near_zero pwr) (count_ms (round_ms sleep));;
    waiting ← own adc_waiting;
    conf ← core (mci m_conf);
    if waiting : bool then mret (Some (mkDecision f0 false false false))
    else
      core (mc_interface_set_duty
              (utils_map pwr (- f1) f1 (- l_max_duty conf) (l_max_duty conf))%f32);;
      mret (Some (mkDecision f0 false false true))
  else mret None.

(** The body of the safe start. *)
Definition adc_wait_round : A unit :=
  own_set (fun s => if (ms_without_power s =? f_of_int (ms_before s))%f32
                    then s <| ms_without_power := f0 |> else s);;
  own_set (fun s => s <| ms_before := f2i32 (ms_without_power s) |>);;
  c ← own adc_conf;
  core (brake ← timeout_get_brake_current;
        mc_interface_set_brake_current brake;;
        when (adc_multi_esc c)
          (each_recent (fun msg => brake ← timeout_get_brake_current;
                                   comm_can_set_current_brake (u8 (csm_id msg)) brake))).

(** "Filter RPM to avoid glitches" *)
Definition filter_rpm : A f32 :=
  rpm ← core mc_interface_get_rpm;
  r ← own rpm_filter;
  '(v, r) ← core (lift_opt (mean_filter RPM_FILTER_SAMPLES rpm r));
  own_set (fun s => s <| rpm_filter := r |>);; mret v.

(** "Maintain the current speed with PID control": the speed at the moment the
    button was pressed. *)
Definition hold_speed (rpm_filtered : f32) : A unit :=
  own_set (fun s => if was_pid s then s else s <| was_pid := true |> <| pid_rpm := rpm_filtered |>);;
  rpm ← own pid_rpm;
  core (mc_interface_set_pid_speed rpm);;
  c ← own adc_conf;
  own_when (adc_multi_esc c) (core share_duty).

(** The loop from "Read the external ADC pin" to the second switch: the
    decision, the position [pwr] and [cc_button]. *)
Definition adc_read (p : pins) : A (f32 * bool) :=
  pwr ← read_throttle;
  brake ← read_brake;
  c ← own adc_conf;
  use_rx_tx ← own use_rx_tx_as_buttons;
  let '(cc_button, rev_button) := adc_buttons use_rx_tx c p in
  mret (adc_input c rev_button pwr brake, cc_button).

(** From the second switch on. *)
Definition adc_act (pwr : f32) (cc_button : bool) : A unit :=
  c ← own adc_conf;
  d ← adc_control c pwr;
  match d with
  | None => mret tt
  | Some d =>
      waiting ← own adc_waiting;
      if waiting : bool then adc_wait_round else
      core timeout_reset;;
      rpm_filtered ← filter_rpm;
      if d_current_mode d && cc_button && near_zero pwr then hold_speed rpm_filtered else
      own_set (fun s => s <| was_pid := false |>);;
      core (app_output (adc_out c) (d_send_duty d) (d_current_mode d) (d_current_mode_brake d)
              (d_current d))
  end.

(** The body of the loop of [adc_thread] after the sleep, up to its end or to
    one of its [continue]s. *)
Definition adc_pass (p : pins) : A unit :=
  fault ← core mc_interface_get_fault;
  own_when (negb (fault =? FAULT_CODE_NONE)) (own_set (fun s => s <| ms_without_power := f0 |>));;
  '(pwr, cc_button) ← adc_read p;
  adc_act pwr cc_button.

(** From the end of one sleep to the next. *)
Definition adc_round (p : pins) : A unit := adc_pass p;; own_set adc_sleep.
End AppAdc.
