(* ===== verification/AppAdcTheorems.v ===== *)
(** * AppAdcTheorems: safe start and cruise control of the analog throttle *)
From S2P Require Import Prelude Float32 McTypes ConfCodec Motor Flash Eeprom Utils World Transmit.
From S2P Require Import Transmit McInterface McInterfaceSpec ConfDefault FlashHelper Timeout.
From S2P Require Import ConfGeneral Commands CommCan Keeps Safe BoardSim FloatExact AppCommon AppAdc.

Section Adc.
Context {D F : Type} `{Board D}.
Abbreviation W := (world D F).
Abbreviation A := (ST (adc_state * W)).

(** ** The parts of a round *)

Definition ring_ok (n : Z) (r : ring) : Prop := Z.of_nat (length (samples r)) = n /\ 0 <= ptr r < n.

Lemma mean_filter_run n v r :
  ring_ok n r -> exists x r', mean_filter n v r = Some (x, r') /\ ring_ok n r'.
Proof.
  intros [Hl Hp]. unfold mean_filter. rewrite put_ix_Some by lia. eexists _, _. split; [reflexivity|].
  split; cbn [samples ptr]; [by rewrite length_insert|]. destruct (Z.leb_spec n (ptr r + 1)); lia.
Qed.

Definition has_fault (w : W) : bool := negb (m_fault_now (w_mci w) =? FAULT_CODE_NONE).
Definition after_fault (s : adc_state) (w : W) : adc_state :=
  if has_fault w then s <| ms_without_power := f0 |> else s.

Definition adc_active (s : adc_state) : bool :=
  (1 <=? adc_ctrl_type (adc_conf s)) && (adc_ctrl_type (adc_conf s) <=? 9).

(** Does the position count as zero? *)
Definition zero_throttle (c : adc_config) (pwr : f32) : bool :=
  let t := adc_ctrl_type c in
  if (t =? ADC_CTRL_TYPE_CURRENT_NOREV_BRAKE_CENTER) || (t =? ADC_CTRL_TYPE_CURRENT_NOREV_BRAKE_BUTTON)
     || (t =? ADC_CTRL_TYPE_CURRENT_NOREV_BRAKE_ADC)
  then (pwr <? flit 1 1000)%f32 else near_zero pwr.

Definition counted (pwr : f32) (s : adc_state) : adc_state :=
  if zero_throttle (adc_conf s) pwr
  then s <| ms_without_power := (ms_without_power s + round_ms (sleep_time s))%f32 |> else s.

Definition waited (s : adc_state) : adc_state :=
  let ms := if (ms_without_power s =? f_of_int (ms_before s))%f32 then f0 else ms_without_power s in
  s <| ms_without_power := ms |> <| ms_before := f2i32 ms |>.

(** What reading the inputs leaves alone. *)
Definition control (s : adc_state) : adc_config * f32 * Z * (bool * Z) * (bool * ring * f32) :=
  (adc_conf s, ms_without_power s, ms_before s, (use_rx_tx_as_buttons s, sleep_time s),
   (was_pid s, rpm_filter s, pid_rpm s)).
Definition rings_ok (s : adc_state) : Prop :=
  ring_ok FILTER_SAMPLES (adc_filter s) /\ ring_ok FILTER_SAMPLES (adc_filter2 s).

(** The states a reading goes through. *)
Definition reading (c : adc_config * f32 * Z * (bool * Z) * (bool * ring * f32)) (w : W)
    (sw : adc_state * W) : Prop := rings_ok (fst sw) /\ control (fst sw) = c /\ snd sw = w.

Lemma reading_own {B} c w (f : adc_state -> B) : safe (reading c w) (own f).
Proof. intros [s w'] Hs. by exists (f s), (s, w'). Qed.

Lemma reading_set c w f :
  (forall s, rings_ok s -> rings_ok (f s)) -> (forall s, control (f s) = control s) ->
  safe (reading c w) (own_set f).
Proof.
  intros Hr Hc [s w'] (H1 & H2 & H3). exists tt, (f s, w'). split; [done|].
  split; [by apply Hr|]. split; [by rewrite <- H2; apply Hc|done].
Qed.

Lemma reading_hw {B} c w (f : D -> B) : safe (reading c w) (core (hw f)).
Proof. intros [s w'] Hs. by eexists _, (s, w'). Qed.

Lemma filtered_safe c w get set v :
  (forall s, rings_ok s -> ring_ok FILTER_SAMPLES (get s)) ->
  (forall r s, ring_ok FILTER_SAMPLES r -> rings_ok s -> rings_ok (set r s)) ->
  (forall r s, control (set r s) = control s) ->
  safe (reading c w) (filtered get set v).
Proof.
  intros Hg Hs Hc. apply safe_bind; [apply reading_own|]. intros conf.
  destruct (adc_use_filter conf); [|apply safe_ret].
  intros [s w'] (H1 & H2 & H3). erewrite ST_bind_Some by reflexivity.
  destruct (mean_filter_run FILTER_SAMPLES v (get s) (Hg s H1)) as (x & r & Hm & Hr).
  assert (Hcore : core (lift_opt (mean_filter FILTER_SAMPLES v (get s))) (s, w') = Some ((x, r), (s, w')))
    by (apply core_run; unfold lift_opt; by rewrite Hm).
  rewrite (ST_bind_Some _ _ _ _ _ Hcore). exists x, (set r s, w'). split; [reflexivity|].
  split; [by apply Hs|]. split; [by rewrite <- H2; apply Hc|done].
Qed.

Lemma read_safe c p (w : W) : safe (reading c w) (adc_read p).
Proof.
  unfold adc_read, read_throttle, read_brake.
  repeat first
    [ match goal with |- safe _ (filtered _ _ _) =>
        apply filtered_safe; [by intros s [? ?]|intros r s ? [? ?]; by split|by intros r s] end
    | apply safe_bind; [|intros ?] | apply safe_ret | apply reading_own | apply reading_hw
    | match goal with |- context [adc_buttons ?a ?b ?c] => destruct (adc_buttons a b c) end
    | apply reading_set; [intros s [? ?]; by split|by intros s] ].
Qed.

Lemma read_run p s (w : W) :
  rings_ok s -> exists pwr cc s', adc_read p (s, w) = Some ((pwr, cc), (s', w)) /\
    rings_ok s' /\ control s' = control s.
Proof.
  intros Hs. destruct (read_safe (control s) p w (s, w)) as ([pwr cc] & [s' w'] & Hr & H1 & H2 & H3);
    [done|]. cbn in H3. subst w'. by exists pwr, cc, s'.
Qed.

Lemma adc_active_cases s :
  adc_active s = true -> exists t, In t [1; 2; 3; 4; 5; 6; 7; 8; 9] /\ adc_ctrl_type (adc_conf s) = t.
Proof.
  unfold adc_active. intros [H1%Z.leb_le H2%Z.leb_le]%andb_true_iff.
  exists (adc_ctrl_type (adc_conf s)). split; [|done]. cbn [In]. lia.
Qed.

Lemma adc_count_run b x s (w : W) :
  own_when b (count_ms x) (s, w) =
  Some (tt, (if b then s <| ms_without_power := (ms_without_power s + x)%f32 |> else s, w)).
Proof. by destruct b. Qed.

(** A round that waits brakes, this controller and, if so configured, the others. *)
Definition adc_brakes (c : adc_config) : ST W unit :=
  brake ← timeout_get_brake_current;
  mc_exec (CmdBrake brake);;
  when (adc_multi_esc c)
    (each_recent (fun msg => brake ← timeout_get_brake_current;
                             comm_can_set_current_brake (u8 (csm_id msg)) brake)).

Lemma adc_wait_round_run s (w : W) :
  adc_wait_round (s, w) = core (adc_brakes (adc_conf s)) (waited s, w).
Proof.
  unfold adc_wait_round, waited. erewrite ST_bind_Some by reflexivity.
  erewrite ST_bind_Some by reflexivity. destruct (_ =? _)%f32; by destruct s.
Qed.

Definition brake_type (t : Z) : bool :=
  (t =? ADC_CTRL_TYPE_CURRENT_NOREV_BRAKE_CENTER) || (t =? ADC_CTRL_TYPE_CURRENT_NOREV_BRAKE_BUTTON)
  || (t =? ADC_CTRL_TYPE_CURRENT_NOREV_BRAKE_ADC).

(** The duty cycle commanded in the duty modes; the decision in the others. *)
Definition adc_duty (c : adc_config) (pwr : f32) (conf : mc_configuration) : option f32 :=
  if ADC_CTRL_TYPE_DUTY <=? adc_ctrl_type c
  then Some (utils_map pwr (- f1) f1 (- l_max_duty conf) (l_max_duty conf))%f32 else None.
Definition adc_decision (c : adc_config) (pwr : f32) (conf : mc_configuration) : decision :=
  if brake_type (adc_ctrl_type c) then decide_brake conf pwr else decide_current conf pwr.

Lemma adc_control_run pwr s (w : W) :
  adc_active s = true ->
  adc_control (adc_conf s) pwr (s, w) =
  match adc_duty (adc_conf s) pwr (m_conf (w_mci w)) with
  | Some x =>
      if adc_waiting (counted pwr s)
      then Some (Some (mkDecision f0 false false false), (counted pwr s, w))
      else '(_, w1) ← mc_exec (CmdDuty x) w; Some (Some (mkDecision f0 false false true), (counted pwr s, w1))
  | None => Some (Some (adc_decision (adc_conf s) pwr (m_conf (w_mci w))), (counted pwr s, w))
  end.
Proof.
  intros (t & Ht & Heq)%adc_active_cases.
  unfold adc_control, adc_duty, adc_decision, brake_type, counted, zero_throttle. rewrite Heq.
  repeat (destruct Ht as [<-|Ht]); [..|destruct Ht]; cbn [Z.eqb Pos.eqb orb Z.leb Z.compare Pos.compare
    Pos.compare_cont ADC_CTRL_TYPE_CURRENT ADC_CTRL_TYPE_CURRENT_REV_CENTER
    ADC_CTRL_TYPE_CURRENT_REV_BUTTON ADC_CTRL_TYPE_CURRENT_NOREV_BRAKE_CENTER
    ADC_CTRL_TYPE_CURRENT_NOREV_BRAKE_BUTTON ADC_CTRL_TYPE_CURRENT_NOREV_BRAKE_ADC
    ADC_CTRL_TYPE_DUTY ADC_CTRL_TYPE_DUTY_REV_CENTER ADC_CTRL_TYPE_DUTY_REV_BUTTON].
  all: (erewrite ST_bind_Some by reflexivity).
  1-6: (erewrite ST_bind_Some by reflexivity); by rewrite (ST_bind_Some _ _ _ _ _ (adc_count_run _ _ s w)).
  all: rewrite (ST_bind_Some _ _ _ _ _ (adc_count_run _ _ s w)).
  all: (erewrite ST_bind_Some by reflexivity); (erewrite ST_bind_Some by reflexivity).
  all: destruct (adc_waiting _); [done|]; cbn [mc_exec]; unfold core; cbv [mbind ST_bind option_bind].
  all: by destruct (mc_interface_set_duty _ w) as [[[] w1]|].
Qed.

(** The rest of a round that does not wait. *)
Definition adc_drive (c : adc_config) (d : decision) (pwr : f32) (cc_button : bool) : A unit :=
  core timeout_reset;;
  rpm_filtered ← filter_rpm;
  if d_current_mode d && cc_button && near_zero pwr then hold_speed rpm_filtered else
  own_set (fun s => s <| was_pid := false |>);;
  core (app_output (adc_out c) (d_send_duty d) (d_current_mode d) (d_current_mode_brake d) (d_current d)).

Lemma adc_counted_conf pwr s : adc_conf (counted pwr s) = adc_conf s.
Proof. unfold counted. by destruct (zero_throttle _ _). Qed.

Lemma act_run pwr cc s (w : W) :
  adc_active s = true ->
  adc_act pwr cc (s, w) =
  if adc_waiting (counted pwr s) then core (adc_brakes (adc_conf s)) (waited (counted pwr s), w)
  else match adc_duty (adc_conf s) pwr (m_conf (w_mci w)) with
       | Some x => '(_, w1) ← mc_exec (CmdDuty x) w;
                   adc_drive (adc_conf s) (mkDecision f0 false false true) pwr cc (counted pwr s, w1)
       | None => adc_drive (adc_conf s) (adc_decision (adc_conf s) pwr (m_conf (w_mci w))) pwr cc
                   (counted pwr s, w)
       end.
Proof.
  intros Ha. unfold adc_act. erewrite ST_bind_Some by reflexivity.
  unfold mbind at 1, ST_bind at 1. rewrite (adc_control_run pwr s w Ha).
  assert (Hwait : adc_wait_round (counted pwr s, w)
                  = core (adc_brakes (adc_conf s)) (waited (counted pwr s), w))
    by (by rewrite adc_wait_round_run, adc_counted_conf).
  destruct (adc_duty (adc_conf s) pwr (m_conf (w_mci w))) as [x|].
  - destruct (adc_waiting (counted pwr s)) eqn:Hw.
    + erewrite ST_bind_Some by reflexivity. by rewrite Hw.
    + cbv [mbind option_bind]. destruct (mc_exec _ w) as [[[] w1]|]; [|done].
      unfold ST_bind at 1, own at 1. by rewrite Hw.
  - erewrite ST_bind_Some by reflexivity. by destruct (adc_waiting (counted pwr s)); [rewrite Hwait|].
Qed.

Lemma adc_inactive_run pwr s (w : W) :
  is_u8 (adc_ctrl_type (adc_conf s)) -> adc_active s = false ->
  adc_control (adc_conf s) pwr (s, w) = Some (None, (s, w)).
Proof.
  unfold adc_active. intros Hu Hn. unfold adc_control.
  repeat rewrite (proj2 (Z.eqb_neq _ _)); try done;
    cbv [ADC_CTRL_TYPE_CURRENT ADC_CTRL_TYPE_CURRENT_REV_CENTER
    ADC_CTRL_TYPE_CURRENT_REV_BUTTON ADC_CTRL_TYPE_CURRENT_NOREV_BRAKE_CENTER
    ADC_CTRL_TYPE_CURRENT_NOREV_BRAKE_BUTTON ADC_CTRL_TYPE_CURRENT_NOREV_BRAKE_ADC
    ADC_CTRL_TYPE_DUTY ADC_CTRL_TYPE_DUTY_REV_CENTER ADC_CTRL_TYPE_DUTY_REV_BUTTON];
    intros Heq; by rewrite Heq in Hn.
Qed.

(** ** The history of the application *)

(** A sleep of a whole number of milliseconds, of at most a second. *)
Definition whole_ms (t : Z) : Prop := 1 <= t <= 10000 /\ t mod 10 = 0.

Definition throttle_mark (s : adc_state) (pwr : f32) : list mark :=
  if negb (adc_active s) then []
  else if zero_throttle (adc_conf s) pwr then [MZero (sleep_time s / 10)] else [MNonzero].

(** The marks of a round. *)
Definition round_mark (p : pins) (s : adc_state) (w : W) : list mark :=
  match adc_read p (after_fault s w, w) with
  | Some ((pwr, _), _) => throttle_mark s pwr
  | None => []
  end ++ (if has_fault w then [MReset] else []).

Definition config_ok (c : adc_config) : Prop :=
  is_u8 (adc_ctrl_type c) /\ 0 <= adc_update_rate_hz c /\ adc_sleep_time c mod 10 = 0.

(** The latest mark first.  The world between two events is arbitrary. *)
Inductive adc_history : list mark -> adc_state -> Prop :=
| ah_start c use_rx_tx :
    config_ok c -> adc_history [] (adc_thread_init (app_adc_start use_rx_tx (app_adc_configure c (adc_reset c))))
| ah_configure h s c : adc_history h s -> config_ok c -> adc_history (MReset :: h) (app_adc_configure c s)
| ah_round h s p (w : W) s' w' :
    adc_history h s -> adc_round p (s, w) = Some (tt, (s', w')) ->
    adc_history (round_mark p s w ++ h) s'.

Record adc_inv (h : list mark) (s : adc_state) : Prop := {
  ai_rings : rings_ok s;
  ai_config : config_ok (adc_conf s);
  ai_sleep : whole_ms (sleep_time s);
  ai_count : ~ armed MIN_MS_WITHOUT_POWER h -> adc_safe_start (adc_conf s) = true ->
    exists n, ms_without_power s = f_of_int n /\ 0 <= n <= zeros h /\ (n = ms_before s \/ n = 0)
}.

Lemma sleep_range c : 0 <= adc_update_rate_hz c -> 1 <= adc_sleep_time c <= 10000.
Proof.
  intros Hr. unfold adc_sleep_time. destruct (Z.eqb_spec (adc_update_rate_hz c) 0) as [|Hne]; [cbn; lia|].
  pose proof (Z.div_le_upper_bound CH_CFG_ST_FREQUENCY (adc_update_rate_hz c) 10000) as Hu.
  pose proof (Z.div_pos CH_CFG_ST_FREQUENCY (adc_update_rate_hz c)) as Hp.
  unfold CH_CFG_ST_FREQUENCY in *. destruct (Z.eqb_spec (10000 / adc_update_rate_hz c) 0); lia.
Qed.

Lemma config_whole_ms c : config_ok c -> whole_ms (adc_sleep_time c).
Proof. intros (_ & Hr & Hw). by split; [apply sleep_range|]. Qed.

Lemma round_ms_whole t : whole_ms t -> round_ms t = f_of_int (t / 10) /\ 1 <= t / 10 <= 1000.
Proof.
  intros [Hs Hw]. set (d := t / 10). assert (Hd : t = 10 * d) by (unfold d; Z.to_euclidean_division_equations; lia).
  split; [|lia]. unfold round_ms, CH_CFG_ST_FREQUENCY. rewrite Hd, f_of_int_mul by (unfold small; lia).
  replace (1000 * (10 * d)) with (d * 10000) by lia. apply f_of_int_div; [unfold small; lia|lia|lia].
Qed.

(** The invariant after the fault check. *)
Lemma after_fault_inv h s (w : W) :
  adc_inv h s -> adc_inv ((if has_fault w then [MReset] else []) ++ h) (after_fault s w).
Proof.
  intros [Hr Hc Ht Hn]. unfold after_fault. destruct (has_fault w); [|by split].
  split; [done|done|done|]. intros _ _. exists 0. split; [done|]. cbn. lia.
Qed.

Lemma inv_control h s s' : adc_inv h s -> rings_ok s' -> control s' = control s -> adc_inv h s'.
Proof.
  intros [Hr Hc Ht Hn] Hr' [= H1 H2 H3 _ H4 _ _ _]. split; [done|by rewrite H1|by rewrite H4|].
  by rewrite H1, H2, H3.
Qed.

Lemma adc_sleep_inv h s : adc_inv h s -> adc_inv h (adc_sleep s).
Proof. intros [Hr Hc Ht Hn]. split; [done|done|by apply config_whole_ms|done]. Qed.

Lemma waited_count n s :
  ms_without_power s = f_of_int n -> small n ->
  exists m, ms_without_power (waited s) = f_of_int m /\ ms_before (waited s) = m /\ (m = n \/ m = 0) /\
    (ms_before s = n -> m = 0).
Proof.
  intros Hn Hs. unfold waited. cbn. rewrite Hn.
  destruct (f_of_int n =? f_of_int (ms_before s))%f32 eqn:He.
  - exists 0. split; [done|]. split; [done|]. auto.
  - exists n. split; [done|]. split; [by apply f2i32_f_of_int|]. split; [by left|].
    intros Hb. rewrite Hb, f_of_int_eqb, Z.eqb_refl in He by done. done.
Qed.

Lemma adc_inv_waiting h s pwr :
  adc_inv h s -> adc_safe_start (adc_conf s) = true -> adc_active s = true ->
  ~ armed MIN_MS_WITHOUT_POWER (throttle_mark s pwr ++ h) ->
  adc_waiting (counted pwr s) = true /\ adc_inv (throttle_mark s pwr ++ h) (waited (counted pwr s)).
Proof.
  intros [Hr Hc Ht Hcount] Hsafe Ha Hn. unfold throttle_mark in *. rewrite Ha in *. cbn [negb] in *.
  assert (Hn0 : ~ armed MIN_MS_WITHOUT_POWER h).
  { intros Har. apply Hn. destruct (zero_throttle _ _); by apply (armed_cons _ _ h). }
  destruct (Hcount Hn0 Hsafe) as (n & Hms & Hrange & Hbef). clear Hcount.
  destruct (round_ms_whole _ Ht) as [Hround Hd].
  apply not_armed_zeros in Hn, Hn0. unfold MIN_MS_WITHOUT_POWER in *.
  assert (Hwt : forall m, ms_without_power (counted pwr s) = f_of_int m -> 0 <= m < 500 ->
                adc_waiting (counted pwr s) = true).
  { intros m Hm Hlt. unfold adc_waiting, MIN_MS_WITHOUT_POWER.
    rewrite Hm, adc_counted_conf, Hsafe, f_of_int_ltb by (unfold small; lia). rewrite andb_true_r. lia. }
  assert (Hrest : rings_ok (waited (counted pwr s)) /\ adc_conf (waited (counted pwr s)) = adc_conf s /\
                  sleep_time (waited (counted pwr s)) = sleep_time s)
    by (unfold waited, counted; by destruct (zero_throttle _ _)).
  destruct Hrest as (Hr' & Hc' & Ht').
  destruct (zero_throttle (adc_conf s) pwr) eqn:Hz; cbn [app zeros] in *.
  - assert (Hm : ms_without_power (counted pwr s) = f_of_int (n + sleep_time s / 10)).
    { unfold counted. rewrite Hz. cbn. rewrite Hms, Hround. apply f_of_int_add; unfold small; lia. }
    split; [apply (Hwt _ Hm); lia|]. split; [done|by rewrite Hc'|by rewrite Ht'|]. intros _ _.
    destruct (waited_count _ _ Hm) as (m & H1 & H2 & H3 & _); [unfold small; lia|].
    exists m. split; [done|]. cbn [zeros]. lia.
  - assert (Hcs : counted pwr s = s) by (unfold counted; by rewrite Hz). rewrite Hcs in *.
    split; [apply (Hwt _ Hms); lia|]. split; [done|by rewrite Hc'|by rewrite Ht'|]. intros _ _.
    destruct (waited_count _ _ Hms) as (m & H1 & H2 & H3 & H4); [unfold small; lia|].
    exists m. split; [done|]. cbn [zeros]. lia.
Qed.

(** What the rest of a round that does not wait leaves alone. *)
Definition adc_counters (sw : adc_state * W) : adc_config * f32 * Z * Z * ring * ring :=
  let s := fst sw in (adc_conf s, ms_without_power s, ms_before s, sleep_time s, adc_filter s, adc_filter2 s).

Lemma core_keeps {B} (m : ST W B) : keeps adc_counters (core m).
Proof.
  intros [s w] b [s' w']. unfold core. cbv [mbind option_bind].
  destruct (m w) as [[b1 w1]|]; [|done]. by intros [= _ <- _].
Qed.

Lemma own_keeps {B} (f : adc_state -> B) : keeps adc_counters (own f).
Proof. intros [s w] b [s' w'] [= _ <- _]. done. Qed.

Lemma own_set_keeps f :
  (forall s (w : W), adc_counters (f s, w) = adc_counters (s, w)) -> keeps adc_counters (own_set f).
Proof. intros Hf [s w] b [s' w'] [= _ <- _]. exact (Hf s w). Qed.

Lemma drive_keeps c d pwr cc : keeps adc_counters (adc_drive c d pwr cc).
Proof.
  unfold adc_drive, filter_rpm, hold_speed.
  repeat first
    [ apply core_keeps | apply own_keeps | apply keeps_ret
    | apply own_set_keeps; intros ? ?; first [reflexivity | by destruct (was_pid _)]
    | apply keeps_bind; [|intro]
    | match goal with
      | |- keeps _ (match ?x with _ => _ end) => destruct x
      | |- keeps _ (own_when _ _) => unfold own_when
      end ].
Qed.

Lemma act_counters pwr cc s (w : W) s' w' :
  is_u8 (adc_ctrl_type (adc_conf s)) -> adc_act pwr cc (s, w) = Some (tt, (s', w')) ->
  adc_counters (s', w') = adc_counters (if negb (adc_active s) then s
                                else if adc_waiting (counted pwr s) then waited (counted pwr s)
                                else counted pwr s, w).
Proof.
  intros Hu Hr. destruct (adc_active s) eqn:Ha; cbn [negb].
  - rewrite (act_run pwr cc s w Ha) in Hr. destruct (adc_waiting _).
    { by destruct (core_inv _ _ _ _ _ _ Hr) as [-> _]. }
    destruct (adc_duty _ _ _) as [x|].
    + cbv [mbind option_bind] in Hr. destruct (mc_exec _ w) as [[[] w1]|]; [|done].
      apply (drive_keeps _ _ _ _ _ _ _ Hr).
    + apply (drive_keeps _ _ _ _ _ _ _ Hr).
  - unfold adc_act in Hr. erewrite ST_bind_Some in Hr by reflexivity.
    rewrite (ST_bind_Some _ _ _ _ _ (adc_inactive_run pwr s w Hu Ha)) in Hr. by injection Hr as <- <-.
Qed.

Lemma adc_pass_run p s (w : W) :
  rings_ok s -> exists pwr cc s1,
    adc_read p (after_fault s w, w) = Some ((pwr, cc), (s1, w)) /\ rings_ok s1 /\
    control s1 = control (after_fault s w) /\ adc_pass p (s, w) = adc_act pwr cc (s1, w).
Proof.
  intros Hs. assert (Hs0 : rings_ok (after_fault s w)) by (unfold after_fault; by destruct (has_fault w)).
  destruct (read_run p (after_fault s w) w Hs0) as (pwr & cc & s1 & Hr & Hr1 & Hc1).
  exists pwr, cc, s1. split; [done|]. split; [done|]. split; [done|]. unfold adc_pass.
  erewrite ST_bind_Some by reflexivity.
  assert (Hf : own_when (negb (m_fault_now (w_mci w) =? FAULT_CODE_NONE))
    (own_set (fun s => s <| ms_without_power := f0 |>)) (s, w) = Some (tt, (after_fault s w, w)))
    by (unfold after_fault, has_fault; by destruct (negb _)).
  rewrite (ST_bind_Some _ _ _ _ _ Hf). by rewrite (ST_bind_Some _ _ _ _ _ Hr).
Qed.

(** A round is a pass and the start of the next sleep. *)
Lemma adc_round_inv p s (w : W) s' w' :
  adc_round p (s, w) = Some (tt, (s', w')) ->
  exists s1, adc_pass p (s, w) = Some (tt, (s1, w')) /\ s' = adc_sleep s1.
Proof.
  unfold adc_round, mbind, ST_bind. destruct (adc_pass p (s, w)) as [[[] [s1 w1]]|]; [|done].
  intros [= <- <-]. by exists s1.
Qed.

Lemma adc_round_core p (m : ST W unit) s s1 (w w1 : W) :
  adc_pass p (s, w) = core m (s1, w1) -> adc_round p (s, w) = core m (adc_sleep s1, w1).
Proof.
  unfold adc_round, mbind, ST_bind. intros ->. unfold core. cbv [mbind option_bind].
  by destruct (m w1) as [[[] w2]|].
Qed.

Lemma mark_control s s' pwr :
  adc_conf s' = adc_conf s -> sleep_time s' = sleep_time s -> throttle_mark s' pwr = throttle_mark s pwr.
Proof. unfold throttle_mark, adc_active. by intros -> ->. Qed.

Lemma round_mark_run p s (w : W) pwr cc s1 :
  adc_read p (after_fault s w, w) = Some ((pwr, cc), (s1, w)) -> control s1 = control (after_fault s w) ->
  round_mark p s w = throttle_mark s1 pwr ++ (if has_fault w then [MReset] else []).
Proof.
  intros Hr Hc. unfold round_mark. rewrite Hr. f_equal. injection Hc as Hc _ _ _ Ht _ _ _.
  apply mark_control; [rewrite Hc|rewrite Ht]; unfold after_fault; by destruct (has_fault w).
Qed.

Lemma pass_inv h p s (w : W) s' w' :
  adc_inv h s -> adc_pass p (s, w) = Some (tt, (s', w')) -> adc_inv (round_mark p s w ++ h) s'.
Proof.
  intros IH Hr. destruct (adc_pass_run p s w (ai_rings _ _ IH)) as (pwr & cc & s1 & Hrd & Hr1 & Hc1 & Hrr).
  rewrite Hrr in Hr. rewrite (round_mark_run p s w pwr cc s1 Hrd Hc1), <- app_assoc.
  pose proof (inv_control _ _ s1 (after_fault_inv h s w IH) Hr1 Hc1) as Hi1.
  clear IH Hrr Hrd Hc1 Hr1. set (h1 := (if has_fault w then [MReset] else []) ++ h) in *.
  clearbody h1. pose proof Hi1 as [Hr1 Hcfg Ht Hcnt].
  pose proof (act_counters pwr cc s1 w s' w' (proj1 Hcfg) Hr) as Hcs.
  destruct (adc_active s1) eqn:Ha; cbn [negb] in Hcs.
  2: { injection Hcs as H1 H2 H3 H4 H5 H6. unfold throttle_mark. rewrite Ha. cbn [negb app].
       split; [unfold rings_ok; by rewrite H5, H6|by rewrite H1|by rewrite H4|]. by rewrite H1, H2, H3. }
  assert (Hkeep : adc_conf s' = adc_conf s1 /\ sleep_time s' = sleep_time s1 /\ rings_ok s').
  { unfold rings_ok. injection Hcs as H1 H2 H3 H4 H5 H6. rewrite H1, H4, H5, H6. unfold waited, counted.
    by destruct (adc_waiting _), (zero_throttle _ _). }
  destruct Hkeep as (Hk1 & Hk2 & Hk3). split; [done|by rewrite Hk1|by rewrite Hk2|].
  intros Hn Hsafe. rewrite Hk1 in Hsafe.
  destruct (adc_inv_waiting h1 s1 pwr Hi1 Hsafe Ha Hn) as [Hw Hi]. rewrite Hw in Hcs.
  injection Hcs as H1 H2 H3 H4 H5 H6. rewrite H2, H3. apply Hi; [done|].
  unfold waited, counted. by destruct (zero_throttle _ _).
Qed.

Lemma adc_history_inv h s : adc_history h s -> adc_inv h s.
Proof.
  induction 1 as [c b Hc|h s c _ IH Hc|h s p w s' w' _ IH Hr].
  - split; [by repeat split|done|by apply config_whole_ms|]. intros _ _. exists 0. cbn. split; [done|]. lia.
  - split; [apply IH|done|apply (ai_sleep _ _ IH)|]. intros _ _. exists 0. cbn. split; [done|]. lia.
  - destruct (adc_round_inv _ _ _ _ _ Hr) as (s1 & Hp & ->). by eapply adc_sleep_inv, pass_inv.
Qed.

(** C25. With safe start and update periods of whole milliseconds,
    whatever rounds, faults and configurations came before: a round of the
    ADC application leaves the core alone or brakes, unless it ends a run
    of rounds with the throttle at zero, with no fault or new
    configuration among them, whose sleeps add up to 500 ms. The sleep of
    the first of these rounds, with the period it was begun with, counts
    too, so it may lie before the new configuration. *)
Theorem adc_start_is_safe h p s (w : W) :
  adc_history h s -> adc_safe_start (adc_conf s) = true ->
  ~ armed MIN_MS_WITHOUT_POWER (round_mark p s w ++ h) ->
  exists s', adc_round p (s, w) = Some (tt, (s', w)) \/
             adc_round p (s, w) = core (adc_brakes (adc_conf s)) (s', w).
Proof.
  intros Hist Hsafe Hn. pose proof (adc_history_inv h s Hist) as Hi.
  destruct (adc_pass_run p s w (ai_rings _ _ Hi)) as (pwr & cc & s1 & Hrd & Hr1 & Hc1 & Hrr).
  rewrite (round_mark_run p s w pwr cc s1 Hrd Hc1), <- app_assoc in Hn.
  pose proof (inv_control _ _ s1 (after_fault_inv h s w Hi) Hr1 Hc1) as Hi1.
  assert (Hconf : adc_conf s1 = adc_conf s)
    by (injection Hc1 as -> _ _ _ _ _ _ _; unfold after_fault; by destruct (has_fault w)).
  rewrite <- Hconf in *. destruct (adc_active s1) eqn:Ha.
  - destruct (adc_inv_waiting _ s1 pwr Hi1 Hsafe Ha Hn) as [Hw _].
    exists (adc_sleep (waited (counted pwr s1))). right. apply adc_round_core.
    by rewrite Hrr, (act_run pwr cc s1 w Ha), Hw.
  - exists (adc_sleep s1). left. change (adc_round p (s, w) = core (mret tt) (adc_sleep s1, w)).
    apply adc_round_core. rewrite Hrr. unfold adc_act. erewrite ST_bind_Some by reflexivity.
    by rewrite (ST_bind_Some _ _ _ _ _ (adc_inactive_run pwr s1 w (proj1 (ai_config _ _ Hi1)) Ha)).
Qed.

(** ** Cruise control *)

Definition rpm_ring_ok (sw : adc_state * W) : Prop := ring_ok RPM_FILTER_SAMPLES (rpm_filter (fst sw)).

Lemma stays_core {B} (m : ST W B) : stays rpm_ring_ok (core m).
Proof.
  intros [s w] b [s' w'] Hs Hr. destruct (core_inv _ _ _ _ _ _ Hr) as [-> _]. exact Hs.
Qed.

Lemma stays_set f :
  (forall s, rpm_filter (f s) = rpm_filter s) -> stays rpm_ring_ok (own_set f).
Proof. intros Hf [s w] b [s' w'] Hs [= _ <- _]. unfold rpm_ring_ok. cbn [fst]. by rewrite Hf. Qed.

Lemma stays_own {B} (f : adc_state -> B) : stays rpm_ring_ok (own f).
Proof. intros [s w] b [s' w'] Hs [= _ <- _]. exact Hs. Qed.

Lemma filter_rpm_run s (w : W) :
  ring_ok RPM_FILTER_SAMPLES (rpm_filter s) ->
  exists v r, filter_rpm (s, w) = Some (v, (s <| rpm_filter := r |>, w)) /\ ring_ok RPM_FILTER_SAMPLES r.
Proof.
  intros Hs. unfold filter_rpm, mc_interface_get_rpm.
  rewrite (ST_bind_Some _ _ _ _ _ (core_run _ s w _ _ (motor_get_run _ _ w))).
  erewrite ST_bind_Some by reflexivity.
  match goal with |- context [mean_filter ?n ?v ?r] =>
    destruct (mean_filter_run n v r Hs) as (x & r' & Hm & Hr);
    assert (Hc : core (lift_opt (mean_filter n v r)) (s, w) = Some ((x, r'), (s, w)))
      by (apply core_run; unfold lift_opt; by rewrite Hm) end.
  rewrite (ST_bind_Some _ _ _ _ _ Hc). by exists x, r'.
Qed.

Lemma stays_filter_rpm : stays rpm_ring_ok filter_rpm.
Proof.
  intros [s w] b [s' w'] Hs Hr. destruct (filter_rpm_run s w Hs) as (v & r & Hf & Hok).
  rewrite Hf in Hr. by injection Hr as _ <- _.
Qed.

Lemma stays_act pwr cc : stays rpm_ring_ok (adc_act pwr cc).
Proof.
  unfold adc_act, adc_control, adc_wait_round, hold_speed, count_ms, own_when.
  repeat first
    [ match goal with |- stays _ filter_rpm => apply stays_filter_rpm end
    | apply stays_core | apply stays_own | apply stays_ret
    | apply stays_set; intros ?; first [reflexivity | by case_match]
    | apply stays_bind; [|intro]
    | match goal with |- stays _ (match ?x with _ => _ end) => destruct x end ].
Qed.

Lemma history_rpm_ring h s : adc_history h s -> ring_ok RPM_FILTER_SAMPLES (rpm_filter s).
Proof.
  induction 1 as [c b Hc|h s c _ IH Hc|h s p w s' w' Hist IH Hr]; [by split|done|].
  destruct (adc_pass_run p s w (ai_rings _ _ (adc_history_inv h s Hist))) as (pwr & cc & s1 & _ & _ & Hc1 & Hrr).
  destruct (adc_round_inv _ _ _ _ _ Hr) as (s2 & Hp & ->).
  rewrite Hrr in Hp. apply (stays_act pwr cc (s1, w) tt (s2, w')); [|done].
  injection Hc1 as _ _ _ _ _ _ Hf _. unfold rpm_ring_ok. cbn [fst]. rewrite Hf. unfold after_fault.
  by destruct (has_fault w).
Qed.

(** A round that drives, with the button pressed and no throttle. *)
Definition cruises (p : pins) (s : adc_state) (w : W) : Prop :=
  adc_active s = true /\ adc_ctrl_type (adc_conf s) < ADC_CTRL_TYPE_DUTY /\
  exists pwr s1, adc_read p (after_fault s w, w) = Some ((pwr, true), (s1, w)) /\
    near_zero pwr = true /\ adc_waiting (counted pwr s1) = false.

(** What a cruising round does to the core. *)
Definition hold (c : adc_config) (rpm : f32) : ST W unit :=
  timeout_reset;; mc_exec (CmdSpeed rpm);; when (adc_multi_esc c) share_duty.

Lemma hold_speed_run c rpm s (w : W) :
  adc_conf s = c ->
  hold_speed rpm (s, w) =
  core (mc_exec (CmdSpeed (if was_pid s then pid_rpm s else rpm));; when (adc_multi_esc c) share_duty)
    (if was_pid s then s else s <| was_pid := true |> <| pid_rpm := rpm |>, w).
Proof.
  intros <-. unfold hold_speed. erewrite ST_bind_Some by reflexivity.
  erewrite ST_bind_Some by reflexivity. unfold core, own_when. cbv [mbind ST_bind option_bind own].
  destruct (was_pid s); cbn [mc_exec];
    (destruct (mc_interface_set_pid_speed _ w) as [[[] w1]|]; [|done]);
    cbn; by destruct (adc_multi_esc (adc_conf s)).
Qed.

Lemma adc_cruise_pass h p s (w : W) :
  adc_history h s -> cruises p s w ->
  exists s' rpm, adc_pass p (s, w) = core (hold (adc_conf s) rpm) (s', w) /\
    was_pid s' = true /\ pid_rpm s' = rpm /\ (was_pid s = true -> rpm = pid_rpm s).
Proof.
  intros Hist (Ha & Ht & pwr & s1 & Hrd & Hz & Hw). pose proof (adc_history_inv h s Hist) as Hi.
  destruct (adc_pass_run p s w (ai_rings _ _ Hi)) as (pwr1 & cc1 & s2 & Hrd2 & _ & Hc1 & Hrr).
  rewrite Hrd in Hrd2. injection Hrd2 as <- <- <-. rewrite Hrr.
  assert (Hconf : adc_conf s1 = adc_conf s /\ was_pid s1 = was_pid s /\ pid_rpm s1 = pid_rpm s /\
                  rpm_filter s1 = rpm_filter s)
    by (injection Hc1 as -> _ _ _ _ -> -> ->; unfold after_fault; by destruct (has_fault w)).
  destruct Hconf as (Hc & Hp1 & Hp2 & Hp3).
  assert (Ha1 : adc_active s1 = true) by (unfold adc_active; by rewrite Hc).
  rewrite (act_run pwr true s1 w Ha1), Hw. unfold adc_duty. rewrite Hc.
  rewrite (proj2 (Z.leb_gt _ _)) by lia. unfold adc_drive.
  set (s2 := counted pwr s1).
  assert (Hs2 : adc_conf s2 = adc_conf s /\ was_pid s2 = was_pid s /\ pid_rpm s2 = pid_rpm s /\
                rpm_filter s2 = rpm_filter s)
    by (unfold s2, counted; rewrite <- Hc, <- Hp1, <- Hp2, <- Hp3; by destruct (zero_throttle _ _)).
  clearbody s2. destruct Hs2 as (H1 & H2 & H3 & H4).
  set (w1 := w <| w_tmo := (w_tmo w) <| World.last_update_time := chVTGetSystemTime (w_hw w) |> |>).
  assert (Hto : timeout_reset w = Some (tt, w1)) by reflexivity.
  rewrite (ST_bind_Some _ _ _ _ _ (core_run _ s2 w _ _ Hto)).
  destruct (filter_rpm_run s2 w1) as (v & r & Hf & _); [rewrite H4; apply (history_rpm_ring h s Hist)|].
  rewrite (ST_bind_Some _ _ _ _ _ Hf).
  assert (Hmode : d_current_mode (adc_decision (adc_conf s) pwr (m_conf (w_mci w))) = true)
    by (unfold adc_decision, decide_brake; by destruct (brake_type _), (f0 <=? pwr)%f32).
  rewrite Hmode, Hz. cbn [andb]. cbv iota.
  set (s3 := s2 <| rpm_filter := r |>).
  exists (if was_pid s3 then s3 else s3 <| was_pid := true |> <| pid_rpm := v |>),
    (if was_pid s3 then pid_rpm s3 else v). split.
  - etransitivity; [exact (hold_speed_run (adc_conf s) v s3 w1 H1)|].
    unfold core, hold. by rewrite (ST_bind_Some _ _ _ _ _ Hto).
  - change (was_pid s3) with (was_pid s2). change (pid_rpm s3) with (pid_rpm s2). rewrite H2, H3.
    destruct (was_pid s) eqn:Hp; [|by split]. split; [by rewrite <- H2 in Hp|]. by split.
Qed.

(** While the button is pressed and there is no throttle, every round
    of the ADC application restarts the timeout and commands one and the
    same speed, the filtered speed at the moment the button was pressed. *)
Theorem adc_cruise_control h p s (w : W) :
  adc_history h s -> cruises p s w ->
  exists s' rpm, adc_round p (s, w) = core (hold (adc_conf s) rpm) (s', w) /\
    was_pid s' = true /\ pid_rpm s' = rpm /\ (was_pid s = true -> rpm = pid_rpm s).
Proof.
  intros Hist Hc. destruct (adc_cruise_pass h p s w Hist Hc) as (s1 & rpm & Hp & Hr).
  exists (adc_sleep s1), rpm. split; [by apply adc_round_core|exact Hr].
Qed.
End Adc.

(** ** A concrete throttle: 0 V to 3.3 V, and its runs *)

Definition sim_adc_config (t rate : Z) (safe_start : bool) : adc_config :=
  (app_adc_conf sim_appconf) <| adc_ctrl_type := t |> <| adc_update_rate_hz := rate |>
    <| adc_safe_start := safe_start |> <| adc_use_filter := false |>
    <| adc_voltage_start := f0 |> <| adc_voltage_end := V_REG |>.
Definition sim_adc (t rate : Z) (safe_start : bool) : adc_state :=
  adc_thread_init (app_adc_start true (app_adc_configure (sim_adc_config t rate safe_start)
    (adc_reset (sim_adc_config t rate safe_start)))).

(** All pins high: no button is pressed; the transmit pin low: [cc_button]. *)
Definition no_button : pins := mkPins true true true.
Definition cc_pressed : pins := mkPins false true true.

(** Rounds with the given readings of the throttle, on one world. *)
Fixpoint adc_rounds (readings : list Z) (sw : adc_state * world sim flash_mem)
    : option (adc_state * world sim flash_mem) :=
  match readings with
  | [] => Some sw
  | v :: readings =>
      let '(s, w) := sw in
      match adc_round no_button (s, w <| w_hw := (w_hw w) <| sim_ext := v |> |>) with
      | Some (_, sw) => adc_rounds readings sw | None => None end
  end.

Definition calls_of (r : option (adc_state * world sim flash_mem)) : list call :=
  match r with Some (_, w) => map snd (sim_calls (w_hw w)) | None => [] end.

(** With an update rate of 28 Hz, a period of 35.7 ms, full throttle
    in every second round does not interrupt the safe start: after 15 such
    pairs of rounds the motor is driven with full duty cycle; with 500 Hz
    it is not. *)
Theorem adc_interruption_unnoticed :
  let start rate := (sim_adc ADC_CTRL_TYPE_DUTY rate true, sim_world MOTOR_TYPE_BLDC) in
  let readings := concat (replicate 15 [0; 4095]) in
  adc_sleep_time (sim_adc_config ADC_CTRL_TYPE_DUTY 28 true) = 357 /\
  calls_of (adc_rounds readings (start 28)) = replicate 28 (CBrake f0) ++ [CDuty f0; CDuty f1] /\
  calls_of (adc_rounds readings (start 500)) = replicate 30 (CBrake f0).
Proof. vm_compute. repeat split. Qed.

(** A period of one second is slept when a new configuration asks for rounds at
    500 Hz: the first round after it counts the whole second, so the second one,
    with full throttle, drives; started with 500 Hz, the motor is not driven. *)
Theorem adc_old_sleep_counted :
  let slow := sim_adc ADC_CTRL_TYPE_DUTY 1 true in
  let fast := sim_adc_config ADC_CTRL_TYPE_DUTY 500 true in
  let runs s := calls_of (adc_rounds [0; 4095] (s, sim_world MOTOR_TYPE_BLDC)) in
  runs (app_adc_configure fast slow) = [CDuty f0; CDuty f1] /\
  runs (app_adc_configure fast (sim_adc ADC_CTRL_TYPE_DUTY 500 true)) = [CBrake f0; CBrake f0].
Proof. vm_compute. repeat split. Qed.

Lemma adc_start_is_safe_witness :
  let s := sim_adc ADC_CTRL_TYPE_DUTY 500 true in
  exists s', adc_round no_button (s, sim_world MOTOR_TYPE_BLDC) = Some (tt, (s', sim_world MOTOR_TYPE_BLDC)) \/
    adc_round no_button (s, sim_world MOTOR_TYPE_BLDC)
    = core (adc_brakes (adc_conf s)) (s', sim_world MOTOR_TYPE_BLDC).
Proof.
  intros s. apply (adc_start_is_safe [] no_button s (sim_world MOTOR_TYPE_BLDC)).
  - apply ah_start. by split_and!.
  - reflexivity.
  - intros Ha%(armed_length _ 2); [|lia|by vm_compute; repeat constructor]. by vm_compute in Ha.
Defined.

Lemma adc_cruise_control_witness :
  let s := sim_adc ADC_CTRL_TYPE_CURRENT 500 false in
  exists s' rpm, adc_round cc_pressed (s, sim_world MOTOR_TYPE_BLDC)
    = core (hold (adc_conf s) rpm) (s', sim_world MOTOR_TYPE_BLDC) /\
    was_pid s' = true /\ pid_rpm s' = rpm /\ (was_pid s = true -> rpm = pid_rpm s).
Proof.
  intros s. apply (adc_cruise_control [] cc_pressed s (sim_world MOTOR_TYPE_BLDC)).
  - apply ah_start. by split_and!.
  - split; [reflexivity|]. split; [reflexivity|]. eexists _, _.
    split; [vm_compute; reflexivity|]. split; vm_compute; reflexivity.
Defined.
