(* ===== verification/AppNunchuk.v ===== *)
(** * AppNunchuk: the nunchuk (src/applications/app_nunchuk.c)

    [chuk_round] is one round of the thread that reads the nunchuk over I2C; the
    six bytes, or the failure of one of the transfers, are its argument.
    [output_round] is the body of the loop of the output thread, every
    millisecond.  The state of the external LEDs (led_external.c) stands beside
    the variables of the application.  At the end, the range of the ramp. *)
From S2P Require Import Prelude Float32 McTypes ConfCodec Motor Flash Eeprom Utils World Transmit.
From S2P Require Import Transmit McInterface ConfDefault FlashHelper Timeout ConfGeneral.
From S2P Require Import Commands CommCan AppCommon AppAdc.

Definition CHUK_CTRL_TYPE_NONE : Z := 0.
Definition CHUK_CTRL_TYPE_CURRENT : Z := 1.
Definition CHUK_CTRL_TYPE_CURRENT_NOREV : Z := 2.

Definition OUTPUT_ITERATION_TIME_MS : Z := 1.
Definition MAX_CURR_DIFFERENCE : f32 := f_of_int 5.

(** [LED_EXT_STATE] *)
Definition LED_EXT_OFF : Z := 0.
Definition LED_EXT_NORMAL : Z := 1.
Definition LED_EXT_BRAKE : Z := 2.
Definition LED_EXT_TURN_LEFT : Z := 3.
Definition LED_EXT_TURN_RIGHT : Z := 4.
Definition LED_EXT_BRAKE_TURN_LEFT : Z := 5.
Definition LED_EXT_BRAKE_TURN_RIGHT : Z := 6.
Definition LED_EXT_BATT : Z := 7.

Record chuk_state := mkChuk {
  chuck_d : chuck_data;
  chuck_error : Z;
  chuk_conf : chuk_config;
  output_running : bool;
  (** [last_buffer] of the thread [chuk_thread] *)
  last_buffer : list Z;
  (** the [static] variables of [output_thread] *)
  is_reverse : bool;
  was_z : bool;
  prev_current : f32;
  chuk_was_pid : bool;
  chuk_rpm_filter : ring;
  chuk_pid_rpm : f32;
  (** led_external.c *)
  led_state : Z;
  reverse_leds : bool
}.
#[export] Instance chuk_state_eta : Eta chuk_state := fun s =>
  mkChuk (chuck_d s) (chuck_error s) (chuk_conf s) (output_running s) (last_buffer s) (is_reverse s)
    (was_z s) (prev_current s) (chuk_was_pid s) (chuk_rpm_filter s) (chuk_pid_rpm s) (led_state s)
    (reverse_leds s).

Definition chuck0 : chuck_data := mk_chuck_data 0 0 0 0 0 false false.
(** The variables before the start. *)
Definition chuk_reset (conf : chuk_config) : chuk_state :=
  mkChuk chuck0 0 conf false (replicate 6 0) false false f0 false (ring_init RPM_FILTER_SAMPLES) f0
    LED_EXT_OFF false.

Definition app_nunchuk_configure (conf : chuk_config) (s : chuk_state) : chuk_state :=
  s <| chuk_conf := conf |>.
Definition centre_stick (s : chuk_state) : chuk_state :=
  s <| chuck_d := (chuck_d s) <| cd_js_y := 128 |> |>.
Definition app_nunchuk_start : chuk_state -> chuk_state := centre_stick.

(** [((float)x - 128.0) / 128.0] *)
Definition axis (x : Z) : f32 := ((f_of_int x - f_of_int 128) / f_of_int 128)%f32.
Definition app_nunchuk_get_decoded_chuk (s : chuk_state) : f32 := axis (cd_js_y (chuck_d s)).

Definition led_external_init (s : chuk_state) : chuk_state :=
  s <| reverse_leds := false |> <| led_state := LED_EXT_OFF |>.
Definition led_external_set_state (new_state : Z) (s : chuk_state) : chuk_state :=
  s <| led_state := new_state |>.
Definition led_external_set_reversed (newstate : bool) (s : chuk_state) : chuk_state :=
  s <| reverse_leds := newstate |>.

(** The six bytes of the nunchuk. *)
Definition decode_chuk (rxbuf : list Z) : option chuck_data :=
  b0 ← rxbuf !!? 0; b1 ← rxbuf !!? 1; b2 ← rxbuf !!? 2;
  b3 ← rxbuf !!? 3; b4 ← rxbuf !!? 4; b5 ← rxbuf !!? 5;
  let acc hi shift := Z.lor (Z.shiftl hi 2) (Z.land (Z.shiftr b5 shift) 3) in
  Some (mk_chuck_data b0 b1 (acc b2 2) (acc b3 4) (acc b4 6)
          (negb (Z.testbit b5 1)) (negb (Z.testbit b5 0))).

(** The state of the LEDs while the nunchuk drives. *)
Definition led_of (out_val x_axis : f32) : Z :=
  (let left := x_axis <? - flit 4 10 in
   let right := x_axis >? flit 4 10 in
   if out_val <? - flit 1 1000 then
     if left then LED_EXT_BRAKE_TURN_LEFT else if right then LED_EXT_BRAKE_TURN_RIGHT else LED_EXT_BRAKE
   else
     if left then LED_EXT_TURN_LEFT else if right then LED_EXT_TURN_RIGHT else LED_EXT_NORMAL)%f32.

(** The speed the cruise control starts with, or [None] to abort. *)
Definition start_speed (reverse : bool) (min_erpm rpm_filtered : f32) : option f32 :=
  (if (reverse && (rpm_filtered >? f0)) || (negb reverse && (rpm_filtered <? f0)) then
     if fabs rpm_filtered >? min_erpm then None else Some f0
   else Some rpm_filtered)%f32.

(** The stick changes the speed of the cruise control. *)
Definition adjust_speed (c : chuk_config) (reverse : bool) (out_val pid_rpm : f32) : f32 :=
  (let step := (out_val * chuk_stick_erpm_per_s_in_cc c)
               / (f_of_int OUTPUT_ITERATION_TIME_MS * f_of_int 1000) in
   if reverse then (if pid_rpm >? f0 then f0 else pid_rpm) - step
   else (if pid_rpm <? f0 then f0 else pid_rpm) + step)%f32.

(** The current the stick asks for. *)
Definition stick_current (conf : mc_configuration) (out_val : f32) : f32 :=
  (if out_val >=? f0 then out_val * l_current_max conf
   else out_val * fabs (l_current_min conf))%f32.

(** "Apply ramping": the next current between [prev] and [current]. *)
Definition ramp (c : chuk_config) (conf : mc_configuration) (reverse : bool)
    (out_val prev current highest : f32) : f32 :=
  (let current_range := l_current_max conf + fabs (l_current_min conf) in
   let ramp_time := if fabs current >? fabs prev then chuk_ramp_time_pos c else chuk_ramp_time_neg c in
   if ramp_time >? flit 1 100 then
     let ramp_step := (f_of_int OUTPUT_ITERATION_TIME_MS * current_range)
                      / (ramp_time * f_of_int 1000) in
     let current_goal := utils_step_towards prev current ramp_step in
     let is_decreasing := current_goal <? prev in
     let goal_tmp2 :=
       if reverse then
         if fabs (current_goal + highest) >? MAX_CURR_DIFFERENCE
         then utils_step_towards current_goal (- highest) (f_of_int 2 * ramp_step) else current_goal
       else
         if fabs (current_goal - highest) >? MAX_CURR_DIFFERENCE
         then utils_step_towards current_goal highest (f_of_int 2 * ramp_step) else current_goal in
     let is_decreasing2 := goal_tmp2 <? current_goal in
     if (negb is_decreasing || is_decreasing2) && (fabs out_val >? flit 1 1000)
     then goal_tmp2 else current_goal
   else current)%f32.

Section AppNunchuk.
Context {D F : Type} `{Board D}.
Abbreviation W := (world D F).
Abbreviation A := (ST (chuk_state * W)).

(** [app_nunchuk_update_output], also the target of COMM_SET_CHUCK_DATA. *)
Definition app_nunchuk_update_output (data : chuck_data) : A unit :=
  own_set (fun s => if output_running s then s else centre_stick (s <| output_running := true |>));;
  own_set (fun s => s <| chuck_d := data |>);;
  core timeout_reset.

(** One round of the reading thread: [None] if a transfer failed. *)
Definition chuk_round (reply : option (list Z)) : A unit :=
  match reply with
  | None => own_set (fun s => s <| chuck_error := 2 |>)
  | Some rxbuf =>
      last ← own last_buffer;
      own_set (fun s => s <| last_buffer := rxbuf |>);;
      own_when (negb (bool_decide (last = rxbuf)))
        (own_set (fun s => s <| chuck_error := 0 |>);;
         d ← core (lift_opt (decode_chuk rxbuf));
         app_nunchuk_update_output d);;
      t ← core timeout_has_timeout;
      own_when t (own_set (fun s => s <| chuck_error := 1 |>))
  end.

(** The reverse button, [current_now] being the current before it. *)
Definition press_z (current_now : f32) : A unit :=
  own_set (fun s =>
    let z := cd_bt_z (chuck_d s) in
    let s := if z && negb (was_z s) && (chuk_ctrl_type (chuk_conf s) =? CHUK_CTRL_TYPE_CURRENT)
                && (fabs current_now <? MAX_CURR_DIFFERENCE)%f32
             then s <| is_reverse := negb (is_reverse s) |> else s in
    s <| was_z := z |> <| reverse_leds := is_reverse s |>).

Definition chuk_filter_rpm : A f32 :=
  rpm ← core mc_interface_get_rpm;
  r ← own chuk_rpm_filter;
  '(v, r) ← core (lift_opt (mean_filter RPM_FILTER_SAMPLES rpm r));
  own_set (fun s => s <| chuk_rpm_filter := r |>);; mret v.

(** "If c is pressed ..., maintain the current speed with PID control" *)
Definition cruise (out_val rpm_filtered current_now : f32) : A unit :=
  s ← own id;
  conf ← core (mci m_conf);
  let next :=
    if chuk_was_pid s then Some (adjust_speed (chuk_conf s) (is_reverse s) out_val (chuk_pid_rpm s))
    else start_speed (is_reverse s) (s_pid_min_erpm conf) rpm_filtered in
  match next with
  | None => own_set (fun s => s <| chuk_pid_rpm := rpm_filtered |>)
  | Some rpm =>
      own_set (fun s => s <| chuk_pid_rpm := rpm |> <| chuk_was_pid := true |>);;
      core (mc_interface_set_pid_speed rpm);;
      own_when (chuk_multi_esc (chuk_conf s)) (core share_duty);;
      own_set (fun s => s <| prev_current := current_now |>)
  end.

(** "Find lowest RPM and highest current" *)
Definition extremes (c : chuk_config) (reverse : bool) (rpm_local current_now : f32) : ST W (f32 * f32) :=
  if chuk_multi_esc c then
    fold_recent (fun msg '(rpm_lowest, highest) =>
      let rpm_tmp := directed reverse (csm_rpm msg) in
      let msg_current := if (csm_duty msg <? f0)%f32 then (- csm_current msg)%f32 else csm_current msg in
      mret (if (rpm_tmp <? rpm_lowest)%f32 then rpm_tmp else rpm_lowest,
            if (fabs msg_current >? fabs highest)%f32 then msg_current else highest))
      (rpm_local, current_now)
  else mret (rpm_local, current_now).

(** Control of the current. *)
Definition throttle (out_val current_now : f32) : A unit :=
  own_set (fun s => s <| chuk_was_pid := false |>);;
  s ← own id;
  conf ← core (mci m_conf);
  let c := chuk_conf s in
  let reverse := is_reverse s in
  rpm ← core mc_interface_get_rpm;
  let rpm_local := directed reverse rpm in
  '(rpm_lowest, highest) ← core (extremes c reverse rpm_local current_now);
  let current := ramp c conf reverse out_val (prev_current s) (stick_current conf out_val) highest in
  own_set (fun s => s <| prev_current := current |>);;
  if (current <? f0)%f32 then core (brake_output current)
  else core (drive_output (chuk_out c) reverse
               (soft_limit (chuk_rpm_lim_start c) (chuk_rpm_lim_end c) (cc_min_current conf) rpm_lowest current)
               rpm_local rpm_lowest).

(** The body of the loop of [output_thread]. *)
Definition output_round : A unit :=
  s ← own id;
  t ← core timeout_has_timeout;
  if negb (output_running s) then mret tt
  else if (t : bool) || negb (chuck_error s =? 0) || (chuk_ctrl_type (chuk_conf s) =? CHUK_CTRL_TYPE_NONE)
  then mret tt
  else
    current_now ← core mc_interface_get_tot_current_directional_filtered;
    if cd_bt_c (chuck_d s) && cd_bt_z (chuck_d s) then own_set (led_external_set_state LED_EXT_BATT)
    else
      press_z current_now;;
      let out_val := utils_deadband (app_nunchuk_get_decoded_chuk s) (chuk_hyst (chuk_conf s)) f1 in
      own_set (led_external_set_state (led_of out_val (axis (cd_js_x (chuck_d s)))));;
      rpm_filtered ← chuk_filter_rpm;
      if cd_bt_c (chuck_d s) then cruise out_val rpm_filtered current_now
      else throttle out_val current_now.
End AppNunchuk.

(** ** The ramp of the nunchuk never overshoots
    (src/applications/app_nunchuk.c, src/utils.c)

    [utils_step_towards] ends between the value and the goal, so the ramp ends
    between the previous current, the current the stick asks for and the current
    that flows. *)
From Stdlib Require Import Reals Lra.
From S2P Require Import Prelude Float32 FloatExact FloatRound FloatVector FastSin.
From S2P Require Import McTypes Utils AppCommon.
#[local] Open Scope R_scope.
#[local] Opaque b2.

(** A current below one million ampere. *)
Definition amps (x : f32) : Prop := fok x = true /\ Rabs (fr x) <= 1000000.

(** A step: not negative, or not a number. *)
Definition a_step (x : f32) : Prop :=
  is_nan x = true \/ x = S754_infinity false \/ fok x = true /\ 0 <= fr x.

Definition between (a b x : R) : Prop := Rmin a b <= x <= Rmax a b.

Lemma between_l a b : between a b a.
Proof. unfold between, Rmin, Rmax. destruct (Rle_dec a b); lra. Qed.
Lemma between_r a b : between a b b.
Proof. unfold between, Rmin, Rmax. destruct (Rle_dec a b); lra. Qed.
Lemma between_le a b x : a <= x <= b -> between a b x.
Proof. unfold between, Rmin, Rmax. destruct (Rle_dec a b); lra. Qed.
Lemma between_ge a b x : b <= x <= a -> between a b x.
Proof. unfold between, Rmin, Rmax. destruct (Rle_dec a b); lra. Qed.

Lemma amps_between a b x : amps a -> amps b -> fok x = true -> between (fr a) (fr b) (fr x) -> amps x.
Proof.
  intros [_ Ha] [_ Hb] Hx H. split; [done|]. unfold between, Rmin, Rmax in H. unfold Rabs in *.
  destruct (Rle_dec _ _), (Rcase_abs (fr a)), (Rcase_abs (fr b)), (Rcase_abs (fr x)); lra.
Qed.

Lemma amps_opp x : amps x -> amps (- x)%f32.
Proof. intros [Hx Hb]. split; [by rewrite fopp_ok|]. by rewrite fr_opp, Rabs_Ropp. Qed.

(** A sum below the goal is no less than the value. *)
Lemma step_up value step goal :
  amps value -> amps goal -> a_step step -> (value + step <? goal)%f32 = true ->
  fok (value + step)%f32 = true /\ fr value <= fr (value + step)%f32 <= fr goal.
Proof.
  intros [Hv Bv] [Hg Bg] Hs Hlt. assert (Hs' : fok step = true /\ 0 <= fr step).
  { destruct Hs as [Hn|[->|Hs]]; [| |done]; exfalso.
    - destruct step; try done. by destruct value, goal.
    - destruct value as [| | |[]]; try done; by destruct goal as [| | |[]]. }
  destruct Hs' as [Hso H0]. pose proof (fadd_nearest value step Hv Hso) as Hn. pose proof b2_127.
  assert (Bv' : -1000000 <= fr value <= 1000000) by (revert Bv; unfold Rabs; destruct (Rcase_abs _); lra).
  assert (Hok : fok (value + step)%f32 = true).
  { destruct (value + step)%f32 as [s|s| |s m e]; try done; [|apply Hn]. destruct s.
    - exfalso. cbn [nearest] in Hn. unfold sgn in Hn. lra.
    - by destruct goal as [| | |[]]. }
  split; [done|]. apply fltb_fr in Hlt; [|done..].
  split; [|lra]. apply (nearest_ge (fr value + fr step)); [done|done|done|lra].
Qed.

Lemma step_down value step goal :
  amps value -> amps goal -> a_step step -> (goal <? value - step)%f32 = true ->
  fok (value - step)%f32 = true /\ fr goal <= fr (value - step)%f32 <= fr value.
Proof.
  intros [Hv Bv] [Hg Bg] Hs Hlt. assert (Hs' : fok step = true /\ 0 <= fr step).
  { destruct Hs as [Hn|[->|Hs]]; [| |done]; exfalso.
    - destruct step; try done. by destruct value, goal as [| | |[]].
    - destruct value as [| | |[]]; try done; by destruct goal as [| | |[]]. }
  destruct Hs' as [Hso H0]. pose proof (fsub_nearest value step Hv Hso) as Hn. pose proof b2_127.
  assert (Bv' : -1000000 <= fr value <= 1000000) by (revert Bv; unfold Rabs; destruct (Rcase_abs _); lra).
  assert (Hok : fok (value - step)%f32 = true).
  { destruct (value - step)%f32 as [s|s| |s m e]; try done; [|apply Hn]. destruct s.
    - by destruct goal as [| | |[]].
    - exfalso. cbn [nearest] in Hn. unfold sgn in Hn. lra. }
  split; [done|]. apply fltb_fr in Hlt; [|done..].
  split; [lra|]. apply (nearest_le (fr value - fr step)); [done|done|done|lra].
Qed.

Lemma step_towards_between value goal step :
  amps value -> amps goal -> a_step step ->
  fok (utils_step_towards value goal step) = true /\
  between (fr value) (fr goal) (fr (utils_step_towards value goal step)).
Proof.
  intros Hv Hg Hs. unfold utils_step_towards.
  destruct (value <? goal)%f32 eqn:E1; [|destruct (goal <? value)%f32 eqn:E2].
  - destruct (value + step <? goal)%f32 eqn:E; [|by split; [apply Hg|apply between_r]].
    destruct (step_up value step goal Hv Hg Hs E) as [Hok Hb]. split; [done|by apply between_le].
  - destruct (goal <? value - step)%f32 eqn:E; [|by split; [apply Hg|apply between_r]].
    destruct (step_down value step goal Hv Hg Hs E) as [Hok Hb]. split; [done|by apply between_ge].
  - split; [apply Hv|apply between_l].
Qed.

(** ** The steps of the ramp *)

Lemma nonneg_times x y : fok x = true -> 0 <= fr x -> a_step y -> is_nan y = false -> 0 < fr x -> a_step (x * y)%f32.
Proof.
  intros Hx H0 [Hn|[->|[Hy Hy0]]] Hnn Hp; [congruence| |].
  - destruct x as [| | |[] m e]; try done; [cbn [fr] in Hp; lra| |right; by left].
    exfalso. cbn [fr] in H0. unfold sgn in H0. assert (0 < IZR (Z.pos m)) by (by apply IZR_lt). pose proof (b2_pos e). nra.
  - pose proof (fmul_nearest x y Hx Hy) as Hn. destruct (x * y)%f32 as [s|s| |s m e] eqn:E; try done.
    + right; right. split; [done|cbn [fr]; lra].
    + right; left. f_equal. destruct s; [|done]. exfalso. cbn [nearest] in Hn. unfold sgn in Hn. pose proof b2_127. nra.
    + right; right. split; [apply Hn|]. apply (nearest_nonneg (fr x * fr y)); [done|apply Hn|nra].
Qed.

Lemma nonneg_div x y : fok x = true -> 0 <= fr x -> y = S754_infinity false \/ fok y = true /\ 0 < fr y ->
  a_step (x / y)%f32.
Proof.
  intros Hx H0 [->|[Hy Hy0]].
  - right; right. by destruct x; try done; (split; [done|]); cbn [fdiv SFdiv fr]; lra.
  - pose proof (fdiv_nearest x y Hx Hy ltac:(lra)) as Hn.
    assert (Hq : 0 <= fr x / fr y) by (apply Rmult_le_pos; [lra|]; left; apply Rinv_0_lt_compat; lra).
    destruct (x / y)%f32 as [s|s| |s m e] eqn:E; try done.
    + right; right. split; [done|cbn [fr]; lra].
    + right; left. f_equal. destruct s; [|done]. exfalso. cbn [nearest] in Hn. unfold sgn in Hn. pose proof b2_127. lra.
    + right; right. split; [apply Hn|]. apply (nearest_nonneg (fr x / fr y)); [done|apply Hn|done].
Qed.

(** The current limits and ramp times of the configuration. *)
Record ramp_ok (c : chuk_config) (conf : mc_configuration) : Prop := {
  ramp_max : fok (l_current_max conf) = true;
  ramp_max_range : 0 <= fr (l_current_max conf) <= 1000;
  ramp_min : fok (l_current_min conf) = true;
  ramp_min_range : -1000 <= fr (l_current_min conf) <= 1000;
  ramp_pos : fvalid (chuk_ramp_time_pos c) = true;
  ramp_neg : fvalid (chuk_ramp_time_neg c) = true
}.

Definition the_ramp_step (conf : mc_configuration) (ramp_time : f32) : f32 :=
  ((f_of_int OUTPUT_ITERATION_TIME_MS * (l_current_max conf + fabs (l_current_min conf)))
   / (ramp_time * f_of_int 1000))%f32.

Lemma ramp_step_ok c conf t : ramp_ok c conf -> fvalid t = true -> (flit 1 100 <? t)%f32 = true ->
  a_step (the_ramp_step conf t).
Proof.
  intros [Hx Hxr Hn Hnr _ _] Ht Hlt. pose proof b2_127 as Hbig. pose proof b2_m150 as Hsmall.
  assert (Hrange : fok (l_current_max conf + fabs (l_current_min conf))%f32 = true /\
                   0 <= fr (l_current_max conf + fabs (l_current_min conf))%f32 <= 3000).
  { assert (Hab : fok (fabs (l_current_min conf)) = true /\ 0 <= fr (fabs (l_current_min conf)) <= 1000).
    { rewrite fabs_ok, fr_abs. split; [done|]. split; [apply Rabs_pos|apply Rabs_le; lra]. }
    destruct Hab as [Ha Hab]. pose proof (fadd_nearest _ _ Hx Ha) as Hne.
    destruct (nearest_approx _ _ Hne) as [Hok He]; [rewrite Rabs_right; lra|]. split; [done|]. split.
    - apply (nearest_nonneg _ _ Hne Hok). lra.
    - rewrite (Rabs_right (fr (l_current_max conf) + fr (fabs (l_current_min conf)))), b2_m24 in He by lra. revert He. unfold Rabs. destruct (Rcase_abs _); lra. }
  destruct Hrange as [Hrok Hrr]. set (range := (l_current_max conf + fabs (l_current_min conf))%f32) in *.
  assert (Hnum : fok (f_of_int OUTPUT_ITERATION_TIME_MS * range)%f32 = true /\
                 0 <= fr (f_of_int OUTPUT_ITERATION_TIME_MS * range)%f32).
  { assert (Hone : fok (f_of_int 1) = true /\ fr (f_of_int 1) = 1) by (apply fr_of_int; unfold small; lia).
    destruct Hone as [H1 H1v]. pose proof (fmul_nearest _ _ H1 Hrok) as Hne. rewrite H1v in Hne.
    destruct (nearest_approx _ _ Hne) as [Hok He]; [rewrite Rabs_right; lra|]. split; [done|].
    apply (nearest_nonneg _ _ Hne Hok). lra. }
  unfold the_ramp_step. apply nonneg_div; [apply Hnum|apply Hnum|].
  assert (Hk : fok (f_of_int 1000) = true /\ fr (f_of_int 1000) = 1000) by (apply fr_of_int; unfold small; lia).
  destruct Hk as [Hk Hkv].
  destruct (fvalid_cases t Ht) as [Hto|Hts].
  - apply fltb_fr in Hlt; [|done..].
    assert (Hc : 0.009 < fr (flit 1 100)).
    { rewrite (fr_lit (flit 1 100) 10737418 30) by (by vm_compute). change (2 ^ 30)%Z with 1073741824%Z. lra. }
    pose proof (fmul_nearest t (f_of_int 1000) Hto Hk) as Hne. rewrite Hkv in Hne.
    assert (Hten : fok (f_of_int 9) = true /\ fr (f_of_int 9) = 9) by (apply fr_of_int; unfold small; lia).
    destruct (t * f_of_int 1000)%f32 as [s|s| |s m e] eqn:E; try done.
    + right. split; [done|]. exfalso. destruct Hne as (_ & H & _). specialize (H (f_of_int 9) (proj1 Hten)).
      rewrite (proj2 Hten) in H. cbn [fr] in H. revert H. unfold Rabs. destruct (Rcase_abs _), (Rcase_abs _); lra.
    + left. f_equal. destruct s; [|done]. exfalso. cbn [nearest] in Hne. unfold sgn in Hne. lra.
    + right. assert (Hok : fok (S754_finite s m e) = true) by apply Hne. split; [done|].
      pose proof (nearest_ge _ _ (f_of_int 9) Hne Hok (proj1 Hten)) as H. rewrite (proj2 Hten) in H. lra.
  - left. destruct t as [|[]| |]; done.
Qed.

(** Between the three currents. *)
Definition spanned (a b c x : f32) : Prop :=
  fok x = true /\ Rmin (fr a) (Rmin (fr b) (fr c)) <= fr x <= Rmax (fr a) (Rmax (fr b) (fr c)).

Lemma spanned_via a b c goal x :
  between (fr a) (fr b) (fr goal) -> fok x = true -> between (fr goal) (fr c) (fr x) -> spanned a b c x.
Proof.
  intros H1 Hx H2. split; [done|]. unfold between, Rmin, Rmax in *.
  repeat destruct (Rle_dec _ _); lra.
Qed.

Lemma ramp_spanned c conf reverse out_val prev current highest :
  ramp_ok c conf -> amps prev -> amps current -> amps highest ->
  spanned prev current (directed reverse highest) (ramp c conf reverse out_val prev current highest).
Proof.
  intros Hc Hp Hcur Hh. unfold ramp.
  set (t := if (fabs prev <? fabs current)%f32 then chuk_ramp_time_pos c else chuk_ramp_time_neg c).
  assert (Ht : fvalid t = true) by (unfold t; destruct (_ <? _)%f32; apply Hc).
  destruct (flit 1 100 <? t)%f32 eqn:Et.
  2: { apply (spanned_via _ _ _ current); [apply between_r|apply Hcur|apply between_l]. }
  pose proof (ramp_step_ok c conf t Hc Ht Et) as Hs. unfold the_ramp_step in Hs.
  set (step := (_ / _)%f32) in *. clearbody step.
  destruct (step_towards_between prev current step Hp Hcur Hs) as [Hg Hgb].
  set (goal := utils_step_towards prev current step) in *.
  assert (Hga : amps goal) by (by apply (amps_between prev current)).
  assert (Hs2 : a_step (f_of_int 2 * step)%f32).
  { destruct (is_nan step) eqn:En; [left; by destruct step|].
    assert (H2 : fok (f_of_int 2) = true /\ fr (f_of_int 2) = 2) by (apply fr_of_int; unfold small; lia).
    apply nonneg_times; [apply H2|rewrite (proj2 H2); lra|done|done|rewrite (proj2 H2); lra]. }
  assert (Hgoal : spanned prev current (directed reverse highest) goal).
  { apply (spanned_via _ _ _ goal); [done|done|apply between_l]. }
  assert (Htow : spanned prev current (directed reverse highest)
                   (utils_step_towards goal (directed reverse highest) (f_of_int 2 * step)%f32)).
  { assert (Hd : amps (directed reverse highest)) by (destruct reverse; [by apply amps_opp|done]).
    destruct (step_towards_between goal _ _ Hga Hd Hs2) as [H1 H2]. by apply (spanned_via _ _ _ goal). }
  cbv zeta. destruct reverse; cbn [directed] in *; repeat case_match; done.
Qed.

(** ** Decided *)

Lemma below_b b x : small b -> fok x = true -> (fabs x <? f_of_int b)%f32 = true -> Rabs (fr x) <= IZR b.
Proof.
  intros Hb Hx H. destruct (fr_of_int b Hb) as [Ob Vb]. apply fltb_fr in H; [|by rewrite fabs_ok|done].
  rewrite fr_abs in H. lra.
Qed.

Lemma amps_b x : fok x && (fabs x <? f_of_int 1000000)%f32 = true -> amps x.
Proof.
  rewrite andb_true_iff. intros [Hx H]. split; [done|]. apply (below_b 1000000); [unfold small; lia|done..].
Qed.

Lemma ramp_ok_b c conf :
  fok (l_current_max conf) && (f0 <? l_current_max conf)%f32 && (fabs (l_current_max conf) <? f_of_int 1000)%f32
  && fok (l_current_min conf) && (fabs (l_current_min conf) <? f_of_int 1000)%f32
  && fvalid (chuk_ramp_time_pos c) && fvalid (chuk_ramp_time_neg c) = true -> ramp_ok c conf.
Proof.
  rewrite !andb_true_iff. intros [[[[[[Hx H1] H2] Hn] H3] Hp] Hng].
  apply (below_b 1000) in H2; [|unfold small; lia|done]. apply (below_b 1000) in H3; [|unfold small; lia|done].
  apply fltb_fr in H1; [|done..]. change (fr f0) with 0 in H1. pose proof (Rle_abs (fr (l_current_max conf))).
  pose proof (Rle_abs (fr (l_current_min conf))). pose proof (Rle_abs (- fr (l_current_min conf))) as Hop.
  rewrite Rabs_Ropp in Hop. split; try done; lra.
Qed.
