(* ===== verification/AppNunchukTheorems.v ===== *)
(** * AppNunchukTheorems: what a round of the nunchuk application does *)
From S2P Require Import Prelude Float32 McTypes ConfCodec Motor Flash Eeprom Utils World Transmit.
From S2P Require Import Transmit McInterface McInterfaceSpec ConfDefault FlashHelper Timeout.
From S2P Require Import ConfGeneral Commands CommCan BoardSim FloatExact FloatRound AppCommon AppPpmTheorems AppAdc.
From S2P Require Import AppAdcTheorems AppNunchuk.

Section Nunchuk.
Context {D F : Type} `{Board D}.
Abbreviation W := (world D F).
Abbreviation A := (ST (chuk_state * W)).

(** Rounds of the two threads, in any order. *)
Inductive chuk_event := ChukI2c (reply : option (list Z)) | ChukOutput.

Definition chuk_handle (e : chuk_event) : A unit :=
  match e with ChukI2c reply => chuk_round reply | ChukOutput => output_round end.

Fixpoint chuk_handles (es : list chuk_event) : A unit :=
  match es with [] => mret tt | e :: es => chuk_handle e;; chuk_handles es end.

(** ** Loss of the nunchuk *)

(** No news: a failed transfer, or the bytes of the last successful one. *)
Definition no_news (s : chuk_state) (e : chuk_event) : Prop :=
  match e with ChukI2c (Some rxbuf) => rxbuf = last_buffer s | _ => True end.

Lemma output_lost s (w : W) : chuck_error s <> 0 -> output_round (s, w) = Some (tt, (s, w)).
Proof.
  intros He. unfold output_round. erewrite ST_bind_Some by reflexivity. erewrite ST_bind_Some by reflexivity.
  cbv beta. apply Z.eqb_neq in He. unfold id. rewrite He. cbn [negb]. rewrite orb_true_r.
  by destruct (output_running s).
Qed.

Lemma no_news_step e s (w : W) : chuck_error s <> 0 -> no_news s e ->
  exists s', chuk_handle e (s, w) = Some (tt, (s', w)) /\ chuck_error s' <> 0 /\ last_buffer s' = last_buffer s.
Proof.
  intros He Hn. destruct e as [[rxbuf|]|]; cbn [chuk_handle].
  - cbn [no_news] in Hn. subst rxbuf. unfold chuk_round. erewrite ST_bind_Some by reflexivity.
    erewrite ST_bind_Some by reflexivity. cbv beta. rewrite bool_decide_eq_true_2 by done.
    erewrite ST_bind_Some by reflexivity. erewrite ST_bind_Some by reflexivity. cbv beta.
    destruct (has_timeout (w_tmo w)); eexists; by split.
  - eexists. by split.
  - exists s. by rewrite output_lost.
Qed.

Lemma no_news_run es s (w : W) : chuck_error s <> 0 -> Forall (no_news s) es ->
  exists s', chuk_handles es (s, w) = Some (tt, (s', w)) /\ chuck_error s' <> 0 /\ last_buffer s' = last_buffer s.
Proof.
  intros He Hes. revert s He Hes. induction es as [|e es IH]; intros s He Hes; cbn [chuk_handles].
  - by exists s.
  - inversion Hes as [|? ? H1 H2]; subst. destruct (no_news_step e s w He H1) as (s1 & E1 & He1 & Hb1).
    rewrite (ST_bind_Some _ _ _ _ _ E1). destruct (IH s1 He1) as (s2 & E2 & He2 & Hb2).
    + revert H2. apply Forall_impl. intros [[rxbuf|]|]; cbn [no_news]; [|done..]. congruence.
    + exists s2. rewrite Hb2. by split_and!.
Qed.

(** C28. After a failed transfer the nunchuk application leaves the core
    alone in all rounds of both threads until the nunchuk sends new bytes:
    neither the output nor the timeout is touched by failures and
    repetitions of the last bytes. New bytes are decoded, restart the
    timeout and end the error, unless the timeout had expired. *)
Theorem nunchuk_loss_silences es s (w : W) :
  Forall (no_news s) es ->
  exists s', chuk_handles (ChukI2c None :: es) (s, w) = Some (tt, (s', w)) /\
    forall rxbuf d, rxbuf <> last_buffer s -> decode_chuk rxbuf = Some d ->
      exists s2 w2, chuk_round (Some rxbuf) (s', w) = Some (tt, (s2, w2)) /\ chuck_d s2 = d /\
        core timeout_reset (s', w) = Some (tt, (s', w2)) /\
        chuck_error s2 = (if has_timeout (w_tmo w) then 1 else 0).
Proof.
  intros Hes. cbn [chuk_handles chuk_handle chuk_round]. erewrite ST_bind_Some by reflexivity. cbv beta.
  destruct (no_news_run es (s <| chuck_error := 2 |>) w) as (s' & E & He & Hb); [done|done|].
  exists s'. split; [done|]. intros rxbuf d Hnew Hd.
  change (last_buffer (s <| chuck_error := 2 |>)) with (last_buffer s) in Hb.
  unfold chuk_round. erewrite ST_bind_Some by reflexivity. erewrite ST_bind_Some by reflexivity. cbv beta.
  rewrite bool_decide_eq_false_2 by (rewrite Hb; congruence). cbn [negb own_when].
  erewrite ST_bind_Some.
  2: { erewrite ST_bind_Some by reflexivity. erewrite ST_bind_Some by (apply core_run; unfold lift_opt; by rewrite Hd).
       cbv beta. unfold app_nunchuk_update_output. erewrite ST_bind_Some by reflexivity.
       erewrite ST_bind_Some by reflexivity. apply core_run. reflexivity. }
  cbv beta. erewrite ST_bind_Some by reflexivity. cbv beta.
  match goal with |- context [has_timeout ?t] => change (has_timeout t) with (has_timeout (w_tmo w)) end.
  destruct (has_timeout (w_tmo w)); (eexists _, _; split; [reflexivity|split; [|split; [reflexivity|]]]);
    by case_match.
Qed.
(** ** A round that drives *)

(** The filtered current of the motor. *)
Definition flowing (w : W) : f32 :=
  match the_driver (m_conf (w_mci w)) with
  | Some d => drv_get_tot_current_directional_filtered d (m_conf (w_mci w)) (w_hw w) | None => f0 end.

(** The nunchuk is there, the output is on, and the c button is not pressed. *)
Definition chuk_drives (s : chuk_state) (w : W) : bool :=
  output_running s && negb (has_timeout (w_tmo w)) && (chuck_error s =? 0)
  && negb (chuk_ctrl_type (chuk_conf s) =? CHUK_CTRL_TYPE_NONE) && negb (cd_bt_c (chuck_d s)).

(** The direction after the z button. *)
Definition reverse_after (s : chuk_state) (current_now : f32) : bool :=
  if cd_bt_z (chuck_d s) && negb (was_z s) && (chuk_ctrl_type (chuk_conf s) =? CHUK_CTRL_TYPE_CURRENT)
     && (fabs current_now <? MAX_CURR_DIFFERENCE)%f32
  then negb (is_reverse s) else is_reverse s.

Definition stick_value (s : chuk_state) : f32 :=
  utils_deadband (app_nunchuk_get_decoded_chuk s) (chuk_hyst (chuk_conf s)) f1.

(** The current after the ramp. *)
Definition chuk_current (s : chuk_state) (w : W) : f32 :=
  let conf := m_conf (w_mci w) in
  ramp (chuk_conf s) conf (reverse_after s (flowing w)) (stick_value s) (prev_current s)
    (stick_current conf (stick_value s)) (flowing w).

(** The one command of a round, and whether it brakes. *)
Definition chuk_command (s : chuk_state) (w : W) : mc_command * bool :=
  let conf := m_conf (w_mci w) in
  let r := reverse_after s (flowing w) in
  let x := chuk_current s w in
  if (x <? f0)%f32 then (CmdBrake x, true)
  else (CmdCurrent (directed r (soft_limit (chuk_rpm_lim_start (chuk_conf s)) (chuk_rpm_lim_end (chuk_conf s))
                                  (cc_min_current conf) (directed r (rpm_now w)) x)), false).

Lemma press_z_run current_now s (w : W) : exists s1,
  press_z current_now (s, w) = Some (tt, (s1, w)) /\ is_reverse s1 = reverse_after s current_now /\
  chuk_conf s1 = chuk_conf s /\ prev_current s1 = prev_current s /\ chuk_rpm_filter s1 = chuk_rpm_filter s.
Proof.
  unfold press_z, reverse_after, own_set. eexists. split; [reflexivity|]. by destruct (_ && _).
Qed.

Lemma chuk_filter_run s (w : W) : ring_ok RPM_FILTER_SAMPLES (chuk_rpm_filter s) ->
  exists v r, chuk_filter_rpm (s, w) = Some (v, (s <| chuk_rpm_filter := r |>, w)).
Proof.
  intros Hs. unfold chuk_filter_rpm, mc_interface_get_rpm.
  rewrite (ST_bind_Some _ _ _ _ _ (core_run _ s w _ _ (motor_get_run _ _ w))).
  erewrite ST_bind_Some by reflexivity.
  match goal with |- context [mean_filter ?n ?v ?r] =>
    destruct (mean_filter_run n v r Hs) as (x & r' & Hm & _);
    assert (Hc : core (lift_opt (mean_filter n v r)) (s, w) = Some ((x, r'), (s, w)))
      by (apply core_run; unfold lift_opt; by rewrite Hm) end.
  rewrite (ST_bind_Some _ _ _ _ _ Hc). by exists x, r'.
Qed.

(** Control of the current, for a controller of its own. *)
Lemma throttle_run out current_now s (w : W) :
  chuk_multi_esc (chuk_conf s) = false ->
  let conf := m_conf (w_mci w) in
  let r := is_reverse s in
  let x := ramp (chuk_conf s) conf r out (prev_current s) (stick_current conf out) current_now in
  exists s', prev_current s' = x /\ is_reverse s' = r /\
    throttle out current_now (s, w) =
    core (if (x <? f0)%f32 then mc_exec (CmdBrake x);; share_brake x
          else mc_exec (CmdCurrent (directed r (soft_limit (chuk_rpm_lim_start (chuk_conf s))
                 (chuk_rpm_lim_end (chuk_conf s)) (cc_min_current conf) (directed r (rpm_now w)) x)))) (s', w).
Proof.
  intros Hm conf r x.
  exists (s <| chuk_was_pid := false |> <| prev_current := x |>). split; [done|]. split; [done|].
  unfold throttle. erewrite ST_bind_Some by reflexivity. erewrite ST_bind_Some by reflexivity.
  erewrite ST_bind_Some by reflexivity. unfold mc_interface_get_rpm.
  rewrite (ST_bind_Some _ _ _ _ _ (core_run _ _ w _ _ (motor_get_run _ _ w))). cbv beta zeta. fold (rpm_now w).
  change (chuk_conf (id (s <| chuk_was_pid := false |>))) with (chuk_conf s).
  change (is_reverse (id (s <| chuk_was_pid := false |>))) with r. unfold extremes. rewrite Hm.
  erewrite ST_bind_Some by reflexivity. cbv beta iota. erewrite ST_bind_Some by reflexivity. cbv beta.
  change (prev_current (id (s <| chuk_was_pid := false |>))) with (prev_current s). fold conf. fold x.
  destruct (x <? f0)%f32; [done|]. unfold core at 1 2, drive_output. cbv [mbind option_bind].
  unfold chuk_out. cbn [multi_esc]. rewrite Hm. reflexivity.
Qed.

(** C27. While the nunchuk drives a controller of its own, a round of the
    output gives exactly one command: to brake with the ramped current if
    that is negative, and else the current after the limit near the top
    speed, in the direction chosen with the z button. The ramped current
    never leaves the span of the previous one, the one the stick asks for
    and the one that flows. The ramp times and currents must be numbers
    within the stated ranges. *)
Theorem nunchuk_single_command s (w : W) :
  chuk_drives s w = true -> chuk_multi_esc (chuk_conf s) = false ->
  ring_ok RPM_FILTER_SAMPLES (chuk_rpm_filter s) -> ramp_ok (chuk_conf s) (m_conf (w_mci w)) ->
  amps (prev_current s) -> amps (stick_current (m_conf (w_mci w)) (stick_value s)) -> amps (flowing w) ->
  let '(cmd, braking) := chuk_command s w in
  exists s', output_round (s, w) =
      core (mc_exec cmd;; (if braking then share_brake (chuk_current s w) else mret tt)) (s', w) /\
    is_reverse s' = reverse_after s (flowing w) /\ prev_current s' = chuk_current s w /\
    spanned (prev_current s) (stick_current (m_conf (w_mci w)) (stick_value s))
      (directed (is_reverse s') (flowing w)) (chuk_current s w).
Proof.
  intros Hd Hm Hring Hramp Hp Hst Hf. destruct (chuk_command s w) as [cmd braking] eqn:Hcmd.
  unfold chuk_drives in Hd. rewrite !andb_true_iff, !negb_true_iff in Hd.
  destruct Hd as [[[[Ho Ht] He] Hct] Hc].
  destruct (press_z_run (flowing w) s w) as (s1 & E1 & Hr1 & Hc1 & Hp1 & Hf1).
  set (s2 := led_external_set_state (led_of (stick_value s) (axis (cd_js_x (chuck_d s)))) s1).
  destruct (chuk_filter_run s2 w) as (v & r & E3); [change (chuk_rpm_filter s2) with (chuk_rpm_filter s1); by rewrite Hf1|].
  set (s3 := s2 <| chuk_rpm_filter := r |>) in *.
  assert (Hs3 : is_reverse s3 = reverse_after s (flowing w) /\ chuk_conf s3 = chuk_conf s /\ prev_current s3 = prev_current s)
    by (split_and!; assumption).
  destruct Hs3 as (Hr3 & Hc3 & Hp3).
  destruct (throttle_run (stick_value s) (flowing w) s3 w) as (s' & Hp' & Hr' & E4); [by rewrite Hc3|].
  rewrite Hr3, Hc3, Hp3 in *. fold (chuk_current s w) in Hp', E4. exists s'.
  assert (Hround : output_round (s, w) = throttle (stick_value s) (flowing w) (s3, w)).
  { unfold output_round. erewrite ST_bind_Some by reflexivity. erewrite ST_bind_Some by reflexivity. cbv beta.
    unfold id. rewrite Ho, Ht, He, Hct. cbn [negb orb]. unfold mc_interface_get_tot_current_directional_filtered.
    rewrite (ST_bind_Some _ _ _ _ _ (core_run _ s w _ _ (motor_get_run _ _ w))). fold (flowing w). rewrite Hc.
    cbn [andb]. rewrite (ST_bind_Some _ _ _ _ _ E1). fold (stick_value s).
    erewrite ST_bind_Some by reflexivity. fold s2. by rewrite (ST_bind_Some _ _ _ _ _ E3). }
  split; [|split; [done|split; [done|rewrite Hr'; by apply ramp_spanned]]].
  rewrite Hround, E4. unfold core. unfold chuk_command in Hcmd.
  destruct (chuk_current s w <? f0)%f32; injection Hcmd as <- <-; [done|]. by rewrite then_nothing.
Qed.
End Nunchuk.

(** ** Witnesses *)

Definition chuk_config1 : chuk_config :=
  mk_chuk_config CHUK_CTRL_TYPE_CURRENT (flit 15 100) (f_of_int 100000) (f_of_int 110000) (flit 5 10) (flit 25 100)
    (f_of_int 3000) false false (f_of_int 3000).
(** The stick at the front, the output running. *)
Definition chuk_state1 : chuk_state :=
  (chuk_reset chuk_config1) <| output_running := true |> <| chuck_d := mk_chuck_data 128 255 0 0 0 false false |>.
Definition chuk_world : world sim flash_mem := sim_world MOTOR_TYPE_BLDC.

(** The first round of the ramp: 1/500 of 120 A. *)
Lemma nunchuk_single_command_witness : exists s' x,
  output_round (chuk_state1, chuk_world) = core (mc_exec (CmdCurrent x);; mret tt) (s', chuk_world) /\
  (flit 239 1000 <? x)%f32 = true /\ (x <? flit 241 1000)%f32 = true.
Proof.
  pose proof (nunchuk_single_command chuk_state1 chuk_world) as H.
  destruct (chuk_command chuk_state1 chuk_world) as [cmd braking] eqn:E.
  vm_compute in E. injection E as <- <-.
  destruct H as (s' & H & _).
  - by vm_compute.
  - done.
  - by split.
  - apply ramp_ok_b; by vm_compute.
  - apply amps_b; by vm_compute.
  - apply amps_b; by vm_compute.
  - apply amps_b; by vm_compute.
  - exists s'. eexists. split; [exact H|]. split; by vm_compute.
Defined.

(** A failed transfer, then a round of the output, the old bytes and a failure. *)
Lemma nunchuk_loss_silences_witness : exists s',
  chuk_handles [ChukI2c None; ChukOutput; ChukI2c (Some (replicate 6 0)); ChukI2c None] (chuk_state1, chuk_world)
    = Some (tt, (s', chuk_world)) /\
  exists s2 w2, chuk_round (Some [128; 130; 0; 0; 0; 3]) (s', chuk_world) = Some (tt, (s2, w2)) /\
    cd_js_y (chuck_d s2) = 130 /\ chuck_error s2 = 0.
Proof.
  destruct (nunchuk_loss_silences [ChukOutput; ChukI2c (Some (replicate 6 0)); ChukI2c None] chuk_state1 chuk_world)
    as (s' & E & H).
  - repeat constructor.
  - exists s'. split; [exact E|].
    destruct (H [128; 130; 0; 0; 0; 3] (mk_chuck_data 128 130 0 0 0 false false)) as (s2 & w2 & E2 & Hd & _ & He);
      [done|by vm_compute|].
    exists s2, w2. split; [exact E2|]. by rewrite Hd.
Defined.
