(* ===== verification/AppUart.v ===== *)
(** * AppUart: commands over the serial port (src/applications/app_uartcomm.c)

    The interrupt handler [rxchar] puts received characters into a ring, the
    thread takes them out and gives them to the packet handler 1 of packet.c,
    which calls [process_packet] for a complete packet.  Replies are framed by
    packet.c and copied into a buffer of their own before they are sent. *)
From S2P Require Import Prelude Float32 Buffer Packet McTypes ConfCodec Motor Flash Eeprom Utils.
From S2P Require Import World Transmit McInterface ConfDefault FlashHelper Timeout.
From S2P Require Import ConfGeneral Commands CommCan AppCommon.

Definition SERIAL_RX_BUFFER_SIZE : Z := 1024.
Definition BAUDRATE : Z := 115200.

Record uart_state := mkUart {
  serial_rx_buffer : list Z;
  serial_rx_read_pos : Z;
  serial_rx_write_pos : Z;
  uart_is_running : bool;
  uart_speed : Z;
  (** the event the thread waits for *)
  uart_event : bool;
  (** handler 1 of packet.c *)
  handler : PACKET_STATE_t;
  (** the buffer of [send_packet], and what was handed to the driver *)
  uart_buffer : list Z;
  uart_sent : list (list Z)
}.
#[export] Instance uart_state_eta : Eta uart_state := fun s =>
  mkUart (serial_rx_buffer s) (serial_rx_read_pos s) (serial_rx_write_pos s) (uart_is_running s)
    (uart_speed s) (uart_event s) (handler s) (uart_buffer s) (uart_sent s).

(** The static variables before the start. *)
Definition uart_reset : uart_state :=
  mkUart (replicate 1024 0) 0 0 false BAUDRATE false packet_state0 (replicate 1029 0) [].

(** The two callbacks given to [packet_init]. *)
Definition FUNC_send_packet : Z := 1.
Definition FUNC_process_packet : Z := 2.

(** [packet_init], then the driver and the thread. *)
Definition app_uartcomm_start (s : uart_state) : uart_state :=
  s <| handler := packet_init_h (Some FUNC_send_packet) (Some FUNC_process_packet) (handler s) |>
    <| uart_is_running := true |>.

Definition app_uartcomm_configure (baudrate : Z) (s : uart_state) : uart_state :=
  s <| uart_speed := baudrate |>.

(** The receive interrupt. *)
Definition rxchar (c : Z) : ST uart_state unit := fun s =>
  buffer ← put_ix (serial_rx_write_pos s) (u8 c) (serial_rx_buffer s);
  let i := serial_rx_write_pos s + 1 in
  Some (tt, s <| serial_rx_buffer := buffer |>
              <| serial_rx_write_pos := if i =? SERIAL_RX_BUFFER_SIZE then 0 else i |>
              <| uart_event := true |>).

(** [memcpy(buffer, data, len); uartStartSend(...)] once the line is free. *)
Definition send_packet (data : list Z) (len : Z) : ST uart_state unit := fun s =>
  bs ← mem_read data 0 len;
  buffer ← mem_write 0 bs (uart_buffer s);
  Some (tt, s <| uart_buffer := buffer |> <| uart_sent := uart_sent s ++ [bs] |>).

Fixpoint uart_callbacks (cs : list callback) : ST uart_state unit :=
  match cs with
  | SendCall _ data len :: cs => send_packet data len;; uart_callbacks cs
  | _ :: cs => uart_callbacks cs
  | [] => mret tt
  end.

(** The sending function of commands.c for this port. *)
Definition send_packet_wrapper (data : list Z) (len : Z) : ST uart_state unit := fun s =>
  '(cs, h) ← packet_send_packet_h data len (handler s);
  uart_callbacks cs (s <| handler := h |>).

Section AppUart.
Context {D F : Type} `{Board D} `{Flash F} `{Apps D} `{Sleep D F}.
Context `{Layout mc_configuration} `{Layout app_configuration}.
Abbreviation W := (world D F).
Abbreviation A := (ST (uart_state * W)).
Abbreviation P := (ST (PACKET_STATE_t * W)).

Definition process_packet (data : list Z) (len : Z) : ST W (list Z) :=
  commands_set_send_func SendUart;; commands_process_packet data len.

(** The calls of the packet handler; [data] is its [rx_buffer]. *)
Fixpoint process_callbacks (cs : list callback) : P unit :=
  match cs with
  | ProcessCall _ data len :: cs =>
      mem ← core (process_packet data len);
      own_set (fun h => h <| Packet.rx_buffer := mem |>);;
      process_callbacks cs
  | _ :: cs => process_callbacks cs
  | [] => mret tt
  end.

(** [packet_process_byte(b, PACKET_HANDLER)] *)
Definition uart_byte (b : Z) : P unit := fun '(h, w) =>
  '(cs, h) ← packet_process_byte_h b h;
  process_callbacks cs (h, w).

Definition on_handler (m : P unit) : A unit := fun '(s, w) =>
  '(_, (h, w)) ← m (handler s, w); Some (tt, (s <| handler := h |>, w)).

(** [while (serial_rx_read_pos != serial_rx_write_pos)] *)
Fixpoint uart_drain (fuel : nat) : A unit :=
  match fuel with
  | O => st_fail
  | S fuel =>
      s ← own id;
      if serial_rx_read_pos s =? serial_rx_write_pos s then mret tt else
      b ← core (lift_opt (serial_rx_buffer s !!? serial_rx_read_pos s));
      own_set (fun s => s <| serial_rx_read_pos := serial_rx_read_pos s + 1 |>);;
      on_handler (uart_byte b);;
      own_set (fun s => if serial_rx_read_pos s =? SERIAL_RX_BUFFER_SIZE
                        then s <| serial_rx_read_pos := 0 |> else s);;
      uart_drain fuel
  end.

(** One round of [packet_process_thread]. *)
Definition packet_process_thread_step : A unit :=
  e ← own uart_event;
  own_when e (own_set (fun s => s <| uart_event := false |>);; uart_drain 1024).
End AppUart.
