(* ===== verification/AppUartTheorems.v ===== *)
(** * AppUartTheorems: from received characters to motor commands *)
From S2P Require Import Prelude Float32 Buffer Crc Packet McTypes ConfCodec Motor Flash Eeprom Utils.
From S2P Require Import World Transmit McInterface McInterfaceSpec ConfDefault FlashHelper.
From S2P Require Import Timeout ConfGeneral Commands CommCan BoardSim ConfTheorems TimeoutTheorems.
From S2P Require Import CanTheorems CommandTheorems AppCommon AppUart.

(** ** The ring of received characters *)

(** The unread characters [q], oldest first. *)
Record queued (q : list Z) (s : uart_state) : Prop := {
  q_size : length (serial_rx_buffer s) = 1024%nat;
  q_read : 0 <= serial_rx_read_pos s < 1024;
  q_write : serial_rx_write_pos s = (serial_rx_read_pos s + Z.of_nat (length q)) mod 1024;
  q_fits : Z.of_nat (length q) < 1024;
  q_chars i x : q !! i = Some x ->
    serial_rx_buffer s !! Z.to_nat ((serial_rx_read_pos s + Z.of_nat i) mod 1024) = Some x
}.

Lemma rxchar_queued q c s :
  queued q s -> Z.of_nat (length q) < 1023 ->
  exists s', rxchar c s = Some (tt, s') /\ queued (q ++ [u8 c]) s' /\ handler s' = handler s /\
    uart_event s' = true.
Proof.
  intros [Hsz Hrd Hwr _ Hch] Hlen. unfold rxchar.
  assert (Hw : 0 <= serial_rx_write_pos s < 1024) by (rewrite Hwr; apply Z.mod_pos_bound; lia).
  rewrite put_ix_Some by lia. eexists. split; [reflexivity|]. split; [|done].
  split; cbn [serial_rx_buffer serial_rx_read_pos serial_rx_write_pos setter eta uart_state_eta uart_event].
  - by rewrite length_insert.
  - done.
  - rewrite length_app. cbn [length]. unfold SERIAL_RX_BUFFER_SIZE.
    destruct (Z.eqb_spec (serial_rx_write_pos s + 1) 1024); Z.to_euclidean_division_equations; lia.
  - rewrite length_app. cbn [length]. lia.
  - intros i x Hi. apply lookup_app_Some in Hi as [Hi|[Hge Hi]].
    + pose proof (lookup_lt_Some _ _ _ Hi) as Hil. rewrite list_lookup_insert_ne; [by apply Hch|].
      intros Heq. apply Z2Nat.inj in Heq; [|lia|apply Z.mod_pos_bound; lia].
      rewrite Hwr in Heq. Z.to_euclidean_division_equations; lia.
    + apply list_lookup_singleton_Some in Hi as [H0 <-].
      replace ((serial_rx_read_pos s + Z.of_nat i) mod 1024) with (serial_rx_write_pos s)
        by (rewrite Hwr; f_equal; lia).
      apply list_lookup_insert_eq. lia.
Qed.

Section Uart.
Context {D F : Type} `{Board D} `{Flash F} `{Apps D} `{Sleep D F}.
Context `{Layout mc_configuration} `{Layout app_configuration}.
Abbreviation W := (world D F).

(** Bytes given to the packet handler one after the other. *)
Fixpoint uart_bytes (bs : list Z) : ST (PACKET_STATE_t * W) unit :=
  match bs with
  | [] => mret tt
  | b :: bs => uart_byte b;; uart_bytes bs
  end.

Lemma drain_queued q fuel s (w : W) h' w' :
  queued q s -> (length q < fuel)%nat -> uart_bytes q (handler s, w) = Some (tt, (h', w')) ->
  exists s', uart_drain fuel (s, w) = Some (tt, (s', w')) /\ queued [] s' /\ handler s' = h'.
Proof.
  revert q s w. induction fuel as [|fuel IH]; intros q s w Hq Hf Hb; [lia|].
  destruct Hq as [Hsz Hrd Hwr Hfit Hch]. cbn [uart_drain]. erewrite ST_bind_Some by reflexivity.
  cbn [id]. destruct q as [|b q].
  - injection Hb as <- <-. exists s. cbn [length] in Hwr. rewrite Z.add_0_r, Z.mod_small in Hwr by lia.
    rewrite Hwr, Z.eqb_refl. split; [done|]. split; [|done].
    split; [done|done| |cbn; lia|done]. cbn [length]. rewrite Z.add_0_r, Z.mod_small by lia. lia.
  - cbn [length] in *. rewrite (proj2 (Z.eqb_neq _ _)) by (rewrite Hwr; Z.to_euclidean_division_equations; lia).
    assert (Hb0 : serial_rx_buffer s !!? serial_rx_read_pos s = Some b).
    { specialize (Hch 0%nat b eq_refl). rewrite Z.add_0_r, Z.mod_small in Hch by lia.
      unfold at_ix. by rewrite decide_True by lia. }
    rewrite Hb0. erewrite ST_bind_Some by reflexivity. erewrite ST_bind_Some by reflexivity.
    cbn [uart_bytes] in Hb. unfold mbind, ST_bind in Hb.
    destruct (uart_byte b (handler s, w)) as [[[] [h1 w1]]|] eqn:Hb1; [|done].
    set (s1 := s <| serial_rx_read_pos := serial_rx_read_pos s + 1 |>).
    assert (Hon : on_handler (uart_byte b) (s1, w) = Some (tt, (s1 <| handler := h1 |>, w1)))
      by (unfold on_handler; change (handler s1) with (handler s); by rewrite Hb1).
    rewrite (ST_bind_Some _ _ _ _ _ Hon). erewrite ST_bind_Some by reflexivity.
    apply (IH q); [|lia|].
    2: { match goal with |- uart_bytes q (handler ?x, _) = _ => assert (handler x = h1) as -> end; [|done].
         by destruct (_ =? SERIAL_RX_BUFFER_SIZE). }
    set (s2 := s1 <| handler := h1 |>).
    assert (Hpos : serial_rx_read_pos s2 = serial_rx_read_pos s + 1) by done.
    assert (Hb2 : serial_rx_buffer s2 = serial_rx_buffer s /\
                  serial_rx_write_pos s2 = serial_rx_write_pos s) by done.
    destruct Hb2 as (Hb2 & Hw2). clearbody s2. rewrite Hpos. unfold SERIAL_RX_BUFFER_SIZE.
    assert (Hnext : forall s3 r, serial_rx_buffer s3 = serial_rx_buffer s2 -> serial_rx_write_pos s3 = serial_rx_write_pos s2 ->
      serial_rx_read_pos s3 = r -> 0 <= r < 1024 ->
      r = (serial_rx_read_pos s + 1) mod 1024 -> queued q s3).
    { intros s3 r E1 E2 E3 Hr Hrm. split; rewrite ?E1, ?E2, ?E3, ?Hb2, ?Hw2; try done.
      - rewrite Hwr. Z.to_euclidean_division_equations; lia.
      - lia.
      - intros i x Hi. specialize (Hch (S i) x Hi).
        replace ((r + Z.of_nat i) mod 1024) with ((serial_rx_read_pos s + Z.of_nat (S i)) mod 1024);
          [done|]. rewrite Hrm. Z.to_euclidean_division_equations; lia. }
    destruct (Z.eqb_spec (serial_rx_read_pos s + 1) 1024) as [He|He].
    + apply (Hnext _ 0); try done. by rewrite He.
    + apply (Hnext _ (serial_rx_read_pos s + 1)); try done; [lia|by rewrite Z.mod_small by lia].
Qed.

(** ** Interrupts and rounds of the thread *)

Inductive uart_ev := Rx (c : Z) | Wake.

Definition uart_do (e : uart_ev) : ST (uart_state * W) unit :=
  match e with
  | Rx c => fun '(s, w) => '(_, s) ← rxchar c s; Some (tt, (s, w))
  | Wake => packet_process_thread_step
  end.

Fixpoint uart_run (es : list uart_ev) : ST (uart_state * W) unit :=
  match es with
  | [] => mret tt
  | e :: es => uart_do e;; uart_run es
  end.

Fixpoint received (es : list uart_ev) : list Z :=
  match es with
  | [] => []
  | Rx c :: es => u8 c :: received es
  | Wake :: es => received es
  end.

(** Never more than 1023 characters unread, [n] being so already. *)
Fixpoint keeps_up (n : Z) (es : list uart_ev) : Prop :=
  match es with
  | [] => True
  | Rx _ :: es => n < 1023 /\ keeps_up (n + 1) es
  | Wake :: es => keeps_up 0 es
  end.

Lemma uart_bytes_app bs1 bs2 x :
  uart_bytes (bs1 ++ bs2) x = (uart_bytes bs1;; uart_bytes bs2) x.
Proof.
  revert x. induction bs1 as [|b bs1 IH]; intros x; [done|]. cbn [app uart_bytes].
  unfold mbind, ST_bind. destruct (uart_byte b x) as [[[] x1]|]; [apply IH|done].
Qed.

(** The thread is signalled when there is something to read. *)
Definition signalled (q : list Z) (s : uart_state) : Prop := q <> [] -> uart_event s = true.

Lemma wake_run q s (w : W) h' w' :
  queued q s -> signalled q s -> uart_bytes q (handler s, w) = Some (tt, (h', w')) ->
  exists s', packet_process_thread_step (s, w) = Some (tt, (s', w')) /\ queued [] s' /\ handler s' = h'.
Proof.
  intros Hq Hsig Hb. unfold packet_process_thread_step. erewrite ST_bind_Some by reflexivity.
  destruct (uart_event s) eqn:He; cbn [own_when].
  - erewrite ST_bind_Some by reflexivity. pose proof (q_fits q s Hq).
    apply (drain_queued q 1024 (s <| uart_event := false |>)); [|lia|done].
    by destruct Hq; split.
  - destruct q as [|b q]; [|by rewrite (Hsig ltac:(done)) in He].
    injection Hb as <- <-. by exists s.
Qed.

Lemma uart_fifo_run q es s (w : W) h' w' :
  queued q s -> signalled q s -> keeps_up (Z.of_nat (length q)) es ->
  uart_bytes (q ++ received es) (handler s, w) = Some (tt, (h', w')) ->
  exists s', uart_run (es ++ [Wake]) (s, w) = Some (tt, (s', w')) /\ queued [] s' /\ handler s' = h'.
Proof.
  revert q s w. induction es as [|[c|] es IH]; intros q s w Hq Hsig Hk Hb; cbn [app uart_run received] in *.
  - rewrite app_nil_r in Hb. destruct (wake_run q s w h' w' Hq Hsig Hb) as (s' & Hr & Hs').
    exists s'. split; [|done]. cbn [uart_do]. by rewrite (ST_bind_Some _ _ _ _ _ Hr).
  - destruct Hk as [Hn Hk]. destruct (rxchar_queued q c s Hq Hn) as (s1 & Hr & Hq1 & Hh & He).
    assert (Hd : uart_do (Rx c) (s, w) = Some (tt, (s1, w))) by (cbn [uart_do]; by rewrite Hr).
    rewrite (ST_bind_Some _ _ _ _ _ Hd). apply (IH (q ++ [u8 c])); [done|by intros _| |].
    + rewrite length_app. cbn [length]. by replace (Z.of_nat (length q + 1)) with (Z.of_nat (length q) + 1) by lia.
    + by rewrite <- app_assoc, Hh.
  - rewrite uart_bytes_app in Hb. unfold mbind, ST_bind in Hb.
    destruct (uart_bytes q (handler s, w)) as [[[] [h1 w1]]|] eqn:Hb1; [|done].
    destruct (wake_run q s w h1 w1 Hq Hsig Hb1) as (s1 & Hr & Hq1 & Hh1).
    assert (Hd : uart_do Wake (s, w) = Some (tt, (s1, w1))) by done.
    rewrite (ST_bind_Some _ _ _ _ _ Hd). apply (IH []); [done|by intros ?|exact Hk|]. by rewrite Hh1.
Qed.

(** ** Frames and commands *)

(** A handler that waits for a frame, with the callbacks set. *)
Record ready (h : PACKET_STATE_t) : Prop := {
  r_wf : packet_wf h;
  r_state : rx_state h = 0;
  r_func : process_func h = Some FUNC_process_packet
}.

(** Bytes that complete no packet. *)
Lemma silent_bytes bs h (w : W) h' :
  packet_run (Byte <$> bs) h = Some ([], h') -> uart_bytes bs (h, w) = Some (tt, (h', w)).
Proof.
  revert h. induction bs as [|b bs IH]; intros h Hr; [by injection Hr as <-|].
  change (Byte <$> b :: bs) with (Byte b :: (Byte <$> bs)) in Hr.
  destruct (packet_event (Byte b) h) as [[c h1]|] eqn:He.
  - rewrite (packet_run_cons _ _ _ _ _ He) in Hr.
    destruct (packet_run (Byte <$> bs) h1) as [[cs h2]|] eqn:Hr1; [|done].
    injection Hr as Hnil <-. apply app_eq_nil in Hnil as [-> ->]. cbn [uart_bytes].
    assert (Hb : uart_byte b (h, w) = Some (tt, (h1, w))).
    { unfold uart_byte. cbn [packet_event] in He. by rewrite He. }
    rewrite (ST_bind_Some _ _ _ _ _ Hb). by apply IH.
  - cbn [packet_run] in Hr. unfold mbind, ST_bind in Hr. by rewrite He in Hr.
Qed.

(** The two bytes of the checksum, and then the stop byte. *)
Lemma checksum_bytes payload h :
  rx_state h = 4 -> payload_length h = Z.of_nat (length payload) ->
  (exists tl, Packet.rx_buffer h = payload ++ tl) ->
  exists h1, packet_run (Byte <$> [Z.shiftr (crc16_of payload) 8; u8 (crc16_of payload)]) h = Some ([], h1) /\
    packet_process_byte_h 3 h1 = Some (call_process (process_func h) (Packet.rx_buffer h)
      (Z.of_nat (length payload)), h1 <| rx_state := 0 |>) /\
    Packet.rx_buffer h1 = Packet.rx_buffer h /\ process_func h1 = process_func h.
Proof.
  intros Hst Hpl [tl Hbuf]. pose proof (crc16_of_range payload) as Hc. unfold is_u16 in Hc.
  simpl. unfold mbind, ST_bind, packet_event, packet_process_byte_h. rewrite Hst. simpl. eexists. split; [reflexivity|]. simpl. rewrite Hpl, Hbuf, crc16_prefix. simpl.
  replace (Z.lor _ _) with (crc16_of payload); [by rewrite Z.eqb_refl|].
  pose proof (u8_range (crc16_of payload)). unfold is_u8 in *.
  rewrite lor_shiftl_add, Z.shiftr_div_pow2 by lia. unfold u8. int_solve.
Qed.

Lemma frame_events p : is_bytes p -> Forall event_ok (Byte <$> frame_of p).
Proof.
  intros Hb. apply Forall_fmap. unfold frame_of, compose. apply Forall_app. split.
  - destruct (_ <=? _); repeat constructor; simpl; try apply u8_range; unfold is_u8; lia.
  - apply Forall_app. split; [done|].
    repeat constructor; simpl; try apply u8_range; unfold is_u8; lia.
Qed.

(** A whole frame: one call of [process_packet] with the payload in front of
    the buffer. *)
Lemma frame_bytes p h (w : W) :
  ready h -> sendable p ->
  exists h1 buf, take (length p) buf = p /\ Packet.rx_buffer h1 = buf /\ ready h1 /\
    uart_bytes (frame_of p) (h, w) =
    (mem ← core (process_packet buf (Z.of_nat (length p)));
     own_set (fun h => h <| Packet.rx_buffer := mem |>)) (h1, w).
Proof.
  intros [Hwf Hst Hf] (Hb & Hlen & Hne).
  destruct (frame_of_valid p Hlen Hne) as (hd & Hhd & _ & Heq).
  destruct (receive_header _ hd h Hwf Hst Hhd ltac:(lia)) as (s1 & Hr1 & Hst1 & Hptr1 & Hpl1 & Hb1 & Hf1).
  destruct (receive_payload p s1 [] (Packet.rx_buffer h)) as (s2 & Hr2 & Hst2 & Hpl2 & Hf2 & Hb2);
    [done|done|by destruct p; cbn in *; [lia|]|done|pose proof (wf_rx_len h Hwf); lia|done|done|].
  destruct (checksum_bytes p s2 Hst2) as (s3 & Hr3 & Hcall & Hb3 & Hf3); [congruence|by eexists|].
  set (body := hd ++ p ++ [Z.shiftr (crc16_of p) 8; u8 (crc16_of p)]).
  assert (Hbody : frame_of p = body ++ [3]) by (rewrite Heq; unfold body; by rewrite <- !app_assoc).
  assert (Hrb : packet_run (Byte <$> body) h = Some ([], s3)).
  { unfold body. rewrite !fmap_app, (packet_run_app _ _ _ _ _ Hr1), (packet_run_app _ _ _ _ _ Hr2).
    by rewrite Hr3. }
  exists (s3 <| rx_state := 0 |>), (Packet.rx_buffer s2).
  assert (Hf3' : process_func s2 = Some FUNC_process_packet) by congruence.
  split; [rewrite Hb2; cbn [app]; apply take_app_length|]. split; [done|]. split.
  - assert (Hev : Forall event_ok (Byte <$> body ++ [3])).
    { rewrite <- Hbody. by apply frame_events. }
    rewrite fmap_app in Hev. apply Forall_app in Hev as [Hev1 Hev2].
    destruct (packet_run_wf (Byte <$> body) h Hwf Hev1) as (c & s4 & Hr4 & Hwf4).
    rewrite Hrb in Hr4. injection Hr4 as <- <-.
    destruct (packet_event_wf (Byte 3) s3 Hwf4) as (c5 & s5 & Hr5 & Hwf5); [by apply Forall_inv in Hev2|].
    cbn [packet_event] in Hr5. rewrite Hcall in Hr5. injection Hr5 as _ <-.
    split; [done|done|]. change (process_func s3 = Some FUNC_process_packet). congruence.
  - rewrite Hbody, uart_bytes_app. rewrite (ST_bind_Some _ _ _ _ _ (silent_bytes body h w s3 Hrb)).
    cbn [uart_bytes]. unfold mbind at 1, ST_bind at 1. unfold uart_byte.
    rewrite Hcall, Hf3'. cbn [call_process process_callbacks mbind option_bind].
    unfold mbind, ST_bind.
    destruct (core (process_packet _ _) _) as [[mem [h2 w2]]|]; reflexivity.
Qed.

(** ** Motor commands *)

(** What a motor packet does that arrives over this port. *)
Definition commanded (c : mc_command) (w : W) : W :=
  let w := w <| w_cmd := (w_cmd w) <| World.send_func := Some SendUart |> |> in
  timeout_restarted (if accepts (w_mci w) then perform c w else w).

Fixpoint commanded_all (cs : list mc_command) (w : W) : W :=
  match cs with [] => w | c :: cs => commanded_all cs (commanded c w) end.

(** The payload of a motor packet, and whether it stands for a command. *)
Definition motor_payload (p : Z * Z) : list Z := fst p :: be32 (snd p).
Definition stands_for (p : Z * Z) (c : mc_command) : Prop :=
  wire_command (fst p) (snd p) = Some c /\ is_i32 (snd p).

Definition accepting (w : W) : Prop :=
  motor_state w <> MC_STATE_DETECTING /\ 0 <= m_ignore_iterations (w_mci w).

Lemma commanded_accepting `{!CommandsDoNotDetect} c (w : W) : accepting w -> accepting (commanded c w).
Proof.
  intros [Hd Hi]. unfold commanded. set (w1 := w <| w_cmd := _ |>).
  change (motor_state w) with (motor_state w1) in Hd.
  change (w_mci w) with (w_mci w1) in Hi. clearbody w1. clear w.
  assert (Hacc : accepting (if accepts (w_mci w1) then perform c w1 else w1)).
  { destruct (accepts (w_mci w1)); [|done]. split; [by apply perform_not_detecting|].
    rewrite perform_mci. destruct (note_pos_fields c (consume_override (w_mci w1))) as (_ & _ & _ & ->).
    unfold consume_override. by destruct (m_lock_enabled (w_mci w1)). }
  exact Hacc.
Qed.

Lemma motor_payload_sendable p c : stands_for p c -> sendable (motor_payload p).
Proof.
  intros [Hw Hv]. unfold sendable, motor_payload. split; [|split; cbn; lia].
  constructor; [|apply be32_bytes]. unfold wire_command in Hw.
  repeat match type of Hw with context [if ?a =? ?b then _ else _] =>
    destruct (Z.eqb_spec a b) as [->|_]; [by split|] end. done.
Qed.

Lemma frames_commanded `{!CommandsDoNotDetect} ps cs h (w : W) :
  Forall2 stands_for ps cs -> ready h -> accepting w ->
  exists h', uart_bytes (concat (map (fun p => frame_of (motor_payload p)) ps)) (h, w)
    = Some (tt, (h', commanded_all cs w)) /\ ready h'.
Proof.
  intros Hps. revert h w. induction Hps as [|p c ps cs Hp _ IH]; intros h w Hh Hw; [by exists h|].
  destruct (frame_bytes (motor_payload p) h w Hh (motor_payload_sendable p c Hp))
    as (h1 & buf & Htake & Hbuf & Hr1 & Hrun).
  assert (Hpl : buf = motor_payload p ++ drop 5 buf) by (rewrite <- Htake at 1; by rewrite take_drop).
  set (w1 := w <| w_cmd := (w_cmd w) <| World.send_func := Some SendUart |> |>).
  assert (Hproc : process_packet buf (Z.of_nat (length (motor_payload p))) w = Some (buf, commanded c w)).
  { unfold process_packet. erewrite ST_bind_Some by reflexivity. fold w1.
    destruct Hp as [Hwire Hv], Hw as [Hd Hi]. rewrite Hpl. unfold motor_payload.
    apply (motor_packet (fst p) (snd p) c (drop 5 buf) _ w1); done. }
  assert (Hone : uart_bytes (frame_of (motor_payload p)) (h, w) = Some (tt, (h1, commanded c w))).
  { rewrite Hrun. unfold mbind, ST_bind, core. rewrite Hproc. cbv [mbind option_bind own_set].
    rewrite <- Hbuf. by destruct h1. }
  cbn [map concat]. rewrite uart_bytes_app, (ST_bind_Some _ _ _ _ _ Hone).
  apply IH; [done|by apply commanded_accepting].
Qed.

(** C22. Framed motor packets that arrive over the serial port, cut by
    interrupts and rounds of the thread in any way as long as no more than
    1023 characters wait, are handed to the motor interface one after the
    other in the order they were sent, each with exactly its value and a
    restart of the timeout; an interface that is unlocked, with no block
    after a fault and no detection running, executes them all. *)
Theorem uart_motor_commands `{!CommandsDoNotDetect} ps cs es s (w : W) :
  Forall2 stands_for ps cs -> queued [] s -> ready (handler s) -> accepting w ->
  received es = concat (map (fun p => frame_of (motor_payload p)) ps) -> keeps_up 0 es ->
  exists s', uart_run (es ++ [Wake]) (s, w) = Some (tt, (s', commanded_all cs w)) /\
    queued [] s' /\ ready (handler s').
Proof.
  intros Hps Hq Hh Hw Hrec Hk.
  destruct (frames_commanded ps cs (handler s) w Hps Hh Hw) as (h' & Hb & Hr').
  destruct (uart_fifo_run [] es s w h' (commanded_all cs w) Hq) as (s' & Hrun & Hq' & Hh');
    [by intros ?|exact Hk|by rewrite app_nil_l, Hrec|].
  exists s'. split; [done|]. split; [done|]. by rewrite Hh'.
Qed.
End Uart.

(** ** Replies *)

Lemma frame_of_exact p :
  Z.of_nat (length (frame_of p)) = Z.of_nat (length p) + (if Z.of_nat (length p) <=? 256 then 5 else 6).
Proof. unfold frame_of. destruct (_ <=? _); rewrite !length_app; cbn; lia. Qed.

(** A reply of up to 1023 bytes is framed and handed to the serial
    driver; one of 1024 bytes, the largest packet, has a frame of 1030
    bytes and is written one byte behind the buffer. *)
Theorem uart_reply_bounds p s :
  is_bytes p -> (0 < length p <= 1024)%nat -> length (tx_buffer (handler s)) = 1030%nat ->
  Packet.send_func (handler s) = Some FUNC_send_packet -> length (uart_buffer s) = 1029%nat ->
  match send_packet_wrapper p (Z.of_nat (length p)) s with
  | Some (_, s') => (length p <= 1023)%nat /\ uart_sent s' = uart_sent s ++ [frame_of p]
  | None => length p = 1024%nat
  end.
Proof.
  intros Hb Hlen Htx Hf Hbuf. unfold send_packet_wrapper.
  destruct (packet_send_spec p [] (handler s) Hb ltac:(lia) Htx) as (tx & Hsend & Htx' & Hframe).
  rewrite app_nil_r in Hsend. rewrite Hsend, Hf. cbn [call_send uart_callbacks mbind option_bind].
  pose proof (frame_of_exact p) as Hex. unfold mbind, ST_bind, send_packet.
  assert (Z.of_nat (length (frame_of p)) <= 1030) by (destruct (Z.leb_spec (Z.of_nat (length p)) 256); lia).
  rewrite mem_read_take by lia. cbn [mbind option_bind]. change (Z.to_nat 0) with 0%nat.
  rewrite drop_0, Nat2Z.id, Hframe.
  unfold mem_write. cbn [uart_buffer setter eta uart_state_eta].
  case_decide as Hd; cbn [mbind option_bind].
  - split; [|done]. rewrite Hbuf in Hd. destruct (Z.leb_spec (Z.of_nat (length p)) 256); lia.
  - rewrite Hbuf in Hd. destruct (Z.leb_spec (Z.of_nat (length p)) 256); lia.
Qed.

(** ** Witnesses *)

Definition uart_started : uart_state := app_uartcomm_start uart_reset.

Lemma started_queued : queued [] uart_started.
Proof. split; [reflexivity|cbn; lia|reflexivity|cbn; lia|done]. Qed.

Lemma started_ready : ready (handler uart_started).
Proof. split; [|done|done]. by destruct packet_state0_wf; constructor. Qed.

(** Two commands in one burst: 5 A, and then the brake with 1 A. *)
Lemma uart_motor_commands_witness :
  let ps := [(COMM_SET_CURRENT, 5000); (COMM_SET_CURRENT_BRAKE, 1000)] in
  let bytes := concat (map (fun p => frame_of (motor_payload p)) ps) in
  exists s' w', uart_run (map Rx bytes ++ [Wake]) (uart_started, sim_world MOTOR_TYPE_BLDC)
      = Some (tt, (s', w')) /\
    sim_calls (w_hw w') = [(false, CCurrent (f_of_int 5000 / f_of_int 1000)%f32);
                           (false, CBrake (f_of_int 1000 / f_of_int 1000)%f32)].
Proof.
  intros ps bytes.
  destruct (uart_motor_commands ps [CmdCurrent (f_of_int 5000 / f_of_int 1000)%f32;
    CmdBrake (f_of_int 1000 / f_of_int 1000)%f32] (map Rx bytes) uart_started (sim_world MOTOR_TYPE_BLDC))
    as (s' & Hr & _).
  - repeat constructor; unfold is_i32; cbn; lia.
  - apply started_queued.
  - apply started_ready.
  - split; [apply sim_not_detecting|done].
  - reflexivity.
  - repeat (split; [lia|]). done.
  - exists s'. eexists. split; [exact Hr|reflexivity].
Defined.

Lemma uart_reply_bounds_witness :
  match send_packet_wrapper (replicate 1024 7) 1024 uart_started with
  | Some _ => False | None => True end.
Proof.
  pose proof (uart_reply_bounds (replicate 1024 7) uart_started
    ltac:(apply Forall_replicate; unfold is_u8; lia) ltac:(rewrite length_replicate; lia)
    eq_refl eq_refl eq_refl) as Hb.
  change (Z.of_nat (length (replicate 1024 7))) with 1024 in Hb.
  destruct (send_packet_wrapper _ 1024 uart_started) as [[[] s']|]; [|done].
  destruct Hb as [Hl _]. rewrite length_replicate in Hl. lia.
Defined.
