(* ===== verification/AppSten.v ===== *)
(** * AppSten: a custom application (src/applications/app_sten.c)

    A transmitter sends the position of a throttle as single characters; their
    running median drives the motor and all controllers on the CAN bus.  The file
    is compiled in with USE_APP_STEN only. *)
From S2P Require Import Prelude Float32 McTypes Motor Utils World Transmit McInterface Timeout AppCommon.

Definition HYST : f32 := flit 1 10.
Definition RPM_MAX_1 : f32 := f_of_int 41000.
Definition RPM_MAX_2 : f32 := f_of_int 44000.

(** With the [static] variables of [rxchar] and [set_output]. *)
Record sten_state := mkSten { out_received : f32; c1 : Z; c2 : Z; current_p1 : f32; current_p2 : f32 }.
#[export] Instance sten_state_eta : Eta sten_state := fun s =>
  mkSten (out_received s) (c1 s) (c2 s) (current_p1 s) (current_p2 s).
Definition sten_reset : sten_state := mkSten f0 128 128 f0 f0.

Definition middle_of_3 (a b c : Z) : Z :=
  if (a <=? b) && (a <=? c) then if b <=? c then b else c
  else if (b <=? a) && (b <=? c) then if a <=? c then a else c
  else if a <=? b then a else b.

Section AppSten.
Context {D F : Type} `{Board D}.
Abbreviation W := (world D F).
Abbreviation A := (ST (sten_state * W)).

(** The receive interrupt. *)
Definition rxchar (c : Z) : A unit :=
  own_set (fun s =>
    let med := middle_of_3 c (c1 s) (c2 s) in
    s <| c2 := c1 s |> <| c1 := c |> <| out_received := (f_of_int med / f_of_int 128 - f1)%f32 |>);;
  core timeout_reset.

(** The soft limit of the speed. *)
Definition sten_limit (c : mc_configuration) (rpm current : f32) : f32 :=
  if (rpm >? RPM_MAX_2)%f32 then (- cc_min_current c)%f32
  else if (rpm >? RPM_MAX_1)%f32 then utils_map rpm RPM_MAX_1 RPM_MAX_2 current (- cc_min_current c)%f32
  else current.

(** [set_output]; the inner condition always holds there. *)
Definition set_output (output : f32) : A unit :=
  let output := utils_deadband output HYST f1 in
  rpm ← core mc_interface_get_rpm;
  c ← core mc_interface_get_configuration;
  if (output >? f0)%f32 && (rpm >? - l_max_erpm_fbrake c)%f32 then
    let current :=
      (if output >? f0 then output * l_current_max c else output * fabs (l_current_min c))%f32 in
    let current := sten_limit c rpm current in
    s ← own id;
    let current := ((current + current_p1 s + current_p2 s) / f_of_int 3)%f32 in
    own_set (fun s => s <| current_p2 := current_p1 s |> <| current_p1 := current |>);;
    core (mc_interface_set_current current);;
    core (comm_can_set_current 255 current)
  else
    core (mc_interface_set_brake_current (output * l_current_min c)%f32);;
    core (comm_can_set_current_brake 255 (output * l_current_min c)%f32).

(** One round of [uart_thread], every millisecond. *)
Definition sten_thread_step : A unit :=
  t ← core timeout_has_timeout;
  out ← own out_received;
  own_when (negb t) (set_output out).
End AppSten.

(** A single wrong character between two others never leaves their range. *)
Lemma middle_of_3_between a b c : Z.min a c <= middle_of_3 a b c <= Z.max a c.
Proof.
  unfold middle_of_3.
  destruct (Z.leb_spec a b), (Z.leb_spec a c), (Z.leb_spec b c), (Z.leb_spec b a); cbn [andb]; lia.
Qed.
