(* ===== verification/Radio.v ===== *)
(** * Radio: the nRF24 radio (src/nrf/spi_sw.c, rf.c, rfhelp.c)

    The radio is driven over four pins, one bit at a time; [NrfPins] is what
    the pins do, and everything above them is a definition here: bytes,
    registers, and packets with a checksum of their own.  [char] is unsigned
    on the target. *)
From S2P Require Import Prelude Crc McTypes Transmit CommCan.

(** The pins, and a number of milliseconds going by. *)
Class NrfPins (C : Type) : Type := {
  set_csn : bool -> C -> C;
  set_sck : bool -> C -> C;
  set_mosi : bool -> C -> C;
  read_miso : C -> bool;
  pass_ms : Z -> C -> C
}.

Definition NRF_STATUS_RX_P_NO : Z := 14.
Definition NRF_STATUS_MAX_RT : Z := 16.
Definition NRF_STATUS_TX_DS : Z := 32.
Definition NRF_STATUS_RX_DR : Z := 64.
Definition NRF_STATUS_IRQ : Z := 112.
Definition NRF_STATUS_GET_RX_P_NO (s : Z) : Z := Z.shiftr (Z.land s NRF_STATUS_RX_P_NO) 1.
Definition NRF_STATUS_GET_MAX_RT (s : Z) : Z := Z.shiftr (Z.land s NRF_STATUS_MAX_RT) 4.
Definition NRF_STATUS_GET_TX_DS (s : Z) : Z := Z.shiftr (Z.land s NRF_STATUS_TX_DS) 5.

Definition NRF_CONFIG_PRIM_RX : Z := 1.
Definition NRF_CONFIG_PWR_UP : Z := 2.
Definition NRF_CONFIG_CRCO : Z := 4.
Definition NRF_CONFIG_EN_CRC : Z := 8.
Definition NRF_FEATURE_DYN_ACK : Z := 1.
Definition NRF_FEATURE_DPL : Z := 4.
Definition NRF_RF_SETUP_RF_DR_LOW : Z := 32.
Definition NRF_RF_SETUP_RF_DR_HIGH : Z := 8.
Definition NRF_RF_SETUP_RF_PWR : Z := 6.
Definition NRF_SETUP_RETR_ARC : Z := 15.
Definition NRF_SETUP_RETR_ARD : Z := 240.
Definition NRF_MASK_PIPE0 : Z := 1.

Definition NRF_CMD_READ_REGISTER : Z := 0.
Definition NRF_CMD_WRITE_REGISTER : Z := 32.
Definition NRF_CMD_READ_RX_PAYLOAD : Z := 97.
Definition NRF_CMD_WRITE_TX_PAYLOAD : Z := 160.
Definition NRF_CMD_FLUSH_TX : Z := 225.
Definition NRF_CMD_FLUSH_RX : Z := 226.
Definition NRF_CMD_READ_RX_PAYLOAD_WIDTH : Z := 96.
Definition NRF_CMD_WRITE_ACK_PAYLOAD : Z := 168.
Definition NRF_CMD_WRITE_TX_PAYLOAD_NO_ACK : Z := 176.
Definition NRF_CMD_NOP : Z := 255.

Definition NRF_REG_CONFIG : Z := 0.
Definition NRF_REG_EN_AA : Z := 1.
Definition NRF_REG_EN_RXADDR : Z := 2.
Definition NRF_REG_SETUP_AW : Z := 3.
Definition NRF_REG_SETUP_RETR : Z := 4.
Definition NRF_REG_RF_CH : Z := 5.
Definition NRF_REG_RF_SETUP : Z := 6.
Definition NRF_REG_STATUS : Z := 7.
Definition NRF_REG_RPD : Z := 9.
Definition NRF_REG_RX_ADDR_P0 : Z := 10.
Definition NRF_REG_TX_ADDR : Z := 16.
Definition NRF_REG_FIFO_STATUS : Z := 23.
Definition NRF_REG_DYNPD : Z := 28.
Definition NRF_REG_FEATURE : Z := 29.

(** [NRF_SPEED], [NRF_POWER], [NRF_AW], [NRF_CRC] *)
Definition NRF_SPEED_250K : Z := 0.
Definition NRF_SPEED_2M : Z := 2.
Definition NRF_POWER_0DBM : Z := 3.
Definition NRF_AW_3 : Z := 0.
Definition NRF_CRC_1B : Z := 1.
Definition NRF_CRC_2B : Z := 2.

Section Rf.
Context {C : Type} `{NrfPins C}.
Abbreviation R := (ST C).

(** ** spi_sw.c *)

(** The [n] bits left of a byte; [send] is an [unsigned char]. *)
Fixpoint transfer_bits (n : nat) (send recieve : Z) : R Z :=
  match n with
  | O => mret recieve
  | S n =>
      st_modify (set_mosi (negb (Z.shiftr send 7 =? 0)));;
      miso ← (c ← st_get; mret (read_miso c));
      let recieve := u8 (Z.shiftl recieve 1) in
      st_modify (set_sck true);;
      st_modify (set_sck false);;
      transfer_bits n (u8 (Z.shiftl send 1)) (if miso : bool then Z.lor recieve 1 else recieve)
  end.

Fixpoint transfer_bytes (out : list Z) : R (list Z) :=
  match out with
  | [] => mret []
  | b :: out => r ← transfer_bits 8 b 0; rs ← transfer_bytes out; mret (r :: rs)
  end.

(** [spi_sw_transfer(in_buf, out_buf, length)]: [out] is what [out_buf] holds,
    or zeros if there is none; the result is for [in_buf]. *)
Definition spi_sw_transfer (out : list Z) : R (list Z) :=
  st_modify (set_sck false);; transfer_bytes out.
Definition spi_sw_begin : R unit := st_modify (set_csn false).
Definition spi_sw_end : R unit := st_modify (set_csn true).
(** The pins after the first call; [init_done] skips the others. *)
Definition spi_sw_init (init_done : bool) : R bool :=
  (if init_done then mret tt else st_modify (set_csn true);; st_modify (set_sck false));;
  mret true.

(** ** rf.c *)

(** A command byte, then data out or data in. *)
Definition rf_send (cmd : Z) (data : list Z) : R unit :=
  spi_sw_begin;; spi_sw_transfer [cmd];; spi_sw_transfer data;; spi_sw_end.
Definition rf_receive (cmd length : Z) : R (list Z) :=
  spi_sw_begin;; spi_sw_transfer [cmd];;
  data ← spi_sw_transfer (replicate (Z.to_nat length) 0);
  spi_sw_end;; mret data.
Definition rf_command (cmd : Z) : R unit := spi_sw_begin;; spi_sw_transfer [cmd];; spi_sw_end.

Definition rf_write_reg (reg : Z) (data : list Z) : R unit :=
  rf_send (u8 (Z.lor NRF_CMD_WRITE_REGISTER reg)) data.
Definition rf_write_reg_byte (reg data : Z) : R unit := rf_write_reg reg [u8 data].
Definition rf_read_reg (reg len : Z) : R (list Z) :=
  rf_receive (u8 (Z.lor NRF_CMD_READ_REGISTER reg)) len.
Definition rf_read_reg_byte (reg : Z) : R Z := l ← rf_read_reg reg 1; mret (hd 0 l).

(** "Update if we need" *)
Definition rf_update_reg (reg : Z) (f : Z -> Z) : R unit :=
  reg_old ← rf_read_reg_byte reg;
  let reg_new := f reg_old in
  if reg_old =? reg_new then mret tt else rf_write_reg_byte reg reg_new.

Definition clear_bits (mask x : Z) : Z := Z.land x (Z.lnot mask).

Definition rf_set_speed (speed : Z) : R unit :=
  rf_update_reg NRF_REG_RF_SETUP (fun reg =>
    let reg := clear_bits (Z.lor NRF_RF_SETUP_RF_DR_LOW NRF_RF_SETUP_RF_DR_HIGH) reg in
    if speed =? NRF_SPEED_250K then Z.lor reg NRF_RF_SETUP_RF_DR_LOW
    else if speed =? NRF_SPEED_2M then Z.lor reg NRF_RF_SETUP_RF_DR_HIGH else reg).
Definition rf_set_power (power : Z) : R unit :=
  rf_update_reg NRF_REG_RF_SETUP (fun reg =>
    let reg := u8 (Z.lor (clear_bits (Z.lor NRF_RF_SETUP_RF_PWR 1) reg) (Z.shiftl (u8 power) 1)) in
    if power =? NRF_POWER_0DBM then Z.lor reg 1 else reg).
Definition rf_set_address_width (aw : Z) : R unit :=
  rf_write_reg_byte NRF_REG_SETUP_AW (u8 aw + 1).
Definition rf_set_crc_type (crc_type : Z) : R unit :=
  rf_update_reg NRF_REG_CONFIG (fun reg =>
    let reg := clear_bits (Z.lor NRF_CONFIG_CRCO NRF_CONFIG_EN_CRC) reg in
    if crc_type =? NRF_CRC_1B then Z.lor reg NRF_CONFIG_EN_CRC
    else if crc_type =? NRF_CRC_2B then Z.lor reg (Z.lor NRF_CONFIG_EN_CRC NRF_CONFIG_CRCO) else reg).
Definition rf_set_retr_retries (retries : Z) : R unit :=
  rf_update_reg NRF_REG_SETUP_RETR (fun reg =>
    Z.lor (clear_bits NRF_SETUP_RETR_ARC reg) (Z.land (u8 retries) 15)).
Definition rf_set_retr_delay (delay : Z) : R unit :=
  rf_update_reg NRF_REG_SETUP_RETR (fun reg =>
    Z.lor (clear_bits NRF_SETUP_RETR_ARD reg) (Z.shiftl (Z.land (u8 delay) 15) 4)).

(** [rf_write_reg(reg, address, addr_len)]: [address] holds at least that many bytes. *)
Definition write_addr (reg : Z) (address : list Z) (addr_len : Z) : R unit :=
  match mem_read address 0 addr_len with Some bs => rf_write_reg reg bs | None => st_fail end.
Definition rf_set_rx_addr (pipe : Z) (address : list Z) (addr_len : Z) : R unit :=
  write_addr (NRF_REG_RX_ADDR_P0 + pipe) address addr_len.
Definition rf_set_tx_addr (address : list Z) (addr_len : Z) : R unit :=
  write_addr NRF_REG_TX_ADDR address addr_len.

Definition rf_write_tx_payload (data : list Z) : R unit := rf_send NRF_CMD_WRITE_TX_PAYLOAD data.
Definition rf_write_tx_payload_no_ack (data : list Z) : R unit :=
  rf_send NRF_CMD_WRITE_TX_PAYLOAD_NO_ACK data.
Definition rf_write_ack_payload (pipe : Z) (data : list Z) : R unit :=
  rf_send (Z.lor NRF_CMD_WRITE_ACK_PAYLOAD (Z.land pipe 7)) data.
Definition rf_read_rx_payload (length : Z) : R (list Z) := rf_receive NRF_CMD_READ_RX_PAYLOAD length.

Definition rf_set_frequency (freq : Z) : R unit :=
  rf_write_reg_byte NRF_REG_RF_CH (Z.land (freq - 2400) 127).
Definition rf_get_frequency : R Z := r ← rf_read_reg_byte NRF_REG_RF_CH; mret (r + 2400).
Definition rf_get_address_width : R Z := r ← rf_read_reg_byte NRF_REG_SETUP_AW; mret (r + 2).

(** Set or clear bits of a register that are not set or clear already. *)
Definition rf_set_bits (reg mask : Z) : R unit :=
  tmp ← rf_read_reg_byte reg;
  if Z.land tmp mask =? mask then mret tt else rf_write_reg_byte reg (Z.lor tmp mask).
Definition rf_clear_bits (reg mask : Z) : R unit :=
  tmp ← rf_read_reg_byte reg;
  if Z.land tmp mask =? 0 then mret tt else rf_write_reg_byte reg (clear_bits mask tmp).

Definition rf_power_up : R unit := rf_set_bits NRF_REG_CONFIG NRF_CONFIG_PWR_UP.
Definition rf_power_down : R unit := rf_clear_bits NRF_REG_CONFIG NRF_CONFIG_PWR_UP.
Definition rf_mode_tx : R unit := rf_clear_bits NRF_REG_CONFIG NRF_CONFIG_PRIM_RX.
Definition rf_mode_rx : R unit := rf_set_bits NRF_REG_CONFIG NRF_CONFIG_PRIM_RX.
Definition rf_enable_pipe_autoack (pipes : Z) : R unit := rf_set_bits NRF_REG_EN_AA pipes.
Definition rf_enable_pipe_address (pipes : Z) : R unit := rf_set_bits NRF_REG_EN_RXADDR pipes.
Definition rf_enable_pipe_dlp (pipes : Z) : R unit := rf_set_bits NRF_REG_DYNPD pipes.
Definition rf_enable_features (features : Z) : R unit := rf_set_bits NRF_REG_FEATURE features.

Definition rf_flush_tx : R unit := rf_command NRF_CMD_FLUSH_TX.
Definition rf_flush_rx : R unit := rf_command NRF_CMD_FLUSH_RX.
Definition rf_flush_all : R unit := rf_flush_rx;; rf_flush_tx.
Definition rf_clear_irq : R unit := rf_write_reg_byte NRF_REG_STATUS NRF_STATUS_IRQ.
Definition rf_clear_rx_irq : R unit := rf_write_reg_byte NRF_REG_STATUS NRF_STATUS_RX_DR.
Definition rf_clear_tx_irq : R unit := rf_write_reg_byte NRF_REG_STATUS NRF_STATUS_TX_DS.
Definition rf_clear_maxrt_irq : R unit := rf_write_reg_byte NRF_REG_STATUS NRF_STATUS_MAX_RT.
Definition rf_get_payload_width : R Z :=
  l ← rf_receive NRF_CMD_READ_RX_PAYLOAD_WIDTH 1; mret (hd 0 l).
Definition rf_status : R Z :=
  spi_sw_begin;; l ← spi_sw_transfer [NRF_CMD_NOP]; spi_sw_end;; mret (hd 0 l).
Definition rf_fifo_status : R Z := rf_read_reg_byte NRF_REG_FIFO_STATUS.
Definition rf_rx_power_detect : R Z := r ← rf_read_reg_byte NRF_REG_RPD; mret (Z.shiftr r 1).
End Rf.

(** ** Packets over the radio (src/nrf/rfhelp.c)

    The mutex makes each function one step.  The static variables stand beside
    the pins [C] of the radio. *)

Record rfhelp_state {C : Type} := mkRfhelp {
  rx_addr : list (list Z);
  tx_addr : list Z;
  rx_addr_set : list bool;
  address_length : Z;
  tx_pipe0_addr_eq : bool;
  nrf_conf : nrf_config;
  rf_init_done : bool;
  (** [init_done] of spi_sw.c *)
  spi_init_done : bool;
  pins : C
}.
Arguments rfhelp_state : clear implicits.
#[export] Instance rfhelp_state_eta {C} : Eta (rfhelp_state C) := fun s =>
  mkRfhelp _ (rx_addr s) (tx_addr s) (rx_addr_set s) (address_length s) (tx_pipe0_addr_eq s)
    (nrf_conf s) (rf_init_done s) (spi_init_done s) (pins s).

Section RfHelp.
Context {C : Type} `{NrfPins C}.
Abbreviation S := (rfhelp_state C).
Abbreviation R := (ST S).

Definition radio {A} (m : ST C A) : R A := fun s =>
  '(a, c) ← m (pins s); Some (a, s <| pins := c |>).
Definition rfh {A} (f : S -> A) : R A := fun s => Some (f s, s).
Definition rfh_opt {A} (o : option A) : R A := fun s => a ← o; Some (a, s).

(** [memcmp(rx_addr[0], tx_addr, address_length) == 0] *)
Definition same_addr (s : S) : option bool :=
  rx0 ← rx_addr s !! 0%nat;
  a ← mem_read rx0 0 (address_length s); b ← mem_read (tx_addr s) 0 (address_length s);
  Some (bool_decide (a = b)).
Definition compare_addr : R unit :=
  eq ← (s ← rfh id; rfh_opt (same_addr s)); st_modify (fun s => s <| tx_pipe0_addr_eq := eq |>).

(** The address registers, as the loop over the pipes reads them. *)
Fixpoint read_rx_addrs (n i : nat) : R unit :=
  match n with
  | O => mret tt
  | Datatypes.S n =>
      len ← rfh address_length;
      bs ← radio (rf_read_reg NRF_REG_RX_ADDR_P0 len);
      addrs ← rfh rx_addr;
      a ← rfh_opt (addrs !! i); a ← rfh_opt (mem_write 0 bs a);
      set ← rfh rx_addr_set;
      set ← rfh_opt (put_ix (Z.of_nat i) false set);
      st_modify (fun s => s <| rx_addr := <[i := a]> addrs |> <| rx_addr_set := set |>);;
      read_rx_addrs n (Datatypes.S i)
  end.

Definition rfhelp_init : R unit :=
  d ← rfh spi_init_done; d ← radio (spi_sw_init d);
  st_modify (fun s => s <| spi_init_done := d |> <| address_length := 3 |>);;
  read_rx_addrs 6 0;;
  len ← rfh address_length;
  bs ← radio (rf_read_reg NRF_REG_TX_ADDR len);
  tx ← rfh tx_addr; tx ← rfh_opt (mem_write 0 bs tx);
  st_modify (fun s => s <| tx_addr := tx |>);;
  compare_addr;;
  st_modify (fun s => s <| rf_init_done := true |>).

(** [memcpy(rx_addr[pipe], addr, len)] *)
Definition set_rx_addr (pipe : Z) (addr : list Z) : R unit :=
  addrs ← rfh rx_addr;
  a ← rfh_opt (addrs !!? pipe); a ← rfh_opt (mem_write 0 addr a);
  addrs ← rfh_opt (put_ix pipe a addrs);
  st_modify (fun s => s <| rx_addr := addrs |>).
Definition set_tx_addr (addr : list Z) : R unit :=
  tx ← rfh tx_addr; tx ← rfh_opt (mem_write 0 addr tx);
  st_modify (fun s => s <| tx_addr := tx |>).
(** [rf_set_rx_addr(0, rx_addr[0], address_length)] and its likes *)
Definition use_rx_addr (pipe : Z) : R unit :=
  s ← rfh id; a ← rfh_opt (rx_addr s !!? pipe); radio (rf_set_rx_addr pipe a (address_length s)).
Definition use_tx_addr : R unit :=
  s ← rfh id; radio (rf_set_tx_addr (tx_addr s) (address_length s)).

(** The first half of [rfhelp_restart]: everything but the addresses. *)
Definition restart_settings (conf : nrf_config) : R unit :=
  radio rf_power_down;;
  radio (rf_write_reg_byte NRF_REG_EN_RXADDR 0);;
  radio (rf_write_reg_byte NRF_REG_DYNPD 0);;
  radio (rf_set_crc_type (nrf_crc_type conf));;
  radio (rf_set_retr_retries (nrf_retries conf));;
  radio (rf_set_retr_delay (nrf_retry_delay conf));;
  radio (rf_set_power (nrf_power conf));;
  radio (rf_set_speed (nrf_speed conf));;
  radio (rf_set_address_width NRF_AW_3);;
  radio (rf_set_frequency (2400 + nrf_channel conf));;
  radio (rf_enable_features (Z.lor NRF_FEATURE_DPL NRF_FEATURE_DYN_ACK));;
  radio (rf_enable_pipe_autoack NRF_MASK_PIPE0);;
  radio (rf_enable_pipe_address NRF_MASK_PIPE0);;
  radio (rf_enable_pipe_dlp NRF_MASK_PIPE0).

Definition rfhelp_restart : R unit :=
  conf ← rfh nrf_conf;
  restart_settings conf;;
  addr ← rfh_opt (mem_read (nrf_address conf) 0 3);
  set_tx_addr addr;;
  set_rx_addr 0 addr;;
  st_modify (fun s => s <| tx_pipe0_addr_eq := true |>);;
  use_tx_addr;;
  use_rx_addr 0;;
  radio rf_power_up;;
  radio rf_mode_rx;;
  radio rf_flush_all;;
  radio rf_clear_irq.

Definition rfhelp_update_conf (conf : nrf_config) : R unit :=
  st_modify (fun s => s <| nrf_conf := conf |>);;
  d ← rfh rf_init_done;
  if d : bool then rfhelp_restart else mret tt.

(** The loop of [rfhelp_send_data], [timeout] rounds being left. *)
Fixpoint send_wait (timeout : nat) : R Z :=
  match timeout with
  | O => mret (-2)
  | Datatypes.S timeout =>
      s ← radio rf_status;
      radio (st_modify (pass_ms 1));;
      if negb (NRF_STATUS_GET_TX_DS s =? 0) then mret 0
      else if negb (NRF_STATUS_GET_MAX_RT s =? 0) then radio rf_clear_maxrt_irq;; mret (-1)
      else send_wait timeout
  end.

Definition rfhelp_send_data (data : list Z) (ack : bool) : R Z :=
  radio rf_mode_tx;;
  radio rf_clear_irq;;
  radio rf_flush_all;;
  eq ← rfh tx_pipe0_addr_eq;
  let swap := negb eq && ack in
  (if swap then s ← rfh id; radio (rf_set_rx_addr 0 (tx_addr s) (address_length s)) else mret tt);;
  radio (if ack then rf_write_tx_payload data else rf_write_tx_payload_no_ack data);;
  retval ← send_wait 60;
  (if swap then use_rx_addr 0 else mret tt);;
  radio rf_mode_rx;;
  mret retval.

(** The payload with the checksum of [rfhelp_send_data_crc]. *)
Definition with_crc (data : list Z) (len : Z) : option (list Z) :=
  crc ← crc16 data len;
  bs ← mem_read data 0 len;
  Some (bs ++ [u8 (Z.shiftr crc 8); u8 (Z.land crc 255)]).

Definition rfhelp_send_data_crc (data : list Z) (len : Z) : R Z :=
  buffer ← rfh_opt (with_crc data len);
  conf ← rfh nrf_conf;
  rfhelp_send_data buffer (nrf_send_crc_ack conf).

(** The result, the array [data] and the length.  The number of the pipe, which
    no caller uses, is left out. *)
Definition rfhelp_read_rx_data (data : list Z) (len : Z) : R (Z * list Z * Z) :=
  s ← radio rf_status;
  if NRF_STATUS_GET_RX_P_NO s =? 7 then mret (-1, data, len)
  else
    len ← radio rf_get_payload_width;
    if (len <=? 32) && (0 <=? len) then
      bs ← radio (rf_read_rx_payload len);
      data ← rfh_opt (mem_write 0 bs data);
      radio rf_clear_rx_irq;;
      s ← radio rf_status;
      mret (if NRF_STATUS_GET_RX_P_NO s =? 7 then 0 else 1, data, len)
    else mret (-2, data, 0).

(** The check of [rfhelp_read_rx_data_crc]. *)
Definition check_crc (res : Z) (data : list Z) (len : Z) : option Z :=
  if (0 <=? res) && (2 <? len) then
    crc ← crc16 data (len - 2);
    hi ← data !!? (len - 2); lo ← data !!? (len - 1);
    Some (if crc =? Z.lor (Z.shiftl hi 8) lo then res else -3)
  else Some res.

Definition rfhelp_read_rx_data_crc (data : list Z) (len : Z) : R (Z * list Z * Z) :=
  '(res, data, len) ← rfhelp_read_rx_data data len;
  res ← rfh_opt (check_crc res data len);
  mret (res, data, len - 2).

Definition rfhelp_rf_status : R Z := radio rf_status.

Definition rfhelp_set_tx_addr (addr : list Z) (addr_len : Z) : R unit :=
  bs ← rfh_opt (mem_read addr 0 addr_len);
  set_tx_addr bs;;
  st_modify (fun s => s <| address_length := addr_len |>);;
  compare_addr;;
  use_tx_addr.

Definition rfhelp_set_rx_addr (pipe : Z) (addr : list Z) (addr_len : Z) : R unit :=
  bs ← rfh_opt (mem_read addr 0 addr_len);
  set_rx_addr pipe bs;;
  st_modify (fun s => s <| address_length := addr_len |>);;
  compare_addr;;
  set ← rfh rx_addr_set;
  set ← rfh_opt (put_ix pipe true set);
  st_modify (fun s => s <| rx_addr_set := set |>);;
  radio (rf_set_rx_addr pipe addr addr_len).

Definition rfhelp_power_down : R unit := radio rf_power_down.
Definition rfhelp_power_up : R unit := radio rf_power_up.
End RfHelp.
