(* ===== verification/NrfDriver.v ===== *)
(** * NrfDriver: commands over the radio (src/nrf/nrf_driver.c)

    A packet is cut into payloads of at most 25 bytes, which the receiving
    thread puts together in [rx_buffer].  [rx_inner] is one round of the inner
    loop of the receiving thread and [rx_outer] what follows the loop; the
    local arrays of the thread are part of the state, whatever they hold. *)
From S2P Require Import Prelude Float32 Buffer Crc McTypes ConfCodec Motor Flash Eeprom Utils.
From S2P Require Import World Transmit McInterface ConfDefault FlashHelper Timeout.
From S2P Require Import ConfGeneral Commands CommCan AppCommon Radio.

Definition MAX_PL_LEN : Z := 25.
Definition NRF_RX_BUFFER_SIZE : Z := PACKET_MAX_PL_LEN.
Definition ALIVE_INTERVAL : Z := 50.
Definition NRF_RESTART_TIMEOUT : Z := 500.

Definition MOTE_PACKET_BATT_LEVEL : Z := 0.
Definition MOTE_PACKET_BUTTONS : Z := 1.
Definition MOTE_PACKET_ALIVE : Z := 2.
Definition MOTE_PACKET_FILL_RX_BUFFER : Z := 3.
Definition MOTE_PACKET_FILL_RX_BUFFER_LONG : Z := 4.
Definition MOTE_PACKET_PROCESS_RX_BUFFER : Z := 5.
Definition MOTE_PACKET_PROCESS_SHORT_BUFFER : Z := 6.

Record mote_state := mkMote {
  ms_js_x : Z; ms_js_y : Z; ms_bt_c : bool; ms_bt_z : bool; ms_bt_push : bool; ms_vbat : f32
}.

Record nrf_state {C : Type} := mkNrf {
  mstate : mote_state;
  nrf_rx_buffer : list Z;
  nosend_cnt : Z;
  nrf_restart_rx_time : Z;
  nrf_restart_tx_time : Z;
  (** [buf], [len] and [cdata] of the receiving thread *)
  rx_buf : list Z;
  rx_len : Z;
  rx_cdata : chuck_data;
  rfhelp : rfhelp_state C
}.
Arguments nrf_state : clear implicits.
#[export] Instance nrf_state_eta {C} : Eta (nrf_state C) := fun s =>
  mkNrf _ (mstate s) (nrf_rx_buffer s) (nosend_cnt s) (nrf_restart_rx_time s) (nrf_restart_tx_time s)
    (rx_buf s) (rx_len s) (rx_cdata s) (rfhelp s).

Section NrfDriver.
Context {C : Type} `{NrfPins C}.
Context {D F : Type} `{Board D} `{Flash F} `{Apps D} `{Sleep D F}.
Context `{Layout mc_configuration} `{Layout app_configuration}.
Abbreviation W := (world D F).
Abbreviation A := (ST (nrf_state C * W)).

Definition on_rfhelp {B} (m : ST (rfhelp_state C) B) : A B := fun '(s, w) =>
  '(b, r) ← m (rfhelp s); Some (b, (s <| rfhelp := r |>, w)).
Definition own_opt {B} (o : option B) : A B := fun sw => b ← o; Some (b, sw).

(** Before the threads start. *)
Definition nrf_driver_init : A unit :=
  on_rfhelp rfhelp_init;;
  own_set (fun s => s <| nosend_cnt := 0 |> <| nrf_restart_rx_time := 0 |> <| nrf_restart_tx_time := 0 |>).

Definition rf_tx_wrapper (data : list Z) (len : Z) : A Z :=
  res ← on_rfhelp (rfhelp_send_data_crc data len);
  own_when (res =? 0) (own_set (fun s => s <| nrf_restart_tx_time := NRF_RESTART_TIMEOUT |>));;
  mret res.

(** One round of [tx_thread], every millisecond. *)
Definition tx_thread_step : A unit :=
  own_set (fun s => s <| nosend_cnt := nosend_cnt s + 1 |>);;
  n ← own nosend_cnt;
  own_when (ALIVE_INTERVAL <=? n)
    (rf_tx_wrapper [MOTE_PACKET_ALIVE] 1;; own_set (fun s => s <| nosend_cnt := 0 |>)).

(** Send the bytes and restart the alive interval. *)
Definition send_payload (bytes : list Z) : A unit :=
  rf_tx_wrapper bytes (Z.of_nat (length bytes));; own_set (fun s => s <| nosend_cnt := 0 |>).

(** [for (i = 0; i < len2; i += 23) { if (i > 255) break; ... }]; returns [end_a]. *)
Fixpoint nrf_fill (fuel : nat) (data : list Z) (len2 i end_a : Z) : A Z :=
  match fuel with
  | O => st_fail
  | S fuel =>
      if i <? len2 then
        if 255 <? i then mret end_a else
        let send_len := if i + (MAX_PL_LEN - 2) <=? len2 then MAX_PL_LEN - 2 else u8 (len2 - i) in
        bs ← own_opt (mem_read data i send_len);
        send_payload (MOTE_PACKET_FILL_RX_BUFFER :: u8 i :: bs);;
        nrf_fill fuel data len2 (i + (MAX_PL_LEN - 2)) (i + (MAX_PL_LEN - 2))
      else mret end_a
  end.

(** [for (i = end_a; i < len2; i += 22)] *)
Fixpoint nrf_fill_long (fuel : nat) (data : list Z) (len2 i : Z) : A unit :=
  match fuel with
  | O => st_fail
  | S fuel =>
      if i <? len2 then
        let send_len := if i + (MAX_PL_LEN - 3) <=? len2 then MAX_PL_LEN - 3 else u8 (len2 - i) in
        bs ← own_opt (mem_read data i send_len);
        send_payload (MOTE_PACKET_FILL_RX_BUFFER_LONG :: u8 (Z.shiftr i 8) :: u8 (Z.land i 255) :: bs);;
        nrf_fill_long fuel data len2 (i + (MAX_PL_LEN - 3))
      else mret tt
  end.

(** The last payload: length, checksum and the end of the data. *)
Definition nrf_last (data : list Z) (len len2 : Z) : option (list Z) :=
  crc ← crc16 data len;
  bs ← mem_read data len2 (len - len2);
  Some (MOTE_PACKET_PROCESS_RX_BUFFER :: u8 (Z.shiftr len 8) :: u8 (Z.land len 255)
          :: u8 (Z.shiftr crc 8) :: u8 (Z.land crc 255) :: bs).

(** [data] is the memory from the pointer on, [len] the length to send. *)
Definition nrf_driver_send_buffer (data : list Z) (len : Z) : A unit :=
  if len <=? MAX_PL_LEN - 1 then
    bs ← own_opt (mem_read data 0 len);
    send_payload (MOTE_PACKET_PROCESS_SHORT_BUFFER :: bs)
  else
    let len2 := len - (MAX_PL_LEN - 5) in
    let fuel := S (Z.to_nat len) in
    end_a ← nrf_fill fuel data len2 0 0;
    nrf_fill_long fuel data len2 end_a;;
    last ← own_opt (nrf_last data len len2);
    send_payload last.

(** *** The cases of [rx_thread]: [buf] holds [len] bytes *)

Definition mote_buttons (buf : list Z) : A unit :=
  '(x, y, buttons, vbat) ← own_opt (r ← (x ← get8 (drop 1 buf); y ← get8 (drop 1 buf);
     buttons ← get8 (drop 1 buf); vbat ← buffer_get_int16 (drop 1 buf); mret (x, y, buttons, vbat)) 0; Some r.1);
  let m := mkMote x y (Z.testbit buttons 0) (Z.testbit buttons 1) (Z.testbit buttons 2)
             (f_of_int vbat / f_of_int 1000)%f32 in
  own_set (fun s => s <| mstate := m |>
    <| rx_cdata := (rx_cdata s) <| cd_js_x := u8 (255 - x) |> <| cd_js_y := y |>
                     <| cd_bt_c := ms_bt_c m |> <| cd_bt_z := ms_bt_z m |> |>);;
  cdata ← own rx_cdata;
  core (app_nunchuk_update_output cdata).

(** [memcpy(rx_buffer + i, bs, n)] *)
Definition nrf_store (i : Z) (bs : list Z) : A unit :=
  b ← own nrf_rx_buffer;
  b ← own_opt (mem_write i bs b);
  own_set (fun s => s <| nrf_rx_buffer := b |>).

Definition mote_fill (buf : list Z) (len : Z) : A unit :=
  i ← own_opt (buf !!? 1);
  bs ← own_opt (mem_read buf 2 (len - 2));
  nrf_store i bs.

Definition mote_fill_long (buf : list Z) (len : Z) : A unit :=
  hi ← own_opt (buf !!? 1); lo ← own_opt (buf !!? 2);
  let rxbuf_ind := Z.lor (Z.shiftl hi 8) lo in
  own_when (rxbuf_ind <? NRF_RX_BUFFER_SIZE)
    (bs ← own_opt (mem_read buf 3 (len - 3)); nrf_store rxbuf_ind bs).

Definition mote_process (buf : list Z) (len : Z) : A unit :=
  l1 ← own_opt (buf !!? 1); l0 ← own_opt (buf !!? 2);
  let rxbuf_len := Z.lor (Z.shiftl l1 8) l0 in
  own_when (rxbuf_len <=? NRF_RX_BUFFER_SIZE)
    (crc_high ← own_opt (buf !!? 3); crc_low ← own_opt (buf !!? 4);
     bs ← own_opt (mem_read buf 5 (len - 5));
     nrf_store (rxbuf_len - (len - 5)) bs;;
     b ← own nrf_rx_buffer;
     crc ← own_opt (crc16 b rxbuf_len);
     own_when (crc =? Z.lor (Z.shiftl crc_high 8) crc_low)
       (core (commands_set_send_func SendNrf);;
        b ← core (commands_process_packet b rxbuf_len);
        own_set (fun s => s <| nrf_rx_buffer := b |>))).

Definition mote_short (buf : list Z) (len : Z) : A unit :=
  core (commands_set_send_func SendNrf);;
  b ← core (commands_process_packet (drop 1 buf) (u32 (len - 1)));
  own_set (fun s => s <| rx_buf := take 1 buf ++ b |>).

(** "If something was read" *)
Definition mote_packet : A unit :=
  buf ← own rx_buf; len ← own rx_len;
  packet ← own_opt (buf !!? 0);
  own_set (fun s => s <| nrf_restart_rx_time := NRF_RESTART_TIMEOUT |>);;
  if packet =? MOTE_PACKET_BUTTONS then mote_buttons buf
  else if packet =? MOTE_PACKET_FILL_RX_BUFFER then mote_fill buf len
  else if packet =? MOTE_PACKET_FILL_RX_BUFFER_LONG then mote_fill_long buf len
  else if packet =? MOTE_PACKET_PROCESS_RX_BUFFER then mote_process buf len
  else if packet =? MOTE_PACKET_PROCESS_SHORT_BUFFER then mote_short buf len
  else mret tt.

(** One round of the inner loop: whether it ends. *)
Definition rx_inner : A bool :=
  buf ← own rx_buf; len ← own rx_len;
  '(res, buf, len) ← on_rfhelp (rfhelp_read_rx_data_crc buf len);
  own_set (fun s => s <| rx_buf := buf |> <| rx_len := len |>);;
  own_when (0 <=? res) mote_packet;;
  mret (res <=? 0).

(** "Restart the nrf if nothing has been received for a while" *)
Definition rx_outer : A unit :=
  rx ← own nrf_restart_rx_time; tx ← own nrf_restart_tx_time;
  if (0 <? rx) && (0 <? tx) then
    own_set (fun s => s <| nrf_restart_rx_time := nrf_restart_rx_time s - 5 |>
                        <| nrf_restart_tx_time := nrf_restart_tx_time s - 5 |>)
  else
    on_rfhelp rfhelp_power_up;;
    on_rfhelp rfhelp_restart;;
    own_set (fun s => s <| nrf_restart_rx_time := NRF_RESTART_TIMEOUT |>
                        <| nrf_restart_tx_time := NRF_RESTART_TIMEOUT |>).
End NrfDriver.
