(* ===== verification/NrfTheorems.v ===== *)
(** * NrfTheorems: packets over the radio

    [nrf_driver_send_buffer] on one side and the receiving thread on the other:
    a packet arrives complete, whatever the order in which its parts arrive,
    and whatever else is received in between. *)
From S2P Require Import Prelude Float32 Buffer Crc McTypes ConfCodec Motor Flash Eeprom Utils.
From S2P Require Import World Transmit McInterface McInterfaceSpec ConfDefault FlashHelper.
From S2P Require Import FlashHelper Timeout ConfGeneral Commands CommCan BoardSim ConfTheorems.
From S2P Require Import TimeoutTheorems CanTheorems AppCommon Radio NrfDriver.

(** What the radio hands out: the array of 32 bytes and the length read. *)
Record arrival := mkArrival { a_buf : list Z; a_len : Z }.

Definition crc_bytes (f : list Z) : list Z := [u8 (Z.shiftr (crc16_of f) 8); u8 (Z.land (crc16_of f) 255)].

(** The payload [f] with its checksum, in an array of 32 bytes. *)
Definition carries (f : list Z) (a : arrival) : Prop :=
  (exists junk, a_buf a = f ++ crc_bytes f ++ junk) /\ length (a_buf a) = 32%nat /\
  a_len a = Z.of_nat (length f) + 2.

Definition corrupted (a : arrival) : Prop := check_crc 0 (a_buf a) (a_len a) = Some (-3).

Lemma with_crc_bytes f : with_crc f (Z.of_nat (length f)) = Some (f ++ crc_bytes f).
Proof.
  unfold with_crc. rewrite crc16_take by lia. cbn [mbind option_bind].
  rewrite mem_read_take by lia. cbn [mbind option_bind]. rewrite Nat2Z.id. change (Z.to_nat 0) with 0%nat.
  by rewrite drop_0, firstn_all.
Qed.

Lemma carries_read f a : carries f a -> f <> [] ->
  check_crc 0 (a_buf a) (a_len a) = Some 0 /\ exists junk, a_buf a = f ++ junk.
Proof.
  intros ([junk Hb] & Hl & Ha) Hf. split; [|eexists; exact Hb].
  destruct f as [|x f]; [done|]. set (g := x :: f) in *.
  assert (Hg : (0 < length g)%nat) by (cbn; lia).
  unfold check_crc. rewrite Ha. rewrite (proj2 (Z.ltb_lt _ _)) by lia. cbn [andb Z.leb].
  replace (Z.of_nat (length g) + 2 - 2) with (Z.of_nat (length g)) by lia.
  rewrite Hb at 1. rewrite crc16_prefix. cbn [mbind option_bind].
  replace (Z.of_nat (length g) + 2 - 1) with (Z.of_nat (S (length g))) by lia.
  rewrite !at_ix_lookup, Hb, (lookup_app_r g _ (length g)), (lookup_app_r g _ (S (length g))) by lia.
  change (0 <=? 0) with true.
  replace (length g - length g)%nat with O by lia. replace (S (length g) - length g)%nat with 1%nat by lia.
  cbn [crc_bytes app lookup list_lookup mbind option_bind].
  rewrite join_bytes by apply crc16_of_range. by rewrite Z.eqb_refl.
Qed.

(** ** The parts of a packet *)

(** [n] bytes from [i] on. *)
Definition part (data : list Z) (i n : Z) : list Z := take (Z.to_nat n) (drop (Z.to_nat i) data).

Definition fill_payload (data : list Z) (c : Z * Z) : list Z :=
  let '(i, n) := c in
  (if i <=? 255 then [MOTE_PACKET_FILL_RX_BUFFER; u8 i]
   else [MOTE_PACKET_FILL_RX_BUFFER_LONG; u8 (Z.shiftr i 8); u8 (Z.land i 255)]) ++ part data i n.

Lemma fill_payload_short data i n : i <= 255 ->
  fill_payload data (i, n) = MOTE_PACKET_FILL_RX_BUFFER :: u8 i :: part data i n.
Proof. intros Hi. unfold fill_payload. by rewrite (proj2 (Z.leb_le _ _)). Qed.

Lemma fill_payload_long data i n : 255 < i ->
  fill_payload data (i, n) =
  MOTE_PACKET_FILL_RX_BUFFER_LONG :: u8 (Z.shiftr i 8) :: u8 (Z.land i 255) :: part data i n.
Proof. intros Hi. unfold fill_payload. by rewrite (proj2 (Z.leb_gt _ _)). Qed.

Definition part_ok (len2 : Z) (c : Z * Z) : Prop :=
  let '(i, n) := c in 0 <= i /\ 0 < n /\ i + n <= len2 /\ n <= (if i <=? 255 then 23 else 22).

Definition covers (cs : list (Z * Z)) (i e : Z) : Prop :=
  forall j, i <= j < e -> exists c, c ∈ cs /\ c.1 <= j < c.1 + c.2.

Lemma covers_cons i n cs e : covers cs (i + n) e -> covers ((i, n) :: cs) i e.
Proof.
  intros Hc j Hj. destruct (decide (j < i + n)).
  - exists (i, n). split; [by left|cbn; lia].
  - destruct (Hc j) as (c & Hin & Hr); [lia|]. exists c. split; [by right|done].
Qed.

Lemma covers_app cs1 cs2 i m e : covers cs1 i m -> covers cs2 m e -> covers (cs1 ++ cs2) i e.
Proof.
  intros H1 H2 j Hj. destruct (decide (j < m)).
  - destruct (H1 j) as (c & Hin & Hr); [lia|]. exists c. rewrite elem_of_app. auto.
  - destruct (H2 j) as (c & Hin & Hr); [lia|]. exists c. rewrite elem_of_app. auto.
Qed.

Lemma part_length data i n : 0 <= i -> 0 <= n -> i + n <= Z.of_nat (length data) ->
  length (part data i n) = Z.to_nat n.
Proof. intros. unfold part. rewrite length_take, length_drop. lia. Qed.

Lemma part_lookup data i n j : 0 <= i -> (j < Z.to_nat n)%nat -> part data i n !! j = data !! (Z.to_nat i + j)%nat.
Proof. intros Hi Hj. unfold part. by rewrite lookup_take_lt, lookup_drop by done. Qed.

Lemma carries_inj f f' a : carries f a -> carries f' a -> f = f'.
Proof.
  intros ([j1 H1] & _ & L1) ([j2 H2] & _ & L2). rewrite H1 in H2.
  assert (length f = length f') as Hl by lia. by apply app_inj_1 in H2 as [-> _].
Qed.

(** A payload tells where it belongs. *)
Lemma carries_part data c c' a :
  part_ok 1004 c -> part_ok 1004 c' ->
  c.1 + c.2 <= Z.of_nat (length data) -> c'.1 + c'.2 <= Z.of_nat (length data) ->
  carries (fill_payload data c) a -> carries (fill_payload data c') a -> c' = c.
Proof.
  destruct c as [i n], c' as [i' n']. intros (Hi & Hn & Hm & _) (Hi' & Hn' & Hm' & _) Hd Hd' Hc Hc'.
  cbn [fst snd] in *. pose proof (carries_inj _ _ _ Hc Hc') as He.
  pose proof (part_length data i n ltac:(lia) ltac:(lia) ltac:(lia)) as L.
  pose proof (part_length data i' n' ltac:(lia) ltac:(lia) ltac:(lia)) as L'.
  pose proof (f_equal length He) as Hl.
  destruct (Z.leb_spec i 255), (Z.leb_spec i' 255).
  - rewrite !fill_payload_short in * by lia. injection He as Hu _. cbn [length] in Hl.
    rewrite !u8_id in Hu by (unfold is_u8; lia). f_equal; lia.
  - rewrite fill_payload_short, fill_payload_long in He by lia. discriminate.
  - rewrite fill_payload_long, fill_payload_short in He by lia. discriminate.
  - rewrite !fill_payload_long in * by lia. injection He as H1 H2 _. cbn [length] in Hl.
    pose proof (join_bytes i ltac:(unfold is_u16; lia)) as Ji. rewrite H1, H2, join_bytes in Ji by (unfold is_u16; lia).
    f_equal; lia.
Qed.

(** Nothing of interest: a damaged payload, or a sign of life. *)
Definition noise (a : arrival) : Prop := corrupted a \/ carries [MOTE_PACKET_ALIVE] a.

Lemma carries_noise data c a : part_ok 1004 c -> carries (fill_payload data c) a -> noise a -> False.
Proof.
  destruct c as [i n]. intros (Hi & Hn & _) Hc Hno.
  assert (Hx : exists x f, fill_payload data (i, n) = x :: f /\ x <> MOTE_PACKET_ALIVE).
  { destruct (Z.leb_spec i 255).
    - rewrite fill_payload_short by lia. by eexists _, _.
    - rewrite fill_payload_long by lia. by eexists _, _. }
  destruct Hx as (x & f & Hf & Hne). rewrite Hf in Hc. destruct Hno as [Hno|Hno].
  - destruct (carries_read _ a Hc ltac:(done)) as [Hr _]. unfold corrupted in Hno. congruence.
  - pose proof (carries_inj _ _ _ Hc Hno). congruence.
Qed.

Section Nrf.
Context {C : Type} `{NrfPins C}.
Context {D F : Type} `{Board D} `{Flash F} `{Apps D} `{Sleep D F}.
Context `{Layout mc_configuration} `{Layout app_configuration}.
Abbreviation W := (world D F).
Abbreviation A := (ST (nrf_state C * W)).

Fixpoint nrf_sends (fs : list (list Z)) : A unit :=
  match fs with [] => mret tt | f :: fs => send_payload f;; nrf_sends fs end.

Lemma nrf_bind_assoc {B1 B2 B3} (m : A B1) (k : B1 -> A B2) (l : B2 -> A B3) sw :
  (mbind (M := ST _) l (mbind (M := ST _) k m)) sw = (mbind (M := ST _) (fun a => mbind (M := ST _) l (k a)) m) sw.
Proof. unfold mbind, ST_bind. by destruct (m sw) as [[a s]|]. Qed.

Lemma nrf_bind_ext {B1 B2} (m : A B1) (k l : B1 -> A B2) sw :
  (forall a sw', k a sw' = l a sw') -> (mbind (M := ST _) k m) sw = (mbind (M := ST _) l m) sw.
Proof. intros Hk. unfold mbind, ST_bind. destruct (m sw) as [[a s]|]; [apply Hk|done]. Qed.

Lemma nrf_bind_eq {B1 B2} (m m' : A B1) (k : B1 -> A B2) sw :
  m sw = m' sw -> (mbind (M := ST _) k m) sw = (mbind (M := ST _) k m') sw.
Proof. intros Hm. unfold mbind, ST_bind. by rewrite Hm. Qed.

Lemma nrf_then_nothing (m : A unit) sw : (mbind (M := ST _) (fun _ => mret tt) m) sw = m sw.
Proof. unfold mbind, ST_bind. by destruct (m sw) as [[[] ?]|]. Qed.

Lemma nrf_sends_app fs gs sw : nrf_sends (fs ++ gs) sw = (nrf_sends fs;; nrf_sends gs) sw.
Proof.
  revert sw. induction fs as [|f fs IH]; intros sw; cbn [nrf_sends app]; [done|].
  rewrite nrf_bind_assoc. apply nrf_bind_ext. intros _. apply IH.
Qed.

Lemma own_opt_Some {B B'} (o : option B) b (k : B -> A B') sw :
  o = Some b -> (mbind (M := ST _) k (own_opt o)) sw = k b sw.
Proof. by intros ->. Qed.

Lemma nrf_fill_spec fuel data len2 i :
  0 <= i -> (Z.to_nat (len2 - i) < fuel)%nat -> len2 <= Z.of_nat (length data) ->
  exists cs e, (forall sw, nrf_fill fuel data len2 i i sw =
                 (nrf_sends (fill_payload data <$> cs);; mret e) sw) /\
    Forall (part_ok len2) cs /\ covers cs i (Z.min e len2) /\ 0 <= e /\ (255 < e \/ len2 <= e).
Proof.
  revert i. induction fuel as [|fuel IH]; intros i Hi Hf Hd; [lia|]. cbn [nrf_fill]. unfold MAX_PL_LEN in *.
  destruct (Z.ltb_spec i len2) as [Hlt|Hge].
  2: { exists [], i. split; [done|]. split; [constructor|]. split; [intros j ?; lia|lia]. }
  destruct (Z.ltb_spec 255 i) as [Hbig|Hsmall].
  { exists [], i. split; [done|]. split; [constructor|]. split; [intros j ?; lia|lia]. }
  set (n := if i + (25 - 2) <=? len2 then 25 - 2 else u8 (len2 - i)).
  assert (Hn : n = Z.min 23 (len2 - i)).
  { unfold n, u8. destruct (Z.leb_spec (i + (25 - 2)) len2); [lia|]. rewrite Z.mod_small; lia. }
  clearbody n. change (25 - 2) with 23 in *.
  destruct (IH (i + 23)) as (cs & e & Hrun & Hok & Hcov & He & Hend); [lia..|].
  exists ((i, n) :: cs), e. split; [|split; [|split; [|done]]].
  - intros sw. rewrite (own_opt_Some _ (part data i n)) by (apply mem_read_take; lia).
    cbn [fmap list_fmap nrf_sends]. rewrite nrf_bind_assoc.
    rewrite fill_payload_short by lia. apply nrf_bind_ext. intros _. apply Hrun.
  - constructor; [|done]. unfold part_ok. rewrite (proj2 (Z.leb_le i 255)) by lia. lia.
  - apply covers_cons. intros j Hj. apply Hcov. lia.
Qed.

Lemma nrf_fill_long_spec fuel data len2 i :
  0 <= i -> (255 < i \/ len2 <= i) -> (Z.to_nat (len2 - i) < fuel)%nat -> len2 <= Z.of_nat (length data) ->
  exists cs, (forall sw, nrf_fill_long fuel data len2 i sw = nrf_sends (fill_payload data <$> cs) sw) /\
    Forall (part_ok len2) cs /\ covers cs i len2.
Proof.
  revert i. induction fuel as [|fuel IH]; intros i Hi Hb Hf Hd; [lia|]. cbn [nrf_fill_long]. unfold MAX_PL_LEN in *.
  destruct (Z.ltb_spec i len2) as [Hlt|Hge].
  2: { exists []. split; [done|]. split; [constructor|]. intros j ?; lia. }
  set (n := if i + (25 - 3) <=? len2 then 25 - 3 else u8 (len2 - i)).
  assert (Hn : n = Z.min 22 (len2 - i)).
  { unfold n, u8. destruct (Z.leb_spec (i + (25 - 3)) len2); [lia|]. rewrite Z.mod_small; lia. }
  clearbody n. change (25 - 3) with 22 in *.
  destruct (IH (i + 22)) as (cs & Hrun & Hok & Hcov); [lia..|].
  exists ((i, n) :: cs). split; [|split].
  - intros sw. rewrite (own_opt_Some _ (part data i n)) by (apply mem_read_take; lia).
    cbn [fmap list_fmap nrf_sends]. rewrite fill_payload_long by lia. apply nrf_bind_ext. intros _. apply Hrun.
  - constructor; [|done]. unfold part_ok. rewrite (proj2 (Z.leb_gt i 255)) by lia. lia.
  - apply covers_cons. intros j Hj. apply Hcov. lia.
Qed.

(** *** Receiving *)

(** What a round of the inner loop does with what the radio handed out. *)
Definition nrf_receive (a : arrival) : A unit :=
  res ← own_opt (check_crc 0 (a_buf a) (a_len a));
  own_set (fun s => s <| rx_buf := a_buf a |> <| rx_len := a_len a - 2 |>);;
  own_when (0 <=? res) mote_packet.

Fixpoint nrf_receives (l : list arrival) : A unit :=
  match l with [] => mret tt | a :: l => nrf_receive a;; nrf_receives l end.

Lemma nrf_receives_app gs hs sw : nrf_receives (gs ++ hs) sw = (nrf_receives gs;; nrf_receives hs) sw.
Proof.
  revert sw. induction gs as [|g gs IH]; intros sw; cbn [nrf_receives app]; [done|].
  rewrite nrf_bind_assoc. apply nrf_bind_ext. intros _. apply IH.
Qed.

(** The radio hands out an arrival, perhaps with more to come. *)
Definition hands_out (s : nrf_state C) (a : arrival) (r : rfhelp_state C) : Prop :=
  exists res, 0 <= res /\
    rfhelp_read_rx_data (rx_buf s) (rx_len s) (rfhelp s) = Some ((res, a_buf a, a_len a), r).

Lemma rx_inner_receives s (w : W) a r : hands_out s a r ->
  exists last, rx_inner (s, w) = (nrf_receive a;; mret last) (s <| rfhelp := r |>, w).
Proof.
  intros (res & Hres & Hread).
  assert (Hc : check_crc res (a_buf a) (a_len a) = (c ← check_crc 0 (a_buf a) (a_len a); Some (if c =? 0 then res else c)) /\
    (forall c, check_crc 0 (a_buf a) (a_len a) = Some c -> c = 0 \/ c = -3)).
  { unfold check_crc. apply Z.leb_le in Hres. rewrite Hres. cbn [Z.leb andb].
    destruct (2 <? a_len a); [|split; [done|intros c [= <-]; by left]].
    destruct (crc16 _ _) as [crc|]; [|by split]. cbn [mbind option_bind].
    destruct (a_buf a !!? (a_len a - 2)) as [x|]; [|by split]. cbn [mbind option_bind].
    destruct (a_buf a !!? (a_len a - 1)) as [y|]; [|by split]. cbn [mbind option_bind]. destruct (crc =? _).
    - split; [done|]. intros c [= <-]. by left.
    - split; [done|]. intros c [= <-]. by right. }
  destruct Hc as [Hc Hr].
  exists (match check_crc 0 (a_buf a) (a_len a) with Some 0 => res <=? 0 | _ => true end).
  unfold rx_inner. erewrite ST_bind_Some by reflexivity. erewrite ST_bind_Some by reflexivity.
  unfold on_rfhelp, rfhelp_read_rx_data_crc. unfold mbind at 1, ST_bind at 1. unfold mbind at 1, option_bind at 1.
  rewrite (ST_bind_Some _ _ _ _ _ Hread). cbv beta iota. unfold rfh_opt. rewrite Hc.
  unfold nrf_receive. rewrite nrf_bind_assoc. unfold own_opt.
  destruct (check_crc 0 (a_buf a) (a_len a)) as [c|]; [|done]. cbn [mbind option_bind].
  destruct (Hr c eq_refl) as [-> | ->]; cbn [Z.eqb].
  - unfold mbind, ST_bind. cbn. apply Z.leb_le in Hres. rewrite Hres. cbn [own_when]. done.
  - reflexivity.
Qed.
(** The receive buffer agrees with the packet on the bytes of [P]. *)
Definition agrees (data : list Z) (P : Z -> Prop) (buf : list Z) : Prop :=
  length buf = 1024%nat /\ forall j, 0 <= j -> P j -> buf !! Z.to_nat j = data !! Z.to_nat j.

Lemma agrees_write data P buf i n :
  agrees data P buf -> 0 <= i -> 0 <= n -> i + n <= Z.of_nat (length data) -> i + n <= 1024 ->
  exists buf', mem_write i (part data i n) buf = Some buf' /\
    agrees data (fun j => P j \/ i <= j < i + n) buf'.
Proof.
  intros [Hl Hb] Hi Hn Hd Hmax. pose proof (part_length data i n Hi Hn Hd) as Hp.
  exists (list_inserts (Z.to_nat i) (part data i n) buf). unfold mem_write. rewrite decide_True by lia.
  split; [done|]. split; [by rewrite length_inserts|]. intros j Hj HP.
  destruct (decide (i <= j < i + n)) as [Hin|Hout].
  - rewrite list_lookup_inserts by lia. rewrite part_lookup by lia. f_equal. lia.
  - rewrite <- Hb by tauto. destruct (decide (j < i)).
    + apply list_lookup_inserts_lt. lia.
    + apply list_lookup_inserts_ge. lia.
Qed.

Lemma agrees_weaken data (P Q : Z -> Prop) buf :
  agrees data P buf -> (forall j, 0 <= j -> Q j -> P j) -> agrees data Q buf.
Proof. intros [Hl Hb] HQ. split; [done|]. auto. Qed.

(** A valid payload is handled as it was sent. *)
Lemma nrf_receive_payload f a x f' (s : nrf_state C) (w : W) : carries f a -> f = x :: f' ->
  nrf_receive a (s, w) = mote_packet (s <| rx_buf := a_buf a |> <| rx_len := Z.of_nat (length f) |>, w) /\
  exists junk, a_buf a = f ++ junk.
Proof.
  intros Hc ->. destruct (carries_read _ a Hc ltac:(done)) as [Hcrc Hj]. split; [|done].
  unfold nrf_receive. rewrite (own_opt_Some _ 0) by done. erewrite ST_bind_Some by reflexivity.
  destruct Hc as (_ & _ & ->). change (0 <=? 0) with true. cbn [own_when].
  replace (Z.of_nat (length (x :: f')) + 2 - 2) with (Z.of_nat (length (x :: f'))) by lia. done.
Qed.

(** The state after receiving [a]. *)
Definition received (a : arrival) (len : Z) (buf : list Z) (s : nrf_state C) : nrf_state C :=
  s <| rx_buf := a_buf a |> <| rx_len := len |> <| nrf_restart_rx_time := NRF_RESTART_TIMEOUT |>
    <| nrf_rx_buffer := buf |>.

Lemma store_run i bs buf' (s : nrf_state C) (w : W) : mem_write i bs (nrf_rx_buffer s) = Some buf' ->
  nrf_store i bs (s, w) = Some (tt, (s <| nrf_rx_buffer := buf' |>, w)).
Proof.
  intros Hw. unfold nrf_store. erewrite ST_bind_Some by reflexivity. by rewrite (own_opt_Some _ buf').
Qed.

Lemma receive_part data c a (s : nrf_state C) (w : W) P :
  part_ok 1004 c -> c.1 + c.2 <= Z.of_nat (length data) -> carries (fill_payload data c) a ->
  agrees data P (nrf_rx_buffer s) ->
  exists buf, nrf_receive a (s, w) =
      Some (tt, (received a (Z.of_nat (length (fill_payload data c))) buf s, w)) /\
    agrees data (fun j => P j \/ c.1 <= j < c.1 + c.2) buf.
Proof.
  destruct c as [i n]. intros (Hi & Hn & Hmax & Hshort) Hd Hc Hag. cbn [fst snd] in *.
  destruct (agrees_write data P (nrf_rx_buffer s) i n) as (buf & Hw & Hag'); [done|lia..|].
  exists buf. split; [|done]. pose proof (part_length data i n ltac:(lia) ltac:(lia) ltac:(lia)) as Hpl.
  destruct (Z.leb_spec i 255) as [Hle|Hgt].
  - rewrite (fill_payload_short data i n) in * by lia.
    edestruct nrf_receive_payload as [-> [junk Hj]]; [exact Hc|reflexivity|].
    unfold mote_packet. erewrite ST_bind_Some by reflexivity. erewrite ST_bind_Some by reflexivity.
    cbv beta. change (rx_buf (_ <| rx_len := _ |>)) with (a_buf a).
    rewrite (own_opt_Some _ MOTE_PACKET_FILL_RX_BUFFER) by (by rewrite Hj).
    erewrite ST_bind_Some by reflexivity. change (MOTE_PACKET_FILL_RX_BUFFER =? MOTE_PACKET_BUTTONS) with false.
    cbv beta iota. rewrite Z.eqb_refl. unfold mote_fill.
    rewrite (own_opt_Some _ i); [|rewrite Hj; change 1 with (Z.of_nat 1) at 1; rewrite at_ix_lookup; cbn; f_equal; apply u8_id; unfold is_u8; lia].
    rewrite (own_opt_Some _ (part data i n)).
    + by apply store_run.
    + rewrite Hj. cbn [rx_len]. change (rx_len (_ <| rx_len := ?l |>)) with l.
      rewrite (mem_read_prefix (MOTE_PACKET_FILL_RX_BUFFER :: u8 i :: part data i n) junk 2); [done|lia|cbn [length]; lia|cbn [length]; lia].
  - rewrite (fill_payload_long data i n) in * by lia.
    edestruct nrf_receive_payload as [-> [junk Hj]]; [exact Hc|reflexivity|].
    unfold mote_packet. erewrite ST_bind_Some by reflexivity. erewrite ST_bind_Some by reflexivity.
    cbv beta. change (rx_buf (_ <| rx_len := _ |>)) with (a_buf a).
    rewrite (own_opt_Some _ MOTE_PACKET_FILL_RX_BUFFER_LONG) by (by rewrite Hj).
    erewrite ST_bind_Some by reflexivity. change (MOTE_PACKET_FILL_RX_BUFFER_LONG =? MOTE_PACKET_BUTTONS) with false.
    change (MOTE_PACKET_FILL_RX_BUFFER_LONG =? MOTE_PACKET_FILL_RX_BUFFER) with false.
    cbv beta iota. rewrite Z.eqb_refl. unfold mote_fill_long.
    rewrite (own_opt_Some _ (u8 (Z.shiftr i 8))) by (by rewrite Hj).
    rewrite (own_opt_Some _ (u8 (Z.land i 255))) by (by rewrite Hj).
    rewrite join_bytes by (unfold is_u16; lia). unfold NRF_RX_BUFFER_SIZE, PACKET_MAX_PL_LEN.
    rewrite (proj2 (Z.ltb_lt _ _)) by lia. cbn [own_when].
    rewrite (own_opt_Some _ (part data i n)).
    + by apply store_run.
    + rewrite Hj. change (rx_len (_ <| rx_len := ?l |>)) with l.
      rewrite (mem_read_prefix (MOTE_PACKET_FILL_RX_BUFFER_LONG :: u8 (Z.shiftr i 8) :: u8 (Z.land i 255) :: part data i n) junk 3); [done|lia|cbn [length]; lia|cbn [length]; lia].
Qed.
(** Only the variables of the receiving thread differ. *)
Definition rx_only (s s' : nrf_state C) : Prop :=
  s' = s <| rx_buf := rx_buf s' |> <| rx_len := rx_len s' |>
         <| nrf_restart_rx_time := nrf_restart_rx_time s' |> <| nrf_rx_buffer := nrf_rx_buffer s' |>.

Lemma rx_only_trans s1 s2 s3 : rx_only s1 s2 -> rx_only s2 s3 -> rx_only s1 s3.
Proof. destruct s1, s2, s3. unfold rx_only. intros H12 H23. injection H12. injection H23. intros. subst. done. Qed.

Lemma receive_noise a (s : nrf_state C) (w : W) : noise a ->
  exists s', nrf_receive a (s, w) = Some (tt, (s', w)) /\ rx_only s s' /\ nrf_rx_buffer s' = nrf_rx_buffer s.
Proof.
  intros [Hc|Hc].
  - unfold nrf_receive. rewrite (own_opt_Some _ (-3)) by done. eexists. split; [reflexivity|]. by destruct s.
  - edestruct nrf_receive_payload as [-> [junk Hj]]; [exact Hc|reflexivity|].
    unfold mote_packet. erewrite ST_bind_Some by reflexivity. erewrite ST_bind_Some by reflexivity.
    cbv beta. change (rx_buf (_ <| rx_len := _ |>)) with (a_buf a).
    rewrite (own_opt_Some _ MOTE_PACKET_ALIVE) by (by rewrite Hj).
    eexists. split; [reflexivity|]. by destruct s.
Qed.

(** The positions that the parts received so far cover. *)
Definition seen (data : list Z) (cs : list (Z * Z)) (gs : list arrival) (j : Z) : Prop :=
  exists c a, c ∈ cs /\ a ∈ gs /\ carries (fill_payload data c) a /\ c.1 <= j < c.1 + c.2.

Lemma receive_all data cs gs (s : nrf_state C) (w : W) P :
  Forall (part_ok 1004) cs -> Forall (fun c => c.1 + c.2 <= Z.of_nat (length data)) cs ->
  Forall (fun a => noise a \/ exists c, c ∈ cs /\ carries (fill_payload data c) a) gs ->
  agrees data P (nrf_rx_buffer s) ->
  exists s', nrf_receives gs (s, w) = Some (tt, (s', w)) /\ rx_only s s' /\
    agrees data (fun j => P j \/ seen data cs gs j) (nrf_rx_buffer s').
Proof.
  intros Hok Hd Hgs Hag. rewrite list.Forall_forall in Hok, Hd. revert s P Hag.
  induction Hgs as [|a gs Ha Hgs IH]; intros s P Hag; cbn [nrf_receives].
  { exists s. split; [done|]. split; [by destruct s|]. apply (agrees_weaken _ _ _ _ Hag).
    intros j _ [?|(? & ? & _ & Hin & _)]; [done|inversion Hin]. }
  assert (Hstep : exists s1 P1, nrf_receive a (s, w) = Some (tt, (s1, w)) /\ rx_only s s1 /\
    agrees data P1 (nrf_rx_buffer s1) /\
    forall j, P j \/ seen data cs (a :: gs) j -> P1 j \/ seen data cs gs j).
  { destruct Ha as [Hn|(c & Hin & Hc)].
    - destruct (receive_noise a s w Hn) as (s1 & E1 & Ho1 & Hb1). exists s1, P. rewrite Hb1.
      split_and!; [done..|]. intros j [?|(c & a' & Hc & Ha' & Hcar & Hj)]; [by left|].
      apply elem_of_cons in Ha' as [->|Ha']; [|right; by exists c, a'].
      exfalso. exact (carries_noise _ _ _ (Hok c Hc) Hcar Hn).
    - destruct (receive_part data c a s w P (Hok c Hin) (Hd c Hin) Hc Hag) as (buf & E1 & Hag1).
      eexists _, _. split; [exact E1|]. split; [by destruct s|]. split; [exact Hag1|].
      intros j [?|(c' & a' & Hc' & Ha' & Hcar & Hj)]; [by left; left|].
      apply elem_of_cons in Ha' as [->|Ha']; [|right; by exists c', a'].
      left; right. by rewrite <- (carries_part data c c' a (Hok c Hin) (Hok c' Hc') (Hd c Hin) (Hd c' Hc') Hc Hcar). }
  destruct Hstep as (s1 & P1 & E1 & Ho1 & Hag1 & HP). rewrite (ST_bind_Some _ _ _ _ _ E1).
  destruct (IH s1 P1 Hag1) as (s2 & E2 & Ho2 & Hag2). exists s2. split; [done|].
  split; [by apply (rx_only_trans s s1)|]. apply (agrees_weaken _ _ _ _ Hag2). auto.
Qed.
(** What the receiver does with a complete packet in its buffer. *)
Definition nrf_handle (buf : list Z) (len : Z) : A unit :=
  core (commands_set_send_func SendNrf);;
  b ← core (commands_process_packet buf len);
  own_set (fun s => s <| nrf_rx_buffer := b |>).

Lemma receive_last data len last a (s : nrf_state C) (w : W) :
  24 < len <= 1024 -> len <= Z.of_nat (length data) -> nrf_last data len (len - 20) = Some last ->
  carries last a -> agrees data (fun j => j < len - 20) (nrf_rx_buffer s) ->
  exists buf, length buf = 1024%nat /\ take (Z.to_nat len) buf = take (Z.to_nat len) data /\
    nrf_receive a (s, w) = nrf_handle buf len (received a (Z.of_nat (length last)) buf s, w).
Proof.
  intros Hlen Hd Hlast Hc Hag. unfold nrf_last in Hlast. rewrite crc16_take in Hlast by lia.
  cbn [mbind option_bind] in Hlast. rewrite mem_read_take in Hlast by lia.
  replace (len - (len - 20)) with 20 in Hlast by lia. cbn [mbind option_bind] in Hlast.
  fold (part data (len - 20) 20) in Hlast. injection Hlast as <-.
  set (crc := crc16_of (take (Z.to_nat len) data)) in *.
  assert (Hu : is_u16 crc) by apply crc16_of_range.
  destruct (agrees_write data (fun j => j < len - 20) (nrf_rx_buffer s) (len - 20) 20) as (buf & Hw & Hag'); [done|lia..|].
  assert (Heq : take (Z.to_nat len) buf = take (Z.to_nat len) data).
  { destruct Hag' as [Hbl Hb]. apply list_eq. intros j. destruct (decide (j < Z.to_nat len)%nat).
    - rewrite !lookup_take_lt by done. rewrite <- (Nat2Z.id j). apply Hb; lia.
    - by rewrite !lookup_take_ge by lia. }
  exists buf. split; [apply Hag'|]. split; [done|].
  pose proof (part_length data (len - 20) 20 ltac:(lia) ltac:(lia) ltac:(lia)) as Hpl.
  edestruct nrf_receive_payload as [-> [junk Hj]]; [exact Hc|reflexivity|].
  unfold mote_packet. erewrite ST_bind_Some by reflexivity. erewrite ST_bind_Some by reflexivity.
  cbv beta. change (rx_buf (_ <| rx_len := _ |>)) with (a_buf a).
  rewrite (own_opt_Some _ MOTE_PACKET_PROCESS_RX_BUFFER) by (by rewrite Hj).
  erewrite ST_bind_Some by reflexivity.
  change (MOTE_PACKET_PROCESS_RX_BUFFER =? MOTE_PACKET_BUTTONS) with false.
  change (MOTE_PACKET_PROCESS_RX_BUFFER =? MOTE_PACKET_FILL_RX_BUFFER) with false.
  change (MOTE_PACKET_PROCESS_RX_BUFFER =? MOTE_PACKET_FILL_RX_BUFFER_LONG) with false.
  cbv beta iota. rewrite Z.eqb_refl. unfold mote_process.
  rewrite (own_opt_Some _ (u8 (Z.shiftr len 8))) by (by rewrite Hj).
  rewrite (own_opt_Some _ (u8 (Z.land len 255))) by (by rewrite Hj).
  rewrite (join_bytes len) by (unfold is_u16; lia). cbv zeta. unfold NRF_RX_BUFFER_SIZE, PACKET_MAX_PL_LEN.
  rewrite (proj2 (Z.leb_le _ _)) by lia. cbn [own_when].
  rewrite (own_opt_Some _ (u8 (Z.shiftr crc 8))) by (by rewrite Hj).
  rewrite (own_opt_Some _ (u8 (Z.land crc 255))) by (by rewrite Hj).
  change (rx_len (_ <| rx_len := ?l |>)) with l.
  rewrite (own_opt_Some _ (part data (len - 20) 20)).
  2: { rewrite Hj. apply (mem_read_prefix (_ :: _ :: _ :: _ :: _ :: part data (len - 20) 20) junk 5); cbn [length]; lia. }
  replace (len - (_ - 5)) with (len - 20) by (cbn [length]; lia).
  erewrite (ST_bind_Some (nrf_store _ _)); [|apply store_run; exact Hw].
  erewrite ST_bind_Some by reflexivity. cbv beta.
  match goal with |- context [crc16 ?b len] => change b with buf end.
  rewrite (own_opt_Some _ crc) by (rewrite crc16_take by (destruct Hag'; lia); by rewrite Heq).
  rewrite join_bytes, Z.eqb_refl by done. reflexivity.
Qed.

(** C35. A packet of 25 to 1024 bytes is sent over the radio in payloads
    of at most 25 bytes. A receiver that gets all but the last in any
    order, any number of times, with payloads whose checksum does not
    match and alive packets in between, and then the last, ends up
    handling exactly that packet. *)
Theorem nrf_packet_transfer data len :
  24 < len <= 1024 -> len <= Z.of_nat (length data) ->
  exists fills last,
    (forall s (w : W), nrf_driver_send_buffer data len (s, w) = nrf_sends (fills ++ [last]) (s, w)) /\
    Forall (fun f => 1 <= Z.of_nat (length f) <= MAX_PL_LEN) (fills ++ [last]) /\
    forall gs a s (w : W), length (nrf_rx_buffer s) = 1024%nat ->
      Forall (fun g => noise g \/ exists f, f ∈ fills /\ carries f g) gs ->
      (forall f, f ∈ fills -> exists g, g ∈ gs /\ carries f g) -> carries last a ->
      exists buf s', rx_only s s' /\ length buf = 1024%nat /\
        take (Z.to_nat len) buf = take (Z.to_nat len) data /\
        nrf_receives (gs ++ [a]) (s, w) = nrf_handle buf len (s', w).
Proof.
  intros Hlen Hd. set (len2 := len - 20).
  destruct (nrf_fill_spec (S (Z.to_nat len)) data len2 0) as (cs1 & e & Hrun1 & Hok1 & Hcov1 & He & Hend); [lia..|].
  destruct (nrf_fill_long_spec (S (Z.to_nat len)) data len2 e) as (cs2 & Hrun2 & Hok2 & Hcov2); [lia..|].
  assert (Hlast : exists last, nrf_last data len len2 = Some last /\ length last = 25%nat).
  { unfold nrf_last. rewrite crc16_take by lia. cbn [mbind option_bind]. rewrite mem_read_take by lia.
    eexists. split; [reflexivity|]. cbn [length]. rewrite length_take, length_drop. lia. }
  destruct Hlast as (last & Hlast & Hll). set (cs := cs1 ++ cs2).
  assert (Hok : Forall (part_ok len2) cs) by (by apply Forall_app).
  assert (Hcov : covers cs 0 len2).
  { apply (covers_app _ _ _ (Z.min e len2)); [done|]. intros j Hj. apply Hcov2. lia. }
  exists (fill_payload data <$> cs), last. split; [|split].
  - intros s w. unfold nrf_driver_send_buffer, MAX_PL_LEN. rewrite (proj2 (Z.leb_gt _ _)) by lia.
    change (len - (25 - 5)) with len2. unfold cs. rewrite fmap_app, <- app_assoc, nrf_sends_app.
    rewrite (nrf_bind_eq _ _ _ _ (Hrun1 (s, w))), nrf_bind_assoc. apply nrf_bind_ext. intros _ sw.
    transitivity ((nrf_fill_long (S (Z.to_nat len)) data len2 e;;
                   last ← own_opt (nrf_last data len len2); send_payload last) sw); [done|].
    rewrite (nrf_bind_eq _ _ _ _ (Hrun2 sw)), nrf_sends_app. apply nrf_bind_ext. intros _ sw'.
    rewrite (own_opt_Some _ last) by done. cbn [nrf_sends]. symmetry.
    apply nrf_then_nothing.
  - apply Forall_app. split; [|apply Forall_singleton; unfold MAX_PL_LEN; lia].
    apply list.Forall_forall. intros f (c & -> & Hc)%list_elem_of_fmap. rewrite list.Forall_forall in Hok.
    destruct c as [i n]. destruct (Hok _ Hc) as (Hi & Hn & Hm & Hs).
    pose proof (part_length data i n ltac:(lia) ltac:(lia) ltac:(lia)) as Hpl. unfold MAX_PL_LEN.
    destruct (Z.leb_spec i 255).
    + rewrite fill_payload_short by lia. cbn [length]. lia.
    + rewrite fill_payload_long by lia. cbn [length]. lia.
  - intros gs a s w Hbl Hgs Hall Hca.
    destruct (receive_all data cs gs s w (fun _ => False)) as (s1 & E1 & Ho1 & Hag1).
    + revert Hok. apply Forall_impl. intros [i n]. unfold part_ok. lia.
    + revert Hok. apply Forall_impl. intros [i n]. unfold part_ok. cbn [fst snd]. lia.
    + revert Hgs. apply Forall_impl. intros g [Hg|(f & (c & -> & Hc)%list_elem_of_fmap & Hg)]; [by left|right; by exists c].
    + by split.
    + destruct (receive_last data len last a s1 w) as (buf & Hl & Heq & E2); [done..| |].
      { apply (agrees_weaken _ _ _ _ Hag1). intros j Hj0 Hj. right.
        destruct (Hcov j) as (c & Hc & Hin); [lia|].
        destruct (Hall (fill_payload data c)) as (g & Hg & Hcg); [by apply list_elem_of_fmap_2|].
        by exists c, g. }
      exists buf, (received a (Z.of_nat (length last)) buf s1). split; [|split; [done|split; [done|]]].
      * apply (rx_only_trans s s1); [done|]. by destruct s1.
      * rewrite nrf_receives_app, (ST_bind_Some _ _ _ _ _ E1), <- E2. apply nrf_then_nothing.
Qed.
(** A payload of one byte is too short for a checksum and is not checked; as a
    part of a packet it makes the length of the copy negative. *)
Theorem nrf_short_unchecked a (s : nrf_state C) (w : W) :
  a_buf a !!? 0 = Some MOTE_PACKET_FILL_RX_BUFFER -> a_len a = 1 -> nrf_receive a (s, w) = None.
Proof.
  intros Hb Hl. unfold nrf_receive, check_crc. rewrite Hl. change ((0 <=? 0) && (2 <? 1)) with false.
  rewrite (own_opt_Some _ 0) by done. erewrite ST_bind_Some by reflexivity. change (0 <=? 0) with true. cbn [own_when].
  unfold mote_packet. erewrite ST_bind_Some by reflexivity. erewrite ST_bind_Some by reflexivity. cbv beta.
  change (rx_buf (_ <| rx_len := _ |>)) with (a_buf a). change (rx_len (_ <| rx_len := ?l |>)) with l.
  rewrite (own_opt_Some _ _ _ _ Hb). erewrite ST_bind_Some by reflexivity.
  change (MOTE_PACKET_FILL_RX_BUFFER =? MOTE_PACKET_BUTTONS) with false. cbv beta iota. rewrite Z.eqb_refl.
  unfold mote_fill. unfold own_opt at 1, mbind at 1, ST_bind at 1. destruct (a_buf a !!? 1) as [i|]; [|done].
  cbv [mbind option_bind]. unfold own_opt, mem_read. rewrite decide_False by lia. done.
Qed.
End Nrf.

(** ** Witness *)

(** Pins that always read 0. *)
#[export] Instance no_pins : NrfPins unit := {|
  set_csn _ c := c; set_sck _ c := c; set_mosi _ c := c; read_miso _ := false; pass_ms _ c := c
|}.
Definition rfhelp_state0 : rfhelp_state unit :=
  mkRfhelp _ (replicate 6 (replicate 5 0)) (replicate 5 0) (replicate 6 false) 3 true
    (app_nrf_conf sim_appconf) false false tt.
Definition nrf_state0 : nrf_state unit :=
  mkNrf _ (mkMote 0 0 false false false f0) (replicate 1024 0) 0 0 0 (replicate 32 0) 0
    (mk_chuck_data 0 0 0 0 0 false false) rfhelp_state0.

Definition arrive (f : list Z) : arrival :=
  mkArrival (f ++ crc_bytes f ++ replicate (30 - length f) 0) (Z.of_nat (length f) + 2).

Lemma carries_arrive f : 1 <= Z.of_nat (length f) <= MAX_PL_LEN -> carries f (arrive f).
Proof.
  unfold MAX_PL_LEN. intros Hf. split; [by eexists|]. split; [|done].
  unfold arrive. cbn [a_buf]. rewrite !length_app, length_replicate. cbn [crc_bytes length]. lia.
Qed.

(** 300 bytes whose parts arrive in reverse order. *)
Lemma nrf_packet_transfer_witness : exists fills last buf s',
  nrf_receives (reverse (arrive <$> fills) ++ [arrive last]) (nrf_state0, sim_world MOTOR_TYPE_BLDC)
    = nrf_handle buf 300 (s', sim_world MOTOR_TYPE_BLDC) /\ take 300 buf = replicate 300 7.
Proof.
  destruct (nrf_packet_transfer (C := unit) (D := sim) (F := flash_mem) (replicate 300 7) 300)
    as (fills & last & _ & Hl & Hrec); [lia|done|].
  apply Forall_app in Hl as [Hf Hlast]. rewrite Forall_singleton in Hlast. rewrite list.Forall_forall in Hf.
  destruct (Hrec (reverse (arrive <$> fills)) (arrive last) nrf_state0 (sim_world MOTOR_TYPE_BLDC))
    as (buf & s' & _ & _ & Heq & E).
  - done.
  - apply list.Forall_forall. intros g Hg. rewrite elem_of_reverse in Hg.
    apply list_elem_of_fmap in Hg as (f & -> & Hin). right. exists f. split; [done|]. by apply carries_arrive, Hf.
  - intros f Hin. exists (arrive f). split; [|by apply carries_arrive, Hf].
    rewrite elem_of_reverse. by apply list_elem_of_fmap_2.
  - by apply carries_arrive.
  - exists fills, last, buf, s'. split; [exact E|]. exact Heq.
Defined.
