(* ===== verification/RfTheorems.v ===== *)
(** * RfTheorems: the registers of the radio

    A slave in SPI mode 0 receives the bytes that [spi_sw_transfer] sends and
    answers with its own; on a radio with the registers of the data sheet
    [rfhelp_restart] leaves exactly the configuration in them. *)
From S2P Require Import Prelude Crc McTypes Transmit CommCan Radio.

(** Decide a statement about all bytes. *)
Definition all_below (n : nat) (p : Z -> bool) : bool := forallb p (seqZ 0 (Z.of_nat n)).

Lemma all_below_spec n p x : all_below n p = true -> 0 <= x < Z.of_nat n -> p x = true.
Proof.
  unfold all_below. rewrite forallb_forall. intros Hp Hx. apply Hp. apply list_elem_of_In. rewrite elem_of_seqZ. lia.
Qed.

(** ** A slave *)

(** What sits behind the shift register: the next byte to answer, and what a
    received byte and the chip select do. *)
Class ByteMachine (X : Type) : Type := {
  byte_out : X -> Z;
  byte_in : Z -> X -> X;
  byte_select : X -> X;
  byte_out_u8 : forall x, is_u8 (byte_out x)
}.

Record slave {X : Type} := mkSlave {
  behind : X; sh_out : Z; sh_in : Z; sh_cnt : Z; at_mosi : bool; at_sck : bool
}.
Arguments slave : clear implicits.

Section Slave.
Context {X : Type} `{ByteMachine X}.

(** Mode 0: sample on the rising edge, shift on the falling one. *)
Definition slave_sck (b : bool) (s : slave X) : slave X :=
  let 'mkSlave _ x o i n m k := s in
  match k, b with
  | false, true => mkSlave _ x o (u8 (Z.lor (Z.shiftl i 1) (Z.b2z m))) n m true
  | true, false =>
      if n =? 7 then let x := byte_in i x in mkSlave _ x (byte_out x) 0 0 m false
      else mkSlave _ x (u8 (Z.shiftl o 1)) i (n + 1) m false
  | _, _ => s
  end.

#[export] Instance slave_pins : NrfPins (slave X) := {|
  set_csn b s := if b then s else let x := byte_select (behind s) in mkSlave _ x (byte_out x) 0 0 (at_mosi s) false;
  set_sck := slave_sck;
  set_mosi b s := let 'mkSlave _ x o i n _ k := s in mkSlave _ x o i n b k;
  read_miso s := Z.testbit (sh_out s) 7;
  pass_ms _ s := s
|}.

(** The slave between two bytes. *)
Definition ready (x : X) (m : bool) : slave X := mkSlave _ x (byte_out x) 0 0 m false.

(** The answers to the bytes [bs], and the machine after them. *)
Fixpoint exchange (bs : list Z) (x : X) : list Z * X :=
  match bs with
  | [] => ([], x)
  | b :: bs => let '(rs, x') := exchange bs (byte_in b x) in (byte_out x :: rs, x')
  end.

(** The bits of one step, for both sides. *)
Definition bit_step (k v : Z) : bool :=
  (Bool.eqb (negb (Z.shiftr (u8 (Z.shiftl v k)) 7 =? 0)) (Z.testbit (u8 (Z.shiftl v k)) 7))
  && (u8 (Z.shiftl (u8 (Z.shiftl v k)) 1) =? u8 (Z.shiftl v (k + 1)))
  && ((if Z.testbit (u8 (Z.shiftl v k)) 7 then Z.lor (u8 (Z.shiftl (Z.shiftr v (8 - k)) 1)) 1
       else u8 (Z.shiftl (Z.shiftr v (8 - k)) 1)) =? Z.shiftr v (7 - k))
  && (u8 (Z.lor (Z.shiftl (Z.shiftr v (8 - k)) 1) (Z.b2z (Z.testbit (u8 (Z.shiftl v k)) 7))) =? Z.shiftr v (7 - k)).

Lemma bit_steps k v : 0 <= k < 8 -> is_u8 v -> bit_step k v = true.
Proof.
  intros Hk Hv. refine (all_below_spec 256 (bit_step k) v _ Hv).
  refine (all_below_spec 8 (fun k => all_below 256 (bit_step k)) k _ Hk). by vm_compute.
Qed.

Lemma transfer_bits_run n k b x m : is_u8 b -> Z.of_nat n = 8 - k -> 0 <= k < 8 ->
  exists m', transfer_bits n (u8 (Z.shiftl b k)) (Z.shiftr (byte_out x) (8 - k))
    (mkSlave _ x (u8 (Z.shiftl (byte_out x) k)) (Z.shiftr b (8 - k)) k m false) =
  Some (byte_out x, ready (byte_in b x) m').
Proof.
  intros Hb. revert k m. induction n as [|n IH]; intros k m Hn Hk; [lia|].
  pose proof (bit_steps k b Hk Hb) as H1. pose proof (bit_steps k (byte_out x) Hk (byte_out_u8 x)) as H2.
  unfold bit_step in H1, H2. rewrite !andb_true_iff, !Z.eqb_eq in H1, H2.
  destruct H1 as [[[M1 S1] R1] I1], H2 as [[[M2 S2] R2] I2]. apply eqb_prop in M1, M2.
  cbn [transfer_bits]. erewrite ST_bind_Some by reflexivity. erewrite ST_bind_Some by reflexivity.
  cbv beta zeta. cbn [set_mosi slave_pins read_miso sh_out].
  erewrite ST_bind_Some by reflexivity. erewrite ST_bind_Some by reflexivity.
  cbn [set_sck slave_pins slave_sck]. rewrite M1, R2, I1, S1, S2.
  destruct (k =? 7) eqn:E7.
  - apply Z.eqb_eq in E7. subst k. assert (n = 0%nat) as -> by lia. cbn [transfer_bits].
    change (7 - 7) with 0. rewrite !Z.shiftr_0_r. eexists. reflexivity.
  - apply Z.eqb_neq in E7. replace (7 - k) with (8 - (k + 1)) by lia. apply IH; lia.
Qed.

Lemma transfer_bytes_run bs x m : Forall is_u8 bs ->
  exists m', transfer_bytes bs (ready x m) = Some ((exchange bs x).1, ready (exchange bs x).2 m').
Proof.
  intros Hbs. revert x m. induction Hbs as [|b bs Hb Hbs IH]; intros x m; cbn [transfer_bytes exchange].
  { by exists m. }
  destruct (transfer_bits_run 8 0 b x m Hb ltac:(done) ltac:(lia)) as [m1 E1].
  assert (Z8 : forall v, is_u8 v -> u8 (Z.shiftl v 0) = v /\ Z.shiftr v (8 - 0) = 0).
  { intros v Hv. rewrite Z.shiftl_0_r, u8_id by done. split; [done|].
    rewrite Z.shiftr_div_pow2 by lia. apply Z.div_small. exact Hv. }
  destruct (Z8 b Hb) as [-> Zb] in E1. destruct (Z8 _ (byte_out_u8 x)) as [Ox Zx].
  rewrite Zb, Zx, Ox in E1. unfold ready at 1. rewrite (ST_bind_Some _ _ _ _ _ E1).
  destruct (IH (byte_in b x) m1) as [m2 E2]. rewrite (ST_bind_Some _ _ _ _ _ E2).
  exists m2. by destruct (exchange bs (byte_in b x)).
Qed.

Lemma spi_transfer_run bs x m : Forall is_u8 bs ->
  exists m', spi_sw_transfer bs (ready x m) = Some ((exchange bs x).1, ready (exchange bs x).2 m').
Proof. exact (transfer_bytes_run bs x m). Qed.

(** Selecting the slave, a command and data; the answers to the data. *)
Lemma session cmd bs (s : slave X) : is_u8 cmd -> Forall is_u8 bs ->
  let x := byte_in cmd (byte_select (behind s)) in
  exists m, (spi_sw_begin;; spi_sw_transfer [cmd];; data ← spi_sw_transfer bs; spi_sw_end;; mret data) s =
    Some ((exchange bs x).1, ready (exchange bs x).2 m).
Proof.
  intros Hcmd Hbs x. unfold spi_sw_begin. erewrite ST_bind_Some by reflexivity.
  change (set_csn false s) with (ready (byte_select (behind s)) (at_mosi s)).
  destruct (spi_transfer_run [cmd] (byte_select (behind s)) (at_mosi s)) as [m1 E1]; [by apply Forall_singleton|].
  rewrite (ST_bind_Some _ _ _ _ _ E1). change (exchange [cmd] _).2 with x.
  destruct (spi_transfer_run bs x m1 Hbs) as [m2 E2]. rewrite (ST_bind_Some _ _ _ _ _ E2). by exists m2.
Qed.

Lemma rf_send_session cmd bs (s : slave X) : is_u8 cmd -> Forall is_u8 bs ->
  exists m, rf_send cmd bs s = Some (tt, ready (exchange bs (byte_in cmd (byte_select (behind s)))).2 m).
Proof.
  intros Hc Hb. destruct (session cmd bs s Hc Hb) as [m E]. exists m. revert E.
  unfold rf_send, spi_sw_begin, spi_sw_end, mbind, ST_bind, st_modify, mret, ST_ret.
  destruct (spi_sw_transfer [cmd] _) as [[? s1]|]; [|done]. destruct (spi_sw_transfer bs s1) as [[? s2]|]; [|done].
  by intros [= _ ->].
Qed.

Lemma rf_receive_session cmd len (s : slave X) : is_u8 cmd ->
  let r := exchange (replicate (Z.to_nat len) 0) (byte_in cmd (byte_select (behind s))) in
  exists m, rf_receive cmd len s = Some (r.1, ready r.2 m).
Proof. intros Hc. apply (session cmd (replicate (Z.to_nat len) 0) s Hc). by apply Forall_replicate. Qed.

(** C37. Against any slave that speaks SPI mode 0, in whatever state its
    shift registers are, writing a command with data and reading data over
    the pins exchange exactly those bytes with it, as a machine that takes
    and gives whole bytes would. *)
Theorem spi_exchanges_bytes cmd bs len (s : slave X) : is_u8 cmd -> Forall is_u8 bs ->
  let x := byte_in cmd (byte_select (behind s)) in
  (exists m, rf_send cmd bs s = Some (tt, ready (exchange bs x).2 m)) /\
  (exists m, rf_receive cmd len s =
     Some ((exchange (replicate (Z.to_nat len) 0) x).1, ready (exchange (replicate (Z.to_nat len) 0) x).2 m)).
Proof. intros Hc Hb x. split; [by apply rf_send_session|by apply rf_receive_session]. Qed.
End Slave.

(** ** The registers *)

Definition five_bytes : list Z := [NRF_REG_RX_ADDR_P0; NRF_REG_RX_ADDR_P0 + 1; NRF_REG_TX_ADDR].
Definition reg_width (r : Z) : nat := if bool_decide (r ∈ five_bytes) then 5 else 1.
(** The registers a write replaces; STATUS clears bits, others cannot be written. *)
Definition config_reg (r : Z) : bool := (r <? 7) || (10 <=? r) && (r <? 23) || (r =? 28) || (r =? 29).

(** What the data sheet says about the registers, after a command over SPI. *)
Class NrfChip (C : Type) `{NrfPins C} : Type := {
  regs : C -> gmap Z (list Z);
  chip_ok : C -> Prop;
  regs_typed : forall c r, chip_ok c -> 0 <= r -> config_reg r = true ->
    exists bs, regs c !! r = Some bs /\ length bs = reg_width r /\ Forall is_u8 bs;
  chip_write : forall c r bs old, chip_ok c -> 0 <= r -> config_reg r = true -> Forall is_u8 bs ->
    regs c !! r = Some old -> (length bs <= reg_width r)%nat ->
    exists c', rf_send (32 + r) bs c = Some (tt, c') /\ chip_ok c' /\
      regs c' = <[r := bs ++ drop (length bs) old]> (regs c);
  chip_read : forall c r bs, chip_ok c -> 0 <= r -> config_reg r = true -> regs c !! r = Some bs ->
    exists c', rf_receive r 1 c = Some (take 1 bs, c') /\ chip_ok c' /\ regs c' = regs c;
  chip_status : forall c v, chip_ok c -> is_u8 v ->
    exists c' s, rf_send (32 + NRF_REG_STATUS) [v] c = Some (tt, c') /\ chip_ok c' /\
      regs c' = <[NRF_REG_STATUS := s]> (regs c);
  chip_flush : forall c cmd, chip_ok c -> cmd = NRF_CMD_FLUSH_RX \/ cmd = NRF_CMD_FLUSH_TX ->
    exists c', rf_command cmd c = Some (tt, c') /\ chip_ok c' /\ regs c' = regs c
}.

Section Chip.
Context {C : Type} `{NrfChip C}.

(** [m] ends and changes the registers as [f] says. *)
Definition does {A} (m : ST C A) (c : C) (rs : gmap Z (list Z)) : Prop :=
  exists a c', m c = Some (a, c') /\ chip_ok c' /\ regs c' = rs.

Lemma read_byte c r : chip_ok c -> 0 <= r < 32 -> config_reg r = true -> reg_width r = 1%nat ->
  exists v c', rf_read_reg_byte r c = Some (v, c') /\ is_u8 v /\ regs c !! r = Some [v] /\
    chip_ok c' /\ regs c' = regs c.
Proof.
  intros Hc Hr Hcr Hw. destruct (regs_typed c r Hc ltac:(lia) Hcr) as (bs & Hbs & Hl & Hu).
  destruct bs as [|v [|]]; try (cbn in Hl; lia). destruct (chip_read c r [v] Hc ltac:(lia) Hcr Hbs) as (c' & E & Hc' & Hrs).
  exists v, c'. inversion Hu; subst. split_and!; try done.
  unfold rf_read_reg_byte, rf_read_reg. unfold NRF_CMD_READ_REGISTER. rewrite Z.lor_0_l, u8_id by (unfold is_u8; lia).
  by rewrite (ST_bind_Some _ _ _ _ _ E).
Qed.

Lemma write_cmd r : 0 <= r < 32 -> u8 (Z.lor NRF_CMD_WRITE_REGISTER r) = 32 + r.
Proof.
  intros Hr. change NRF_CMD_WRITE_REGISTER with (Z.shiftl 1 5). rewrite lor_shiftl_add by lia.
  rewrite u8_id; [lia|unfold is_u8; lia].
Qed.

Lemma write_byte c r v old : chip_ok c -> 0 <= r < 32 -> config_reg r = true -> reg_width r = 1%nat ->
  regs c !! r = Some [old] -> is_u8 v ->
  exists c', rf_write_reg_byte r v c = Some (tt, c') /\ chip_ok c' /\ regs c' = <[r := [v]]> (regs c).
Proof.
  intros Hc Hr Hcr Hw Ho Hv. unfold rf_write_reg_byte, rf_write_reg. rewrite write_cmd, u8_id by done.
  apply (chip_write c r [v] [old]); try done; [lia|by apply Forall_singleton|by rewrite Hw].
Qed.

(** Read, change and write back, skipping the write if nothing changes. *)
Lemma update_byte (m : ST C unit) (f : Z -> Z) (same : Z -> bool) r c :
  (forall c, m c = (v ← rf_read_reg_byte r; if same v then mret tt else rf_write_reg_byte r (f v)) c) ->
  (forall v, is_u8 v -> is_u8 (f v)) -> (forall v, is_u8 v -> same v = true -> f v = v) ->
  chip_ok c -> 0 <= r < 32 -> config_reg r = true -> reg_width r = 1%nat ->
  exists v, is_u8 v /\ regs c !! r = Some [v] /\
    exists c', m c = Some (tt, c') /\ chip_ok c' /\ regs c' = <[r := [f v]]> (regs c).
Proof.
  intros Hm Hf Hs Hc Hr Hcr Hw. destruct (read_byte c r Hc Hr Hcr Hw) as (v & c1 & E & Hv & Hl & Hc1 & Hrs).
  exists v. split; [done|]. split; [done|]. rewrite Hm, (ST_bind_Some _ _ _ _ _ E). destruct (same v) eqn:Es.
  - exists c1. split; [done|]. split; [done|]. rewrite Hs, Hrs, insert_id by done. done.
  - destruct (write_byte c1 r (f v) v) as (c2 & E2 & Hc2 & Hrs2); try done; [by rewrite Hrs|by apply Hf|].
    exists c2. by rewrite <- Hrs.
Qed.
(** *** The functions of rf.c that [rfhelp_restart] uses *)

Definition crc_after (crc_type v : Z) : Z :=
  let v := clear_bits (Z.lor NRF_CONFIG_CRCO NRF_CONFIG_EN_CRC) v in
  if crc_type =? NRF_CRC_1B then Z.lor v NRF_CONFIG_EN_CRC
  else if crc_type =? NRF_CRC_2B then Z.lor v (Z.lor NRF_CONFIG_EN_CRC NRF_CONFIG_CRCO) else v.
Definition retries_after (retries v : Z) : Z := Z.lor (clear_bits NRF_SETUP_RETR_ARC v) (Z.land (u8 retries) 15).
Definition delay_after (delay v : Z) : Z := Z.lor (clear_bits NRF_SETUP_RETR_ARD v) (Z.shiftl (Z.land (u8 delay) 15) 4).
Definition power_after (power v : Z) : Z :=
  let v := u8 (Z.lor (clear_bits (Z.lor NRF_RF_SETUP_RF_PWR 1) v) (Z.shiftl (u8 power) 1)) in
  if power =? NRF_POWER_0DBM then Z.lor v 1 else v.
Definition speed_after (speed v : Z) : Z :=
  let v := clear_bits (Z.lor NRF_RF_SETUP_RF_DR_LOW NRF_RF_SETUP_RF_DR_HIGH) v in
  if speed =? NRF_SPEED_250K then Z.lor v NRF_RF_SETUP_RF_DR_LOW
  else if speed =? NRF_SPEED_2M then Z.lor v NRF_RF_SETUP_RF_DR_HIGH else v.

(** [m] replaces the byte of register [r] by [f] of it. *)
Definition updates (m : ST C unit) (r : Z) (f : Z -> Z) : Prop :=
  forall c, chip_ok c -> exists v, is_u8 v /\ regs c !! r = Some [v] /\
    exists c', m c = Some (tt, c') /\ chip_ok c' /\ regs c' = <[r := [f v]]> (regs c).

Definition byte_reg (r : Z) : bool :=
  (0 <=? r) && (r <? 32) && config_reg r && bool_decide (reg_width r = 1%nat).

Lemma updates_reg f r : byte_reg r = true -> (forall v, is_u8 v -> is_u8 (f v)) -> updates (rf_update_reg r f) r f.
Proof.
  unfold byte_reg. rewrite !andb_true_iff, bool_decide_eq_true. intros [[[H1 H2] H3] H4] Hf c Hc.
  apply (update_byte _ f (fun v => v =? f v) r c); try done; [|lia].
  intros v _ Hv. apply Z.eqb_eq in Hv. congruence.
Qed.

Lemma land_ones_u8 z : is_u8 (Z.land z (Z.ones 8)).
Proof. rewrite Z.land_ones by lia. apply u8_range. Qed.
Lemma u8_land_ones z : is_u8 z -> Z.land z (Z.ones 8) = z.
Proof. intros Hz. rewrite Z.land_ones by lia. by apply u8_id. Qed.

Lemma clear_u8 mask v : is_u8 v -> is_u8 (clear_bits mask v).
Proof.
  intros Hv. unfold clear_bits. rewrite <- (u8_land_ones v Hv), <- Z.land_assoc, (Z.land_comm (Z.ones 8)), Z.land_assoc.
  apply land_ones_u8.
Qed.

Lemma lor_u8 a b : is_u8 a -> is_u8 b -> is_u8 (Z.lor a b).
Proof.
  intros Ha Hb. rewrite <- (u8_land_ones a Ha), <- (u8_land_ones b Hb), <- Z.land_lor_distr_l. apply land_ones_u8.
Qed.

Lemma updates_set r mask : byte_reg r = true -> is_u8 mask -> updates (rf_set_bits r mask) r (fun v => Z.lor v mask).
Proof.
  unfold byte_reg. rewrite !andb_true_iff, bool_decide_eq_true. intros [[[H1 H2] H3] H4] Hm c Hc.
  apply (update_byte _ (fun v => Z.lor v mask) (fun v => Z.land v mask =? mask) r c); try done; [|intros v Hv Hs|lia].
  - intros v Hv. by apply lor_u8.
  - apply Z.eqb_eq in Hs. rewrite <- Hs. apply Z.bits_inj. intros n.
    rewrite Z.lor_spec, Z.land_spec. by destruct (Z.testbit v n).
Qed.

Lemma updates_clear r mask : byte_reg r = true -> updates (rf_clear_bits r mask) r (clear_bits mask).
Proof.
  unfold byte_reg. rewrite !andb_true_iff, bool_decide_eq_true. intros [[[H1 H2] H3] H4] c Hc.
  apply (update_byte _ (clear_bits mask) (fun v => Z.land v mask =? 0) r c); try done; [intros v; apply clear_u8|intros v Hv Hs|lia].
  apply Z.eqb_eq in Hs. unfold clear_bits. apply Z.bits_inj'. intros n Hn. apply (f_equal (fun z => Z.testbit z n)) in Hs.
  rewrite Z.land_spec, Z.bits_0 in Hs. rewrite Z.land_spec, Z.lnot_spec by done. by destruct (Z.testbit v n), (Z.testbit mask n).
Qed.
(** *** [rfhelp_restart] *)

(** A configuration the enumerations and the radio have values for. *)
Definition nrf_conf_ok (conf : nrf_config) : Prop :=
  0 <= nrf_crc_type conf < 3 /\ 0 <= nrf_retries conf < 16 /\ 0 <= nrf_retry_delay conf < 16 /\
  0 <= nrf_power conf < 4 /\ 0 <= nrf_speed conf < 3 /\ 0 <= nrf_channel conf < 128 /\
  length (nrf_address conf) = 3%nat /\ Forall is_u8 (nrf_address conf).

(** The registers in terms of those before: [v] is the byte of [r] before. *)
Definition was (before : gmap Z (list Z)) (r v : Z) : Prop := is_u8 v /\ before !! r = Some [v].

Record settings (conf : nrf_config) (before now : gmap Z (list Z)) : Prop := {
  st_retr : now !! NRF_REG_SETUP_RETR = Some [16 * nrf_retry_delay conf + nrf_retries conf];
  (* other bits kept; 32 is 250k, 8 is 2M; bit 0 is set for the highest power *)
  st_setup : exists v, was before NRF_REG_RF_SETUP v /\
    now !! NRF_REG_RF_SETUP = Some [Z.land v 208 + nth (Z.to_nat (nrf_speed conf)) [32; 0; 8] 0
                                    + nth (Z.to_nat (nrf_power conf)) [0; 2; 4; 7] 0];
  st_aw : now !! NRF_REG_SETUP_AW = Some [1];
  st_channel : now !! NRF_REG_RF_CH = Some [nrf_channel conf];
  st_feature : exists v, was before NRF_REG_FEATURE v /\ now !! NRF_REG_FEATURE = Some [Z.lor v 5];
  st_ack : exists v, was before NRF_REG_EN_AA v /\ now !! NRF_REG_EN_AA = Some [Z.lor v 1];
  st_pipes : now !! NRF_REG_EN_RXADDR = Some [1];
  st_dynamic : now !! NRF_REG_DYNPD = Some [1]
}.

Record configured (conf : nrf_config) (before now : gmap Z (list Z)) : Prop := {
  cf_settings : settings conf before now;
  (* interrupt masks kept, CRC as asked, power up, receive mode *)
  cf_config : exists v, was before NRF_REG_CONFIG v /\
    now !! NRF_REG_CONFIG = Some [Z.land v 240 + 4 * nth (Z.to_nat (nrf_crc_type conf)) [0; 2; 3] 0 + 3];
  cf_tx : exists rest, now !! NRF_REG_TX_ADDR = Some (nrf_address conf ++ rest);
  cf_rx : exists rest, now !! NRF_REG_RX_ADDR_P0 = Some (nrf_address conf ++ rest)
}.

Abbreviation S := (rfhelp_state C).

Lemma pins_pins (s : S) c c' : s <| pins := c |> <| pins := c' |> = s <| pins := c' |>.
Proof. by destruct s. Qed.

Lemma at_pins (P : S -> Prop) s : P (s <| pins := pins s |>) -> P s.
Proof. by destruct s. Qed.

Lemma radio_then (m : ST C unit) (k : unit -> ST S unit) (Q : S -> Prop) (s : S) c c' :
  m c = Some (tt, c') ->
  (exists s', k tt (s <| pins := c' |>) = Some (tt, s') /\ Q s') ->
  exists s', (mbind (M := ST S) k (radio m)) (s <| pins := c |>) = Some (tt, s') /\ Q s'.
Proof.
  intros Hm (s' & E & HQ). exists s'. split; [|done].
  unfold mbind, ST_bind, radio. change (pins (s <| pins := c |>)) with c. rewrite Hm. cbn [mbind option_bind].
  by rewrite pins_pins.
Qed.

Lemma updates_then (m : ST C unit) r f (k : unit -> ST S unit) (Q : S -> Prop) (s : S) c :
  updates m r f -> chip_ok c ->
  (forall v c', was (regs c) r v -> chip_ok c' -> regs c' = <[r := [f v]]> (regs c) ->
   exists s', k tt (s <| pins := c' |>) = Some (tt, s') /\ Q s') ->
  exists s', (mbind (M := ST S) k (radio m)) (s <| pins := c |>) = Some (tt, s') /\ Q s'.
Proof.
  intros Hu Hc Hk. destruct (Hu _ Hc) as (v & Hv & Hl & c' & E & Hc' & Hr).
  apply (radio_then m k Q s c c' E). by apply (Hk v).
Qed.

Lemma write_then r v (k : unit -> ST S unit) (Q : S -> Prop) (s : S) c :
  byte_reg r = true -> is_u8 v -> chip_ok c ->
  (forall c', chip_ok c' -> regs c' = <[r := [v]]> (regs c) ->
   exists s', k tt (s <| pins := c' |>) = Some (tt, s') /\ Q s') ->
  exists s', (mbind (M := ST S) k (radio (rf_write_reg_byte r v))) (s <| pins := c |>) = Some (tt, s') /\ Q s'.
Proof.
  unfold byte_reg. rewrite !andb_true_iff, bool_decide_eq_true. intros [[[H1 H2] H3] H4] Hv Hc Hk.
  destruct (read_byte c r Hc ltac:(lia) H3 H4) as (old & _ & _ & _ & Ho & _).
  destruct (write_byte c r v old Hc ltac:(lia) H3 H4 Ho Hv) as (c' & E & Hc' & Hr).
  apply (radio_then _ k Q s c c' E). by apply Hk.
Qed.

(** The values written, over all bytes. *)
Lemma crc_value t v : 0 <= t < 3 -> is_u8 v ->
  Z.lor (Z.lor (crc_after t (clear_bits NRF_CONFIG_PWR_UP v)) NRF_CONFIG_PWR_UP) NRF_CONFIG_PRIM_RX
  = Z.land v 240 + 4 * nth (Z.to_nat t) [0; 2; 3] 0 + 3.
Proof.
  intros Ht Hv. apply Z.eqb_eq. revert v Hv. refine (fun v Hv => all_below_spec 256 (fun v => _ =? _) v _ Hv).
  revert t Ht. refine (fun t Ht => all_below_spec 3 (fun t => all_below 256 (fun v => _ =? _)) t _ Ht). by vm_compute.
Qed.

Lemma setup_value sp pw v : 0 <= sp < 3 -> 0 <= pw < 4 -> is_u8 v ->
  speed_after sp (power_after pw v)
  = Z.land v 208 + nth (Z.to_nat sp) [32; 0; 8] 0 + nth (Z.to_nat pw) [0; 2; 4; 7] 0.
Proof.
  intros Hs Hp Hv. apply Z.eqb_eq. revert v Hv. refine (fun v Hv => all_below_spec 256 (fun v => _ =? _) v _ Hv).
  revert pw Hp. refine (fun pw Hp => all_below_spec 4 (fun pw => all_below 256 (fun v => _ =? _)) pw _ Hp).
  revert sp Hs. refine (fun sp Hs => all_below_spec 3 (fun sp => all_below 4 (fun pw => all_below 256 (fun v => _ =? _))) sp _ Hs).
  by vm_compute.
Qed.

Lemma retr_value n d v : 0 <= n < 16 -> 0 <= d < 16 -> is_u8 v -> delay_after d (retries_after n v) = 16 * d + n.
Proof.
  intros Hs Hp Hv. apply Z.eqb_eq. revert v Hv. refine (fun v Hv => all_below_spec 256 (fun v => _ =? _) v _ Hv).
  revert d Hp. refine (fun d Hp => all_below_spec 16 (fun d => all_below 256 (fun v => _ =? _)) d _ Hp).
  revert n Hs. refine (fun n Hs => all_below_spec 16 (fun n => all_below 16 (fun d => all_below 256 (fun v => _ =? _))) n _ Hs).
  by vm_compute.
Qed.

Lemma updates_crc t : updates (rf_set_crc_type t) NRF_REG_CONFIG (crc_after t).
Proof.
  apply updates_reg; [done|]. intros v Hv. unfold crc_after.
  repeat case_match; repeat apply lor_u8; try apply clear_u8; done.
Qed.
Lemma updates_retries n : updates (rf_set_retr_retries n) NRF_REG_SETUP_RETR (retries_after n).
Proof.
  apply updates_reg; [done|]. intros v Hv. apply lor_u8; [by apply clear_u8|].
  change 15 with (Z.ones 4). rewrite Z.land_ones by lia. unfold is_u8. pose proof (Z.mod_pos_bound (u8 n) (2 ^ 4)). lia.
Qed.
Lemma updates_delay d : updates (rf_set_retr_delay d) NRF_REG_SETUP_RETR (delay_after d).
Proof.
  apply updates_reg; [done|]. intros v Hv. apply lor_u8; [by apply clear_u8|].
  change 15 with (Z.ones 4). rewrite Z.land_ones, Z.shiftl_mul_pow2 by lia. unfold is_u8.
  pose proof (Z.mod_pos_bound (u8 d) (2 ^ 4)). lia.
Qed.
Lemma updates_power pw : updates (rf_set_power pw) NRF_REG_RF_SETUP (power_after pw).
Proof. apply updates_reg; [done|]. intros v Hv. unfold power_after. case_match; [apply lor_u8; [apply u8_range|done]|apply u8_range]. Qed.
Lemma updates_speed sp : updates (rf_set_speed sp) NRF_REG_RF_SETUP (speed_after sp).
Proof.
  apply updates_reg; [done|]. intros v Hv. unfold speed_after.
  repeat case_match; try apply lor_u8; try apply clear_u8; done.
Qed.
Lemma mem_write_addr (bs a : list Z) : (length bs <= length a)%nat ->
  mem_write 0 bs a = Some (bs ++ drop (length bs) a).
Proof.
  intros Hl. unfold mem_write. rewrite decide_True by lia. f_equal. change (Z.to_nat 0) with 0%nat.
  rewrite <- (take_drop (length bs) a) at 1.
  assert (Ht : length (take (length bs) a) = length bs) by (rewrite length_take; lia).
  generalize (drop (length bs) a) as d. revert Ht. generalize (take (length bs) a) as t. clear.
  induction bs as [|b bs IH]; intros [|x t] Ht d; cbn in Ht; try lia; [done|].
  cbn [list_inserts app]. rewrite <- (IH t) by lia. clear. 
  enough (Hg : forall k (l : list Z) (y : list Z), list_inserts (Datatypes.S k) y (x :: l) = x :: list_inserts k y l).
  { by rewrite Hg. }
  intros k l y. revert k. induction y as [|z y IHy]; intros k; [done|]. cbn [list_inserts]. by rewrite IHy.
Qed.

Lemma addr_then r (addr rest : list Z) (k : unit -> ST S unit) (Q : S -> Prop) (s : S) c :
  r = NRF_REG_TX_ADDR \/ r = NRF_REG_RX_ADDR_P0 -> length addr = 3%nat -> Forall is_u8 addr -> chip_ok c ->
  (forall c' old, chip_ok c' -> regs c' = <[r := addr ++ old]> (regs c) ->
   exists s', k tt (s <| pins := c' |>) = Some (tt, s') /\ Q s') ->
  exists s', (mbind (M := ST S) k (radio (write_addr r (addr ++ rest) 3))) (s <| pins := c |>) = Some (tt, s') /\ Q s'.
Proof.
  intros Hr Hl Hu Hc Hk. assert (Hr' : 0 <= r < 32 /\ config_reg r = true /\ reg_width r = 5%nat) by (by destruct Hr as [-> | ->]).
  destruct Hr' as (H1 & H2 & H3). destruct (regs_typed c r Hc ltac:(lia) H2) as (old & Ho & _ & _).
  destruct (chip_write c r addr old Hc ltac:(lia) H2 Hu Ho) as (c' & E & Hc' & Hrs); [lia|].
  apply (radio_then _ k Q s c c').
  - unfold write_addr. rewrite mem_read_take by (rewrite ?length_app; lia). change (Z.to_nat 0) with 0%nat.
    rewrite drop_0, take_app_length' by (rewrite Hl; reflexivity). unfold rf_write_reg. by rewrite write_cmd.
  - exact (Hk c' _ Hc' Hrs).
Qed.

Lemma was_insert_ne before r r' l v : r <> r' -> was (<[r := l]> before) r' v -> was before r' v.
Proof. intros Hne [Hv Hl]. by rewrite lookup_insert_ne in Hl. Qed.
Lemma was_insert before r l v : was (<[r := l]> before) r v -> l = [v].
Proof. intros [Hv Hl]. rewrite lookup_insert_eq in Hl. congruence. Qed.

(** Facts about registers before a step become facts about the first ones. *)
Ltac was_back := repeat match goal with
  | E : regs ?c = _, L : was (regs ?c) _ _ |- _ => rewrite E in L
  | L : was (<[?r := ?l]> _) ?r _ |- _ => apply was_insert in L
  | L : was (<[?r := ?l]> _) ?r' _ |- _ => apply was_insert_ne in L; [|done]
  end.
Ltac look := repeat ((rewrite lookup_insert_ne by done) || rewrite lookup_insert_eq).

Lemma restart_settings_run conf (s : S) c k Q :
  chip_ok c -> nrf_conf_ok conf ->
  (forall c' v, chip_ok c' -> was (regs c) NRF_REG_CONFIG v ->
     regs c' !! NRF_REG_CONFIG = Some [crc_after (nrf_crc_type conf) (clear_bits NRF_CONFIG_PWR_UP v)] ->
     settings conf (regs c) (regs c') -> exists s', k tt (s <| pins := c' |>) = Some (tt, s') /\ Q s') ->
  exists s', (mbind (M := ST S) k (restart_settings conf)) (s <| pins := c |>) = Some (tt, s') /\ Q s'.
Proof.
  intros Hc (Ht & Hn & Hd & Hp & Hsp & Hch & _) Hk.
  cut (exists s', restart_settings conf (s <| pins := c |>) = Some (tt, s') /\
    exists c' v, s' = s <| pins := c' |> /\ chip_ok c' /\ was (regs c) NRF_REG_CONFIG v /\
     regs c' !! NRF_REG_CONFIG = Some [crc_after (nrf_crc_type conf) (clear_bits NRF_CONFIG_PWR_UP v)] /\
     settings conf (regs c) (regs c')).
  { intros (s1 & E & c' & v & -> & H1 & H2 & H3 & H4). destruct (Hk c' v H1 H2 H3 H4) as (s' & E' & HQ).
    exists s'. by rewrite (ST_bind_Some _ _ _ _ _ E). }
  unfold restart_settings.
  eapply updates_then; [by apply (updates_clear NRF_REG_CONFIG NRF_CONFIG_PWR_UP)|done|]. intros v0 c1 L0 Hc1 R1.
  apply write_then; [done..|]. intros c2 Hc2 R2. apply write_then; [done..|]. intros c3 Hc3 R3.
  eapply updates_then; [apply updates_crc|done|]. intros v1 c4 L1 Hc4 R4.
  eapply updates_then; [apply updates_retries|done|]. intros v2 c5 L2 Hc5 R5.
  eapply updates_then; [apply updates_delay|done|]. intros v3 c6 L3 Hc6 R6.
  eapply updates_then; [apply updates_power|done|]. intros v4 c7 L4 Hc7 R7.
  eapply updates_then; [apply updates_speed|done|]. intros v5 c8 L5 Hc8 R8.
  apply write_then; [done..|]. intros c9 Hc9 R9.
  unfold rf_set_frequency. replace (2400 + nrf_channel conf - 2400) with (nrf_channel conf) by lia.
  change 127 with (Z.ones 7). rewrite Z.land_ones, Z.mod_small by (change (2 ^ 7) with 128; lia).
  apply write_then; [done|unfold is_u8; lia|done|]. intros c10 Hc10 R10.
  eapply updates_then; [by apply (updates_set NRF_REG_FEATURE (Z.lor NRF_FEATURE_DPL NRF_FEATURE_DYN_ACK))|done|].
  intros v6 c11 L6 Hc11 R11.
  eapply updates_then; [by apply (updates_set NRF_REG_EN_AA NRF_MASK_PIPE0)|done|]. intros v7 c12 L7 Hc12 R12.
  eapply updates_then; [by apply (updates_set NRF_REG_EN_RXADDR NRF_MASK_PIPE0)|done|]. intros v8 c13 L8 Hc13 R13.
  destruct (updates_set NRF_REG_DYNPD NRF_MASK_PIPE0 eq_refl ltac:(done) c13 Hc13) as (v9 & Hv9 & L9 & c14 & E & Hc14 & R14).
  assert (L9' : was (regs c13) NRF_REG_DYNPD v9) by done. clear Hv9 L9.
  exists (s <| pins := c14 |>). split; [unfold radio, rf_enable_pipe_dlp; change (pins (s <| pins := c13 |>)) with c13; rewrite E; by rewrite <- (pins_pins s c13 c14)|].
  exists c14, v0. split; [done|]. split; [done|]. was_back. injection L1 as <-. injection L3 as <-. injection L5 as <-.
  injection L8 as <-. injection L9' as <-.
  rewrite R14, R13, R12, R11, R10, R9, R8, R7, R6, R5, R4, R3, R2, R1. clear -L0 L2 L4 L6 L7 Hn Hd Hp Hsp.
  split; [done|]. split; [by look|]. split; look.
  - rewrite retr_value; [done..|apply L2].
  - exists v4. split; [done|]. rewrite setup_value; [done..|apply L4].
  - done.
  - done.
  - by exists v6.
  - by exists v7.
  - done.
  - done.
Qed.
Lemma use_tx_run {B} (s : S) c (k : unit -> ST S B) : address_length s = 3 ->
  (mbind (M := ST S) k use_tx_addr) (s <| pins := c |>) =
  (mbind (M := ST S) k (radio (write_addr NRF_REG_TX_ADDR (tx_addr s) 3))) (s <| pins := c |>).
Proof. by intros <-. Qed.

Lemma use_rx_run {B} (s : S) c (k : unit -> ST S B) a : address_length s = 3 -> rx_addr s !!? 0 = Some a ->
  (mbind (M := ST S) k (use_rx_addr 0)) (s <| pins := c |>) =
  (mbind (M := ST S) k (radio (write_addr NRF_REG_RX_ADDR_P0 a 3))) (s <| pins := c |>).
Proof.
  intros Hl Ha. unfold use_rx_addr, rfh, rfh_opt, mbind, ST_bind. change (rx_addr (id (s <| pins := c |>))) with (rx_addr s).
  rewrite Ha. cbn [mbind option_bind]. change (address_length (id (s <| pins := c |>))) with (address_length s).
  by rewrite Hl.
Qed.

(** The addresses, in the variables and in the radio. *)
Lemma addresses_then addr rx0 (s : S) c (k : unit -> ST S unit) Q :
  length addr = 3%nat -> Forall is_u8 addr -> address_length s = 3 ->
  (3 <= length (tx_addr s))%nat -> rx_addr s !! 0%nat = Some rx0 -> (3 <= length rx0)%nat -> chip_ok c ->
  (forall s' c' o1 o2, chip_ok c' ->
     regs c' = <[NRF_REG_RX_ADDR_P0 := addr ++ o2]> (<[NRF_REG_TX_ADDR := addr ++ o1]> (regs c)) ->
     exists s1, k tt (s' <| pins := c' |>) = Some (tt, s1) /\ Q s1) ->
  exists s1, (set_tx_addr addr;; set_rx_addr 0 addr;; st_modify (fun s => s <| tx_pipe0_addr_eq := true |>);;
    use_tx_addr;; x ← use_rx_addr 0; k x) (s <| pins := c |>) = Some (tt, s1) /\ Q s1.
Proof.
  intros Hl Hu Hal Htx Hrx Hrl Hc Hk.
  pose proof (mem_write_addr addr (tx_addr s) ltac:(lia)) as W1. pose proof (mem_write_addr addr rx0 ltac:(lia)) as W2.
  set (tx1 := addr ++ drop (length addr) (tx_addr s)) in *. set (rx1 := addr ++ drop (length addr) rx0) in *.
  set (s2 := s <| tx_addr := tx1 |> <| rx_addr := <[0%nat := rx1]> (rx_addr s) |> <| tx_pipe0_addr_eq := true |>).
  assert (E : (set_tx_addr addr;; set_rx_addr 0 addr;; st_modify (fun s => s <| tx_pipe0_addr_eq := true |>))
                (s <| pins := c |>) = Some (tt, s2 <| pins := c |>)).
  { unfold set_tx_addr, set_rx_addr, rfh, rfh_opt, st_modify, mbind, ST_bind, mret, ST_ret.
    destruct s as [rxs tx ? al ? ? ? ? ?]. cbn in Hal, Htx, Hrx, W1 |- *. rewrite W1. cbn.
    change (rxs !!? 0) with (rxs !! 0%nat). rewrite Hrx. cbn. rewrite W2. cbn.
    rewrite put_ix_Some; [reflexivity|]. apply lookup_lt_Some in Hrx. lia. }
  cut (exists s1, (use_tx_addr;; x ← use_rx_addr 0; k x) (s2 <| pins := c |>) = Some (tt, s1) /\ Q s1).
  { intros (s1 & E1 & HQ). exists s1. split; [|done]. rewrite <- E1. revert E. unfold mbind, ST_bind.
    destruct (set_tx_addr addr _) as [[[] sa]|]; [|done]. destruct (set_rx_addr 0 addr sa) as [[[] sb]|]; [|done].
    unfold st_modify. intros Heq. apply Some_inj, pair_equal_spec in Heq as [_ Heq]. by rewrite Heq. }
  assert (Hl2 : address_length s2 = 3) by done. assert (Ht2 : tx_addr s2 = tx1) by done.
  assert (Hr2 : rx_addr s2 !!? 0 = Some rx1).
  { change (<[0%nat := rx1]> (rx_addr s) !! 0%nat = Some rx1). apply list_lookup_insert_eq. by apply lookup_lt_Some in Hrx. }
  clearbody s2. rewrite use_tx_run, Ht2 by done. apply addr_then; [by left|done..|].
  intros c1 o1 Hc1 R1. rewrite (use_rx_run _ _ _ rx1) by done. apply addr_then; [by right|done..|].
  intros c2 o2 Hc2 R2. apply (Hk s2 c2 o1 o2 Hc2). by rewrite R2, R1.
Qed.

(** C36. On a radio that keeps its registers as the data sheet says, with
    a valid configuration and addresses of three bytes, rfhelp_restart
    ends with the radio powered up and listening, with checksum, retries,
    power, data rate, channel and both addresses as configured, whatever
    the registers held before. *)
Theorem rfhelp_restart_configures (s : S) rx0 :
  chip_ok (pins s) -> nrf_conf_ok (nrf_conf s) -> address_length s = 3 ->
  (3 <= length (tx_addr s))%nat -> rx_addr s !! 0%nat = Some rx0 -> (3 <= length rx0)%nat ->
  exists s', rfhelp_restart s = Some (tt, s') /\
    chip_ok (pins s') /\ configured (nrf_conf s) (regs (pins s)) (regs (pins s')).
Proof.
  intros Hc Hok Hal Htx Hrx Hrl. pose proof Hok as (Ht & _ & _ & _ & _ & _ & Hla & Hua).
  unfold rfhelp_restart.
  erewrite ST_bind_Some by reflexivity.
  match goal with |- exists s', ?m s = _ /\ @?Q s' =>
    apply (at_pins (fun s0 => exists s', m s0 = Some (tt, s') /\ Q s')) end.
  apply restart_settings_run; [done|done|].
  intros c1 v Hc1 Hv Hcf Hset. unfold rfh_opt at 1.
  erewrite ST_bind_Some; [|rewrite mem_read_take by (rewrite ?Hla; lia); reflexivity]. cbv beta.
  change (Z.to_nat 0) with 0%nat. rewrite drop_0, take_ge by (rewrite Hla; reflexivity).
  apply (addresses_then _ rx0); try done. intros s2 c2 o1 o2 Hc2 R2.
  eapply updates_then; [by apply (updates_set NRF_REG_CONFIG NRF_CONFIG_PWR_UP)|done|]. intros v1 c3 L1 Hc3 R3.
  eapply updates_then; [by apply (updates_set NRF_REG_CONFIG NRF_CONFIG_PRIM_RX)|done|]. intros v2 c4 L2 Hc4 R4.
  destruct (chip_flush c4 NRF_CMD_FLUSH_RX Hc4) as (c5 & E5 & Hc5 & R5); [by left|].
  destruct (chip_flush c5 NRF_CMD_FLUSH_TX Hc5) as (c6 & E6 & Hc6 & R6); [by right|].
  apply (radio_then _ _ _ _ c4 c6).
  { unfold rf_flush_all, rf_flush_rx. by rewrite (ST_bind_Some _ _ _ _ _ E5). }
  destruct (chip_status c6 NRF_STATUS_IRQ Hc6) as (c7 & st & E7 & Hc7 & R7); [done|].
  exists (s2 <| pins := c7 |>). split.
  { unfold rf_clear_irq, rf_write_reg_byte, rf_write_reg, radio. change (pins (s2 <| pins := c6 |>)) with c6.
    rewrite write_cmd, (u8_id NRF_STATUS_IRQ), E7 by done.
    by rewrite <- (pins_pins s2 c6 c7). }
  split; [exact Hc7|]. change (pins (s2 <| pins := c7 |>)) with c7. rewrite R7, R6, R5, R4, R3, R2.
  rewrite R3, R2 in L2. rewrite R2 in L1. apply was_insert in L2. injection L2 as <-.
  apply was_insert_ne in L1; [|done]. apply was_insert_ne in L1; [|done]. destruct L1 as [_ L1]. rewrite Hcf in L1.
  injection L1 as <-. destruct Hset. split; [split; by look|exists v|exists o1|exists o2]; look; [|done..].
  split; [done|]. rewrite crc_value; [done|done|apply Hv].
Qed.
End Chip.

(** ** A radio for the witness *)

(** The registers of the data sheet behind a slave: the first byte is a command,
    the others are read from or written to its register. *)
Record chip := mkChip { ch_regs : gmap Z (list Z); ch_cmd : option Z; ch_pos : nat }.

Definition chip_out (x : chip) : Z :=
  match ch_cmd x with
  | Some c => if c <? 32 then u8 (nth (ch_pos x) (default [] (ch_regs x !! c)) 0) else 0
  | None => 14
  end.
Definition chip_in (b : Z) (x : chip) : chip :=
  match ch_cmd x with
  | None => mkChip (ch_regs x) (Some b) 0
  | Some c =>
      mkChip (if (32 <=? c) && (c <? 64)
              then alter (fun l => if c =? 39 then [Z.land (nth 0 l 0) (Z.lnot b)] else <[ch_pos x := b]> l) (c - 32) (ch_regs x)
              else ch_regs x) (Some c) (Datatypes.S (ch_pos x))
  end.
Lemma chip_out_u8 x : is_u8 (chip_out x).
Proof. unfold chip_out. repeat case_match; try apply u8_range; done. Qed.
#[export] Instance chip_machine : ByteMachine chip := {|
  byte_out := chip_out; byte_in := chip_in; byte_select x := mkChip (ch_regs x) None 0; byte_out_u8 := chip_out_u8
|}.

Definition chip_typed (rs : gmap Z (list Z)) : Prop :=
  (exists v, rs !! NRF_REG_STATUS = Some v) /\
  forall r, 0 <= r -> config_reg r = true -> exists bs, rs !! r = Some bs /\ length bs = reg_width r /\ Forall is_u8 bs.

Definition chip_idle (s : slave chip) : Prop := exists x m, s = ready x m /\ chip_typed (ch_regs x).

Lemma exchange_write r bs rs old p : 0 <= r < 32 -> r <> NRF_REG_STATUS -> rs !! r = Some old ->
  (exchange bs (mkChip rs (Some (32 + r)) p)).2
  = mkChip (<[r := list_inserts p bs old]> rs) (Some (32 + r)) (p + length bs).
Proof.
  intros Hr Hne. revert rs old p. induction bs as [|b bs IH]; intros rs old p Ho; cbn [exchange].
  { cbn [list_inserts length snd]. by rewrite insert_id, Nat.add_0_r. }
  destruct (exchange bs _) as [out x'] eqn:E. apply (f_equal snd) in E. cbn [snd] in *. subst x'.
  unfold byte_in, chip_machine, chip_in. cbn [ch_cmd ch_regs ch_pos].
  assert (Hc : (32 <=? 32 + r) && (32 + r <? 64) = true) by lia.
  rewrite Hc. replace (32 + r - 32) with r by lia.
  replace (32 + r =? 39) with false by (unfold NRF_REG_STATUS in Hne; lia).
  rewrite (IH _ (<[p := b]> old)); [|by rewrite lookup_alter_eq, Ho].
  rewrite insert_alter_eq. cbn [list_inserts length].
  rewrite list_insert_inserts_lt by lia. f_equal. lia.
Qed.

Lemma typed_insert rs r bs : chip_typed rs -> (config_reg r = true -> length bs = reg_width r /\ Forall is_u8 bs) ->
  chip_typed (<[r := bs]> rs).
Proof.
  intros [[v Hs] Ht] Hb. split.
  - destruct (decide (r = NRF_REG_STATUS)) as [->|]; [exists bs; apply lookup_insert_eq|exists v; by rewrite lookup_insert_ne].
  - intros r' H0 Hc. destruct (decide (r = r')) as [->|]; [exists bs; rewrite lookup_insert_eq; by split; [|apply Hb]|].
    rewrite lookup_insert_ne by done. by apply Ht.
Qed.

Lemma chip_write_law (s : slave chip) r bs old : chip_idle s -> 0 <= r -> config_reg r = true -> Forall is_u8 bs ->
  ch_regs (behind s) !! r = Some old -> (length bs <= reg_width r)%nat ->
  exists s', rf_send (32 + r) bs s = Some (tt, s') /\ chip_idle s' /\
    ch_regs (behind s') = <[r := bs ++ drop (length bs) old]> (ch_regs (behind s)).
Proof.
  intros Hs H0 Hc Hb Ho Hl. assert (Hr : 0 <= r < 32 /\ r <> NRF_REG_STATUS).
  { unfold config_reg in Hc. unfold NRF_REG_STATUS. lia. }
  destruct Hr as [Hr Hne]. destruct (rf_send_session (32 + r) bs s ltac:(unfold is_u8; lia) Hb) as [m E].
  pose proof Hs as (x & m0 & -> & Ht). cbn [behind ready] in *.
  destruct (proj2 Ht r H0 Hc) as (old' & Ho' & Hlo & Huo). assert (old' = old) as -> by congruence.
  change (byte_in _ _) with (mkChip (ch_regs x) (Some (32 + r)) 0) in E. rewrite (exchange_write r bs _ old 0 Hr Hne Ho) in E.
  assert (Hi : list_inserts 0 bs old = bs ++ drop (length bs) old).
  { pose proof (mem_write_addr bs old ltac:(lia)) as Hw. unfold mem_write in Hw. case_decide; [|done]. by injection Hw. }
  rewrite Hi in E. eexists. split; [exact E|]. split; [|done]. eexists _, m. split; [reflexivity|]. cbn [ch_regs].
  apply typed_insert; [done|]. intros _. rewrite length_app, length_drop. split; [lia|].
  apply Forall_app. split; [done|]. by apply Forall_drop.
Qed.

Lemma chip_read_law (s : slave chip) r bs : chip_idle s -> 0 <= r -> config_reg r = true ->
  ch_regs (behind s) !! r = Some bs ->
  exists s', rf_receive r 1 s = Some (take 1 bs, s') /\ chip_idle s' /\ ch_regs (behind s') = ch_regs (behind s).
Proof.
  intros Hs H0 Hc Ho. assert (Hr : 0 <= r < 32) by (unfold config_reg in Hc; lia).
  destruct (rf_receive_session r 1 s ltac:(unfold is_u8; lia)) as [m E].
  pose proof Hs as (x & m0 & -> & Ht). cbn [behind ready] in *.
  destruct (proj2 Ht r H0 Hc) as (bs' & Ho' & Hl & Hu). assert (bs' = bs) as -> by congruence.
  change (replicate (Z.to_nat 1) 0) with [0] in E. rewrite E. cbn [exchange fst snd].
  unfold byte_in, chip_machine, chip_in. cbn [ch_cmd ch_regs byte_select byte_out].
  unfold chip_out. cbn [ch_cmd ch_pos ch_regs].
  rewrite (proj2 (Z.ltb_lt r 32)), Ho by lia. cbn [default].
  destruct bs as [|b bs]; [unfold reg_width in Hl; by case_match|]. inversion Hu; subst. cbn [nth take].
  rewrite u8_id by done. eexists. split; [rewrite take_0; reflexivity|].
  assert (Hn : (32 <=? r) && (r <? 64) = false) by lia. rewrite Hn.
  split; [|done]. by eexists _, m.
Qed.

Lemma chip_status_law (s : slave chip) v : chip_idle s -> is_u8 v ->
  exists s' st, rf_send (32 + NRF_REG_STATUS) [v] s = Some (tt, s') /\ chip_idle s' /\
    ch_regs (behind s') = <[NRF_REG_STATUS := st]> (ch_regs (behind s)).
Proof.
  intros Hs Hv. destruct (rf_send_session (32 + NRF_REG_STATUS) [v] s ltac:(done) ltac:(by apply Forall_singleton)) as [m E].
  pose proof Hs as (x & m0 & -> & Ht). cbn [behind ready] in *. destruct (proj1 Ht) as [st Hst].
  assert (Hx : ch_regs (exchange [v] (mkChip (ch_regs x) (Some (32 + NRF_REG_STATUS)) 0)).2
               = <[NRF_REG_STATUS := [Z.land (nth 0 st 0) (Z.lnot v)]]> (ch_regs x)).
  { cbn [exchange snd]. unfold byte_in, chip_machine, chip_in. cbn [ch_cmd ch_regs ch_pos].
    change ((32 <=? 32 + NRF_REG_STATUS) && (32 + NRF_REG_STATUS <? 64)) with true.
    change (32 + NRF_REG_STATUS =? 39) with true. change (32 + NRF_REG_STATUS - 32) with NRF_REG_STATUS. cbv beta iota.
    rewrite <- (insert_id (ch_regs x) NRF_REG_STATUS st) at 1 by done. by rewrite alter_insert_eq. }
  eexists _, _. split; [exact E|]. cbn [behind ready]. split; [|exact Hx].
  eexists _, m. split; [reflexivity|]. apply (eq_ind_r chip_typed) with (2 := Hx). apply typed_insert; [done|]. discriminate.
Qed.

Lemma chip_flush_law (s : slave chip) cmd : chip_idle s -> cmd = NRF_CMD_FLUSH_RX \/ cmd = NRF_CMD_FLUSH_TX ->
  exists s', rf_command cmd s = Some (tt, s') /\ chip_idle s' /\ ch_regs (behind s') = ch_regs (behind s).
Proof.
  intros (x & m0 & -> & Ht) Hcmd. destruct (spi_transfer_run [cmd] (byte_select x) m0) as [m E].
  { apply Forall_singleton. by destruct Hcmd as [-> | ->]. }
  unfold rf_command, spi_sw_begin. erewrite ST_bind_Some by reflexivity.
  change (set_csn false (ready x m0)) with (ready (byte_select x) m0). rewrite (ST_bind_Some _ _ _ _ _ E).
  eexists. split; [reflexivity|]. split; [|done]. by eexists _, m.
Qed.

#[export] Instance chip_laws : NrfChip (slave chip) := {|
  regs s := ch_regs (behind s); chip_ok := chip_idle;
  chip_write := chip_write_law; chip_read := chip_read_law; chip_status := chip_status_law; chip_flush := chip_flush_law;
  regs_typed s r H := match H with ex_intro _ x (ex_intro _ m (conj Heq Ht)) =>
    eq_ind_r (fun s => 0 <= r -> config_reg r = true -> exists bs, ch_regs (behind s) !! r = Some bs /\
      length bs = reg_width r /\ Forall is_u8 bs) (proj2 Ht r) Heq end
|}.

(** All registers hold ones; 16 retries, 2M, full power, channel 76. *)
Definition chip_regs0 : gmap Z (list Z) :=
  list_to_map ((fun r => (r, replicate (reg_width r) 255)) <$> seqZ 0 32).
Definition nrf_conf1 : nrf_config := mk_nrf_config 2 3 2 0 15 76 [198; 199; 1] true.
Definition rfhelp_state1 : rfhelp_state (slave chip) :=
  mkRfhelp _ (replicate 6 (replicate 5 0)) (replicate 5 0) (replicate 6 false) 3 true nrf_conf1 true true
    (ready (mkChip chip_regs0 None 0) false).

Lemma rfhelp_restart_configures_witness : exists s', rfhelp_restart rfhelp_state1 = Some (tt, s') /\
  regs (pins s') !! NRF_REG_CONFIG = Some [255] /\ regs (pins s') !! NRF_REG_RF_CH = Some [76] /\
  exists rest, regs (pins s') !! NRF_REG_TX_ADDR = Some ([198; 199; 1] ++ rest).
Proof.
  destruct (rfhelp_restart_configures rfhelp_state1 (replicate 5 0)) as (s' & E & _ & Hcf).
  - exists (mkChip chip_regs0 None 0), false. split; [done|]. split; [exists [255]; by vm_compute|].
    intros r H0 Hc. exists (replicate (reg_width r) 255).
    assert (Hr : 0 <= r < 32) by (unfold config_reg in Hc; lia).
    split; [|split; [apply length_replicate|by apply Forall_replicate]].
    cbn [ch_regs]. apply elem_of_list_to_map_1.
    + rewrite <- list_fmap_compose. apply (NoDup_fmap_2 _). apply NoDup_seqZ.
    + apply list_elem_of_fmap. exists r. split; [done|]. apply elem_of_seqZ. lia.
  - unfold nrf_conf_ok. cbn. split_and!; try lia. repeat constructor; done.
  - done.
  - cbn; lia.
  - done.
  - cbn; lia.
  - exists s'. split; [exact E|]. destruct Hcf as [Hset (v & Hv & Hc) Htx _]. split; [|split; [apply Hset|exact Htx]].
    destruct Hv as [_ Hv]. assert (v = 255) as -> by (vm_compute in Hv; congruence). exact Hc.
Defined.

(** The register of the configuration is written and read back. *)
Lemma spi_exchanges_bytes_witness : exists m, rf_receive NRF_REG_CONFIG 1
    (ready (mkChip chip_regs0 None 0) false) = Some ([255], ready (mkChip chip_regs0 (Some 0) 1) m).
Proof.
  destruct (spi_exchanges_bytes NRF_REG_CONFIG [] 1 (ready (mkChip chip_regs0 None 0) false)) as [_ [m E]]; [done|by constructor|].
  exists m. rewrite E. by vm_compute.
Defined.
