(* ===== verification/Encoder.v ===== *)
(** * Encoder: the rotor encoder (src/encoder.c)

    An incremental encoder counts in hardware timer 4, whose counter and reload
    value are part of the state, and the index pulse starts it; an AS5047P is
    read bit by bit over three pins. *)
From S2P Require Import Prelude Float32.

Definition AS5047_SAMPLE_RATE_HZ : Z := 20000.

Inductive encoder_mode := ENCODER_MODE_NONE | ENCODER_MODE_ABI | ENCODER_MODE_AS5047P_SPI.

(** The pins of the sensor. *)
Class EncPins (C : Type) : Type := {
  enc_cs : bool -> C -> C;
  enc_sck : bool -> C -> C;
  enc_miso : C -> bool
}.

Record encoder_state {C : Type} := mkEncoder {
  index_found : bool;
  enc_counts : Z;
  enc_mode : encoder_mode;
  last_enc_angle : f32;
  (** the [static] variable of [encoder_read_deg] *)
  enc_angle : f32;
  (** timer 4: CNT and ARR, 16 bits; the two interrupts *)
  enc_cnt : Z;
  enc_arr : Z;
  enc_exti : bool;
  enc_tim_irq : bool;
  enc_pins : C
}.
Arguments encoder_state : clear implicits.
#[export] Instance encoder_state_eta {C} : Eta (encoder_state C) := fun s =>
  mkEncoder _ (index_found s) (enc_counts s) (enc_mode s) (last_enc_angle s) (enc_angle s)
    (enc_cnt s) (enc_arr s) (enc_exti s) (enc_tim_irq s) (enc_pins s).

Definition encoder_reset0 {C} (c : C) : encoder_state C :=
  mkEncoder _ false 10000 ENCODER_MODE_NONE f0 f0 0 65535 false false c.

Section Encoder.
Context {C : Type} `{EncPins C}.
Abbreviation S := (encoder_state C).

(** [TIM_DeInit] gives the registers their reset values. *)
Definition encoder_deinit (s : S) : S :=
  s <| enc_exti := false |> <| enc_tim_irq := false |> <| enc_cnt := 0 |> <| enc_arr := 65535 |>
    <| index_found := false |> <| enc_mode := ENCODER_MODE_NONE |> <| last_enc_angle := f0 |>.

Definition encoder_init_abi (counts : Z) (s : S) : S :=
  s <| index_found := false |> <| enc_counts := counts |> <| enc_arr := u16 (counts - 1) |>
    <| enc_exti := true |> <| enc_mode := ENCODER_MODE_ABI |>.

(** [TIM_TimeBaseInit] also restarts the counter. *)
Definition encoder_init_as5047p_spi (s : S) : S :=
  s <| enc_arr := 168000000 / 2 / AS5047_SAMPLE_RATE_HZ - 1 |> <| enc_cnt := 0 |> <| enc_tim_irq := true |>
    <| enc_mode := ENCODER_MODE_AS5047P_SPI |> <| index_found := true |>.

Definition encoder_is_configured (s : S) : bool :=
  match enc_mode s with ENCODER_MODE_NONE => false | _ => true end.

Definition encoder_read_deg (s : S) : f32 * S :=
  let angle :=
    match enc_mode s with
    | ENCODER_MODE_ABI => ((f_of_int (enc_cnt s) * f_of_int 360) / f_of_int (enc_counts s))%f32
    | ENCODER_MODE_AS5047P_SPI => last_enc_angle s
    | ENCODER_MODE_NONE => enc_angle s
    end in
  (angle, s <| enc_angle := angle |>).

(** The index interrupt. *)
Definition encoder_reset (s : S) : S := s <| enc_cnt := 0 |> <| index_found := true |>.

(** The bits of a word; what is sent is not connected to a pin. *)
Fixpoint spi_bits (n : nat) (recieve : Z) (c : C) : Z * C :=
  match n with
  | O => (recieve, c)
  | Datatypes.S n =>
      let c := enc_sck true c in
      let recieve := u16 (Z.shiftl recieve 1) in
      let recieve := if enc_miso c then Z.lor recieve 1 else recieve in
      spi_bits n recieve (enc_sck false c)
  end.

Fixpoint spi_transfer (length : nat) (c : C) : list Z * C :=
  match length with
  | O => ([], c)
  | Datatypes.S length =>
      let '(x, c) := spi_bits 16 0 c in let '(xs, c) := spi_transfer length c in (x :: xs, c)
  end.

Definition spi_exchange (c : C) : Z * C := let '(xs, c) := spi_transfer 1 c in (hd 0 xs, c).

(** The timer interrupt. *)
Definition encoder_tim_isr (s : S) : S :=
  let c := enc_cs false (enc_pins s) in
  let '(xs, c) := spi_transfer 1 c in
  let c := enc_cs true c in
  let pos := Z.land (hd 0 xs) 0x3FFF in
  s <| enc_pins := c |> <| last_enc_angle := ((f_of_int pos * f_of_int 360) / f_of_int 16384)%f32 |>.

Definition encoder_set_counts (counts : Z) (s : S) : S :=
  if counts =? enc_counts s then s
  else s <| enc_counts := counts |> <| enc_arr := u16 (counts - 1) |> <| index_found := false |>.

Definition encoder_index_found (s : S) : bool := index_found s.

(** The hardware counter: an edge of the encoder, or a tick of its clock. *)
Definition enc_count (up : bool) (s : S) : S :=
  s <| enc_cnt := if up then if enc_cnt s =? enc_arr s then 0 else u16 (enc_cnt s + 1)
                  else if enc_cnt s =? 0 then enc_arr s else enc_cnt s - 1 |>.
End Encoder.

(** ** The angle of the encoder

    Over any history of pulses, index pulses, interrupts and configurations,
    once the index is found the angle is in range; and the word of an AS5047P
    is read as the sensor sends it. *)
From Stdlib Require Import Reals Lra.
From S2P Require Import Prelude Float32 FloatExact FloatRound.
#[local] Open Scope R_scope.

Definition in_turn (x : f32) : Prop := fok x = true /\ 0 <= fr x < 360.

Lemma fr_360 : fok (f_of_int 360) = true /\ fr (f_of_int 360) = 360.
Proof. apply fr_of_int. unfold small. lia. Qed.

(** A count below the counts of a turn is an angle below 360 degrees. *)
Lemma count_in_turn cnt n : (0 <= cnt < n)%Z -> (n <= 65536)%Z ->
  in_turn ((f_of_int cnt * f_of_int 360) / f_of_int n)%f32.
Proof.
  intros Hc Hn. destruct fr_360 as [O360 V360].
  destruct (fr_of_int cnt) as [Oc Vc]; [unfold small; lia|]. destruct (fr_of_int n) as [On Vn]; [unfold small; lia|].
  assert (Rc : 0 <= IZR cnt <= IZR n - 1) by (rewrite <- minus_IZR; split; apply IZR_le; lia).
  assert (Rn : 1 <= IZR n <= 65536) by (split; apply IZR_le; lia).
  pose proof b2_m150 as Hs. pose proof b2_127 as Hb.
  pose proof (fmul_nearest _ _ Oc O360) as Hp. rewrite Vc, V360 in Hp.
  destruct (nearest_approx _ _ Hp) as [Op Ep]; [rewrite Rabs_right by lra; lra|].
  rewrite (Rabs_right (IZR cnt * 360)), b2_m24 in Ep by lra.
  pose proof (nearest_nonneg _ _ Hp Op ltac:(lra)) as P0. set (p := (f_of_int cnt * f_of_int 360)%f32) in *.
  assert (Pn : fr p <= 359.995 * IZR n).
  { pose proof (Rle_abs (fr p - IZR cnt * 360)). lra. }
  pose proof (fdiv_nearest p (f_of_int n) Op On ltac:(lra)) as Hq. rewrite Vn in Hq.
  assert (Q : 0 <= fr p / IZR n <= 359.995).
  { split; [apply Rmult_le_pos; [lra|]; left; apply Rinv_0_lt_compat; lra|].
    apply Rmult_le_reg_r with (IZR n); [lra|]. unfold Rdiv. rewrite Rmult_assoc, Rinv_l; lra. }
  destruct (nearest_approx _ _ Hq) as [Oq Eq]; [rewrite Rabs_right by lra; lra|].
  rewrite (Rabs_right (fr p / IZR n)), b2_m24 in Eq by lra. split; [done|].
  split; [apply (nearest_nonneg _ _ Hq Oq); lra|].
  pose proof (Rle_abs (fr (p / f_of_int n)%f32 - fr p / IZR n)). lra.
Qed.

Section Encoder.
Context {C : Type} `{EncPins C}.
Abbreviation S := (encoder_state C).

(** What happens to the encoder: calls, interrupts that are enabled, edges. *)
Inductive enc_event :=
| EncDeinit | EncInitAbi (counts : Z) | EncInitSpi | EncSetCounts (counts : Z)
| EncIndex | EncTimer | EncEdge (up : bool) | EncRead.

Definition enc_handle (e : enc_event) (s : S) : S :=
  match e with
  | EncDeinit => encoder_deinit s
  | EncInitAbi counts => encoder_init_abi counts s
  | EncInitSpi => encoder_init_as5047p_spi s
  | EncSetCounts counts => encoder_set_counts counts s
  | EncIndex => if enc_exti s then encoder_reset s else s
  | EncTimer => if enc_tim_irq s then encoder_tim_isr s else s
  | EncEdge up => enc_count up s
  | EncRead => snd (encoder_read_deg s)
  end.

(** Counts the 16-bit timer can count. *)
Definition countable (e : enc_event) : Prop :=
  match e with EncInitAbi n | EncSetCounts n => (1 <= n <= 65536)%Z | _ => True end.

Record enc_inv (s : S) : Prop := {
  ei_counts : (1 <= enc_counts s <= 65536)%Z;
  ei_cnt : (0 <= enc_cnt s < 65536)%Z;
  ei_arr : (0 <= enc_arr s < 65536)%Z;
  ei_last : in_turn (last_enc_angle s);
  ei_abi : enc_mode s = ENCODER_MODE_ABI -> enc_arr s = (enc_counts s - 1)%Z;
  ei_exti : enc_exti s = true -> enc_mode s <> ENCODER_MODE_NONE;
  ei_none : index_found s = true -> enc_mode s <> ENCODER_MODE_NONE;
  ei_index : index_found s = true -> enc_mode s = ENCODER_MODE_ABI -> (enc_cnt s <= enc_arr s)%Z
}.

Lemma in_turn_0 : in_turn f0.
Proof. split; [done|]. cbn [fr f0]. lra. Qed.

Lemma spi_angle_in_turn x : in_turn ((f_of_int (Z.land x 0x3FFF) * f_of_int 360) / f_of_int 16384)%f32.
Proof.
  apply count_in_turn; [|lia]. change 0x3FFF%Z with (Z.ones 14). rewrite Z.land_ones by lia.
  apply Z.mod_pos_bound. lia.
Qed.

Lemma u16_pred n : (1 <= n <= 65536)%Z -> u16 (n - 1) = (n - 1)%Z.
Proof. intros Hn. apply u16_id. unfold is_u16. lia. Qed.

Lemma enc_handle_inv e s : countable e -> enc_inv s -> enc_inv (enc_handle e s).
Proof.
  intros He Hinv. pose proof Hinv as [H1 H2 H3 H4 H5 H6 H7 H8]. pose proof in_turn_0. pose proof (u16_range (enc_cnt s + 1)) as Hu. unfold is_u16 in Hu.
  destruct e as [|n| |n| | |up|]; cbn [enc_handle countable] in *.
  - split; cbn; try done; lia.
  - split; cbn; rewrite ?u16_pred by done; try done; lia.
  - split; cbn; try done; lia.
  - unfold encoder_set_counts. destruct (Z.eqb_spec n (enc_counts s)); [done|].
    split; cbn; rewrite ?u16_pred by done; try done; lia.
  - destruct (enc_exti s) eqn:Ee; [|done]. split; cbn; try done; try (intros; lia). intros _. by apply H6.
  - destruct (enc_tim_irq s); [|done]. unfold encoder_tim_isr. destruct (spi_transfer 1 _) as [xs c].
    split; cbn; try done. apply spi_angle_in_turn.
  - split; cbn; try done.
    + destruct up, (_ =? _)%Z eqn:E; try lia.
    + intros Hi Hm. specialize (H8 Hi Hm). destruct up, (_ =? _)%Z eqn:E; try lia. rewrite u16_id; unfold is_u16; lia.
  - by split.
Qed.

(** C21. Under any sequence of initialisations, edges, index pulses, timer
    interrupts and new counts from 1 to 65536, once the index is found the
    encoder is configured and its angle is at least 0 and below 360
    degrees. *)
Theorem encoder_angle_in_range es c :
  Forall countable es ->
  let s := fold_left (fun s e => enc_handle e s) es (encoder_reset0 c) in
  encoder_index_found s = true -> encoder_is_configured s = true /\ in_turn (fst (encoder_read_deg s)).
Proof.
  intros Hes s Hi. assert (Hinv : enc_inv s).
  { unfold s. assert (H0 : enc_inv (encoder_reset0 c)) by (split; cbn; try done; [lia..|apply in_turn_0]).
    revert H0. generalize (encoder_reset0 c). clear s Hi. induction Hes as [|e es He Hes IH]; intros s Hs; [done|].
    cbn [fold_left]. apply IH. by apply enc_handle_inv. }
  clearbody s. destruct Hinv as [H1 H2 H3 H4 H5 _ H7 H8]. unfold encoder_index_found in Hi.
  unfold encoder_is_configured, encoder_read_deg. destruct (enc_mode s) eqn:Em; [by apply H7 in Hi| |].
  - split; [done|]. cbn [fst]. apply count_in_turn; [|lia]. specialize (H8 Hi eq_refl). rewrite H5 in H8 by done. lia.
  - by split.
Qed.
End Encoder.

(** ** The AS5047P *)

(** A sensor in SPI mode 1: selected, it takes the word it has measured, and
    every rising edge puts out the next bit, the highest first. *)
Record sensor := mkSensor { measured : Z; latched : Z; bit_no : Z; at_miso : bool; clocked : bool }.
#[export] Instance sensor_pins : EncPins sensor := {|
  enc_cs b s := if b then s else mkSensor (measured s) (measured s) 0 (at_miso s) (clocked s);
  enc_sck b s :=
    if b && negb (clocked s)
    then mkSensor (measured s) (latched s) (bit_no s + 1) (Z.testbit (latched s) (15 - bit_no s)) true
    else mkSensor (measured s) (latched s) (bit_no s) (at_miso s) b;
  enc_miso := at_miso
|}.

Lemma shiftr_bit w m : (0 <= m)%Z ->
  (if Z.testbit w m then Z.lor (Z.shiftl (Z.shiftr w (m + 1)) 1) 1 else Z.shiftl (Z.shiftr w (m + 1)) 1) = Z.shiftr w m.
Proof.
  intros Hm. rewrite <- Z.shiftr_shiftr by done. set (x := Z.shiftr w m).
  assert (Hb : Z.testbit w m = Z.odd x) by (unfold x; rewrite <- Z.bit0_odd, Z.shiftr_spec by lia; f_equal; lia).
  rewrite Hb. pose proof (Z.div2_odd x) as Hx. rewrite Z.div2_spec in Hx. destruct (Z.odd x); cbn [Z.b2z] in Hx.
  - rewrite lor_shiftl_add by lia. change (2 ^ 1)%Z with 2%Z. lia.
  - rewrite Z.shiftl_mul_pow2 by lia. change (2 ^ 1)%Z with 2%Z. lia.
Qed.

Lemma spi_bits_run n k m w miso : (0 <= w < 65536)%Z -> Z.of_nat n = (16 - k)%Z -> (0 <= k <= 16)%Z ->
  exists miso', spi_bits n (Z.shiftr w (16 - k)) (mkSensor m w k miso false) = (w, mkSensor m w 16 miso' false).
Proof.
  intros Hw. revert k miso. induction n as [|n IH]; intros k miso Hn Hk.
  - assert (k = 16%Z) as -> by lia. exists miso. cbn [spi_bits]. by rewrite Z.shiftr_0_r.
  - cbn [spi_bits]. cbn [enc_sck sensor_pins clocked negb andb measured latched bit_no at_miso enc_miso].
    assert (Hs : (0 <= Z.shiftl (Z.shiftr w (16 - k)) 1 < 65536)%Z).
    { rewrite Z.shiftl_mul_pow2, Z.shiftr_div_pow2 by lia. change (2 ^ 1)%Z with 2%Z.
      assert (2 ^ 1 <= 2 ^ (16 - k))%Z by (apply Z.pow_le_mono_r; lia). set (p := (2 ^ (16 - k))%Z) in *.
      pose proof (Z.mul_div_le w p ltac:(lia)). pose proof (Z.div_pos w p ltac:(lia) ltac:(lia)). nia. }
    rewrite u16_id by exact Hs. pose proof (shiftr_bit w (15 - k) ltac:(lia)) as Hb.
    replace (15 - k + 1)%Z with (16 - k)%Z in Hb by lia. rewrite Hb. replace (15 - k)%Z with (16 - (k + 1))%Z by lia.
    apply IH; lia.
Qed.

(** The timer interrupt reads the angle of the sensor: the low 14 bits of the
    word, as a fraction of a turn. *)
Theorem encoder_reads_sensor (s : encoder_state sensor) :
  (0 <= measured (enc_pins s) < 65536)%Z -> clocked (enc_pins s) = false ->
  last_enc_angle (encoder_tim_isr s) =
  ((f_of_int (measured (enc_pins s) mod 16384) * f_of_int 360) / f_of_int 16384)%f32.
Proof.
  intros Hw Hc. unfold encoder_tim_isr. destruct (enc_pins s) as [w l k b c] eqn:Ep. cbn [measured clocked] in *. subst c.
  destruct (spi_bits_run 16 0 w w b Hw ltac:(done) ltac:(lia)) as [b' E].
  cbn [spi_transfer enc_cs sensor_pins measured at_miso clocked]. replace (Z.shiftr w (16 - 0)) with 0%Z in E.
  2: { rewrite Z.shiftr_div_pow2 by lia. symmetry. apply Z.div_small. exact Hw. }
  rewrite E. cbn [hd]. change 0x3FFF%Z with (Z.ones 14). rewrite Z.land_ones by lia. done.
Qed.

(** ** Witness *)

Definition sensor0 : sensor := mkSensor 0x7000 0 0 false false.

Lemma encoder_angle_in_range_witness : in_turn (fst (encoder_read_deg
  (fold_left (fun s e => enc_handle e s) [EncInitAbi 8192; EncEdge false; EncIndex; EncEdge false; EncRead] (encoder_reset0 sensor0)))).
Proof.
  apply (encoder_angle_in_range [EncInitAbi 8192; EncEdge false; EncIndex; EncEdge false; EncRead] sensor0).
  - repeat constructor; done.
  - done.
Defined.
