(* ===== verification/App.v ===== *)
(** * App: the start of the applications (src/applications/app.c)

    All applications stand beside the core; starting one creates its threads,
    here the entries of [started].  The custom application is compiled out. *)
From S2P Require Import Prelude Float32 Packet McTypes ConfCodec Motor Flash Eeprom Utils World Transmit.
From S2P Require Import Transmit McInterface ConfDefault FlashHelper Timeout ConfGeneral.
From S2P Require Import Commands CommCan AppCommon AppPpm AppAdc AppUart AppNunchuk Radio NrfDriver.

(** The applications that have threads. *)
Inductive app := PPM | ADC (use_rx_tx : bool) | UART | NUNCHUK | NRF.

Record app_state {C : Type} := mkApps {
  a_conf : app_configuration;
  a_ppm : ppm_state;
  a_adc : adc_state;
  a_uart : uart_state;
  a_chuk : chuk_state;
  a_nrf : nrf_state C;
  started : list app
}.
Arguments app_state : clear implicits.
#[export] Instance app_state_eta {C} : Eta (app_state C) := fun s =>
  mkApps _ (a_conf s) (a_ppm s) (a_adc s) (a_uart s) (a_chuk s) (a_nrf s) (started s).

Section App.
Context {C : Type} `{NrfPins C} {D F : Type} `{Board D}.
Abbreviation S := (app_state C).
Abbreviation W := (world D F).
Abbreviation A := (ST (S * W)).

(** Operations on the PPM application and on the radio. *)
Definition on_ppm {B} (m : ST (ppm_state * W) B) : A B := fun '(s, w) =>
  '(b, (p, w)) ← m (a_ppm s, w); Some (b, (s <| a_ppm := p |>, w)).
Definition on_radio {B} (m : ST (rfhelp_state C) B) : A B := fun '(s, w) =>
  '(b, r) ← m (rfhelp (a_nrf s)); Some (b, (s <| a_nrf := (a_nrf s) <| rfhelp := r |> |>, w)).
Definition on_nrf {B} (m : ST (nrf_state C * W) B) : A B := fun '(s, w) =>
  '(b, (n, w)) ← m (a_nrf s, w); Some (b, (s <| a_nrf := n |>, w)).
Definition start (a : app) : A unit := own_set (fun s => s <| started := started s ++ [a] |>).

Definition app_set_configuration (conf : app_configuration) : A unit :=
  own_set (fun s => s <| a_conf := conf |>);;
  on_ppm (app_ppm_configure (app_ppm_conf conf));;
  own_set (fun s => s <| a_adc := app_adc_configure (app_adc_conf conf) (a_adc s) |>);;
  own_set (fun s => s <| a_uart := app_uartcomm_configure (app_uart_baudrate conf) (a_uart s) |>);;
  own_set (fun s => s <| a_chuk := app_nunchuk_configure (app_chuk_conf conf) (a_chuk s) |>);;
  on_radio (rfhelp_update_conf (app_nrf_conf conf)).

Definition app_get_configuration : A app_configuration := own a_conf.

Definition start_ppm : A unit := start PPM.
Definition start_adc (use_rx_tx : bool) : A unit :=
  own_set (fun s => s <| a_adc := app_adc_start use_rx_tx (a_adc s) |>);; start (ADC use_rx_tx).
Definition start_uart : A unit :=
  own_set (fun s => s <| a_uart := app_uartcomm_start (a_uart s) |>);; start UART.

Definition app_init (conf : app_configuration) : A unit :=
  app_set_configuration conf;;
  let a := app_to_use conf in
  if a =? APP_PPM then start_ppm
  else if a =? APP_ADC then start_adc true
  else if a =? APP_UART then start_uart
  else if a =? APP_PPM_UART then start_ppm;; start_uart
  else if a =? APP_ADC_UART then start_adc false;; start_uart
  else if a =? APP_NUNCHUK then
    own_set (fun s => s <| a_chuk := app_nunchuk_start (a_chuk s) |>);; start NUNCHUK
  else if a =? APP_NRF then
    on_nrf nrf_driver_init;; start NRF;; on_radio rfhelp_restart
  else mret tt.

(** ** The configuration reaches every application *)

(** Every application holds its part; the safe starts begin again. *)
Record configured_as (conf : app_configuration) (s : S) : Prop := {
  ca_conf : a_conf s = conf;
  ca_ppm : ppm_conf (a_ppm s) = app_ppm_conf conf /\ pulses_without_power (a_ppm s) = 0;
  ca_adc : adc_conf (a_adc s) = app_adc_conf conf /\ ms_without_power (a_adc s) = f0;
  ca_uart : uart_speed (a_uart s) = app_uart_baudrate conf;
  ca_chuk : chuk_conf (a_chuk s) = app_chuk_conf conf;
  ca_nrf : nrf_conf (rfhelp (a_nrf s)) = app_nrf_conf conf
}.

(** Before the radio is initialised, configuring always succeeds and starts
    nothing. *)
Theorem app_set_configuration_spec conf (s : S) (w : W) :
  rf_init_done (rfhelp (a_nrf s)) = false ->
  exists s', app_set_configuration conf (s, w) = Some (tt, (s', w)) /\ configured_as conf s' /\ started s' = started s.
Proof.
  intros Hr. destruct s as [? [sv run ? ? ? ?] ad ua ch [? ? ? ? ? ? ? ? [? ? ? ? ? ? rd ? ?]] st]. cbn in Hr. subst rd.
  unfold app_set_configuration, app_ppm_configure, rfhelp_update_conf. destruct run; (eexists; split; [reflexivity|by repeat split]).
Qed.
End App.
