(* ===== verification/CommUsb.v ===== *)
(** * CommUsb: commands over USB (src/comm_usb.c)

    One thread reads characters of the virtual serial port into a ring, another
    takes them out and gives them to the packet handler 0 of packet.c.  The port
    itself, [SDU1], is a stream of ChibiOS. *)
From S2P Require Import Prelude Float32 Packet McTypes ConfCodec Motor Flash Eeprom Utils.
From S2P Require Import World Transmit McInterface ConfDefault FlashHelper Timeout.
From S2P Require Import ConfGeneral Commands CommCan AppCommon.

Definition USB_RX_BUFFER_SIZE : Z := 2048.

Record usb_state := mkUsb {
  usb_rx_buffer : list Z;
  usb_read_pos : Z;
  usb_write_pos : Z;
  (** the event the processing thread waits for *)
  usb_event : bool;
  (** handler 0 of packet.c *)
  usb_handler : PACKET_STATE_t;
  (** what was written to the port *)
  usb_sent : list (list Z)
}.
#[export] Instance usb_state_eta : Eta usb_state := fun s =>
  mkUsb (usb_rx_buffer s) (usb_read_pos s) (usb_write_pos s) (usb_event s) (usb_handler s) (usb_sent s).

(** The static variables before the start. *)
Definition usb_reset : usb_state := mkUsb (replicate 2048 0) 0 0 false packet_state0 [].

(** [packet_init], then the threads; the two callbacks are numbered. *)
Definition comm_usb_init (s : usb_state) : usb_state :=
  s <| usb_handler := packet_init_h (Some 1) (Some 2) (usb_handler s) |>.

(** One character into the ring. *)
Definition usb_put (b : Z) : ST usb_state unit := fun s =>
  buffer ← put_ix (usb_write_pos s) b (usb_rx_buffer s);
  let i := usb_write_pos s + 1 in
  Some (tt, s <| usb_rx_buffer := buffer |>
              <| usb_write_pos := if i =? USB_RX_BUFFER_SIZE then 0 else i |>).

Fixpoint usb_put_all (bs : list Z) : ST usb_state unit :=
  match bs with [] => mret tt | b :: bs => usb_put b;; usb_put_all bs end.

(** One round of [serial_read_thread]; a read asks for one character and may
    return none. *)
Definition serial_read_thread_step (bs : list Z) : ST usb_state unit :=
  usb_put_all bs;;
  match bs with [] => mret tt | _ => st_modify (fun s => s <| usb_event := true |>) end.

(** [chSequentialStreamWrite] *)
Definition usb_send_packet (data : list Z) (len : Z) : ST usb_state unit := fun s =>
  bs ← mem_read data 0 len;
  Some (tt, s <| usb_sent := usb_sent s ++ [bs] |>).

Fixpoint usb_send_calls (cs : list callback) : ST usb_state unit :=
  match cs with
  | SendCall _ data len :: cs => usb_send_packet data len;; usb_send_calls cs
  | _ :: cs => usb_send_calls cs
  | [] => mret tt
  end.

(** [send_packet_wrapper], the sending function of commands.c for this port. *)
Definition usb_send_wrapper (data : list Z) (len : Z) : ST usb_state unit := fun s =>
  '(cs, h) ← packet_send_packet_h data len (usb_handler s);
  usb_send_calls cs (s <| usb_handler := h |>).

Section CommUsb.
Context {D F : Type} `{Board D} `{Flash F} `{Apps D} `{Sleep D F}.
Context `{Layout mc_configuration} `{Layout app_configuration}.
Abbreviation W := (world D F).
Abbreviation A := (ST (usb_state * W)).

(** [process_packet] *)
Definition usb_process_packet (data : list Z) (len : Z) : ST W (list Z) :=
  commands_set_send_func SendUsb;; commands_process_packet data len.

(** The calls of the packet handler; [data] is its [rx_buffer]. *)
Fixpoint usb_process_calls (cs : list callback) : A unit :=
  match cs with
  | ProcessCall _ data len :: cs =>
      mem ← core (usb_process_packet data len);
      own_set (fun s => s <| usb_handler := (usb_handler s) <| Packet.rx_buffer := mem |> |>);;
      usb_process_calls cs
  | _ :: cs => usb_process_calls cs
  | [] => mret tt
  end.

(** [packet_process_byte(b, PACKET_HANDLER)] *)
Definition usb_byte (b : Z) : A unit := fun '(s, w) =>
  '(cs, h) ← packet_process_byte_h b (usb_handler s);
  usb_process_calls cs (s <| usb_handler := h |>, w).

(** [while (serial_rx_read_pos != serial_rx_write_pos)] *)
Fixpoint usb_drain (fuel : nat) : A unit :=
  match fuel with
  | O => st_fail
  | S fuel =>
      s ← own id;
      if usb_read_pos s =? usb_write_pos s then mret tt else
      b ← core (lift_opt (usb_rx_buffer s !!? usb_read_pos s));
      own_set (fun s => s <| usb_read_pos := usb_read_pos s + 1 |>);;
      usb_byte b;;
      own_set (fun s => if usb_read_pos s =? USB_RX_BUFFER_SIZE then s <| usb_read_pos := 0 |> else s);;
      usb_drain fuel
  end.

(** One round of [serial_process_thread]. *)
Definition serial_process_thread_step : A unit :=
  e ← own usb_event;
  own_when e (own_set (fun s => s <| usb_event := false |>);; usb_drain 2048).
End CommUsb.
