(* ===== verification/Servo.v ===== *)
(** * Servo: pulses for servos (src/servo.c, src/servo_simple.c)

    Every period the thread sorts the servos by position and groups those with
    equal positions; the interrupts of timer 7 then start all pulses and end
    them group by group.  The driver is one of two in the source and is chosen
    with SERVO_OUT_ENABLE; the commands of servo.c (USE_COMMANDS) are compiled
    out.  [qsort] is a parameter, and so is the element behind
    [sorted_servos], which the grouping reads. *)
From S2P Require Import Prelude Float32 Utils.

(** 1 to 2 ms, 50 Hz, a timer of 1 MHz. *)
Definition SERVO_START_OFFSET : Z := 1000000 / (1000000 / 1000).
Definition SERVO_CPU_FACTOR : Z := (1000000 + 1000000 / 1000 * 256 - 1) / (1000000 / 1000 * 256).
Definition SERVO_COOLDOWN_FACTOR : Z := 1000000 / (1000000 / (1000000 / 50)).

Record SERVO := mkServo { sv_pos : Z; sv_offset : Z; gpio : Z; pin : Z }.

Definition ACTUAL_POS (s : SERVO) : Z := Z.max (Z.min (sv_pos s + i16 (sv_offset s)) 255) 0.
Definition _BV (bit : Z) : Z := Z.shiftl 1 bit.

(** The static variables, the reload value of timer 7, whether its interrupt has
    signalled the thread, and the output registers of the ports. *)
Record servo_state := mkServos {
  servos : list SERVO;
  int_index : Z;
  servo_int_index : Z;
  masks_ports_index : Z;
  driver_active : Z;
  delays : list Z;
  same_pos : list Z;
  same_bits : list Z;
  masks : list Z;
  ports : list Z;
  servo_length : Z;
  SERVO_CNT_TOP : Z;
  servo_event : bool;
  odr : gmap Z Z
}.
#[export] Instance servo_state_eta : Eta servo_state := fun s =>
  mkServos (servos s) (int_index s) (servo_int_index s) (masks_ports_index s) (driver_active s) (delays s)
    (same_pos s) (same_bits s) (masks s) (ports s) (servo_length s) (SERVO_CNT_TOP s) (servo_event s) (odr s).

Abbreviation SV := (ST servo_state).

Definition sv {A} (f : servo_state -> A) : SV A := fun s => Some (f s, s).
Definition sv_opt {A} (o : option A) : SV A := fun s => a ← o; Some (a, s).

(** Reading and writing an element of one of the arrays. *)
Definition arr_get (f : servo_state -> list Z) (i : Z) : SV Z := l ← sv f; sv_opt (l !!? i).
Definition arr_set (f : servo_state -> list Z) `{!Setter f} (i x : Z) : SV unit :=
  l ← sv f; l ← sv_opt (put_ix i x l); st_modify (fun s => s <| f := l |>).

Definition port_of (p : Z) (s : servo_state) : Z := default 0 (odr s !! p).
Definition palSetPad (p n : Z) : SV unit :=
  st_modify (fun s => s <| odr := <[p := Z.lor (port_of p s) (_BV n)]> (odr s) |>).
Definition palClearPort (p mask : Z) : SV unit :=
  st_modify (fun s => s <| odr := <[p := Z.land (port_of p s) (Z.lnot mask)]> (odr s) |>).
Definition palClearPad (p n : Z) : SV unit := palClearPort p (_BV n).

Fixpoint sv_each (l : list SERVO) (f : SERVO -> SV unit) : SV unit :=
  match l with [] => mret tt | x :: l => f x;; sv_each l f end.

(** The servos of hardware 4.10, both on port B. *)
Definition GPIOB : Z := 1.
Definition hw_setup_servo_outputs : list SERVO := [mkServo 128 0 GPIOB 5; mkServo 0 0 GPIOB 4].

Definition servo_init : SV unit :=
  st_modify (fun s => s <| servos := hw_setup_servo_outputs |>);;
  l ← sv servos;
  sv_each l (fun x => palClearPad (gpio x) (pin x));;
  st_modify (fun s => s <| int_index := 0 |> <| servo_length := 0 |> <| SERVO_CNT_TOP := 65535 |> <| driver_active := 1 |>).

Definition servo_start_pulse : SV unit :=
  l ← sv servos; sv_each l (fun x => palSetPad (gpio x) (pin x)).

Definition servo_stop_driver : SV unit := st_modify (fun s => s <| driver_active := 0 |>).
Definition servo_driver_is_active : SV Z := sv driver_active.

(** [while (same_pos[int_index]--) { ... }], an [unsigned char]. *)
Fixpoint end_pulses (fuel : nat) : SV unit :=
  match fuel with
  | O => st_fail
  | S fuel =>
      i ← sv int_index;
      n ← arr_get same_pos i;
      arr_set same_pos i (u8 (n - 1));;
      if n =? 0 then mret tt else
        m ← sv masks_ports_index;
        port ← arr_get ports m; mask ← arr_get masks m;
        palClearPort port mask;;
        bits ← arr_get same_bits m;
        st_modify (fun s => s <| servo_int_index := i8 (servo_int_index s + bits) |>
                              <| masks_ports_index := i8 (masks_ports_index s + 1) |>);;
        end_pulses fuel
  end.

Definition servo_irq : SV unit :=
  i ← sv int_index;
  if i <? 0 then
    servo_start_pulse;;
    d ← arr_get delays 0;
    st_modify (fun s => s <| SERVO_CNT_TOP := u16 (SERVO_START_OFFSET + d) |> <| int_index := 0 |>)
  else
    len ← sv servo_length;
    if i =? len then st_modify (fun s => s <| SERVO_CNT_TOP := SERVO_COOLDOWN_FACTOR |> <| servo_event := true |>)
    else
      end_pulses 257;;
      st_modify (fun s => s <| int_index := i8 (int_index s + 1) |>);;
      i ← sv int_index;
      d ← arr_get delays i;
      st_modify (fun s => s <| SERVO_CNT_TOP := u16 d |>).

Definition servo_cmp_by_pos (a b : SERVO) : Z :=
  if ACTUAL_POS a =? ACTUAL_POS b then 0 else if ACTUAL_POS a <? ACTUAL_POS b then -1 else 1.

Section Thread.
Variable qsort : list SERVO -> list SERVO.
Variable behind_servos : SERVO.

(** [sorted_servos[j]] *)
Definition sorted_at (sorted : list SERVO) (j : Z) : option SERVO :=
  (sorted ++ [behind_servos]) !!? j.

(** The inner loop: servos with the position of the previous one. *)
Fixpoint same_loop (fuel : nat) (sorted : list SERVO) (i j k : Z) : SV (Z * Z) :=
  match fuel with
  | O => st_fail
  | S fuel =>
      a ← sv_opt (sorted_at sorted j); b ← sv_opt (sorted_at sorted (j - 1));
      if (ACTUAL_POS a =? ACTUAL_POS b) && (j <? Z.of_nat (length sorted)) then
        k ← (if gpio a =? gpio b then
               m ← arr_get masks k; arr_set masks k (Z.lor m (_BV (pin a)));;
               n ← arr_get same_bits k; arr_set same_bits k (u8 (n + 1));; mret k
             else
               n ← arr_get same_pos i; arr_set same_pos i (u8 (n + 1));;
               arr_set ports (k + 1) (gpio a);; arr_set masks (k + 1) (_BV (pin a));; mret (k + 1));
        same_loop fuel sorted i (j + 1) k
      else mret (j, k)
  end.

(** The outer loop; returns [i]. *)
Fixpoint group_loop (fuel : nat) (sorted : list SERVO) (i j k : Z) : SV Z :=
  match fuel with
  | O => st_fail
  | S fuel =>
      '(j, k) ← same_loop (S (length sorted)) sorted i j k;
      let i := i + 1 in
      if j <? Z.of_nat (length sorted) then
        a ← sv_opt (sorted_at sorted j); b ← sv_opt (sorted_at sorted (j - 1));
        arr_set delays i ((ACTUAL_POS a - ACTUAL_POS b) * SERVO_CPU_FACTOR);;
        arr_set ports (k + 1) (gpio a);; arr_set masks (k + 1) (_BV (pin a));;
        group_loop fuel sorted i (j + 1) (k + 1)
      else mret i
  end.

(** A round of the thread, after the event. *)
Definition servo_thread_step : SV unit :=
  st_modify (fun s => s <| servo_event := false |> <| servo_int_index := 0 |> <| masks_ports_index := 0 |>);;
  copy ← sv servos;
  let sorted := qsort copy in
  first ← sv_opt (sorted !!? 0);
  arr_set delays 0 (ACTUAL_POS first * SERVO_CPU_FACTOR);;
  arr_set masks 0 (_BV (pin first));;
  arr_set ports 0 (gpio first);;
  n ← sv (fun s => length (servos s));
  st_modify (fun s => s <| same_pos := replicate (S n) 1 |> <| same_bits := replicate (S n) 1 |>);;
  i ← group_loop (S n) sorted 0 1 0;
  last ← sv_opt (sorted !!? (Z.of_nat n - 1));
  arr_set delays i (ACTUAL_POS last * SERVO_CPU_FACTOR + 120);;
  st_modify (fun s => s <| servo_length := u8 i |> <| int_index := -1 |>).
End Thread.

(** ** servo_simple.c *)

Definition TIM_CLOCK : Z := 1000000.

(** The compare value of timer 3. *)
Definition servo_simple_set_output (out : f32) : Z :=
  let '(out, _) := utils_truncate_number out f0 f1 in
  let us := (f_of_int 1000 + out * f_of_int (2000 - 1000))%f32 in
  f2u32 (us * (f_of_int TIM_CLOCK / f_of_int 1000000))%f32.

(** Its period, prescaler and first compare value. *)
Definition servo_simple_init : Z * Z * Z :=
  (u16 (TIM_CLOCK / 50), u16 (168000000 / 2 / TIM_CLOCK) - 1, servo_simple_set_output (flit 1 2)).

(** 1 ms, 1.5 ms and 2 ms at the ends and in the middle, also beyond them. *)
Lemma servo_simple_ends :
  servo_simple_set_output (f_of_int (-3)) = 1000 /\ servo_simple_init = (20000, 83, 1500) /\
  servo_simple_set_output (f_of_int 7) = 2000.
Proof. vm_compute. auto. Qed.
