(* ===== verification/ServoTheorems.v ===== *)
(** * ServoTheorems: every servo gets a pulse of its own length

    The thread's arrays represent the groups of servos with equal positions
    ([grouped]); each interrupt ends the pulses of one group. *)
From stdpp Require Import sorting.
From S2P Require Import Prelude Servo.
#[local] Open Scope Z_scope.

(** ** Arrays that start with a list *)

Definition starts {A} (L l : list A) : Prop := take (length L) l = L.

Lemma starts_snoc {A} (L l : list A) x : starts L l -> (length L < length l)%nat -> starts (L ++ [x]) (<[length L := x]> l).
Proof.
  unfold starts. intros Hs Hl. rewrite length_app, Nat.add_1_r.
  rewrite (take_S_r _ _ x) by (apply list_lookup_insert_eq; lia). by rewrite take_insert_ge, Hs by lia.
Qed.
Lemma starts_init {A} (L l : list A) x : starts (L ++ [x]) l -> starts L l.
Proof.
  unfold starts. intros Hs. apply (f_equal (take (length L))) in Hs. rewrite take_take, take_app_length in Hs.
  rewrite length_app in Hs. by rewrite Nat.min_l in Hs by lia.
Qed.
Lemma starts_lookup {A} (L l : list A) n x : starts L l -> L !! n = Some x -> l !! n = Some x.
Proof.
  unfold starts. intros Hs Hx. pose proof (lookup_lt_Some _ _ _ Hx) as Hn. rewrite <- Hs in Hx.
  by rewrite lookup_take_lt in Hx.
Qed.
Lemma starts_last {A} (L l : list A) x y : starts (L ++ [y]) l -> (length L < length l)%nat -> starts (L ++ [x]) (<[length L := x]> l).
Proof. intros Hs Hl. by apply starts_snoc; [apply (starts_init _ _ y)|]. Qed.

(** ** Groups *)

(** The position of a group, and for each run of servos on one port the port and
    the mask of its pins. *)
Abbreviation group := (Z * list (Z * Z))%type.
Definition runs (gs : list group) : list (Z * Z) := concat (snd <$> gs).

Fixpoint delays_of (prev : Z) (gs : list group) : list Z :=
  match gs with [] => [] | (p, _) :: gs => (p - prev) * SERVO_CPU_FACTOR :: delays_of p gs end.

(** What a group clears is what the servos at its position drive. *)
Definition clears (ms : list (Z * Z)) (port bit : Z) : Prop := exists m, (port, m) ∈ ms /\ Z.testbit m bit = true.
Definition group_ok (l : list SERVO) (g : group) : Prop :=
  forall port bit, 0 <= bit ->
    (clears (snd g) port bit <-> exists x, x ∈ l /\ ACTUAL_POS x = fst g /\ gpio x = port /\ pin x = bit).

(** The groups of the servos [l]; [(p, ms)] is the last one. *)
Record grouped (l : list SERVO) (gs : list group) (p : Z) (ms : list (Z * Z)) : Prop := {
  gr_groups : Forall (group_ok l) (gs ++ [(p, ms)]);
  gr_all : forall x, x ∈ l -> exists g, g ∈ gs ++ [(p, ms)] /\ fst g = ACTUAL_POS x;
  gr_some : forall g, g ∈ gs ++ [(p, ms)] -> exists x, x ∈ l /\ ACTUAL_POS x = fst g;
  gr_incr : StronglySorted Z.lt (fst <$> gs ++ [(p, ms)]);
  gr_runs : (length gs < length (runs (gs ++ [(p, ms)])) <= length l)%nat;
  gr_pos : Forall (fun q => 0 <= q <= 255) (fst <$> gs ++ [(p, ms)])
}.

Lemma bv_bit n b : 0 <= n -> 0 <= b -> Z.testbit (_BV n) b = bool_decide (b = n).
Proof.
  intros Hn Hb. unfold _BV. rewrite Z.shiftl_1_l. case_bool_decide as E.
  - subst. by apply Z.pow2_bits_true.
  - apply Z.pow2_bits_false. lia.
Qed.

Lemma clears_app a b port bit : clears (a ++ b) port bit <-> clears a port bit \/ clears b port bit.
Proof.
  unfold clears. split.
  - intros (m & Hm & Hb). apply elem_of_app in Hm as [Hm|Hm]; [left|right]; by exists m.
  - intros [(m & Hm & Hb)|(m & Hm & Hb)]; exists m; (split; [apply elem_of_app; auto|done]).
Qed.
Lemma clears_single p m port bit : clears [(p, m)] port bit <-> port = p /\ Z.testbit m bit = true.
Proof.
  unfold clears. split.
  - intros (m' & Hm & Hb). apply list_elem_of_singleton in Hm. by simplify_eq.
  - intros [-> Hb]. exists m. split; [by apply list_elem_of_singleton|done].
Qed.

Lemma runs_snoc gs p ms : runs (gs ++ [(p, ms)]) = runs gs ++ ms.
Proof. unfold runs. rewrite fmap_app, concat_app. cbn. by rewrite app_nil_r. Qed.

Lemma group_ok_other l y g : group_ok l g -> fst g <> ACTUAL_POS y -> group_ok (l ++ [y]) g.
Proof.
  intros Hg Hne port bit Hb. rewrite (Hg port bit Hb). split; intros (x & Hx & Hp & He).
  - exists x. split; [apply elem_of_app; by left|done].
  - exists x. apply elem_of_app in Hx as [Hx|Hx%list_elem_of_singleton]; [done|]. subst x. by rewrite Hp in Hne.
Qed.

(** A group that clears one pin more takes one servo more. *)
Lemma group_ok_more l y p ms ms' : group_ok l (p, ms) -> ACTUAL_POS y = p ->
  (forall port bit, 0 <= bit -> clears ms' port bit <-> clears ms port bit \/ gpio y = port /\ pin y = bit) ->
  group_ok (l ++ [y]) (p, ms').
Proof.
  intros Hg Hp Hm port bit Hb. rewrite (Hm port bit Hb), (Hg port bit Hb). cbn [fst]. split.
  - intros [(x & Hx & He)|[He1 He2]]; [exists x|exists y]; (split; [apply elem_of_app|done]); [by left|right; by apply list_elem_of_singleton].
  - intros (x & [Hx|Hx%list_elem_of_singleton]%elem_of_app & Hpx & He); [left; by exists x|right]. by subst x.
Qed.

Lemma grouped_more l gs p ms ms' y : grouped l gs p ms -> ACTUAL_POS y = p ->
  (forall port bit, 0 <= bit -> clears ms' port bit <-> clears ms port bit \/ gpio y = port /\ pin y = bit) ->
  (length ms <= length ms' <= S (length ms))%nat ->
  grouped (l ++ [y]) gs p ms'.
Proof.
  intros [Hg Ha Hs Hi Hr Hps] Hp Hm Hl. apply Forall_app in Hg as [Hg Hlast]. rewrite Forall_singleton in Hlast.
  rewrite fmap_app in Hi. cbn in Hi. rewrite runs_snoc, length_app in Hr.
  split.
  - apply Forall_app. split; [|apply Forall_singleton; by apply (group_ok_more l y p ms)].
    rewrite list.Forall_forall in Hg |- *. intros g Hin. apply group_ok_other; [by apply Hg|].
    apply StronglySorted_app in Hi as [Hlt _]. specialize (Hlt (fst g) p).
    rewrite Hp. apply Z.lt_neq, Hlt; [by apply list_elem_of_fmap_2|by apply list_elem_of_singleton].
  - intros x [Hx|Hx%list_elem_of_singleton]%elem_of_app.
    + destruct (Ha x Hx) as (g & [Hin|Hin%list_elem_of_singleton]%elem_of_app & Hf).
      * exists g. split; [apply elem_of_app; by left|done].
      * exists (p, ms'). split; [apply elem_of_app; right; by apply list_elem_of_singleton|]. by subst g.
    + exists (p, ms'). split; [apply elem_of_app; right; by apply list_elem_of_singleton|]. by subst x.
  - intros g [Hin|Hin%list_elem_of_singleton]%elem_of_app.
    + destruct (Hs g) as (x & Hx & Hpx); [apply elem_of_app; by left|]. exists x. split; [apply elem_of_app; by left|done].
    + exists y. split; [apply elem_of_app; right; by apply list_elem_of_singleton|by subst g].
  - by rewrite fmap_app.
  - rewrite runs_snoc, !length_app. cbn. lia.
  - by rewrite fmap_app in Hps |- *.
Qed.

Lemma actual_pos_range x : 0 <= ACTUAL_POS x <= 255.
Proof. unfold ACTUAL_POS. lia. Qed.

Lemma single_group l y : 0 <= pin y -> (forall x, x ∈ l -> ACTUAL_POS x <> ACTUAL_POS y) ->
  group_ok (l ++ [y]) (ACTUAL_POS y, [(gpio y, _BV (pin y))]).
Proof.
  intros Hy Hne port bit Hb. cbn [fst snd]. rewrite clears_single, bv_bit, bool_decide_eq_true by done. split.
  - intros [-> ->]. exists y. split; [apply elem_of_app; right; by apply list_elem_of_singleton|done].
  - intros (x & [Hx|Hx%list_elem_of_singleton]%elem_of_app & Hp & Hg & Hn); [by apply Hne in Hx|]. by subst x.
Qed.

Lemma grouped_new l gs p ms y : grouped l gs p ms -> p < ACTUAL_POS y -> 0 <= pin y ->
  grouped (l ++ [y]) (gs ++ [(p, ms)]) (ACTUAL_POS y) [(gpio y, _BV (pin y))].
Proof.
  intros [Hg Ha Hs Hi Hr Hps] Hp Hy. set (G := gs ++ [(p, ms)]) in *.
  assert (Hlt : forall g, g ∈ G -> fst g < ACTUAL_POS y).
  { intros g [Hin|Hin%list_elem_of_singleton]%elem_of_app; [|by subst g].
    unfold G in Hi. rewrite fmap_app in Hi. apply StronglySorted_app in Hi as [Hlt _].
    specialize (Hlt (fst g) p). etransitivity; [|exact Hp].
    apply Hlt; [by apply list_elem_of_fmap_2|by apply list_elem_of_singleton]. }
  split.
  - apply Forall_app. split.
    + rewrite list.Forall_forall in Hg |- *. intros g Hin. apply group_ok_other; [by apply Hg|].
      specialize (Hlt g Hin). lia.
    + apply Forall_singleton, single_group; [done|]. intros x Hx He. destruct (Ha x Hx) as (g & Hin & Hf).
      specialize (Hlt g Hin). lia.
  - intros x [Hx|Hx%list_elem_of_singleton]%elem_of_app.
    + destruct (Ha x Hx) as (g & Hin & Hf). exists g. split; [apply elem_of_app; by left|done].
    + eexists. split; [apply elem_of_app; right; by apply list_elem_of_singleton|]. by subst x.
  - intros g [Hin|Hin%list_elem_of_singleton]%elem_of_app.
    + destruct (Hs g Hin) as (x & Hx & Hpx). exists x. split; [apply elem_of_app; by left|done].
    + exists y. split; [apply elem_of_app; right; by apply list_elem_of_singleton|by subst g].
  - rewrite fmap_app. apply StronglySorted_app_2; [|done|repeat constructor].
    intros a b (g & -> & Hin)%list_elem_of_fmap Hb%list_elem_of_singleton. rewrite Hb. by apply Hlt.
  - rewrite runs_snoc, !length_app. assert (length G = S (length gs)) by (unfold G; rewrite length_app; cbn; lia). cbn. lia.
  - rewrite fmap_app. apply Forall_app. split; [done|]. apply Forall_singleton, actual_pos_range.
Qed.

Lemma grouped_first y : 0 <= pin y -> grouped [y] [] (ACTUAL_POS y) [(gpio y, _BV (pin y))].
Proof.
  intros Hy. split.
  - apply Forall_singleton, (single_group []); [done|]. intros x Hx. by apply elem_of_nil in Hx.
  - intros x Hx%list_elem_of_singleton. eexists. split; [by apply list_elem_of_singleton|]. by subst x.
  - intros g Hg%list_elem_of_singleton. exists y. split; [by apply list_elem_of_singleton|by subst g].
  - repeat constructor.
  - cbn. lia.
  - apply Forall_singleton, actual_pos_range.
Qed.

Lemma delays_snoc prev gs p ms q ns :
  delays_of prev ((gs ++ [(p, ms)]) ++ [(q, ns)]) = delays_of prev (gs ++ [(p, ms)]) ++ [(q - p) * SERVO_CPU_FACTOR].
Proof. revert prev. induction gs as [|[r ?] gs IH]; intros prev; cbn; [done|]. f_equal. apply IH. Qed.
Lemma delays_last prev gs p ms ms' : delays_of prev (gs ++ [(p, ms)]) = delays_of prev (gs ++ [(p, ms')]).
Proof. revert prev. induction gs as [|[r ?] gs IH]; intros prev; cbn; [done|]. f_equal. apply IH. Qed.
Lemma delays_length prev gs : length (delays_of prev gs) = length gs.
Proof. revert prev. induction gs as [|[r ?] gs IH]; intros prev; cbn; [done|]. by rewrite IH. Qed.

(** ** The arrays of the thread *)

Definition run_counts (gs : list group) : list Z := (fun g : group => Z.of_nat (length (snd g))) <$> gs.

Record laid (N : nat) (G : list group) (s : servo_state) : Prop := {
  la_delays : starts (delays_of 0 G) (delays s);
  la_same : same_pos s = run_counts G ++ replicate (S N - length G) 1;
  la_masks : starts (snd <$> runs G) (masks s);
  la_ports : starts (fst <$> runs G) (ports s);
  la_ndelays : length (delays s) = S N;
  la_nbits : length (same_bits s) = S N;
  la_nmasks : length (masks s) = N;
  la_nports : length (ports s) = N
}.

(** What the grouping leaves alone. *)
Definition others (s : servo_state) := (servos s, masks_ports_index s, odr s, servo_event s).

(** The arrays after [j] of the sorted servos. *)
Definition grouping (L : list SERVO) (j i k : Z) (s : servo_state) : Prop :=
  exists (gs : list group) p ds po m x, 1 <= j <= Z.of_nat (length L) /\
    L !! Z.to_nat (j - 1) = Some x /\ ACTUAL_POS x = p /\ gpio x = po /\
    grouped (take (Z.to_nat j) L) gs p (ds ++ [(po, m)]) /\
    laid (length L) (gs ++ [(p, ds ++ [(po, m)])]) s /\
    i = Z.of_nat (length gs) /\ k + 1 = Z.of_nat (length (runs (gs ++ [(p, ds ++ [(po, m)])]))).

Lemma arr_get_run {B} f i x (k : Z -> SV B) s : f s !!? i = Some x -> (y ← arr_get f i; k y) s = k x s.
Proof. intros Hx. unfold arr_get, sv, sv_opt, mbind, ST_bind. by rewrite Hx. Qed.
Lemma arr_set_run {B} f `{!Setter f} i x (k : unit -> SV B) s : 0 <= i < Z.of_nat (length (f s)) ->
  (y ← arr_set f i x; k y) s = k tt (s <| f := <[Z.to_nat i := x]> (f s) |>).
Proof. intros Hi. unfold arr_set, sv, sv_opt, mbind, ST_bind. by rewrite put_ix_Some. Qed.
Lemma sv_opt_run {A B} (o : option A) (k : A -> SV B) a s : o = Some a -> (y ← sv_opt o; k y) s = k a s.
Proof. by intros ->. Qed.

Lemma sorted_at_Some L b j x : 0 <= j -> L !! Z.to_nat j = Some x -> sorted_at b L j = Some x.
Proof. intros Hj Hx. unfold sorted_at, at_ix. rewrite decide_True by done. by apply lookup_app_l_Some. Qed.

Lemma replicate_more N n : (n < S N)%nat -> replicate (S N - n) 1 = 1 :: replicate (S N - S n) 1.
Proof. intros Hn. by replace (S N - n)%nat with (S (S N - S n)) by lia. Qed.

Lemma lookup_last {A} (l : list A) x : (l ++ [x]) !! length l = Some x.
Proof. rewrite lookup_app_r by lia. by rewrite Nat.sub_diag. Qed.

(** *** One servo more *)

Lemma grouping_bit L j i k s y : grouping L j i k s -> L !! Z.to_nat j = Some y ->
  (exists x, L !! Z.to_nat (j - 1) = Some x /\ ACTUAL_POS x = ACTUAL_POS y /\ gpio x = gpio y) -> 0 <= pin y ->
  exists m n s', masks s !!? k = Some m /\ same_bits s !!? k = Some n /\ 0 <= k < Z.of_nat (length L) /\
    length (masks s) = length L /\ length (same_bits s) = S (length L) /\
    s' = s <| masks := <[Z.to_nat k := Z.lor m (_BV (pin y))]> (masks s) |>
           <| same_bits := <[Z.to_nat k := u8 (n + 1)]> (same_bits s) |> /\
    grouping L (j + 1) i k s'.
Proof.
  intros (gs & p & ds & po & m & x & Hj & Hx & Hp & Hpo & Hg & Hl & Hi & Hk) Hy (x' & Hx' & Hpy & Hgy) Hpin.
  assert (x' = x) as -> by congruence. pose proof Hl as [L1 L2 L3 L4 L5 L6 L7 L8].
  rewrite runs_snoc, app_assoc, length_app in Hk. cbn in Hk.
  pose proof (gr_runs _ _ _ _ Hg) as Hr. rewrite runs_snoc, app_assoc, length_app, length_take in Hr. cbn in Hr.
  assert (Hkn : Z.to_nat k = length (runs gs ++ ds)) by lia.
  assert (Hm : masks s !! Z.to_nat k = Some m).
  { apply (starts_lookup (snd <$> runs (gs ++ [(p, ds ++ [(po, m)])]))); [done|].
    rewrite runs_snoc, app_assoc, fmap_app, Hkn. rewrite <- (length_fmap snd). apply lookup_last. }
  destruct (at_ix_Some (same_bits s) k) as [n Hn]; [lia|].
  exists m, n. eexists. split; [unfold at_ix; by rewrite decide_True by lia|]. split; [done|]. split; [lia|].
  split; [done|]. split; [done|]. split; [reflexivity|].
  exists gs, p, ds, po, (Z.lor m (_BV (pin y))), y. split; [apply lookup_lt_Some in Hy; lia|].
  split; [by replace (j + 1 - 1) with j by lia|]. split; [congruence|]. split; [congruence|]. split; [|split; [|split; [done|]]].
  - replace (Z.to_nat (j + 1)) with (S (Z.to_nat j)) by lia. rewrite (take_S_r _ _ y) by done.
    apply (grouped_more _ _ _ (ds ++ [(po, m)])); [done|congruence| |rewrite !length_app; cbn; lia].
    intros port bit Hb. rewrite !clears_app, !clears_single, Z.lor_spec, orb_true_iff, bv_bit, bool_decide_eq_true by done.
    rewrite <- Hpo, Hgy. split; [intros [?|[? [?|?]]]|intros [[?|[? ?]]|[? ?]]]; eauto 6.
  - split; try done.
    + by rewrite (delays_last _ _ _ _ (ds ++ [(po, m)])).
    + transitivity (same_pos s); [done|]. rewrite L2. unfold run_counts. rewrite !fmap_app. cbn. by rewrite !length_app.
    + cbn. rewrite runs_snoc, app_assoc, fmap_app in L3 |- *. cbn in L3 |- *. rewrite Hkn, <- (length_fmap snd).
      apply (starts_last _ _ _ m); [done|]. rewrite length_fmap. lia.
    + cbn. rewrite runs_snoc, app_assoc, fmap_app in L4 |- *. done.
    + by rewrite <- L6; apply length_insert.
    + by rewrite <- L7; apply length_insert.
  - rewrite runs_snoc, app_assoc, length_app. cbn. done.
Qed.

Lemma grouping_port L j i k s y : grouping L j i k s -> L !! Z.to_nat j = Some y -> (length L < 255)%nat ->
  (exists x, L !! Z.to_nat (j - 1) = Some x /\ ACTUAL_POS x = ACTUAL_POS y) -> 0 <= pin y ->
  exists n, same_pos s !!? i = Some n /\ 0 <= i < Z.of_nat (length (same_pos s)) /\
    0 <= k + 1 < Z.of_nat (length L) /\ length (ports s) = length L /\ length (masks s) = length L /\
    grouping L (j + 1) i (k + 1) (s <| same_pos := <[Z.to_nat i := u8 (n + 1)]> (same_pos s) |>
      <| ports := <[Z.to_nat (k + 1) := gpio y]> (ports s) |> <| masks := <[Z.to_nat (k + 1) := _BV (pin y)]> (masks s) |>).
Proof.
  intros (gs & p & ds & po & m & x & Hj & Hx & Hp & Hpo & Hg & Hl & Hi & Hk) Hy Hsmall (x' & Hx' & Hpy) Hpin.
  assert (x' = x) as -> by congruence. pose proof Hl as [L1 L2 L3 L4 L5 L6 L7 L8]. set (ms := ds ++ [(po, m)]) in *.
  pose proof (gr_runs _ _ _ _ Hg) as Hr. rewrite length_take in Hr. pose proof (lookup_lt_Some _ _ _ Hy) as Hjl.
  rewrite runs_snoc, length_app in Hr.
  rewrite runs_snoc, length_app in Hk.
  assert (Hs : same_pos s = run_counts gs ++ Z.of_nat (length ms) :: replicate (length L - length gs) 1).
  { rewrite L2. unfold run_counts. rewrite fmap_app, <- app_assoc. cbn. rewrite length_app. cbn.
    do 3 f_equal. lia. }
  assert (Hig : Z.to_nat i = length (run_counts gs)) by (unfold run_counts; rewrite length_fmap; lia).
  assert (Hni : same_pos s !! Z.to_nat i = Some (Z.of_nat (length ms))).
  { by rewrite Hig, Hs, list_lookup_middle. }
  exists (Z.of_nat (length ms)). split; [unfold at_ix; by rewrite decide_True by lia|].
  split; [apply lookup_lt_Some in Hni; lia|]. split; [lia|]. split; [done|]. split; [done|].
  assert (Hkn : Z.to_nat (k + 1) = length (runs (gs ++ [(p, ms)]))) by (rewrite runs_snoc, length_app; lia).
  assert (Hu : u8 (Z.of_nat (length ms) + 1) = Z.of_nat (length (ms ++ [(gpio y, _BV (pin y))]))).
  { rewrite length_app, u8_id by (unfold is_u8; lia). cbn. lia. }
  exists gs, p, ms, (gpio y), (_BV (pin y)), y. split; [lia|].
  split; [by replace (j + 1 - 1) with j by lia|]. split; [congruence|]. split; [done|]. split; [|split; [|split; [done|]]].
  - replace (Z.to_nat (j + 1)) with (S (Z.to_nat j)) by lia. rewrite (take_S_r _ _ y) by done.
    apply (grouped_more _ _ _ ms); [done|congruence| |rewrite !length_app; cbn; lia].
    intros port bit Hb. rewrite clears_app, clears_single, bv_bit, bool_decide_eq_true by done.
    split; (intros [?|[? ?]]; [by left|right; by split]).
  - rewrite runs_snoc, !fmap_app in L3, L4.
    split; try done.
    + by rewrite (delays_last _ _ _ _ ms).
    + transitivity (<[Z.to_nat i := u8 (Z.of_nat (length ms) + 1)]> (same_pos s)); [done|].
      rewrite Hs, Hig, insert_app_r_alt, Nat.sub_diag by lia. cbn. rewrite Hu. unfold run_counts.
      rewrite fmap_app, <- app_assoc. cbn. do 3 f_equal. rewrite length_app. cbn. lia.
    + rewrite runs_snoc, !fmap_app, app_assoc. cbn [fmap list_fmap snd].
      rewrite Hkn, <- (length_fmap snd), runs_snoc, fmap_app. apply starts_snoc; [done|].
      rewrite length_app, !length_fmap. rewrite runs_snoc, length_app in Hkn. lia.
    + rewrite runs_snoc, !fmap_app, app_assoc. cbn [fmap list_fmap fst].
      rewrite Hkn, <- (length_fmap fst), runs_snoc, fmap_app. apply starts_snoc; [done|].
      rewrite length_app, !length_fmap. rewrite runs_snoc, length_app in Hkn. lia.
    + by rewrite <- L7; apply length_insert.
    + by rewrite <- L8; apply length_insert.
  - rewrite runs_snoc, !length_app. cbn. lia.
Qed.

Lemma grouping_new L j i k s y x : grouping L j i k s -> L !! Z.to_nat j = Some y ->
  L !! Z.to_nat (j - 1) = Some x -> ACTUAL_POS x < ACTUAL_POS y -> 0 <= pin y ->
  0 <= i + 1 < Z.of_nat (length (delays s)) /\ 0 <= k + 1 < Z.of_nat (length L) /\
    length (ports s) = length L /\ length (masks s) = length L /\
    grouping L (j + 1) (i + 1) (k + 1) (s <| delays := <[Z.to_nat (i + 1) := (ACTUAL_POS y - ACTUAL_POS x) * SERVO_CPU_FACTOR]> (delays s) |>
      <| ports := <[Z.to_nat (k + 1) := gpio y]> (ports s) |> <| masks := <[Z.to_nat (k + 1) := _BV (pin y)]> (masks s) |>).
Proof.
  intros (gs & p & ds & po & m & x' & Hj & Hx' & Hp & Hpo & Hg & Hl & Hi & Hk) Hy Hx Hlt Hpin.
  assert (x' = x) as -> by congruence. pose proof Hl as [L1 L2 L3 L4 L5 L6 L7 L8]. set (ms := ds ++ [(po, m)]) in *.
  pose proof (gr_runs _ _ _ _ Hg) as Hr. rewrite length_take in Hr. pose proof (lookup_lt_Some _ _ _ Hy) as Hjl.
  set (G := gs ++ [(p, ms)]) in *.
  assert (HG : length G = S (length gs)) by (unfold G; rewrite length_app; cbn; lia).
  assert (Hin : Z.to_nat (i + 1) = length (delays_of 0 G)) by (rewrite delays_length; lia).
  assert (Hkn : Z.to_nat (k + 1) = length (runs G)) by lia.
  assert (Hlen : (length (runs G) < length L)%nat) by lia.
  split; [lia|]. split; [lia|]. split; [done|]. split; [done|].
  exists G, (ACTUAL_POS y), [], (gpio y), (_BV (pin y)), y. split; [lia|].
  split; [by replace (j + 1 - 1) with j by lia|]. split; [done|]. split; [done|]. cbn [app]. split; [|split; [|split; [lia|]]].
  - replace (Z.to_nat (j + 1)) with (S (Z.to_nat j)) by lia. rewrite (take_S_r _ _ y) by done.
    apply grouped_new; [done|lia|done].
  - split; try done.
    + rewrite Hin. unfold G. rewrite delays_snoc. fold G. rewrite Hp. apply starts_snoc; [done|]. lia.
    + transitivity (same_pos s); [done|]. rewrite L2, HG, replicate_more by lia.
      unfold run_counts. rewrite fmap_app, length_app, HG, <- app_assoc. cbn [fmap list_fmap snd app length].
      f_equal. change (Z.of_nat 1) with 1. f_equal. f_equal. lia.
    + rewrite runs_snoc, fmap_app. cbn [fmap list_fmap snd].
      rewrite Hkn, <- (length_fmap snd). apply starts_snoc; [done|]. rewrite length_fmap. lia.
    + rewrite runs_snoc, fmap_app. cbn [fmap list_fmap fst].
      rewrite Hkn, <- (length_fmap fst). apply starts_snoc; [done|]. rewrite length_fmap. lia.
    + by rewrite <- L5; apply length_insert.
    + by rewrite <- L7; apply length_insert.
    + by rewrite <- L8; apply length_insert.
  - rewrite runs_snoc, length_app. cbn. lia.
Qed.

(** *** The loops *)

(** The servos are sorted, and their pins are numbers of pins. *)
Definition sorted_ok (L : list SERVO) : Prop :=
  (0 < length L < 127)%nat /\ Forall (fun x => 0 <= pin x) L /\
  forall n x y, L !! n = Some x -> L !! S n = Some y -> ACTUAL_POS x <= ACTUAL_POS y.

Lemma same_loop_run L b fuel i j k s : sorted_ok L -> grouping L j i k s ->
  (length L - Z.to_nat j < fuel)%nat ->
  exists j' k' s', same_loop b fuel L i j k s = Some ((j', k'), s') /\ grouping L j' i k' s' /\ others s' = others s /\
    j <= j' /\ (forall x y, L !! Z.to_nat (j' - 1) = Some x -> L !! Z.to_nat j' = Some y -> ACTUAL_POS x <> ACTUAL_POS y).
Proof.
  intros (HN & Hpins & Hs). revert j k s. induction fuel as [|fuel IH]; intros j k s Hg Hf; [lia|].
  pose proof Hg as (gs & p & ds & po & m & x & Hj & Hx & Hp & Hpo & _).
  cbn [same_loop]. rewrite (sv_opt_run _ _ (default b (L !! Z.to_nat j))).
  2: { unfold sorted_at, at_ix. rewrite decide_True by lia. destruct (L !! Z.to_nat j) as [y|] eqn:E.
       - by apply lookup_app_l_Some.
       - apply lookup_ge_None in E. rewrite lookup_app_r by lia. by replace (Z.to_nat j - length L)%nat with 0%nat by lia. }
  rewrite (sv_opt_run _ _ x) by (apply sorted_at_Some; [lia|done]).
  destruct (L !! Z.to_nat j) as [y|] eqn:Hy.
  - change (default b (Some y)) with y. assert (Hjl := lookup_lt_Some _ _ _ Hy). rewrite (proj2 (Z.ltb_lt j (Z.of_nat (length L)))), andb_true_r by lia.
    assert (Hpin : 0 <= pin y) by (rewrite list.Forall_forall in Hpins; apply Hpins; by apply list_elem_of_lookup_2 in Hy).
    destruct (Z.eqb_spec (ACTUAL_POS y) (ACTUAL_POS x)) as [Hpos|Hpos].
    + destruct (Z.eqb_spec (gpio y) (gpio x)) as [Hgp|Hgp].
      * destruct (grouping_bit L j i k s y Hg Hy) as (m' & n & s' & Hm & Hn & Hkb & Hlm & Hlb & Es & Hg'); [by exists x|done|].
        destruct (IH (j + 1) k s' Hg') as (j' & k' & s2 & E & Hg2 & Ho & Hle & Hstop); [lia|].
        exists j', k', s2. split; [|split; [done|split; [by rewrite Ho; subst s'|split; [lia|done]]]].
        cbv iota. rewrite (ST_bind_Some _ _ s k s'); [exact E|]. rewrite Es.
        rewrite (arr_get_run _ _ m'), arr_set_run by (done || lia).
        rewrite (arr_get_run _ _ n) by done. by rewrite arr_set_run by (change (0 <= k < Z.of_nat (length (same_bits s))); lia).
      * destruct (grouping_port L j i k s y Hg Hy) as (n & Hn & Hib & Hkb & Hlp & Hlm & Hg'); [lia|by exists x|done|].
        edestruct (IH (j + 1) (k + 1) _ Hg') as (j' & k' & s2 & E & Hg2 & Ho & Hle & Hstop); [lia|].
        exists j', k', s2. split; [|split; [done|split; [by rewrite Ho|split; [lia|done]]]].
        cbv iota. erewrite (ST_bind_Some _ _ s (k + 1)); [exact E|].
        rewrite (arr_get_run _ _ n), arr_set_run by (done || lia).
        rewrite arr_set_run by (change (0 <= k + 1 < Z.of_nat (length (ports s))); lia).
        by rewrite arr_set_run by (change (0 <= k + 1 < Z.of_nat (length (masks s))); lia).
    + exists j, k, s. split; [done|]. split; [done|]. split; [done|]. split; [lia|]. intros x' y' Hx' Hy'.
      rewrite Hx in Hx'. rewrite Hy in Hy'. by simplify_eq.
  - change (default b None) with b. apply lookup_ge_None in Hy. rewrite (proj2 (Z.ltb_ge j (Z.of_nat (length L)))), andb_false_r by lia.
    exists j, k, s. split; [done|]. split; [done|]. split; [done|]. split; [lia|]. intros x' y' _ Hy'.
    apply lookup_lt_Some in Hy'. lia.
Qed.

Lemma group_loop_run L b fuel i j k s : sorted_ok L -> grouping L j i k s -> (length L - Z.to_nat j < fuel)%nat ->
  exists i' k' s', group_loop b fuel L i j k s = Some (i' + 1, s') /\ grouping L (Z.of_nat (length L)) i' k' s' /\ others s' = others s.
Proof.
  intros Hok. revert i j k s. induction fuel as [|fuel IH]; intros i j k s Hg Hf; [lia|]. cbn [group_loop].
  destruct (same_loop_run L b (S (length L)) i j k s Hok Hg) as (j' & k' & s1 & E & Hg1 & Ho & Hle & Hstop); [lia|].
  rewrite (ST_bind_Some _ _ _ _ _ E). pose proof Hg1 as (gs & p & ds & po & m & x & Hj & Hx & _).
  destruct (Z.ltb_spec j' (Z.of_nat (length L))) as [Hlt|Hge].
  - destruct (lookup_lt_is_Some_2 L (Z.to_nat j')) as [y Hy]; [lia|].
    rewrite (sv_opt_run _ _ y) by (apply sorted_at_Some; [lia|done]).
    rewrite (sv_opt_run _ _ x) by (apply sorted_at_Some; [lia|done]).
    destruct Hok as (HN & Hpins & Hs).
    assert (Hpos : ACTUAL_POS x < ACTUAL_POS y).
    { pose proof (Hstop x y Hx Hy). enough (ACTUAL_POS x <= ACTUAL_POS y) by lia.
      apply (Hs (Z.to_nat (j' - 1))); [done|]. by replace (S (Z.to_nat (j' - 1))) with (Z.to_nat j') by lia. }
    destruct (grouping_new L j' i k' s1 y x Hg1 Hy Hx Hpos) as (Hib & Hkb & Hlp & Hlm & Hg2).
    { rewrite list.Forall_forall in Hpins. by eapply Hpins, list_elem_of_lookup_2. }
    edestruct (IH (i + 1) (j' + 1) (k' + 1) _ Hg2) as (i2 & k2 & s2 & E2 & Hg3 & Ho2); [lia|].
    exists i2, k2, s2. split; [|split; [done|by rewrite Ho2, <- Ho]]. rewrite <- E2.
    rewrite arr_set_run by done. rewrite arr_set_run by (change (0 <= k' + 1 < Z.of_nat (length (ports s1))); lia).
    by rewrite arr_set_run by (change (0 <= k' + 1 < Z.of_nat (length (masks s1))); lia).
  - exists i, k', s1. split; [done|]. split; [|done]. by replace (Z.of_nat (length L)) with j' by lia.
Qed.

(** *** A round of the thread *)

(** What the interrupts find: the groups of all servos, and the delays between them. *)
Record prepared (L : list SERVO) (s : servo_state) (gs : list group) : Prop := {
  pr_groups : Forall (group_ok L) gs;
  pr_all : forall x, x ∈ L -> exists g, g ∈ gs /\ fst g = ACTUAL_POS x;
  pr_some : forall g, g ∈ gs -> exists x, x ∈ L /\ ACTUAL_POS x = fst g;
  pr_incr : StronglySorted Z.lt (fst <$> gs);
  pr_pos : Forall (fun q => 0 <= q <= 255) (fst <$> gs);
  pr_len : (0 < length gs <= length L)%nat;
  pr_nruns : (length (runs gs) <= length L)%nat;
  pr_delays : exists d, starts (delays_of 0 gs ++ [d]) (delays s) /\ 0 <= d < 65536;
  pr_same : starts (run_counts gs) (same_pos s);
  pr_masks : starts (snd <$> runs gs) (masks s);
  pr_ports : starts (fst <$> runs gs) (ports s);
  pr_bits : length (same_bits s) = S (length L);
  pr_length : servo_length s = Z.of_nat (length gs);
  pr_int : int_index s = -1;
  pr_mp : masks_ports_index s = 0
}.

Section Thread.
Context (qsort : list SERVO -> list SERVO) (behind : SERVO).
Hypothesis qsort_perm : forall l, qsort l ≡ₚ l.
Hypothesis qsort_sorted : forall l n x y, qsort l !! n = Some x -> qsort l !! S n = Some y -> servo_cmp_by_pos x y <= 0.

Lemma cmp_le x y : servo_cmp_by_pos x y <= 0 -> ACTUAL_POS x <= ACTUAL_POS y.
Proof. unfold servo_cmp_by_pos. destruct (Z.eqb_spec (ACTUAL_POS x) (ACTUAL_POS y)), (Z.ltb_spec (ACTUAL_POS x) (ACTUAL_POS y)); lia. Qed.

Lemma servo_thread_run s : (0 < length (servos s) < 127)%nat -> Forall (fun x => 0 <= pin x) (servos s) ->
  length (delays s) = S (length (servos s)) -> length (masks s) = length (servos s) -> length (ports s) = length (servos s) ->
  exists s' gs, servo_thread_step qsort behind s = Some (tt, s') /\ prepared (qsort (servos s)) s' gs /\
    servos s' = servos s /\ odr s' = odr s /\ servo_event s' = false /\ length (delays s') = length (delays s) /\
    length (masks s') = length (masks s) /\ length (ports s') = length (ports s).
Proof.
  intros HN Hpins Hd Hm Hp. set (L := qsort (servos s)). pose proof (Permutation_length (qsort_perm (servos s))) as HL. fold L in HL.
  assert (Hok : sorted_ok L).
  { split; [lia|]. split; [by unfold L; rewrite qsort_perm|]. intros n x y Hx Hy. by apply cmp_le, (qsort_sorted (servos s) n). }
  destruct (L !! 0%nat) as [x|] eqn:Hx; [|apply lookup_ge_None in Hx; lia].
  assert (Hpin : 0 <= pin x) by (destruct Hok as (_ & Hf & _); rewrite list.Forall_forall in Hf; by eapply Hf, list_elem_of_lookup_2).
  unfold servo_thread_step. erewrite ST_bind_Some by reflexivity. erewrite ST_bind_Some by reflexivity. cbv zeta beta.
  change (servos (s <| servo_event := false |> <| servo_int_index := 0 |> <| masks_ports_index := 0 |>)) with (servos s). fold L.
  rewrite (sv_opt_run _ _ x) by done.
  rewrite arr_set_run by (change (0 <= 0 < Z.of_nat (length (delays s))); lia).
  rewrite arr_set_run by (change (0 <= 0 < Z.of_nat (length (masks s))); lia).
  rewrite arr_set_run by (change (0 <= 0 < Z.of_nat (length (ports s))); lia).
  erewrite ST_bind_Some by reflexivity. cbv beta. erewrite ST_bind_Some by reflexivity. cbv beta.
  match goal with |- context [length (servos ?s0)] => change (servos s0) with (servos s) end.
  match goal with |- context [mbind _ (group_loop behind _ L 0 1 0) ?s1] => set (st := s1) end.
  assert (Hg : grouping L 1 0 0 st).
  { exists [], (ACTUAL_POS x), [], (gpio x), (_BV (pin x)), x. split; [lia|]. split; [done|]. split; [done|]. split; [done|].
    split; [|split; [|split; [done|done]]].
    - replace (take (Z.to_nat 1) L) with [x]; [by apply grouped_first|]. destruct L as [|a l]; [done|]. cbn in Hx |- *. by injection Hx as ->.
    - assert (Hn : length (servos s) = length L) by lia. split.
      + cbn [app delays_of]. rewrite Z.sub_0_r. apply (starts_snoc []); [done|]. change (0 < length (delays s))%nat. lia.
      + change (replicate (S (length (servos s))) 1 = run_counts [(ACTUAL_POS x, [(gpio x, _BV (pin x))])] ++ replicate (S (length L) - 1) 1).
        rewrite Hn, Nat.sub_succ, Nat.sub_0_r. done.
      + apply (starts_snoc []); [done|]. change (0 < length (masks s))%nat. lia.
      + apply (starts_snoc []); [done|]. change (0 < length (ports s))%nat. lia.
      + rewrite <- Hn, <- Hd. apply length_insert.
      + change (length (replicate (S (length (servos s))) 1) = S (length L)). by rewrite length_replicate, Hn.
      + rewrite <- Hn, <- Hm. apply length_insert.
      + rewrite <- Hn, <- Hp. apply length_insert. }
  destruct (group_loop_run L behind (S (length (servos s))) 0 1 0 st Hok Hg) as (i & k & s1 & E & Hg1 & Ho); [lia|].
  rewrite (ST_bind_Some _ _ _ _ _ E). clear E. destruct Hg1 as (gs & p & ds & po & m & xl & Hj & Hxl & Hpl & Hpo & Hgr & Hl & Hi & Hk).
  rewrite (sv_opt_run _ _ xl).
  2: { unfold at_ix. rewrite decide_True by lia. by replace (Z.of_nat (length (servos s))) with (Z.of_nat (length L)) by lia. }
  destruct Hl as [L1 L2 L3 L4 L5 L6 L7 L8]. set (G := gs ++ [(p, ds ++ [(po, m)])]) in *.
  pose proof (gr_runs _ _ _ _ Hgr) as Hr. fold G in Hr. rewrite length_take in Hr.
  assert (HG : length G = S (length gs)) by (unfold G; rewrite length_app; cbn; lia).
  rewrite arr_set_run by lia.
  assert (Ho' : servos s1 = servos s /\ masks_ports_index s1 = 0 /\ odr s1 = odr s /\ servo_event s1 = false).
  { unfold others in Ho. by injection Ho as -> -> -> ->. }
  destruct Ho' as (O1 & O2 & O3 & O4). rewrite Nat2Z.id, take_ge in Hgr by lia.
  eexists _, G. split; [reflexivity|]. split.
  2: { split_and!; try done.
       - change (length (<[Z.to_nat (i + 1) := ACTUAL_POS xl * SERVO_CPU_FACTOR + 120]> (delays s1)) = length (delays s)).
         rewrite length_insert. lia.
       - change (length (masks s1) = length (masks s)). lia.
       - change (length (ports s1) = length (ports s)). lia. }
  split; try done; try (by destruct Hgr).
  - lia.
  - lia.
  - replace (Z.to_nat (i + 1)) with (length (delays_of 0 G)) by (rewrite delays_length; lia).
    exists (ACTUAL_POS xl * SERVO_CPU_FACTOR + 120). split.
    + apply starts_snoc; [done|]. rewrite delays_length. lia.
    + pose proof (actual_pos_range xl). unfold SERVO_CPU_FACTOR. change (_ / _) with 4. lia.
  - unfold starts. transitivity (take (length (run_counts G)) (same_pos s1)); [done|]. rewrite L2. apply take_app_length.
  - change (u8 (i + 1) = Z.of_nat (length G)). rewrite u8_id by (unfold is_u8; lia). lia.
Qed.
End Thread.

(** ** The interrupts *)

Definition high (x : SERVO) (s : servo_state) : bool := Z.testbit (port_of (gpio x) s) (pin x).

Definition clear_run (o : gmap Z Z) (m : Z * Z) : gmap Z Z := <[m.1 := Z.land (default 0 (o !! m.1)) (Z.lnot m.2)]> o.

Lemma clear_runs_bit ms o port bit : 0 <= bit ->
  Z.testbit (default 0 (foldl clear_run o ms !! port)) bit = true <->
  Z.testbit (default 0 (o !! port)) bit = true /\ ~ clears ms port bit.
Proof.
  intros Hb. revert o. induction ms as [|[q m] ms IH]; intros o; cbn [foldl].
  { unfold clears. split; [intros H; split; [done|intros (m & Hm & _); by apply elem_of_nil in Hm]|by intros [? _]]. }
  rewrite IH. change ((q, m) :: ms) with ([(q, m)] ++ ms). rewrite clears_app, clears_single. unfold clear_run. cbn [fst snd].
  destruct (decide (q = port)) as [->|Hq].
  - rewrite lookup_insert_eq. cbn [default]. change (id ?z) with z. rewrite Z.land_spec, Z.lnot_spec, andb_true_iff, negb_true_iff by done.
    destruct (Z.testbit m bit); intuition congruence.
  - rewrite lookup_insert_ne by done. intuition congruence.
Qed.

(** Between two interrupts: the first [n] groups have ended. *)
Record ending (N : nat) (gs : list group) (n : nat) (s : servo_state) : Prop := {
  en_int : int_index s = Z.of_nat n;
  en_mp : masks_ports_index s = Z.of_nat (length (runs (take n gs)));
  en_small : (length gs <= N)%nat /\ (length (runs gs) <= N)%nat /\ (N < 127)%nat;
  en_len : servo_length s = Z.of_nat (length gs);
  en_same : forall q g, (n <= q)%nat -> gs !! q = Some g -> same_pos s !! q = Some (Z.of_nat (length (snd g)));
  en_masks : starts (snd <$> runs gs) (masks s);
  en_ports : starts (fst <$> runs gs) (ports s);
  en_bits : length (same_bits s) = S N
}.

Definition constants (s : servo_state) := (servos s, delays s, masks s, ports s, servo_length s, servo_event s, SERVO_CNT_TOP s).

Lemma end_pulses_run N ms : forall fuel c i s,
  int_index s = i -> 0 <= i -> same_pos s !! Z.to_nat i = Some (Z.of_nat (length ms)) -> (length ms < fuel)%nat -> (c + length ms < 128)%nat ->
  (c + length ms <= N)%nat -> length (same_bits s) = S N ->
  masks_ports_index s = Z.of_nat c -> (forall q m, ms !! q = Some m -> ports s !! (c + q)%nat = Some m.1 /\ masks s !! (c + q)%nat = Some m.2) ->
  exists s', end_pulses fuel s = Some (tt, s') /\ odr s' = foldl clear_run (odr s) ms /\
    masks_ports_index s' = Z.of_nat (c + length ms) /\ int_index s' = i /\ same_bits s' = same_bits s /\
    same_pos s' = <[Z.to_nat i := 255]> (same_pos s) /\ constants s' = constants s.
Proof.
  induction ms as [|[po m] ms IH]; intros fuel c i s Hi H0 Hs Hf Hc HN Hb Hmp Hpm; (destruct fuel as [|fuel]; [cbn in Hf; lia|]); cbn [end_pulses].
  - erewrite ST_bind_Some by reflexivity. cbv beta. rewrite Hi.
    rewrite (arr_get_run _ _ 0) by (unfold at_ix; by rewrite decide_True by lia).
    rewrite arr_set_run by (apply lookup_lt_Some in Hs; lia). change (u8 (0 - 1)) with 255. change (0 =? 0) with true. cbv iota.
    eexists. split; [reflexivity|]. rewrite Nat.add_0_r. by split_and!.
  - erewrite ST_bind_Some by reflexivity. cbv beta. rewrite Hi. cbn [length] in *.
    rewrite (arr_get_run _ _ (Z.of_nat (S (length ms)))) by (unfold at_ix; by rewrite decide_True by lia).
    rewrite arr_set_run by (apply lookup_lt_Some in Hs; lia).
    destruct (Z.eqb_spec (Z.of_nat (S (length ms))) 0); [lia|]. cbv iota.
    erewrite ST_bind_Some by reflexivity. cbv beta.
    destruct (Hpm 0%nat (po, m) eq_refl) as [Hp0 Hm0]. rewrite Nat.add_0_r in Hp0, Hm0. cbn [fst snd] in Hp0, Hm0.
    rewrite (arr_get_run _ _ po).
    2: { change (ports s !!? masks_ports_index s = Some po). rewrite Hmp. by rewrite at_ix_lookup. }
    rewrite (arr_get_run _ _ m).
    2: { change (masks s !!? masks_ports_index s = Some m). rewrite Hmp. by rewrite at_ix_lookup. }
    erewrite ST_bind_Some by reflexivity. cbv beta.
    destruct (at_ix_Some (same_bits s) (Z.of_nat c)) as [nb Hnb]; [lia|].
    rewrite (arr_get_run _ _ nb).
    2: { change (same_bits s !!? masks_ports_index s = Some nb). by rewrite Hmp. }
    erewrite ST_bind_Some by reflexivity. cbv beta.
    match goal with |- context [end_pulses fuel ?s1] => set (s1' := s1) end.
    destruct (IH fuel (S c) i s1') as (s' & E & Ho & Hmp' & Hi' & Hb' & Hs' & Hk); try done; try lia.
    + change (<[Z.to_nat i := u8 (Z.of_nat (S (length ms)) - 1)]> (same_pos s) !! Z.to_nat i = Some (Z.of_nat (length ms))).
      rewrite list_lookup_insert_eq by (by apply lookup_lt_Some in Hs). rewrite u8_id by (unfold is_u8; lia). f_equal. lia.
    + change (i8 (masks_ports_index s + 1) = Z.of_nat (S c)). rewrite Hmp. unfold i8. rewrite Z.mod_small; lia.
    + intros q m' Hq. replace (S c + q)%nat with (c + S q)%nat by lia. by apply (Hpm (S q)).
    + exists s'. split; [exact E|]. split; [exact Ho|]. split; [rewrite Hmp'; f_equal; lia|]. split; [done|]. split; [done|].
      split; [|done]. rewrite Hs'. change (same_pos s1') with (<[Z.to_nat i := u8 (Z.of_nat (S (length ms)) - 1)]> (same_pos s)).
      by rewrite list_insert_insert_eq.
Qed.

Lemma runs_take gs n g : gs !! n = Some g -> runs (take (S n) gs) = runs (take n gs) ++ snd g.
Proof.
  intros Hg. rewrite (take_S_r _ _ g) by done. unfold runs. rewrite fmap_app, concat_app. cbn. by rewrite app_nil_r.
Qed.

Lemma runs_split gs n g : gs !! n = Some g -> runs gs = runs (take n gs) ++ snd g ++ runs (drop (S n) gs).
Proof.
  intros Hg. transitivity (runs (take n gs ++ g :: drop (S n) gs)); [by rewrite take_drop_middle|].
  unfold runs. by rewrite fmap_app, concat_app.
Qed.

Lemma runs_lookup gs n g q m : gs !! n = Some g -> snd g !! q = Some m ->
  runs gs !! (length (runs (take n gs)) + q)%nat = Some m.
Proof.
  intros Hg Hm. rewrite (runs_split gs n g Hg), lookup_app_r by lia.
  replace (_ + q - _)%nat with q by lia. by apply lookup_app_l_Some.
Qed.

Lemma runs_take_length gs n g : gs !! n = Some g -> (length (runs (take n gs)) + length (snd g) <= length (runs gs))%nat.
Proof. intros Hg. rewrite (runs_split gs n g Hg), !length_app. lia. Qed.

(** The interrupt that ends group [n]. *)
Lemma servo_irq_group N gs n g d s : ending N gs n s -> gs !! n = Some g -> delays s !! S n = Some d -> is_u16 d ->
  exists s', servo_irq s = Some (tt, s') /\ ending N gs (S n) s' /\ odr s' = foldl clear_run (odr s) (snd g) /\
    SERVO_CNT_TOP s' = d /\ servos s' = servos s /\ delays s' = delays s /\ servo_event s' = servo_event s /\
    length (masks s') = length (masks s) /\ length (ports s') = length (ports s).
Proof.
  intros [E1 E2 (S1 & S2 & S3) E3 E4 E5 E6 E7] Hg Hd Hu. pose proof (lookup_lt_Some _ _ _ Hg) as Hn.
  pose proof (runs_take_length gs n g Hg) as Hrl.
  unfold servo_irq. erewrite ST_bind_Some by reflexivity. cbv beta. rewrite E1, (proj2 (Z.ltb_ge (Z.of_nat n) 0)) by lia. cbv iota.
  erewrite ST_bind_Some by reflexivity. cbv beta. rewrite E3, (proj2 (Z.eqb_neq (Z.of_nat n) (Z.of_nat (length gs)))) by lia. cbv iota.
  destruct (end_pulses_run N (snd g) 257 (length (runs (take n gs))) (Z.of_nat n) s) as (s1 & E & Ho & Hmp & Hi & Hb & Hs & Hk); try done; try lia.
  - rewrite Nat2Z.id. by apply E4.
  - intros q m Hq. pose proof (runs_lookup gs n g q m Hg Hq) as Hr. split.
    + apply (starts_lookup (fst <$> runs gs)); [done|]. by rewrite list_lookup_fmap, Hr.
    + apply (starts_lookup (snd <$> runs gs)); [done|]. by rewrite list_lookup_fmap, Hr.
  - rewrite (ST_bind_Some _ _ _ _ _ E). clear E.
    unfold constants in Hk. injection Hk as K1 K2 K3 K4 K5 K6 K7.
    erewrite ST_bind_Some by reflexivity. cbv beta. erewrite ST_bind_Some by reflexivity. cbv beta.
    assert (Hi8 : i8 (int_index s1 + 1) = Z.of_nat (S n)) by (rewrite Hi; unfold i8; rewrite Z.mod_small; lia).
    rewrite (arr_get_run _ _ d).
    2: { change (delays s1 !!? i8 (int_index s1 + 1) = Some d). rewrite Hi8, at_ix_lookup. by rewrite K2. }
    eexists. split; [reflexivity|]. split; [|split_and!; try done; [|by rewrite <- K3|by rewrite <- K4]].
    + split; try done.
      * rewrite (runs_take _ _ g) by done. rewrite length_app. exact Hmp.
      * change (servo_length s1 = Z.of_nat (length gs)). by rewrite K5.
      * intros q g' Hq Hg'. change (same_pos s1 !! q = Some (Z.of_nat (length g'.2))).
        rewrite Hs, Nat2Z.id, list_lookup_insert_ne by lia. apply E4; [lia|done].
      * change (starts (snd <$> runs gs) (masks s1)). by rewrite K3.
      * change (starts (fst <$> runs gs) (ports s1)). by rewrite K4.
      * change (length (same_bits s1) = S N). by rewrite Hb.
    + change (u16 d = d). by apply u16_id.
Qed.

(** The interrupt that starts the pulses. *)
Lemma start_pulse_run s : exists o, servo_start_pulse s = Some (tt, s <| odr := o |>) /\
  (Forall (fun x => 0 <= pin x) (servos s) -> forall x, x ∈ servos s -> Z.testbit (default 0 (o !! gpio x)) (pin x) = true).
Proof.
  unfold servo_start_pulse. erewrite ST_bind_Some by reflexivity.
  assert (H : forall l (t : servo_state), exists o, sv_each l (fun x => palSetPad (gpio x) (pin x)) t = Some (tt, t <| odr := o |>) /\
    (Forall (fun x => 0 <= pin x) l -> forall q b, 0 <= b ->
       Z.testbit (port_of q t) b = true \/ (exists x, x ∈ l /\ gpio x = q /\ pin x = b) -> Z.testbit (default 0 (o !! q)) b = true)).
  { induction l as [|x l IH]; intros t; cbn [sv_each].
    - exists (odr t). split; [by destruct t|]. intros _ q b _ [?|(x & Hx & _)]; [done|by apply elem_of_nil in Hx].
    - erewrite ST_bind_Some by reflexivity.
      destruct (IH (t <| odr := <[gpio x := Z.lor (port_of (gpio x) t) (_BV (pin x))]> (odr t) |>)) as (o & E & Ho).
      exists o. split; [exact E|]. intros [Hpx Hpl]%Forall_cons_1 q b Hb Hq. apply (Ho Hpl q b Hb).
      unfold port_of at 1. change (odr (t <| odr := ?o |>)) with o.
      destruct (decide (gpio x = q)) as [<-|Hne].
      + rewrite lookup_insert_eq. cbn [default]. change (id ?z) with z. rewrite Z.lor_spec, bv_bit by done.
        destruct Hq as [->|(y & [->|Hy]%elem_of_cons & Hyq & Hyb)]; [by left| |].
        * left. rewrite bool_decide_true by done. apply orb_true_r.
        * right. by exists y.
      + rewrite lookup_insert_ne by done. destruct Hq as [Hq|(y & [->|Hy]%elem_of_cons & Hyq & Hyb)]; [by left|done|right; by exists y]. }
  destruct (H (servos s) s) as (o & E & Ho). exists o. split; [exact E|]. intros Hp x Hx. apply (Ho Hp).
  - rewrite list.Forall_forall in Hp. by apply Hp.
  - right. by exists x.
Qed.

(** ** A period *)

Definition cpu_factor : SERVO_CPU_FACTOR = 4 := eq_refl.
Definition start_offset : SERVO_START_OFFSET = 1000 := eq_refl.

Lemma strongly_sorted_lookup l i j x y :
  StronglySorted Z.lt l -> l !! i = Some x -> l !! j = Some y -> (i < j)%nat -> x < y.
Proof.
  intros Hs. revert i j. induction Hs as [|a l Hs IH Hf]; intros i j Hi Hj Hij; [done|].
  destruct j as [|j]; [lia|]. destruct i as [|i]; cbn in Hi, Hj.
  - injection Hi as ->. rewrite list.Forall_forall in Hf. by eapply Hf, list_elem_of_lookup_2.
  - by apply (IH i j); [..|lia].
Qed.

Lemma delays_of_0 prev gs g : gs !! 0%nat = Some g -> delays_of prev gs !! 0%nat = Some ((fst g - prev) * SERVO_CPU_FACTOR).
Proof. destruct gs as [|[p ms] gs]; [done|]. by intros [= <-]. Qed.
Lemma delays_of_S prev gs n g g' : gs !! n = Some g -> gs !! S n = Some g' ->
  delays_of prev gs !! S n = Some ((fst g' - fst g) * SERVO_CPU_FACTOR).
Proof.
  revert prev n. induction gs as [|[p ms] gs IH]; intros prev n Hg Hg'; [done|]. cbn in Hg'. destruct n as [|n].
  - injection Hg as <-. cbn. by apply delays_of_0.
  - cbn in Hg |- *. by apply IH.
Qed.

(** The ticks from one interrupt to the next: the timer counts up from 0 to its
    reload value and the update is one tick after that. *)
Definition timer_period (s : servo_state) : Z := SERVO_CNT_TOP s + 1.

(** The time from the start of the pulses to the end of the first [n] groups:
    the last tick of each period is on top of what the thread computed. *)
Definition end_time (gs : list group) (n : nat) : Z :=
  match n with
  | O => 0
  | S n => SERVO_START_OFFSET + SERVO_CPU_FACTOR * default 0 (fst <$> gs !! n) + Z.of_nat (S n)
  end.

(** [n] interrupts after the first, the time since the first and the state. *)
Fixpoint servo_run (n : nat) (s : servo_state) : option (Z * servo_state) :=
  match n with
  | O => '(_, s) ← servo_irq s; Some (0, s)
  | S n => '(t, s) ← servo_run n s; '(_, s') ← servo_irq s; Some (t + timer_period s, s')
  end.

(** A pin for each servo, and arrays of the right length. *)
Record servo_wf (s : servo_state) : Prop := {
  wf_servos : (0 < length (servos s) < 127)%nat;
  wf_pins : Forall (fun x => 0 <= pin x) (servos s);
  wf_distinct : NoDup ((fun x => (gpio x, pin x)) <$> servos s);
  wf_delays : length (delays s) = S (length (servos s));
  wf_masks : length (masks s) = length (servos s);
  wf_ports : length (ports s) = length (servos s)
}.

(** After [n] groups, at time [t]. *)
Record period (l : list SERVO) (gs : list group) (n : nat) (t : Z) (s : servo_state) : Prop := {
  pe_ending : ending (length l) gs n s;
  pe_servos : servos s = l;
  pe_wf : servo_wf s;
  pe_time : t = end_time gs n;
  pe_next : (n < length gs)%nat -> t + timer_period s = end_time gs (S n);
  pe_event : servo_event s = false;
  pe_delays : exists d, starts (delays_of 0 gs ++ [d]) (delays s) /\ 0 <= d < 65536;
  pe_high : forall x, x ∈ l -> high x s = true <-> forall g, g ∈ take n gs -> fst g <> ACTUAL_POS x
}.

Lemma clears_own l g x : NoDup ((fun x => (gpio x, pin x)) <$> l) -> Forall (fun x => 0 <= pin x) l ->
  group_ok l g -> x ∈ l -> clears (snd g) (gpio x) (pin x) <-> fst g = ACTUAL_POS x.
Proof.
  intros Hnd Hp Hg Hx. rewrite list.Forall_forall in Hp. rewrite (Hg _ _ (Hp x Hx)). split.
  - intros (y & Hy & Hpos & He1 & He2). enough (y = x) as -> by done.
    apply list_elem_of_lookup in Hx as [i Hi]. apply list_elem_of_lookup in Hy as [j Hj].
    assert (i = j) as ->; [|congruence]. apply (NoDup_lookup _ _ _ (gpio x, pin x) Hnd).
    + by rewrite list_lookup_fmap, Hi.
    + rewrite list_lookup_fmap, Hj. cbn. congruence.
  - intros He. by exists x.
Qed.

Section Period.
Context (l : list SERVO) (gs : list group).
Hypothesis groups : Forall (group_ok l) gs.
Hypothesis incr : StronglySorted Z.lt (fst <$> gs).
Hypothesis positions : Forall (fun q => 0 <= q <= 255) (fst <$> gs).

Lemma position_of n g : gs !! n = Some g -> 0 <= fst g <= 255.
Proof.
  intros Hg. rewrite list.Forall_forall in positions. apply positions. apply list_elem_of_fmap_2.
  by eapply list_elem_of_lookup_2.
Qed.

Lemma period_step n t s : period l gs n t s -> (n < length gs)%nat ->
  exists s', servo_irq s = Some (tt, s') /\ period l gs (S n) (t + timer_period s) s'.
Proof.
  intros [He Hl [W1 W2 W3 W4 W5 W6] Ht Hn Hev (d & Hd & Hdr) Hh] Hlt.
  destruct (lookup_lt_is_Some_2 gs n Hlt) as [g Hg].
  assert (Hdn : exists d', delays s !! S n = Some d' /\ is_u16 d' /\
    ((S n < length gs)%nat -> end_time gs (S n) + (d' + 1) = end_time gs (S (S n)))).
  { destruct (gs !! S n) as [g'|] eqn:Hg'.
    - exists ((fst g' - fst g) * SERVO_CPU_FACTOR). pose proof (position_of _ _ Hg). pose proof (position_of _ _ Hg').
      assert (fst g < fst g') by (apply (strongly_sorted_lookup _ n (S n) _ _ incr); [by rewrite list_lookup_fmap, ?Hg, ?Hg'..|lia]).
      split; [|split].
      + apply (starts_lookup (delays_of 0 gs)); [by apply (starts_init _ _ d)|by apply delays_of_S].
      + rewrite cpu_factor. unfold is_u16. lia.
      + intros _. unfold end_time. rewrite Hg, Hg'. cbn. lia.
    - exists d. apply lookup_ge_None in Hg'. split; [|split; [done|lia]].
      apply (starts_lookup _ _ _ _ Hd). rewrite <- (lookup_last (delays_of 0 gs) d). f_equal. rewrite delays_length. lia. }
  destruct Hdn as (d' & Hd' & Hu & Htime).
  destruct (servo_irq_group _ _ _ _ _ _ He Hg Hd' Hu) as (s' & E & He' & Ho & Htop & Hs & Hds & Hev' & Lm & Lp).
  exists s'. split; [exact E|]. specialize (Hn Hlt). split.
  - exact He'.
  - by rewrite Hs.
  - split; rewrite ?Hs, ?Hds, ?Lm, ?Lp; done.
  - done.
  - intros Hlt'. change (timer_period s') with (SERVO_CNT_TOP s' + 1). rewrite Htop, Hn. by apply Htime.
  - by rewrite Hev'.
  - exists d. by rewrite Hds.
  - intros x Hx. unfold high, port_of. rewrite Ho, clear_runs_bit.
    2: { rewrite list.Forall_forall in W2. apply W2. by rewrite Hl. }
    rewrite (clears_own l g x) by (rewrite ?Hl in *; try done; rewrite list.Forall_forall in groups; by eapply groups, list_elem_of_lookup_2).
    specialize (Hh x Hx). unfold high, port_of in Hh. rewrite Hh, (take_S_r _ _ g) by done. split.
    + intros [H1 H2] g' [Hin|Hin%list_elem_of_singleton]%elem_of_app; [by apply H1|]. by subst g'.
    + intros H1. split; [intros g' Hin; apply H1, elem_of_app; by left|]. apply H1, elem_of_app. right. by apply list_elem_of_singleton.
Qed.
End Period.

Lemma group_ok_perm l l' g : l ≡ₚ l' -> group_ok l g -> group_ok l' g.
Proof.
  intros Hp Hg port bit Hb. rewrite (Hg port bit Hb).
  split; intros (x & Hx & He); exists x; (split; [|done]); [by rewrite <- Hp|by rewrite Hp].
Qed.

Lemma period_start L s gs : prepared L s gs -> L ≡ₚ servos s -> servo_wf s -> servo_event s = false ->
  exists s', servo_irq s = Some (tt, s') /\ period (servos s) gs 0 0 s'.
Proof.
  intros [G1 G2 _ G3 G4 G5 G6 (d & G7 & G7') G8 G9 G10 G11 G12 G13 G14] HL [W1 W2 W3 W4 W5 W6] Hev.
  pose proof (Permutation_length HL) as Hlen.
  unfold servo_irq. erewrite ST_bind_Some by reflexivity. cbv beta. rewrite G13. change (-1 <? 0) with true. cbv iota.
  destruct (start_pulse_run s) as (o & E & Ho). rewrite (ST_bind_Some _ _ _ _ _ E).
  destruct (lookup_lt_is_Some_2 gs 0) as [g Hg]; [lia|].
  assert (Hd : delays s !! 0%nat = Some ((fst g - 0) * SERVO_CPU_FACTOR)).
  { apply (starts_lookup (delays_of 0 gs)); [by apply (starts_init _ _ d)|by apply delays_of_0]. }
  pose proof (position_of gs G4 0 g Hg) as Hpos.
  rewrite (arr_get_run _ _ ((fst g - 0) * SERVO_CPU_FACTOR)) by exact Hd.
  eexists. split; [reflexivity|]. split; try done.
  - split; try done.
    + lia.
    + intros q g' _ Hg'. apply (starts_lookup _ _ _ _ G8). unfold run_counts. by rewrite list_lookup_fmap, Hg'.
    + change (length (same_bits s) = S (length (servos s))). lia.
  - intros _. change (0 + (u16 (SERVO_START_OFFSET + (fst g - 0) * SERVO_CPU_FACTOR) + 1) = end_time gs 1).
    unfold end_time. rewrite Hg, start_offset, cpu_factor. cbn [fmap option_fmap option_map default].
    rewrite u16_id by (unfold is_u16; lia). change (id ?z) with z. lia.
  - by exists d.
  - intros x Hx. split; [intros _ g' Hg'; by apply elem_of_nil in Hg'|]. intros _. apply (Ho W2 x Hx).
Qed.

Lemma servo_run_S n s t s1 s2 : servo_run n s = Some (t, s1) -> servo_irq s1 = Some (tt, s2) ->
  servo_run (S n) s = Some (t + timer_period s1, s2).
Proof. intros H1 H2. cbn. rewrite H1. cbn. by rewrite H2. Qed.

(** After all groups the timer runs on and the thread is signalled. *)
Lemma period_end l gs t s : period l gs (length gs) t s ->
  exists s', servo_irq s = Some (tt, s') /\ servo_event s' = true /\ servo_wf s' /\ servos s' = l /\ odr s' = odr s.
Proof.
  intros [[E1 _ _ E4 _ _ _ _] Hl Hwf _ _ _ _ _]. unfold servo_irq. erewrite ST_bind_Some by reflexivity. cbv beta.
  rewrite E1, (proj2 (Z.ltb_ge (Z.of_nat (length gs)) 0)) by lia. cbv iota. erewrite ST_bind_Some by reflexivity. cbv beta.
  rewrite E4, Z.eqb_refl. cbv iota. eexists. split; [reflexivity|]. split; [done|]. split; [|done].
  destruct Hwf. by split.
Qed.

(** The interrupts up to the end of the last group, and the one after it. *)
Lemma period_runs L s gs : prepared L s gs -> L ≡ₚ servos s -> servo_wf s -> servo_event s = false ->
  Forall (group_ok (servos s)) gs ->
  (forall n, (n <= length gs)%nat -> exists t s2, servo_run n s = Some (t, s2) /\ period (servos s) gs n t s2) /\
  (exists t s2, servo_run (S (length gs)) s = Some (t, s2) /\ servo_event s2 = true /\ servo_wf s2 /\ servos s2 = servos s).
Proof.
  intros Hpr HL Hwf Hev Hgr. pose proof Hpr as [_ _ _ G3 G4 _ _ _ _ _ _ _ _ _ _].
  assert (Hrun : forall n, (n <= length gs)%nat -> exists t s2, servo_run n s = Some (t, s2) /\ period (servos s) gs n t s2).
  { induction n as [|n IH]; intros Hn.
    - destruct (period_start _ _ _ Hpr) as (s2 & E2 & Hp); [done..|]. exists 0, s2. cbn. by rewrite E2.
    - destruct IH as (t & s2 & E2 & Hp); [lia|].
      destruct (period_step _ _ Hgr G3 G4 n t s2 Hp) as (s3 & E3 & Hp3); [lia|].
      exists (t + timer_period s2), s3. split; [by apply servo_run_S|done]. }
  split; [done|]. destruct (Hrun (length gs)) as (t & s2 & E2 & Hp); [lia|].
  destruct (period_end _ _ _ _ Hp) as (s3 & E3 & Hev3 & Hwf3 & Hs3 & _).
  exists (t + timer_period s2), s3. split; [by apply servo_run_S|done].
Qed.

(** When the output of a servo of group [q] is high. *)
Lemma period_high l gs n t s x q g : StronglySorted Z.lt (fst <$> gs) -> Forall (fun p => 0 <= p <= 255) (fst <$> gs) ->
  gs !! q = Some g -> fst g = ACTUAL_POS x -> (n <= length gs)%nat -> period l gs n t s -> x ∈ l ->
  high x s = bool_decide (t < end_time gs (S q)).
Proof.
  intros Hi Hps Hq Hgx Hn Hp Hx.
  assert (Hinc : forall a b ga gb, gs !! a = Some ga -> gs !! b = Some gb -> (a < b)%nat -> fst ga < fst gb).
  { intros a b ga gb Ha Hb Hab.
    apply (strongly_sorted_lookup _ a b _ _ Hi); [by rewrite list_lookup_fmap, ?Ha, ?Hb..|done]. }
  assert (Hlow : (forall g, g ∈ take n gs -> fst g <> ACTUAL_POS x) <-> (n <= q)%nat).
  { split.
    - intros H. destruct (decide (n <= q)%nat) as [?|Hlt]; [done|]. exfalso. apply (H g); [|done].
      apply (list_elem_of_lookup_2 _ q). rewrite lookup_take_lt by lia. done.
    - intros Hle g' Hg' He. apply list_elem_of_lookup in Hg' as [j Hj]. pose proof (lookup_lt_Some _ _ _ Hj) as Hjn.
      rewrite length_take in Hjn. rewrite lookup_take_lt in Hj by lia.
      specialize (Hinc _ _ _ _ Hj Hq). lia. }
  pose proof (pe_high _ _ _ _ _ Hp x Hx) as Hh. rewrite Hlow in Hh. rewrite (pe_time _ _ _ _ _ Hp).
  apply eq_iff_eq_true. rewrite Hh, bool_decide_eq_true. unfold end_time. rewrite Hq.
  rewrite start_offset, cpu_factor. cbn [fmap option_fmap option_map default]. change (id ?z) with z.
  assert (Hpos : 0 <= fst g) by (rewrite Hgx; apply actual_pos_range).
  destruct n as [|n]; [lia|]. destruct (lookup_lt_is_Some_2 gs n) as [g' Hg']; [lia|]. rewrite Hg'.
  cbn [fmap option_fmap option_map default]. change (id ?z) with z. split; intros H.
  - specialize (Hinc _ _ _ _ Hg' Hq). lia.
  - destruct (decide (S n <= q)%nat) as [?|Hlt]; [done|]. exfalso. destruct (decide (q = n)) as [->|Hne].
    + rewrite Hg' in Hq. injection Hq as ->. lia.
    + specialize (Hinc _ _ _ _ Hq Hg'). lia.
Qed.

(** ** The length of a pulse *)

(** The different positions of the servos up to a position. *)
Definition positions_up_to (l : list SERVO) (p : Z) : list Z :=
  remove_dups (filter (fun q => q <= p) (ACTUAL_POS <$> l)).

(** What the position asks for, and one tick for every group up to the servo's own. *)
Definition pulse_length (l : list SERVO) (x : SERVO) : Z :=
  SERVO_START_OFFSET + SERVO_CPU_FACTOR * ACTUAL_POS x + Z.of_nat (length (positions_up_to l (ACTUAL_POS x))).

Lemma positions_of_groups l (gs : list group) q g :
  (forall x, x ∈ l -> exists g, g ∈ gs /\ fst g = ACTUAL_POS x) ->
  (forall g, g ∈ gs -> exists x, x ∈ l /\ ACTUAL_POS x = fst g) ->
  StronglySorted Z.lt (fst <$> gs) -> gs !! q = Some g ->
  length (positions_up_to l (fst g)) = S q.
Proof.
  intros Hall Hsome Hi Hq. pose proof (lookup_lt_Some _ _ _ Hq) as Hlt.
  assert (Hinc : forall a b ga gb, gs !! a = Some ga -> gs !! b = Some gb -> (a < b)%nat -> fst ga < fst gb).
  { intros a b ga gb Ha Hb Hab.
    apply (strongly_sorted_lookup _ a b _ _ Hi); [by rewrite list_lookup_fmap, ?Ha, ?Hb..|done]. }
  assert (Hperm : positions_up_to l (fst g) ≡ₚ fst <$> take (S q) gs).
  { apply NoDup_Permutation; [apply NoDup_remove_dups| |].
    - apply NoDup_alt. intros a b z Ha Hb. rewrite list_lookup_fmap in Ha, Hb.
      apply fmap_Some in Ha as (ga & Ha & ->), Hb as (gb & Hb & Heq).
      apply lookup_take_Some in Ha as [Ha _], Hb as [Hb _].
      destruct (Nat.lt_trichotomy a b) as [H|[H|H]]; [|done|];
        [specialize (Hinc _ _ _ _ Ha Hb H)|specialize (Hinc _ _ _ _ Hb Ha H)]; lia.
    - intros z. unfold positions_up_to. rewrite elem_of_remove_dups, list_elem_of_filter, !list_elem_of_fmap. split.
      + intros [Hz (x & -> & Hx)]. destruct (Hall x Hx) as (g' & Hg' & He). exists g'. split; [done|].
        apply list_elem_of_lookup in Hg' as [a Ha]. apply list_elem_of_lookup. exists a. apply lookup_take_Some.
        split; [done|]. destruct (decide (a < S q)%nat) as [?|Hge]; [done|].
        assert (q < a)%nat as H by lia. specialize (Hinc _ _ _ _ Hq Ha H). lia.
      + intros (g' & -> & [a [Ha Hlt']%lookup_take_Some]%list_elem_of_lookup).
        destruct (Hsome g') as (x & Hx & He); [by eapply list_elem_of_lookup_2|]. split; [|by exists x].
        destruct (decide (a = q)) as [->|Hne]; [by rewrite Hq in Ha; injection Ha as ->|].
        assert (a < q)%nat as H by lia. specialize (Hinc _ _ _ _ Ha Hq H). lia. }
  rewrite Hperm, length_fmap, length_take. lia.
Qed.

(** C30. With any qsort that sorts, and a driver in any well-formed state:
    after one round of the thread the timer interrupts keep the output of
    every servo high for its start offset plus its position, and one tick
    more for each different position up to its own, since a period of the
    timer is a tick longer than its reload value; servos with equal
    positions and on different ports included. After the last group the
    thread is woken and the driver is well formed again. *)
Theorem servo_pulse_lengths (qsort : list SERVO -> list SERVO) (behind : SERVO) s :
  (forall l, qsort l ≡ₚ l) ->
  (forall l n x y, qsort l !! n = Some x -> qsort l !! S n = Some y -> servo_cmp_by_pos x y <= 0) ->
  servo_wf s ->
  exists s1 N, servo_thread_step qsort behind s = Some (tt, s1) /\ (N <= length (servos s))%nat /\
    (forall n, (n <= N)%nat -> exists t s2, servo_run n s1 = Some (t, s2) /\ servo_event s2 = false /\
       forall x, x ∈ servos s -> high x s2 = bool_decide (t < pulse_length (servos s) x)) /\
    (forall x, x ∈ servos s -> exists n s2, (n <= N)%nat /\
       servo_run n s1 = Some (pulse_length (servos s) x, s2)) /\
    (exists t s2, servo_run (S N) s1 = Some (t, s2) /\ servo_event s2 = true /\ servo_wf s2 /\ servos s2 = servos s).
Proof.
  intros Hperm Hsort Hwf. pose proof Hwf as [W1 W2 W3 W4 W5 W6].
  destruct (servo_thread_run qsort behind Hperm Hsort s W1 W2 W4 W5 W6) as (s1 & gs & E & Hpr & Hsv & Ho & Hev & Hd1 & Hm1 & Hp1).
  pose proof Hpr as [G1 G2 Gs G3 G4 G5 G6 _ _ _ _ _ _ _ _]. pose proof (Hperm (servos s)) as HL.
  assert (Hwf1 : servo_wf s1) by (split; rewrite ?Hsv, ?Hd1, ?Hm1, ?Hp1; done).
  assert (Hall : forall x, x ∈ servos s -> exists g, g ∈ gs /\ fst g = ACTUAL_POS x) by (intros x Hx; apply G2; by rewrite HL).
  assert (Hsome : forall g, g ∈ gs -> exists x, x ∈ servos s /\ ACTUAL_POS x = fst g)
    by (intros g Hg; destruct (Gs g Hg) as (x & Hx & He); exists x; by rewrite <- HL).
  assert (Hgr : Forall (group_ok (servos s)) gs) by (revert G1; apply Forall_impl; intros g; by apply group_ok_perm).
  rewrite <- Hsv in Hgr, Hall, Hsome.
  destruct (period_runs _ _ _ Hpr) as [Hrun Hlast]; [by rewrite Hsv|done..|].
  assert (Hlen : forall x, x ∈ servos s1 -> exists q g, gs !! q = Some g /\ fst g = ACTUAL_POS x /\
    pulse_length (servos s1) x = end_time gs (S q)).
  { intros x Hx. destruct (Hall x Hx) as (g & [q Hq]%list_elem_of_lookup & Hgx). exists q, g. split; [done|]. split; [done|].
    unfold pulse_length, end_time. rewrite <- Hgx, (positions_of_groups _ _ _ _ Hall Hsome G3 Hq), Hq. done. }
  pose proof (Permutation_length HL) as HlenL. exists s1, (length gs). split; [done|]. split; [lia|]. rewrite <- Hsv.
  split; [|split; [|done]].
  - intros n Hn. destruct (Hrun n Hn) as (t & s2 & E2 & Hp). exists t, s2. split; [done|]. split; [apply Hp|].
    intros x Hx. destruct (Hlen x Hx) as (q & g & Hq & Hgx & ->). by apply (period_high (servos s1) gs n t s2 x q g).
  - intros x Hx. destruct (Hlen x Hx) as (q & g & Hq & Hgx & ->).
    pose proof (lookup_lt_Some _ _ _ Hq) as Hql. destruct (Hrun (S q)) as (t & s2 & E2 & Hp); [lia|]. exists (S q), s2. split; [lia|].
    by rewrite E2, (pe_time _ _ _ _ _ Hp).
Qed.

(** ** Witness *)

Definition le_pos (a b : SERVO) : Prop := ACTUAL_POS a <= ACTUAL_POS b.
#[export] Instance le_pos_dec a b : Decision (le_pos a b).
Proof. unfold le_pos. apply _. Defined.
#[export] Instance le_pos_total : Total le_pos.
Proof. intros a b. unfold le_pos. lia. Qed.
Definition sort_servos : list SERVO -> list SERVO := merge_sort le_pos.

Lemma sorted_neighbours l n x y : Sorted le_pos l -> l !! n = Some x -> l !! S n = Some y -> le_pos x y.
Proof.
  intros Hs. revert n. induction Hs as [|a l Hs IH Hh]; intros n Hx Hy; [done|]. destruct n as [|n].
  - cbn in Hx, Hy. injection Hx as ->. destruct Hh; [done|]. cbn in Hy. by injection Hy as ->.
  - by apply (IH n).
Qed.

(** Two servos at one position on one port, a third there on another port, and one beyond the end. *)
Definition servos4 : servo_state :=
  mkServos [mkServo 10 0 1 3; mkServo 300 0 1 7; mkServo 5 5 1 2; mkServo 10 0 2 4] 0 0 0 1 (replicate 5 0) [] [] (replicate 4 0)
    (replicate 4 0) 0 0 true ∅.

Lemma servo_pulse_lengths_witness : exists s1 n s2,
  servo_thread_step sort_servos (mkServo 0 0 0 0) servos4 = Some (tt, s1) /\ servo_run n s1 = Some (1041, s2).
Proof.
  destruct (servo_pulse_lengths sort_servos (mkServo 0 0 0 0) servos4) as (s1 & N & E & _ & _ & Hend & _).
  - intros l. apply merge_sort_Permutation.
  - intros l n x y Hx Hy. unfold servo_cmp_by_pos.
    assert (Hle : le_pos x y) by (apply (sorted_neighbours (sort_servos l) n); [apply Sorted_merge_sort; apply _|done..]).
    unfold le_pos in Hle. destruct (Z.eqb_spec (ACTUAL_POS x) (ACTUAL_POS y)), (Z.ltb_spec (ACTUAL_POS x) (ACTUAL_POS y)); lia.
  - split; [cbn; lia|repeat constructor; done| |done..]. apply (bool_decide_unpack _). by vm_compute.
  - destruct (Hend (mkServo 10 0 1 3)) as (n & s2 & _ & E2); [by left|]. exists s1, n, s2. split; [exact E|exact E2].
Defined.
