(* ===== verification/Leds.v ===== *)
(** * Leds: the strip of LEDs and the two LEDs on the board
    (src/ws2811.c, src/led_external.c, src/ledpwm.c)

    A timer sends [bitbuffer] to the strip by DMA, over and over; a LED has 24
    half-words in it, the pulse lengths of its bits.  The thread of
    led_external.c shows faults and the state of the vehicle on the strip; one
    [led_thread_step] runs it from the end of one sleep to the next, with what it
    reads of other parts as input.  ledpwm.c dims the LEDs of the board. *)
From S2P Require Import Prelude Float32 Utils AppNunchuk FocMeasure.

(** [powf]; [roundf] is a member of [LibmTrig]. *)
Class LibmPow : Type := { powf : f32 -> f32 -> f32 }.

(** ** ws2811.c *)

Definition WS2811_CLK_HZ : Z := 800000.
Definition WS2811_LED_NUM : Z := 28.
Definition TIM_PERIOD : Z := 168000000 / 2 / WS2811_CLK_HZ - 1.
Definition LED_BUFFER_LEN : Z := WS2811_LED_NUM + 1.
Definition BITBUFFER_PAD : Z := 50.
Definition BITBUFFER_LEN : Z := 24 * LED_BUFFER_LEN + BITBUFFER_PAD.
Definition WS2811_ZERO : Z := u16 (f2i32 (f_of_int TIM_PERIOD * flit 2 10)%f32).
Definition WS2811_ONE : Z := u16 (f2i32 (f_of_int TIM_PERIOD * flit 8 10)%f32).

Definition COLOR_BLACK : Z := 0x000000.
Definition COLOR_WHITE : Z := 0xFFFFFF.
Definition COLOR_GREEN : Z := 0x00FF00.
Definition COLOR_RED : Z := 0xFF0000.
Definition COLOR_ORANGE : Z := 0xFFA500.
Definition COLOR_YELLOW : Z := 0xFFFF00.

Record strip := mkStrip { bitbuffer : list Z; RGBdata : list Z; gamma_table : list Z }.
#[export] Instance strip_eta : Eta strip := fun s => mkStrip (bitbuffer s) (RGBdata s) (gamma_table s).

(** The static variables before the initialisation. *)
Definition strip_reset : strip := mkStrip (replicate 746 0) (replicate 29 0) (replicate 256 0).

Definition rgb_to_local (gamma : list Z) (color : Z) : option Z :=
  r ← gamma !!? Z.land (Z.shiftr color 16) 0xFF;
  g ← gamma !!? Z.land (Z.shiftr color 8) 0xFF;
  b ← gamma !!? Z.land color 0xFF;
  Some (Z.lor (Z.lor (Z.shiftl g 16) (Z.shiftl r 8)) b).

(** The loop over [bit], [n] bits being left. *)
Fixpoint put_bits (n : nat) (bit led color : Z) (buf : list Z) : option (list Z) :=
  match n with
  | O => Some buf
  | S n =>
      buf ← put_ix (bit + led * 24) (if Z.land color (Z.shiftl 1 23) =? 0 then WS2811_ZERO else WS2811_ONE) buf;
      put_bits n (bit + 1) led (u32 (Z.shiftl color 1)) buf
  end.

(** [RGBdata[led] = color] and its bits. *)
Definition put_led (led color : Z) (s : strip) : option strip :=
  rgb ← put_ix led color (RGBdata s);
  local ← rgb_to_local (gamma_table s) color;
  bits ← put_bits 24 0 led local (bitbuffer s);
  Some (s <| RGBdata := rgb |> <| bitbuffer := bits |>).

Section Init.
Context `{LibmTrig} `{LibmPow}.

Definition gamma_entry (top i : Z) : Z :=
  u8 (f2i32 (roundf (powf (f_of_int i / f_of_int top) (f1 / flit 45 100) * f_of_int top)))%f32.

(** The variables; the rest sets up DMA and timer 4. *)
Definition ws2811_init (s : strip) : option strip :=
  rgb ← for_loop 29 0 1 (fun i l => put_ix i 0 l) (RGBdata s);
  bits ← for_loop 29 0 1 (fun i bits =>
           c ← rgb !!? i; local ← rgb_to_local (gamma_table s) c; put_bits 24 0 i local bits) (bitbuffer s);
  bits ← for_loop 50 0 1 (fun i bits => put_ix (BITBUFFER_LEN - BITBUFFER_PAD - 1 + i) 0 bits) bits;
  gamma ← for_loop 256 0 1 (fun i l => put_ix i (gamma_entry 255 i) l) (gamma_table s);
  Some (mkStrip bits rgb gamma).
End Init.

Definition ws2811_set_led_color (led color : Z) (s : strip) : option strip :=
  if led <? WS2811_LED_NUM then put_led led color s else Some s.

Definition ws2811_get_led_color (led : Z) (s : strip) : option Z :=
  if led <? WS2811_LED_NUM then RGBdata s !!? led else Some 0.

Definition ws2811_all_off (s : strip) : option strip :=
  rgb ← for_loop 28 0 1 (fun i l => put_ix i 0 l) (RGBdata s);
  bits ← for_loop 672 0 1 (fun i l => put_ix i WS2811_ZERO l) (bitbuffer s);
  Some (s <| RGBdata := rgb |> <| bitbuffer := bits |>).

Definition ws2811_set_all (color : Z) (s : strip) : option strip :=
  for_loop 28 0 1 (fun i s => put_led i color s) s.

(** ** led_external.c *)

(** What the thread reads of the rest: the state set by the application, the
    fault of the motor control interface, the time and the voltage. *)
Record led_env := mkLedEnv { env_state : Z; env_reverse : bool; env_fault : Z; env_time : Z; env_volt : f32 }.

Definition LED_EXT_BATT_LOW : f32 := f_of_int 28.
Definition LED_EXT_BATT_HIGH : f32 := f_of_int 33.
Definition HAS_FAULT (e : led_env) : bool := negb (env_fault e =? 0).

Definition scale_color (color : Z) (scale : f32) : Z :=
  let part k := f2u32 (f_of_int (Z.land (Z.shiftr color k) 0xFF) * scale)%f32 in
  Z.lor (Z.lor (u32 (Z.shiftl (part 16) 16)) (u32 (Z.shiftl (part 8) 8))) (part 0).

Definition set_led_wrapper (e : led_env) (led color : Z) (s : strip) : option strip :=
  if env_reverse e then
    if led <? WS2811_LED_NUM / 2 then ws2811_set_led_color (led + WS2811_LED_NUM / 2) color s
    else ws2811_set_led_color (led - WS2811_LED_NUM / 2) color s
  else ws2811_set_led_color led color s.

(** Where the thread sleeps: at the end of its loop, among the blinks and the
    fading of a fault, or in one of the loops that wait for another state. *)
Inductive led_pc :=
  | AtTop
  | InFault (i fault : Z)
  | BeforeFade (fault : Z)
  | InFade (n : nat) (fault : Z) (scale : f32)
  | InWait (st : Z) (rev : bool)
  | InLeft (st : Z) (rev : bool)
  | InRight (st : Z) (rev : bool)
  | InBatt (st : Z) (rev : bool)
  | InDefault.

(** [state == st && rev == reverse_leds && !HAS_FAULT()] *)
Definition unchanged (e : led_env) (st : Z) (rev : bool) : bool :=
  (env_state e =? st) && Bool.eqb rev (env_reverse e) && negb (HAS_FAULT e).

(** From the check of a waiting loop on: [draw] and sleep, or go on. *)
Definition loop_while (e : led_env) (st : Z) (rev : bool) (pc : led_pc)
    (draw : strip -> option strip) (s : strip) : option (strip * led_pc) :=
  if unchanged e st rev then s ← draw s; Some (s, pc) else Some (s, AtTop).

Definition wait_for_state_change (e : led_env) (st : Z) (rev : bool) : strip -> option (strip * led_pc) :=
  loop_while e st rev (InWait st rev) (fun s => Some s).

(** [(chVTGetSystemTime() / (CH_CFG_ST_FREQUENCY / 2)) % 2] *)
Definition blink (e : led_env) (a b : Z) (s : strip) : option strip :=
  let color := if (env_time e / 5000) mod 2 =? 0 then COLOR_BLACK else COLOR_ORANGE in
  s ← set_led_wrapper e a color s; set_led_wrapper e b color s.

Definition left_loop (e : led_env) (st : Z) (rev : bool) : strip -> option (strip * led_pc) :=
  loop_while e st rev (InLeft st rev) (blink e (WS2811_LED_NUM / 2 - 1) (WS2811_LED_NUM / 2)).
Definition right_loop (e : led_env) (st : Z) (rev : bool) : strip -> option (strip * led_pc) :=
  loop_while e st rev (InRight st rev) (blink e 0 (WS2811_LED_NUM - 1)).

Definition draw_batt (e : led_env) (s : strip) : option strip :=
  let batt_level := utils_map (env_volt e) LED_EXT_BATT_LOW LED_EXT_BATT_HIGH f0 f1 in
  for_loop 14 0 1 (fun i s =>
    let color :=
      if (f_of_int i <? f_of_int (WS2811_LED_NUM / 2) * batt_level)%f32 then
        if i <? WS2811_LED_NUM / 2 / 3 then COLOR_RED
        else if i <? 2 * (WS2811_LED_NUM / 2) / 3 then COLOR_YELLOW else COLOR_GREEN
      else COLOR_BLACK in
    s ← set_led_wrapper e i color s; set_led_wrapper e (WS2811_LED_NUM - i - 1) color s) s.
Definition batt_loop (e : led_env) (st : Z) (rev : bool) : strip -> option (strip * led_pc) :=
  loop_while e st rev (InBatt st rev) (draw_batt e).

(** The two halves of the strip. *)
Definition draw_halves (e : led_env) (color : Z) (s : strip) : option strip :=
  for_loop 14 0 1 (fun i s =>
    s ← set_led_wrapper e i color s; set_led_wrapper e (i + WS2811_LED_NUM / 2) COLOR_WHITE s) s.

(** The loop over the faults from [i] on. *)
Definition fault_loop (e : led_env) (i fault : Z) (s : strip) : option (strip * led_pc) :=
  if i <? fault then s ← set_led_wrapper e i COLOR_RED s; Some (s, InFault (i + 1) fault)
  else Some (s, BeforeFade fault).

(** [n] rounds of the fading are left. *)
Definition fade_loop (e : led_env) (n : nat) (fault : Z) (scale : f32) (s : strip) : option (strip * led_pc) :=
  match n with
  | O => Some (s, AtTop)
  | S n =>
      let scale := (scale - flit 2 100)%f32 in
      s ← for_loop (Z.to_nat fault) 0 1 (fun i s => set_led_wrapper e i (scale_color COLOR_RED scale) s) s;
      Some (s, InFade n fault scale)
  end.

(** The body of the loop. *)
Definition led_top (e : led_env) (s : strip) : option (strip * led_pc) :=
  if HAS_FAULT e then s ← ws2811_set_all COLOR_BLACK s; fault_loop e 0 (env_fault e) s
  else
    let red_weak := scale_color COLOR_RED (flit 5 10) in
    let st := env_state e in let rev := env_reverse e in
    if st =? LED_EXT_OFF then s ← ws2811_set_all COLOR_BLACK s; wait_for_state_change e st rev s
    else if st =? LED_EXT_NORMAL then s ← draw_halves e red_weak s; wait_for_state_change e st rev s
    else if st =? LED_EXT_BRAKE then s ← draw_halves e COLOR_RED s; wait_for_state_change e st rev s
    else if (st =? LED_EXT_TURN_LEFT) || (st =? LED_EXT_BRAKE_TURN_LEFT) then
      s ← draw_halves e (if st =? LED_EXT_TURN_LEFT then red_weak else COLOR_RED) s; left_loop e st rev s
    else if (st =? LED_EXT_TURN_RIGHT) || (st =? LED_EXT_BRAKE_TURN_RIGHT) then
      s ← draw_halves e (if st =? LED_EXT_TURN_RIGHT then red_weak else COLOR_RED) s; right_loop e st rev s
    else if st =? LED_EXT_BATT then batt_loop e st rev s
    else Some (s, InDefault).

Definition led_thread_step (e : led_env) (pc : led_pc) (s : strip) : option (strip * led_pc) :=
  match pc with
  | AtTop => led_top e s
  | InFault i fault => fault_loop e i fault s
  | BeforeFade fault => fade_loop e 50 fault f1 s
  | InFade n fault scale => fade_loop e n fault scale s
  | InWait st rev => wait_for_state_change e st rev s
  | InLeft st rev => left_loop e st rev s
  | InRight st rev => right_loop e st rev s
  | InBatt st rev => batt_loop e st rev s
  | InDefault => Some (s, AtTop)
  end.

(** ** ledpwm.c *)

Definition LEDPWM_LED_NUM : Z := 2.
Definition LEDPWM_CNT_TOP : Z := 200.
Definition LED_GREEN : Z := 0.
Definition LED_RED : Z := 1.

Record ledpwm := mkLedpwm {
  led_values : list Z; pwm_gamma : list Z; pwm_cnt : Z; green_on : bool; red_on : bool
}.
#[export] Instance ledpwm_eta : Eta ledpwm := fun s =>
  mkLedpwm (led_values s) (pwm_gamma s) (pwm_cnt s) (green_on s) (red_on s).
Definition ledpwm_reset : ledpwm := mkLedpwm [0; 0] (replicate 201 0) 0 false false.

Definition ledpwm_init `{LibmTrig} `{LibmPow} (s : ledpwm) : option ledpwm :=
  gamma ← for_loop 201 0 1 (fun i l => put_ix i (gamma_entry LEDPWM_CNT_TOP i) l) (pwm_gamma s);
  Some (s <| led_values := [0; 0] |> <| pwm_gamma := gamma |>).

Definition ledpwm_set_intensity (led : Z) (intensity : f32) (s : ledpwm) : option ledpwm :=
  if LEDPWM_LED_NUM <=? led then Some s else
  let intensity := (if intensity <? f0 then f0 else intensity)%f32 in
  let intensity := (if intensity >? f1 then f1 else intensity)%f32 in
  g ← pwm_gamma s !!? f2i32 (intensity * f_of_int LEDPWM_CNT_TOP)%f32;
  v ← put_ix led g (led_values s);
  Some (s <| led_values := v |>).

Definition ledpwm_led_on (led : Z) (s : ledpwm) : option ledpwm :=
  if LEDPWM_LED_NUM <=? led then Some s else
  v ← put_ix led LEDPWM_CNT_TOP (led_values s); Some (s <| led_values := v |>).
Definition ledpwm_led_off (led : Z) (s : ledpwm) : option ledpwm :=
  if LEDPWM_LED_NUM <=? led then Some s else
  v ← put_ix led 0 (led_values s); Some (s <| led_values := v |>).

Definition ledpwm_update_pwm (s : ledpwm) : option ledpwm :=
  let cnt := pwm_cnt s + 1 in
  let cnt := if cnt =? LEDPWM_CNT_TOP then 0 else cnt in
  g ← led_values s !!? 0; r ← led_values s !!? 1;
  Some (s <| pwm_cnt := cnt |> <| green_on := negb (g <=? cnt) |> <| red_on := negb (r <=? cnt) |>).
