(* ===== verification/LedsTheorems.v ===== *)
(** * LedsTheorems: the strip shows its colours, the LEDs are dimmed *)
From S2P Require Import Prelude Float32 Utils AppNunchuk FocMeasure Leds.

Lemma land_bit_eqb color k : 0 <= k -> (Z.land color (Z.shiftl 1 k) =? 0) = negb (Z.testbit color k).
Proof.
  intros Hk. rewrite Z.shiftl_1_l. destruct (Z.testbit color k) eqn:E; cbn [negb].
  - apply Z.eqb_neq. intros H. apply (f_equal (fun z => Z.testbit z k)) in H.
    by rewrite Z.land_spec, E, Z.pow2_bits_true, Z.bits_0 in H by done.
  - apply Z.eqb_eq, Z.bits_inj'. intros n Hn. rewrite Z.land_spec, Z.bits_0, Z.pow2_bits_eqb by done.
    destruct (Z.eqb_spec k n) as [->|?]; [by rewrite E|apply andb_false_r].
Qed.

Lemma u32_shift_bit color j : 1 <= j < 32 -> Z.testbit (u32 (Z.shiftl color 1)) j = Z.testbit color (j - 1).
Proof.
  intros Hj. unfold u32. change 4294967296 with (2 ^ 32). rewrite Z.mod_pow2_bits_low by lia.
  rewrite Z.shiftl_spec by lia. done.
Qed.

Definition pulse (b : bool) : Z := if b then WS2811_ONE else WS2811_ZERO.

Lemma put_bits_run n : forall bit led color buf, 0 <= led < 28 -> 0 <= bit -> bit + Z.of_nat n = 24 -> length buf = 746%nat ->
  exists buf', put_bits n bit led color buf = Some buf' /\ length buf' = 746%nat /\
    (forall i, 0 <= i -> ~ (24 * led + bit <= i < 24 * led + 24) -> buf' !!? i = buf !!? i) /\
    (forall b, 0 <= b < Z.of_nat n -> buf' !!? (24 * led + bit + b) = Some (pulse (Z.testbit color (23 - b)))).
Proof.
  induction n as [|n IH]; intros bit led color buf Hled Hbit Hn Hl; cbn [put_bits].
  { exists buf. split; [done|]. split; [done|]. split; [done|lia]. }
  rewrite put_ix_Some by lia. cbn [mbind option_bind]. rewrite land_bit_eqb by lia.
  destruct (IH (bit + 1) led (u32 (Z.shiftl color 1))
    (<[Z.to_nat (bit + led * 24) := if negb (Z.testbit color 23) then WS2811_ZERO else WS2811_ONE]> buf)) as (buf' & E & Hl' & Hout & Hin);
    [done|lia|lia|by rewrite length_insert|].
  exists buf'. split; [done|]. split; [done|]. split.
  - intros i Hi Hni. rewrite Hout by lia. unfold at_ix. rewrite !decide_True by done.
    apply list_lookup_insert_ne. lia.
  - intros b Hb. destruct (decide (b = 0)) as [->|Hb0].
    + rewrite Hout by lia. unfold at_ix. rewrite decide_True by lia.
      replace (Z.to_nat (24 * led + bit + 0)) with (Z.to_nat (bit + led * 24)) by lia.
      rewrite list_lookup_insert_eq by lia. change (23 - 0) with 23. unfold pulse. by destruct (Z.testbit color 23).
    + replace (24 * led + bit + b) with (24 * led + (bit + 1) + (b - 1)) by lia. rewrite Hin by lia.
      rewrite u32_shift_bit by lia. by replace (23 - (b - 1) - 1) with (23 - b) by lia.
Qed.

(** Filling a part of an array. *)
Lemma fill_run {A} (g : Z -> A) n i (l : list A) : 0 <= i -> i + Z.of_nat n <= Z.of_nat (length l) ->
  exists l', for_loop n i 1 (fun j l => put_ix j (g j) l) l = Some l' /\ length l' = length l /\
    forall j, 0 <= j -> l' !!? j = if decide (i <= j < i + Z.of_nat n) then Some (g j) else l !!? j.
Proof.
  revert i l. induction n as [|n IH]; intros i l Hi Hn.
  { exists l. split; [done|]. split; [done|]. intros j Hj. rewrite decide_False by lia. done. }
  rewrite for_loop_S, put_ix_Some by lia. cbn [mbind option_bind].
  destruct (IH (i + 1) (<[Z.to_nat i := g i]> l)) as (l' & E & Hl & Hj); [lia|rewrite length_insert; lia|].
  exists l'. split; [exact E|]. split; [by rewrite Hl, length_insert|]. intros j H0. rewrite Hj by done.
  destruct (decide (i + 1 <= j < i + 1 + Z.of_nat n)); [by rewrite decide_True by lia|].
  unfold at_ix. rewrite !(decide_True _ _ H0). destruct (decide (j = i)) as [->|Hne].
  - rewrite decide_True by lia. apply list_lookup_insert_eq. lia.
  - rewrite decide_False by lia. apply list_lookup_insert_ne. lia.
Qed.

(** ** The strip *)

Section Gamma.
Context (gam : list Z) (gam_len : length gam = 256%nat) (gam_black : gam !! 0%nat = Some 0).

(** A LED's half-words are the bits of its colour, green first. *)
Definition shows (s : strip) (led : Z) : Prop :=
  exists color local, RGBdata s !!? led = Some color /\ rgb_to_local (gamma_table s) color = Some local /\
    forall b, 0 <= b < 24 -> bitbuffer s !!? (24 * led + b) = Some (pulse (Z.testbit local (23 - b))).

(** The arrays, with black for black and the gap in which the strip takes over the colours. *)
Record arrays_ok (s : strip) : Prop := {
  ar_bits : length (bitbuffer s) = 746%nat;
  ar_rgb : length (RGBdata s) = 29%nat;
  ar_gamma : gamma_table s = gam;
  ar_gap : forall i, 695 <= i < 746 -> bitbuffer s !!? i = Some 0
}.
Definition strip_ok (s : strip) : Prop := arrays_ok s /\ forall led, 0 <= led < 28 -> shows s led.

Lemma local_some gamma color : length gamma = 256%nat -> exists local, rgb_to_local gamma color = Some local.
Proof.
  intros Hl. assert (H : forall x, exists g, gamma !!? Z.land x 0xFF = Some g).
  { intros x. apply at_ix_Some. rewrite Hl. change 0xFF with (Z.ones 8). rewrite Z.land_ones by lia.
    apply Z.mod_pos_bound. lia. }
  unfold rgb_to_local. destruct (H (Z.shiftr color 16)) as [r ->]. cbn [mbind option_bind].
  destruct (H (Z.shiftr color 8)) as [g ->]. cbn [mbind option_bind]. destruct (H color) as [b ->]. by eexists.
Qed.

Lemma local_black gamma : gamma !! 0%nat = Some 0 -> rgb_to_local gamma 0 = Some 0.
Proof. intros H. unfold rgb_to_local. change (gamma !!? Z.land _ 0xFF) with (gamma !! 0%nat). by rewrite H. Qed.

Lemma shows_frame s s' led : gamma_table s' = gamma_table s -> RGBdata s' !!? led = RGBdata s !!? led ->
  (forall b, 0 <= b < 24 -> bitbuffer s' !!? (24 * led + b) = bitbuffer s !!? (24 * led + b)) -> shows s led -> shows s' led.
Proof.
  intros Hg Hr Hb (c & l & H1 & H2 & H3). exists c, l. rewrite Hg, Hr. split; [done|]. split; [done|].
  intros b Hb'. rewrite Hb by done. by apply H3.
Qed.

Lemma put_led_run led color s : arrays_ok s -> 0 <= led < 28 ->
  exists s', put_led led color s = Some s' /\ RGBdata s' = <[Z.to_nat led := color]> (RGBdata s) /\ arrays_ok s' /\ shows s' led /\
    forall j, 0 <= j < 28 -> j <> led -> shows s j -> shows s' j.
Proof.
  intros [A1 A2 A3 A5] Hled. unfold put_led. rewrite put_ix_Some by lia. cbn [mbind option_bind].
  destruct (local_some (gamma_table s) color) as [local El]; [by rewrite A3|]. rewrite El. cbn [mbind option_bind].
  destruct (put_bits_run 24 0 led local (bitbuffer s)) as (bits & Eb & Hl & Hout & Hin); [done|lia|done|done|].
  rewrite Eb. cbn [mbind option_bind]. eexists. split; [reflexivity|]. split; [done|]. split; [|split].
  - split; try done.
    + change (length (<[Z.to_nat led := color]> (RGBdata s)) = 29%nat). by rewrite length_insert.
    + intros i Hi. change (bits !!? i = Some 0). rewrite Hout by lia. by apply A5.
  - exists color, local. split; [|split; [done|]].
    + change (<[Z.to_nat led := color]> (RGBdata s) !!? led = Some color). unfold at_ix. rewrite decide_True by lia.
      apply list_lookup_insert_eq. lia.
    + intros b Hb. change (bits !!? (24 * led + b) = Some (pulse (Z.testbit local (23 - b)))).
      rewrite <- Hin by lia. f_equal. lia.
  - intros j Hj Hne. apply shows_frame; [done| |].
    + change (<[Z.to_nat led := color]> (RGBdata s) !!? j = RGBdata s !!? j). unfold at_ix. rewrite !decide_True by lia.
      apply list_lookup_insert_ne. lia.
    + intros b Hb. apply Hout; lia.
Qed.

(** An operation that keeps the strip in order. *)
Definition strip_safe (f : strip -> option strip) : Prop := forall s, strip_ok s -> exists s', f s = Some s' /\ strip_ok s'.

Lemma put_led_safe led color : 0 <= led < 28 -> strip_safe (put_led led color).
Proof.
  intros Hled s [Ha Hs]. destruct (put_led_run led color s Ha Hled) as (s' & E & _ & Ha' & Hl & Ho).
  exists s'. split; [done|]. split; [done|]. intros j Hj. destruct (decide (j = led)) as [->|]; [done|]. apply Ho; auto.
Qed.
Lemma strip_id_safe : strip_safe (fun s => Some s).
Proof. intros s Hs. by exists s. Qed.
Lemma strip_bind_safe f g : strip_safe f -> strip_safe g -> strip_safe (fun s => s ← f s; g s).
Proof. intros Hf Hg s Hs. destruct (Hf s Hs) as (s1 & -> & H1). exact (Hg s1 H1). Qed.
Lemma strip_loop_safe n i f : (forall j, i <= j -> strip_safe (f j)) -> strip_safe (fun s => for_loop n i 1 f s).
Proof.
  intros Hf s Hs. destruct (for_loop_inv (fun _ => strip_ok) n i f s Hs) as (s' & E & Hs'); [|by exists s'].
  intros j t Hj Ht. apply Hf; [lia|done].
Qed.

Lemma set_led_color_safe led color : 0 <= led -> strip_safe (ws2811_set_led_color led color).
Proof.
  intros Hl. unfold ws2811_set_led_color, WS2811_LED_NUM. intros s. destruct (Z.ltb_spec led 28).
  - by apply put_led_safe.
  - apply strip_id_safe.
Qed.
Lemma set_led_wrapper_safe e led color : 0 <= led -> strip_safe (set_led_wrapper e led color).
Proof.
  intros Hl s. unfold set_led_wrapper, WS2811_LED_NUM. change (28 / 2) with 14. destruct (env_reverse e); [|by apply set_led_color_safe].
  destruct (Z.ltb_spec led 14); apply set_led_color_safe; lia.
Qed.

Lemma set_all_safe color : strip_safe (ws2811_set_all color).
Proof.
  intros s Hs. destruct (for_loop_inv (fun _ => strip_ok) 28 0 (fun i s => put_led i color s) s Hs) as (s' & E & Hs'); [|by exists s'].
  intros j t Hj Ht. by apply put_led_safe.
Qed.

Lemma all_off_safe : strip_safe ws2811_all_off.
Proof.
  intros s [[A1 A2 A3 A5] Hs]. unfold ws2811_all_off.
  destruct (fill_run (fun _ => 0) 28 0 (RGBdata s)) as (rgb & -> & L1 & R1); [done|lia|]. cbn [mbind option_bind].
  destruct (fill_run (fun _ => WS2811_ZERO) 672 0 (bitbuffer s)) as (bits & -> & L2 & R2); [done|lia|]. cbn [mbind option_bind].
  eexists. split; [reflexivity|]. split.
  - split; try done.
    + change (length bits = 746%nat). lia.
    + change (length rgb = 29%nat). lia.
    + intros i Hi. change (bits !!? i = Some 0). rewrite R2, decide_False by lia. by apply A5.
  - intros led Hled. exists 0, 0. split; [|split; [apply local_black; change (gamma_table s !! 0%nat = Some 0); by rewrite A3|]].
    + change (rgb !!? led = Some 0). by rewrite R1, decide_True by lia.
    + intros b Hb. change (bits !!? (24 * led + b) = Some (pulse (Z.testbit 0 (23 - b)))). rewrite R2, decide_True by lia.
      by rewrite Z.bits_0.
Qed.

(** *** The thread *)

(** What a step of the thread needs: indices are not negative. *)
Definition pc_ok (pc : led_pc) : Prop := match pc with InFault i _ => 0 <= i | _ => True end.
Definition step_safe (f : strip -> option (strip * led_pc)) : Prop :=
  forall s, strip_ok s -> exists s' pc, f s = Some (s', pc) /\ strip_ok s' /\ pc_ok pc.

Lemma draw_then_safe draw k : strip_safe draw -> step_safe k -> step_safe (fun s => s ← draw s; k s).
Proof. intros Hd Hk s Hs. destruct (Hd s Hs) as (s1 & -> & H1). exact (Hk s1 H1). Qed.
Lemma stop_safe pc : pc_ok pc -> step_safe (fun s => Some (s, pc)).
Proof. intros Hpc s Hs. by exists s, pc. Qed.
Lemma loop_while_safe e st rev pc draw : strip_safe draw -> pc_ok pc -> step_safe (loop_while e st rev pc draw).
Proof.
  intros Hd Hpc s. unfold loop_while. destruct (unchanged e st rev); [|by apply stop_safe].
  apply (draw_then_safe draw (fun s => Some (s, pc))); [done|by apply stop_safe].
Qed.

Create HintDb strip.
#[local] Hint Resolve strip_id_safe set_all_safe loop_while_safe stop_safe I : strip.

Lemma pair_safe e a b ca cb : 0 <= a -> 0 <= b -> strip_safe (fun s => s ← set_led_wrapper e a ca s; set_led_wrapper e b cb s).
Proof. intros Ha Hb. apply strip_bind_safe; by apply set_led_wrapper_safe. Qed.

Lemma draw_halves_safe e color : strip_safe (draw_halves e color).
Proof. apply strip_loop_safe. intros i Hi. apply pair_safe; [done|]. change (WS2811_LED_NUM / 2) with 14. lia. Qed.

Lemma draw_batt_safe e : strip_safe (draw_batt e).
Proof.
  intros s Hs. unfold draw_batt.
  destruct (for_loop_inv (fun _ => strip_ok) 14 0 (fun i s =>
    s ← set_led_wrapper e i (if (f_of_int i <? f_of_int (WS2811_LED_NUM / 2) * utils_map (env_volt e) LED_EXT_BATT_LOW LED_EXT_BATT_HIGH f0 f1)%f32
      then if i <? WS2811_LED_NUM / 2 / 3 then COLOR_RED else if i <? 2 * (WS2811_LED_NUM / 2) / 3 then COLOR_YELLOW else COLOR_GREEN
      else COLOR_BLACK) s;
    set_led_wrapper e (WS2811_LED_NUM - i - 1) (if (f_of_int i <? f_of_int (WS2811_LED_NUM / 2) * utils_map (env_volt e) LED_EXT_BATT_LOW LED_EXT_BATT_HIGH f0 f1)%f32
      then if i <? WS2811_LED_NUM / 2 / 3 then COLOR_RED else if i <? 2 * (WS2811_LED_NUM / 2) / 3 then COLOR_YELLOW else COLOR_GREEN
      else COLOR_BLACK) s) s Hs) as (s' & E & Hs').
  - intros j t Hj Ht. apply pair_safe; [lia|unfold WS2811_LED_NUM; lia|done].
  - by exists s'.
Qed.

Lemma blink_safe e a b : 0 <= a -> 0 <= b -> strip_safe (blink e a b).
Proof. intros. by apply pair_safe. Qed.
#[local] Hint Resolve draw_halves_safe draw_batt_safe : strip.

Lemma left_safe e st rev : step_safe (left_loop e st rev).
Proof. apply loop_while_safe; [by apply blink_safe|done]. Qed.
Lemma right_safe e st rev : step_safe (right_loop e st rev).
Proof. apply loop_while_safe; [by apply blink_safe|done]. Qed.
Lemma batt_safe e st rev : step_safe (batt_loop e st rev).
Proof. apply loop_while_safe; [apply draw_batt_safe|done]. Qed.
Lemma wait_safe e st rev : step_safe (wait_for_state_change e st rev).
Proof. apply loop_while_safe; [apply strip_id_safe|done]. Qed.
Lemma fault_safe e i fault : 0 <= i -> step_safe (fault_loop e i fault).
Proof.
  intros Hi s. unfold fault_loop. destruct (i <? fault); [|by apply stop_safe].
  apply (draw_then_safe (set_led_wrapper e i COLOR_RED) (fun s => Some (s, InFault (i + 1) fault))); [by apply set_led_wrapper_safe|].
  apply stop_safe. cbn. lia.
Qed.
Lemma fade_safe e n fault scale : step_safe (fade_loop e n fault scale).
Proof.
  destruct n as [|n]; [by apply stop_safe|]. intros s. cbn [fade_loop].
  apply (draw_then_safe (fun s => for_loop (Z.to_nat fault) 0 1 _ s) (fun s => Some (s, InFade n fault _))); [|by apply stop_safe].
  apply strip_loop_safe. intros j Hj. by apply set_led_wrapper_safe.
Qed.
#[local] Hint Resolve left_safe right_safe batt_safe wait_safe fault_safe fade_safe draw_then_safe : strip.

Lemma led_top_safe e : step_safe (led_top e).
Proof.
  intros s. unfold led_top. cbv zeta. repeat case_match.
  all: try (by apply stop_safe); try (by apply batt_safe).
  all: refine (draw_then_safe _ _ _ _ s); eauto with strip; by apply fault_safe.
Qed.

Lemma led_thread_safe e pc s : strip_ok s -> pc_ok pc ->
  exists s' pc', led_thread_step e pc s = Some (s', pc') /\ strip_ok s' /\ pc_ok pc'.
Proof.
  intros Hs Hpc. revert s Hs. change (step_safe (led_thread_step e pc)).
  destruct pc; cbn [led_thread_step pc_ok] in *;
    [apply led_top_safe|by apply fault_safe|apply fade_safe|apply fade_safe|apply wait_safe
    |apply left_safe|apply right_safe|apply batt_safe|by apply stop_safe].
Qed.
End Gamma.

(** ** The life of the strip *)

(** Other parts set colours, the thread runs for another while. *)
Inductive led_event :=
  | SetColor (led color : Z)
  | SetAll (color : Z)
  | AllOff
  | ThreadRuns (e : led_env).

Definition led_event_ok (ev : led_event) : Prop := match ev with SetColor led _ => 0 <= led | _ => True end.

Definition led_event_run (ev : led_event) (t : strip * led_pc) : option (strip * led_pc) :=
  let '(s, pc) := t in
  match ev with
  | SetColor led color => s ← ws2811_set_led_color led color s; Some (s, pc)
  | SetAll color => s ← ws2811_set_all color s; Some (s, pc)
  | AllOff => s ← ws2811_all_off s; Some (s, pc)
  | ThreadRuns e => led_thread_step e pc s
  end.

Fixpoint led_events_run (evs : list led_event) (t : strip * led_pc) : option (strip * led_pc) :=
  match evs with [] => Some t | ev :: evs => t ← led_event_run ev t; led_events_run evs t end.

Section Life.
Context `{LibmTrig} `{LibmPow}.

Definition gamma_255 : list Z := map (fun i => gamma_entry 255 (Z.of_nat i)) (seq 0 256).

Lemma gamma_lookup i : 0 <= i < 256 -> gamma_255 !!? i = Some (gamma_entry 255 i).
Proof.
  intros Hi. unfold at_ix. rewrite decide_True by lia. unfold gamma_255.
  change (map ?f ?l) with (f <$> l). rewrite list_lookup_fmap, lookup_seq_lt by lia. cbn. do 2 f_equal. lia.
Qed.

(** The first entry is black because [powf] and [roundf] keep 0. *)
Lemma gamma_black : powf f0 (f1 / flit 45 100)%f32 = f0 -> roundf f0 = f0 -> gamma_255 !! 0%nat = Some 0.
Proof.
  intros Hp Hr. change (Some (gamma_entry 255 0) = Some 0). unfold gamma_entry.
  replace (f_of_int 0 / f_of_int 255)%f32 with f0 by (by vm_compute).
  rewrite Hp. replace (f0 * f_of_int 255)%f32 with f0 by (by vm_compute). by rewrite Hr.
Qed.

Definition strip_black_bits : list Z := replicate 695 WS2811_ZERO ++ replicate 51 0.

Lemma init_run : ws2811_init strip_reset = Some (mkStrip strip_black_bits (replicate 29 0) gamma_255).
Proof.
  unfold ws2811_init.
  replace (for_loop 29 0 1 (fun i l => put_ix i 0 l) (RGBdata strip_reset)) with (Some (replicate 29 0)) by (by vm_compute).
  cbn [mbind option_bind].
  replace (for_loop 29 0 1 _ (bitbuffer strip_reset)) with (Some (replicate 696 WS2811_ZERO ++ replicate 50 0)) by (by vm_compute).
  cbn [mbind option_bind].
  replace (for_loop 50 0 1 _ (replicate 696 WS2811_ZERO ++ _)) with (Some strip_black_bits) by (by vm_compute).
  cbn [mbind option_bind].
  destruct (fill_run (gamma_entry 255) 256 0 (gamma_table strip_reset)) as (g & -> & Hl & Hg); [done|done|].
  cbn [mbind option_bind]. do 2 f_equal. apply list_eq. intros i.
  destruct (decide (i < 256)%nat).
  - specialize (Hg (Z.of_nat i)). rewrite decide_True in Hg by lia. pose proof (gamma_lookup (Z.of_nat i)) as Hk.
    unfold at_ix in Hg, Hk. rewrite !decide_True, !Nat2Z.id in Hg, Hk by lia. rewrite Hg, Hk by lia. done.
  - rewrite !lookup_ge_None_2; [done| |]; [unfold gamma_255; rewrite length_map, length_seq; lia|rewrite Hl; cbn; lia].
Qed.

Lemma init_ok : gamma_255 !! 0%nat = Some 0 -> strip_ok gamma_255 (mkStrip strip_black_bits (replicate 29 0) gamma_255).
Proof.
  intros Hb. split; [split; try done|].
  - intros i Hi. change (strip_black_bits !!? i = Some 0). unfold at_ix. rewrite decide_True by lia. unfold strip_black_bits.
    rewrite lookup_app_r, lookup_replicate_2; rewrite ?length_replicate; try done; lia.
  - intros led Hled. exists 0, 0. split; [|split; [by apply local_black|]].
    + change (replicate 29 0 !!? led = Some 0). unfold at_ix. rewrite decide_True by lia. apply lookup_replicate_2. lia.
    + intros b Hbit. change (strip_black_bits !!? (24 * led + b) = Some (pulse (Z.testbit 0 (23 - b)))).
      rewrite Z.bits_0. unfold at_ix. rewrite decide_True by lia. unfold strip_black_bits.
      rewrite lookup_app_l by (rewrite length_replicate; lia). apply lookup_replicate_2. lia.
Qed.

Lemma byte_bits x n : 0 <= x < 256 -> 8 <= n -> Z.testbit x n = false.
Proof.
  intros Hx Hn. destruct (decide (x = 0)) as [->|]; [apply Z.bits_0|]. apply Z.bits_above_log2; [lia|].
  apply Z.lt_le_trans with 8; [|done]. apply Z.log2_lt_pow2; lia.
Qed.

(** Green, red and blue of the half-words. *)
Lemma local_bits g r b k : 0 <= g < 256 -> 0 <= r < 256 -> 0 <= b < 256 -> 0 <= k < 8 ->
  let l := Z.lor (Z.lor (Z.shiftl g 16) (Z.shiftl r 8)) b in
  Z.testbit l (23 - k) = Z.testbit g (7 - k) /\ Z.testbit l (23 - (8 + k)) = Z.testbit r (7 - k) /\
  Z.testbit l (23 - (16 + k)) = Z.testbit b (7 - k).
Proof.
  intros Hg Hr Hb Hk l. subst l. rewrite !Z.lor_spec, !Z.shiftl_spec by lia.
  rewrite (byte_bits r (23 - k - 8)), (byte_bits b (23 - k)), (byte_bits b (23 - (8 + k))) by lia.
  rewrite (Z.testbit_neg_r g (23 - (8 + k) - 16)), (Z.testbit_neg_r g (23 - (16 + k) - 16)),
    (Z.testbit_neg_r r (23 - (16 + k) - 8)) by lia.
  rewrite !orb_false_r. cbn [orb]. split; [|split]; f_equal; lia.
Qed.

Definition channel (color sh : Z) : Z := gamma_entry 255 (Z.land (Z.shiftr color sh) 0xFF).

Lemma local_channels color : rgb_to_local gamma_255 color =
  Some (Z.lor (Z.lor (Z.shiftl (channel color 8) 16) (Z.shiftl (channel color 16) 8)) (channel color 0)).
Proof.
  assert (Hsh : forall sh, 0 <= Z.land (Z.shiftr color sh) 0xFF < 256).
  { intros sh. change 0xFF with (Z.ones 8). rewrite Z.land_ones by lia. apply Z.mod_pos_bound. lia. }
  unfold rgb_to_local, channel. rewrite Z.shiftr_0_r, !gamma_lookup by first [apply Hsh|rewrite <- (Z.shiftr_0_r color); apply Hsh]. done.
Qed.

Lemma event_safe (Hb : gamma_255 !! 0%nat = Some 0) ev s pc : led_event_ok ev -> strip_ok gamma_255 s -> pc_ok pc ->
  exists s' pc', led_event_run ev (s, pc) = Some (s', pc') /\ strip_ok gamma_255 s' /\ pc_ok pc'.
Proof.
  intros Hev Hs Hpc. destruct ev as [led color|color| |e]; cbn [led_event_run led_event_ok] in *.
  - destruct (set_led_color_safe gamma_255 eq_refl led color Hev s Hs) as (s' & -> & Hs'). by exists s', pc.
  - destruct (set_all_safe gamma_255 eq_refl color s Hs) as (s' & -> & Hs'). by exists s', pc.
  - destruct (all_off_safe gamma_255 eq_refl Hb s Hs) as (s' & -> & Hs'). by exists s', pc.
  - by apply led_thread_safe.
Qed.

Lemma events_safe (Hb : gamma_255 !! 0%nat = Some 0) evs s pc : Forall led_event_ok evs -> strip_ok gamma_255 s -> pc_ok pc ->
  exists s' pc', led_events_run evs (s, pc) = Some (s', pc') /\ strip_ok gamma_255 s' /\ pc_ok pc'.
Proof.
  intros He. revert s pc. induction He as [|ev evs Hev _ IH]; intros s pc Hs Hpc; cbn [led_events_run].
  { by exists s, pc. }
  destruct (event_safe Hb ev s pc Hev Hs Hpc) as (s1 & pc1 & -> & Hs1 & Hpc1). by apply IH.
Qed.

(** C31. After its initialisation, and whatever colours are set and
    whatever faults, states and times the thread sees between its sleeps,
    no access leaves the arrays of the strip: every LED is sent the bits
    of the gamma-corrected green, red and blue of the colour that
    ws2811_get_led_color reports, the pause that makes the strip take the
    colours over stays free of pulses, and setting the colour of a LED
    changes what is reported for it and for no other. *)
Theorem strip_shows_colours evs : powf f0 (f1 / flit 45 100)%f32 = f0 -> roundf f0 = f0 -> Forall led_event_ok evs ->
  exists s0 s pc, ws2811_init strip_reset = Some s0 /\ led_events_run evs (s0, AtTop) = Some (s, pc) /\
    (forall led, 0 <= led < WS2811_LED_NUM -> exists color, ws2811_get_led_color led s = Some color /\
      forall k, 0 <= k < 8 ->
        bitbuffer s !!? (24 * led + k) = Some (pulse (Z.testbit (channel color 8) (7 - k))) /\
        bitbuffer s !!? (24 * led + (8 + k)) = Some (pulse (Z.testbit (channel color 16) (7 - k))) /\
        bitbuffer s !!? (24 * led + (16 + k)) = Some (pulse (Z.testbit (channel color 0) (7 - k)))) /\
    (forall i, BITBUFFER_LEN - BITBUFFER_PAD - 1 <= i < BITBUFFER_LEN -> bitbuffer s !!? i = Some 0) /\
    (forall led color, 0 <= led < WS2811_LED_NUM -> exists s', ws2811_set_led_color led color s = Some s' /\
      forall j, ws2811_get_led_color j s' = if j =? led then Some color else ws2811_get_led_color j s).
Proof.
  intros Hp Hr He. pose proof (gamma_black Hp Hr) as Hb.
  destruct (events_safe Hb evs _ AtTop He (init_ok Hb) I) as (s & pc & E & [Ha Hs] & _).
  exists (mkStrip strip_black_bits (replicate 29 0) gamma_255), s, pc. split; [apply init_run|]. split; [exact E|]. split.
  - intros led Hled. destruct (Hs led Hled) as (color & local & H1 & H2 & H3). exists color. split.
    { unfold ws2811_get_led_color. by rewrite (proj2 (Z.ltb_lt led WS2811_LED_NUM)) by lia. }
    rewrite (ar_gamma _ _ Ha), local_channels in H2. injection H2 as <-. intros k Hk.
    destruct (local_bits (channel color 8) (channel color 16) (channel color 0) k) as (B1 & B2 & B3);
      [apply u8_range|apply u8_range|apply u8_range|done|].
    rewrite !H3 by lia. cbv zeta in B1, B2, B3. by rewrite B1, B2, B3.
  - split; [apply (ar_gap _ _ Ha)|]. intros led color Hled.
    destruct (put_led_run gamma_255 eq_refl led color s Ha Hled) as (s' & Es & Hrgb & _). exists s'.
    unfold ws2811_set_led_color. rewrite (proj2 (Z.ltb_lt led WS2811_LED_NUM)) by lia. split; [exact Es|]. intros j.
    unfold ws2811_get_led_color. rewrite Hrgb. pose proof (ar_rgb _ _ Ha) as Hlen. destruct (Z.eqb_spec j led) as [->|Hne].
    + rewrite (proj2 (Z.ltb_lt led WS2811_LED_NUM)) by lia. unfold at_ix. rewrite decide_True by lia.
      apply list_lookup_insert_eq. unfold WS2811_LED_NUM in *. lia.
    + destruct (j <? WS2811_LED_NUM); [|done]. unfold at_ix. destruct (decide (0 <= j)); [|done].
      apply list_lookup_insert_ne. lia.
Qed.
End Life.

(** A strip with a straight table: the brake lights, the other way round, and a fault in between. *)
Lemma strip_shows_colours_witness :
  let T := {| sincosf := fun _ => (f0, f0); atan2f := fun _ _ => f0; roundf := fun x => x |} in
  let P := {| powf := fun x _ => x |} in
  let env st rev fault := ThreadRuns (mkLedEnv st rev fault 12000 (f_of_int 30)) in
  let evs := [env 2 false 0; env 2 true 0; env 2 true 0; env 2 true 3; env 2 true 3; SetColor 5 0x123456; env 4 true 0] in
  exists s0 s pc, @ws2811_init T P strip_reset = Some s0 /\ led_events_run evs (s0, AtTop) = Some (s, pc) /\
    (forall led, 0 <= led < WS2811_LED_NUM -> exists color, ws2811_get_led_color led s = Some color /\
      forall k, 0 <= k < 8 ->
        bitbuffer s !!? (24 * led + k) = Some (pulse (Z.testbit (@channel T P color 8) (7 - k))) /\
        bitbuffer s !!? (24 * led + (8 + k)) = Some (pulse (Z.testbit (@channel T P color 16) (7 - k))) /\
        bitbuffer s !!? (24 * led + (16 + k)) = Some (pulse (Z.testbit (@channel T P color 0) (7 - k)))) /\
    (forall i, BITBUFFER_LEN - BITBUFFER_PAD - 1 <= i < BITBUFFER_LEN -> bitbuffer s !!? i = Some 0) /\
    (forall led color, 0 <= led < WS2811_LED_NUM -> exists s', ws2811_set_led_color led color s = Some s' /\
      forall j, ws2811_get_led_color j s' = if j =? led then Some color else ws2811_get_led_color j s).
Proof.
  intros T P env evs. apply (@strip_shows_colours T P evs); [done|done|]. repeat constructor; cbn; lia.
Defined.
