(* ===== verification/Main.v ===== *)
(** * Main: the start of the firmware and its own threads (src/main.c)

    [main_init] is [main] up to its endless loop, which only waits.  The outputs
    for a strip of LEDs and for servos are compiled out by conf_general.h.  The
    motor control interface, the CAN bus, the timeout and the EEPROM are the
    [world]; the applications, the USB line and the LEDs stand beside it. *)
From S2P Require Import Prelude Float32 Packet McTypes ConfCodec Motor Flash Eeprom Utils World Transmit.
From S2P Require Import McInterface ConfDefault FlashHelper Timeout ConfGeneral Commands CommCan Foc FocMeasure.
From S2P Require Import AppCommon AppPpm AppAdc AppUart AppNunchuk Radio NrfDriver App CommUsb Leds.

Record main_state {C : Type} := mkMain { x_apps : app_state C; x_usb : usb_state; x_leds : ledpwm }.
Arguments main_state : clear implicits.
#[export] Instance main_state_eta {C} : Eta (main_state C) := fun x => mkMain _ (x_apps x) (x_usb x) (x_leds x).

(** What the periodic thread reads of the two drivers, in degrees. *)
Class Positions (D : Type) : Type := {
  mcpwm_get_detect_pos : mc_configuration -> D -> f32 * D;
  mcpwm_foc_get_phase_observer : D -> f32;
  mcpwm_foc_get_phase_encoder : D -> f32
}.

Section Main.
Context {C : Type} `{NrfPins C} {D F : Type} `{Board D} `{Flash F} `{Positions D}.
Context `{Layout mc_configuration} `{Layout app_configuration} `{LibmTrig} `{LibmPow}.
Abbreviation W := (world D F).
Abbreviation X := (main_state C).
Abbreviation A := (ST (X * W)).

Definition on_apps {B} (m : ST (app_state C * W) B) : A B := fun '(x, w) =>
  '(b, (s, w)) ← m (x_apps x, w); Some (b, (x <| x_apps := s |>, w)).
Definition on_leds (f : ledpwm -> option ledpwm) : A unit := fun '(x, w) =>
  l ← f (x_leds x); Some (tt, (x <| x_leds := l |>, w)).

(** [mcconf] and [appconf] of [main] before they are read.  [commands_init]
    only creates a thread.  The core reads the variable [appconf] of app.c. *)
Definition main_init (mcconf0 : mc_configuration) (appconf0 : app_configuration) : A unit :=
  on_leds (fun l => Some (l <| red_on := false |> <| green_on := false |>));;
  core conf_general_init;;
  on_leds ledpwm_init;;
  mcconf ← core (conf_general_read_mc_configuration mcconf0);
  core (mc_interface_init mcconf);;
  own_set (fun x => x <| x_usb := comm_usb_init (x_usb x) |>);;
  conf ← core (conf_general_read_app_configuration appconf0);
  core (st_modify (fun w => w <| World.appconf := conf |>));;
  on_apps (app_init conf);;
  core timeout_init;;
  core (timeout_configure (timeout_msec conf) (timeout_brake_current conf));;
  core comm_can_init.

(** One round of [timer_thread]: [packet_timerfunc] looks at both handlers. *)
Definition timer_thread_step : A unit :=
  own_set (fun x => let u := x_usb x in
    x <| x_usb := u <| usb_handler := packet_timer_h (usb_handler u) |> |>);;
  own_set (fun x => let s := x_apps x in let u := a_uart s in
    x <| x_apps := s <| a_uart := u <| handler := packet_timer_h (handler u) |> |> |>).

(** Where [periodic_thread] sleeps: at the end of its loop, with the red LED
    on or off among the [fault] blinks, or after them. *)
Inductive periodic_pc := PTop | POn (i fault : Z) | POff (i fault : Z) | PPause.

Definition set_intensity (led : Z) (x : f32) : A unit := on_leds (ledpwm_set_intensity led x).

(** [commands_send_rotor_pos(utils_angle_difference(a, b))] *)
Definition send_difference (a b : f32) : ST W unit :=
  d ← lift_opt (utils_angle_difference angle_fuel a b); commands_send_rotor_pos d.

(** From the look at the detection on. *)
Definition send_positions : ST W unit :=
  st ← mc_interface_get_state;
  c ← mc_interface_get_configuration;
  when (st =? MC_STATE_DETECTING) (p ← hw_run (mcpwm_get_detect_pos c); commands_send_rotor_pos p);;
  mode ← commands_get_disp_pos_mode;
  (if mode =? DISP_POS_MODE_ENCODER then p ← hw encoder_read_deg; commands_send_rotor_pos p
   else if mode =? DISP_POS_MODE_PID_POS then p ← mc_interface_get_pid_pos_now; commands_send_rotor_pos p
   else if mode =? DISP_POS_MODE_PID_POS_ERROR then
     set ← mc_interface_get_pid_pos_set; now ← mc_interface_get_pid_pos_now; send_difference set now
   else mret tt);;
  c ← mc_interface_get_configuration;
  when (motor_type c =? MOTOR_TYPE_FOC)
    (if mode =? DISP_POS_MODE_OBSERVER then p ← hw mcpwm_foc_get_phase_observer; commands_send_rotor_pos p
     else if mode =? DISP_POS_MODE_ENCODER_OBSERVER_ERROR then
       obs ← hw mcpwm_foc_get_phase_observer; enc ← hw mcpwm_foc_get_phase_encoder; send_difference obs enc
     else mret tt).

Definition periodic_rest : A periodic_pc := core send_positions;; mret PTop.

(** The loop over the blinks from [i] on. *)
Definition periodic_blink (i fault : Z) : A periodic_pc :=
  if i <? fault then set_intensity LED_RED f1;; mret (POn i fault) else mret PPause.

(** One round: from the end of a sleep to the next one. *)
Definition periodic_thread_step (pc : periodic_pc) : A periodic_pc :=
  match pc with
  | PTop =>
      st ← core mc_interface_get_state;
      set_intensity LED_GREEN (if st =? MC_STATE_RUNNING then f1 else flit 2 10);;
      fault ← core mc_interface_get_fault;
      if negb (fault =? FAULT_CODE_NONE) then periodic_blink 0 fault
      else set_intensity LED_RED f0;; periodic_rest
  | POn i fault => set_intensity LED_RED f0;; mret (POff i fault)
  | POff i fault => periodic_blink (i + 1) fault
  | PPause => periodic_rest
  end.
End Main.
