(* ===== verification/MainTheorems.v ===== *)
(** * MainTheorems: a restart brings the stored configuration into force *)
From S2P Require Import Prelude Safe Float32 Packet McTypes ConfCodec Motor Flash Eeprom EepromTheorems Utils World Transmit.
From S2P Require Import McInterface BoardSim ConfDefault FlashHelper Timeout ConfGeneral Commands CommCan ConfTheorems FocMeasure.
From S2P Require Import AppCommon AppPpm AppAdc AppUart AppNunchuk Radio NrfDriver RfTheorems App CommUsb Leds LedsTheorems Main.

(** ** The radio functions always return *)

Section RadioTotal.
Context {C : Type} `{NrfPins C}.

Definition total {A} (m : ST C A) : Prop := safe (fun _ => True) m.

Lemma total_modify f : total (st_modify f).
Proof. by apply safe_modify. Qed.
Lemma total_get : total st_get.
Proof. intros c _. by exists c, c. Qed.
Lemma transfer_bits_total n : forall send recieve, total (transfer_bits n send recieve).
Proof.
  induction n as [|n IH]; intros send recieve; cbn [transfer_bits]; [apply safe_ret|].
  repeat (apply safe_bind; [first [apply total_modify|apply safe_bind; [apply total_get|intros; apply safe_ret]]|intros ?]). apply IH.
Qed.

Lemma transfer_bytes_length out : triple (fun _ => True) (transfer_bytes out) (fun r _ => length r = length out).
Proof.
  induction out as [|b out IH]; cbn [transfer_bytes]; [by apply triple_ret|].
  eapply triple_bind; [apply transfer_bits_total|]. intros r. eapply triple_bind; [apply IH|]. intros rs.
  apply triple_ret. intros _ E. cbn. by rewrite E.
Qed.

Lemma transfer_total out : total (spi_sw_transfer out).
Proof.
  apply safe_bind; [apply total_modify|]. intros _. eapply triple_weaken; [| |apply transfer_bytes_length]; done.
Qed.

Lemma begin_total : total spi_sw_begin. Proof. apply total_modify. Qed.
Lemma end_total : total spi_sw_end. Proof. apply total_modify. Qed.

Lemma rf_send_total cmd data : total (rf_send cmd data).
Proof.
  repeat (apply safe_bind; [first [apply begin_total|apply transfer_total]|intros ?]). apply end_total.
Qed.
Lemma rf_command_total cmd : total (rf_command cmd).
Proof. repeat (apply safe_bind; [first [apply begin_total|apply transfer_total]|intros ?]). apply end_total. Qed.

Lemma rf_receive_length cmd len : triple (fun _ => True) (rf_receive cmd len) (fun r _ => length r = Z.to_nat len).
Proof.
  eapply triple_bind; [apply begin_total|]. intros ?. eapply triple_bind; [apply transfer_total|]. intros ?.
  eapply triple_bind with (Q := fun r _ => length r = Z.to_nat len).
  - eapply triple_bind; [apply total_modify|]. intros ?.
    eapply triple_weaken; [| |apply transfer_bytes_length]; [done|]. intros r _ ->. apply length_replicate.
  - intros r. eapply triple_bind with (Q := fun _ _ => length r = Z.to_nat len).
    + by apply triple_modify.
    + intros ?. by apply triple_ret.
Qed.

Lemma rf_read_total reg len : total (rf_read_reg reg len).
Proof. eapply triple_weaken; [| |apply rf_receive_length]; done. Qed.
Lemma read_byte_total reg : total (rf_read_reg_byte reg).
Proof. apply safe_bind; [apply rf_read_total|]. intros l. apply safe_ret. Qed.
Lemma write_byte_total reg v : total (rf_write_reg_byte reg v).
Proof. apply rf_send_total. Qed.
Lemma update_total reg f : total (rf_update_reg reg f).
Proof.
  apply safe_bind; [apply read_byte_total|]. intros v. cbv zeta. apply safe_if; [apply safe_ret|apply write_byte_total].
Qed.
Lemma set_bits_total reg mask : total (rf_set_bits reg mask).
Proof. apply safe_bind; [apply read_byte_total|]. intros v. apply safe_if; [apply safe_ret|apply write_byte_total]. Qed.
Lemma clear_bits_total reg mask : total (rf_clear_bits reg mask).
Proof. apply safe_bind; [apply read_byte_total|]. intros v. apply safe_if; [apply safe_ret|apply write_byte_total]. Qed.
Lemma flush_total : total rf_flush_all.
Proof. apply safe_bind; [apply rf_command_total|]. intros _. apply rf_command_total. Qed.
Lemma write_addr_total reg a len : 0 <= len <= Z.of_nat (length a) -> total (write_addr reg a len).
Proof. intros Hl. unfold write_addr. rewrite mem_read_take by lia. apply rf_send_total. Qed.

(** The arrays of rfhelp.c, and a configuration with an address. *)
Record radio_sized (conf : nrf_config) (s : rfhelp_state C) : Prop := {
  rs_conf : nrf_conf s = conf;
  rs_address : length (nrf_address conf) = 3%nat;
  rs_rx : length (rx_addr s) = 6%nat;
  rs_rx_each : Forall (fun a => length a = 5%nat) (rx_addr s);
  rs_tx : length (tx_addr s) = 5%nat;
  rs_set : length (rx_addr_set s) = 6%nat
}.
Definition radio_ready (conf : nrf_config) (s : rfhelp_state C) : Prop := radio_sized conf s /\ address_length s = 3.

Lemma radio_total {A} (m : ST C A) conf : total m -> safe (radio_ready conf) (radio m).
Proof.
  intros Hm s [[H1 H2 H3 H4 H5 H6] Hl]. destruct (Hm (pins s) I) as (a & c & E & _). exists a, (s <| pins := c |>).
  split; [unfold radio; by rewrite E|]. by split.
Qed.

Lemma radio_bind {A B} (m : ST C A) (k : A -> ST (rfhelp_state C) B) conf : total m ->
  (forall a, safe (radio_ready conf) (k a)) -> safe (radio_ready conf) (a ← radio m; k a).
Proof. intros Hm. apply safe_bind. by apply radio_total. Qed.

Lemma restart_settings_safe conf conf' : safe (radio_ready conf) (restart_settings conf').
Proof.
  unfold restart_settings.
  apply radio_bind; [apply clear_bits_total|intros _].
  apply radio_bind; [apply write_byte_total|intros _].
  apply radio_bind; [apply write_byte_total|intros _].
  apply radio_bind; [apply update_total|intros _].
  apply radio_bind; [apply update_total|intros _].
  apply radio_bind; [apply update_total|intros _].
  apply radio_bind; [apply update_total|intros _].
  apply radio_bind; [apply update_total|intros _].
  apply radio_bind; [apply write_byte_total|intros _].
  apply radio_bind; [apply write_byte_total|intros _].
  apply radio_bind; [apply set_bits_total|intros _].
  apply radio_bind; [apply set_bits_total|intros _].
  apply radio_bind; [apply set_bits_total|intros _].
  apply radio_total, set_bits_total.
Qed.

(** Running the first of several steps. *)
Lemma rfh_run {A B} (f : rfhelp_state C -> A) (k : A -> ST (rfhelp_state C) B) s : (mbind k (rfh f)) s = k (f s) s.
Proof. done. Qed.
Lemma rfh_opt_run {A B} o a (k : A -> ST (rfhelp_state C) B) s : o = Some a -> (mbind k (rfh_opt o)) s = k a s.
Proof. by intros ->. Qed.
Lemma radio_run {A B} (m : ST C A) a c (k : A -> ST (rfhelp_state C) B) s : m (pins s) = Some (a, c) ->
  (mbind k (radio m)) s = k a (s <| pins := c |>).
Proof. intros E. unfold mbind, ST_bind, radio. by rewrite E. Qed.
Lemma rmodify_run {B} f (k : unit -> ST (rfhelp_state C) B) s : (mbind k (st_modify f)) s = k tt (f s).
Proof. done. Qed.

Lemma rfh_bind {A B} (f : rfhelp_state C -> A) (k : A -> ST (rfhelp_state C) B) (P : rfhelp_state C -> Prop) Q :
  (forall s, P s -> exists b s', k (f s) s = Some (b, s') /\ Q b s') -> triple P (a ← rfh f; k a) Q.
Proof. intros Hk s Hs. exact (Hk s Hs). Qed.

Lemma mem_write_sized bs (a : list Z) : (length bs <= length a)%nat ->
  exists a', mem_write 0 bs a = Some a' /\ length a' = length a.
Proof. intros Hl. rewrite mem_write_addr by done. eexists. split; [done|]. rewrite length_app, length_drop. lia. Qed.

Lemma set_tx_addr_safe conf addr : length addr = 3%nat -> safe (radio_ready conf) (set_tx_addr addr).
Proof.
  intros Ha s [[H1 H2 H3 H4 H5 H6] Hl]. destruct (mem_write_sized addr (tx_addr s)) as (tx & E & Et); [lia|].
  exists tt, (s <| tx_addr := tx |>). split.
  - unfold set_tx_addr, rfh, rfh_opt, mbind, ST_bind. by rewrite E.
  - split; [split; try done|done]. change (length tx = 5%nat). lia.
Qed.

Lemma set_rx_addr_safe conf addr : length addr = 3%nat -> safe (radio_ready conf) (set_rx_addr 0 addr).
Proof.
  intros Ha s [[H1 H2 H3 H4 H5 H6] Hl].
  destruct (at_ix_Some (rx_addr s) 0) as [a Ea]; [lia|].
  assert (Hal : length a = 5%nat). { unfold at_ix in Ea. cbn in Ea. exact (Forall_lookup_1 _ _ _ _ H4 Ea). }
  destruct (mem_write_sized addr a) as (a' & E & Et); [lia|].
  exists tt, (s <| rx_addr := <[0%nat := a']> (rx_addr s) |>). split.
  - unfold set_rx_addr, rfh, rfh_opt, mbind, ST_bind. rewrite Ea. cbn [mbind option_bind]. rewrite E. cbn [mbind option_bind].
    by rewrite put_ix_Some by lia.
  - split; [split; try done|done].
    + change (length (<[0%nat := a']> (rx_addr s)) = 6%nat). by rewrite length_insert.
    + change (Forall (fun a => length a = 5%nat) (<[0%nat := a']> (rx_addr s))). apply Forall_insert; [done|lia].
Qed.

Lemma use_tx_addr_safe conf : safe (radio_ready conf) use_tx_addr.
Proof.
  apply rfh_bind. intros s Hs. apply radio_total; [|done]. destruct Hs as [[] Hl]. apply write_addr_total. unfold id. lia.
Qed.
Lemma use_rx_addr_safe conf : safe (radio_ready conf) (use_rx_addr 0).
Proof.
  apply rfh_bind. intros s Hs. assert (Hs' := Hs). destruct Hs' as [[H1 H2 H3 H4 H5 H6] Hl]. unfold id.
  destruct (at_ix_Some (rx_addr s) 0) as [a Ea]; [lia|].
  assert (Hal : length a = 5%nat). { unfold at_ix in Ea. cbn in Ea. exact (Forall_lookup_1 _ _ _ _ H4 Ea). }
  unfold rfh_opt, mbind, ST_bind. rewrite Ea. cbn [mbind option_bind].
  apply (radio_total (rf_set_rx_addr 0 a (address_length s)) conf); [|done]. apply write_addr_total. lia.
Qed.

Lemma rfhelp_restart_safe conf : safe (radio_ready conf) rfhelp_restart.
Proof.
  apply rfh_bind. intros s Hs. assert (Hc := rs_conf _ _ (proj1 Hs)). assert (Ha := rs_address _ _ (proj1 Hs)). rewrite Hc.
  revert s Hs Hc. enough (safe (radio_ready conf) (restart_settings conf;; (addr ← rfh_opt (mem_read (nrf_address conf) 0 3);
    set_tx_addr addr;; set_rx_addr 0 addr;; st_modify (fun s => s <| tx_pipe0_addr_eq := true |>);;
    use_tx_addr;; use_rx_addr 0;; radio rf_power_up;; radio rf_mode_rx;; radio rf_flush_all;; radio rf_clear_irq))) as Hsafe.
  { intros s Hs _. exact (Hsafe s Hs). }
  apply safe_bind; [apply restart_settings_safe|]. intros _.
  eapply triple_bind with (Q := fun addr s => radio_ready conf s /\ length addr = 3%nat).
  { intros s Hs. exists (take 3 (drop 0 (nrf_address conf))), s. unfold rfh_opt. rewrite mem_read_take by lia.
    split; [done|]. split; [done|]. rewrite drop_0, length_take. lia. }
  intros addr s [Hs Hl]. revert s Hs.
  apply (safe_bind _ _ _ (set_tx_addr_safe conf addr Hl)). intros _.
  apply (safe_bind _ _ _ (set_rx_addr_safe conf addr Hl)). intros _.
  apply safe_bind; [apply safe_modify; intros s [[] ?]; by split|]. intros _.
  apply safe_bind; [apply use_tx_addr_safe|]. intros _. apply safe_bind; [apply use_rx_addr_safe|]. intros _.
  apply radio_bind; [apply set_bits_total|]. intros _. apply radio_bind; [apply set_bits_total|]. intros _.
  apply radio_bind; [apply flush_total|]. intros _. apply radio_total, write_byte_total.
Qed.

Lemma read_rx_addrs_safe conf n : forall i, (i + n <= 6)%nat -> safe (radio_ready conf) (read_rx_addrs n i).
Proof.
  induction n as [|n IH]; intros i Hi; cbn [read_rx_addrs]; [apply safe_ret|].
  intros s Hs. assert (Hs0 := Hs). destruct Hs0 as [[H1 H2 H3 H4 H5 H6] Hl]. rewrite rfh_run, Hl.
  destruct (rf_receive_length (u8 (Z.lor NRF_CMD_READ_REGISTER NRF_REG_RX_ADDR_P0)) 3 (pins s) I) as (bs & c & E & Hbs).
  assert (Hbs' : length bs = 3%nat) by exact Hbs. rewrite (radio_run _ bs c) by exact E.
  destruct (lookup_lt_is_Some_2 (rx_addr s) i) as [a Ea]; [lia|].
  assert (Hal : length a = 5%nat) by exact (Forall_lookup_1 _ _ _ _ H4 Ea).
  destruct (mem_write_sized bs a) as (a' & Ew & Et); [lia|].
  rewrite rfh_run. rewrite (rfh_opt_run _ a) by exact Ea. rewrite (rfh_opt_run _ a') by exact Ew. rewrite rfh_run.
  rewrite (rfh_opt_run _ (<[i := false]> (rx_addr_set s))) by (cbn; rewrite put_ix_Some by lia; by rewrite Nat2Z.id).
  rewrite rmodify_run. apply IH; [lia|].
  split; [split; try done|done].
  - change (length (<[i := a']> (rx_addr s)) = 6%nat). by rewrite length_insert.
  - change (Forall (fun a => length a = 5%nat) (<[i := a']> (rx_addr s))). apply Forall_insert; [done|lia].
  - change (length (<[i := false]> (rx_addr_set s)) = 6%nat). by rewrite length_insert.
Qed.

Lemma compare_addr_safe conf : safe (radio_ready conf) compare_addr.
Proof.
  intros s Hs. assert (Hs0 := Hs). destruct Hs0 as [[H1 H2 H3 H4 H5 H6] Hl].
  destruct (lookup_lt_is_Some_2 (rx_addr s) 0) as [a Ea]; [lia|].
  assert (Hal : length a = 5%nat) by exact (Forall_lookup_1 _ _ _ _ H4 Ea).
  unfold compare_addr, rfh, rfh_opt, same_addr, id, mbind, ST_bind, st_modify. rewrite Ea, Hl. cbn [mbind option_bind].
  rewrite !mem_read_take by lia. cbn [mbind option_bind]. eexists _, _. split; [reflexivity|]. by split.
Qed.

Lemma rfhelp_init_safe conf : triple (radio_sized conf) rfhelp_init (fun _ => radio_ready conf).
Proof.
  intros s Hs. assert (Hinit : exists b s1, (d ← rfh spi_init_done; radio (spi_sw_init d)) s = Some (b, s1) /\ radio_sized conf s1).
  { unfold rfh, radio, spi_sw_init, mbind, ST_bind, st_modify, mret, ST_ret. destruct Hs.
    destruct (spi_init_done s); (eexists _, _; split; [reflexivity|by split]). }
  destruct Hinit as (b & s1 & E & Hs1).
  assert (Hb : forall (k : bool -> ST (rfhelp_state C) unit),
    (d ← rfh spi_init_done; d ← radio (spi_sw_init d); k d) s = k b s1).
  { intros k. revert E. unfold rfh, mbind, ST_bind. by intros ->. }
  unfold rfhelp_init. rewrite Hb. clear Hb E Hs s.
  unfold mbind at 1, ST_bind at 1. unfold st_modify at 1.
  set (s2 := s1 <| spi_init_done := b |> <| address_length := 3 |>).
  assert (Hs2 : radio_ready conf s2) by (destruct Hs1; by split).
  clearbody s2. revert s2 Hs2. clear s1 Hs1 b. change (safe (radio_ready conf) (read_rx_addrs 6 0;; (
    len ← rfh address_length; bs ← radio (rf_read_reg NRF_REG_TX_ADDR len);
    tx ← rfh tx_addr; tx ← rfh_opt (mem_write 0 bs tx);
    st_modify (fun s => s <| tx_addr := tx |>);; compare_addr;; st_modify (fun s => s <| rf_init_done := true |>)))).
  apply safe_bind; [by apply read_rx_addrs_safe|]. intros _ s Hs. assert (Hs0 := Hs). destruct Hs0 as [[H1 H2 H3 H4 H5 H6] Hl].
  rewrite rfh_run, Hl.
  destruct (rf_receive_length (u8 (Z.lor NRF_CMD_READ_REGISTER NRF_REG_TX_ADDR)) 3 (pins s) I) as (bs & c & E & Hbs).
  assert (Hbs' : length bs = 3%nat) by exact Hbs. rewrite (radio_run _ bs c) by exact E. rewrite rfh_run.
  destruct (mem_write_sized bs (tx_addr s)) as (tx & Ew & Et); [lia|]. rewrite (rfh_opt_run _ tx) by exact Ew.
  rewrite rmodify_run.
  assert (Hk : safe (radio_ready conf) (compare_addr;; st_modify (fun s => s <| rf_init_done := true |>))).
  { apply safe_bind; [apply compare_addr_safe|]. intros _. apply safe_modify. intros t [[] ?]. by split. }
  apply Hk. split; [split; try done|done]. change (length tx = 5%nat). lia.
Qed.
End RadioTotal.

(** ** The applications *)

(** The applications with threads that a configuration starts. *)
Definition threads_of (a : Z) : list app :=
  if a =? APP_PPM then [PPM] else if a =? APP_ADC then [ADC true] else if a =? APP_UART then [UART]
  else if a =? APP_PPM_UART then [PPM; UART] else if a =? APP_ADC_UART then [ADC false; UART]
  else if a =? APP_NUNCHUK then [NUNCHUK] else if a =? APP_NRF then [NRF] else [].

Section Apps.
Context {C : Type} `{NrfPins C} {D F : Type} `{Board D}.
Abbreviation W := (world D F).

(** Before the start the radio is not in use; its arrays have their sizes. *)
Record radio_unused (s : rfhelp_state C) : Prop := {
  ru_init : rf_init_done s = false;
  ru_rx : length (rx_addr s) = 6%nat;
  ru_rx_each : Forall (fun a => length a = 5%nat) (rx_addr s);
  ru_tx : length (tx_addr s) = 5%nat;
  ru_set : length (rx_addr_set s) = 6%nat
}.

Lemma app_set_run conf (s : app_state C) (w : W) :
  radio_unused (rfhelp (a_nrf s)) -> length (nrf_address (app_nrf_conf conf)) = 3%nat ->
  exists s', app_set_configuration conf (s, w) = Some (tt, (s', w)) /\ configured_as conf s' /\ started s' = started s /\
    radio_sized (app_nrf_conf conf) (rfhelp (a_nrf s')).
Proof.
  intros [Hr H1 H2 H3 H4] Ha.
  destruct s as [? [sv run ? ? ? ?] ad ua ch [? ? ? ? ? ? ? ? [rxa txa rxs len eq nc rd ? ?]] st]. cbn in *. subst rd.
  unfold app_set_configuration, app_ppm_configure, rfhelp_update_conf.
  destruct run; (eexists; split; [reflexivity|by repeat split]).
Qed.

Lemma app_init_run conf (s : app_state C) (w : W) :
  radio_unused (rfhelp (a_nrf s)) -> length (nrf_address (app_nrf_conf conf)) = 3%nat ->
  exists s', app_init conf (s, w) = Some (tt, (s', w)) /\ configured_as conf s' /\
    started s' = started s ++ threads_of (app_to_use conf).
Proof.
  intros Hr Ha. unfold app_init. destruct (app_set_run conf s w Hr Ha) as (s1 & E & Hc & Hs & Hz).
  rewrite (ST_bind_Some _ _ _ _ _ E). cbv zeta. unfold threads_of. rewrite <- Hs.
  destruct (app_to_use conf =? APP_PPM); [|destruct (app_to_use conf =? APP_ADC); [|destruct (app_to_use conf =? APP_UART);
    [|destruct (app_to_use conf =? APP_PPM_UART); [|destruct (app_to_use conf =? APP_ADC_UART);
    [|destruct (app_to_use conf =? APP_NUNCHUK)]]]]].
  - eexists. split; [reflexivity|]. split; [by destruct Hc; split|done].
  - eexists. split; [reflexivity|]. split; [by destruct Hc; split|done].
  - eexists. split; [reflexivity|]. split; [by destruct Hc; split|done].
  - eexists. split; [reflexivity|]. split; [by destruct Hc; split|cbn; by rewrite <- app_assoc].
  - eexists. split; [reflexivity|]. split; [by destruct Hc; split|cbn; by rewrite <- app_assoc].
  - eexists. split; [reflexivity|]. split; [by destruct Hc; split|done].
  - destruct (app_to_use conf =? APP_NRF); [|exists s1; by rewrite app_nil_r].
    destruct (rfhelp_init_safe _ _ Hz) as ([] & r1 & E1 & Hr1).
    destruct (rfhelp_restart_safe _ _ Hr1) as ([] & r2 & E2 & [[Hn _] _]).
    assert (E3 : exists n, on_nrf nrf_driver_init (s1, w) = Some (tt, (s1 <| a_nrf := n |>, w)) /\ rfhelp n = r1).
    { eexists. split; [unfold on_nrf, nrf_driver_init, NrfDriver.on_rfhelp, mbind, ST_bind; by rewrite E1|done]. }
    destruct E3 as (n & E3 & En). rewrite (ST_bind_Some _ _ _ _ _ E3). unfold start, own_set. cbn [mbind ST_bind].
    unfold mbind, ST_bind. set (s3 := s1 <| a_nrf := n |>).
    exists (s3 <| started := started s3 ++ [NRF] |> <| a_nrf := n <| rfhelp := r2 |> |>). split.
    + unfold on_radio. change (rfhelp (a_nrf (s3 <| started := started s3 ++ [NRF] |>))) with (rfhelp n).
      by rewrite En, E2.
    + split; [by destruct Hc; split|done].
Qed.
End Apps.

(** ** The start *)

Section Boot.
Context {C : Type} `{NrfPins C} {D F : Type} `{Board D} `{Flash F} `{!FlashLaws F} `{!FlashReliable F} `{Positions D}.
Context `{Layout mc_configuration} `{!LayoutOk mc_configuration}.
Context `{Layout app_configuration} `{!LayoutOk app_configuration} `{LibmTrig} `{LibmPow}.
Abbreviation W := (world D F).
Abbreviation X := (main_state C).

(** What reading the EEPROM gives depends on nothing else. *)
Lemma read_image_total base n : forall i old (w : W), 0 <= i -> 2 * (i + Z.of_nat n) <= Z.of_nat (length old) ->
  exists r, forall w' : W, w_ee w' = w_ee w -> read_image n base i old w' = Some (r, w').
Proof.
  induction n as [|n IH]; intros i old w Hi Hn; cbn [read_image]; [by exists (old, true)|].
  destruct (EE_ReadVariable (u16 (base + i)) 0 (ee_flash (w_ee w))) as [st v] eqn:E. destruct (st =? 0) eqn:Est.
  - destruct (IH (i + 1) (<[Z.to_nat (2 * i + 1) := Z.land v 255]> (<[Z.to_nat (2 * i) := Z.land (Z.shiftr v 8) 255]> old)) w)
      as [r Hr]; [lia|rewrite !length_insert; lia|].
    exists r. intros w' Hw. unfold mbind at 1, ST_bind at 1. unfold ee_read at 1. rewrite Hw, E, Est.
    unfold lift_opt, arr_set. unfold mbind at 1, ST_bind at 1. rewrite decide_True by lia.
    cbn [mbind option_bind]. unfold mbind at 1, ST_bind at 1. rewrite length_insert, decide_True by lia.
    cbn [mbind option_bind]. by apply Hr.
  - exists (old, false). intros w' Hw. unfold mbind at 1, ST_bind at 1. unfold ee_read at 1. by rewrite Hw, E, Est.
Qed.

Lemma read_mc_total old (w : W) :
  exists mc, forall w' : W, w_ee w' = w_ee w -> conf_general_read_mc_configuration old w' = Some (mc, w').
Proof.
  destruct (read_image_total EEPROM_BASE_MCCONF (half_words mc_configuration) 0 (image old) w) as [[bytes ok] Hr];
    [done|rewrite (image_length old); lia|].
  exists (if ok then of_image bytes else conf_general_get_default_mc_configuration). intros w' Hw.
  unfold conf_general_read_mc_configuration. by rewrite (ST_bind_Some _ _ _ _ _ (Hr w' Hw)).
Qed.

Lemma mc_init_run mc (w : W) :
  exists d, mc_interface_init mc w = Some (tt, w <| w_mci := mci_init mc (w_mci w) |> <| w_hw := d |>).
Proof.
  unfold mc_interface_init, init_encoder, motor_do, by_motor, mci_set, mci, hw_do, st_modify, mret, ST_ret, mbind, ST_bind.
  cbv beta iota zeta. repeat case_match; simplify_eq; eexists; reflexivity.
Qed.

(** The static variables the start relies on. *)
Record at_reset (x : X) : Prop := {
  re_gamma : length (pwm_gamma (x_leds x)) = 201%nat;
  re_radio : radio_unused (rfhelp (a_nrf (x_apps x)))
}.

Lemma ledpwm_init_run l : length (pwm_gamma l) = 201%nat -> exists l', ledpwm_init l = Some l'.
Proof.
  intros Hl. unfold ledpwm_init.
  destruct (fill_run (gamma_entry LEDPWM_CNT_TOP) 201 0 (pwm_gamma l)) as (g & -> & _); [done|lia|]. by eexists.
Qed.

(** The firmware runs with the configuration [conf]: the applications, the
    timeout and the core have it, the threads it asks for are started; the motor
    control interface has the motor configuration of the EEPROM, no fault and no
    lock, and the USB line takes packets. *)
Record runs_with (conf : app_configuration) (mc0 : mc_configuration) (before : list app) (x : X) (w : W) : Prop := {
  rw_apps : configured_as conf (x_apps x);
  rw_started : started (x_apps x) = before ++ threads_of (app_to_use conf);
  rw_core : appconf w = conf;
  rw_timeout : w_tmo w = mkTimeout (timeout_msec conf) 0 (timeout_brake_current conf) false;
  rw_mc : conf_general_read_mc_configuration mc0 w = Some (m_conf (w_mci w), w);
  rw_fault : m_fault_now (w_mci w) = FAULT_CODE_NONE /\ m_lock_enabled (w_mci w) = false;
  rw_can : rx_frame_read (w_can w) = 0 /\ rx_frame_write (w_can w) = 0;
  rw_usb : Packet.process_func (usb_handler (x_usb x)) = Some 2
}.

Lemma on_leds_then {A} f l (k : unit -> ST (X * W) A) (x : X) (w : W) : f (x_leds x) = Some l ->
  (mbind k (on_leds f)) (x, w) = k tt (x <| x_leds := l |>, w).
Proof. intros E. unfold mbind, ST_bind, on_leds. by rewrite E. Qed.
Lemma own_set_then {A} f (k : unit -> ST (X * W) A) (x : X) (w : W) : (mbind k (own_set f)) (x, w) = k tt (f x, w).
Proof. done. Qed.
Lemma core_then {A B} (m : ST W B) b (k : B -> ST (X * W) A) (x : X) (w w' : W) : m w = Some (b, w') ->
  (mbind k (core m)) (x, w) = k b (x, w').
Proof. intros E. exact (ST_bind_Some _ _ _ _ _ (core_run m x w b w' E)). Qed.
Lemma on_apps_then {A} m s (k : unit -> ST (X * W) A) (x : X) (w : W) : m (x_apps x, w) = Some (tt, (s, w)) ->
  (mbind k (on_apps m)) (x, w) = k tt (x <| x_apps := s |>, w).
Proof. intros E. unfold mbind, ST_bind, on_apps. by rewrite E. Qed.

Lemma main_init_run conf mc0 app0 m (x : X) (w : W) :
  (half_words app_configuration <= 80)%nat -> of_image (image conf) = conf ->
  length (nrf_address (app_nrf_conf conf)) = 3%nat -> at_reset x ->
  represents (conf_table (half_words app_configuration)) m (ee_flash (w_ee w)) -> holds_app conf (fun va => m !! va) ->
  exists x' w', main_init mc0 app0 (x, w) = Some (tt, (x', w')) /\ runs_with conf mc0 (started (x_apps x)) x' w'.
Proof.
  intros Hn Hc Ha [Hg Hr] Hrep Hold. unfold main_init.
  erewrite on_leds_then by reflexivity.
  destruct (conf_general_init_table m w Hn (or_intror Hrep)) as (e & Ei & Hrep').
  rewrite (core_then _ _ _ _ _ _ Ei). set (w1 := with_ee e _).
  destruct (ledpwm_init_run ((x_leds x) <| red_on := false |> <| green_on := false |>)) as [l El]; [exact Hg|].
  rewrite (on_leds_then _ l) by exact El.
  destruct (read_mc_total mc0 w1) as [mc Hmc]. rewrite (core_then _ _ _ _ _ _ (Hmc w1 eq_refl)).
  destruct (mc_init_run mc w1) as [d Em]. rewrite (core_then _ _ _ _ _ _ Em), own_set_then.
  set (w2 := _ <| w_hw := d |>).
  assert (Hold' : holds_app conf (ee_lookup (ee_flash (w_ee w2)))).
  { intros k Hk. change (w_ee w2) with e. rewrite (lookup_represents _ _ _ _ Hrep'); [by apply Hold|].
    apply elem_of_conf_table; [exact Hn|]. unfold EEPROM_BASE_APPCONF. lia. }
  rewrite (core_then _ _ _ _ _ _ (read_app_run conf app0 w2 Hn Hc Hold')).
  erewrite core_then by reflexivity. set (w3 := w2 <| World.appconf := conf |>).
  destruct (app_init_run conf (x_apps x) w3 Hr Ha) as (s & Es & Hs & Hst). rewrite (on_apps_then _ s) by exact Es.
  erewrite core_then by reflexivity. erewrite core_then by reflexivity.
  eexists _, _. split; [reflexivity|]. split; try done.
  etransitivity; [by apply Hmc|reflexivity].
Qed.

(** C29. An application configuration that was stored is in force after a
    restart: whatever the memory holds, as long as the flash is as the
    store left it, main comes to its idle loop, and the applications, the
    timeout and the core have exactly that configuration, the threads it
    asks for and no others are started (the radio included), and the motor
    control interface has the motor configuration of the EEPROM, no fault
    and no lock. *)
Theorem boot_restores_configuration conf m (w : W) :
  (half_words app_configuration <= 80)%nat -> of_image (image conf) = conf ->
  length (nrf_address (app_nrf_conf conf)) = 3%nat ->
  VirtAddVarTab w = conf_table (half_words app_configuration) ->
  represents (conf_table (half_words app_configuration)) m (ee_flash (w_ee w)) -> 0 <= sys_lock_cnt (w_sys w) ->
  exists w1, conf_general_store_app_configuration conf w = Some (true, w1) /\
    forall (x : X) (w2 : W) mc0 app0, at_reset x -> ee_flash (w_ee w2) = ee_flash (w_ee w1) ->
    exists x' w', main_init mc0 app0 (x, w2) = Some (tt, (x', w')) /\ runs_with conf mc0 (started (x_apps x)) x' w'.
Proof.
  intros Hn Hc Ha Ht Hrep Hcnt.
  destruct (app_configuration_saved conf m w Hn Ht Hrep Hcnt) as (w1 & m' & Hst & Hrep' & Hold & _).
  exists w1. split; [exact Hst|]. intros x w2 mc0 app0 Hx Hee.
  apply (main_init_run conf mc0 app0 m' x w2 Hn Hc Ha Hx); [by rewrite Hee|exact Hold].
Qed.
End Boot.

(** ** Witness: the board of [BoardSim], a radio behind four pins *)

#[export] Instance sim_positions : Positions sim := {
  mcpwm_get_detect_pos _ d := (f0, d);
  mcpwm_foc_get_phase_observer _ := f0;
  mcpwm_foc_get_phase_encoder _ := f0
}.

Definition boot_appconf : app_configuration :=
  of_image (image (sim_appconf <| app_to_use := APP_NRF |> <| timeout_msec := 500 |>)).

(** The static variables at reset, with any configuration. *)
Definition main_reset (c : app_configuration) : main_state (slave chip) :=
  mkMain _ (mkApps _ c (mkPpm servo_reset false (app_ppm_conf c) 0 0 false) (adc_reset (app_adc_conf c)) uart_reset
      (chuk_reset (app_chuk_conf c))
      (mkNrf _ (mkMote 0 0 false false false f0) (replicate 1024 0) 0 0 0 (replicate 32 0) 0
        (mk_chuck_data 0 0 0 0 0 false false) (rfhelp_state1 <| rf_init_done := false |>)) [])
    usb_reset ledpwm_reset.

Lemma boot_restores_configuration_witness (T := {| sincosf := fun _ => (f0, f0); atan2f := fun _ _ => f0; roundf := fun x => x |})
    (P := {| powf := fun x _ => x |}) :
  exists w1 x' w', conf_general_store_app_configuration boot_appconf formatted_world = Some (true, w1) /\
    main_init sim_conf sim_appconf (main_reset sim_appconf, with_ee (w_ee w1) (sim_world MOTOR_TYPE_FOC)) = Some (tt, (x', w')) /\
    runs_with boot_appconf sim_conf [] x' w'.
Proof.
  destruct (boot_restores_configuration boot_appconf ∅ formatted_world (C := slave chip) (proj1 sim_half_words))
    as (w1 & Hst & Hboot).
  - vm_compute. reflexivity.
  - vm_compute. reflexivity.
  - reflexivity.
  - exact formatted_represents.
  - exact (Z.le_refl 0).
  - destruct (Hboot (main_reset sim_appconf) (with_ee (w_ee w1) (sim_world MOTOR_TYPE_FOC)) sim_conf sim_appconf)
      as (x' & w' & Hrun & Hok); [|reflexivity|].
    + split; [reflexivity|]. split; [reflexivity|reflexivity|repeat constructor|reflexivity|reflexivity].
    + exact (ex_intro _ w1 (ex_intro _ x' (ex_intro _ w' (conj Hst (conj Hrun Hok))))).
Defined.
